(* ===== verification/_CoqProject ===== *)
-Q . S2P
Prelude.v
Spinlock.v
ProcTable.v
CString.v
Proc.v
ProcInv.v
ProcSpec.v
ProcSched.v
ProcLife.v
ProcCtl.v
ProcExit.v
Machine.v
Boot.v
Example.v
ProcProps.v
ProcLive.v
Kalloc.v
Vm.v
VmSpec.v
VmUser.v
VmCopy.v
VmOut.v
VmProps.v
Seg.v
Bytes.v
Kern.v
Bio.v
Log.v
LogProps.v
Fs.v
FsSpec.v
FsDemo.v
FsBlocks.v
FsInode.v
FsData.v
FsPath.v
Pipe.v
Syscall.v
File.v
Sysfile.v
Exec.v
ExecProps.v
Printf.v
Listing.v
Sysproc.v
Trap.v
Mkfs.v
MkfsProps.v
MkfsBuild.v
MkfsRead.v
Cga.v
Console.v
Ports.v
ConsIntr.v
Kbd.v
Irq.v
Uart.v
Lapic.v
Mp.v
Ata.v
Ide.v
Bootmain.v
Date.v
Grep.v
Sh.v
ShProps.v
ShRound.v
ShRun.v
Utils.v
ShMain.v
Umalloc.v
