(* ===== verification/Prelude.v ===== *)
(** * Verification of the xv6-pdx kernel

    xv6-pdx (CS333/xv6-pdx under src/) is the teaching kernel xv6 for a 32-bit
    x86 multiprocessor, extended with user and group ids, process state lists, a
    multi-level feedback queue and file protection.  This library translates
    its C code into executable Rocq definitions, one definition per C function,
    and proves what makes the components correct.  The build modelled is the
    one of the Makefile: CS333_PROJECT = 5, so the P1, P2, P3P4 and P5 parts of
    the sources are compiled in.

    ** How code is modelled

    This file holds the shared vocabulary.  C integers are [Z] with the
    wrap-around of their width written out ([u32], [i32], [u16], [i16], [u8]).
    Code that changes state is in the monad [M S A]: it returns ([Ok]), calls
    panic ([Panic]), dereferences a null or bad address ([Fault]), or spins,
    waits or exceeds its fuel ([Hang]).  [wp] is total or partial correctness
    of such code, by the instance of [Mode]; theorems that say that code returns
    are stated as [m s = Ok a s'].  Loops over linked lists ([list_for]) carry as
    fuel the size of the table they run over, and the theorems prove that it is
    enough.

    Code outside the modelled components is a parameter: the class
    [Proc.Services] for what proc.c calls (pages, page tables, files, inodes),
    the linker's symbol [end], device drivers behind devsw.

    ** Processes (proc.c, proc.h, spinlock.c, string.c, ulib.c)

    - Spinlock: locks, pushcli and popcli, per-CPU state.
    - ProcTable: struct proc, ptable, the intrusive state lists with head and
      tail, [stateListAdd] and [stateListRemove], refined to sequences.
    - CString: memset to strlen of string.c, and the user library's versions.
    - Proc: allocproc, userinit, growproc, fork, exit, wait, scheduler, sched,
      yield, forkret, sleep, wakeup, kill, setpriority, in the order of the code
      and with each context switch cut at the call of swtch.
    - ProcInv, ProcSpec, ProcSched, ProcLife, ProcCtl, ProcExit: the table
      invariant [tinv] (each process is on exactly the list of its state) and
      one lemma per operation.
    - Machine, Boot, Example: several CPUs as a step relation, boot, and a
      concrete machine.
    - ProcProps: in every reachable state of the machine the invariant holds, no
      step panics or faults (but for one recorded defect of setpriority), and no
      process runs on two CPUs; what each operation does to the lists.
    - ProcLive: bounded waiting.  The process at position k of the ready list is
      dispatched by one of the next k + 1 steps of a scheduler, whatever the
      CPUs do in between.

    ** Memory (kalloc.c, vm.c, mmu.h)

    - Kalloc: the free list threaded through the free pages' bytes, refined to a
      sequence; kalloc, kfree, freerange, kinit1 and kinit2.
    - Vm: walkpgdir to copyout of vm.c, on directories and tables that are words
      of the same memory.
    - VmSpec: the tables as a map from pages to entries, the separation of
      directory, tables, user pages and free pages, and mappages.
    - VmUser, VmCopy, VmOut, VmProps: growing, shrinking and copying an address
      space and writing to it from the kernel.  Every operation returns; it
      changes only the entries it should, the pages it hands out are zeroed or
      copied and belong to nobody else, and every byte outside the directory,
      its tables and the free pages is untouched, also when memory runs out.
      When allocuvm fails, all free pages but at most one are free again or
      tables; it may also return the new size with the last page missing, as it
      does not test mappages.
    - Seg: segment descriptors, task state and interrupt gates as bit fields, and
      as the CPU reads them: seginit, switchuvm and tvinit.

    ** Disk and file system (bio.c, memide.c, ide.c, log.c, fs.c, file.c, sysfile.c,
    pipe.c, mkfs.c)

    - Kern: the locks held, waiting and waking, as these components see them.
    - Bytes: little-endian fields of byte arrays.
    - Bio: the buffer cache, pointer by pointer, on the memory disk.  Every block
      has at most one buffer, the least recently used clean buffer is recycled,
      and no block's contents, as bread shows them, change but by writing.
    - Ata: the disk controller as an interface, with a concrete controller, and
      the loop that waits for it.  A sector of data is accepted only when the
      controller is not busy; the class [PromptWrite] is a controller that is
      ready for the data of a write at once, which the driver, as it does not
      wait, relies on (with a slower one [Ide.slow_write_lost] loses the data).
    - Ide: the disk driver.  On such a controller requests, interrupts and wake-ups in any order do
      what a first-come-first-served queue does, and a request on an idle disk
      has the effect of iderw of memide.c, the one that Bio is stated for.
    - Log, LogProps: the log with a trace of every disk state a crash can leave.
      A commit is atomic under a crash after any block write, recovery restores
      a transaction boundary and may itself be interrupted, transactions are
      invisible on disk until they commit, and within the reservations of
      the operations log_write panics exactly when the log already holds all but
      one of its blocks, as happens with the 30 blocks mkfs gives it.
    - Fs: all of fs.c, and FsSpec, FsDemo, FsBlocks, FsInode, FsData, FsPath its
      properties: block allocation, inode references, the on-disk inode format,
      reading and writing files through direct and indirect blocks, paths.
    - Pipe: pipes, whose bytes come out in order under every interleaving of the
      segments of reads and writes, with the 32-bit counters wrapping around.
    - File, Sysfile: the open-file table and every file-system call, composed
      from the components above.

    - Mkfs, MkfsProps, MkfsBuild, MkfsRead: the image builder mkfs.c.  For files
      that fit, the image has exactly the files asked for, laid out as the kernel
      expects; the kernel finds them by their names and reads their bytes.

    Log states the block cache it runs on as a map of block contents with the
    flags of each block, and counts the buffers that are left ([Log.spare]), so
    that bread panics when all NBUF are dirty or in use; Bio proves the
    corresponding facts of bio.c.  The specifications of Fs do not count them
    (the count is [None] there).

    ** System calls, traps and programs (syscall.c, sysproc.c, trap.c, exec.c)

    - Syscall: fetching integers, pointers and strings from user memory stays
      inside the process and checks what it returns.
    - Exec, ExecProps: exec on the page tables, the log and the inodes together.
      A program finds its arguments on its stack; a failing exec leaves the
      process alone; a successful one had the permission of the file the path
      leads to, starts at that file's entry point, and changes the user id
      exactly when that file is setuid.
    - Listing: the listings of the process table as the text they print.
    - Sysproc: the calls on processes and the dispatch.  A call that sleeps ends
      in [Blocked] with what is left of it.  How long sys_sleep sleeps, what the
      dispatch calls, and that getprocs reports nothing.
    - Trap: traps from and to the interrupted code.  The clock interrupt wakes
      the sleepers and preempts; no killed process gets back to its program.

    ** Console (console.c, uart.c, kbd.c)

    - Cga: the text screen, of which a character never leaves the 24 lines.
    - Console: line editing and reading over the input ring with its 32-bit
      indices, refined to a line editor on the committed characters and the
      edited line.  ConsIntr: its interrupt handler with a driver's function
      that gets the next character.
    - Kbd: the keyboard.  The shift state follows the keys, no byte the keyboard
      may send leads outside the tables, and text typed on a US keyboard, written
      down independently of the tables of kbd.h, arrives in the console.
    - Uart: the serial port, set up, sending and receiving.
    - Printf: printint, printf and cprintf as the characters they emit.

    ** Devices and start-up (x86.h, picirq.c, ioapic.c, lapic.c, timer.c, mp.c,
    bootmain.c)

    - Ports: in and out instructions on a device that is a parameter: the class
      [Ports] has its reactions, and each driver adds a class that states what
      the device's documentation says of its ports, with an instance.
    - Irq: the two interrupt controllers and the I/O APIC: exactly the enabled
      lines are delivered, at the vectors of traps.h and to the CPU asked for.
    - Lapic: the local APIC and the interval timer; starting another CPU.
    - Mp: the search for the multiprocessor tables and what is read from them.
    - Bootmain: the boot loader; it loads every segment of the kernel.
    - Date: the clock, read consistently, the date call, and date.c's day of the
      week.

    ** User programs (grep.c, printf.c, sh.c, umalloc.c, ulib.c and small ones)

    - Grep: the matcher is equivalent to a semantics of regular expressions; the
      filter over reads of arbitrary size.
    - Sh, ShProps, ShRound: the shell's parser with its strings terminated in
      place.  Parsing always ends, in a command or a message, and the printed
      form of a command parses back to it.
    - ShRun, ShMain: runcmd as a tree of system calls, run on a table of open
      files and a working directory, and the main loop.  Which calls of fork,
      pipe, open, exec and chdir succeed is a parameter ([ShRun.system]) that
      may decide anew at every call.  A session of typed lines executes the
      programs of those lines, wired and waited for as they are written.
    - Umalloc: the user allocator on a circular list of headers; blocks never
      overlap, nothing is lost, and malloc gives up exactly when no block fits
      and the kernel refuses more memory.
    - Utils: wc, cat, gets, the names of ls, print_mode and chmod.

    ** Bounds

    The list loops have NPROC, NBUF, NFILE, NINODE or a count taken from the code
    as fuel; [Kalloc.free_from] has one more than the number of pages below its
    end; [Fs.namex_loop] the length of the path, which every element shortens;
    the loops of Vm the number of pages in their range; [Sh.parsecmd] four times
    the length of the line plus four, as every round of the parser consumes a
    character or descends one of four levels; [Umalloc.malloc] twice the number
    of blocks plus three, for two turns around the list; [Console.kill_line] the
    size of the ring; [Exec.load] one more than the pages of a segment;
    [Mkfs.append_loop] the number of bytes, of which every round writes one;
    [Ata.poll], [Lapic.wait_delivered] and [Date.read_twice] the number of looks
    for which the device stays busy; [Ide.find_end] the number of buffers; the
    handlers of keyboard and serial port the characters that wait;
    [Bootmain.readsects] two more than the sectors asked for;
    [Mp.entries_loop] 8192, as a table of at most 65535 bytes has entries of at
    least 8; [ShMain.main_loop] one more than the characters of the input.

    ** Not modelled

    - sys_halt; main.c, which calls the parts in order, and the assembly files.
      [Proc.Services] keeps the page tables as parameters of proc.c.
    - the user programs that only pass their arguments to a system call; the
      test programs; the built-in commands of sh.c, which are not compiled; and
      the drafts listdumps.c and procbackup.c, which are not built.
    - malloc failing in the constructors of sh.c's parser. *)

From stdpp Require Export base tactics list functions strings numbers sets.
From Stdlib Require Export ZArith Lia.

#[export] Set Default Goal Selector "!".

(** ** Machine integers

    [uint] and [int] are 32 bits wide on the target (i386).  A C value is a
    [Z]; the conversions below are the wrap-around of the C conversions. *)

Definition w32 : Z := 4294967296.
Definition u32 (z : Z) : Z := z `mod` w32.
Definition i32 (z : Z) : Z := (z + 2147483648) `mod` w32 - 2147483648.
Definition u16 (z : Z) : Z := z `mod` 65536.
Definition i16 (z : Z) : Z := (z + 32768) `mod` 65536 - 32768.
Definition u8 (z : Z) : Z := z `mod` 256.

Lemma u32_range z : (0 <= u32 z < w32)%Z.
Proof. apply Z.mod_pos_bound. reflexivity. Qed.

Lemma u32_small z : (0 <= z < w32)%Z → u32 z = z.
Proof. apply Z.mod_small. Qed.

Lemma u32_idemp z : u32 (u32 z) = u32 z.
Proof. apply u32_small, u32_range. Qed.

Lemma u32_sub_add a b : (0 <= a < w32)%Z → u32 (u32 (a - b) + b) = a.
Proof.
  intros Ha. unfold u32, w32 in *. rewrite Zplus_mod_idemp_l.
  replace (a - b + b)%Z with a by lia. by apply Z.mod_small.
Qed.

Lemma i32_range z : (-2147483648 <= i32 z < 2147483648)%Z.
Proof. unfold i32, w32. pose proof (Z.mod_pos_bound (z + 2147483648) 4294967296). lia. Qed.

Lemma i32_small z : (-2147483648 <= z < 2147483648)%Z → i32 z = z.
Proof. intros. unfold i32, w32. rewrite Z.mod_small; lia. Qed.

Lemma i32_u32 z : (-2147483648 <= z < 2147483648)%Z → i32 (u32 z) = z.
Proof.
  intros Hz. unfold i32, u32, w32. rewrite Zplus_mod_idemp_l. apply i32_small. done.
Qed.

(** ** A state monad with the kernel's ways of not returning

    - [Ok a s]      the code returned [a] and left the state [s];
    - [Panic m s]   it called [panic(m)], which prints and stops the machine;
    - [Fault m s]   it dereferenced a null or out-of-range address;
    - [Hang s]      it spins for ever, or a loop exceeded its fuel. *)

Inductive res (S A : Type) : Type :=
| Ok (a : A) (s : S)
| Panic (msg : string) (s : S)
| Fault (what : string) (s : S)
| Hang (s : S).
Arguments Ok {S A} _ _.
Arguments Panic {S A} _ _.
Arguments Fault {S A} _ _.
Arguments Hang {S A} _.

Definition M (S A : Type) : Type := S → res S A.

Definition M_ret {S A} (a : A) : M S A := λ s, Ok a s.
Definition M_bind {S A B} (f : A → M S B) (m : M S A) : M S B := λ s,
  match m s with
  | Ok a s' => f a s'
  | Panic msg s' => Panic msg s'
  | Fault w s' => Fault w s'
  | Hang s' => Hang s'
  end.
#[export] Instance M_mret {S} : MRet (M S) := @M_ret S.
#[export] Instance M_mbind {S} : MBind (M S) := @M_bind S.

Definition panic {S A} (msg : string) : M S A := λ s, Panic msg s.
Definition fault {S A} (what : string) : M S A := λ s, Fault what s.
Definition hang {S A} : M S A := λ s, Hang s.
Definition gets {S A} (f : S → A) : M S A := λ s, Ok (f s) s.
Definition modify {S} (f : S → S) : M S unit := λ s, Ok tt (f s).
Definition when {S} (b : bool) (m : M S unit) : M S unit :=
  if b then m else mret tt.

(** A null pointer is [None]; dereferencing it faults. *)
Definition deref {S A} (p : option A) : M S A :=
  match p with Some a => mret a | None => fault "null pointer" end.

(** Running code of a component inside a bigger state. *)
Definition zoom {S T A} (get : S → T) (put : T → S → S) (m : M T A) : M S A := λ s,
  match m (get s) with
  | Ok a t => Ok a (put t s)
  | Panic msg t => Panic msg (put t s)
  | Fault w t => Fault w (put t s)
  | Hang t => Hang (put t s)
  end.

(** ** Weakest preconditions

    [wp m Q s]: running [m] from [s] returns a value and a state that satisfy
    [Q].  The proposition [may_fail] says whether the run may instead end in a
    panic, a fault or a hang: it is [False] in a total-correctness statement
    ([Total]: the code returns) and [True] in a statement about the runs that
    return ([Partial]).  Lemmas are proved for both at once. *)
Class Mode := may_fail : Prop.
Definition Total : Mode := False.
Definition Partial : Mode := True.

Definition wp `{Mode} {S A} (m : M S A) (Q : A → S → Prop) (s : S) : Prop :=
  match m s with Ok a s' => Q a s' | _ => may_fail end.

Create HintDb xv6.

Section wp.
Context `{mode : Mode} {S : Type}.
Implicit Types s : S.

Lemma wp_ret {A} (a : A) (Q : A → S → Prop) s : Q a s → wp (mret a) Q s.
Proof. done. Qed.

Lemma wp_bind {A B} (m : M S A) (f : A → M S B) (Q : B → S → Prop) s :
  wp m (λ a s', wp (f a) Q s') s → wp (m ≫= f) Q s.
Proof. unfold wp, mbind, M_mbind, M_bind. by destruct (m s). Qed.

Lemma wp_gets {A} (f : S → A) (Q : A → S → Prop) s : Q (f s) s → wp (gets f) Q s.
Proof. done. Qed.

Lemma wp_modify (f : S → S) (Q : unit → S → Prop) s : Q tt (f s) → wp (modify f) Q s.
Proof. done. Qed.

Lemma wp_deref {A} (p : A) (Q : A → S → Prop) s :
  Q p s → wp (deref (Some p)) Q s.
Proof. done. Qed.

Lemma wp_mono {A} (m : M S A) (P Q : A → S → Prop) s :
  wp m P s → (∀ a s', P a s' → Q a s') → wp m Q s.
Proof. unfold wp. destruct (m s); naive_solver. Qed.

Lemma wp_both {A} (m : M S A) (P Q : A → S → Prop) s : wp m P s → wp m Q s → wp m (λ a s', P a s' ∧ Q a s') s.
Proof. unfold wp. by destruct (m s). Qed.

Lemma wp_eq {A} (m : M S A) (Q : A → S → Prop) s a s' :
  m s = Ok a s' → Q a s' → wp m Q s.
Proof. unfold wp. by intros ->. Qed.

Lemma wp_zoom {T A} (get : S → T) (put : T → S → S) (m : M T A) (Q : A → S → Prop) s :
  wp m (λ a t, Q a (put t s)) (get s) → wp (zoom get put m) Q s.
Proof. unfold wp, zoom. by destruct (m (get s)). Qed.

Lemma wp_when (b : bool) (m : M S unit) (Q : unit → S → Prop) s :
  (if b then wp m Q s else Q tt s) → wp (when b m) Q s.
Proof. by destruct b. Qed.
End wp.

Lemma wp_total {S A} (m : M S A) (Q : A → S → Prop) s :
  wp (H:=Total) m Q s → ∃ a s', m s = Ok a s' ∧ Q a s'.
Proof. unfold wp. destruct (m s); try done. eauto. Qed.

Lemma wp_partial {S A} (m : M S A) (Q : A → S → Prop) s a s' :
  wp (H:=Partial) m Q s → m s = Ok a s' → Q a s'.
Proof. unfold wp. intros H E. by rewrite E in H. Qed.

(** In partial mode every run is acceptable. *)
Lemma wp_any {S A} (m : M S A) s : wp (H:=Partial) m (λ _ _, True) s.
Proof. unfold wp. by destruct (m s). Qed.

(** One step of symbolic execution, and as many as apply. *)
Ltac wp_step :=
  match goal with
  | |- wp (mbind _ _) _ _ => apply wp_bind
  | |- wp (mret _) _ _ => apply wp_ret
  | |- wp (gets _) _ _ => apply wp_gets; cbn beta
  | |- wp (modify _) _ _ => apply wp_modify
  | |- wp (deref (Some _)) _ _ => apply wp_deref
  | |- wp (when _ _) _ _ => apply wp_when
  end.
Ltac wp_steps := repeat (wp_step; cbn beta).

(** ** Null-terminated chains of pointers

    [chain nx h l]: following [nx] from [h] visits exactly the cells [l] and
    then reaches the null pointer. *)
Section chain.
Context {A : Type} `{EqDecision A}.

Fixpoint chain (nx : A → option A) (h : option A) (l : list A) : Prop :=
  match l with
  | [] => h = None
  | a :: l' => h = Some a ∧ chain nx (nx a) l'
  end.

(** [seg nx h l h']: the same, ending in [h'] in place of null. *)
Fixpoint seg (nx : A → option A) (h : option A) (l : list A) (h' : option A) : Prop :=
  match l with
  | [] => h = h'
  | a :: l' => h = Some a ∧ seg nx (nx a) l' h'
  end.

Lemma chain_seg nx h l : chain nx h l ↔ seg nx h l None.
Proof. revert h; induction l; simpl; naive_solver. Qed.

Lemma seg_app nx h l1 l2 h' :
  seg nx h (l1 ++ l2) h' ↔ ∃ m, seg nx h l1 m ∧ seg nx m l2 h'.
Proof. revert h; induction l1; simpl; naive_solver. Qed.

Lemma seg_ext nx nx' h l h' :
  (∀ a, a ∈ l → nx' a = nx a) → seg nx h l h' → seg nx' h l h'.
Proof.
  revert h; induction l as [|a l IH]; simpl; intros h Hext; [done|].
  intros [-> H]. split; [done|]. rewrite (Hext a) by set_solver.
  apply IH; [set_solver|done].
Qed.

Lemma chain_ext nx nx' h l :
  (∀ a, a ∈ l → nx' a = nx a) → chain nx h l → chain nx' h l.
Proof. rewrite !chain_seg. apply seg_ext. Qed.

Lemma chain_app nx h l1 l2 :
  chain nx h (l1 ++ l2) ↔ ∃ m, seg nx h l1 m ∧ chain nx m l2.
Proof. rewrite chain_seg, seg_app. setoid_rewrite chain_seg. done. Qed.

Lemma chain_inj nx h l1 l2 : chain nx h l1 → chain nx h l2 → l1 = l2.
Proof.
  revert h l2; induction l1 as [|a l1 IH]; intros h [|b l2]; simpl; [done|naive_solver|naive_solver|].
  intros [-> H1] [[= ->] H2]. f_equal. eauto.
Qed.

Lemma chain_head nx h l : chain nx h l → h = head l.
Proof. destruct l; naive_solver. Qed.

(** The rest of a chain is a chain from its own first cell. *)
Lemma chain_suffix nx h l1 l2 : chain nx h (l1 ++ l2) → chain nx (head l2) l2.
Proof. intros (m & _ & H)%chain_app. by rewrite <-(chain_head _ _ _ H). Qed.

(** A chain never revisits a cell. *)
Lemma chain_NoDup nx h l : chain nx h l → NoDup l.
Proof.
  revert h; induction l as [|a l IH]; intros h; simpl; [constructor|].
  intros [-> Hc]. constructor; [|by eapply IH].
  intros (l1 & l2 & ->)%list_elem_of_split.
  pose proof Hc as Hc'. apply chain_app in Hc' as (m & _ & Hm).
  simpl in Hm. destruct Hm as [-> Hm].
  pose proof (chain_inj _ _ _ _ Hc Hm) as Heq.
  apply (f_equal length) in Heq. rewrite length_app in Heq. simpl in Heq. lia.
Qed.
End chain.

(** ** Loops over a chain

    [list_for fuel nx body cur] is
    [for (p = cur; p != 0; p = p->next) body], where the body may return from
    the enclosing function ([Some b]). *)
Fixpoint list_for {S A B} (fuel : nat) (nx : S → A → option A)
    (body : A → M S (option B)) (cur : option A) : M S (option B) :=
  match cur with
  | None => mret None
  | Some p =>
      match fuel with
      | O => hang
      | Datatypes.S fuel =>
          r ← body p;
          match r with
          | Some b => mret (Some b)
          | None => n ← gets (λ s, nx s p); list_for fuel nx body n
          end
      end
  end.

(** [list_for_saved] reads [p->next] before it runs the body. *)
Fixpoint list_for_saved {S A B} (fuel : nat) (nx : S → A → option A)
    (body : A → M S (option B)) (cur : option A) : M S (option B) :=
  match cur with
  | None => mret None
  | Some p =>
      match fuel with
      | O => hang
      | Datatypes.S fuel =>
          n ← gets (λ s, nx s p);
          r ← body p;
          match r with
          | Some b => mret (Some b)
          | None => list_for_saved fuel nx body n
          end
      end
  end.

Section list_for.
Context `{mode : Mode} {S A B : Type}.
Context (nx : S → A → option A) (body : A → M S (option B)).

(** The loop rule: [I done todo s] holds when the cells [done] have been
    visited and [todo] is the rest of the chain. *)
Lemma wp_list_for (I : list A → list A → S → Prop) (Q : option B → S → Prop)
    fuel done todo cur s :
  length todo ≤ fuel →
  chain (nx s) cur todo →
  I done todo s →
  (∀ done p todo s, chain (nx s) (Some p) (p :: todo) → I done (p :: todo) s →
    wp (body p) (λ r s', match r with
      | Some b => Q (Some b) s'
      | None => chain (nx s') (nx s' p) todo ∧ I (done ++ [p]) todo s'
      end) s) →
  (∀ done s, I done [] s → Q None s) →
  wp (list_for fuel nx body cur) Q s.
Proof.
  intros Hlen Hc HI Hbody Hend. revert fuel done cur s Hlen Hc HI.
  induction todo as [|p todo IH]; intros fuel done cur s Hlen Hc HI.
  - simpl in Hc. subst. destruct fuel; simpl; apply wp_ret; eauto.
  - destruct Hc as [-> Hc]. destruct fuel as [|fuel]; simpl in Hlen; [lia|].
    simpl. apply wp_bind. eapply wp_mono; [by apply (Hbody done p todo s)|].
    intros [b|] s'; [by intros; apply wp_ret|].
    intros [Hc' HI']. apply wp_bind, wp_gets.
    apply (IH fuel (done ++ [p])); [lia|done|done].
Qed.

Lemma wp_list_for_saved (I : list A → list A → S → Prop) (Q : option B → S → Prop)
    fuel done todo cur s :
  length todo ≤ fuel →
  chain (nx s) cur todo →
  I done todo s →
  (∀ done p todo s, chain (nx s) (Some p) (p :: todo) → I done (p :: todo) s →
    wp (body p) (λ r s', match r with
      | Some b => Q (Some b) s'
      | None => chain (nx s') (nx s p) todo ∧ I (done ++ [p]) todo s'
      end) s) →
  (∀ done s, I done [] s → Q None s) →
  wp (list_for_saved fuel nx body cur) Q s.
Proof.
  intros Hlen Hc HI Hbody Hend. revert fuel done cur s Hlen Hc HI.
  induction todo as [|p todo IH]; intros fuel done cur s Hlen Hc HI.
  - simpl in Hc. subst. destruct fuel; simpl; apply wp_ret; eauto.
  - destruct Hc as [-> Hc]. destruct fuel as [|fuel]; simpl in Hlen; [lia|].
    simpl. apply wp_bind, wp_gets, wp_bind.
    eapply wp_mono; [by apply (Hbody done p todo s)|].
    intros [b|] s'; [by intros; apply wp_ret|].
    intros [Hc' HI']. apply (IH fuel (done ++ [p])); [lia|done|done].
Qed.
End list_for.

(** Counting loop [for (i = lo; i < lo + n; i++) body] that may return. *)
Fixpoint count_for {S B} (n : nat) (lo : nat) (body : nat → M S (option B)) : M S (option B) :=
  match n with
  | O => mret None
  | Datatypes.S n =>
      r ← body lo;
      match r with
      | Some b => mret (Some b)
      | None => count_for n (Datatypes.S lo) body
      end
  end.

Lemma wp_count_for `{mode : Mode} {S B} (I : nat → S → Prop) (Q : option B → S → Prop)
    (body : nat → M S (option B)) n lo s :
  I lo s →
  (∀ i s, lo ≤ i < lo + n → I i s →
    wp (body i) (λ r s', match r with Some b => Q (Some b) s' | None => I (Datatypes.S i) s' end) s) →
  (∀ s, I (lo + n) s → Q None s) →
  wp (count_for n lo body) Q s.
Proof.
  revert lo s; induction n as [|n IH]; intros lo s HI Hb He; simpl.
  - apply wp_ret, He. by rewrite Nat.add_0_r.
  - apply wp_bind. eapply wp_mono; [apply Hb; [lia|done]|].
    intros [b|] s' H; [by apply wp_ret|].
    apply IH; [done| |].
    + intros i s'' ? ?. apply Hb; [lia|done].
    + intros s'' ?. apply He. by replace (lo + Datatypes.S n) with (Datatypes.S lo + n) by lia.
Qed.
