(* ===== verification/Spinlock.v ===== *)
(** * Spin locks and interrupt nesting (spinlock.c, spinlock.h, proc.h: struct cpu)

    The state of the locking layer is the array of per-CPU records together
    with the spin locks, which are named by natural numbers.  Code runs on one
    CPU, the argument [c] of every operation.  [acquire] of a lock that another
    CPU holds spins: the outcome is [Hang], meaning the step is not enabled
    until that CPU releases it. *)

From S2P Require Import Prelude.

Module Spinlock.

(** The fields of [struct cpu] the kernel's C code reads and writes, and the
    part of the register file that belongs to the CPU: the interrupt-enable
    bit [FL_IF] of %eflags and the address of the argument in the current
    stack frame (what [acquire] passes to [getcallerpcs]). *)
Record cpu := mkcpu {
  proc : option nat;      (* the process running on this CPU, as an index *)
  ncli : Z;               (* depth of pushcli nesting *)
  intena : bool;          (* were interrupts enabled before pushcli? *)
  fl_if : bool;           (* %eflags & FL_IF *)
  frame : Z               (* &lk of the running function *)
}.

Record spinlock := mklock {
  locked : bool;
  name : string;
  lcpu : option nat;      (* the CPU holding the lock *)
  pcs : list Z            (* call stack that locked the lock *)
}.

(** [kword] is the memory of 32-bit words [getcallerpcs] follows. *)
Record lstate := mklstate {
  cpus : nat → cpu;
  locks : nat → spinlock;
  kword : Z → Z
}.

Definition set_ncli (z : Z) (r : cpu) : cpu :=
  mkcpu (proc r) z (intena r) (fl_if r) (frame r).
Definition set_intena (b : bool) (r : cpu) : cpu :=
  mkcpu (proc r) (ncli r) b (fl_if r) (frame r).
Definition set_if (b : bool) (r : cpu) : cpu :=
  mkcpu (proc r) (ncli r) (intena r) b (frame r).
Definition set_proc (p : option nat) (r : cpu) : cpu :=
  mkcpu p (ncli r) (intena r) (fl_if r) (frame r).

Definition upd_cpu (c : nat) (f : cpu → cpu) : M lstate unit :=
  modify (λ s, mklstate (alter f c (cpus s)) (locks s) (kword s)).
Definition upd_lock (k : nat) (f : spinlock → spinlock) : M lstate unit :=
  modify (λ s, mklstate (cpus s) (alter f k (locks s)) (kword s)).

Definition set_cpu_pcs (o : option nat) (l : list Z) (r : spinlock) : spinlock :=
  mklock (locked r) (name r) o l.
Definition set_locked (b : bool) (r : spinlock) : spinlock :=
  mklock b (name r) (lcpu r) (pcs r).

(** [cli] and [sti] clear and set the interrupt flag. *)
Definition cli (c : nat) : M lstate unit := upd_cpu c (set_if false).
Definition sti (c : nat) : M lstate unit := upd_cpu c (set_if true).

Definition initlock (lk : nat) (nm : string) : M lstate unit :=
  upd_lock lk (λ r, mklock false nm None (pcs r)).

(** Saved-%ebp walk: at most ten frames, stopping at a frame pointer that is
    null, below KERNBASE or all ones; the rest of [pcs] is zero. *)
Definition KERNBASE : Z := 2147483648.

Fixpoint follow_ebp (n : nat) (w : Z → Z) (ebp : Z) : list Z :=
  match n with
  | O => []
  | S n =>
      if (ebp =? 0)%Z || (ebp <? KERNBASE)%Z || (ebp =? 4294967295)%Z
      then replicate (S n) 0%Z
      else w (u32 (ebp + 4)) :: follow_ebp n w (w ebp)
  end.
Definition getcallerpcs (w : Z → Z) (v : Z) : list Z :=
  follow_ebp 10 w (u32 (v - 8)).

Definition holding (c lk : nat) (s : lstate) : bool :=
  locked (locks s lk) && bool_decide (lcpu (locks s lk) = Some c).

Definition pushcli (c : nat) : M lstate unit :=
  eflags ← gets (λ s, fl_if (cpus s c));
  cli c;;
  n ← gets (λ s, ncli (cpus s c));
  upd_cpu c (set_ncli (i32 (n + 1)));;
  when (n =? 0)%Z (upd_cpu c (set_intena eflags)).

Definition popcli (c : nat) : M lstate unit :=
  f ← gets (λ s, fl_if (cpus s c));
  if (f : bool) then panic "popcli - interruptible" else
  n ← gets (λ s, i32 (ncli (cpus s c) - 1));
  upd_cpu c (set_ncli n);;
  if (n <? 0)%Z then panic "popcli" else
  i ← gets (λ s, intena (cpus s c));
  when ((n =? 0)%Z && i) (sti c).

(** The atomic exchange on [lk->locked]. *)
Definition xchg_locked (lk : nat) (v : bool) : M lstate bool :=
  old ← gets (λ s, locked (locks s lk));
  upd_lock lk (set_locked v);;
  mret old.

Definition acquire (c lk : nat) : M lstate unit :=
  pushcli c;;
  h ← gets (holding c lk);
  if (h : bool) then panic "acquire" else
  old ← xchg_locked lk true;
  if (old : bool) then hang else
  w ← gets (λ s, getcallerpcs (kword s) (frame (cpus s c)));
  upd_lock lk (set_cpu_pcs (Some c) w).

Definition release (c lk : nat) : M lstate unit :=
  h ← gets (holding c lk);
  if negb h then panic "release" else
  upd_lock lk (λ r, set_cpu_pcs None (<[0%nat := 0%Z]> (pcs r)) r);;
  _ ← xchg_locked lk false;
  popcli c.

(** ** Basic facts *)

Lemma getcallerpcs_length w v : length (getcallerpcs w v) = 10.
Proof.
  unfold getcallerpcs. generalize (u32 (v - 8)), 10.
  intros e n; revert e. induction n as [|n IH]; intros e; [done|].
  cbn [follow_ebp]. case_match; [apply length_replicate|simpl; by rewrite IH].
Qed.

(** The states before and after a lock is taken, as pure functions. *)
Definition acq_cpu (r : cpu) : cpu :=
  mkcpu (proc r) (i32 (ncli r + 1)) (if (ncli r =? 0)%Z then fl_if r else intena r) false (frame r).

Definition rel_cpu (r : cpu) : cpu :=
  mkcpu (proc r) (i32 (ncli r - 1)) (intena r)
    ((i32 (ncli r - 1) =? 0)%Z && intena r) (frame r).

(** What an operation of CPU [c] may change: its own record, and lock [lk]. *)
Definition only (c lk : nat) (s s' : lstate) : Prop :=
  (∀ c', c' ≠ c → cpus s' c' = cpus s c') ∧
  (∀ k, k ≠ lk → locks s' k = locks s k) ∧ kword s' = kword s.

Ltac lookups := cbn -[i32 getcallerpcs]; rewrite ?fn_lookup_alter; cbn -[i32 getcallerpcs].
Ltac other_cpus :=
  repeat split; intros; cbn -[i32 getcallerpcs]; rewrite ?fn_lookup_alter_ne by done; done.

Section specs.
Context `{mode : Mode}.

Lemma wp_pushcli c s (Q : unit → lstate → Prop) :
  (∀ s', cpus s' c = acq_cpu (cpus s c) → locks s' = locks s →
         (∀ c', c' ≠ c → cpus s' c' = cpus s c') → kword s' = kword s → Q tt s') →
  wp (pushcli c) Q s.
Proof.
  intros HQ. unfold pushcli, cli, upd_cpu. wp_steps. lookups.
  destruct (ncli (cpus s c) =? 0)%Z eqn:En; wp_steps; apply HQ; try done.
  all: try other_cpus.
  all: lookups; unfold acq_cpu, set_intena, set_ncli, set_if; cbn -[i32]; by rewrite En.
Qed.

Lemma wp_popcli c s (Q : unit → lstate → Prop) :
  fl_if (cpus s c) = false → (1 <= ncli (cpus s c) < 2147483648)%Z →
  (∀ s', cpus s' c = rel_cpu (cpus s c) → locks s' = locks s →
         (∀ c', c' ≠ c → cpus s' c' = cpus s c') → kword s' = kword s → Q tt s') →
  wp (popcli c) Q s.
Proof.
  intros Hif Hn HQ. unfold popcli, sti, upd_cpu. wp_steps. rewrite Hif. wp_steps.
  assert (Hi : i32 (ncli (cpus s c) - 1) = (ncli (cpus s c) - 1)%Z) by (apply i32_small; lia).
  destruct (Z.ltb_spec (i32 (ncli (cpus s c) - 1)) 0); [lia|].
  wp_steps. lookups.
  destruct (_ && _) eqn:E; wp_steps; apply HQ; try done.
  all: try other_cpus.
  all: lookups; unfold rel_cpu, set_ncli, set_if; cbn -[i32]; rewrite E; congruence.
Qed.

(** [acquire] of a lock nobody holds succeeds: this CPU becomes the holder,
    its interrupts are off and its nesting depth grows by one. *)
Lemma wp_acquire c lk s (Q : unit → lstate → Prop) :
  locked (locks s lk) = false →
  (∀ s', cpus s' c = acq_cpu (cpus s c) → only c lk s s' →
         locked (locks s' lk) = true → lcpu (locks s' lk) = Some c → Q tt s') →
  wp (acquire c lk) Q s.
Proof.
  intros Hf HQ. unfold acquire, xchg_locked, upd_lock.
  apply wp_bind, wp_pushcli. intros s1 Hc Hl Ho Hk. wp_steps.
  unfold holding. rewrite Hl, Hf. cbn [andb]. wp_steps.
  rewrite Hl, Hf. wp_steps.
  apply HQ; lookups; try done.
  split; [done|]. split; [|done]. intros k Hne.
  cbn -[getcallerpcs]. by rewrite !fn_lookup_alter_ne by done.
Qed.

(** [release] by the holder, with interrupts off, frees the lock. *)
Lemma wp_release c lk s (Q : unit → lstate → Prop) :
  locked (locks s lk) = true → lcpu (locks s lk) = Some c →
  fl_if (cpus s c) = false → (1 <= ncli (cpus s c) < 2147483648)%Z →
  (∀ s', cpus s' c = rel_cpu (cpus s c) → only c lk s s' →
         locked (locks s' lk) = false → lcpu (locks s' lk) = None → Q tt s') →
  wp (release c lk) Q s.
Proof.
  intros Hl Hc Hif Hn HQ. unfold release, xchg_locked, upd_lock, holding.
  wp_steps. rewrite Hl, Hc, bool_decide_true by done. cbn [andb negb].
  wp_steps. apply wp_popcli; [done|done|].
  intros s1 Hc1 Hl1 Ho Hk. apply HQ; rewrite ?Hl1; lookups; try done.
  split; [done|]. split; [|done]. intros k Hne.
  rewrite Hl1. cbn. by rewrite !fn_lookup_alter_ne by done.
Qed.

End specs.

End Spinlock.
