(* ===== verification/ProcTable.v ===== *)
(** * The process table and its state lists (proc.h, proc.c)

    The data of the process table, the two list primitives [stateListAdd] and
    [stateListRemove] on intrusive singly linked lists with a tail pointer, and
    the refinement of those lists to sequences of processes: after every
    operation each list is again a well-formed chain that holds exactly the
    expected sequence. *)

From S2P Require Import Prelude.

Module ProcTable.

(** ** Constants (param.h)

    [MAXPRIO] is a build-time constant; the table is modelled for every value
    of it and [param_h] is the value of the repository. *)
Class Config := { MAXPRIO : nat }.
Definition param_h : Config := {| MAXPRIO := 0 |}.

Definition NPROC : nat := 64.
Definition KSTACKSIZE : Z := 4096.
Definition NOFILE : nat := 16.
Definition BUDGET : Z := 1000.
Definition TICKS_TO_PROMOTE : Z := 2500.

(** ** Data (proc.h, x86.h) *)

Inductive procstate := UNUSED | EMBRYO | SLEEPING | RUNNABLE | RUNNING | ZOMBIE.
#[export] Instance procstate_eq_dec : EqDecision procstate.
Proof. solve_decision. Defined.

(** Sleep channels are addresses that are only compared.  A pointer to a
    process-table slot is kept apart from the other addresses. *)
Inductive chan_t := NullChan | ProcChan (p : nat) | AddrChan (a : Z).
#[export] Instance chan_eq_dec : EqDecision chan_t.
Proof. solve_decision. Defined.

(** A [struct proc *] used as a channel. *)
Definition chan_of (p : option nat) : chan_t :=
  match p with Some i => ProcChan i | None => NullChan end.

Record trapframe := mktf {
  edi : Z; esi : Z; ebp : Z; oesp : Z; ebx : Z; edx : Z; ecx : Z; eax : Z;
  gs : Z; fs : Z; es : Z; ds : Z; trapno : Z; err : Z;
  eip : Z; cs : Z; eflags : Z; esp : Z; ss : Z
}.
Definition tf_zero : trapframe := mktf 0 0 0 0 0 0 0 0 0 0 0 0 0 0 0 0 0 0 0.
Definition set_eax (x : Z) (t : trapframe) : trapframe :=
  mktf (edi t) (esi t) (ebp t) (oesp t) (ebx t) (edx t) (ecx t) x (gs t) (fs t)
    (es t) (ds t) (trapno t) (err t) (eip t) (cs t) (eflags t) (esp t) (ss t).

(** Where [swtch] resumes a process: a new process at [forkret], any other one
    after the call of [swtch] in [sched], with the [intena] [sched] saved on
    its stack and the function that called [sched]. *)
Inductive caller := FromYield | FromSleep (lk : option nat) | FromExit.
Inductive resume := NoContext | AtForkret | AtSched (saved_intena : bool) (k : caller).

(** [struct proc].  Pointers to other slots are indices ([None] is null);
    [tf_at] and [context_at] are the addresses the pointers [tf] and [context]
    hold, [tf] and [context] what they point to. *)
Record proc := mkproc {
  sz : Z; pgdir : Z; kstack : Z;
  state : procstate;
  pid : Z;
  parent : option nat;
  tf_at : Z; tf : trapframe;
  context_at : Z; context : resume;
  chan : chan_t;
  killed : Z;
  ofile : list Z; cwd : Z;
  name : list Z;
  start_ticks : Z;
  uid : Z; gid : Z;
  cpu_ticks_total : Z; cpu_ticks_in : Z;
  next : option nat;
  budget : Z;
  priority : Z
}.

Definition set_sz (x : Z) (r : proc) : proc :=
  mkproc x (pgdir r) (kstack r) (state r) (pid r) (parent r) (tf_at r) (tf r) (context_at r)
    (context r) (chan r) (killed r) (ofile r) (cwd r) (name r) (start_ticks r) (uid r) (gid
    r) (cpu_ticks_total r) (cpu_ticks_in r) (next r) (budget r) (priority r).
Definition set_pgdir (x : Z) (r : proc) : proc :=
  mkproc (sz r) x (kstack r) (state r) (pid r) (parent r) (tf_at r) (tf r) (context_at r)
    (context r) (chan r) (killed r) (ofile r) (cwd r) (name r) (start_ticks r) (uid r) (gid
    r) (cpu_ticks_total r) (cpu_ticks_in r) (next r) (budget r) (priority r).
Definition set_kstack (x : Z) (r : proc) : proc :=
  mkproc (sz r) (pgdir r) x (state r) (pid r) (parent r) (tf_at r) (tf r) (context_at r) (context
    r) (chan r) (killed r) (ofile r) (cwd r) (name r) (start_ticks r) (uid r) (gid r)
    (cpu_ticks_total r) (cpu_ticks_in r) (next r) (budget r) (priority r).
Definition set_state (x : procstate) (r : proc) : proc :=
  mkproc (sz r) (pgdir r) (kstack r) x (pid r) (parent r) (tf_at r) (tf r) (context_at r)
    (context r) (chan r) (killed r) (ofile r) (cwd r) (name r) (start_ticks r) (uid r) (gid
    r) (cpu_ticks_total r) (cpu_ticks_in r) (next r) (budget r) (priority r).
Definition set_pid (x : Z) (r : proc) : proc :=
  mkproc (sz r) (pgdir r) (kstack r) (state r) x (parent r) (tf_at r) (tf r) (context_at r)
    (context r) (chan r) (killed r) (ofile r) (cwd r) (name r) (start_ticks r) (uid r) (gid
    r) (cpu_ticks_total r) (cpu_ticks_in r) (next r) (budget r) (priority r).
Definition set_parent (x : option nat) (r : proc) : proc :=
  mkproc (sz r) (pgdir r) (kstack r) (state r) (pid r) x (tf_at r) (tf r) (context_at r) (context
    r) (chan r) (killed r) (ofile r) (cwd r) (name r) (start_ticks r) (uid r) (gid r)
    (cpu_ticks_total r) (cpu_ticks_in r) (next r) (budget r) (priority r).
Definition set_tf_at (x : Z) (r : proc) : proc :=
  mkproc (sz r) (pgdir r) (kstack r) (state r) (pid r) (parent r) x (tf r) (context_at r)
    (context r) (chan r) (killed r) (ofile r) (cwd r) (name r) (start_ticks r) (uid r) (gid
    r) (cpu_ticks_total r) (cpu_ticks_in r) (next r) (budget r) (priority r).
Definition set_tf (x : trapframe) (r : proc) : proc :=
  mkproc (sz r) (pgdir r) (kstack r) (state r) (pid r) (parent r) (tf_at r) x (context_at r)
    (context r) (chan r) (killed r) (ofile r) (cwd r) (name r) (start_ticks r) (uid r) (gid
    r) (cpu_ticks_total r) (cpu_ticks_in r) (next r) (budget r) (priority r).
Definition set_context_at (x : Z) (r : proc) : proc :=
  mkproc (sz r) (pgdir r) (kstack r) (state r) (pid r) (parent r) (tf_at r) (tf r) x (context r)
    (chan r) (killed r) (ofile r) (cwd r) (name r) (start_ticks r) (uid r) (gid r)
    (cpu_ticks_total r) (cpu_ticks_in r) (next r) (budget r) (priority r).
Definition set_context (x : resume) (r : proc) : proc :=
  mkproc (sz r) (pgdir r) (kstack r) (state r) (pid r) (parent r) (tf_at r) (tf r) (context_at r)
    x (chan r) (killed r) (ofile r) (cwd r) (name r) (start_ticks r) (uid r) (gid r)
    (cpu_ticks_total r) (cpu_ticks_in r) (next r) (budget r) (priority r).
Definition set_chan (x : chan_t) (r : proc) : proc :=
  mkproc (sz r) (pgdir r) (kstack r) (state r) (pid r) (parent r) (tf_at r) (tf r) (context_at r)
    (context r) x (killed r) (ofile r) (cwd r) (name r) (start_ticks r) (uid r) (gid r)
    (cpu_ticks_total r) (cpu_ticks_in r) (next r) (budget r) (priority r).
Definition set_killed (x : Z) (r : proc) : proc :=
  mkproc (sz r) (pgdir r) (kstack r) (state r) (pid r) (parent r) (tf_at r) (tf r) (context_at r)
    (context r) (chan r) x (ofile r) (cwd r) (name r) (start_ticks r) (uid r) (gid r)
    (cpu_ticks_total r) (cpu_ticks_in r) (next r) (budget r) (priority r).
Definition set_ofile (x : list Z) (r : proc) : proc :=
  mkproc (sz r) (pgdir r) (kstack r) (state r) (pid r) (parent r) (tf_at r) (tf r) (context_at r)
    (context r) (chan r) (killed r) x (cwd r) (name r) (start_ticks r) (uid r) (gid r)
    (cpu_ticks_total r) (cpu_ticks_in r) (next r) (budget r) (priority r).
Definition set_cwd (x : Z) (r : proc) : proc :=
  mkproc (sz r) (pgdir r) (kstack r) (state r) (pid r) (parent r) (tf_at r) (tf r) (context_at r)
    (context r) (chan r) (killed r) (ofile r) x (name r) (start_ticks r) (uid r) (gid r)
    (cpu_ticks_total r) (cpu_ticks_in r) (next r) (budget r) (priority r).
Definition set_name (x : list Z) (r : proc) : proc :=
  mkproc (sz r) (pgdir r) (kstack r) (state r) (pid r) (parent r) (tf_at r) (tf r) (context_at r)
    (context r) (chan r) (killed r) (ofile r) (cwd r) x (start_ticks r) (uid r) (gid r)
    (cpu_ticks_total r) (cpu_ticks_in r) (next r) (budget r) (priority r).
Definition set_start_ticks (x : Z) (r : proc) : proc :=
  mkproc (sz r) (pgdir r) (kstack r) (state r) (pid r) (parent r) (tf_at r) (tf r) (context_at r)
    (context r) (chan r) (killed r) (ofile r) (cwd r) (name r) x (uid r) (gid r)
    (cpu_ticks_total r) (cpu_ticks_in r) (next r) (budget r) (priority r).
Definition set_uid (x : Z) (r : proc) : proc :=
  mkproc (sz r) (pgdir r) (kstack r) (state r) (pid r) (parent r) (tf_at r) (tf r) (context_at r)
    (context r) (chan r) (killed r) (ofile r) (cwd r) (name r) (start_ticks r) x (gid r)
    (cpu_ticks_total r) (cpu_ticks_in r) (next r) (budget r) (priority r).
Definition set_gid (x : Z) (r : proc) : proc :=
  mkproc (sz r) (pgdir r) (kstack r) (state r) (pid r) (parent r) (tf_at r) (tf r) (context_at r)
    (context r) (chan r) (killed r) (ofile r) (cwd r) (name r) (start_ticks r) (uid r) x
    (cpu_ticks_total r) (cpu_ticks_in r) (next r) (budget r) (priority r).
Definition set_cpu_ticks_total (x : Z) (r : proc) : proc :=
  mkproc (sz r) (pgdir r) (kstack r) (state r) (pid r) (parent r) (tf_at r) (tf r) (context_at r)
    (context r) (chan r) (killed r) (ofile r) (cwd r) (name r) (start_ticks r) (uid r) (gid
    r) x (cpu_ticks_in r) (next r) (budget r) (priority r).
Definition set_cpu_ticks_in (x : Z) (r : proc) : proc :=
  mkproc (sz r) (pgdir r) (kstack r) (state r) (pid r) (parent r) (tf_at r) (tf r) (context_at r)
    (context r) (chan r) (killed r) (ofile r) (cwd r) (name r) (start_ticks r) (uid r) (gid
    r) (cpu_ticks_total r) x (next r) (budget r) (priority r).
Definition set_next (x : option nat) (r : proc) : proc :=
  mkproc (sz r) (pgdir r) (kstack r) (state r) (pid r) (parent r) (tf_at r) (tf r) (context_at r)
    (context r) (chan r) (killed r) (ofile r) (cwd r) (name r) (start_ticks r) (uid r) (gid
    r) (cpu_ticks_total r) (cpu_ticks_in r) x (budget r) (priority r).
Definition set_budget (x : Z) (r : proc) : proc :=
  mkproc (sz r) (pgdir r) (kstack r) (state r) (pid r) (parent r) (tf_at r) (tf r) (context_at r)
    (context r) (chan r) (killed r) (ofile r) (cwd r) (name r) (start_ticks r) (uid r) (gid
    r) (cpu_ticks_total r) (cpu_ticks_in r) (next r) x (priority r).
Definition set_priority (x : Z) (r : proc) : proc :=
  mkproc (sz r) (pgdir r) (kstack r) (state r) (pid r) (parent r) (tf_at r) (tf r) (context_at r)
    (context r) (chan r) (killed r) (ofile r) (cwd r) (name r) (start_ticks r) (uid r) (gid
    r) (cpu_ticks_total r) (cpu_ticks_in r) (next r) (budget r) x.

(** [struct StateLists]: a head and a tail pointer for every list; [ready] and
    [readyTail] are arrays of MAXPRIO+1 pointers. *)
Record StateLists := mklists {
  ready : nat → option nat; readyTail : nat → option nat;
  free : option nat; freeTail : option nat;
  sleep : option nat; sleepTail : option nat;
  zombie : option nat; zombieTail : option nat;
  running : option nat; runningTail : option nat;
  embryo : option nat; embryoTail : option nat
}.

(** The table proper; its lock is in the locking layer. *)
Record ptable := mkptable {
  procs : nat → proc;
  pLists : StateLists;
  PromoteAtTime : Z
}.

(** A pair [&head, &tail] of arguments designates one of the lists. *)
Inductive lid := Free | Sleep | Zombie | Running | Embryo | Ready (i : nat).
#[export] Instance lid_eq_dec : EqDecision lid.
Proof. solve_decision. Defined.

Definition head_of (L : lid) (x : StateLists) : option nat :=
  match L with
  | Free => free x | Sleep => sleep x | Zombie => zombie x
  | Running => running x | Embryo => embryo x | Ready i => ready x i
  end.
Definition tail_of (L : lid) (x : StateLists) : option nat :=
  match L with
  | Free => freeTail x | Sleep => sleepTail x | Zombie => zombieTail x
  | Running => runningTail x | Embryo => embryoTail x | Ready i => readyTail x i
  end.

(** Storing a head and a tail pointer. *)
Definition put_list (L : lid) (h t : option nat) (x : StateLists) : StateLists :=
  match x with
  | mklists rd rt fr ft sl st zo zt ru ru' em et =>
      match L with
      | Free => mklists rd rt h t sl st zo zt ru ru' em et
      | Sleep => mklists rd rt fr ft h t zo zt ru ru' em et
      | Zombie => mklists rd rt fr ft sl st h t ru ru' em et
      | Running => mklists rd rt fr ft sl st zo zt h t em et
      | Embryo => mklists rd rt fr ft sl st zo zt ru ru' h t
      | Ready i => mklists (<[i:=h]> rd) (<[i:=t]> rt) fr ft sl st zo zt ru ru' em et
      end
  end.

Definition head (L : lid) (t : ptable) : option nat := head_of L (pLists t).
Definition tail (L : lid) (t : ptable) : option nat := tail_of L (pLists t).

Definition set_head (L : lid) (h : option nat) : M ptable unit :=
  modify (λ t, mkptable (procs t) (put_list L h (tail L t) (pLists t)) (PromoteAtTime t)).
Definition set_tail (L : lid) (x : option nat) : M ptable unit :=
  modify (λ t, mkptable (procs t) (put_list L (head L t) x (pLists t)) (PromoteAtTime t)).

(** [p->field = ...] *)
Definition upd (p : nat) (f : proc → proc) : M ptable unit :=
  modify (λ t, mkptable (alter f p (procs t)) (pLists t) (PromoteAtTime t)).

Definition nx (t : ptable) (p : nat) : option nat := next (procs t p).

(** ** stateListAdd and stateListRemove *)

Definition stateListAdd (L : lid) (p : option nat) : M ptable Z :=
  h ← gets (head L);
  match h with
  | None =>
      set_head L p;;
      set_tail L p;;
      q ← deref p;
      upd q (set_next None)
  | Some _ =>
      t ← gets (tail L);
      t ← deref t;
      upd t (set_next p);;
      n ← gets (λ s, nx s t);
      set_tail L n;;
      t ← gets (tail L);
      t ← deref t;
      upd t (set_next None)
  end;;
  mret 0%Z.

(** The search loop of [stateListRemove]: returns [current] and [previous]. *)
Fixpoint find_prev (fuel : nat) (p : nat) (current previous : option nat)
    : M ptable (option nat * option nat) :=
  match current with
  | None => mret (None, previous)
  | Some q =>
      if decide (q = p) then mret (Some q, previous) else
      match fuel with
      | O => hang
      | S fuel => n ← gets (λ t, nx t q); find_prev fuel p n (Some q)
      end
  end.

Definition stateListRemove (L : lid) (p : option nat) : M ptable Z :=
  h ← gets (head L);
  t ← gets (tail L);
  match h, t, p with
  | Some h, Some t, Some p =>
      if decide (h = p) then
        n ← gets (λ s, nx s h);
        set_head L n;;
        mret 0%Z
      else
        '(current, previous) ← find_prev NPROC p (Some h) None;
        match current with
        | None => mret (-1)%Z
        | Some current =>
            (if decide (current = t) then
               set_tail L previous;;
               q ← gets (tail L);
               q ← deref q;
               upd q (set_next None)
             else
               previous ← deref previous;
               n ← gets (λ s, nx s current);
               upd previous (set_next n));;
            upd p (set_next None);;
            mret 0%Z
        end
  | _, _, _ => mret (-1)%Z
  end.

Definition assertState (p : nat) (st : procstate) : M ptable Z :=
  x ← gets (λ t, state (procs t p));
  if decide (x = st) then mret 0%Z else panic "Assert State failure.".

(** ** Refinement to sequences *)

Section refinement.
Context `{mode : Mode} `{cfg : Config}.

Definition lid_ok (L : lid) : Prop :=
  match L with Ready i => i ≤ MAXPRIO | _ => True end.

(** [reps t A]: in table [t] list [L] is the sequence [A L], the lists share
    no process, and every non-empty list's tail pointer is its last cell. *)
Record reps (t : ptable) (A : lid → list nat) : Prop := {
  reps_chain : ∀ L, lid_ok L → chain (nx t) (head L t) (A L);
  reps_tail : ∀ L, lid_ok L → A L ≠ [] → tail L t = last (A L);
  reps_disj : ∀ L1 L2 p, p ∈ A L1 → p ∈ A L2 → L1 = L2;
  reps_lt : ∀ L p, p ∈ A L → p < NPROC;
  reps_ok : ∀ L, ¬ lid_ok L → A L = []
}.

(** A step that only relinks lists: every field but [next] is untouched. *)
Definition relinked (t t' : ptable) : Prop :=
  PromoteAtTime t' = PromoteAtTime t ∧
  ∀ q, procs t' q = set_next (next (procs t' q)) (procs t q).

Definition del (p : nat) (l : list nat) : list nat := filter (λ q, q ≠ p) l.

Lemma elem_of_del p q l : q ∈ del p l ↔ q ≠ p ∧ q ∈ l.
Proof. unfold del. by rewrite list_elem_of_filter. Qed.

Lemma del_notin p l : p ∉ l → del p l = l.
Proof.
  induction l as [|a l IH]; intros Hp; [done|]. unfold del.
  rewrite filter_cons_True by set_solver. f_equal. apply IH. set_solver.
Qed.

Lemma del_app p l1 l2 : del p (l1 ++ l2) = del p l1 ++ del p l2.
Proof. apply filter_app. Qed.

Lemma del_cons p l : p ∉ l → del p (p :: l) = l.
Proof.
  intros. unfold del. rewrite filter_cons_False by (intros ?; done). by apply del_notin.
Qed.

(** At most [NPROC] distinct slots: the fuel of the list walks. *)
Lemma NoDup_bounded (l : list nat) n : NoDup l → (∀ p, p ∈ l → p < n) → length l ≤ n.
Proof.
  intros Hnd Hlt. rewrite <-(length_seq n 0).
  apply submseteq_length, NoDup_submseteq; [done|].
  intros x Hx. apply elem_of_seq. specialize (Hlt x Hx). lia.
Qed.

Lemma reps_NoDup t A L : reps t A → NoDup (A L).
Proof.
  intros H. destruct L as [| | | | |i].
  6: destruct (decide (i ≤ MAXPRIO)) as [|n];
     [|rewrite (reps_ok _ _ H (Ready i)) by done; constructor].
  all: eapply chain_NoDup; by eapply (reps_chain _ _ H).
Qed.

Lemma reps_length t A L : reps t A → length (A L) ≤ NPROC.
Proof. intros H. apply NoDup_bounded; [by eapply reps_NoDup|apply (reps_lt _ _ H)]. Qed.

Lemma head_put L h x t :
  head_of L (put_list L h x t) = h ∧ tail_of L (put_list L h x t) = x.
Proof. destruct t, L; cbn; rewrite ?fn_lookup_insert; done. Qed.

Lemma head_put_ne L L' h x t :
  L' ≠ L → head_of L' (put_list L h x t) = head_of L' t ∧
           tail_of L' (put_list L h x t) = tail_of L' t.
Proof.
  intros. destruct t, L, L'; cbn; try done.
  rewrite !fn_lookup_insert_ne by congruence. done.
Qed.

Lemma relinked_refl t : relinked t t.
Proof. split; [done|]. intros q. by destruct (procs t q). Qed.

Lemma relinked_trans t1 t2 t3 : relinked t1 t2 → relinked t2 t3 → relinked t1 t3.
Proof.
  intros [E1 H1] [E2 H2]. split; [congruence|].
  intros q. rewrite H2, H1. done.
Qed.

(** Rebuilding [reps] after the pointers of one list changed. *)
Lemma reps_update t A t' L l :
  reps t A → lid_ok L →
  chain (nx t') (head L t') l →
  (l ≠ [] → tail L t' = last l) →
  (∀ p, p ∈ l → p < NPROC ∧ ∀ L', L' ≠ L → p ∉ A L') →
  (∀ L', L' ≠ L → head L' t' = head L' t ∧ tail L' t' = tail L' t) →
  (∀ L' p, L' ≠ L → p ∈ A L' → nx t' p = nx t p) →
  reps t' (<[L:=l]> A).
Proof.
  intros H Hok Hc Ht Hl Hptr Hnx. constructor.
  - intros L' Hok'. destruct (decide (L = L')) as [<-|Hne].
    + by rewrite fn_lookup_insert.
    + rewrite fn_lookup_insert_ne by done.
      destruct (Hptr L') as [-> _]; [done|].
      eapply chain_ext; [|by apply (reps_chain _ _ H)]. naive_solver.
  - intros L' Hok'. destruct (decide (L = L')) as [<-|Hne].
    + by rewrite fn_lookup_insert.
    + rewrite fn_lookup_insert_ne by done.
      destruct (Hptr L') as [_ ->]; [done|]. by apply (reps_tail _ _ H).
  - intros L1 L2 q.
    destruct (decide (L = L1)) as [<-|H1], (decide (L = L2)) as [<-|H2];
      rewrite ?fn_lookup_insert, ?fn_lookup_insert_ne by done; try done.
    + intros Hq Hq2. by destruct (Hl q Hq) as [_ []%(λ h, h L2 (not_eq_sym H2))].
    + intros Hq2 Hq. by destruct (Hl q Hq) as [_ []%(λ h, h L1 (not_eq_sym H1))].
    + apply (reps_disj _ _ H).
  - intros L' q. destruct (decide (L = L')) as [<-|Hne].
    + rewrite fn_lookup_insert. naive_solver.
    + rewrite fn_lookup_insert_ne by done. apply (reps_lt _ _ H).
  - intros L' Hn. rewrite fn_lookup_insert_ne by naive_solver. by apply (reps_ok _ _ H).
Qed.

Lemma nx_upd pr pl pt q f p :
  nx (mkptable (alter f q pr) pl pt) p =
  if decide (q = p) then next (f (pr p)) else next (pr p).
Proof.
  unfold nx. cbn. case_decide; subst.
  - by rewrite fn_lookup_alter.
  - by rewrite fn_lookup_alter_ne.
Qed.

Lemma relinked_next t pr pl pl' pt q v :
  relinked t (mkptable pr pl pt) →
  relinked t (mkptable (alter (set_next v) q pr) pl' pt).
Proof.
  intros [E H]. cbn in *. split; [done|]. intros r. cbn. destruct (decide (q = r)) as [<-|Hne].
  - rewrite fn_lookup_alter, H. done.
  - by rewrite fn_lookup_alter_ne.
Qed.

Lemma relinked_lists t pl : relinked t (mkptable (procs t) pl (PromoteAtTime t)).
Proof. split; [done|]. apply (relinked_refl t). Qed.

Ltac relink :=
  cbn [procs pLists PromoteAtTime];
  match goal with |- relinked ?t _ =>
    repeat apply (relinked_next t _ (pLists t)); apply relinked_lists end.

Lemma reps_other t A L x L' q :
  reps t A → x ∈ A L → L' ≠ L → q ∈ A L' → x ≠ q.
Proof. intros H Hx Hne Hq ->. apply Hne. by apply (reps_disj _ _ H L' L q). Qed.

(** Head and tail pointers after [set_head]/[set_tail]. *)
Ltac ptrs :=
  unfold head, tail in *; cbn;
  repeat match goal with
  | |- context [head_of ?L (put_list ?L ?h ?x ?t)] =>
      rewrite (proj1 (head_put L h x t))
  | |- context [tail_of ?L (put_list ?L ?h ?x ?t)] =>
      rewrite (proj2 (head_put L h x t))
  | Hne : ?L' ≠ ?L |- context [head_of ?L' (put_list ?L ?h ?x ?t)] =>
      rewrite (proj1 (head_put_ne L L' h x t Hne))
  | Hne : ?L' ≠ ?L |- context [tail_of ?L' (put_list ?L ?h ?x ?t)] =>
      rewrite (proj2 (head_put_ne L L' h x t Hne))
  end.

(** *** stateListAdd appends *)
Lemma wp_add_empty L p A t (Q : Z → ptable → Prop) :
  reps t A → lid_ok L → p < NPROC → (∀ L', p ∉ A L') → A L = [] →
  (∀ t', reps t' (<[L := [p]]> A) → relinked t t' → Q 0%Z t') →
  wp (stateListAdd L (Some p)) Q t.
Proof.
  intros H Hok Hlt Hnew HL HQ. unfold stateListAdd, set_head, set_tail, upd.
  pose proof (reps_chain _ _ H L Hok) as Hc. rewrite HL in Hc. simpl in Hc.
  wp_steps. rewrite Hc. wp_steps. apply HQ.
  - apply (reps_update t); try done.
    + simpl. rewrite nx_upd, decide_True by done. ptrs. done.
    + intros _. ptrs. done.
    + intros q ->%list_elem_of_singleton. naive_solver.
    + intros L' Hne. ptrs. done.
    + intros L' q Hne Hq. rewrite nx_upd, decide_False; [done|]. intros ->. by apply (Hnew L').
  - relink.
Qed.

Lemma wp_add_snoc L p A t l0 x (Q : Z → ptable → Prop) :
  reps t A → lid_ok L → p < NPROC → (∀ L', p ∉ A L') → A L = l0 ++ [x] →
  (∀ t', reps t' (<[L := (l0 ++ [x]) ++ [p]]> A) → relinked t t' → Q 0%Z t') →
  wp (stateListAdd L (Some p)) Q t.
Proof.
  intros H Hok Hlt Hnew HL HQ. unfold stateListAdd, set_head, set_tail, upd.
  pose proof (reps_NoDup _ _ L H) as Hnd. rewrite HL in Hnd.
  apply NoDup_app in Hnd as (_ & Hd & _).
  pose proof (reps_chain _ _ H L Hok) as Hc. rewrite HL in Hc.
  assert (Hx : tail L t = Some x).
  { rewrite (reps_tail _ _ H L Hok), HL; [apply last_snoc|]. rewrite HL. by destruct l0. }
  assert (Hin : x ∈ A L) by (rewrite HL; set_solver).
  assert (Hne : x ≠ p) by (intros ->; by apply (Hnew L)).
  apply wp_bind, wp_gets. rewrite (chain_head _ _ _ Hc).
  destruct (list.head (l0 ++ [x])) eqn:Eh; [|by destruct l0].
  wp_steps. rewrite Hx. wp_steps. rewrite !nx_upd, decide_True by done. cbn.
  unfold tail. cbn. rewrite !(proj2 (head_put _ _ _ _)). wp_steps. apply HQ.
  - apply chain_app in Hc as (m & Hs & [-> Hm]). apply (reps_update t); try done.
    + rewrite <-app_assoc. apply chain_app. exists (Some x). ptrs. split.
      * eapply seg_ext; [|exact Hs]. intros a Ha. unfold nx. cbn.
        rewrite !fn_lookup_alter_ne; [done| |].
        -- intros <-. apply (Hd _ Ha). set_solver.
        -- intros <-. apply (Hnew L). rewrite HL. set_solver.
      * unfold nx. cbn. split; [done|].
        rewrite fn_lookup_alter_ne, !fn_lookup_alter by done. done.
    + intros _. rewrite last_snoc. ptrs. done.
    + intros q [Hq| ->%list_elem_of_singleton]%elem_of_app; [|naive_solver].
      rewrite <-HL in Hq. split; [by apply (reps_lt _ _ H L)|].
      intros L' HneL Hq'. apply HneL. by apply (reps_disj _ _ H L' L q).
    + intros L' HneL. ptrs. done.
    + intros L' q HneL Hq. unfold nx. cbn. rewrite !fn_lookup_alter_ne; [done| |].
      * by eapply (reps_other t A L x).
      * intros <-. by apply (Hnew L').
  - relink.
Qed.

Lemma wp_stateListAdd L p A t (Q : Z → ptable → Prop) :
  reps t A → lid_ok L → p < NPROC → (∀ L', p ∉ A L') →
  (∀ t', reps t' (<[L := A L ++ [p]]> A) → relinked t t' → Q 0%Z t') →
  wp (stateListAdd L (Some p)) Q t.
Proof.
  intros H Hok Hlt Hnew HQ. destruct (A L) as [|x l0 _] eqn:EL using rev_ind.
  - by eapply wp_add_empty.
  - by eapply wp_add_snoc.
Qed.

(** *** The search loop *)
Lemma find_prev_found fuel p l h prev t :
  seg (nx t) h l (Some p) → p ∉ l → length l ≤ fuel →
  find_prev fuel p h prev t =
    Ok (Some p, match last l with Some q => Some q | None => prev end) t.
Proof.
  revert fuel h prev; induction l as [|a l IH]; intros fuel h prev Hs Hp Hf.
  - simpl in Hs. subst. destruct fuel; simpl; by rewrite decide_True.
  - destruct Hs as [-> Hs]. destruct fuel as [|fuel]; simpl in Hf; [lia|].
    simpl. rewrite decide_False by set_solver. unfold mbind, M_mbind, M_bind, gets.
    rewrite IH; [|done|set_solver|lia]. destruct l as [|b l]; [done|].
    rewrite last_cons_cons. destruct (last (b :: l)) eqn:E; [done|by apply last_None in E].
Qed.

Lemma find_prev_missing fuel p l h prev t :
  chain (nx t) h l → p ∉ l → length l ≤ fuel →
  ∃ prev', find_prev fuel p h prev t = Ok (None, prev') t.
Proof.
  revert fuel h prev; induction l as [|a l IH]; intros fuel h prev Hs Hp Hf.
  - simpl in Hs. subst. destruct fuel; by eexists.
  - destruct Hs as [-> Hs]. destruct fuel as [|fuel]; simpl in Hf; [lia|].
    simpl. rewrite decide_False by set_solver. unfold mbind, M_mbind, M_bind, gets.
    eapply IH; [exact Hs|set_solver|lia].
Qed.

(** *** stateListRemove takes one process out *)
Lemma wp_remove_head L p A t l (Q : Z → ptable → Prop) :
  reps t A → lid_ok L → A L = p :: l →
  (∀ t', reps t' (<[L := l]> A) → relinked t t' → Q 0%Z t') →
  wp (stateListRemove L (Some p)) Q t.
Proof.
  intros H Hok HL HQ. unfold stateListRemove, set_head.
  pose proof (reps_chain _ _ H L Hok) as Hc. rewrite HL in Hc. destruct Hc as [Hh Hc].
  pose proof (reps_tail _ _ H L Hok) as Ht. rewrite HL in Ht.
  wp_steps. rewrite Hh, Ht by done.
  destruct (last (p :: l)) eqn:El; [|by apply last_None in El].
  rewrite decide_True by done. wp_steps. apply HQ.
  - apply (reps_update t); try done.
    + ptrs. exact Hc.
    + intros Hl. ptrs. rewrite Ht by done. rewrite <-El. destruct l; [done|]. apply last_cons_cons.
    + intros q Hq. assert (q ∈ A L) by (rewrite HL; set_solver).
      split; [by apply (reps_lt _ _ H L)|]. intros L' Hne Hq'. apply Hne.
      by apply (reps_disj _ _ H L' L q).
    + intros L' Hne. ptrs. done.
  - relink.
Qed.

Lemma wp_remove_last L p A t l0 q (Q : Z → ptable → Prop) :
  reps t A → lid_ok L → A L = (l0 ++ [q]) ++ [p] →
  (∀ t', reps t' (<[L := l0 ++ [q]]> A) → relinked t t' → Q 0%Z t') →
  wp (stateListRemove L (Some p)) Q t.
Proof.
  intros H Hok HL HQ. unfold stateListRemove, set_tail, upd.
  pose proof (reps_NoDup _ _ L H) as Hnd. rewrite HL in Hnd.
  pose proof (reps_length _ _ L H) as Hlen. rewrite HL, length_app in Hlen. cbn [length] in Hlen.
  apply NoDup_app in Hnd as (Hnd & Hd & _). apply NoDup_app in Hnd as (_ & Hd0 & _).
  pose proof (reps_chain _ _ H L Hok) as Hc. rewrite HL in Hc.
  pose proof (reps_tail _ _ H L Hok) as Ht. rewrite HL, last_snoc in Ht.
  pose proof (chain_head _ _ _ Hc) as Hh.
  destruct (list.head ((l0 ++ [q]) ++ [p])) as [h|] eqn:Eh; [|by destruct l0].
  assert (Hhp : h ≠ p).
  { intros ->. apply (Hd p); [|set_solver]. destruct l0; simpl in Eh; simplify_eq; set_solver. }
  apply chain_app in Hc as (m & Hs & [-> Hc]).
  wp_steps. rewrite Hh, Ht by (by destruct l0). rewrite decide_False by done.
  apply wp_bind. eapply wp_eq.
  { rewrite <-Hh. apply find_prev_found with (l:=l0 ++ [q]); [done| |lia].
    intros ?%Hd. set_solver. }
  rewrite last_snoc. cbn. wp_steps. rewrite decide_True by done. wp_steps.
  unfold tail. cbn. rewrite (proj2 (head_put _ _ _ _)). wp_steps. apply HQ.
  - apply seg_app in Hs as (m & Hs & [-> Hqp]).
    apply (reps_update t); try done.
    + apply chain_app. exists (Some q). ptrs. split.
      * eapply seg_ext; [|exact Hs]. intros a Ha. unfold nx. cbn.
        rewrite !fn_lookup_alter_ne; [done| |].
        -- intros <-. apply (Hd0 _ Ha). set_solver.
        -- intros <-. apply (Hd p); set_solver.
      * unfold nx. cbn. split; [done|].
        rewrite fn_lookup_alter_ne, fn_lookup_alter; [done|].
        intros <-. apply (Hd p); set_solver.
    + intros _. rewrite last_snoc. ptrs. done.
    + intros r Hr. assert (r ∈ A L) by (rewrite HL; set_solver).
      split; [by apply (reps_lt _ _ H L)|]. intros L' Hne Hq'. apply Hne.
      by apply (reps_disj _ _ H L' L r).
    + intros L' Hne. ptrs. done.
    + intros L' r Hne Hr. unfold nx. cbn.
      rewrite !fn_lookup_alter_ne; [done| |];
        eapply (reps_other t A L); try done; rewrite HL; set_solver.
  - relink.
Qed.

Lemma wp_remove_mid L p A t l0 q r l2 (Q : Z → ptable → Prop) :
  reps t A → lid_ok L → A L = (l0 ++ [q]) ++ p :: r :: l2 →
  (∀ t', reps t' (<[L := (l0 ++ [q]) ++ r :: l2]> A) → relinked t t' → Q 0%Z t') →
  wp (stateListRemove L (Some p)) Q t.
Proof.
  intros H Hok HL HQ. unfold stateListRemove, upd.
  pose proof (reps_NoDup _ _ L H) as Hnd. rewrite HL in Hnd.
  pose proof (reps_length _ _ L H) as Hlen. rewrite HL, length_app in Hlen. cbn [length] in Hlen.
  apply NoDup_app in Hnd as (Hnd & Hd & Hnp). apply NoDup_cons in Hnp as [Hnp _].
  apply NoDup_app in Hnd as (_ & Hd0 & _).
  pose proof (reps_chain _ _ H L Hok) as Hc. rewrite HL in Hc.
  pose proof (reps_tail _ _ H L Hok) as Ht.
  rewrite HL, last_app_cons, last_cons_cons in Ht.
  pose proof (chain_head _ _ _ Hc) as Hh.
  destruct (list.head ((l0 ++ [q]) ++ p :: r :: l2)) as [h|] eqn:Eh; [|by destruct l0].
  destruct (last (r :: l2)) as [x|] eqn:El; [|by apply last_None in El].
  assert (Hhp : h ≠ p).
  { intros ->. apply (Hd p); [|set_solver]. destruct l0; simpl in Eh; simplify_eq; set_solver. }
  assert (Hxp : p ≠ x) by (intros ->; apply Hnp; by apply last_Some_elem_of).
  assert (Hqp : q ≠ p) by (intros ->; apply (Hd p); set_solver).
  apply chain_app in Hc as (m & Hs & [-> [Hpr Hc]]).
  wp_steps. rewrite Hh, Ht by (by destruct l0). rewrite decide_False by done.
  apply wp_bind. eapply wp_eq.
  { rewrite <-Hh. apply find_prev_found with (l:=l0 ++ [q]); [done| |lia].
    intros ?%Hd. set_solver. }
  rewrite last_snoc. cbn. wp_steps. rewrite decide_False by done. wp_steps. apply HQ.
  - apply seg_app in Hs as (m & Hs & [-> _]).
    apply (reps_update t); try done.
    + rewrite <-app_assoc. apply chain_app. exists (Some q). ptrs. split.
      * eapply seg_ext; [|exact Hs]. intros a Ha. unfold nx. cbn.
        rewrite !fn_lookup_alter_ne; [done| |].
        -- intros <-. apply (Hd0 _ Ha). set_solver.
        -- intros <-. apply (Hd p); set_solver.
      * unfold nx in *. cbn. rewrite fn_lookup_alter_ne, fn_lookup_alter by done.
        split; [done|]. split; [done|].
        assert (p ≠ r) by (intros ->; apply Hnp; set_solver).
        assert (q ≠ r) by (intros ->; apply (Hd r); set_solver).
        rewrite !fn_lookup_alter_ne by done.
        eapply chain_ext; [|exact Hc]. intros a Ha. cbn.
        rewrite !fn_lookup_alter_ne; [done| |]; intros <-.
        -- apply (Hd q); set_solver.
        -- apply Hnp. set_solver.
    + intros _. rewrite last_app_cons, El. ptrs. apply Ht. by destruct l0.
    + intros a Ha. assert (a ∈ A L) by (rewrite HL; set_solver).
      split; [by apply (reps_lt _ _ H L)|]. intros L' Hne Hq'. apply Hne.
      by apply (reps_disj _ _ H L' L a).
    + intros L' a Hne Ha. unfold nx. cbn.
      rewrite !fn_lookup_alter_ne; [done| |];
        eapply (reps_other t A L); try done; rewrite HL; set_solver.
  - relink.
Qed.

Lemma wp_stateListRemove L p A t (Q : Z → ptable → Prop) :
  reps t A → lid_ok L → p ∈ A L →
  (∀ t', reps t' (<[L := del p (A L)]> A) → relinked t t' → Q 0%Z t') →
  wp (stateListRemove L (Some p)) Q t.
Proof.
  intros H Hok Hp HQ. pose proof (reps_NoDup _ _ L H) as Hnd.
  apply list_elem_of_split in Hp as (l1 & l2 & EL). rewrite EL in HQ, Hnd.
  apply NoDup_app in Hnd as (_ & Hd & [Hp2 _]%NoDup_cons).
  assert (Hp1 : p ∉ l1) by (intros ?%Hd; set_solver).
  rewrite del_app, del_cons, (del_notin _ l1) in HQ by done.
  destruct l1 as [|q l0 _] using rev_ind; [by eapply wp_remove_head|].
  destruct l2 as [|r l2]; [rewrite app_nil_r in HQ; by eapply wp_remove_last|by eapply wp_remove_mid].
Qed.

(** Removing a process that is not on the list returns -1 and changes nothing. *)
Lemma stateListRemove_missing L p A t :
  reps t A → lid_ok L → p ∉ A L → stateListRemove L (Some p) t = Ok (-1)%Z t.
Proof.
  intros H Hok Hp. unfold stateListRemove, mbind, M_mbind, M_bind, gets.
  pose proof (reps_chain _ _ H L Hok) as Hc. pose proof (chain_head _ _ _ Hc) as Hh.
  destruct (head L t) as [h|] eqn:Eh, (tail L t); try done.
  rewrite decide_False.
  - destruct (find_prev_missing NPROC p (A L) (Some h) None t) as (pr & ->); try done.
    by eapply reps_length.
  - intros ->. apply Hp. destruct (A L); simpl in Hh; simplify_eq. set_solver.
Qed.

(** Removing the null pointer does nothing. *)
Lemma stateListRemove_null L t : stateListRemove L None t = Ok (-1)%Z t.
Proof. unfold stateListRemove, mbind, M_mbind, M_bind, gets. by destruct (head L t), (tail L t). Qed.

End refinement.

End ProcTable.
