(* ===== verification/CString.v ===== *)
(** * Memory and string routines (string.c; ulib.c for the user-space versions)

    Block operations work on a flat byte memory [mem]; string operations work
    on character arrays, lists of byte values, and return [None] when the code
    would read or write outside the array it was given. *)

From S2P Require Import Prelude.
Local Open Scope Z_scope.

Module CString.

(** ** Block operations *)

Abbreviation mem := (Z → Z) (only parsing).
Definition store (a v : Z) (m : mem) : mem := <[a := u8 v]> m.

(** x86.h: [stosb] stores [n] bytes, [stosl] stores [n] little-endian words. *)
Fixpoint stosb (n : nat) (dst c : Z) (m : mem) : mem :=
  match n with O => m | S n => stosb n (dst + 1) c (store dst c m) end.
Definition store_word (a w : Z) (m : mem) : mem :=
  store (a + 3) (Z.shiftr w 24) (store (a + 2) (Z.shiftr w 16)
    (store (a + 1) (Z.shiftr w 8) (store a w m))).
Fixpoint stosl (n : nat) (dst w : Z) (m : mem) : mem :=
  match n with O => m | S n => stosl n (dst + 4) w (store_word dst w m) end.

Definition memset (m : mem) (dst c : Z) (n : nat) : mem :=
  if (dst `mod` 4 =? 0) && (Z.of_nat n `mod` 4 =? 0) then
    let c := Z.land c 255 in
    stosl (Nat.div n 4) dst
      (Z.lor (Z.lor (Z.lor (Z.shiftl c 24) (Z.shiftl c 16)) (Z.shiftl c 8)) c) m
  else stosb n dst c m.

Fixpoint memcmp (m : mem) (s1 s2 : Z) (n : nat) : Z :=
  match n with
  | O => 0
  | S n => if m s1 =? m s2 then memcmp m (s1 + 1) (s2 + 1) n else m s1 - m s2
  end.

(** [while(n-- > 0) *--d = *--s] and [while(n-- > 0) *d++ = *s++]. *)
Fixpoint copy_down (m : mem) (d s : Z) (n : nat) : mem :=
  match n with
  | O => m
  | S n => copy_down (<[d - 1 := m (s - 1)]> m) (d - 1) (s - 1) n
  end.
Fixpoint copy_up (m : mem) (d s : Z) (n : nat) : mem :=
  match n with
  | O => m
  | S n => copy_up (<[d := m s]> m) (d + 1) (s + 1) n
  end.

Definition memmove (m : mem) (dst src : Z) (n : nat) : mem :=
  if (src <? dst) && (src + Z.of_nat n >? dst)
  then copy_down m (dst + Z.of_nat n) (src + Z.of_nat n) n
  else copy_up m dst src n.

Definition memcpy (m : mem) (dst src : Z) (n : nat) : mem := memmove m dst src n.

(** The user-space [memmove] always copies upwards. *)
Definition umemmove (m : mem) (dst src : Z) (n : Z) : mem :=
  copy_up m dst src (Z.to_nat n).
Definition umemset (m : mem) (dst c : Z) (n : nat) : mem := stosb n dst c m.

(** ** Strings *)

(** The string a character array holds: the characters before the first NUL. *)
Fixpoint cstr (l : list Z) : list Z :=
  match l with
  | [] => []
  | c :: l => if c =? 0 then [] else c :: cstr l
  end.

Fixpoint strlen_from (n : nat) (s : list Z) : option Z :=
  match s with
  | [] => None
  | c :: s => if c =? 0 then Some (Z.of_nat n) else strlen_from (S n) s
  end.
Definition strlen (s : list Z) : option Z := strlen_from 0 s.

Fixpoint strncmp (p q : list Z) (n : nat) {struct n} : option Z :=
  match n with
  | O => Some 0
  | S n =>
      match p, q with
      | a :: p, b :: q =>
          if negb (a =? 0) && (a =? b) then strncmp p q n else Some (u8 a - u8 b)
      | _, _ => None
      end
  end.

(** Storing at index [i] of an array, which must exist. *)
Definition put (i : nat) (c : Z) (s : list Z) : option (list Z) :=
  if decide (i < length s)%nat then Some (<[i := c]> s) else None.

Fixpoint zero_fill (n i : nat) (s : list Z) : option (list Z) :=
  match n with
  | O => Some s
  | S n => s ← put i 0 s; zero_fill n (S i) s
  end.

(** [while(n-- > 0 && ( *s++ = *t++) != 0);] then [while(n-- > 0) *s++ = 0;] *)
Fixpoint strncpy_loop (n i : nat) (s t : list Z) : option (list Z) :=
  match n with
  | O => Some s
  | S n =>
      c ← t !! i;
      s ← put i c s;
      if c =? 0 then zero_fill n (S i) s else strncpy_loop n (S i) s t
  end.
Definition strncpy (s t : list Z) (n : Z) : option (list Z) :=
  strncpy_loop (Z.to_nat n) 0 s t.

(** The copying loop of [safestrcpy] leaves [s] at the returned index. *)
Fixpoint safe_loop (n i : nat) (s t : list Z) : option (nat * list Z) :=
  match n with
  | O => Some (i, s)
  | S n =>
      c ← t !! i;
      s ← put i c s;
      if c =? 0 then Some (S i, s) else safe_loop n (S i) s t
  end.
Definition safestrcpy (s t : list Z) (n : Z) : option (list Z) :=
  if n <=? 0 then Some s else
  '(i, s) ← safe_loop (Z.to_nat (n - 1)) 0 s t;
  put i 0 s.

(** ** User-space strings and numbers (ulib.c) *)

Fixpoint strcpy_loop (fuel i : nat) (s t : list Z) : option (list Z) :=
  match fuel with
  | O => None
  | S fuel =>
      c ← t !! i;
      s ← put i c s;
      if c =? 0 then Some s else strcpy_loop fuel (S i) s t
  end.
Definition strcpy (s t : list Z) : option (list Z) := strcpy_loop (length t) 0 s t.

Fixpoint strcmp (p q : list Z) : option Z :=
  match p, q with
  | a :: p, b :: q =>
      if negb (a =? 0) && (a =? b) then strcmp p q else Some (u8 a - u8 b)
  | _, _ => None
  end.

(** The index of the first [c] before the NUL; [Some None] is a null result. *)
Fixpoint strchr_from (n : nat) (s : list Z) (c : Z) : option (option nat) :=
  match s with
  | [] => None
  | a :: s =>
      if a =? 0 then Some None
      else if a =? c then Some (Some n) else strchr_from (S n) s c
  end.
Definition strchr (s : list Z) (c : Z) : option (option nat) := strchr_from 0 s c.

Fixpoint skip_spaces (s : list Z) : list Z :=
  match s with c :: s' => if c =? 32 then skip_spaces s' else s | [] => [] end.

(** [while(lo <= *s && *s <= hi) n = n*base + *s++ - '0'] in 32 bits. *)
Fixpoint digits (base hi : Z) (n : Z) (s : list Z) : Z :=
  match s with
  | c :: s => if (48 <=? c) && (c <=? hi) then digits base hi (i32 (i32 (n * base) + c - 48)) s else n
  | [] => n
  end.
Definition ato (base hi : Z) (s : list Z) : Z :=
  let s := skip_spaces s in
  let sign := match s with c :: _ => if c =? 45 then -1 else 1 | [] => 1 end in
  let s := match s with c :: s' => if (c =? 43) || (c =? 45) then s' else s | [] => [] end in
  i32 (sign * digits base hi 0 s).
Definition atoi (s : list Z) : Z := ato 10 57 s.
Definition atoo (s : list Z) : Z := ato 8 55 s.

(** ** Block operations do what their loops intend *)

Lemma copy_up_spec n : ∀ m d s a,
  (s < d → s + Z.of_nat n <= d) →
  copy_up m d s n a = if decide (d <= a < d + Z.of_nat n) then m (s + (a - d)) else m a.
Proof.
  induction n as [|n IH]; intros m d s a H; cbn [copy_up].
  - rewrite decide_False by lia. done.
  - rewrite IH by lia. do 2 case_decide; try lia.
    + rewrite fn_lookup_insert_ne by lia. f_equal. lia.
    + assert (a = d) as -> by lia. rewrite fn_lookup_insert. f_equal. lia.
    + by rewrite fn_lookup_insert_ne by lia.
Qed.

Lemma copy_down_spec n : ∀ m d s a,
  s <= d →
  copy_down m d s n a =
    if decide (d - Z.of_nat n <= a < d) then m (s - (d - a)) else m a.
Proof.
  induction n as [|n IH]; intros m d s a H; cbn [copy_down].
  - rewrite decide_False by lia. done.
  - rewrite IH by lia. do 2 case_decide; try lia.
    + rewrite fn_lookup_insert_ne by lia. f_equal. lia.
    + assert (a = d - 1) as -> by lia. rewrite fn_lookup_insert. f_equal. lia.
    + by rewrite fn_lookup_insert_ne by lia.
Qed.

Lemma memmove_spec m dst src n a :
  memmove m dst src n a =
    if decide (dst <= a < dst + Z.of_nat n) then m (src + (a - dst)) else m a.
Proof.
  unfold memmove. destruct (Z.ltb_spec src dst); cbn [andb].
  - destruct (Z.gtb_spec (src + Z.of_nat n) dst).
    + rewrite copy_down_spec by lia.
      repeat case_decide; try lia; f_equal; lia.
    + apply copy_up_spec. lia.
  - apply copy_up_spec. lia.
Qed.

Lemma stosb_spec n : ∀ m d c a,
  stosb n d c m a = if decide (d <= a < d + Z.of_nat n) then u8 c else m a.
Proof.
  induction n as [|n IH]; intros m d c a; cbn [stosb].
  - rewrite decide_False by lia. done.
  - rewrite IH. unfold store. do 2 case_decide; try lia; try done.
    + assert (a = d) as -> by lia. by rewrite fn_lookup_insert.
    + by rewrite fn_lookup_insert_ne by lia.
Qed.

(** The word [memset] hands to [stosl] repeats one byte four times. *)
Definition splat (c : Z) : Z :=
  Z.lor (Z.lor (Z.lor (Z.shiftl c 24) (Z.shiftl c 16)) (Z.shiftl c 8)) c.

Definition splat_check (c : Z) : bool :=
  (u8 (splat c) =? c) && (u8 (Z.shiftr (splat c) 8) =? c) &&
  (u8 (Z.shiftr (splat c) 16) =? c) && (u8 (Z.shiftr (splat c) 24) =? c).

Lemma splat_bytes c : 0 <= c < 256 →
  u8 (splat c) = c ∧ u8 (Z.shiftr (splat c) 8) = c ∧
  u8 (Z.shiftr (splat c) 16) = c ∧ u8 (Z.shiftr (splat c) 24) = c.
Proof.
  intros Hc.
  assert (Hall : forallb splat_check (seqZ 0 256) = true) by (vm_compute; reflexivity).
  rewrite forallb_forall in Hall. specialize (Hall c).
  rewrite <-list_elem_of_In, elem_of_seqZ in Hall.
  unfold splat_check in Hall. rewrite !andb_true_iff, !Z.eqb_eq in Hall.
  destruct Hall as [[[??]?]?]; [lia|done].
Qed.

Lemma store_word_spec c m d a : 0 <= c < 256 →
  store_word d (splat c) m a = if decide (d <= a < d + 4) then c else m a.
Proof.
  intros Hc. destruct (splat_bytes c Hc) as (E0 & E1 & E2 & E3).
  unfold store_word, store. rewrite E0, E1, E2, E3.
  unfold insert, fn_insert. repeat case_decide; try done; lia.
Qed.

Lemma stosl_spec c n : 0 <= c < 256 → ∀ m d a,
  stosl n d (splat c) m a = if decide (d <= a < d + 4 * Z.of_nat n) then c else m a.
Proof.
  intros Hc. induction n as [|n IH]; intros m d a; cbn [stosl].
  - rewrite decide_False by lia. done.
  - rewrite IH, store_word_spec by done. repeat case_decide; try done; lia.
Qed.

Lemma memset_spec m dst c n a :
  memset m dst c n a = if decide (dst <= a < dst + Z.of_nat n) then u8 c else m a.
Proof.
  unfold memset. destruct (_ && _) eqn:E; [|apply stosb_spec].
  apply andb_true_iff in E as [_ Hn%Z.eqb_eq].
  assert (Hc : Z.land c 255 = u8 c) by (apply (Z.land_ones c 8); lia).
  fold (splat (Z.land c 255)). rewrite Hc, stosl_spec.
  - pose proof (Nat.div_mod_eq n 4). pose proof (Nat.mod_upper_bound n 4).
    assert (Z.of_nat (n `mod` 4)%nat = 0) by (rewrite Nat2Z.inj_mod; done).
    replace (4 * Z.of_nat (n `div` 4)%nat) with (Z.of_nat n) by lia. done.
  - apply Z.mod_pos_bound. lia.
Qed.

(** ** String routines *)

(** [first_nul t z]: the string in array [t] ends at index [z]. *)
Definition first_nul (t : list Z) (z : nat) : Prop :=
  t !! z = Some 0 ∧ ∀ k, (k < z)%nat → t !! k ≠ Some 0.

Lemma put_in i c s : (i < length s)%nat → put i c s = Some (<[i := c]> s).
Proof. intros. unfold put. by rewrite decide_True. Qed.

Lemma cstr_first_nul t z : first_nul t z → cstr t = take z t.
Proof.
  revert z; induction t as [|c t IH]; intros z [Hz Hlt]; [done|].
  destruct z as [|z]; simpl in Hz.
  - by injection Hz as ->.
  - simpl. destruct (Z.eqb_spec c 0) as [->|].
    + by destruct (Hlt 0%nat); [lia|].
    + f_equal. apply IH. split; [done|]. intros k Hk. apply (Hlt (S k)). lia.
Qed.

(** A string shorter than its array ends inside it. *)
Lemma cstr_short t : (length (cstr t) < length t)%nat → ∃ z, first_nul t z.
Proof.
  induction t as [|c t IH]; simpl; [lia|]. destruct (Z.eqb_spec c 0) as [->|Hc]; simpl.
  - intros _. exists 0%nat. split; [done|]. lia.
  - intros Hl. destruct IH as (z & Hz & Hlt); [lia|]. exists (S z). split; [done|].
    intros [|k] Hk; simpl; [congruence|]. apply Hlt. lia.
Qed.

Lemma strlen_from_spec t : ∀ z n, first_nul t z → strlen_from n t = Some (Z.of_nat (n + z)).
Proof.
  induction t as [|c t IH]; intros z n [Hz Hlt]; [done|]. simpl.
  destruct z as [|z]; simpl in Hz.
  - injection Hz as ->. simpl. do 2 f_equal. lia.
  - destruct (Z.eqb_spec c 0) as [->|]; [by destruct (Hlt 0%nat); [lia|]|].
    rewrite (IH z); [do 2 f_equal; lia|]. split; [done|]. intros k Hk. apply (Hlt (S k)). lia.
Qed.

Lemma strlen_spec t z : first_nul t z → strlen t = Some (Z.of_nat z).
Proof. apply (strlen_from_spec t z 0). Qed.

Lemma lookup_put_eq i (c : Z) (s : list Z) : (i < length s)%nat → <[i := c]> s !! i = Some c.
Proof. intros. by apply list_lookup_insert_eq. Qed.

(** The copying loop stores a prefix of [t] and stops behind its NUL. *)
Lemma safe_loop_spec t z : first_nul t z → ∀ n i s,
  (i <= z)%nat → (i + n <= length s)%nat →
  ∃ j s', safe_loop n i s t = Some (j, s') ∧ length s' = length s ∧
    (j = (i + n)%nat ∧ (j <= z)%nat ∨ j = S z ∧ (j <= i + n)%nat) ∧
    (∀ k, (i <= k < j)%nat → s' !! k = t !! k) ∧
    (∀ k, ¬ (i <= k < j)%nat → s' !! k = s !! k).
Proof.
  intros [Hz Hlt]. induction n as [|n IH]; intros i s Hi Hn; simpl.
  - exists i, s. repeat split; [left; lia|lia].
  - assert (is_Some (t !! i)) as [c Hc].
    { apply lookup_lt_is_Some. apply lookup_lt_Some in Hz. lia. }
    rewrite Hc. simpl. rewrite put_in by lia. simpl.
    destruct (Z.eqb_spec c 0) as [->|Hne].
    + assert (i = z) as ->.
      { destruct (decide (i < z)%nat) as [Hl|]; [by apply Hlt in Hl|lia]. }
      exists (S z), (<[z := 0]> s). rewrite length_insert. repeat split; [right; lia| |].
      * intros k Hk. assert (k = z) as -> by lia. rewrite lookup_put_eq by lia. done.
      * intros k Hk. rewrite list_lookup_insert_ne by lia. done.
    + assert (i ≠ z) by (intros ->; congruence).
      destruct (IH (S i) (<[i := c]> s)) as (j & s' & -> & Hlen & Hj & Hin & Hout);
        [lia|rewrite length_insert; lia|].
      rewrite length_insert in Hlen. exists j, s'. repeat split; [done|lia| |].
      * intros k Hk. destruct (decide (k = i)) as [->|].
        -- rewrite Hout by lia. rewrite lookup_put_eq by lia. done.
        -- apply Hin. lia.
      * intros k Hk. rewrite Hout by lia. rewrite list_lookup_insert_ne; [done|lia].
Qed.

(** [safestrcpy] always succeeds on a NUL-terminated source and a destination
    of at least [n] bytes; it stores at most [n] bytes, the result is
    NUL-terminated and holds the longest prefix that fits. *)
Lemma safestrcpy_spec s t n z :
  first_nul t z → 0 < n <= Z.of_nat (length s) →
  ∃ s', safestrcpy s t n = Some s' ∧ length s' = length s ∧
    cstr s' = take (Z.to_nat (n - 1)) (cstr t) ∧
    (∀ k, (Z.to_nat n <= k)%nat → s' !! k = s !! k).
Proof.
  intros Ht Hn. unfold safestrcpy. destruct (Z.leb_spec n 0); [lia|].
  destruct (safe_loop_spec t z Ht (Z.to_nat (n - 1)) 0 s) as (j & s1 & -> & Hlen & Hj & Hin & Hout);
    [lia|lia|].
  simpl. rewrite put_in by lia. eexists. split; [done|]. rewrite length_insert.
  split; [done|]. rewrite (cstr_first_nul t z Ht), take_take. destruct Ht as [Hz Hlt].
  split.
  - set (e := (Z.to_nat (n - 1) `min` z)%nat).
    rewrite (cstr_first_nul _ e).
    + apply list_eq. intros k. destruct (decide (k < e)%nat).
      * rewrite !lookup_take_lt, list_lookup_insert_ne by lia. apply Hin. lia.
      * rewrite !lookup_take_ge by lia. done.
    + split.
      * destruct (decide (e = j)) as [->|]; [apply lookup_put_eq; lia|].
        rewrite list_lookup_insert_ne by lia. rewrite Hin by lia.
        replace e with z by lia. done.
      * intros k Hk. rewrite list_lookup_insert_ne by lia. rewrite Hin by lia. apply Hlt. lia.
  - intros k Hk. rewrite list_lookup_insert_ne by lia. apply Hout. lia.
Qed.

Definition is_byte (c : Z) : Prop := 0 <= c < 256.

(** The first [n] characters of the string in [p] can be read. *)
Fixpoint readable (p : list Z) (n : nat) {struct n} : Prop :=
  match n, p with
  | O, _ => True
  | S n, c :: p => c = 0 ∨ readable p n
  | S _, [] => False
  end.

Lemma readable_nul p z n : first_nul p z → readable p n.
Proof.
  revert z n; induction p as [|c p IH]; intros z [|n] [Hz Hlt]; simpl; try done.
  destruct z as [|z]; [left; by injection Hz|right].
  apply (IH z). split; [done|]. intros k Hk. apply (Hlt (S k)). lia.
Qed.

Lemma readable_length p n : (n <= length p)%nat → readable p n.
Proof.
  revert n; induction p as [|c p IH]; intros [|n] Hn; simpl in *; try done; [lia|].
  right. apply IH. lia.
Qed.

(** [strncmp] returns 0 exactly when the strings agree on their first [n]
    characters, whether or not they are NUL-terminated within them. *)
Lemma strncmp_spec n : ∀ p q,
  Forall is_byte p → Forall is_byte q → readable p n → readable q n →
  ∃ r, strncmp p q n = Some r ∧ (r = 0 ↔ take n (cstr p) = take n (cstr q)).
Proof.
  induction n as [|n IH]; intros p q Hp Hq Rp Rq; simpl.
  - exists 0. done.
  - destruct p as [|a p], q as [|b q]; try done.
    apply Forall_cons in Hp as [Ha Hp], Hq as [Hb Hq]. unfold is_byte, u8 in *. simpl in *.
    destruct (Z.eqb_spec a 0) as [->|Ha0]; simpl.
    + eexists; split; [done|]. rewrite !Z.mod_small by lia.
      destruct (Z.eqb_spec b 0) as [->|]; [done|]. split; [lia|]. done.
    + destruct Rp as [|Rp]; [done|]. destruct (Z.eqb_spec a b) as [<-|Hab].
      * destruct Rq as [|Rq]; [done|]. destruct (Z.eqb_spec a 0); [done|].
        destruct (IH p q) as (r & -> & Hr); try done. exists r. split; [done|].
        rewrite Hr. simpl. split; [by intros ->|by intros [= ?]].
      * eexists; split; [done|]. rewrite !Z.mod_small by lia.
        split; [lia|]. destruct (Z.eqb_spec b 0) as [->|]; [done|]. simpl. by intros [= ? ?].
Qed.

Lemma zero_fill_spec n : ∀ i s, (i + n <= length s)%nat →
  ∃ s', zero_fill n i s = Some s' ∧ length s' = length s ∧
    (∀ k, (i <= k < i + n)%nat → s' !! k = Some 0) ∧
    (∀ k, ¬ (i <= k < i + n)%nat → s' !! k = s !! k).
Proof.
  induction n as [|n IH]; intros i s Hn; simpl.
  - exists s. repeat split; lia.
  - rewrite put_in by lia. simpl.
    destruct (IH (S i) (<[i := 0]> s)) as (s' & -> & Hl & Hin & Hout); [rewrite length_insert; lia|].
    rewrite length_insert in Hl. exists s'. repeat split; [done| |].
    + intros k Hk. destruct (decide (k = i)) as [->|]; [|apply Hin; lia].
      rewrite Hout by lia. apply lookup_put_eq. lia.
    + intros k Hk. rewrite Hout by lia. apply list_lookup_insert_ne. lia.
Qed.

(** [strncpy] copies the string and pads with NULs up to [n]. *)
Lemma strncpy_loop_spec t n : ∀ i s,
  readable (drop i t) n → (i + n <= length s)%nat →
  ∃ s', strncpy_loop n i s t = Some s' ∧ length s' = length s ∧
    (∀ k, (k < n)%nat → s' !! (i + k)%nat = Some (default 0 (cstr (drop i t) !! k))) ∧
    (∀ k, ¬ (i <= k < i + n)%nat → s' !! k = s !! k).
Proof.
  induction n as [|n IH]; intros i s Hr Hn; simpl.
  - exists s. repeat split; lia.
  - destruct (drop i t) as [|c l] eqn:Ed; [done|].
    assert (Hc : t !! i = Some c).
    { rewrite <-(Nat.add_0_r i), <-lookup_drop, Ed. done. }
    assert (Hd : drop (S i) t = l).
    { by rewrite <-(Nat.add_1_r i), <-drop_drop, Ed. }
    rewrite Hc. simpl. rewrite put_in by lia. simpl.
    destruct (Z.eqb_spec c 0) as [->|Hne].
    + destruct (zero_fill_spec n (S i) (<[i := 0]> s)) as (s' & -> & Hl & Hin & Hout);
        [rewrite length_insert; lia|].
      rewrite length_insert in Hl. exists s'. repeat split; [done| |].
      * intros k Hk. destruct k as [|k]; simpl.
        -- rewrite Nat.add_0_r, Hout by lia. apply lookup_put_eq. lia.
        -- apply Hin. lia.
      * intros k Hk. rewrite Hout by lia. apply list_lookup_insert_ne. lia.
    + destruct Hr as [|Hr]; [done|].
      destruct (IH (S i) (<[i := c]> s)) as (s' & -> & Hl & Hin & Hout);
        [by rewrite Hd|rewrite length_insert; lia|].
      rewrite length_insert in Hl. rewrite Hd in Hin. exists s'. repeat split; [done| |].
      * intros k Hk. destruct k as [|k]; simpl.
        -- rewrite Nat.add_0_r, Hout by lia. apply lookup_put_eq. lia.
        -- rewrite <-Hin by lia. f_equal. lia.
      * intros k Hk. rewrite Hout by lia. apply list_lookup_insert_ne. lia.
Qed.

End CString.
