(* ===== verification/Proc.v ===== *)
(** * Process management (proc.c)

    The operations of proc.c on a kernel state that holds the locking layer,
    the process table and the process-management globals.  The build is the
    repository's ([CS333_PROJECT = 5]: P1, P2, P3P4 and P5 defined).

    Every operation takes the CPU [c] it runs on.  A context switch is modelled
    at the two calls of [swtch]: [sched] ends by saving where the process will
    resume, [scheduler_after] is what the scheduler then executes, and
    [scheduler] ends by switching to the chosen process, which continues in
    [resume]. *)

From S2P Require Import Prelude Spinlock ProcTable CString.
Local Open Scope Z_scope.

Module Proc.
Import ProcTable.

(** ** What proc.c uses of the other kernel components

    Memory, page tables, files and inodes live in a component state [K]; these
    operations do not touch the process table.  A failed allocation is [None]. *)
Class Services := {
  K : Type;
  kalloc : M K (option Z);
  kfree : Z → M K unit;
  setupkvm : M K (option Z);
  inituvm : Z → M K unit;
  copyuvm : Z → Z → M K (option Z);
  freevm : Z → M K unit;
  allocuvm : Z → Z → Z → M K Z;
  deallocuvm : Z → Z → Z → M K Z;
  switchuvm : Z → M K unit;      (* of the page directory *)
  switchkvm : M K unit;
  filedup : Z → M K Z;
  idup : Z → M K Z;
  namei_root : M K Z
}.

Section proc.
Context `{cfg : Config} `{sv : Services}.

(** [null_pid] is the word at the address of [((struct proc * )0)->pid], which
    lies in the user memory of the running process. *)
Record kstate := mkk {
  ls : Spinlock.lstate;
  pt : ptable;
  initproc : option nat;
  nextpid : Z;
  ticks : Z;
  first : bool;
  out : list string;
  null_pid : Z;
  ext : K
}.

Definition put_ls (x : Spinlock.lstate) (s : kstate) : kstate :=
  mkk x (pt s) (initproc s) (nextpid s) (ticks s) (first s) (out s) (null_pid s) (ext s).
Definition put_pt (x : ptable) (s : kstate) : kstate :=
  mkk (ls s) x (initproc s) (nextpid s) (ticks s) (first s) (out s) (null_pid s) (ext s).
Definition put_initproc (x : option nat) (s : kstate) : kstate :=
  mkk (ls s) (pt s) x (nextpid s) (ticks s) (first s) (out s) (null_pid s) (ext s).
Definition put_nextpid (x : Z) (s : kstate) : kstate :=
  mkk (ls s) (pt s) (initproc s) x (ticks s) (first s) (out s) (null_pid s) (ext s).
Definition put_ticks (x : Z) (s : kstate) : kstate :=
  mkk (ls s) (pt s) (initproc s) (nextpid s) x (first s) (out s) (null_pid s) (ext s).
Definition put_first (x : bool) (s : kstate) : kstate :=
  mkk (ls s) (pt s) (initproc s) (nextpid s) (ticks s) x (out s) (null_pid s) (ext s).
Definition put_out (x : list string) (s : kstate) : kstate :=
  mkk (ls s) (pt s) (initproc s) (nextpid s) (ticks s) (first s) x (null_pid s) (ext s).
Definition put_ext (x : K) (s : kstate) : kstate :=
  mkk (ls s) (pt s) (initproc s) (nextpid s) (ticks s) (first s) (out s) (null_pid s) x.

Definition onL {A} (m : M Spinlock.lstate A) : M kstate A := zoom ls put_ls m.
Definition onT {A} (m : M ptable A) : M kstate A := zoom pt put_pt m.
Definition onK {A} (m : M K A) : M kstate A := zoom ext put_ext m.

(** The ptable lock is lock 0 of the locking layer. *)
Definition PTABLE : nat := 0.
Definition acquire (c lk : nat) : M kstate unit := onL (Spinlock.acquire c lk).
Definition release (c lk : nat) : M kstate unit := onL (Spinlock.release c lk).
Definition pinit : M kstate unit := onL (Spinlock.initlock PTABLE "ptable").
Definition getlock (c : nat) : M kstate Z := acquire c PTABLE;; mret 1.
Definition freelock (c : nat) : M kstate Z := release c PTABLE;; mret 1.

Definition upd (p : nat) (f : proc → proc) : M kstate unit := onT (ProcTable.upd p f).
Definition fld {A} (p : nat) (f : proc → A) : M kstate A := gets (λ s, f (procs (pt s) p)).
Definition cprintf (x : string) : M kstate unit := modify (λ s, put_out (out s ++ [x]) s).

(** The per-CPU variable [proc]. *)
Definition cur (c : nat) (s : kstate) : option nat := Spinlock.proc (Spinlock.cpus (ls s) c).
Definition myproc (c : nat) : M kstate nat := p ← gets (cur c); deref p.
Definition set_cur (c : nat) (p : option nat) : M kstate unit :=
  onL (Spinlock.upd_cpu c (Spinlock.set_proc p)).

(** Subscripting [ready[]] outside its MAXPRIO+1 entries faults. *)
Definition ready_idx {S} (z : Z) : M S nat :=
  if (0 <=? z) && (z <=? Z.of_nat MAXPRIO) then mret (Z.to_nat z)
  else fault "ready[] subscript".

(** ** Initialisation *)

Definition initProcessLists : M ptable unit :=
  count_for (MAXPRIO + 1) 0 (λ i,
    set_head (Ready i) None;; set_tail (Ready i) None;; mret (None : option unit));;
  set_head Free None;; set_tail Free None;;
  set_head Sleep None;; set_tail Sleep None;;
  set_head Zombie None;; set_tail Zombie None;;
  set_head Running None;; set_tail Running None;;
  set_head Embryo None;; set_tail Embryo None.

Definition initFreeList (c : nat) : M kstate unit :=
  h ← gets (λ s, Spinlock.holding c PTABLE (ls s));
  if negb h then panic "acquire the ptable lock before calling initFreeList" else
  count_for NPROC 0 (λ p,
    upd p (set_state UNUSED);;
    onT (stateListAdd Free (Some p));;
    mret (None : option unit));;
  mret tt.

Definition sizeof_trapframe : Z := 76.
Definition sizeof_context : Z := 20.

Definition allocproc (c : nat) : M kstate (option nat) :=
  acquire c PTABLE;;
  p ← gets (λ s, free (pLists (pt s)));
  rc ← onT (stateListRemove Free p);
  if negb (rc =? 0) then release c PTABLE;; mret None else
  (* found: *)
  p ← deref p;
  onT (assertState p UNUSED);;
  upd p (set_state EMBRYO);;
  upd p (set_budget BUDGET);;
  upd p (set_priority 0);;
  rc ← onT (stateListAdd Embryo (Some p));
  (if negb (rc =? 0) then panic "rc !=0 allocproc" else mret tt);;
  upd p (set_state EMBRYO);;
  n ← gets nextpid;
  upd p (set_pid (u32 n));;
  modify (put_nextpid (i32 (n + 1)));;
  release c PTABLE;;
  (* Allocate kernel stack. *)
  k ← onK kalloc;
  match k with
  | None =>
      upd p (set_kstack 0);;
      cprintf "Allocate kernel stack fail, allocproc";;
      acquire c PTABLE;;
      rc ← onT (stateListRemove Embryo (Some p));
      onT (assertState p EMBRYO);;
      upd p (set_state UNUSED);;
      rc' ← onT (stateListAdd Free (Some p));
      (if negb (rc + rc' =? 0) then panic "Crazy things happening" else mret tt);;
      upd p (set_state UNUSED);;
      release c PTABLE;;
      mret None
  | Some ks =>
      upd p (set_kstack ks);;
      let sp := ks + KSTACKSIZE - sizeof_trapframe in
      upd p (set_tf_at sp);;
      let sp := sp - 4 - sizeof_context in
      upd p (set_context_at sp);;
      upd p (set_context AtForkret);;
      t ← gets ticks;
      upd p (set_start_ticks t);;
      upd p (set_cpu_ticks_total 0);;
      upd p (set_cpu_ticks_in 0);;
      mret (Some p)
  end.

(** "initcode" with its NUL, as bytes. *)
Definition initcode_name : list Z := [105; 110; 105; 116; 99; 111; 100; 101; 0].

(** cs = (SEG_UCODE<<3)|DPL_USER, ds = es = ss = (SEG_UDATA<<3)|DPL_USER,
    eflags = FL_IF, esp = PGSIZE, eip = 0. *)
Definition PGSIZE : Z := 4096.
Definition user_tf : trapframe :=
  mktf 0 0 0 0 0 0 0 0 0 0 (Z.lor (Z.shiftl 5 3) 3) (Z.lor (Z.shiftl 5 3) 3) 0 0
    0 (Z.lor (Z.shiftl 4 3) 3) 512 PGSIZE (Z.lor (Z.shiftl 5 3) 3).

Definition lift_opt {S A} (o : option A) : M S A :=
  match o with Some a => mret a | None => fault "array bounds" end.

Definition userinit (c : nat) : M kstate unit :=
  getlock c;;
  t ← gets ticks;
  onT (modify (λ x, mkptable (procs x) (pLists x) (u32 (t + TICKS_TO_PROMOTE))));;
  onT initProcessLists;;
  initFreeList c;;
  freelock c;;
  p ← allocproc c;
  modify (put_initproc p);;
  p ← deref p;
  pg ← onK setupkvm;
  match pg with
  | None => upd p (set_pgdir 0);; panic "userinit: out of memory?"
  | Some pg =>
      upd p (set_pgdir pg);;
      onK (inituvm pg);;
      upd p (set_sz PGSIZE);;
      upd p (set_tf user_tf);;
      nm ← fld p name;
      nm ← lift_opt (CString.safestrcpy nm initcode_name 16);
      upd p (set_name nm);;
      d ← onK namei_root;
      upd p (set_cwd d);;
      acquire c PTABLE;;
      rc ← onT (stateListRemove Embryo (Some p));
      onT (assertState p EMBRYO);;
      upd p (set_state RUNNABLE);;
      pr ← fld p priority;
      i ← ready_idx pr;
      rc' ← onT (stateListAdd (Ready i) (Some p));
      (if negb (rc + rc' =? 0) then panic "userinit" else mret tt);;
      upd p (set_state RUNNABLE);;
      release c PTABLE;;
      upd p (set_uid 0);;
      upd p (set_gid 0);;
      upd p (set_parent None);;
      upd p (set_next None)
  end.

(** ** growproc and fork *)

Definition growproc (c : nat) (n : Z) : M kstate Z :=
  p ← myproc c;
  sz0 ← fld p sz;
  pg ← fld p pgdir;
  r ← (if 0 <? n then
         s ← onK (allocuvm pg sz0 (u32 (sz0 + n)));
         mret (if s =? 0 then None else Some s)
       else if n <? 0 then
         s ← onK (deallocuvm pg sz0 (u32 (sz0 + n)));
         mret (if s =? 0 then None else Some s)
       else mret (Some sz0));
  match r with
  | None => mret (-1)
  | Some sz1 =>
      upd p (set_sz sz1);;
      onK (switchuvm pg);;
      mret 0
  end.

(** [for(i = 0; i < NOFILE; i++) if(proc->ofile[i])
       np->ofile[i] = filedup(proc->ofile[i]);] *)
Definition dup_files (p np : nat) : M kstate unit :=
  count_for NOFILE 0 (λ i,
    f ← fld p (λ r, nth i (ofile r) 0);
    (if f =? 0 then mret tt else
     f' ← onK (filedup f);
     upd np (λ r, set_ofile (<[i := f']> (ofile r)) r));;
    mret (None : option unit));;
  mret tt.

(** fork, after allocproc returned [np]. *)
Definition fork_rest (c np : nat) : M kstate Z :=
  p ← myproc c;
  pg ← fld p pgdir;
  sz0 ← fld p sz;
  npg ← onK (copyuvm pg sz0);
  match npg with
  | None =>
      upd np (set_pgdir 0);;
      ks ← fld np kstack;
      onK (kfree ks);;
      upd np (set_kstack 0);;
      acquire c PTABLE;;
      rc ← onT (stateListRemove Embryo (Some np));
      onT (assertState np EMBRYO);;
      upd np (set_state UNUSED);;
      rc' ← onT (stateListAdd Free (Some np));
      (if negb (rc + rc' =? 0) then panic "FORK: rc != 0" else mret tt);;
      upd np (set_state UNUSED);;
      release c PTABLE;;
      mret (-1)
  | Some npg =>
      upd np (set_pgdir npg);;
      upd np (set_sz sz0);;
      upd np (set_parent (Some p));;
      t ← fld p tf;
      upd np (set_tf t);;
      upd np (λ r, set_tf (set_eax 0 (tf r)) r);;
      dup_files p np;;
      d ← fld p cwd;
      d' ← onK (idup d);
      upd np (set_cwd d');;
      nm ← fld np name;
      pnm ← fld p name;
      nm' ← lift_opt (CString.safestrcpy nm pnm 16);
      upd np (set_name nm');;
      pid ← fld np pid;
      u ← fld p uid; upd np (set_uid u);;
      g ← fld p gid; upd np (set_gid g);;
      acquire c PTABLE;;
      rc ← onT (stateListRemove Embryo (Some np));
      onT (assertState np EMBRYO);;
      upd np (set_state RUNNABLE);;
      pr ← fld p priority;
      upd np (set_priority pr);;
      pr ← fld np priority;
      i ← ready_idx pr;
      rc' ← onT (stateListAdd (Ready i) (Some np));
      (if negb (rc + rc' =? 0) then panic "state list error FORK" else mret tt);;
      upd np (set_state RUNNABLE);;
      release c PTABLE;;
      mret (i32 pid)
  end.

Definition fork (c : nat) : M kstate Z :=
  np ← allocproc c;
  match np with
  | None => mret (-1)
  | Some np => fork_rest c np
  end.

(** ** Switching to the scheduler *)

(** sched: account for the time slice, demote a process whose budget is used
    up, and save where the process resumes. *)
Definition sched (c : nat) (k : caller) : M kstate unit :=
  h ← gets (λ s, Spinlock.holding c PTABLE (ls s));
  if negb h then panic "sched ptable.lock" else
  n ← gets (λ s, Spinlock.ncli (Spinlock.cpus (ls s) c));
  if negb (n =? 1) then panic "sched locks" else
  p ← myproc c;
  st ← fld p state;
  if decide (st = RUNNING) then panic "sched running" else
  f ← gets (λ s, Spinlock.fl_if (Spinlock.cpus (ls s) c));
  if (f : bool) then panic "sched interruptible" else
  ie ← gets (λ s, Spinlock.intena (Spinlock.cpus (ls s) c));
  t ← gets ticks;
  upd p (λ r, set_cpu_ticks_total (u32 (cpu_ticks_total r + u32 (t - cpu_ticks_in r))) r);;
  upd p (λ r, set_budget (i32 (budget r - u32 (t - cpu_ticks_in r))) r);;
  b ← fld p budget;
  (if b <? 1 then
     pr ← fld p priority;
     (if pr <? Z.of_nat MAXPRIO then
        (if decide (st = RUNNABLE) then
           i ← ready_idx pr;
           rc ← onT (stateListRemove (Ready i) (Some p));
           j ← ready_idx (pr + 1);
           rc' ← onT (stateListAdd (Ready j) (Some p));
           (if negb (rc + rc' =? 0) then panic "sched update priority" else mret tt)
         else mret tt);;
        upd p (λ r, set_priority (priority r + 1) r)
      else mret tt);;
     upd p (set_budget BUDGET)
   else mret tt);;
  upd p (set_context (AtSched ie k)).

(** The scheduler loop after its call of [swtch] returns. *)
Definition scheduler_after (c : nat) : M kstate unit :=
  onK switchkvm;;
  set_cur c None;;
  release c PTABLE.

Definition yield (c : nat) : M kstate unit :=
  acquire c PTABLE;;
  q ← gets (cur c);
  rc ← onT (stateListRemove Running q);
  p ← deref q;
  onT (assertState p RUNNING);;
  upd p (set_state RUNNABLE);;
  pr ← fld p priority;
  i ← ready_idx pr;
  rc' ← onT (stateListAdd (Ready i) (Some p));
  (if negb (rc + rc' =? 0) then panic "Yield" else mret tt);;
  upd p (set_state RUNNABLE);;
  sched c FromYield;;
  scheduler_after c.

(** sleep, up to the switch; [lk = None] is a null lock. *)
Definition sleep (c : nat) (ch : chan_t) (lk : option nat) : M kstate unit :=
  q ← gets (cur c);
  match q with
  | None => panic "sleep"
  | Some p =>
      (if decide (lk = Some PTABLE) then mret tt else
       acquire c PTABLE;;
       match lk with Some l => release c l | None => mret tt end);;
      upd p (set_chan ch);;
      rc ← onT (stateListRemove Running (Some p));
      onT (assertState p RUNNING);;
      upd p (set_state SLEEPING);;
      rc' ← onT (stateListAdd Sleep (Some p));
      (if negb (rc + rc' =? 0) then panic "Sleep" else mret tt);;
      upd p (set_state SLEEPING);;
      sched c (FromSleep lk);;
      scheduler_after c
  end.

(** ** Wake-up *)

Definition wakeup1 (ch : chan_t) : M ptable unit :=
  h ← gets (head Sleep);
  list_for_saved NPROC nx (λ p,
    pc ← gets (λ t, chan (procs t p));
    (if decide (pc = ch) then
       rc ← stateListRemove Sleep (Some p);
       assertState p SLEEPING;;
       ProcTable.upd p (set_state RUNNABLE);;
       pr ← gets (λ t, priority (procs t p));
       i ← ready_idx pr;
       rc' ← stateListAdd (Ready i) (Some p);
       (if negb (rc + rc' =? 0) then panic "wakeup1" else mret tt)
     else mret tt);;
    mret (None : option unit)) h;;
  mret tt.

Definition wakeup (c : nat) (ch : chan_t) : M kstate unit :=
  acquire c PTABLE;;
  onT (wakeup1 ch);;
  release c PTABLE.

(** ** kill and setpriority *)

Definition kkx (s : kstate) (p : nat) : option nat := nx (pt s) p.

(** [while (curr != 0) { if (curr->pid == pid) hit; curr = curr->next; }] *)
Definition find_pid {B} (L : lid) (target : Z) (hit : nat → M kstate B) : M kstate (option B) :=
  h ← gets (λ s, head L (pt s));
  list_for NPROC kkx (λ p,
    x ← fld p pid;
    if x =? target then r ← hit p; mret (Some r) else mret None) h.

(** [for (int i = 0; i < MAXPRIO+1; i++)] over the ready lists. *)
Definition find_pid_ready {B} (target : Z) (hit : nat → nat → M kstate B) : M kstate (option B) :=
  count_for (MAXPRIO + 1) 0 (λ i, find_pid (Ready i) target (hit i)).

Definition or_else {S B} (m1 m2 : M S (option B)) : M S (option B) :=
  r ← m1; match r with Some b => mret (Some b) | None => m2 end.

Definition kill_mark (c p : nat) : M kstate Z :=
  upd p (set_killed 1);;
  release c PTABLE;;
  mret 0.

Definition kill_sleeper (c p : nat) : M kstate Z :=
  upd p (set_killed 1);;
  rc ← onT (stateListRemove Sleep (Some p));
  onT (assertState p SLEEPING);;
  upd p (set_state RUNNABLE);;
  rc' ← onT (stateListAdd (Ready 0) (Some p));
  (if negb (rc + rc' =? 0) then panic "kill" else mret tt);;
  release c PTABLE;;
  mret 0.

(** The argument is compared with an unsigned pid. *)
Definition kill (c : nat) (pid : Z) : M kstate Z :=
  acquire c PTABLE;;
  let t := u32 pid in
  r ← or_else (find_pid Running t (kill_mark c))
     (or_else (find_pid Sleep t (kill_sleeper c))
     (or_else (find_pid_ready t (λ _, kill_mark c))
     (or_else (find_pid Zombie t (kill_mark c))
              (find_pid Embryo t (kill_mark c)))));
  match r with
  | Some r => mret r
  | None => release c PTABLE;; mret (-1)
  end.

Definition setprio_running (c : nat) (prio : Z) (p : nat) : M kstate Z :=
  x ← fld p priority;
  if x =? prio then
    upd p (set_budget BUDGET);; release c PTABLE;; mret 0
  else
    rc ← onT (stateListRemove Running (Some p));
    onT (assertState p RUNNING);;
    upd p (set_priority prio);;
    upd p (set_budget BUDGET);;
    i ← ready_idx prio;
    rc' ← onT (stateListAdd (Ready i) (Some p));
    (if negb (rc + rc' =? 0) then panic "setpriority running" else mret tt);;
    release c PTABLE;;
    mret 0.

Definition setprio_ready (c : nat) (prio : Z) (i p : nat) : M kstate Z :=
  x ← fld p priority;
  if x =? prio then
    upd p (set_budget BUDGET);; release c PTABLE;; mret 0
  else
    rc ← onT (stateListRemove (Ready i) (Some p));
    onT (assertState p RUNNABLE);;
    upd p (set_priority prio);;
    upd p (set_budget BUDGET);;
    j ← ready_idx prio;
    rc' ← onT (stateListAdd (Ready j) (Some p));
    (if negb (rc + rc' =? 0) then panic "setpriority ready" else mret tt);;
    release c PTABLE;;
    mret 0.

Definition setprio_sleep (c : nat) (prio : Z) (p : nat) : M kstate Z :=
  x ← fld p priority;
  if x =? prio then
    upd p (set_budget BUDGET);; release c PTABLE;; mret 0
  else
    upd p (set_priority prio);;
    upd p (set_budget BUDGET);;
    release c PTABLE;;
    mret 0.

Definition setpriority (c : nat) (pid prio : Z) : M kstate Z :=
  if (prio <? 0) || (Z.of_nat MAXPRIO <? prio) then mret (-1) else
  acquire c PTABLE;;
  let t := u32 pid in
  r ← or_else (find_pid Running t (setprio_running c prio))
     (or_else (find_pid_ready t (setprio_ready c prio))
              (find_pid Sleep t (setprio_sleep c prio)));
  match r with
  | Some r => mret r
  | None => release c PTABLE;; mret (-1)
  end.

(** ** The scheduler *)

(** Promotion: every running, ready and sleeping process moves up one level. *)
Definition promote_field (msg : string) (L : lid) : M ptable unit :=
  h ← gets (head L);
  list_for_saved NPROC nx (λ p,
    pr ← gets (λ t, priority (procs t p));
    if pr <? 0 then panic msg else
    (if 0 <? pr then ProcTable.upd p (set_priority (pr - 1)) else mret tt);;
    mret (None : option unit)) h;;
  mret tt.

Definition promote_ready (i : nat) : M ptable unit :=
  h ← gets (head (Ready i));
  list_for_saved NPROC nx (λ p,
    pr ← gets (λ t, priority (procs t p));
    if negb (pr =? Z.of_nat i) then panic "priority != i, scheduler, runnable lists" else
    stateListRemove (Ready i) (Some p);;
    ProcTable.upd p (set_priority (pr - 1));;
    stateListAdd (Ready (i - 1)) (Some p);;
    mret (None : option unit)) h;;
  mret tt.

Definition promote : M ptable unit :=
  promote_field "priority < 0, scheduler, running" Running;;
  count_for MAXPRIO 1 (λ i, promote_ready i;; mret (None : option unit));;
  promote_field "priority < 0, scheduler, sleeping" Sleep;;
  modify (λ t, mkptable (procs t) (pLists t) (u32 (PromoteAtTime t + TICKS_TO_PROMOTE))).

(** The first non-empty ready list and its head. *)
Definition pick : M ptable (option (nat * nat)) :=
  count_for (MAXPRIO + 1) 0 (λ j,
    p ← gets (λ t, ready (pLists t) j);
    match p with Some p => mret (Some (j, p)) | None => mret None end).

(** One iteration of the scheduler loop, up to the switch to the process it
    returns; [None] when there was nothing to run and the CPU halted. *)
Definition scheduler (c : nat) : M kstate (option nat) :=
  onL (Spinlock.sti c);;
  acquire c PTABLE;;
  pa ← gets (λ s, PromoteAtTime (pt s));
  t ← gets ticks;
  (if pa <=? t then onT promote else mret tt);;
  r ← onT pick;
  match r with
  | None =>
      release c PTABLE;;
      onL (Spinlock.sti c);;
      mret None
  | Some (j, p) =>
      rc ← onT (stateListRemove (Ready j) (Some p));
      onT (assertState p RUNNABLE);;
      upd p (set_state RUNNING);;
      rc' ← onT (stateListAdd Running (Some p));
      (if negb (rc + rc' =? 0) then panic "Panic - scheduler" else mret tt);;
      set_cur c (Some p);;
      pg ← fld p pgdir;
      onK (switchuvm pg);;
      t ← gets ticks;
      upd p (set_cpu_ticks_in t);;
      mret (Some p)
  end.

(** ** wait *)

(** [q->parent->pid], reading through a null [parent]. *)
Definition parent_pid (q : nat) (s : kstate) : Z :=
  match parent (procs (pt s) q) with
  | Some r => pid (procs (pt s) r)
  | None => null_pid s
  end.

Definition reap (c curr : nat) : M kstate Z :=
  rc ← onT (stateListRemove Zombie (Some curr));
  pid ← fld curr pid;
  ks ← fld curr kstack;
  onK (kfree ks);;
  upd curr (set_kstack 0);;
  onT (assertState curr ZOMBIE);;
  upd curr (set_state UNUSED);;
  pg ← fld curr pgdir;
  onK (freevm pg);;
  upd curr (set_pid 0);;
  upd curr (set_parent None);;
  upd curr (λ r, set_name (<[0%nat := 0]> (name r)) r);;
  upd curr (set_killed 0);;
  rc' ← onT (stateListAdd Free (Some curr));
  (if negb (rc + rc' =? 0) then panic "wait error" else mret tt);;
  release c PTABLE;;
  mret (i32 pid).

(** Is there a process on list [L] whose parent has this pid? *)
Definition child_on (L : lid) (mypid : Z) : M kstate bool :=
  h ← gets (λ s, head L (pt s));
  r ← list_for NPROC kkx (λ q,
    pp ← gets (parent_pid q);
    mret (if pp =? mypid then Some tt else None)) h;
  mret (match r with Some _ => true | None => false end).

(** The loop over ready lists [lo], ..., [lo + n - 1]. *)
Fixpoint child_ready (n lo : nat) (mypid : Z) : M kstate bool :=
  match n with
  | O => mret false
  | S n =>
      b ← child_on (Ready lo) mypid;
      b' ← child_ready n (S lo) mypid;
      mret (b || b')
  end.

Definition any_child (mypid : Z) : M kstate bool :=
  b0 ← child_ready (MAXPRIO + 1) 0 mypid;
  b1 ← child_on Sleep mypid;
  b2 ← child_on Running mypid;
  b3 ← child_on Embryo mypid;
  mret (b0 || b1 || b2 || b3).

Inductive wait_outcome := WaitRet (r : Z) | WaitSleep (havekids : bool).

(** One pass of the [for(;;)] loop: reap a zombie child and return its pid,
    return -1, or go to sleep with the lock held. *)
Definition wait_pass (c : nat) (havekids : bool) : M kstate wait_outcome :=
  p ← myproc c;
  mypid ← fld p pid;
  h ← gets (λ s, head Zombie (pt s));
  r ← list_for NPROC kkx (λ curr,
    pp ← gets (parent_pid curr);
    if pp =? mypid then r ← reap c curr; mret (Some r) else mret None) h;
  match r with
  | Some r => mret (WaitRet r)
  | None =>
      b ← any_child mypid;
      let havekids := havekids || b in
      if negb havekids then release c PTABLE;; mret (WaitRet (-1)) else
      k ← fld p killed;
      if negb (k =? 0) then release c PTABLE;; mret (WaitRet (-1)) else
      mret (WaitSleep havekids)
  end.

(** wait, from its entry to its return or to the switch in [sleep]; a process
    that slept continues with [wait_again]. *)
Definition wait_block (c : nat) (o : wait_outcome) : M kstate wait_outcome :=
  match o with
  | WaitRet r => mret (WaitRet r)
  | WaitSleep b =>
      q ← gets (cur c);
      sleep c (chan_of q) (Some PTABLE);;
      mret (WaitSleep b)
  end.
Definition wait (c : nat) : M kstate wait_outcome :=
  acquire c PTABLE;;
  o ← wait_pass c false;
  wait_block c o.
Definition wait_again (c : nat) (havekids : bool) : M kstate wait_outcome :=
  o ← wait_pass c havekids;
  wait_block c o.

(** ** Resuming a process, and exit

    The file-system calls below may sleep and wake other processes, so they
    act on the whole kernel state. *)
Class FileOps := {
  fileclose : nat → Z → M kstate unit;
  begin_op : nat → M kstate unit;
  iput : nat → Z → M kstate unit;
  end_op : nat → M kstate unit;
  iinit : nat → M kstate unit;
  initlog : nat → M kstate unit
}.
Context `{fo : FileOps}.

Definition forkret (c : nat) : M kstate unit :=
  release c PTABLE;;
  f ← gets first;
  when f (modify (put_first false);; iinit c;; initlog c).

(** The end of [sleep]. *)
Definition sleep_return (c : nat) (lk : option nat) : M kstate unit :=
  p ← myproc c;
  upd p (set_chan NullChan);;
  if decide (lk = Some PTABLE) then mret tt else
  release c PTABLE;;
  match lk with Some l => acquire c l | None => mret tt end.

(** What the process [scheduler] switched to executes: the end of [sched]
    and of its caller, or [forkret]. *)
Definition resume (c : nat) : M kstate unit :=
  p ← myproc c;
  x ← fld p context;
  match x with
  | NoContext => fault "no saved context"
  | AtForkret => forkret c
  | AtSched ie k =>
      onL (Spinlock.upd_cpu c (Spinlock.set_intena ie));;
      match k with
      | FromYield => release c PTABLE
      | FromSleep lk => sleep_return c lk
      | FromExit => panic "zombie exit"
      end
  end.

(** [if(p->parent == proc) p->parent = initproc;] along one list; for zombies
    the new parent is also woken. *)
Definition reparent (L : lid) (p : nat) (wake : bool) : M kstate unit :=
  h ← gets (λ s, head L (pt s));
  list_for NPROC kkx (λ q,
    r ← fld q parent;
    (if decide (r = Some p) then
       i ← gets initproc;
       upd q (set_parent i);;
       (if wake then onT (wakeup1 (chan_of i)) else mret tt)
     else mret tt);;
    mret (None : option unit)) h;;
  mret tt.

Definition close_files (c p : nat) : M kstate unit :=
  count_for NOFILE 0 (λ fd,
    f ← fld p (λ r, nth fd (ofile r) 0);
    (if f =? 0 then mret tt else
     fileclose c f;;
     upd p (λ r, set_ofile (<[fd := 0]> (ofile r)) r));;
    mret (None : option unit));;
  mret tt.

(** The part of exit that runs with the ptable lock held, up to [sched]. *)
Definition exit_locked (c p : nat) : M kstate unit :=
  par ← fld p parent;
  onT (wakeup1 (chan_of par));;
  reparent Running p false;;
  count_for (MAXPRIO + 1) 0 (λ i, reparent (Ready i) p false;; mret (None : option unit));;
  reparent Embryo p false;;
  reparent Sleep p false;;
  reparent Zombie p true;;
  rc ← onT (stateListRemove Running (Some p));
  onT (assertState p RUNNING);;
  upd p (set_state ZOMBIE);;
  rc' ← onT (stateListAdd Zombie (Some p));
  (if negb (rc + rc' =? 0) then panic "exit" else mret tt).

(** exit from [acquire(&ptable.lock)] on. *)
Definition exit_tail (c p : nat) : M kstate unit :=
  acquire c PTABLE;;
  exit_locked c p;;
  sched c FromExit;;
  scheduler_after c.

Definition exit (c : nat) : M kstate unit :=
  q ← gets (cur c);
  i ← gets initproc;
  if decide (q = i) then panic "init exiting" else
  p ← deref q;
  close_files c p;;
  begin_op c;;
  d ← fld p cwd;
  iput c d;;
  end_op c;;
  upd p (set_cwd 0);;
  exit_tail c p.

End proc.
End Proc.
