(* ===== verification/ProcInv.v ===== *)
(** * The process-table invariant and how the list operations move processes

    [tinv t A]: table [t] represents the lists [A], every process is on exactly
    one list, the one for its state, and its priority is a valid index of the
    ready lists.  The code moves a process in steps between which it is on no
    list or has the wrong state; [tx t A p] is the invariant with process [p]
    exempted.  The lemmas here follow a process through such a move. *)

From S2P Require Import Prelude Spinlock ProcTable CString Proc.
Local Open Scope Z_scope.

Module ProcInv.
Import ProcTable Proc.

Section inv.
Context `{mode : Mode} `{cfg : Config}.

Definition state_of (L : lid) : procstate :=
  match L with
  | Free => UNUSED | Sleep => SLEEPING | Zombie => ZOMBIE
  | Running => RUNNING | Embryo => EMBRYO | Ready _ => RUNNABLE
  end.

(** Process [q] of table [t] is in order on list [L]. *)
Record good (t : ptable) (L : lid) (q : nat) : Prop := {
  good_state : state (procs t q) = state_of L;
  good_prio : L ≠ Free → 0 <= priority (procs t q) <= Z.of_nat MAXPRIO;
  good_ready : ∀ i, L = Ready (S i) → priority (procs t q) = Z.of_nat (S i)
}.

Record tinv (t : ptable) (A : lid → list nat) : Prop := {
  ti_reps : reps t A;
  ti_good : ∀ L q, q ∈ A L → good t L q;
  ti_cover : ∀ q, (q < NPROC)%nat → ∃ L, q ∈ A L
}.

Record tx (t : ptable) (A : lid → list nat) (p : nat) : Prop := {
  tx_reps : reps t A;
  tx_good : ∀ L q, q ∈ A L → q ≠ p → good t L q;
  tx_cover : ∀ q, (q < NPROC)%nat → q ≠ p → ∃ L, q ∈ A L;
  tx_lt : (p < NPROC)%nat
}.

(** ** Consequences of the invariant *)

Lemma elem_lid_ok t A L p : reps t A → p ∈ A L → lid_ok L.
Proof.
  intros H Hp. destruct L as [| | | | |i]; simpl; try done.
  destruct (decide (i ≤ MAXPRIO)%nat); [done|].
  rewrite (reps_ok _ _ H (Ready i)) in Hp by done. by apply not_elem_of_nil in Hp.
Qed.

Lemma state_of_inj L1 L2 :
  state_of L1 = state_of L2 → L1 = L2 ∨ ∃ i j, L1 = Ready i ∧ L2 = Ready j.
Proof. destruct L1, L2; simpl; try done; eauto 10. Qed.

(** A process in a given state is on the list of that state. *)
Lemma on_list t A p L :
  tinv t A → (p < NPROC)%nat → state (procs t p) = state_of L → (∀ i, L ≠ Ready i) → p ∈ A L.
Proof.
  intros H Hp Hs HL. destruct (ti_cover _ _ H p Hp) as [L' Hin].
  pose proof (good_state _ _ _ (ti_good _ _ H L' p Hin)) as Hs'.
  rewrite Hs in Hs'. destruct (state_of_inj _ _ Hs') as [<-|(i & j & -> & ->)]; [done|].
  by destruct (HL i).
Qed.

Lemma tinv_tx t A p : tinv t A → (p < NPROC)%nat → tx t A p.
Proof. intros [H1 H2 H3] Hp. constructor; eauto. Qed.

Lemma tx_close t A p L : tx t A p → p ∈ A L → good t L p → tinv t A.
Proof.
  intros [H1 H2 H3 H4] Hin Hg. constructor; [done| |].
  - intros L' q Hq. destruct (decide (q = p)) as [->|]; [|eauto].
    by rewrite (reps_disj _ _ H1 L' L p Hq Hin).
  - intros q Hq. destruct (decide (q = p)) as [->|]; eauto.
Qed.

(** ** The invariant only looks at the lists' contents and at a few fields *)

Lemma reps_ext t A A' : (∀ L, A L = A' L) → reps t A → reps t A'.
Proof.
  intros E [H1 H2 H3 H4 H5]. constructor; intros L; rewrite <-?E; eauto.
  intros L2 p. rewrite <-!E. apply H3.
Qed.

Lemma tinv_ext t A A' : (∀ L, A L = A' L) → tinv t A → tinv t A'.
Proof.
  intros E [H1 H2 H3]. constructor; [by eapply reps_ext| |].
  - intros L q. rewrite <-E. apply H2.
  - intros q Hq. destruct (H3 q Hq) as [L HL]. exists L. by rewrite <-E.
Qed.

Lemma reps_procs t t' A :
  pLists t' = pLists t → (∀ L q, q ∈ A L → next (procs t' q) = next (procs t q)) →
  reps t A → reps t' A.
Proof.
  intros El En [H1 H2 H3 H4 H5]. constructor; unfold head, tail; rewrite ?El; try done.
  intros L HL. eapply chain_ext; [|by apply H1]. intros a Ha. unfold nx. eauto.
Qed.

Lemma good_relinked t t' L q : relinked t t' → good t' L q ↔ good t L q.
Proof. intros [_ E]. split; intros []; split; rewrite E in *; done. Qed.

Lemma tinv_upd t A p f :
  tinv t A →
  (∀ r, next (f r) = next r ∧ state (f r) = state r ∧ priority (f r) = priority r) →
  tinv (mkptable (alter f p (procs t)) (pLists t) (PromoteAtTime t)) A.
Proof.
  intros [H1 H2 H3] Hf. constructor; [|intros L q Hq; specialize (H2 L q Hq) as []; split|done].
  - eapply reps_procs; [| |done]; [done|]. intros L q _. cbn.
    destruct (decide (p = q)) as [<-|]; rewrite ?fn_lookup_alter, ?fn_lookup_alter_ne by done; [apply Hf|done].
  - cbn. destruct (decide (p = q)) as [<-|]; rewrite ?fn_lookup_alter, ?fn_lookup_alter_ne by done; [|done].
    by rewrite (proj1 (proj2 (Hf _))).
  - cbn. destruct (decide (p = q)) as [<-|]; rewrite ?fn_lookup_alter, ?fn_lookup_alter_ne by done; [|done].
    by rewrite (proj2 (proj2 (Hf _))).
  - cbn. destruct (decide (p = q)) as [<-|]; rewrite ?fn_lookup_alter, ?fn_lookup_alter_ne by done; [|done].
    by rewrite (proj2 (proj2 (Hf _))).
Qed.

Lemma tx_upd t A p f :
  tx t A p → (∀ r, next (f r) = next r) →
  tx (mkptable (alter f p (procs t)) (pLists t) (PromoteAtTime t)) A p.
Proof.
  intros [H1 H2 H3 H4] Hf. constructor; [|intros L q Hq Hne; specialize (H2 L q Hq Hne) as []; split|done|done].
  - eapply reps_procs; [| |done]; [done|]. intros L q _. cbn.
    destruct (decide (p = q)) as [<-|]; rewrite ?fn_lookup_alter, ?fn_lookup_alter_ne by done; [apply Hf|done].
  - cbn. by rewrite fn_lookup_alter_ne by done.
  - cbn. by rewrite fn_lookup_alter_ne by done.
  - cbn. by rewrite fn_lookup_alter_ne by done.
Qed.

(** ** Taking a process off its list and putting it on another *)

Lemma wp_take t A L p (Q : Z → ptable → Prop) :
  tx t A p → p ∈ A L →
  (∀ t', tx t' (<[L := del p (A L)]> A) p → relinked t t' → Q 0 t') →
  wp (stateListRemove L (Some p)) Q t.
Proof.
  intros [H1 H2 H3 H4] Hp HQ. eapply wp_stateListRemove; [done|by eapply elem_lid_ok|done|].
  intros t' Hr' Hl. apply HQ; [|done].
  assert (Hsub : ∀ L' q, q ∈ <[L := del p (A L)]> A L' → q ∈ A L').
  { intros L' q. destruct (decide (L = L')) as [<-|].
    - rewrite fn_lookup_insert, elem_of_del. naive_solver.
    - by rewrite fn_lookup_insert_ne by done. }
  constructor; [done| | |done].
  - intros L' q Hq Hne. rewrite good_relinked by done. eauto.
  - intros q Hq Hne. destruct (H3 q Hq Hne) as [L' HL']. exists L'.
    destruct (decide (L = L')) as [<-|].
    + rewrite fn_lookup_insert, elem_of_del. done.
    + by rewrite fn_lookup_insert_ne by done.
Qed.

(** After the removal the process is on no list. *)
Lemma taken t A L p L' : reps t A → p ∈ A L → p ∉ <[L := del p (A L)]> A L'.
Proof.
  intros H Hp Hin. destruct (decide (L = L')) as [<-|Hne].
  - rewrite fn_lookup_insert, elem_of_del in Hin. naive_solver.
  - rewrite fn_lookup_insert_ne in Hin by done. apply Hne. by eapply reps_disj.
Qed.

Lemma wp_give t A L p (Q : Z → ptable → Prop) :
  tx t A p → (∀ L', p ∉ A L') → lid_ok L →
  (∀ t', tx t' (<[L := A L ++ [p]]> A) p → relinked t t' → Q 0 t') →
  wp (stateListAdd L (Some p)) Q t.
Proof.
  intros [H1 H2 H3 H4] Hp Hok HQ. eapply wp_stateListAdd; [done..|].
  intros t' Hr' Hl. apply HQ; [|done]. constructor; [done| | |done].
  - intros L' q Hq Hne. rewrite good_relinked by done. apply H2; [|done].
    destruct (decide (L = L')) as [<-|].
    + rewrite fn_lookup_insert in Hq. set_solver.
    + by rewrite fn_lookup_insert_ne in Hq by done.
  - intros q Hq Hne. destruct (H3 q Hq Hne) as [L' HL']. exists L'.
    destruct (decide (L = L')) as [<-|].
    + rewrite fn_lookup_insert. set_solver.
    + by rewrite fn_lookup_insert_ne by done.
Qed.

Lemma given (A : lid → list nat) L p : p ∈ <[L := A L ++ [p]]> A L.
Proof. rewrite fn_lookup_insert. set_solver. Qed.

Lemma wp_assertState t p st (Q : Z → ptable → Prop) :
  state (procs t p) = st → Q 0 t → wp (assertState p st) Q t.
Proof. intros E HQ. unfold assertState. wp_steps. by rewrite decide_True. Qed.

Lemma wp_ready_idx {S} z (Q : nat → S → Prop) s :
  0 <= z <= Z.of_nat MAXPRIO → Q (Z.to_nat z) s → wp (ready_idx z) Q s.
Proof.
  intros Hz HQ. unfold ready_idx.
  destruct (Z.leb_spec 0 z); [|lia]. destruct (Z.leb_spec z (Z.of_nat MAXPRIO)); [|lia]. done.
Qed.

(** ** wakeup1 *)

(** Process [p] leaves list [L1] and joins the end of list [L2]. *)
Definition move (L1 L2 : lid) (p : nat) (A : lid → list nat) : lid → list nat :=
  let A1 := <[L1 := del p (A L1)]> A in <[L2 := A1 L2 ++ [p]]> A1.

Lemma move_from L1 L2 p A : L1 ≠ L2 → move L1 L2 p A L1 = del p (A L1).
Proof. intros. unfold move. rewrite fn_lookup_insert_ne, fn_lookup_insert by done. done. Qed.
Lemma move_to L1 L2 p A : L1 ≠ L2 → move L1 L2 p A L2 = A L2 ++ [p].
Proof. intros. unfold move. rewrite fn_lookup_insert, fn_lookup_insert_ne by done. done. Qed.
Lemma move_other L1 L2 p A L : L ≠ L1 → L ≠ L2 → move L1 L2 p A L = A L.
Proof. intros. unfold move. rewrite !fn_lookup_insert_ne by done. done. Qed.

Lemma move_move L1 L2 L3 p A L :
  L1 ≠ L2 → L2 ≠ L3 → p ∉ A L2 → move L2 L3 p (move L1 L2 p A) L = move L1 L3 p A L.
Proof.
  intros H12 H23 Hp. unfold move at 1. rewrite move_to by done.
  destruct (decide (L = L3)) as [->|H3]; [|destruct (decide (L = L2)) as [->|H2]].
  - rewrite fn_lookup_insert, (fn_lookup_insert_ne _ L2 L3) by done.
    destruct (decide (L1 = L3)) as [->|H13].
    + rewrite move_from by done. unfold move. by rewrite !fn_lookup_insert.
    + rewrite move_other, move_to by done. done.
  - rewrite fn_lookup_insert_ne, fn_lookup_insert by done. rewrite move_other by done.
    rewrite del_app, del_notin by done. rewrite del_cons by apply not_elem_of_nil. by rewrite app_nil_r.
  - rewrite !fn_lookup_insert_ne by done. destruct (decide (L = L1)) as [->|H1].
    + rewrite move_from by done. unfold move. by rewrite fn_lookup_insert_ne, fn_lookup_insert.
    + by rewrite !move_other.
Qed.

(** A table in which process [q] is [r] up to its list link. *)
Definition is_proc (t : ptable) (q : nat) (r : proc) : Prop :=
  procs t q = set_next (next (procs t q)) r.

Lemma is_proc_refl t q : is_proc t q (procs t q).
Proof. unfold is_proc. by destruct (procs t q). Qed.
Lemma is_proc_relinked t t' q r : relinked t t' → is_proc t q r → is_proc t' q r.
Proof. unfold is_proc. intros [_ E] H. rewrite E, H. done. Qed.

(** The lists after [wakeup1(ch)]: the sleepers on [ch] are appended, in their
    order, to the ready lists of their priorities. *)
Definition wake_lists (t : ptable) (ch : chan_t) (A : lid → list nat) (L : lid) : list nat :=
  match L with
  | Sleep => filter (λ q, chan (procs t q) ≠ ch) (A Sleep)
  | Ready i => A (Ready i) ++
      filter (λ q, chan (procs t q) = ch ∧ priority (procs t q) = Z.of_nat i) (A Sleep)
  | L => A L
  end.

Definition woken_proc (t : ptable) (ch : chan_t) (l : list nat) (q : nat) : proc :=
  if decide (q ∈ l ∧ chan (procs t q) = ch) then set_state RUNNABLE (procs t q) else procs t q.

(** ** Following one process through an operation

    [mv t0 t A p r]: starting from table [t0], the code has reached [t], where
    process [p] is the record [r] (up to its link), every other process is as
    it was, and the invariant holds for the lists [A] with [p] exempted. *)
Record mv (t0 t : ptable) (A : lid → list nat) (p : nat) (r : proc) : Prop := {
  mv_tx : tx t A p;
  mv_p : is_proc t p r;
  mv_q : ∀ q, q ≠ p → is_proc t q (procs t0 q);
  mv_time : PromoteAtTime t = PromoteAtTime t0
}.

(** The record [r] is in order on list [L]. *)
Definition goodr (L : lid) (r : proc) : Prop :=
  state r = state_of L ∧ (L ≠ Free → 0 <= priority r <= Z.of_nat MAXPRIO) ∧
  ∀ i, L = Ready (S i) → priority r = Z.of_nat (S i).

Lemma goodr_good t L q r : is_proc t q r → goodr L r ↔ good t L q.
Proof.
  intros E. assert (Es : state (procs t q) = state r) by (by rewrite E).
  assert (Ep : priority (procs t q) = priority r) by (by rewrite E).
  unfold goodr. split.
  - intros (? & ? & ?). split; rewrite ?Es, ?Ep; done.
  - intros [? ? ?]. rewrite <-Es, <-Ep. done.
Qed.

Lemma mv_start t A p : tinv t A → (p < NPROC)%nat → mv t t A p (procs t p).
Proof. intros. constructor; [by apply tinv_tx|apply is_proc_refl|intros; apply is_proc_refl|done]. Qed.

Lemma mv_start_at t A p r : tinv t A → (p < NPROC)%nat → is_proc t p r → mv t t A p r.
Proof. intros. constructor; [by apply tinv_tx|done|intros; apply is_proc_refl|done]. Qed.

Lemma is_proc_trans t1 t2 q r : is_proc t2 q (procs t1 q) → is_proc t1 q r → is_proc t2 q r.
Proof. unfold is_proc. intros E2 E1. rewrite E2, E1. done. Qed.

Lemma mv_fld {B} t0 t A p r (f : proc → B) :
  mv t0 t A p r → (∀ n r, f (set_next n r) = f r) → f (procs t p) = f r.
Proof. intros H Hf. rewrite (mv_p _ _ _ _ _ H). apply Hf. Qed.

Definition updt (p : nat) (f : proc → proc) (t : ptable) : ptable :=
  mkptable (alter f p (procs t)) (pLists t) (PromoteAtTime t).

Lemma mv_upd t0 t A p r f :
  mv t0 t A p r → (∀ n r, f (set_next n r) = set_next n (f r)) →
  mv t0 (updt p f t) A p (f r).
Proof.
  intros [H1 H2 H3 H4] Hf. constructor; [|unfold is_proc..|done]; cbn.
  - apply tx_upd; [done|]. intros r'. replace r' with (set_next (next r') r') at 1 by (by destruct r').
    by rewrite Hf.
  - rewrite fn_lookup_alter, H2, Hf. done.
  - intros q Hne. rewrite fn_lookup_alter_ne by done. by apply H3.
Qed.

Lemma wp_mv_take t0 t A p r L (Q : Z → ptable → Prop) :
  mv t0 t A p r → p ∈ A L →
  (∀ t', mv t0 t' (<[L := del p (A L)]> A) p r → Q 0 t') →
  wp (stateListRemove L (Some p)) Q t.
Proof.
  intros [H1 H2 H3 H4] Hp HQ. eapply wp_take; [done..|]. intros t' Hx E. apply HQ.
  constructor; [done|by eapply is_proc_relinked| |by rewrite (proj1 E)].
  intros q Hne. by eapply is_proc_relinked, H3.
Qed.

Lemma wp_mv_give t0 t A p r L (Q : Z → ptable → Prop) :
  mv t0 t A p r → (∀ L', p ∉ A L') → lid_ok L →
  (∀ t', mv t0 t' (<[L := A L ++ [p]]> A) p r → Q 0 t') →
  wp (stateListAdd L (Some p)) Q t.
Proof.
  intros [H1 H2 H3 H4] Hp Hok HQ. eapply wp_give; [done..|]. intros t' Hx E. apply HQ.
  constructor; [done|by eapply is_proc_relinked| |by rewrite (proj1 E)].
  intros q Hne. by eapply is_proc_relinked, H3.
Qed.

Lemma wp_mv_assert t0 t A p r st (Q : Z → ptable → Prop) :
  mv t0 t A p r → state r = st → Q 0 t → wp (assertState p st) Q t.
Proof. intros H E HQ. apply wp_assertState; [|done]. by rewrite (mv_fld _ _ _ _ _ state H). Qed.

Lemma mv_close t0 t A p r L : mv t0 t A p r → p ∈ A L → goodr L r → tinv t A.
Proof. intros [H1 H2 H3 H4] Hp Hg. eapply tx_close; [done..|]. by eapply goodr_good. Qed.

Lemma mv_reps t0 t A p r : mv t0 t A p r → reps t A.
Proof. intros H. apply H. Qed.

(** One sleeper is moved to its ready list. *)
Lemma wp_wake_one t A p (Q : unit → ptable → Prop) :
  tinv t A → p ∈ A Sleep →
  (∀ t', tinv t' (move Sleep (Ready (Z.to_nat (priority (procs t p)))) p A) →
         is_proc t' p (set_state RUNNABLE (procs t p)) →
         (∀ q, q ≠ p → is_proc t' q (procs t q)) →
         PromoteAtTime t' = PromoteAtTime t → Q tt t') →
  wp (rc ← stateListRemove Sleep (Some p);
      assertState p SLEEPING;;
      ProcTable.upd p (set_state RUNNABLE);;
      pr ← gets (λ t, priority (procs t p));
      i ← ready_idx pr;
      rc' ← stateListAdd (Ready i) (Some p);
      (if negb (rc + rc' =? 0) then panic "wakeup1" else mret tt)) Q t.
Proof.
  intros H Hp HQ. pose proof (ti_reps _ _ H) as Hr.
  pose proof (ti_good _ _ H _ _ Hp) as [Hs Hpr _]. specialize (Hpr ltac:(done)).
  pose proof (mv_start _ _ p H (reps_lt _ _ Hr _ _ Hp)) as Hm.
  apply wp_bind. eapply wp_mv_take; [done..|]. clear Hm. intros t1 Hm.
  apply wp_bind. eapply wp_mv_assert; [done..|]. unfold ProcTable.upd. wp_steps.
  apply (mv_upd _ _ _ _ _ (set_state RUNNABLE)) in Hm; [|done]. fold (updt p (set_state RUNNABLE) t1).
  rewrite (mv_fld _ _ _ _ _ priority Hm) by done.
  apply wp_ready_idx; [done|]. apply wp_bind.
  eapply wp_mv_give; [done|by intros L'; eapply taken|cbn; lia|]. clear Hm. intros t2 Hm.
  cbn. apply HQ; [|apply Hm..]. eapply mv_close; [done|apply given|].
  split; [done|]. split; [done|]. intros i [= Hi]. cbn. lia.
Qed.

(** The loop invariant of wakeup1: [done] has been scanned, [todo] has not. *)
Record wake_inv (t : ptable) (ch : chan_t) (A : lid → list nat)
    (done todo : list nat) (t1 : ptable) (A1 : lid → list nat) : Prop := {
  wk_split : A Sleep = done ++ todo;
  wk_tinv : tinv t1 A1;
  wk_sleep : A1 Sleep = filter (λ q, chan (procs t q) ≠ ch) done ++ todo;
  wk_ready : ∀ i, A1 (Ready i) = A (Ready i) ++
    filter (λ q, chan (procs t q) = ch ∧ priority (procs t q) = Z.of_nat i) done;
  wk_other : ∀ L, L ≠ Sleep → (∀ i, L ≠ Ready i) → A1 L = A L;
  wk_procs : ∀ q, is_proc t1 q (woken_proc t ch done q);
  wk_time : PromoteAtTime t1 = PromoteAtTime t
}.

Lemma wake_inv_fresh t ch A done p todo t1 A1 :
  reps t A → wake_inv t ch A done (p :: todo) t1 A1 →
  (p ∉ done) ∧ (p ∉ todo) ∧ is_proc t1 p (procs t p).
Proof.
  intros Hr I. pose proof (reps_NoDup _ _ Sleep Hr) as Hnd. rewrite (wk_split _ _ _ _ _ _ _ I) in Hnd.
  apply NoDup_app in Hnd as (_ & Hd & [? _]%NoDup_cons).
  assert (p ∉ done) by (intros Hin; apply (Hd p Hin); set_solver).
  split; [done|]. split; [done|].
  pose proof (wk_procs _ _ _ _ _ _ _ I p) as E. unfold woken_proc in E.
  rewrite decide_False in E by naive_solver. done.
Qed.

(** Scanning a sleeper on [ch], which has been moved to its ready list. *)
Lemma wake_inv_hit t ch A done p todo t1 A1 t2 :
  tinv t A → wake_inv t ch A done (p :: todo) t1 A1 → chan (procs t p) = ch →
  let i := Z.to_nat (priority (procs t p)) in
  tinv t2 (move Sleep (Ready i) p A1) →
  is_proc t2 p (set_state RUNNABLE (procs t1 p)) →
  (∀ q, q ≠ p → is_proc t2 q (procs t1 q)) → PromoteAtTime t2 = PromoteAtTime t1 →
  wake_inv t ch A (done ++ [p]) todo t2 (move Sleep (Ready i) p A1).
Proof.
  intros H I Ech i H2 Hp2 Hq2 ET2.
  destruct (wake_inv_fresh _ _ _ _ _ _ _ _ (ti_reps _ _ H) I) as (Hpd & Hpt & Hold).
  destruct I as [EA H1 ES ER EO EP ET].
  pose proof (good_prio _ _ _ (ti_good _ _ H Sleep p ltac:(rewrite EA; set_solver)) ltac:(done)) as Hpr.
  constructor; [by rewrite <-app_assoc|done| | | | |congruence].
  - rewrite move_from, ES, del_app, del_cons by done.
    rewrite del_notin by (rewrite list_elem_of_filter; naive_solver).
    rewrite filter_app, filter_cons_False by naive_solver. by rewrite filter_nil, app_nil_r.
  - intros j. rewrite filter_app, app_assoc, <-ER. destruct (decide (i = j)) as [<-|Hij].
    + rewrite move_to by done. f_equal. rewrite filter_cons_True; [by rewrite filter_nil|].
      split; [done|]. subst i. lia.
    + rewrite move_other by congruence. rewrite filter_cons_False, filter_nil, app_nil_r; [done|].
      intros [_ Hj]. subst i. lia.
  - intros L HL HLr. rewrite move_other by naive_solver. by apply EO.
  - intros q. destruct (decide (q = p)) as [->|Hqp].
    + unfold woken_proc. rewrite decide_True by set_solver.
      unfold is_proc in *. rewrite Hp2. rewrite Hold. done.
    + specialize (Hq2 q Hqp). unfold is_proc, woken_proc in *. rewrite Hq2, EP. cbn.
      rewrite (decide_ext _ (q ∈ done ++ [p] ∧ chan (procs t q) = ch)); [done|set_solver].
Qed.

(** Scanning a sleeper on another channel. *)
Lemma wake_inv_skip t ch A done p todo t1 A1 :
  wake_inv t ch A done (p :: todo) t1 A1 → chan (procs t p) ≠ ch →
  wake_inv t ch A (done ++ [p]) todo t1 A1.
Proof.
  intros [EA H1 ES ER EO EP ET] Ech. constructor; [by rewrite <-app_assoc|done| | |done| |done].
  - rewrite ES, filter_app, (filter_cons_True _ p), filter_nil by done. by rewrite <-app_assoc.
  - intros j. rewrite ER, filter_app, (filter_cons_False _ p) by naive_solver.
    by rewrite filter_nil, app_nil_r.
  - intros q. specialize (EP q). unfold woken_proc in *.
    rewrite (decide_ext _ (q ∈ done ∧ chan (procs t q) = ch)); [done|].
    rewrite elem_of_app, list_elem_of_singleton. split; [|naive_solver]. intros [[?| ->] ?]; done.
Qed.

Lemma wp_wakeup1 t A ch (Q : unit → ptable → Prop) :
  tinv t A →
  (∀ t', tinv t' (wake_lists t ch A) → (∀ q, is_proc t' q (woken_proc t ch (A Sleep) q)) →
         PromoteAtTime t' = PromoteAtTime t → Q tt t') →
  wp (wakeup1 ch) Q t.
Proof.
  intros H HQ. pose proof (ti_reps _ _ H) as Hr. unfold wakeup1. wp_steps.
  eapply (wp_list_for_saved _ _ (λ done todo t1, ∃ A1, wake_inv t ch A done todo t1 A1)
    _ _ [] (A Sleep)).
  - by eapply reps_length.
  - by apply (reps_chain _ _ Hr Sleep).
  - exists A. constructor; try done.
    + intros i. by rewrite app_nil_r.
    + intros q. unfold woken_proc. rewrite decide_False by set_solver. apply is_proc_refl.
  - intros done p todo t1 Hc (A1 & I).
    destruct (wake_inv_fresh _ _ _ _ _ _ _ _ Hr I) as (_ & _ & Hold).
    assert (Hnext : nx t1 p = list.head todo) by (destruct Hc as [_ Hc]; by apply chain_head in Hc).
    wp_steps. rewrite Hold. cbn [chan set_next].
    destruct (decide (chan (procs t p) = ch)) as [Ech|Ech].
    + apply (wp_wake_one _ A1); [apply I|rewrite (wk_sleep _ _ _ _ _ _ _ I); set_solver|].
      intros t2 H2 Hp2 Hq2 ET2. wp_steps.
      assert (Epr : priority (procs t1 p) = priority (procs t p)) by (rewrite Hold; done).
      rewrite Epr in H2.
      pose proof (wake_inv_hit _ _ _ _ _ _ _ _ _ H I Ech H2 Hp2 Hq2 ET2) as I2.
      split; [|by eexists]. rewrite Hnext. eapply chain_suffix.
      rewrite <-(wk_sleep _ _ _ _ _ _ _ I2). by apply (reps_chain _ _ (ti_reps _ _ H2) Sleep).
    + wp_steps. split; [by destruct Hc|]. exists A1. by apply wake_inv_skip.
  - intros done t1 (A1 & [EA H1 ES ER EO EP ET]). wp_steps.
    rewrite app_nil_r in EA, ES. subst done. apply HQ; [|done|done].
    eapply tinv_ext; [|exact H1]. intros [| | | | |i]; simpl; auto.
Qed.

End inv.
End ProcInv.
