(* ===== verification/ProcSpec.v ===== *)
(** * What the operations of proc.c do

    One lemma per operation: from a state in which the process-table invariant
    holds, the operation returns, the invariant holds again for the lists it
    announces, and every process is as announced (up to its list link).  The
    lemmas hold in both modes of [wp]; calls of the other kernel components
    enter through hypotheses at the state where they are made. *)

From S2P Require Import Prelude Spinlock ProcTable CString Proc ProcInv.
Local Open Scope Z_scope.

Module ProcSpec.
Import ProcTable Proc ProcInv.

Section spec.
Context `{mode : Mode} `{cfg : Config} `{sv : Services}.
Implicit Types s : kstate.
Implicit Types A : lid → list nat.

(** ** The ptable lock *)

Definition unheld (c : nat) (l : Spinlock.lstate) : Prop :=
  Spinlock.locked (Spinlock.locks l PTABLE) = false ∧ Spinlock.ncli (Spinlock.cpus l c) = 0.

Definition held (c : nat) (l : Spinlock.lstate) : Prop :=
  Spinlock.locked (Spinlock.locks l PTABLE) = true ∧
  Spinlock.lcpu (Spinlock.locks l PTABLE) = Some c ∧
  Spinlock.fl_if (Spinlock.cpus l c) = false ∧ Spinlock.ncli (Spinlock.cpus l c) = 1.

(** Lock operations of CPU [c] leave the running processes, the other CPUs and
    the other locks alone. *)
Definition lframe (c : nat) (l l' : Spinlock.lstate) : Prop :=
  (∀ c', Spinlock.proc (Spinlock.cpus l' c') = Spinlock.proc (Spinlock.cpus l c')) ∧
  (∀ c', c' ≠ c → Spinlock.cpus l' c' = Spinlock.cpus l c') ∧
  (∀ k, k ≠ PTABLE → Spinlock.locks l' k = Spinlock.locks l k).

Lemma lframe_trans c l1 l2 l3 : lframe c l1 l2 → lframe c l2 l3 → lframe c l1 l3.
Proof.
  intros (P1 & C1 & K1) (P2 & C2 & K2). repeat split; intros.
  - by rewrite P2, P1.
  - by rewrite C2, C1.
  - by rewrite K2, K1.
Qed.

Lemma only_lframe c l l' r :
  Spinlock.only c PTABLE l l' → Spinlock.cpus l' c = r →
  Spinlock.proc r = Spinlock.proc (Spinlock.cpus l c) → lframe c l l'.
Proof.
  intros (H1 & H2 & _) Hc Hp. split; [|done]. intros c'.
  destruct (decide (c' = c)) as [->|Hne]; [by rewrite Hc|by rewrite H1].
Qed.

Lemma wp_acq c s (Q : unit → kstate → Prop) :
  unheld c (ls s) →
  (∀ l', held c l' → lframe c (ls s) l' →
         Spinlock.intena (Spinlock.cpus l' c) = Spinlock.fl_if (Spinlock.cpus (ls s) c) →
         Q tt (put_ls l' s)) →
  wp (acquire c PTABLE) Q s.
Proof.
  intros [Hf Hn] HQ. apply wp_zoom, Spinlock.wp_acquire; [done|].
  intros l' Hc Ho Hl Ho'. unfold Spinlock.acq_cpu in Hc. rewrite Hn in Hc. apply HQ.
  - split; [done|]. split; [done|]. by rewrite Hc.
  - by eapply only_lframe.
  - by rewrite Hc.
Qed.

Lemma wp_rel c s (Q : unit → kstate → Prop) :
  held c (ls s) →
  (∀ l', unheld c l' → lframe c (ls s) l' →
         Spinlock.fl_if (Spinlock.cpus l' c) = Spinlock.intena (Spinlock.cpus (ls s) c) →
         Q tt (put_ls l' s)) →
  wp (release c PTABLE) Q s.
Proof.
  intros (Hl & Ho & Hf & Hn) HQ. apply wp_zoom, Spinlock.wp_release; [done..|lia|].
  intros l' Hc Hon Hl' _. unfold Spinlock.rel_cpu in Hc. rewrite Hn in Hc. apply HQ.
  - split; [done|]. by rewrite Hc.
  - by eapply only_lframe.
  - by rewrite Hc.
Qed.

(** ** Symbolic execution at the level of the kernel state *)

Lemma wp_onT {B} (m : M ptable B) (Q : B → kstate → Prop) s :
  wp m (λ a t, Q a (put_pt t s)) (pt s) → wp (onT m) Q s.
Proof. apply wp_zoom. Qed.

Lemma wp_onK {B} (m : M K B) (Q : B → kstate → Prop) s :
  wp m (λ a k, Q a (put_ext k s)) (ext s) → wp (onK m) Q s.
Proof. apply wp_zoom. Qed.

Lemma wp_onL {B} (m : M Spinlock.lstate B) (Q : B → kstate → Prop) s :
  wp m (λ a l, Q a (put_ls l s)) (ls s) → wp (onL m) Q s.
Proof. apply wp_zoom. Qed.

Lemma wp_upd p f (Q : unit → kstate → Prop) s :
  Q tt (put_pt (updt p f (pt s)) s) → wp (upd p f) Q s.
Proof. done. Qed.

Lemma wp_fld {B} p (f : proc → B) (Q : B → kstate → Prop) s :
  Q (f (procs (pt s) p)) s → wp (fld p f) Q s.
Proof. done. Qed.

Lemma wp_myproc c p (Q : nat → kstate → Prop) s :
  cur c s = Some p → Q p s → wp (myproc c) Q s.
Proof. intros E HQ. unfold myproc. wp_steps. rewrite E. done. Qed.

End spec.

Ltac kstep :=
  first
  [ wp_step
  | match goal with
    | |- wp (upd _ _) _ _ => apply wp_upd
    | |- wp (fld _ _) _ _ => apply wp_fld
    end ].
Ltac ksteps :=
  repeat (first [ kstep; cbn beta
    | match goal with |- context [negb (0 + 0 =? 0)] =>
        change (negb (0 + 0 =? 0)) with false; cbv iota end ]);
  cbn [pt ls ext initproc nextpid ticks first out null_pid put_pt put_ls put_ext
       put_initproc put_nextpid put_first put_out].

(** Advance an [mv] fact over the assignments [p->field = v] just executed. *)
Ltac mv_upds Hm :=
  repeat match type of Hm with
  | mv _ ?t _ ?p _ =>
      match goal with
      | |- context [updt p ?f t] => apply (mv_upd _ _ _ _ _ f) in Hm; [|done]
      end
  end.

Section ops.
Context `{mode : Mode} `{cfg : Config} `{sv : Services}.
Implicit Types s : kstate.
Implicit Types A : lid → list nat.

(** ** sched: accounting and demotion *)

Definition charge (tk : Z) (r : proc) : proc :=
  let d := u32 (tk - cpu_ticks_in r) in
  set_budget (i32 (budget r - d)) (set_cpu_ticks_total (u32 (cpu_ticks_total r + d)) r).

(** The process's budget is used up and it is not at the lowest level. *)
Definition demotes (tk : Z) (r : proc) : bool :=
  (budget (charge tk r) <? 1) && (priority r <? Z.of_nat MAXPRIO).

Definition settle (tk : Z) (r : proc) : proc :=
  let r1 := charge tk r in
  if budget r1 <? 1 then
    set_budget BUDGET (if demotes tk r then set_priority (priority r1 + 1) r1 else r1)
  else r1.

Definition sched_lists (tk : Z) (r : proc) (p : nat) A : lid → list nat :=
  let i := Z.to_nat (priority r) in
  if demotes tk r && bool_decide (state r = RUNNABLE)
  then move (Ready i) (Ready (S i)) p A else A.

Lemma sched_lists_other tk r p A L :
  state r ≠ RUNNABLE → sched_lists tk r p A L = A L.
Proof. intros. unfold sched_lists. rewrite bool_decide_false, andb_false_r by done. done. Qed.

(** The demotion block of sched, for a process on list [L]. *)
Lemma wp_sched_demote s t0 A p r L st pr (Q : unit → kstate → Prop) :
  st = state r → pr = priority r →
  mv t0 (pt s) A p r → p ∈ A L → goodr L r → L ≠ Free →
  (∀ i, L = Ready i → priority r = Z.of_nat i) →
  (∀ t' A', mv t0 t' A' p (if priority r <? Z.of_nat MAXPRIO
               then set_priority (priority r + 1) r else r) →
     A' = (if (priority r <? Z.of_nat MAXPRIO) && bool_decide (state r = RUNNABLE)
           then move (Ready (Z.to_nat (priority r))) (Ready (S (Z.to_nat (priority r)))) p A else A) →
     Q tt (put_pt t' s)) →
  wp (if pr <? Z.of_nat MAXPRIO then
        (if decide (st = RUNNABLE) then
           i ← ready_idx pr;
           rc ← onT (stateListRemove (Ready i) (Some p));
           j ← ready_idx (pr + 1);
           rc' ← onT (stateListAdd (Ready j) (Some p));
           (if negb (rc + rc' =? 0) then panic "sched update priority" else mret tt)
         else mret tt);;
        upd p (λ r, set_priority (priority r + 1) r)
      else mret tt) Q s.
Proof.
  intros -> -> Hm Hp (Hst & Hpr & _) HF HL HQ. specialize (Hpr HF).
  destruct (Z.ltb_spec (priority r) (Z.of_nat MAXPRIO)) as [Hlt|Hge]; cbn [andb] in HQ.
  - destruct (decide (state r = RUNNABLE)) as [Hs|Hs].
    + rewrite bool_decide_true in HQ by done.
      destruct L as [| | | | |i]; simpl in Hst; try congruence.
      specialize (HL i eq_refl). rewrite HL, Nat2Z.id in *.
      apply wp_bind, wp_bind, wp_ready_idx; [lia|]. rewrite Nat2Z.id.
      apply wp_bind, wp_onT. eapply wp_mv_take; [done..|]. intros t1 Hm1.
      apply wp_bind, wp_ready_idx; [lia|]. replace (Z.to_nat (Z.of_nat i + 1)) with (S i) by lia.
      apply wp_bind, wp_onT. eapply wp_mv_give; [done| |cbn; lia|].
      { intros L'. eapply taken; [|done]. by eapply mv_reps. }
      intros t2 Hm2. ksteps. rewrite <-HL in HQ.
      apply (mv_upd _ _ _ _ _ (λ r, set_priority (priority r + 1) r)) in Hm2; [|done].
      eapply (HQ _ _ Hm2). done.
    + rewrite bool_decide_false in HQ by done. ksteps.
      apply (mv_upd _ _ _ _ _ (λ r, set_priority (priority r + 1) r)) in Hm; [|done].
      by eapply (HQ _ _ Hm).
  - wp_steps. destruct s. by eapply (HQ _ _ Hm).
Qed.

Lemma wp_sched c k s A p r L (Q : unit → kstate → Prop) :
  held c (ls s) → cur c s = Some p → tinv (pt s) A → is_proc (pt s) p r → p ∈ A L →
  L ≠ Free → L ≠ Running → (∀ i, L = Ready i → priority r = Z.of_nat i) →
  (∀ t', tinv t' (sched_lists (ticks s) r p A) →
     is_proc t' p (set_context (AtSched (Spinlock.intena (Spinlock.cpus (ls s) c)) k)
                     (settle (ticks s) r)) →
     (∀ q, q ≠ p → is_proc t' q (procs (pt s) q)) →
     PromoteAtTime t' = PromoteAtTime (pt s) → Q tt (put_pt t' s)) →
  wp (sched c k) Q s.
Proof.
  intros (Hl & Ho & Hif & Hn) Hc H Hr Hp HF HR HL HQ. unfold sched, Spinlock.holding.
  pose proof (ti_good _ _ H _ _ Hp) as Hg. apply (goodr_good _ _ _ r) in Hg; [|done].
  pose proof Hg as (Hst & Hpr & Hrd). specialize (Hpr HF).
  pose proof (mv_start_at _ _ p r H (reps_lt _ _ (ti_reps _ _ H) _ _ Hp) Hr) as Hm.
  ksteps. rewrite Hl, Ho, bool_decide_true by done. cbn [andb negb].
  ksteps. rewrite Hn. cbn [Z.eqb negb Pos.eqb]. apply wp_bind, (wp_myproc c p); [done|].
  ksteps. rewrite (mv_fld _ _ _ _ _ state Hm) by done.
  rewrite decide_False by (rewrite Hst; by destruct L).
  ksteps. rewrite Hif. ksteps.
  mv_upds Hm. set (t1 := updt p _ _) in *.
  assert (Hm1 : mv (pt s) t1 A p (charge (ticks s) r)) by exact Hm. clear Hm; rename Hm1 into Hm.
  rewrite (mv_fld _ _ _ _ _ budget Hm) by done.
  assert (Hg1 : goodr L (charge (ticks s) r)) by done.
  destruct (budget (charge (ticks s) r) <? 1) eqn:Eb.
  - ksteps. rewrite (mv_fld _ _ _ _ _ priority Hm) by done.
    eapply (wp_sched_demote _ (pt s) A p (charge (ticks s) r) L); [done|done|exact Hm|done|done|done|done|].
    intros t2 A2 Hm2 EA. ksteps. mv_upds Hm2.
    change (priority (charge (ticks s) r)) with (priority r) in *.
    change (state (charge (ticks s) r)) with (state r) in *. apply HQ.
    + unfold sched_lists, demotes. rewrite Eb. cbn [andb]. rewrite <-EA.
      destruct ((priority r <? Z.of_nat MAXPRIO) && bool_decide (state r = RUNNABLE)) eqn:Ed.
      * apply andb_true_iff in Ed as [Ed Er%bool_decide_eq_true]. rewrite Ed in Hm2.
        apply Z.ltb_lt in Ed. rewrite EA.
        eapply (mv_close _ _ _ _ _ (Ready (S (Z.to_nat (priority r))))).
        -- rewrite EA in Hm2. exact Hm2.
        -- unfold move. apply given.
        -- split; [exact Er|]. cbn. split; [lia|]. intros i [= <-]. lia.
      * eapply (mv_close _ _ _ _ _ L).
        -- exact Hm2.
        -- by rewrite EA.
        -- destruct (Z.ltb_spec (priority r) (Z.of_nat MAXPRIO)); [|done].
           cbn [andb] in Ed. apply bool_decide_eq_false in Ed.
           split; [exact Hst|]. cbn. split; [lia|]. intros i ->. by destruct Ed.
    + unfold settle, demotes. rewrite Eb. apply Hm2.
    + apply Hm2.
    + apply Hm2.
  - ksteps. mv_upds Hm. apply HQ.
    + unfold sched_lists, demotes. rewrite Eb. cbn [andb]. by eapply mv_close.
    + unfold settle. rewrite Eb. apply Hm.
    + apply Hm.
    + apply Hm.
Qed.

(** ** Leaving the CPU: the scheduler side of the switch *)

(** The globals other than the table, the locks and the component state. *)
Definition kframe (s s' : kstate) : Prop :=
  initproc s' = initproc s ∧ nextpid s' = nextpid s ∧ ticks s' = ticks s ∧
  first s' = first s ∧ out s' = out s ∧ null_pid s' = null_pid s.

(** CPU [c] now runs no process; nothing else changed in the locking layer
    but the ptable lock and this CPU's nesting. *)
Definition setcpu (c : nat) (p : option nat) (l l' : Spinlock.lstate) : Prop :=
  Spinlock.proc (Spinlock.cpus l' c) = p ∧
  (∀ c', c' ≠ c → Spinlock.cpus l' c' = Spinlock.cpus l c') ∧
  (∀ k, k ≠ PTABLE → Spinlock.locks l' k = Spinlock.locks l k).

Lemma lframe_setcpu c p l1 l2 l3 : lframe c l1 l2 → setcpu c p l2 l3 → setcpu c p l1 l3.
Proof.
  intros (P1 & C1 & K1) (P2 & C2 & K2). split; [done|]. split; intros.
  - by rewrite C2, C1.
  - by rewrite K2, K1.
Qed.

Lemma setcpu_lframe c p l1 l2 l3 : setcpu c p l1 l2 → lframe c l2 l3 → setcpu c p l1 l3.
Proof.
  intros (P1 & C1 & K1) (P2 & C2 & K2). split; [by rewrite P2|]. split; intros.
  - by rewrite C2, C1.
  - by rewrite K2, K1.
Qed.

Lemma wp_set_cur c p s (Q : unit → kstate → Prop) :
  (∀ l', setcpu c p (ls s) l' →
         (held c (ls s) → held c l') →
         Spinlock.intena (Spinlock.cpus l' c) = Spinlock.intena (Spinlock.cpus (ls s) c) →
         Q tt (put_ls l' s)) →
  wp (set_cur c p) Q s.
Proof.
  intros HQ. apply wp_onL. unfold Spinlock.upd_cpu. wp_steps. apply HQ.
  - split; cbn; [by rewrite fn_lookup_alter|]. split; [|done].
    intros c' Hne. by rewrite fn_lookup_alter_ne.
  - unfold held. cbn. rewrite fn_lookup_alter. done.
  - cbn. by rewrite fn_lookup_alter.
Qed.

Lemma wp_scheduler_after c s (Q : unit → kstate → Prop) :
  held c (ls s) → wp switchkvm (λ _ _, True) (ext s) →
  (∀ s', unheld c (ls s') → setcpu c None (ls s) (ls s') → pt s' = pt s → kframe s s' → Q tt s') →
  wp (scheduler_after c) Q s.
Proof.
  intros Hh Hk HQ. unfold scheduler_after. apply wp_bind, wp_onK.
  eapply wp_mono; [exact Hk|]. intros _ k' _.
  apply wp_bind, wp_set_cur. intros l1 Hs1 Hh1 _. cbn in *.
  apply wp_rel; [by apply Hh1|]. intros l2 Hu Hf _. apply HQ; cbn; try done.
  by eapply setcpu_lframe.
Qed.

(** ** yield *)

(** The caller's process after [yield]: it is RUNNABLE, charged for its slice,
    and will resume after [sched] with the interrupt state saved there. *)
Definition yielded (tk : Z) (ie : bool) (r : proc) : proc :=
  set_context (AtSched ie FromYield) (settle tk (set_state RUNNABLE r)).

Definition yield_lists (tk : Z) (r : proc) (p : nat) A : lid → list nat :=
  sched_lists tk (set_state RUNNABLE r) p
    (move Running (Ready (Z.to_nat (priority r))) p A).

Lemma wp_yield c s A p (Q : unit → kstate → Prop) :
  let r := procs (pt s) p in
  unheld c (ls s) → cur c s = Some p → tinv (pt s) A → p ∈ A Running →
  (∀ k, wp switchkvm (λ _ _, True) k) →
  (∀ s', tinv (pt s') (yield_lists (ticks s) r p A) →
     is_proc (pt s') p (yielded (ticks s) (Spinlock.fl_if (Spinlock.cpus (ls s) c)) r) →
     (∀ q, q ≠ p → is_proc (pt s') q (procs (pt s) q)) →
     unheld c (ls s') → setcpu c None (ls s) (ls s') → kframe s s' → Q tt s') →
  wp (yield c) Q s.
Proof.
  intros r Hu Hc H Hp Hk HQ. unfold yield.
  pose proof (ti_good _ _ H _ _ Hp) as [Hst Hpr _]. specialize (Hpr ltac:(done)).
  pose proof (mv_start _ _ p H (reps_lt _ _ (ti_reps _ _ H) _ _ Hp)) as Hm. fold r in Hm, Hst, Hpr.
  apply wp_bind, wp_acq; [done|]. intros l1 Hh1 Hf1 Hie1. ksteps.
  replace (cur c (put_ls l1 s)) with (Some p) by (unfold cur; cbn; by rewrite (proj1 Hf1)).
  apply wp_onT. eapply wp_mv_take; [done..|]. clear Hm. intros t1 Hm. ksteps.
  apply wp_onT. eapply wp_mv_assert; [done..|]. ksteps. mv_upds Hm.
  rewrite (mv_fld _ _ _ _ _ priority Hm) by done. apply wp_ready_idx; [done|].
  apply wp_bind, wp_onT. eapply wp_mv_give; [done| |cbn; lia|].
  { intros L'. eapply taken; [apply (ti_reps _ _ H)|done]. }
  clear Hm. intros t2 Hm. ksteps. mv_upds Hm.
  eapply (wp_sched _ _ _ (move Running (Ready (Z.to_nat (priority r))) p A) p (set_state RUNNABLE r)
           (Ready (Z.to_nat (priority r)))); [done| | |apply Hm|apply given|done|done| |].
  { unfold cur. cbn. by rewrite (proj1 Hf1). }
  { eapply mv_close; [exact Hm|apply given|]. split; [done|].
    split; [done|]. intros i [= Hi]. cbn. lia. }
  { intros i [= <-]. cbn. lia. }
  intros t3 H3 Hp3 Hq3 _. cbn in Hp3. rewrite Hie1 in Hp3.
  apply wp_scheduler_after; [done|apply Hk|]. intros s' Hu' Hs' Ept Hkf. cbn in Ept.
  apply HQ; rewrite ?Ept; try done.
  - intros q Hne. eapply is_proc_trans; [by apply Hq3|]. by apply Hm.
  - by eapply lframe_setcpu.
Qed.

(** ** sleep *)

(** sleep may be called with no lock, with the ptable lock, or with one other
    lock; in each case this is the only lock its CPU holds. *)
Definition sleep_pre (c : nat) (lk : option nat) (l : Spinlock.lstate) : Prop :=
  match lk with
  | None => unheld c l
  | Some k =>
      if decide (k = PTABLE) then held c l else
      Spinlock.locked (Spinlock.locks l PTABLE) = false ∧
      Spinlock.locked (Spinlock.locks l k) = true ∧
      Spinlock.lcpu (Spinlock.locks l k) = Some c ∧
      Spinlock.fl_if (Spinlock.cpus l c) = false ∧ Spinlock.ncli (Spinlock.cpus l c) = 1
  end.

Definition sleep_ie (c : nat) (lk : option nat) (l : Spinlock.lstate) : bool :=
  match lk with
  | None => Spinlock.fl_if (Spinlock.cpus l c)
  | Some _ => Spinlock.intena (Spinlock.cpus l c)
  end.

(** Like [lframe], with lock [lk] released. *)
Definition sframe (c : nat) (lk : option nat) (l l' : Spinlock.lstate) : Prop :=
  (∀ c', Spinlock.proc (Spinlock.cpus l' c') = Spinlock.proc (Spinlock.cpus l c')) ∧
  (∀ c', c' ≠ c → Spinlock.cpus l' c' = Spinlock.cpus l c') ∧
  (∀ k, k ≠ PTABLE → Some k ≠ lk → Spinlock.locks l' k = Spinlock.locks l k) ∧
  (∀ k, k ≠ PTABLE → Some k = lk → Spinlock.locked (Spinlock.locks l' k) = false).

Lemma wp_sleep_locks c lk s (Q : unit → kstate → Prop) :
  sleep_pre c lk (ls s) →
  (∀ l', held c l' → sframe c lk (ls s) l' →
         Spinlock.intena (Spinlock.cpus l' c) = sleep_ie c lk (ls s) → Q tt (put_ls l' s)) →
  wp (if decide (lk = Some PTABLE) then mret tt else
      acquire c PTABLE;; match lk with Some l => release c l | None => mret tt end) Q s.
Proof.
  intros Hpre HQ. destruct lk as [k|]; simpl in Hpre.
  - destruct (decide (k = PTABLE)) as [->|Hne].
    + rewrite decide_True by done. wp_steps. destruct s. apply HQ; [done| |done].
      split; [done|]. split; [done|]. split; [done|]. intros k Hk [= ->]. done.
    + rewrite decide_False by congruence. destruct Hpre as (Hf & Hl & Ho & Hif & Hn).
      apply wp_bind, wp_onL, Spinlock.wp_acquire; [done|].
      intros l1 Hc1 (Ho1 & Hk1 & _) Hl1 Ho1'. unfold Spinlock.acq_cpu in Hc1. rewrite Hn in Hc1. cbn in Hc1.
      apply wp_onL, Spinlock.wp_release; cbn; rewrite ?Hk1, ?Hc1 by done; [done|done|done|done|].
      intros l2 Hc2 (Ho2 & Hk2 & _) Hl2 _. unfold Spinlock.rel_cpu in Hc2. cbn -[i32] in Hc2, Ho2, Hk2.
      apply (HQ l2).
      * unfold held. by rewrite Hk2, Hc2 by done.
      * split; [|split; [|split]].
        -- intros c'. destruct (decide (c' = c)) as [->|]; [by rewrite Hc2|by rewrite Ho2, Ho1].
        -- intros c' ?. by rewrite Ho2, Ho1.
        -- intros k' ? Hk'. by rewrite Hk2, Hk1 by congruence.
        -- intros k' ? [= ->]. done.
      * by rewrite Hc2.
  - apply wp_bind, wp_acq; [done|]. intros l1 Hh (Hp1 & Hc1 & Hk1) Hie. wp_steps.
    apply HQ; [done| |done]. repeat split; auto. done.
Qed.

(** The process after [sleep]: SLEEPING on the channel, charged for its slice. *)
Definition slept (tk : Z) (ie : bool) (ch : chan_t) (lk : option nat) (r : proc) : proc :=
  set_context (AtSched ie (FromSleep lk)) (settle tk (set_state SLEEPING (set_chan ch r))).

Lemma wp_sleep c ch lk s A p (Q : unit → kstate → Prop) :
  sleep_pre c lk (ls s) → cur c s = Some p → tinv (pt s) A → p ∈ A Running →
  (∀ k, wp switchkvm (λ _ _, True) k) →
  (∀ s' l1, tinv (pt s') (move Running Sleep p A) →
     is_proc (pt s') p (slept (ticks s) (sleep_ie c lk (ls s)) ch lk (procs (pt s) p)) →
     (∀ q, q ≠ p → is_proc (pt s') q (procs (pt s) q)) →
     unheld c (ls s') → sframe c lk (ls s) l1 → setcpu c None l1 (ls s') → kframe s s' → Q tt s') →
  wp (sleep c ch lk) Q s.
Proof.
  intros Hu Hc H Hp Hk HQ. unfold sleep. set (r := procs (pt s) p) in *.
  pose proof (ti_good _ _ H _ _ Hp) as [Hst Hpr _]. specialize (Hpr ltac:(done)).
  pose proof (mv_start _ _ p H (reps_lt _ _ (ti_reps _ _ H) _ _ Hp)) as Hm. fold r in Hm, Hst, Hpr.
  ksteps. rewrite Hc. apply wp_bind, wp_sleep_locks; [done|].
  intros l1 Hh1 Hf1 Hie1. ksteps. mv_upds Hm.
  apply wp_onT. eapply wp_mv_take; [done..|]. clear Hm. intros t1 Hm. ksteps.
  apply wp_onT. eapply wp_mv_assert; [done..|]. ksteps. mv_upds Hm.
  apply wp_onT. eapply wp_mv_give; [done| |done|].
  { intros L'. eapply taken; [apply (ti_reps _ _ H)|done]. }
  clear Hm. intros t2 Hm. ksteps. mv_upds Hm.
  eapply (wp_sched _ _ _ (move Running Sleep p A) p (set_state SLEEPING (set_chan ch r))
           Sleep); [done| | |apply Hm|apply given|done..|].
  { unfold cur. cbn. by rewrite (proj1 Hf1). }
  { eapply mv_close; [exact Hm|apply given|]. done. }
  intros t3 H3 Hp3 Hq3 _. cbn in Hp3. rewrite Hie1 in Hp3.
  apply wp_scheduler_after; [done|apply Hk|]. intros s' Hu' Hs' Ept Hkf. cbn in Ept.
  eapply HQ; rewrite ?Ept; try done.
  - eapply tinv_ext; [|exact H3]. intros L. by apply sched_lists_other.
  - intros q Hne. eapply is_proc_trans; [by apply Hq3|]. by apply Hm.
Qed.

(** ** wakeup *)

Lemma wp_wakeup c ch s A (Q : unit → kstate → Prop) :
  unheld c (ls s) → tinv (pt s) A →
  (∀ s', tinv (pt s') (wake_lists (pt s) ch A) →
     (∀ q, is_proc (pt s') q (woken_proc (pt s) ch (A Sleep) q)) →
     unheld c (ls s') → lframe c (ls s) (ls s') → ext s' = ext s → kframe s s' → Q tt s') →
  wp (wakeup c ch) Q s.
Proof.
  intros Hu H HQ. unfold wakeup. apply wp_bind, wp_acq; [done|]. intros l1 Hh1 Hf1 _.
  apply wp_bind, wp_onT, (wp_wakeup1 _ A); [done|]. intros t1 H1 Hq1 _.
  apply wp_rel; [done|]. intros l2 Hu2 Hf2 _. apply HQ; try done. by eapply lframe_trans.
Qed.

End ops.

End ProcSpec.
