(* ===== verification/ProcSched.v ===== *)
(** * The scheduler: promotion, choice and dispatch (proc.c: scheduler) *)

From S2P Require Import Prelude Spinlock ProcTable CString Proc ProcInv ProcSpec.
Local Open Scope Z_scope.

Module ProcSched.
Import ProcTable Proc ProcInv ProcSpec.

Section sched.
Context `{mode : Mode} `{cfg : Config} `{sv : Services}.
Implicit Types A : lid → list nat.

(** A process that moves up one priority level. *)
Definition promo (r : proc) : proc :=
  if 0 <? priority r then set_priority (priority r - 1) r else r.

Lemma promo_next n r : promo (set_next n r) = set_next n (promo r).
Proof. unfold promo. cbn. by destruct (0 <? priority r). Qed.

(** *** Promotion of the running and the sleeping processes *)

Lemma goodr_promo L r :
  (∀ i, L ≠ Ready i) → L ≠ Free → goodr L r → goodr L (promo r).
Proof.
  intros HR HF (Hs & Hp & _). specialize (Hp HF). unfold promo.
  destruct (Z.ltb_spec 0 (priority r)); (split; [done|]); cbn; split; [lia| |done|]; intros i ->;
    by destruct (HR (S i)).
Qed.

Lemma wp_promote_field msg L t A (Q : unit → ptable → Prop) :
  tinv t A → (∀ i, L ≠ Ready i) → L ≠ Free →
  (∀ t', tinv t' A → (∀ q, q ∈ A L → is_proc t' q (promo (procs t q))) →
         (∀ q, q ∉ A L → is_proc t' q (procs t q)) →
         PromoteAtTime t' = PromoteAtTime t → Q tt t') →
  wp (promote_field msg L) Q t.
Proof.
  intros H HR HF HQ. pose proof (ti_reps _ _ H) as Hr. unfold promote_field. wp_steps.
  assert (Hok : lid_ok L) by (destruct L; [done..|by destruct (HR i)]).
  eapply (wp_list_for_saved _ _ (λ done todo t1, A L = done ++ todo ∧ tinv t1 A ∧
     (∀ q, q ∈ done → is_proc t1 q (promo (procs t q))) ∧
     (∀ q, q ∉ done → is_proc t1 q (procs t q)) ∧ PromoteAtTime t1 = PromoteAtTime t)
    _ _ [] (A L)).
  - by eapply reps_length.
  - by apply (reps_chain _ _ Hr).
  - split; [done|]. split; [done|]. repeat split; try set_solver. intros. apply is_proc_refl.
  - intros done p todo t1 Hc (EA & H1 & Hd & Hn & ET).
    assert (Hp : p ∈ A L) by (rewrite EA; set_solver).
    assert (Hpd : p ∉ done).
    { pose proof (reps_NoDup _ _ L Hr) as Hnd. rewrite EA in Hnd.
      apply NoDup_app in Hnd as (_ & Hdd & _). intros Hin. apply (Hdd p Hin). set_solver. }
    pose proof (mv_start_at _ _ p (procs t p) H1 (reps_lt _ _ (ti_reps _ _ H1) _ _ Hp) (Hn p Hpd)) as Hm.
    pose proof (proj2 (goodr_good _ L _ _ (Hn p Hpd)) (ti_good _ _ H1 _ _ Hp)) as Hg.
    wp_steps. rewrite (mv_fld _ _ _ _ _ priority Hm) by done.
    pose proof (proj1 (proj2 Hg) HF) as Hpr.
    destruct (Z.ltb_spec (priority (procs t p)) 0); [lia|].
    pose proof (goodr_promo L _ HR HF Hg) as Hg'. unfold promo in Hg'.
    assert (Hstep : ∀ t2, mv t1 t2 A p (promo (procs t p)) →
      chain (nx t2) (nx t1 p) todo ∧ A L = (done ++ [p]) ++ todo ∧ tinv t2 A ∧
      (∀ q, q ∈ done ++ [p] → is_proc t2 q (promo (procs t q))) ∧
      (∀ q, q ∉ done ++ [p] → is_proc t2 q (procs t q)) ∧ PromoteAtTime t2 = PromoteAtTime t).
    { intros t2 Hm2. assert (H2 : tinv t2 A) by (eapply mv_close; [done..|]; by apply goodr_promo).
      split; [|split; [by rewrite <-app_assoc|split; [done|split; [|split; [|rewrite (mv_time _ _ _ _ _ Hm2); done]]]]].
      - destruct Hc as [_ Hc]. rewrite (chain_head _ _ _ Hc). eapply (chain_suffix _ _ (done ++ [p])).
        rewrite <-app_assoc. change ([p] ++ todo) with (p :: todo). rewrite <-EA.
        by apply (reps_chain _ _ (ti_reps _ _ H2)).
      - intros q [Hq| ->%list_elem_of_singleton]%elem_of_app; [|apply Hm2].
        eapply is_proc_trans; [|by apply Hd]. apply Hm2. intros ->. done.
      - intros q Hq. eapply is_proc_trans; [|apply Hn; set_solver]. apply Hm2. set_solver. }
    destruct (Z.ltb_spec 0 (priority (procs t p))) as [Hpos|Hpos]; unfold ProcTable.upd; wp_steps.
    + apply (Hstep (updt p (set_priority (priority (procs t p) - 1)) t1)). unfold promo.
      rewrite (proj2 (Z.ltb_lt _ _)) by done. apply mv_upd; [done|done].
    + apply Hstep. unfold promo. destruct (Z.ltb_spec 0 (priority (procs t p))); [lia|done].
  - intros done t1 (EA & H1 & Hd & Hn & ET). wp_steps. rewrite app_nil_r in EA. subst done. by apply HQ.
Qed.

(** *** Promotion of one ready list *)

Definition join_lists (i : nat) A : lid → list nat :=
  <[Ready (S i) := []]> (<[Ready i := A (Ready i) ++ A (Ready (S i))]> A).

(** [done] of ready list [S i] has been moved down to ready list [i]. *)
Definition join_part (i : nat) (done todo : list nat) A : lid → list nat :=
  <[Ready (S i) := todo]> (<[Ready i := A (Ready i) ++ done]> A).

Lemma join_part_move i done p todo A L :
  p ∉ todo →
  move (Ready (S i)) (Ready i) p (join_part i done (p :: todo) A) L =
  join_part i (done ++ [p]) todo A L.
Proof.
  intros Hp. assert (Hne : Ready i ≠ Ready (S i)) by (intros [= ?]; lia).
  assert (Hto : ∀ d t, join_part i d t A (Ready i) = A (Ready i) ++ d).
  { intros. unfold join_part. by rewrite fn_lookup_insert_ne, fn_lookup_insert. }
  assert (Hfr : ∀ d t, join_part i d t A (Ready (S i)) = t).
  { intros. unfold join_part. by rewrite fn_lookup_insert. }
  destruct (decide (L = Ready i)) as [->|H1]; [|destruct (decide (L = Ready (S i))) as [->|H2]].
  - rewrite move_to, !Hto by done. by rewrite <-app_assoc.
  - rewrite move_from, !Hfr, del_cons by done. done.
  - rewrite move_other by done. unfold join_part. by rewrite !fn_lookup_insert_ne.
Qed.

(** Moving the head of ready list [S i]. *)
Lemma wp_promote_one i t A p todo (Q : option unit → ptable → Prop) :
  tinv t A → A (Ready (S i)) = p :: todo →
  (∀ t', tinv t' (move (Ready (S i)) (Ready i) p A) →
         is_proc t' p (promo (procs t p)) → (∀ q, q ≠ p → is_proc t' q (procs t q)) →
         PromoteAtTime t' = PromoteAtTime t → Q None t') →
  wp (pr ← gets (λ t, priority (procs t p));
      if negb (pr =? Z.of_nat (S i)) then panic "priority != i, scheduler, runnable lists" else
      stateListRemove (Ready (S i)) (Some p);;
      ProcTable.upd p (set_priority (pr - 1));;
      stateListAdd (Ready (S i - 1)) (Some p);;
      mret (None : option unit)) Q t.
Proof.
  intros H EA HQ. pose proof (ti_reps _ _ H) as Hr.
  assert (Hp : p ∈ A (Ready (S i))) by (rewrite EA; set_solver).
  pose proof (ti_good _ _ H _ _ Hp) as [Hst _ Hpr]. specialize (Hpr i eq_refl).
  pose proof (elem_lid_ok _ _ _ _ Hr Hp) as Hok. simpl in Hok.
  pose proof (mv_start _ _ p H (reps_lt _ _ Hr _ _ Hp)) as Hm.
  wp_steps. rewrite Hpr, Z.eqb_refl. cbn [negb]. wp_steps.
  eapply wp_mv_take; [done..|]. clear Hm; intros t1 Hm. unfold ProcTable.upd. wp_steps.
  apply (mv_upd _ _ _ _ _ (set_priority (Z.of_nat (S i) - 1))) in Hm; [|done].
  replace (S i - 1)%nat with i by lia.
  eapply wp_mv_give; [exact Hm| |cbn; lia|].
  { intros L'. by eapply taken. }
  clear Hm. intros t2 Hm. wp_steps. apply HQ; [| |apply Hm..].
  - eapply mv_close; [exact Hm|apply given|]. split; [done|]. cbn. split; [lia|].
    intros j [= ->]. lia.
  - unfold promo. rewrite Hpr. rewrite (proj2 (Z.ltb_lt _ _)) by lia. apply Hm.
Qed.

Lemma wp_promote_ready i t A (Q : unit → ptable → Prop) :
  tinv t A → (S i ≤ MAXPRIO)%nat →
  (∀ t', tinv t' (join_lists i A) →
         (∀ q, q ∈ A (Ready (S i)) → is_proc t' q (promo (procs t q))) →
         (∀ q, q ∉ A (Ready (S i)) → is_proc t' q (procs t q)) →
         PromoteAtTime t' = PromoteAtTime t → Q tt t') →
  wp (promote_ready (S i)) Q t.
Proof.
  intros H Hi HQ. pose proof (ti_reps _ _ H) as Hr. unfold promote_ready. wp_steps.
  eapply (wp_list_for_saved _ _ (λ done todo t1, A (Ready (S i)) = done ++ todo ∧
     tinv t1 (join_part i done todo A) ∧
     (∀ q, q ∈ done → is_proc t1 q (promo (procs t q))) ∧
     (∀ q, q ∉ done → is_proc t1 q (procs t q)) ∧ PromoteAtTime t1 = PromoteAtTime t)
    _ _ [] (A (Ready (S i)))).
  - by eapply reps_length.
  - by apply (reps_chain _ _ Hr (Ready (S i))).
  - split; [done|]. split; [|repeat split; try set_solver; intros; apply is_proc_refl].
    eapply tinv_ext; [|exact H]. intros L. unfold join_part. rewrite app_nil_r.
    destruct (decide (L = Ready (S i))) as [->|H1]; [by rewrite fn_lookup_insert|].
    rewrite fn_lookup_insert_ne by done.
    destruct (decide (L = Ready i)) as [->|H2]; [by rewrite fn_lookup_insert|].
    by rewrite fn_lookup_insert_ne.
  - intros done p todo t1 Hc (EA & H1 & Hd & Hn & ET).
    pose proof (reps_NoDup _ _ (Ready (S i)) Hr) as Hnd. rewrite EA in Hnd.
    apply NoDup_app in Hnd as (_ & Hdd & [Hpt _]%NoDup_cons).
    assert (Hpd : p ∉ done) by (intros Hin; apply (Hdd p Hin); set_solver).
    eapply (wp_promote_one i _ (join_part i done (p :: todo) A) p todo); [done| |].
    { unfold join_part. by rewrite fn_lookup_insert. }
    intros t2 H2 Hp2 Hq2 ET2.
    apply (tinv_ext _ _ (join_part i (done ++ [p]) todo A)) in H2;
      [|intros L; by apply join_part_move].
    split; [|split; [by rewrite <-app_assoc|split; [done|split; [|split; [|congruence]]]]].
    + destruct Hc as [_ Hc]. rewrite (chain_head _ _ _ Hc). eapply (chain_suffix _ _ []).
      pose proof (reps_chain _ _ (ti_reps _ _ H2) (Ready (S i))) as Hc2.
      unfold join_part in Hc2. rewrite fn_lookup_insert in Hc2. by apply Hc2.
    + intros q [Hq| ->%list_elem_of_singleton]%elem_of_app.
      * eapply is_proc_trans; [|by apply Hd]. apply Hq2. intros ->. done.
      * unfold is_proc in *. rewrite Hp2, (Hn p Hpd), promo_next. done.
    + intros q Hq. eapply is_proc_trans; [|apply Hn; set_solver]. apply Hq2. set_solver.
  - intros done t1 (EA & H1 & Hd & Hn & ET). wp_steps. rewrite app_nil_r in EA. subst done. by apply HQ.
Qed.

(** *** The whole promotion *)

(** Every ready list takes over the one below it; list 0 keeps its own. *)
Definition promote_lists A (L : lid) : list nat :=
  match L with
  | Ready 0 => A (Ready 0) ++ A (Ready 1)
  | Ready (S i) => A (Ready (S (S i)))
  | L => A L
  end.

(** The lists whose processes move up one level. *)
Definition promotes (L : lid) : bool :=
  match L with Running | Sleep | Ready (S _) => true | _ => false end.

Definition promo_on (L : lid) (r : proc) : proc := if promotes L then promo r else r.

(** Ready lists 1, ..., [k] - 1 have been moved. *)
Definition promote_part (k : nat) A (L : lid) : list nat :=
  match L with
  | Ready i =>
      if decide (k ≤ i)%nat then A (Ready i)
      else if decide (i = 0%nat) then (if decide (2 ≤ k)%nat then A (Ready 0) ++ A (Ready 1) else A (Ready 0))
      else if decide (S i = k) then [] else A (Ready (S i))
  | L => A L
  end.

Lemma promote_part_step k A L :
  join_lists k (promote_part (S k) A) L = promote_part (S (S k)) A L.
Proof.
  assert (Hne : Ready k ≠ Ready (S k)) by (intros [= ?]; lia). unfold join_lists.
  destruct (decide (L = Ready (S k))) as [->|H1]; [|destruct (decide (L = Ready k)) as [->|H2]].
  - rewrite fn_lookup_insert. cbn. by repeat case_decide; try lia.
  - rewrite fn_lookup_insert_ne, fn_lookup_insert by done. cbn.
    repeat case_decide; try lia; subst; done.
  - rewrite !fn_lookup_insert_ne by done. destruct L as [| | | | |i]; try done. cbn.
    assert (i ≠ S k) by congruence. assert (i ≠ k) by congruence.
    repeat case_decide; try lia; done.
Qed.

Lemma promote_part_end t A L : reps t A → promote_part (S MAXPRIO) A L = promote_lists A L.
Proof.
  intros Hr. destruct L as [| | | | |[|i]]; try done; cbn.
  - repeat case_decide; try lia; try done.
    rewrite (reps_ok _ _ Hr (Ready 1)) by (cbn; lia). by rewrite app_nil_r.
  - repeat case_decide; try lia; try done.
    + rewrite !(reps_ok _ _ Hr (Ready _)) by (cbn; lia). done.
    + by rewrite (reps_ok _ _ Hr (Ready (S (S i)))) by (cbn; lia).
Qed.

Lemma promote_part_other k A L : (∀ i, L ≠ Ready i) → promote_part k A L = A L.
Proof. intros H. destruct L as [| | | | |i]; try done. by destruct (H i). Qed.

(** The loop over the ready lists. *)
Lemma wp_promote_readys t A (Q : option unit → ptable → Prop) :
  tinv t A →
  (∀ t', tinv t' (promote_part (S MAXPRIO) A) →
     (∀ L q, q ∈ A L → is_proc t' q (match L with Ready (S _) => promo (procs t q) | _ => procs t q end)) →
     PromoteAtTime t' = PromoteAtTime t → Q None t') →
  wp (count_for MAXPRIO 1 (λ i, promote_ready i;; mret (None : option unit))) Q t.
Proof.
  intros H HQ. pose proof (ti_reps _ _ H) as Hr.
  apply (wp_count_for (λ k t1, tinv t1 (promote_part k A) ∧
    (∀ L q, q ∈ A L → is_proc t1 q (match L with
       | Ready (S i) => if decide (S i < k)%nat then promo (procs t q) else procs t q
       | _ => procs t q end)) ∧ PromoteAtTime t1 = PromoteAtTime t)).
  - split; [|split; [|done]].
    + eapply tinv_ext; [|exact H]. intros [| | | | |i]; try done. cbn. by repeat case_decide; subst; try lia.
    + intros [| | | | |[|i]] q Hq; try apply is_proc_refl.
  - intros k t1 Hk (H1 & Hp & ET). destruct k as [|k]; [lia|]. wp_steps.
    eapply wp_promote_ready; [exact H1|lia|]. intros t2 H2 Hin Hout ET2. wp_steps.
    assert (EA : promote_part (S k) A (Ready (S k)) = A (Ready (S k))) by (cbn; by rewrite decide_True).
    rewrite EA in Hin, Hout. split; [|split; [|congruence]].
    + eapply tinv_ext; [|exact H2]. apply promote_part_step.
    + intros L q Hq. pose proof (Hp L q Hq) as Hpq.
      destruct (decide (L = Ready (S k))) as [->|HL].
      * rewrite decide_False in Hpq by lia. rewrite decide_True by lia.
        specialize (Hin q Hq). unfold is_proc in *. rewrite Hin, Hpq, promo_next. done.
      * assert (Hq' : q ∉ A (Ready (S k))) by (intros Hq'; apply HL; by eapply reps_disj).
        eapply is_proc_trans; [by apply Hout|].
        destruct L as [| | | | |[|i]]; try done. destruct (decide (S i < S k)%nat) as [Hlt|Hge].
        -- rewrite decide_True by lia. done.
        -- rewrite decide_False; [done|]. intros ?. apply HL. f_equal. lia.
  - intros t1 (H1 & Hp & ET). apply HQ; [done| |done]. intros L q Hq. specialize (Hp L q Hq).
    destruct L as [| | | | |[|i]]; try done.
    pose proof (elem_lid_ok _ _ _ _ Hr Hq) as Hok. cbn in Hok. by rewrite decide_True in Hp by lia.
Qed.

Lemma is_proc_promo t1 t2 q r :
  is_proc t2 q (promo (procs t1 q)) → is_proc t1 q r → is_proc t2 q (promo r).
Proof. unfold is_proc. intros E2 E1. rewrite E2, E1, promo_next. done. Qed.

Lemma wp_promote t A (Q : unit → ptable → Prop) :
  tinv t A →
  (∀ t', tinv t' (promote_lists A) →
     (∀ L q, q ∈ A L → is_proc t' q (promo_on L (procs t q))) →
     PromoteAtTime t' = u32 (PromoteAtTime t + TICKS_TO_PROMOTE) → Q tt t') →
  wp promote Q t.
Proof.
  intros H HQ. pose proof (ti_reps _ _ H) as Hr. unfold promote.
  apply wp_bind, (wp_promote_field _ _ _ A); [done..|]. intros t1 H1 Hi1 Ho1 T1.
  apply wp_bind, (wp_promote_readys _ A); [done|]. intros t2 H2 Hp2 T2.
  apply wp_bind, (wp_promote_field _ _ _ (promote_part (S MAXPRIO) A)); [done..|].
  intros t3 H3 Hi3 Ho3 T3. wp_steps. rewrite promote_part_other in Hi3, Ho3 by done.
  apply HQ; [|intros L q Hq|cbn; by rewrite T3, T2, T1].
  - eapply tinv_ext; [intros L; by eapply promote_part_end|]. by destruct H3; constructor; [destruct ti_reps0; constructor|intros L q Hq; specialize (ti_good0 L q Hq); destruct ti_good0; constructor|].
  - change (is_proc t3 q (promo_on L (procs t q))). unfold promo_on.
    assert (Hd : ∀ L', L ≠ L' → q ∉ A L') by (intros L' HL Hq'; apply HL; by eapply reps_disj).
    specialize (Hp2 L q Hq). destruct L as [| | | | |[|i]]; cbn [promotes];
      first [ eapply is_proc_promo; [by apply Hi3|] | eapply is_proc_trans; [apply Ho3, Hd; done|] ].
    all: first [ eapply is_proc_promo; [exact Hp2|] | eapply is_proc_trans; [exact Hp2|] ].
    all: first [ by apply Hi1 | apply Ho1, Hd; done ].
Qed.

(** *** Choice and dispatch *)

(** [(j, p)] is the first process of the first non-empty ready list. *)
Definition is_pick A (o : option (nat * nat)) : Prop :=
  match o with
  | Some (j, p) => (∃ l, A (Ready j) = p :: l) ∧ (∀ i, (i < j)%nat → A (Ready i) = [])
  | None => ∀ i, A (Ready i) = []
  end.

Lemma wp_pick t A (Q : option (nat * nat) → ptable → Prop) :
  reps t A → (∀ o, is_pick A o → Q o t) → wp pick Q t.
Proof.
  intros Hr HQ. unfold pick.
  apply (wp_count_for (λ k t1, t1 = t ∧ ∀ i, (i < k)%nat → A (Ready i) = [])).
  - split; [done|]. intros; lia.
  - intros k ? Hk [-> He]. wp_steps.
    pose proof (reps_chain _ _ Hr (Ready k) ltac:(cbn; lia)) as Hc.
    change (ready (pLists t) k) with (head (Ready k) t). rewrite (chain_head _ _ _ Hc).
    destruct (A (Ready k)) as [|p l] eqn:E; cbn; wp_steps.
    + split; [done|]. intros i Hi. destruct (decide (i = k)) as [->|]; [done|]. apply He. lia.
    + apply HQ. split; [by exists l|done].
  - intros ? [-> He]. apply HQ. intros i. destruct (decide (i ≤ MAXPRIO)%nat).
    + apply He. lia.
    + by apply (reps_ok _ _ Hr (Ready i)).
Qed.

(** The lists and the process records the scheduler chooses from: promotion has
    taken place when the time for it has come. *)
Definition due s : bool := PromoteAtTime (pt s) <=? ticks s.
Definition cand_lists s A : lid → list nat := if due s then promote_lists A else A.
Definition cand s (L : lid) (r : proc) : proc := if due s then promo_on L r else r.

(** A process that is dispatched at time [tk]. *)
Definition dispatched (tk : Z) (r : proc) : proc := set_cpu_ticks_in tk (set_state RUNNING r).

Lemma wp_cand s A pa tk (Q : unit → kstate → Prop) :
  pa = PromoteAtTime (pt s) → tk = ticks s → tinv (pt s) A →
  (∀ t', tinv t' (cand_lists s A) →
     (∀ L q, q ∈ A L → is_proc t' q (cand s L (procs (pt s) q))) → Q tt (put_pt t' s)) →
  wp (if pa <=? tk then onT promote else mret tt) Q s.
Proof.
  intros -> -> H HQ. unfold cand_lists, cand, due in HQ.
  destruct (PromoteAtTime (pt s) <=? ticks s); [|destruct s; apply (HQ pt0); [done|]; intros; apply is_proc_refl].
  apply wp_onT. eapply wp_promote; [done|]. intros t' H' Hp _. by apply HQ.
Qed.

Definition sched_post (c : nat) s A (o : option nat) (s' : kstate) : Prop :=
  let A' := cand_lists s A in
  match o with
  | None =>
      (∀ i, A (Ready i) = []) ∧ tinv (pt s') A' ∧
      (∀ L q, q ∈ A L → is_proc (pt s') q (cand s L (procs (pt s) q))) ∧
      unheld c (ls s') ∧ lframe c (ls s) (ls s') ∧ kframe s s' ∧
      Spinlock.fl_if (Spinlock.cpus (ls s') c) = true
  | Some p => ∃ j L,
      is_pick A' (Some (j, p)) ∧ p ∈ A L ∧ tinv (pt s') (move (Ready j) Running p A') ∧
      is_proc (pt s') p (dispatched (ticks s) (cand s L (procs (pt s) p))) ∧
      (∀ L q, q ∈ A L → q ≠ p → is_proc (pt s') q (cand s L (procs (pt s) q))) ∧
      held c (ls s') ∧ setcpu c (Some p) (ls s) (ls s') ∧ kframe s s'
  end.

Lemma promote_lists_nil A : (∀ i, promote_lists A (Ready i) = []) → ∀ i, A (Ready i) = [].
Proof.
  intros H. assert (H0 := H 0%nat). cbn in H0. apply app_nil in H0 as [H0 H1].
  intros [|[|i]]; [done|done|apply (H (S i))].
Qed.

Lemma unheld_sti c l l' :
  unheld c l → Spinlock.sti c l = Ok tt l' →
  unheld c l' ∧ lframe c l l' ∧ Spinlock.fl_if (Spinlock.cpus l' c) = true ∧
  Spinlock.intena (Spinlock.cpus l' c) = Spinlock.intena (Spinlock.cpus l c).
Proof.
  intros [Hl Hn] [= <-]. unfold unheld, lframe. cbn. rewrite fn_lookup_alter. repeat split; try done.
  - intros c'. destruct (decide (c' = c)) as [->|]; [by rewrite fn_lookup_alter|by rewrite fn_lookup_alter_ne].
  - intros c' ?. by rewrite fn_lookup_alter_ne.
Qed.

Lemma wp_sti c s (Q : unit → kstate → Prop) :
  unheld c (ls s) →
  (∀ l', unheld c l' → lframe c (ls s) l' → Spinlock.fl_if (Spinlock.cpus l' c) = true →
         Q tt (put_ls l' s)) →
  wp (onL (Spinlock.sti c)) Q s.
Proof.
  intros Hu HQ. apply wp_onL. unfold wp.
  destruct (Spinlock.sti c (ls s)) as [[] l'|? ?|? ?|?] eqn:E; try done.
  destruct (unheld_sti _ _ _ Hu E) as (? & ? & ? & _). by apply HQ.
Qed.

Lemma wp_scheduler c s A (Q : option nat → kstate → Prop) :
  unheld c (ls s) → tinv (pt s) A → (∀ pg k, wp (switchuvm pg) (λ _ _, True) k) →
  (∀ o s', sched_post c s A o s' → Q o s') → wp (scheduler c) Q s.
Proof.
  intros Hu H Hk HQ. unfold scheduler.
  apply wp_bind, wp_sti; [done|]. intros l0 Hu0 Hf0 _.
  apply wp_bind, wp_acq; [done|]. intros l1 Hh1 Hf1 _. cbn in Hf1. ksteps.
  apply (wp_cand _ A); [done..|]. intros t1 H1 Hc1. cbn in H1, Hc1.
  change (cand_lists _ A) with (cand_lists s A) in H1.
  change (∀ L q, q ∈ A L → is_proc t1 q (cand s L (procs (pt s) q))) in Hc1.
  apply wp_bind, wp_onT, (wp_pick _ (cand_lists s A)); [apply H1|].
  assert (Hf : lframe c (ls s) l1) by (by eapply lframe_trans). clear Hf0 Hf1.
  intros [[j p]|] Hpk.
  - pose proof Hpk as [[l El] _].
    assert (Hp : p ∈ cand_lists s A (Ready j)) by (rewrite El; set_solver).
    pose proof (reps_lt _ _ (ti_reps _ _ H1) _ _ Hp) as Hlt.
    pose proof (mv_start _ _ p H1 Hlt) as Hm.
    destruct (ti_cover _ _ H p Hlt) as [L HL].
    pose proof (ti_good _ _ H1 _ _ Hp) as [Hst Hpr _]. specialize (Hpr ltac:(done)).
    ksteps. apply wp_onT. eapply wp_mv_take; [exact Hm|done|]. clear Hm. intros t2 Hm. ksteps.
    apply wp_onT. eapply wp_mv_assert; [exact Hm|done|]. ksteps. mv_upds Hm.
    apply wp_onT. eapply wp_mv_give; [exact Hm| |done|].
    { intros L'. eapply taken; [apply (ti_reps _ _ H1)|done]. }
    clear Hm. intros t3 Hm. ksteps. apply wp_set_cur. intros l2 Hs2 Hh2 _. ksteps.
    apply wp_onK. eapply wp_mono; [apply Hk|]. intros _ k' _. ksteps. mv_upds Hm.
    apply HQ. exists j, L. split; [done|]. split; [done|]. split; [|split; [|split; [|split]]].
    + eapply mv_close; [exact Hm|apply given|]. done.
    + pose proof (mv_p _ _ _ _ _ Hm) as E. unfold is_proc in E. rewrite (Hc1 L p HL) in E.
      exact E.
    + intros L' q Hq Hne. eapply is_proc_trans; [|by apply Hc1]. by apply Hm.
    + by apply Hh2.
    + split; [|done]. by eapply lframe_setcpu.
  - apply wp_bind, wp_rel; [done|]. intros l2 Hu2 Hf2 _. apply wp_bind, wp_sti; [done|].
    intros l3 Hu3 Hf3 Hi3. cbn in Hf2, Hf3. wp_steps. apply HQ.
    split; [|split; [exact H1|split; [exact Hc1|split; [done|split; [|split; [done|done]]]]]].
    + unfold cand_lists in Hpk. destruct (due s); [by apply promote_lists_nil|done].
    + eapply lframe_trans; [exact Hf|]. by eapply lframe_trans.
Qed.

End sched.
End ProcSched.
