(* ===== verification/ProcLife.v ===== *)
(** * Creating and reaping processes (proc.c: allocproc, fork, wait) *)

From S2P Require Import Prelude Spinlock ProcTable CString Proc ProcInv ProcSpec.
Local Open Scope Z_scope.

Module ProcLife.
Import ProcTable Proc ProcInv ProcSpec.

(** ** What is assumed of the other components: their operations return.

    In partial mode this holds of any implementation. *)
Class ServicesOk `{mode : Mode} (sv : Services) : Prop := {
  ok_kalloc : ∀ k, wp kalloc (λ _ _, True) k;
  ok_kfree : ∀ a k, wp (kfree a) (λ _ _, True) k;
  ok_setupkvm : ∀ k, wp setupkvm (λ _ _, True) k;
  ok_inituvm : ∀ a k, wp (inituvm a) (λ _ _, True) k;
  ok_copyuvm : ∀ a b k, wp (copyuvm a b) (λ _ _, True) k;
  ok_freevm : ∀ a k, wp (freevm a) (λ _ _, True) k;
  ok_allocuvm : ∀ a b d k, wp (allocuvm a b d) (λ _ _, True) k;
  ok_deallocuvm : ∀ a b d k, wp (deallocuvm a b d) (λ _ _, True) k;
  ok_switchuvm : ∀ a k, wp (switchuvm a) (λ _ _, True) k;
  ok_switchkvm : ∀ k, wp switchkvm (λ _ _, True) k;
  ok_filedup : ∀ a k, wp (filedup a) (λ _ _, True) k;
  ok_idup : ∀ a k, wp (idup a) (λ _ _, True) k;
  ok_namei_root : ∀ k, wp namei_root (λ _ _, True) k
}.
#[export] Instance services_partial (sv : Services) : ServicesOk (mode := Partial) sv.
Proof. constructor; intros; apply wp_any. Qed.

(** A call of another component. *)
Lemma wp_service_eq `{mode : Mode} `{cfg : Config} `{sv : Services} {B} (m : M K B)
    (Q : B → kstate → Prop) s :
  wp m (λ _ _, True) (ext s) → (∀ a k, m (ext s) = Ok a k → Q a (put_ext k s)) → wp (onK m) Q s.
Proof. intros Hm HQ. apply wp_onK. unfold wp in *. destruct (m (ext s)); [by apply HQ|done..]. Qed.

(** A call whose result [Q] does not depend on. *)
Lemma wp_service `{mode : Mode} `{cfg : Config} `{sv : Services} {B} (m : M K B)
    (Q : B → kstate → Prop) s :
  wp m (λ _ _, True) (ext s) → (∀ a k, Q a (put_ext k s)) → wp (onK m) Q s.
Proof. intros Hm HQ. apply wp_onK. eapply wp_mono; [exact Hm|]. intros a k _. apply HQ. Qed.

Section life.
Context `{mode : Mode} `{cfg : Config} `{sv : Services} `{svok : !ServicesOk sv}.
Implicit Types s : kstate.
Implicit Types A : lid → list nat.

(** The string and file arrays of every slot have their declared sizes. *)
Definition name_ok (r : proc) : Prop :=
  length (name r) = 16%nat ∧ ∃ z, CString.first_nul (name r) z.

(** ** allocproc *)

(** The record of a freshly allocated process with kernel stack [ks]. *)
Definition fresh (n tk ks : Z) (r : proc) : proc :=
  set_cpu_ticks_in 0 (set_cpu_ticks_total 0 (set_start_ticks tk (set_context AtForkret
    (set_context_at (ks + KSTACKSIZE - sizeof_trapframe - 4 - sizeof_context)
    (set_tf_at (ks + KSTACKSIZE - sizeof_trapframe) (set_kstack ks
    (set_pid (u32 n) (set_priority 0 (set_budget BUDGET (set_state EMBRYO r)))))))))).

(** The record of a slot whose allocation failed for want of a kernel stack. *)
Definition unmade (n : Z) (r : proc) : proc :=
  set_state UNUSED (set_kstack 0 (set_pid (u32 n) (set_priority 0 (set_budget BUDGET r)))).

Definition alloc_post (c : nat) s A (o : option nat) (s' : kstate) : Prop :=
  unheld c (ls s') ∧ lframe c (ls s) (ls s') ∧ ticks s' = ticks s ∧
  initproc s' = initproc s ∧ first s' = first s ∧ PromoteAtTime (pt s') = PromoteAtTime (pt s) ∧
  match A Free with
  | [] => o = None ∧ nextpid s' = nextpid s ∧ tinv (pt s') A ∧
          (∀ q, is_proc (pt s') q (procs (pt s) q)) ∧ ext s' = ext s
  | p :: _ =>
      nextpid s' = i32 (nextpid s + 1) ∧
      (∀ q, q ≠ p → is_proc (pt s') q (procs (pt s) q)) ∧
      match o with
      | Some p' => p' = p ∧ tinv (pt s') (move Free Embryo p A) ∧
          ∃ ks, is_proc (pt s') p (fresh (nextpid s) (ticks s) ks (procs (pt s) p)) ∧
            kalloc (ext s) = Ok (Some ks) (ext s')
      | None => kalloc (ext s) = Ok None (ext s') ∧ tinv (pt s') (move Embryo Free p (move Free Embryo p A)) ∧
          is_proc (pt s') p (unmade (nextpid s) (procs (pt s) p))
      end
  end.

Lemma wp_allocproc c s A (Q : option nat → kstate → Prop) :
  unheld c (ls s) → tinv (pt s) A →
  (∀ o s', alloc_post c s A o s' → Q o s') → wp (allocproc c) Q s.
Proof.
  intros Hu H HQ. unfold allocproc. pose proof (ti_reps _ _ H) as Hr.
  apply wp_bind, wp_acq; [done|]. intros l1 Hh1 Hf1 _. ksteps.
  change (free (pLists (pt s))) with (head Free (pt s)).
  pose proof (reps_chain _ _ Hr Free I) as Hc. rewrite (chain_head _ _ _ Hc).
  destruct (A Free) as [|p l] eqn:EF.
  - cbn [list.head]. apply wp_onT. eapply wp_eq; [apply stateListRemove_null|].
    cbn [Z.eqb negb]. cbv iota. apply wp_bind, wp_rel; [done|]. intros l2 Hu2 Hf2 _. ksteps.
    apply HQ. unfold alloc_post. rewrite EF. split; [done|]. split; [by eapply lframe_trans|].
    repeat (split; [done|]). split; [|done]. intros q. apply is_proc_refl.
  - cbn [list.head]. assert (Hp : p ∈ A Free) by (rewrite EF; set_solver).
    pose proof (mv_start _ _ p H (reps_lt _ _ Hr _ _ Hp)) as Hm.
    pose proof (good_state _ _ _ (ti_good _ _ H _ _ Hp)) as Hst.
    apply wp_onT. eapply wp_mv_take; [exact Hm|done|]. clear Hm. intros t1 Hm.
    cbn [Z.eqb negb]. cbv iota. ksteps. apply wp_onT. eapply wp_mv_assert; [exact Hm|done|]. ksteps.
    mv_upds Hm. apply wp_onT. eapply wp_mv_give; [exact Hm| |done|].
    { intros L'. by eapply taken. }
    clear Hm. intros t2 Hm. ksteps. cbn [Z.eqb negb]. cbv iota. ksteps. mv_upds Hm.
    assert (H2 : tinv (updt p (set_pid (u32 (nextpid s))) (updt p (set_state EMBRYO) t2))
                   (move Free Embryo p A)).
    { eapply mv_close; [exact Hm|apply given|]. split; [done|]. cbn. split; [lia|done]. }
    apply wp_rel; [done|]. intros l2 Hu2 Hf2 _. cbn in Hf2.
    assert (Hf : lframe c (ls s) l2) by (by eapply lframe_trans).
    apply wp_bind, wp_service_eq; [apply ok_kalloc|]. intros [ks|] k' Ek; ksteps.
    + mv_upds Hm. apply HQ. unfold alloc_post. rewrite EF. do 5 (split; [done|]).
      split; [apply Hm|]. split; [done|]. split; [apply Hm|]. split; [done|]. split.
      * eapply mv_close; [exact Hm|apply given|]. split; [done|]. cbn. split; [lia|done].
      * exists ks. split; [apply Hm|done].
    + unfold cprintf. ksteps. mv_upds Hm. apply wp_acq; [done|]. intros l3 Hh3 Hf3 _. ksteps.
      assert (HpE : p ∈ move Free Embryo p A Embryo) by apply given.
      apply wp_onT. eapply wp_mv_take; [exact Hm|exact HpE|].
      clear Hm. intros t3 Hm. ksteps.
      apply wp_onT. eapply wp_mv_assert; [exact Hm|done|]. ksteps. mv_upds Hm.
      apply wp_onT. eapply wp_mv_give; [exact Hm| |done|].
      { intros L'. eapply taken; [apply (ti_reps _ _ H2)|done]. }
      clear Hm. intros t4 Hm. ksteps. mv_upds Hm. apply wp_rel; [done|]. intros l4 Hu4 Hf4 _. ksteps.
      apply HQ. unfold alloc_post. rewrite EF. split; [done|].
      split; [eapply lframe_trans; [exact Hf|]; by eapply lframe_trans|].
      do 3 (split; [done|]). split; [apply Hm|]. split; [done|]. split; [apply Hm|].
      split; [exact Ek|]. split.
      * eapply mv_close; [exact Hm|apply given|]. split; [done|]. cbn. done.
      * apply Hm.
Qed.

(** ** fork *)

Lemma mv_other {B} t0 t A p r q (f : proc → B) :
  mv t0 t A p r → q ≠ p → (∀ n r, f (set_next n r) = f r) → f (procs t q) = f (procs t0 q).
Proof. intros H Hne Hf. rewrite (mv_q _ _ _ _ _ H q Hne). apply Hf. Qed.

Lemma procs_updt_ne p q f t : q ≠ p → procs (updt p f t) q = procs t q.
Proof. intros. cbn. by rewrite fn_lookup_alter_ne. Qed.

Lemma procs_updt_eq p f t : procs (updt p f t) p = f (procs t p).
Proof. cbn. by rewrite fn_lookup_alter. Qed.

(** What the services do while the descriptors [fs] are duplicated: filedup is
    called on every open one, in order; a closed one gives 0. *)
Fixpoint filedups (fs : list Z) : M K (list Z) :=
  match fs with
  | [] => mret []
  | f :: fs =>
      f' ← (if f =? 0 then mret 0 else filedup f);
      gs ← filedups fs;
      mret (f' :: gs)
  end.

Lemma filedups_snoc fs f k gs k1 f' k2 :
  filedups fs k = Ok gs k1 → (if f =? 0 then mret 0 else filedup f) k1 = Ok f' k2 →
  filedups (fs ++ [f]) k = Ok (gs ++ [f']) k2.
Proof.
  revert k gs. induction fs as [|g fs IH]; intros k gs; cbn -[Z.eqb].
  - intros [= <- <-] E. unfold mbind, M_mbind, M_bind. rewrite E. done.
  - unfold mbind, M_mbind, M_bind. destruct ((if g =? 0 then mret 0 else filedup g) k) as [g' k'| | |] eqn:Eg; try done.
    destruct (filedups fs k') as [gs' k''| | |] eqn:Es; try done. intros [= <- <-] E.
    by rewrite (IH _ _ Es E).
Qed.

(** The descriptors of a process, as the loop of fork reads them. *)
Definition descriptors (r : proc) (n : nat) : list Z := map (λ i, nth i (ofile r) 0) (seq 0 n).

(** The first [n] entries of [ofs] are those [gs] of the duplicated files, or
    what [mine] held where [theirs] has no open file; the others are those of [mine]. *)
Definition dupped (n : nat) (theirs gs mine ofs : list Z) : Prop :=
  length ofs = length mine ∧
  ∀ i, (i < length mine)%nat →
    ofs !! i = if (n <=? i)%nat || (nth i theirs 0 =? 0) then mine !! i else gs !! i.

Lemma descriptors_S r n : descriptors r (S n) = descriptors r n ++ [nth n (ofile r) 0].
Proof. unfold descriptors. by rewrite seq_S, map_app. Qed.

Lemma dupped_S i theirs gs mine ofs f' :
  dupped i theirs gs mine ofs → length gs = i →
  dupped (S i) theirs (gs ++ [f']) mine (if nth i theirs 0 =? 0 then ofs else <[i := f']> ofs).
Proof.
  intros [Hlen H] Hgs. split; [destruct (nth i theirs 0 =? 0); rewrite ?length_insert; done|].
  intros j Hj. specialize (H j Hj). destruct (decide (j = i)) as [->|Hne].
  - rewrite Nat.leb_refl in H. rewrite (proj2 (Nat.leb_gt (S i) i)) by lia. cbn [orb] in *.
    destruct (nth i theirs 0 =? 0); [done|].
    rewrite list_lookup_insert_eq by lia. by rewrite lookup_app_r, Hgs, Nat.sub_diag by lia.
  - assert (E : (if nth i theirs 0 =? 0 then ofs else <[i := f']> ofs) !! j = ofs !! j).
    { destruct (nth i theirs 0 =? 0); [done|]. by rewrite list_lookup_insert_ne. }
    rewrite E, H. destruct (Nat.leb_spec i j), (Nat.leb_spec (S i) j); try lia; cbn [orb]; try done.
    destruct (nth j theirs 0 =? 0); [done|]. by rewrite lookup_app_l by lia.
Qed.

Lemma filedups_length fs k gs k' : filedups fs k = Ok gs k' → length gs = length fs.
Proof.
  revert k gs. induction fs as [|f fs IH]; intros k gs; cbn -[Z.eqb]; [by intros [= <- _]|].
  unfold mbind, M_mbind, M_bind. destruct ((if f =? 0 then mret 0 else filedup f) k) as [g' k1| | |]; try done.
  destruct (filedups fs k1) as [gs' k2| | |] eqn:Es; try done. intros [= <- <-]. cbn. by rewrite (IH _ _ Es).
Qed.

Lemma wp_dup_files t0 s A p np r (Q : unit → kstate → Prop) :
  mv t0 (pt s) A np r → p ≠ np →
  (∀ t' k' gs ofs, mv t0 t' A np (set_ofile ofs r) →
     filedups (descriptors (procs t0 p) NOFILE) (ext s) = Ok gs k' →
     dupped NOFILE (ofile (procs t0 p)) gs (ofile r) ofs →
     Q tt (put_ext k' (put_pt t' s))) →
  wp (dup_files p np) Q s.
Proof.
  intros Hm Hne HQ. unfold dup_files. apply wp_bind.
  apply (wp_count_for (λ i s1, ∃ t' k' gs ofs, s1 = put_ext k' (put_pt t' s) ∧
    mv t0 t' A np (set_ofile ofs r) ∧ filedups (descriptors (procs t0 p) i) (ext s) = Ok gs k' ∧
    dupped i (ofile (procs t0 p)) gs (ofile r) ofs)).
  - exists (pt s), (ext s), [], (ofile r). split; [by destruct s|]. split; [by destruct r|]. by split.
  - intros i ? _ (t' & k' & gs & ofs & -> & Hm' & Hd & Hof). ksteps.
    rewrite (mv_other _ _ _ _ _ _ (λ r, nth i (ofile r) 0) Hm' Hne) by done.
    assert (Hl : length gs = i).
    { rewrite (filedups_length _ _ _ _ Hd). unfold descriptors. by rewrite length_map, length_seq. }
    assert (HS : ∀ f' k2, (if nth i (ofile (procs t0 p)) 0 =? 0 then mret 0
                            else filedup (nth i (ofile (procs t0 p)) 0)) k' = Ok f' k2 →
              filedups (descriptors (procs t0 p) (S i)) (ext s) = Ok (gs ++ [f']) k2).
    { intros f' k2 E. rewrite descriptors_S. by eapply filedups_snoc. }
    pose proof (λ f', dupped_S _ _ _ _ _ f' Hof Hl) as HD.
    destruct (Z.eqb_spec (nth i (ofile (procs t0 p)) 0) 0) as [E|E]; ksteps.
    + exists t', k', (gs ++ [0]), ofs. split; [done|]. split; [done|]. split; [by apply HS|apply HD].
    + apply wp_service_eq; [apply ok_filedup|]. intros f' k2 Ef. ksteps.
      apply (mv_upd _ _ _ _ _ (λ r, set_ofile (<[i := f']> (ofile r)) r)) in Hm'; [|done].
      eexists _, k2, (gs ++ [f']), (<[i := f']> ofs). split; [done|]. split; [exact Hm'|].
      split; [by apply HS|apply HD].
  - intros ? (t' & k' & gs & ofs & -> & Hm' & Hd & Hof). ksteps. by eapply HQ.
Qed.

(** The record of the child of process [p] (record [rp]). *)
Definition child_of (p : nat) (rp : proc) (npg : Z) (ofs : list Z) (d : Z) (nm : list Z) (r : proc) : proc :=
  set_state RUNNABLE (set_priority (priority rp) (set_gid (gid rp) (set_uid (uid rp)
    (set_name nm (set_cwd d (set_ofile ofs (set_tf (set_eax 0 (tf rp)) (set_parent (Some p)
    (set_sz (sz rp) (set_pgdir npg r)))))))))).

Definition fork_post (c : nat) s A (p np : nat) (x : Z) (s' : kstate) : Prop :=
  let rp := procs (pt s) p in let r := procs (pt s) np in
  unheld c (ls s') ∧ lframe c (ls s) (ls s') ∧ kframe s s' ∧
  (∀ q, q ≠ np → is_proc (pt s') q (procs (pt s) q)) ∧
  ((x = -1 ∧ tinv (pt s') (move Embryo Free np A) ∧
    is_proc (pt s') np (set_state UNUSED (set_kstack 0 (set_pgdir 0 r))) ∧
    ∃ k1, copyuvm (pgdir rp) (sz rp) (ext s) = Ok None k1 ∧ kfree (kstack r) k1 = Ok tt (ext s')) ∨
   (x = i32 (pid r) ∧ tinv (pt s') (move Embryo (Ready (Z.to_nat (priority rp))) np A) ∧
    ∃ npg gs ofs d nm k1 k2, is_proc (pt s') np (child_of p rp npg ofs d nm r) ∧
      copyuvm (pgdir rp) (sz rp) (ext s) = Ok (Some npg) k1 ∧
      filedups (descriptors rp NOFILE) k1 = Ok gs k2 ∧ idup (cwd rp) k2 = Ok d (ext s') ∧
      dupped NOFILE (ofile rp) gs (ofile r) ofs ∧ CString.cstr nm = take 15 (CString.cstr (name rp)) ∧
      length nm = length (name r))).

Lemma wp_lift_opt {B} (o : option B) (b : B) (Q : B → kstate → Prop) s :
  o = Some b → Q b s → wp (lift_opt o) Q s.
Proof. by intros ->. Qed.

Lemma wp_fork_rest c s A p np (Q : Z → kstate → Prop) :
  unheld c (ls s) → cur c s = Some p → tinv (pt s) A → p ∈ A Running → np ∈ A Embryo →
  name_ok (procs (pt s) p) → name_ok (procs (pt s) np) →
  (∀ x s', fork_post c s A p np x s' → Q x s') → wp (fork_rest c np) Q s.
Proof.
  intros Hu Hc H Hp Hnp Hnm Hnm' HQ. pose proof (ti_reps _ _ H) as Hr.
  assert (Hne : p ≠ np) by (intros ->; by pose proof (reps_disj _ _ Hr _ _ _ Hp Hnp)).
  pose proof (ti_good _ _ H _ _ Hnp) as [Hst _ _].
  pose proof (ti_good _ _ H _ _ Hp) as [_ Hpr _]. specialize (Hpr ltac:(done)).
  pose proof (mv_start _ _ np H (reps_lt _ _ Hr _ _ Hnp)) as Hm.
  unfold fork_rest. apply wp_bind, (wp_myproc c p); [done|]. ksteps.
  apply wp_service_eq; [apply ok_copyuvm|]. intros [npg|] k1 Ecp; ksteps.
  - rewrite !(procs_updt_ne np p) by done. mv_upds Hm.
    eapply (wp_dup_files (pt s)); [exact Hm|done|]. clear Hm. intros t1 k2 gs ofs Hm Hgs Hof.
    pose proof (mv_other _ _ _ _ _ _ uid Hm Hne ltac:(done)) as Eu.
    pose proof (mv_other _ _ _ _ _ _ gid Hm Hne ltac:(done)) as Eg.
    pose proof (mv_fld _ _ _ _ _ pid Hm ltac:(done)) as Ep. ksteps.
    pose proof (mv_other _ _ _ _ _ _ cwd Hm Hne ltac:(done)) as Ecwd.
    apply wp_service_eq; [apply ok_idup|]. intros d k3 Ed. ksteps. mv_upds Hm.
    rewrite (mv_other _ _ _ _ _ _ name Hm Hne) by done.
    rewrite (mv_fld _ _ _ _ _ name Hm) by done.
    destruct Hnm as [Hl [z Hz]], Hnm' as [Hl' _].
    destruct (CString.safestrcpy_spec (name (procs (pt s) np)) (name (procs (pt s) p)) 16 z Hz)
      as (nm & Enm & Hlen & Hcs & _); [lia|].
    eapply wp_lift_opt; [exact Enm|]. ksteps. rewrite !(procs_updt_ne np p) by done.
    rewrite Eu, Eg. mv_upds Hm.
    apply wp_acq; [done|]. intros l1 Hh1 Hf1 _. ksteps.
    rewrite !(procs_updt_eq np). cbn [pid set_name set_cwd]. rewrite Ep.
    apply wp_onT. eapply wp_mv_take; [exact Hm|done|]. clear Hm. intros t2 Hm. ksteps.
    apply wp_onT. eapply wp_mv_assert; [exact Hm|done|]. ksteps.
    rewrite !(procs_updt_ne np p) by done. rewrite (mv_other _ _ _ _ _ _ priority Hm Hne) by done. mv_upds Hm.
    rewrite (mv_fld _ _ _ _ _ priority Hm) by done.
    apply wp_ready_idx; [done|]. apply wp_bind, wp_onT.
    eapply wp_mv_give; [exact Hm| |cbn; lia|].
    { intros L'. by eapply taken. }
    clear Hm. intros t3 Hm. ksteps. mv_upds Hm.
    apply wp_rel; [done|]. intros l2 Hu2 Hf2 _. ksteps. apply HQ.
    split; [done|]. split; [by eapply lframe_trans|]. split; [done|]. split; [apply Hm|]. right.
    split; [done|]. split.
    + eapply mv_close; [exact Hm|apply given|]. split; [done|]. split; [done|].
      intros i [= Hi]. cbn. lia.
    + exists npg, gs, ofs, d, nm, k1, k2. split; [apply Hm|]. split; [exact Ecp|].
      split; [exact Hgs|]. split; [by rewrite <-Ecwd|]. done.
  - mv_upds Hm. rewrite (mv_fld _ _ _ _ _ kstack Hm) by done.
    apply wp_service_eq; [apply ok_kfree|]. intros [] k2 Ekf. ksteps. mv_upds Hm.
    apply wp_acq; [done|]. intros l1 Hh1 Hf1 _. ksteps.
    apply wp_onT. eapply wp_mv_take; [exact Hm|done|]. clear Hm. intros t2 Hm. ksteps.
    apply wp_onT. eapply wp_mv_assert; [exact Hm|done|]. ksteps. mv_upds Hm.
    apply wp_onT. eapply wp_mv_give; [exact Hm| |done|].
    { intros L'. by eapply taken. }
    clear Hm. intros t3 Hm. ksteps. mv_upds Hm.
    apply wp_rel; [done|]. intros l2 Hu2 Hf2 _. ksteps. apply HQ.
    split; [done|]. split; [by eapply lframe_trans|]. split; [done|]. split; [apply Hm|]. left.
    split; [done|]. split; [|split; [apply Hm|exists k1; split; [exact Ecp|exact Ekf]]].
    eapply mv_close; [exact Hm|apply given|]. done.
Qed.

(** fork as a whole. Without a free slot it fails. Otherwise it allocates a
    kernel stack and copies the caller's address space: it fails when either is
    refused, and then every process but the free slot it tried is as before and
    a kernel stack it got is given back. When both are granted, the head of the
    free list becomes a child of the caller, ready at its priority, with the
    copied page directory, what filedup and idup returned for the caller's open
    files and directory, and the caller's size, registers, name and ids. *)
Definition fork_all_post (c : nat) s A (p : nat) (x : Z) (s' : kstate) : Prop :=
  let rp := procs (pt s) p in
  unheld c (ls s') ∧ lframe c (ls s) (ls s') ∧
  match A Free with
  | [] => x = -1 ∧ tinv (pt s') A ∧ (∀ q, is_proc (pt s') q (procs (pt s) q)) ∧ ext s' = ext s
  | np :: _ =>
      nextpid s' = i32 (nextpid s + 1) ∧
      (∀ q, q ≠ np → is_proc (pt s') q (procs (pt s) q)) ∧
      ((x = -1 ∧ tinv (pt s') (move Free Free np A) ∧
        (kalloc (ext s) = Ok None (ext s') ∨
         ∃ ks k0 k1, kalloc (ext s) = Ok (Some ks) k0 ∧ copyuvm (pgdir rp) (sz rp) k0 = Ok None k1 ∧
           kfree ks k1 = Ok tt (ext s'))) ∨
       (x = i32 (u32 (nextpid s)) ∧
        tinv (pt s') (move Free (Ready (Z.to_nat (priority rp))) np A) ∧
        ∃ ks npg gs ofs d nm k0 k1 k2,
          is_proc (pt s') np (child_of p rp npg ofs d nm
            (fresh (nextpid s) (ticks s) ks (procs (pt s) np))) ∧
          kalloc (ext s) = Ok (Some ks) k0 ∧ copyuvm (pgdir rp) (sz rp) k0 = Ok (Some npg) k1 ∧
          filedups (descriptors rp NOFILE) k1 = Ok gs k2 ∧ idup (cwd rp) k2 = Ok d (ext s') ∧
          dupped NOFILE (ofile rp) gs (ofile (procs (pt s) np)) ofs ∧
          CString.cstr nm = take 15 (CString.cstr (name rp)) ∧ length nm = 16%nat))
  end.

Lemma is_proc_fld {B} t q r (f : proc → B) :
  is_proc t q r → (∀ n r, f (set_next n r) = f r) → f (procs t q) = f r.
Proof. intros E Hf. rewrite E. apply Hf. Qed.

Lemma is_proc_upd t1 t2 q r (f : proc → proc) :
  is_proc t2 q (f (procs t1 q)) → (∀ n r, f (set_next n r) = set_next n (f r)) →
  is_proc t1 q r → is_proc t2 q (f r).
Proof. unfold is_proc. intros E2 Hf E1. rewrite E1, Hf in E2. exact E2. Qed.

Lemma child_of_next p rp npg ofs d nm n r :
  child_of p rp npg ofs d nm (set_next n r) = set_next n (child_of p rp npg ofs d nm r).
Proof. done. Qed.

Lemma wp_fork c s A p (Q : Z → kstate → Prop) :
  unheld c (ls s) → cur c s = Some p → tinv (pt s) A → p ∈ A Running →
  (∀ q, (q < NPROC)%nat → name_ok (procs (pt s) q)) →
  (∀ x s', fork_all_post c s A p x s' → Q x s') → wp (fork c) Q s.
Proof.
  intros Hu Hc H Hp Hnm HQ. unfold fork. pose proof (ti_reps _ _ H) as Hr.
  apply wp_bind. eapply wp_allocproc; [done..|].
  intros o s1 (Hu1 & Hf1 & Ht1 & _ & _ & _ & Hpost). unfold fork_all_post in HQ.
  destruct (A Free) as [|np l] eqn:EF.
  { destruct Hpost as (-> & _ & H1 & Hq & Ex). ksteps. apply HQ. done. }
  assert (Hnp : np ∈ A Free) by (rewrite EF; set_solver).
  assert (Hne : p ≠ np) by (intros ->; by pose proof (reps_disj _ _ Hr _ _ _ Hp Hnp)).
  assert (HnE : np ∉ A Embryo) by (intros HE; by pose proof (reps_disj _ _ Hr _ _ _ HE Hnp)).
  destruct Hpost as (Hn1 & Hq1 & Ho). destruct o as [p'|].
  - destruct Ho as (-> & H1 & ks & Hks & Eka).
    pose proof (Hnm _ (reps_lt _ _ Hr _ _ Hnp)) as Hn'. pose proof (Hnm _ (reps_lt _ _ Hr _ _ Hp)) as Hn.
    eapply (wp_fork_rest _ _ (move Free Embryo np A) p); [done| |done| |apply given| | |].
    + unfold cur. by rewrite (proj1 Hf1).
    + by rewrite move_other.
    + unfold name_ok. rewrite (is_proc_fld _ _ _ name (Hq1 p Hne)) by done. done.
    + unfold name_ok. rewrite (is_proc_fld _ _ _ name Hks) by done. done.
    + intros x s2 (Hu2 & Hf2 & (_ & Hk2 & _) & Hq2 & Hx). apply HQ. split; [done|].
      split; [by eapply lframe_trans|]. split; [by rewrite Hk2|]. split.
      { intros q Hq. eapply is_proc_trans; [by apply Hq2|]. by apply Hq1. }
      assert (Ef : ∀ B (f : proc → B), (∀ n r, f (set_next n r) = f r) →
            f (procs (pt s1) p) = f (procs (pt s) p)) by (intros; by apply is_proc_fld; [apply Hq1|]).
      rewrite (is_proc_fld _ _ _ pid Hks), (is_proc_fld _ _ _ kstack Hks),
        (is_proc_fld _ _ _ ofile Hks), (is_proc_fld _ _ _ name Hks) in Hx by done.
      unfold descriptors in *.
      rewrite (Ef _ pgdir), (Ef _ sz), (Ef _ name), (Ef _ ofile), (Ef _ cwd), (Ef _ priority) in Hx by done.
      destruct Hx as [(-> & H2 & _ & k1 & Ecp & Ekf)
        |(-> & H2 & npg & gs & ofs & d & nm & k1 & k2 & Hch & Ecp & Hgs & Ed & Hof & Hcs & Hl)].
      * left. split; [done|]. split; [eapply tinv_ext; [|exact H2]; intros L; by apply move_move|].
        right. by exists ks, (ext s1), k1.
      * right. split; [done|]. split.
        { eapply tinv_ext; [|exact H2]. intros L. by apply move_move. }
        exists ks, npg, gs, ofs, d, nm, (ext s1), k1, k2. split; [|repeat (split; [done|])].
        -- eapply (is_proc_upd _ _ _ _ (child_of p (procs (pt s) p) npg ofs d nm)); [|done|exact Hks].
           unfold child_of. rewrite <-(Ef _ priority), <-(Ef _ gid), <-(Ef _ uid), <-(Ef _ tf), <-(Ef _ sz) by done.
           exact Hch.
        -- rewrite Hl. apply Hn'.
  - destruct Ho as (Eka & H1 & _). ksteps. apply HQ. repeat (split; [done|]). left. split; [done|].
    split; [eapply tinv_ext; [|exact H1]; intros L; by apply move_move|]. by left.
Qed.

(** ** Scanning a list *)

(** A loop that stops at the first process of list [L] that satisfies [f]. *)
Lemma wp_scan {B} s A L (f : nat → bool) (hit : nat → M kstate B) body (Q : option B → kstate → Prop) :
  tinv (pt s) A → lid_ok L →
  (∀ q, body q s = if f q then (r ← hit q; mret (Some r)) s else Ok None s) →
  match find f (A L) with
  | Some q => wp (hit q) (λ r s', Q (Some r) s') s
  | None => Q None s
  end →
  wp (h ← gets (λ s, head L (pt s)); list_for NPROC kkx body h) Q s.
Proof.
  intros H HL Hb HQ. pose proof (ti_reps _ _ H) as Hr. wp_steps.
  apply (wp_list_for _ _ (λ done todo s1, s1 = s ∧ find f (A L) = find f todo) _ _ [] (A L)).
  - by eapply reps_length.
  - by apply (reps_chain _ _ Hr L).
  - done.
  - intros done q todo ? [_ Hc] [-> E]. unfold wp. rewrite Hb. simpl in E.
    destruct (f q); [|done]. rewrite E in HQ.
    change (wp (r ← hit q; mret (Some r)) (λ r s', match r with
      | Some b => Q (Some b) s'
      | None => chain (kkx s') (kkx s' q) todo ∧ s' = s ∧ find f (A L) = find f todo end) s).
    apply wp_bind. eapply wp_mono; [exact HQ|]. intros r s' Hr'. by wp_steps.
  - intros done ? [-> E]. simpl in E. by rewrite E in HQ.
Qed.

(** The same loop followed by [k]. *)
Lemma wp_scan_k {B C} s A L (f : nat → bool) (hit : nat → M kstate B) body
    (k : option B → M kstate C) (Q : C → kstate → Prop) :
  tinv (pt s) A → lid_ok L →
  (∀ q, body q s = if f q then (r ← hit q; mret (Some r)) s else Ok None s) →
  match find f (A L) with
  | Some q => wp (hit q) (λ r s', wp (k (Some r)) Q s') s
  | None => wp (k None) Q s
  end →
  wp (h ← gets (λ s, head L (pt s)); r ← list_for NPROC kkx body h; k r) Q s.
Proof.
  intros H HL Hb HQ. apply wp_bind, wp_gets, wp_bind.
  exact (wp_scan s A L f hit body (λ r, wp (k r) Q) H HL Hb HQ).
Qed.

(** ** wait *)

Definition is_child s (mypid : Z) (q : nat) : bool := parent_pid q s =? mypid.

(** Is there a living process whose parent has this pid? *)
Definition kids s A (mypid : Z) : bool :=
  existsb (λ i, existsb (is_child s mypid) (A (Ready i))) (seq 0 (MAXPRIO + 1)) ||
  existsb (is_child s mypid) (A Sleep) || existsb (is_child s mypid) (A Running) ||
  existsb (is_child s mypid) (A Embryo).

Lemma find_existsb {B} (f : B → bool) l :
  existsb f l = match find f l with Some _ => true | None => false end.
Proof. induction l as [|a l IH]; simpl; [done|]. destruct (f a); simpl; auto. Qed.

Lemma wp_child_on L mypid s A (Q : bool → kstate → Prop) :
  tinv (pt s) A → lid_ok L → Q (existsb (is_child s mypid) (A L)) s → wp (child_on L mypid) Q s.
Proof.
  intros H HL HQ. unfold child_on.
  apply (wp_scan_k s A L (is_child s mypid) (λ _, mret tt)); [done|done| |].
  - intros q. unfold is_child, mbind, M_mbind, M_bind, gets.
    by destruct (parent_pid q s =? mypid).
  - rewrite find_existsb in HQ. destruct (find _ _); exact HQ.
Qed.

Lemma wp_child_ready n lo mypid s A (Q : bool → kstate → Prop) :
  tinv (pt s) A → (lo + n = S MAXPRIO)%nat →
  Q (existsb (λ i, existsb (is_child s mypid) (A (Ready i))) (seq lo n)) s →
  wp (child_ready n lo mypid) Q s.
Proof.
  intros H. revert lo Q. induction n as [|n IH]; intros lo Q Hn HQ; simpl; [done|].
  apply wp_bind, (wp_child_on _ _ _ A); [done|cbn; lia|].
  apply wp_bind, IH; [lia|]. wp_steps. exact HQ.
Qed.

Lemma wp_any_child mypid s A (Q : bool → kstate → Prop) :
  tinv (pt s) A → Q (kids s A mypid) s → wp (any_child mypid) Q s.
Proof.
  intros H HQ. unfold any_child.
  apply wp_bind, (wp_child_ready _ _ _ _ A); [done|lia|].
  do 3 (apply wp_bind, (wp_child_on _ _ _ A); [done|done|]). wp_steps. exact HQ.
Qed.

(** A reaped slot: its memory is given back and its identity is erased. *)
Definition reaped (r : proc) : proc :=
  set_killed 0 (set_name (<[0%nat := 0]> (name r)) (set_parent None (set_pid 0
    (set_state UNUSED (set_kstack 0 r))))).

Lemma wp_reap c q s A (Q : Z → kstate → Prop) :
  held c (ls s) → tinv (pt s) A → q ∈ A Zombie →
  (∀ s', unheld c (ls s') → lframe c (ls s) (ls s') → kframe s s' →
     tinv (pt s') (move Zombie Free q A) → is_proc (pt s') q (reaped (procs (pt s) q)) →
     (∀ q', q' ≠ q → is_proc (pt s') q' (procs (pt s) q')) →
     Q (i32 (pid (procs (pt s) q))) s') →
  wp (reap c q) Q s.
Proof.
  intros Hh H Hq HQ. pose proof (ti_reps _ _ H) as Hr. unfold reap.
  pose proof (ti_good _ _ H _ _ Hq) as [Hst _ _].
  pose proof (mv_start _ _ q H (reps_lt _ _ Hr _ _ Hq)) as Hm.
  ksteps. apply wp_onT. eapply wp_mv_take; [exact Hm|done|]. clear Hm. intros t1 Hm. ksteps.
  rewrite (mv_fld _ _ _ _ _ pid Hm), (mv_fld _ _ _ _ _ kstack Hm) by done.
  apply wp_service; [apply ok_kfree|]. intros _ k1. ksteps. mv_upds Hm.
  apply wp_onT. eapply wp_mv_assert; [exact Hm|done|]. ksteps. mv_upds Hm.
  apply wp_service; [apply ok_freevm|]. intros _ k2. ksteps. mv_upds Hm.
  apply wp_onT. eapply wp_mv_give; [exact Hm| |done|].
  { intros L'. by eapply taken. }
  clear Hm. intros t2 Hm. ksteps. apply wp_rel; [done|]. intros l2 Hu2 Hf2 _. ksteps.
  apply HQ; try done; [|apply Hm..]. eapply mv_close; [exact Hm|apply given|]. done.
Qed.

(** One pass of wait's loop. *)
Definition wait_pass_post (c : nat) (hk : bool) s A (p : nat) (o : wait_outcome) (s' : kstate) : Prop :=
  let mypid := pid (procs (pt s) p) in
  match find (is_child s mypid) (A Zombie) with
  | Some z =>
      o = WaitRet (i32 (pid (procs (pt s) z))) ∧ unheld c (ls s') ∧ lframe c (ls s) (ls s') ∧
      kframe s s' ∧ tinv (pt s') (move Zombie Free z A) ∧
      is_proc (pt s') z (reaped (procs (pt s) z)) ∧
      (∀ q, q ≠ z → is_proc (pt s') q (procs (pt s) q))
  | None =>
      let go := (hk || kids s A mypid) && (killed (procs (pt s) p) =? 0) in
      if go then o = WaitSleep true ∧ s' = s
      else o = WaitRet (-1) ∧ ∃ l', s' = put_ls l' s ∧ unheld c l' ∧ lframe c (ls s) l'
  end.

Lemma wp_wait_pass c hk s A p (Q : wait_outcome → kstate → Prop) :
  held c (ls s) → cur c s = Some p → tinv (pt s) A →
  (∀ o s', wait_pass_post c hk s A p o s' → Q o s') → wp (wait_pass c hk) Q s.
Proof.
  intros Hh Hc H HQ. unfold wait_pass. apply wp_bind, (wp_myproc c p); [done|].
  apply wp_bind, wp_fld. set (mypid := pid (procs (pt s) p)) in *.
  unfold wait_pass_post in HQ. fold mypid in HQ.
  apply (wp_scan_k s A Zombie (is_child s mypid) (reap c)); [done|done| |].
  { intros q. unfold is_child. unfold mbind at 1, M_mbind at 1, M_bind at 1, gets at 1.
    by destruct (parent_pid q s =? mypid). }
  destruct (find (is_child s mypid) (A Zombie)) as [z|] eqn:Ez.
  - apply find_some in Ez as [Hz%list_elem_of_In _].
    eapply wp_reap; [done..|]. intros s' Hu Hf Hk H' Hz' Hq'. wp_steps. by apply HQ.
  - apply wp_bind, (wp_any_child _ _ A); [done|]. cbv zeta.
    destruct (hk || kids s A mypid); cbn [negb andb] in *.
    + ksteps. destruct (killed (procs (pt s) p) =? 0); cbn [negb].
      * wp_steps. by apply HQ.
      * apply wp_bind, wp_rel; [done|]. intros l' Hu Hf _. wp_steps. apply HQ. eauto.
    + apply wp_bind, wp_rel; [done|]. intros l' Hu Hf _. wp_steps. apply HQ. eauto.
Qed.

Definition same_procs (t t' : ptable) : Prop := ∀ q, is_proc t' q (procs t q).

Definition wait_post (c : nat) s A (p : nat) (o : wait_outcome) (s' : kstate) : Prop :=
  let r := procs (pt s) p in
  unheld c (ls s') ∧ kframe s s' ∧
  match find (is_child s (pid r)) (A Zombie) with
  | Some z =>
      o = WaitRet (i32 (pid (procs (pt s) z))) ∧ lframe c (ls s) (ls s') ∧
      tinv (pt s') (move Zombie Free z A) ∧ is_proc (pt s') z (reaped (procs (pt s) z)) ∧
      (∀ q, q ≠ z → is_proc (pt s') q (procs (pt s) q))
  | None =>
      if kids s A (pid r) && (killed r =? 0) then
        o = WaitSleep true ∧ setcpu c None (ls s) (ls s') ∧
        tinv (pt s') (move Running Sleep p A) ∧
        is_proc (pt s') p (slept (ticks s) (Spinlock.fl_if (Spinlock.cpus (ls s) c))
                             (ProcChan p) (Some PTABLE) r) ∧
        (∀ q, q ≠ p → is_proc (pt s') q (procs (pt s) q))
      else o = WaitRet (-1) ∧ lframe c (ls s) (ls s') ∧ pt s' = pt s
  end.

Lemma sframe_ptable c l l' : sframe c (Some PTABLE) l l' → lframe c l l'.
Proof.
  intros (H1 & H2 & H3 & _). split; [done|]. split; [done|]. intros k Hk. apply H3; [done|].
  by intros [= ->].
Qed.

Lemma is_child_ls l s m q : is_child (put_ls l s) m q = is_child s m q.
Proof. done. Qed.

Lemma wp_wait c s A p (Q : wait_outcome → kstate → Prop) :
  unheld c (ls s) → cur c s = Some p → tinv (pt s) A → p ∈ A Running →
  (∀ o s', wait_post c s A p o s' → Q o s') → wp (wait c) Q s.
Proof.
  intros Hu Hc H Hp HQ. unfold wait. apply wp_bind, wp_acq; [done|]. intros l1 Hh1 Hf1 Hie.
  assert (Hc1 : cur c (put_ls l1 s) = Some p) by (unfold cur; cbn; by rewrite (proj1 Hf1)).
  apply wp_bind. eapply wp_wait_pass; [done..|]. intros o s1 Hpass.
  unfold wait_post in HQ. unfold wait_pass_post in Hpass. cbn [pt put_ls] in Hpass.
  change (kids (put_ls l1 s)) with (kids s) in Hpass.
  change (is_child (put_ls l1 s)) with (is_child s) in Hpass. cbn [orb] in Hpass.
  destruct (find _ (A Zombie)) as [z|].
  { destruct Hpass as (-> & Hu1 & Hf' & Hk1 & H1 & Hz & Hq). cbn in Hf'. wp_steps. apply HQ.
    repeat (split; [done|]). split; [by eapply lframe_trans|]. done. }
  destruct (kids s A (pid (procs (pt s) p)) && (killed (procs (pt s) p) =? 0)).
  - destruct Hpass as [-> ->]. unfold wait_block. wp_steps. rewrite Hc1. cbn [chan_of].
    eapply wp_sleep; [exact Hh1|done|done|done|apply ok_switchkvm|].
    intros s' l2 H' Hp' Hq' Hu' Hs' Hsc Hk'. wp_steps. apply HQ. split; [done|]. split; [done|].
    split; [done|]. split; [eapply lframe_setcpu; [|exact Hsc]; eapply lframe_trans; [done|];
      by apply sframe_ptable|]. split; [done|]. split; [|done].
    cbn in Hp'. by rewrite Hie in Hp'.
  - destruct Hpass as (-> & l' & -> & Hu' & Hf'). wp_steps. apply HQ.
    repeat (split; [done|]). split; [|done]. by eapply lframe_trans.
Qed.

End life.
End ProcLife.
