(* ===== verification/ProcCtl.v ===== *)
(** * Signalling, priorities and exit (proc.c: kill, setpriority, exit) *)

From S2P Require Import Prelude Spinlock ProcTable CString Proc ProcInv ProcSpec ProcLife.
Local Open Scope Z_scope.

Module ProcCtl.
Import ProcTable Proc ProcInv ProcSpec ProcLife.

Section ctl.
Context `{mode : Mode} `{cfg : Config} `{sv : Services} `{svok : !ServicesOk sv}.
Implicit Types s : kstate.
Implicit Types A : lid → list nat.

(** ** Searching several lists for a pid *)

Definition pid_is s (x : Z) (q : nat) : bool := pid (procs (pt s) q) =? x.

(** The first process with pid [x] on the lists [Ls], and its list. *)
Fixpoint target s A (x : Z) (Ls : list lid) : option (lid * nat) :=
  match Ls with
  | [] => None
  | L :: Ls =>
      match find (pid_is s x) (A L) with
      | Some q => Some (L, q)
      | None => target s A x Ls
      end
  end.

Definition ready_from (n lo : nat) : list lid := map Ready (seq lo n).
Definition all_ready : list lid := ready_from (MAXPRIO + 1) 0.

Lemma target_elem s A x Ls L q :
  target s A x Ls = Some (L, q) → L ∈ Ls ∧ q ∈ A L ∧ pid (procs (pt s) q) = x.
Proof.
  induction Ls as [|L' Ls IH]; simpl; [done|].
  destruct (find _ (A L')) as [q'|] eqn:E.
  - intros [= -> ->]. apply find_some in E as [Hin Hx]. split; [set_solver|].
    split; [by apply list_elem_of_In|]. by apply Z.eqb_eq.
  - intros H. destruct (IH H) as (? & ? & ?). set_solver.
Qed.

(** No process of the lists has the pid when there is no target. *)
Lemma target_none s A x Ls :
  target s A x Ls = None → ∀ L q, L ∈ Ls → q ∈ A L → pid (procs (pt s) q) ≠ x.
Proof.
  induction Ls as [|L' Ls IH]; simpl; [set_solver|].
  destruct (find _ (A L')) as [q'|] eqn:E; [done|]. intros H L q [->|HL]%elem_of_cons Hq.
  - intros Hx. pose proof (find_none _ _ E q) as Hn. unfold pid_is in Hn.
    rewrite Hx, Z.eqb_refl in Hn. specialize (Hn ltac:(by apply list_elem_of_In)). done.
  - by apply (IH H L).
Qed.

Lemma target_app s A x Ls1 Ls2 :
  target s A x (Ls1 ++ Ls2) =
  match target s A x Ls1 with Some r => Some r | None => target s A x Ls2 end.
Proof. induction Ls1 as [|L Ls1 IH]; simpl; [done|]. destruct (find _ _); auto. Qed.

Lemma target_ls l s A x Ls : target (put_ls l s) A x Ls = target s A x Ls.
Proof. induction Ls as [|L Ls IH]; simpl; [done|]. by rewrite IH. Qed.

(** Running the search: the first hit ends it. *)
Definition hits {B} s A (x : Z) (Ls : list lid) (hit : lid → nat → M kstate B)
    (Q : option B → kstate → Prop) : Prop :=
  match target s A x Ls with
  | Some (L, q) => wp (hit L q) (λ r s', Q (Some r) s') s
  | None => Q None s
  end.

Lemma wp_find_pid {B} s A L x (hit : nat → M kstate B) (hit' : lid → nat → M kstate B) Q :
  tinv (pt s) A → lid_ok L → (∀ q, hit' L q = hit q) →
  hits s A x [L] hit' Q → wp (find_pid L x hit) Q s.
Proof.
  intros H HL Eh HQ. unfold find_pid, hits in *. simpl in HQ.
  apply (wp_scan s A L (pid_is s x) hit); [done|done| |].
  - intros q. unfold pid_is, fld. unfold mbind at 1, M_mbind at 1, M_bind at 1, gets at 1.
    by destruct (pid (procs (pt s) q) =? x).
  - destruct (find _ _) as [q|]; [|done]. by rewrite <-Eh.
Qed.

Lemma wp_or_else {B} (m1 m2 : M kstate (option B)) Q s :
  wp m1 (λ r s', match r with Some b => Q (Some b) s' | None => wp m2 Q s' end) s →
  wp (or_else m1 m2) Q s.
Proof.
  intros H. unfold or_else. apply wp_bind. eapply wp_mono; [exact H|].
  intros [b|] s'; [by intros; wp_steps|done].
Qed.

(** One list, and then the rest. *)
Lemma hits_cons {B} s A x Ls1 Ls2 (hit : lid → nat → M kstate B) (m2 : M kstate (option B)) Q :
  (hits s A x Ls2 hit Q → wp m2 Q s) → hits s A x (Ls1 ++ Ls2) hit Q →
  hits s A x Ls1 hit (λ r s', match r with Some b => Q (Some b) s' | None => wp m2 Q s' end).
Proof.
  unfold hits. rewrite target_app. intros Hm. by destruct (target s A x Ls1) as [[L q]|]; auto.
Qed.

Lemma wp_find_pid_ready_from {B} n lo s A x (hit : nat → nat → M kstate B)
    (hit' : lid → nat → M kstate B) Q :
  tinv (pt s) A → (lo + n = S MAXPRIO)%nat → (∀ i q, hit' (Ready i) q = hit i q) →
  hits s A x (ready_from n lo) hit' Q →
  wp (count_for n lo (λ i, find_pid (Ready i) x (hit i))) Q s.
Proof.
  intros H Hn Eh. revert lo Hn. induction n as [|n IH]; intros lo Hn HQ; [done|].
  change (wp (or_else (find_pid (Ready lo) x (hit lo))
    (count_for n (S lo) (λ i, find_pid (Ready i) x (hit i)))) Q s).
  apply wp_or_else. eapply (wp_find_pid _ A _ _ _ hit'); [done|cbn; lia|done|].
  eapply (hits_cons _ _ _ [Ready lo] (ready_from n (S lo))); [|exact HQ].
  intros. apply IH; [lia|done].
Qed.

(** ** kill *)

Definition kill_order : list lid := [Running; Sleep] ++ all_ready ++ [Zombie; Embryo].

(** What kill does to the process it finds on list [L]: the process is marked,
    and a sleeper is also made ready, on list 0. *)
Definition kill_lists (L : lid) (q : nat) A : lid → list nat :=
  if decide (L = Sleep) then move Sleep (Ready 0) q A else A.
Definition victim (L : lid) (r : proc) : proc :=
  if decide (L = Sleep) then set_state RUNNABLE (set_killed 1 r) else set_killed 1 r.

Definition kill_hit (c : nat) (L : lid) (q : nat) : M kstate Z :=
  if decide (L = Sleep) then kill_sleeper c q else kill_mark c q.

Definition kill_post (c : nat) s A (x : Z) (res : Z) (s' : kstate) : Prop :=
  unheld c (ls s') ∧ lframe c (ls s) (ls s') ∧ kframe s s' ∧ ext s' = ext s ∧
  match target s A (u32 x) kill_order with
  | Some (L, q) =>
      res = 0 ∧ tinv (pt s') (kill_lists L q A) ∧
      is_proc (pt s') q (victim L (procs (pt s) q)) ∧
      (∀ q', q' ≠ q → is_proc (pt s') q' (procs (pt s) q'))
  | None => res = -1 ∧ pt s' = pt s
  end.

Lemma wp_kill_hit c s A L q (Q : Z → kstate → Prop) :
  held c (ls s) → tinv (pt s) A → q ∈ A L → 
  (∀ s', unheld c (ls s') → lframe c (ls s) (ls s') → kframe s s' → ext s' = ext s →
     tinv (pt s') (kill_lists L q A) → is_proc (pt s') q (victim L (procs (pt s) q)) →
     (∀ q', q' ≠ q → is_proc (pt s') q' (procs (pt s) q')) → Q 0 s') →
  wp (kill_hit c L q) Q s.
Proof.
  intros Hh H Hq HQ. pose proof (ti_reps _ _ H) as Hr.
  pose proof (ti_good _ _ H _ _ Hq) as Hg.
  pose proof (mv_start _ _ q H (reps_lt _ _ Hr _ _ Hq)) as Hm.
  unfold kill_hit, kill_lists, victim in *. destruct (decide (L = Sleep)) as [->|HL].
  - unfold kill_sleeper. ksteps. mv_upds Hm. destruct Hg as [Hst Hpr _]. specialize (Hpr ltac:(done)).
    apply wp_onT. eapply wp_mv_take; [exact Hm|done|]. clear Hm. intros t1 Hm. ksteps.
    apply wp_onT. eapply wp_mv_assert; [exact Hm|done|]. ksteps. mv_upds Hm.
    apply wp_onT. eapply wp_mv_give; [exact Hm| |cbn; lia|].
    { intros L'. by eapply taken. }
    clear Hm. intros t2 Hm. ksteps. apply wp_rel; [done|]. intros l' Hu Hf _. ksteps.
    apply HQ; try done; [|apply Hm..]. eapply mv_close; [exact Hm|apply given|]. done.
  - unfold kill_mark. ksteps. mv_upds Hm. apply wp_rel; [done|]. intros l' Hu Hf _. ksteps.
    apply HQ; try done; [|apply Hm..]. eapply mv_close; [exact Hm|exact Hq|].
    apply (goodr_good _ L _ _ (is_proc_refl (pt s) q)) in Hg. done.
Qed.

Lemma wp_kill_search c s A x Q :
  tinv (pt s) A → hits s A x kill_order (kill_hit c) Q →
  wp (or_else (find_pid Running x (kill_mark c))
     (or_else (find_pid Sleep x (kill_sleeper c))
     (or_else (find_pid_ready x (λ _, kill_mark c))
     (or_else (find_pid Zombie x (kill_mark c))
              (find_pid Embryo x (kill_mark c)))))) Q s.
Proof.
  intros H Hhits.
  unfold kill_order in Hhits.
  apply wp_or_else, (wp_find_pid _ A _ _ _ (kill_hit c)); [done..|].
  eapply (hits_cons _ _ _ [Running]); [|exact Hhits]. clear Hhits. intros Hhits.
  apply wp_or_else, (wp_find_pid _ A _ _ _ (kill_hit c)); [done..|].
  eapply (hits_cons _ _ _ [Sleep]); [|exact Hhits]. clear Hhits. intros Hhits.
  apply wp_or_else. unfold find_pid_ready.
  eapply (wp_find_pid_ready_from _ _ _ A _ (λ _, kill_mark c) (kill_hit c)); [done|lia|done|].
  eapply hits_cons; [|exact Hhits]. clear Hhits. intros Hhits.
  apply wp_or_else, (wp_find_pid _ A _ _ _ (kill_hit c)); [done..|].
  eapply (hits_cons _ _ _ [Zombie]); [|exact Hhits]. clear Hhits. intros Hhits.
  by apply (wp_find_pid _ A _ _ _ (kill_hit c)).
Qed.

Lemma wp_kill c x s A (Q : Z → kstate → Prop) :
  unheld c (ls s) → tinv (pt s) A →
  (∀ res s', kill_post c s A x res s' → Q res s') → wp (kill c x) Q s.
Proof.
  intros Hu H HQ. unfold kill. apply wp_bind, wp_acq; [done|]. intros l1 Hh Hf _. cbv zeta.
  set (s1 := put_ls l1 s). assert (H1 : tinv (pt s1) A) by done. apply wp_bind.
  assert (Hhits : hits s1 A (u32 x) kill_order (kill_hit c) (λ r s', wp (match r with
      | Some r => mret r | None => release c PTABLE;; mret (-1) end) Q s')).
  { unfold hits, s1. rewrite target_ls. unfold kill_post in HQ.
    destruct (target s A (u32 x) kill_order) as [[L q]|] eqn:E.
    - apply target_elem in E as (_ & Hq & _). eapply wp_kill_hit; [done|done|done|].
      intros s' Hu' Hf' Hk' He' H' Hv Hq'. wp_steps. apply HQ. split; [done|].
      split; [by eapply lframe_trans|]. done.
    - apply wp_bind, wp_rel; [done|]. intros l2 Hu2 Hf2 _. wp_steps. apply HQ. split; [done|].
      split; [by eapply lframe_trans|]. done. }
  by eapply wp_kill_search.
Qed.

(** ** setpriority *)

Definition setprio_order : list lid := [Running] ++ all_ready ++ [Sleep].

Definition setprio_hit (c : nat) (prio : Z) (L : lid) (q : nat) : M kstate Z :=
  match L with
  | Running => setprio_running c prio q
  | Ready i => setprio_ready c prio i q
  | _ => setprio_sleep c prio q
  end.

(** A ready process whose priority changes moves to its new list. *)
Definition setprio_lists (prio : Z) (L : lid) (q : nat) (r : proc) A : lid → list nat :=
  match L with
  | Ready i => if priority r =? prio then A else move (Ready i) (Ready (Z.to_nat prio)) q A
  | _ => A
  end.

Definition reprio (prio : Z) (r : proc) : proc := set_budget BUDGET (set_priority prio r).

Definition setprio_post (c : nat) s A (x prio res : Z) (s' : kstate) : Prop :=
  if (prio <? 0) || (Z.of_nat MAXPRIO <? prio) then res = -1 ∧ s' = s else
  unheld c (ls s') ∧ lframe c (ls s) (ls s') ∧ kframe s s' ∧ ext s' = ext s ∧
  match target s A (u32 x) setprio_order with
  | Some (L, q) =>
      let r := procs (pt s) q in
      res = 0 ∧ tinv (pt s') (setprio_lists prio L q r A) ∧ is_proc (pt s') q (reprio prio r) ∧
      (∀ q', q' ≠ q → is_proc (pt s') q' (procs (pt s) q'))
  | None => res = -1 ∧ pt s' = pt s
  end.

Lemma reprio_same r : set_budget BUDGET r = reprio (priority r) r.
Proof. by destruct r. Qed.

Lemma wp_setprio_hit c prio s A L q (Q : Z → kstate → Prop) :
  held c (ls s) → tinv (pt s) A → q ∈ A L → 0 <= prio <= Z.of_nat MAXPRIO →
  (L = Running → priority (procs (pt s) q) = prio) → L ∈ setprio_order →
  (∀ s', unheld c (ls s') → lframe c (ls s) (ls s') → kframe s s' → ext s' = ext s →
     tinv (pt s') (setprio_lists prio L q (procs (pt s) q) A) →
     is_proc (pt s') q (reprio prio (procs (pt s) q)) →
     (∀ q', q' ≠ q → is_proc (pt s') q' (procs (pt s) q')) → Q 0 s') →
  wp (setprio_hit c prio L q) Q s.
Proof.
  intros Hh H Hq Hprio HR HL HQ. pose proof (ti_reps _ _ H) as Hr.
  pose proof (ti_good _ _ H _ _ Hq) as Hg.
  apply (goodr_good _ L _ _ (is_proc_refl (pt s) q)) in Hg.
  pose proof (mv_start _ _ q H (reps_lt _ _ Hr _ _ Hq)) as Hm. set (r := procs (pt s) q) in *.
  assert (Hsame : priority r = prio → setprio_lists prio L q r A = A →
    wp (upd q (set_budget BUDGET);; release c PTABLE;; mret 0) Q s).
  { intros E EA. ksteps. mv_upds Hm. apply wp_rel; [done|]. intros l' Hu Hf _. ksteps.
    rewrite EA in HQ. apply HQ; try done; [| |apply Hm].
    - eapply mv_close; [exact Hm|exact Hq|exact Hg].
    - rewrite <-E, <-reprio_same. apply Hm. }
  destruct L as [| | | | |i]; cbn [setprio_hit setprio_lists] in *.
  - exfalso. unfold setprio_order, all_ready, ready_from in HL. set_solver.
  - unfold setprio_sleep. ksteps. fold r. destruct (Z.eqb_spec (priority r) prio) as [E|E]; [by apply Hsame|].
    ksteps. mv_upds Hm. apply wp_rel; [done|]. intros l' Hu Hf _. ksteps.
    apply HQ; try done; [|apply Hm..]. eapply mv_close; [exact Hm|exact Hq|].
    destruct Hg as (Hst & _). split; [exact Hst|]. done.
  - exfalso. unfold setprio_order, all_ready, ready_from in HL. set_solver.
  - unfold setprio_running. ksteps. fold r. rewrite (HR eq_refl), Z.eqb_refl. by apply Hsame; [apply HR|].
  - exfalso. unfold setprio_order, all_ready, ready_from in HL. set_solver.
  - unfold setprio_ready. ksteps. fold r. destruct (Z.eqb_spec (priority r) prio) as [E|E].
    { by apply Hsame. }
    ksteps. destruct Hg as (Hst & _).
    apply wp_onT. eapply wp_mv_take; [exact Hm|done|]. clear Hm Hsame. intros t1 Hm. ksteps.
    apply wp_onT. eapply wp_mv_assert; [exact Hm|done|]. ksteps. mv_upds Hm.
    apply wp_ready_idx; [done|]. apply wp_bind, wp_onT.
    eapply wp_mv_give; [exact Hm| |cbn; lia|].
    { intros L'. by eapply taken. }
    clear Hm. intros t2 Hm. ksteps. apply wp_rel; [done|]. intros l' Hu Hf _. ksteps.
    apply HQ; try done; [|apply Hm..]. eapply mv_close; [exact Hm|apply given|].
    split; [exact Hst|]. split; [done|]. intros j [= Hj]. cbn. lia.
Qed.

Lemma wp_setprio_search c prio s A x Q :
  tinv (pt s) A → hits s A x setprio_order (setprio_hit c prio) Q →
  wp (or_else (find_pid Running x (setprio_running c prio))
     (or_else (find_pid_ready x (setprio_ready c prio))
              (find_pid Sleep x (setprio_sleep c prio)))) Q s.
Proof.
  intros H Hhits. unfold setprio_order in Hhits.
  apply wp_or_else, (wp_find_pid _ A _ _ _ (setprio_hit c prio)); [done..|].
  eapply (hits_cons _ _ _ [Running]); [|exact Hhits]. clear Hhits. intros Hhits.
  apply wp_or_else. unfold find_pid_ready.
  eapply (wp_find_pid_ready_from _ _ _ A _ (setprio_ready c prio) (setprio_hit c prio)); [done|lia|done|].
  eapply hits_cons; [|exact Hhits]. clear Hhits. intros Hhits.
  by apply (wp_find_pid _ A _ _ _ (setprio_hit c prio)).
Qed.

Lemma wp_setpriority c x prio s A (Q : Z → kstate → Prop) :
  unheld c (ls s) → tinv (pt s) A →
  (0 <= prio <= Z.of_nat MAXPRIO →
   ∀ q, q ∈ A Running → pid (procs (pt s) q) = u32 x → priority (procs (pt s) q) = prio) →
  (∀ res s', setprio_post c s A x prio res s' → Q res s') → wp (setpriority c x prio) Q s.
Proof.
  intros Hu H HR HQ. unfold setpriority. unfold setprio_post in HQ.
  destruct ((prio <? 0) || (Z.of_nat MAXPRIO <? prio)) eqn:Er; [by wp_steps; apply HQ|].
  apply orb_false_iff in Er as [?%Z.ltb_ge ?%Z.ltb_ge].
  apply wp_bind, wp_acq; [done|]. intros l1 Hh Hf _. cbv zeta. apply wp_bind.
  apply (wp_setprio_search _ _ _ A); [done|]. unfold hits. rewrite target_ls.
  destruct (target s A (u32 x) setprio_order) as [[L q]|] eqn:E.
  - apply target_elem in E as (HL & Hq & Hx). eapply wp_setprio_hit; [done|done|done|lia| |done|].
    { intros ->. by apply HR; [lia|..]. }
    intros s' Hu' Hf' Hk' He' H' Hv Hq'. wp_steps. apply HQ. split; [done|].
    split; [by eapply lframe_trans|]. done.
  - apply wp_bind, wp_rel; [done|]. intros l2 Hu2 Hf2 _. wp_steps. apply HQ. split; [done|].
    split; [by eapply lframe_trans|]. done.
Qed.

End ctl.
End ProcCtl.
