(* ===== verification/ProcExit.v ===== *)
(** * Process exit (proc.c: exit) *)

From S2P Require Import Prelude Spinlock ProcTable CString Proc ProcInv ProcSpec ProcLife.
Local Open Scope Z_scope.

Module ProcExit.
Import ProcTable Proc ProcInv ProcSpec ProcLife.

Section wake.
Context `{cfg : Config}.
Implicit Types A : lid → list nat.

(** [wakeup1] only looks at the sleepers' channels and priorities. *)
Definition same_keys (l : list nat) (t t' : ptable) : Prop :=
  ∀ q, q ∈ l → chan (procs t' q) = chan (procs t q) ∧ priority (procs t' q) = priority (procs t q).

Lemma filter_ext_in {B} (P P' : B → Prop) `{!∀ x, Decision (P x), !∀ x, Decision (P' x)} (l : list B) :
  (∀ x, x ∈ l → P x ↔ P' x) → filter P l = filter P' l.
Proof.
  induction l as [|a l IH]; intros E; [done|]. rewrite !filter_cons, IH by set_solver.
  rewrite (decide_ext (P a) (P' a)) by (apply E; set_solver). done.
Qed.

Lemma wake_lists_ext t t' ch A L :
  same_keys (A Sleep) t t' → wake_lists t' ch A L = wake_lists t ch A L.
Proof.
  intros E. destruct L as [| | | | |i]; try done; cbn.
  - apply filter_ext_in. intros q Hq. by rewrite (proj1 (E q Hq)).
  - f_equal. apply filter_ext_in. intros q Hq. by rewrite (proj1 (E q Hq)), (proj2 (E q Hq)).
Qed.

(** A second wake-up of the same channel finds nobody. *)
Lemma wake_lists_twice t ch A L : wake_lists t ch (wake_lists t ch A) L = wake_lists t ch A L.
Proof.
  destruct L as [| | | | |i]; try done; cbn; rewrite list_filter_filter.
  - apply list_filter_iff. naive_solver.
  - rewrite <-app_assoc. f_equal. rewrite <-(app_nil_r (filter _ (A Sleep))) at 2. f_equal.
    induction (A Sleep) as [|a l IH]; [done|]. rewrite filter_cons_False by naive_solver. done.
Qed.
End wake.

Section exit.
Context `{mode : Mode} `{cfg : Config} `{sv : Services} `{svok : !ServicesOk sv}.
Implicit Types s : kstate.
Implicit Types A : lid → list nat.

(** ** Handing children over to init *)

Definition adopt (i : option nat) (p : nat) (r : proc) : proc :=
  if decide (parent r = Some p) then set_parent i r else r.

Lemma adopt_next i p n r : adopt i p (set_next n r) = set_next n (adopt i p r).
Proof. unfold adopt. cbn. by case_decide. Qed.

(** The record of [q] when the processes [D] have been scanned and, if [hit],
    the sleepers of [l] on channel [ch] woken. *)
Definition after (t : ptable) (i : option nat) (p : nat) (ch : chan_t) (l D : list nat) (hit : bool)
    (q : nat) : proc :=
  let r := if decide (q ∈ D) then adopt i p (procs t q) else procs t q in
  if hit && bool_decide (q ∈ l ∧ chan (procs t q) = ch) then set_state RUNNABLE r else r.

Definition has_child (t : ptable) (p : nat) (l : list nat) : bool :=
  existsb (λ q, bool_decide (parent (procs t q) = Some p)) l.

Definition wake_if (hit : bool) (t : ptable) (ch : chan_t) A : lid → list nat :=
  if hit then wake_lists t ch A else A.

Lemma after_keys t i p ch l D hit q :
  chan (after t i p ch l D hit q) = chan (procs t q) ∧
  priority (after t i p ch l D hit q) = priority (procs t q).
Proof. unfold after, adopt. repeat case_decide; destruct (hit && _); done. Qed.

Lemma is_proc_keys l t t' (f : nat → proc) :
  (∀ q, q ∈ l → is_proc t' q (f q)) →
  (∀ q, q ∈ l → chan (f q) = chan (procs t q) ∧ priority (f q) = priority (procs t q)) →
  same_keys l t t'.
Proof. intros H Hf q Hq. rewrite (H q Hq). by apply Hf. Qed.

Lemma after_step t i p ch l D hit q :
  q ∉ D → parent (procs t q) = Some p →
  set_parent i (after t i p ch l D hit q) = after t i p ch l (D ++ [q]) hit q.
Proof.
  intros Hq Hp. unfold after. rewrite decide_False, decide_True by set_solver.
  unfold adopt. rewrite decide_True by done. by destruct (hit && _).
Qed.

Lemma after_same t i p ch l D hit q q' :
  q' ≠ q ∨ parent (procs t q') ≠ Some p → after t i p ch l (D ++ [q]) hit q' = after t i p ch l D hit q'.
Proof.
  intros H. unfold after, adopt.
  destruct (decide (parent (procs t q') = Some p)) as [Hp|Hp].
  - destruct H as [H|]; [|done].
    rewrite (decide_ext (q' ∈ D ++ [q]) (q' ∈ D)) by set_solver. done.
  - by repeat case_decide.
Qed.

Lemma parent_after t i p ch l D hit q : q ∉ D → parent (after t i p ch l D hit q) = parent (procs t q).
Proof. intros. unfold after. rewrite decide_False by done. by destruct (hit && _). Qed.

Lemma wp_reparent L wake s A p i (Q : unit → kstate → Prop) :
  tinv (pt s) A → lid_ok L → (wake = true → L = Zombie) → i = initproc s →
  (∀ t', let hit := wake && has_child (pt s) p (A L) in
     tinv t' (wake_if hit (pt s) (chan_of i) A) →
     (∀ q, is_proc t' q (after (pt s) i p (chan_of i) (A Sleep) (A L) hit q)) →
     Q tt (put_pt t' s)) →
  wp (reparent L p wake) Q s.
Proof.
  intros H HL Hw -> HQ. pose proof (ti_reps _ _ H) as Hr. set (t := pt s) in *. set (ch := chan_of _) in *.
  unfold reparent. wp_steps.
  eapply (wp_list_for _ _ (λ D todo s1, A L = D ++ todo ∧ ∃ t1, s1 = put_pt t1 s ∧
    let hit := wake && has_child t p D in
    tinv t1 (wake_if hit t ch A) ∧ ∀ q, is_proc t1 q (after t (initproc s) p ch (A Sleep) D hit q))
    _ _ [] (A L)).
  - by eapply reps_length.
  - by apply (reps_chain _ _ Hr).
  - split; [done|]. exists t. split; [by destruct s|]. cbn. rewrite andb_false_r. split; [done|].
    intros q. unfold after. rewrite decide_False by set_solver. apply is_proc_refl.
  - intros D q todo ? [_ Hc] (EA & t1 & -> & H1 & Hp1). cbv zeta in H1, Hp1.
    pose proof (reps_NoDup _ _ L Hr) as Hnd. rewrite EA in Hnd.
    apply NoDup_app in Hnd as (_ & Hdd & _).
    assert (HqD : q ∉ D) by (intros Hin; apply (Hdd q Hin); set_solver).
    set (hit := wake && has_child t p D) in *.
    assert (Ewk : ∀ b, wake_if (wake && b) t ch A L = A L).
    { intros b. destruct wake; [|done]. rewrite (Hw eq_refl). by destruct b. }
    assert (Hchain : ∀ t2 b, tinv t2 (wake_if (wake && b) t ch A) →
      chain (nx t2) (nx t2 q) todo).
    { intros t2 b H2. pose proof (reps_chain _ _ (ti_reps _ _ H2) L HL) as Hc2.
      rewrite Ewk, EA in Hc2. by apply chain_suffix in Hc2 as [_ Hc2]. }
    assert (Epar : parent (procs t1 q) = parent (procs t q)).
    { rewrite (Hp1 q). cbn. by apply parent_after. }
    assert (Eex : has_child t p (D ++ [q]) = has_child t p D || bool_decide (parent (procs t q) = Some p)).
    { unfold has_child. rewrite existsb_app. cbn. by rewrite orb_false_r. }
    ksteps. rewrite Epar. destruct (decide (parent (procs t q) = Some p)) as [Eq|Eq].
    + rewrite bool_decide_true, orb_true_r in Eex by done. ksteps.
      set (t2 := updt q (set_parent (initproc s)) t1).
      assert (H2 : tinv t2 (wake_if hit t ch A)) by (by apply tinv_upd).
      assert (Hp2 : ∀ q', is_proc t2 q' (after t (initproc s) p ch (A Sleep) (D ++ [q]) hit q')).
      { intros q'. unfold is_proc. subst t2. destruct (decide (q' = q)) as [->|Hne].
        - rewrite procs_updt_eq, <-after_step by done. specialize (Hp1 q). unfold is_proc in Hp1.
          rewrite Hp1 at 1. done.
        - rewrite procs_updt_ne, after_same by auto. apply Hp1. }
      destruct wake; wp_steps.
      * apply wp_onT, (wp_wakeup1 _ (wake_if hit t ch A)); [done|]. intros t3 H3 Hp3 _.
        cbn [pt put_pt] in H3, Hp3. fold t2 ch in H3, Hp3. ksteps.
        assert (Hk : ∀ l, same_keys l t t2).
        { intros l. eapply is_proc_keys; [intros; apply Hp2|]. intros; apply after_keys. }
        assert (H3' : tinv t3 (wake_if (true && has_child t p (D ++ [q])) t ch A)).
        { rewrite Eex. cbn. eapply tinv_ext; [|exact H3]. intros L'. rewrite (wake_lists_ext t) by done.
          destruct hit; [apply wake_lists_twice|done]. }
        split; [by eapply Hchain|]. split; [by rewrite <-app_assoc|]. exists t3. split; [done|].
        split; [done|]. intros q'. specialize (Hp3 q'). rewrite Eex. cbn [andb].
        unfold woken_proc in Hp3. rewrite (proj1 (Hk [q'] q' ltac:(set_solver))) in Hp3.
        assert (E3 : is_proc t3 q' (if decide (q' ∈ wake_if hit t ch A Sleep ∧ chan (procs t q') = ch)
           then set_state RUNNABLE (after t (initproc s) p ch (A Sleep) (D ++ [q]) hit q')
           else after t (initproc s) p ch (A Sleep) (D ++ [q]) hit q')).
        { case_decide; [eapply (is_proc_upd _ _ _ _ (set_state RUNNABLE))|eapply is_proc_trans]; eauto. }
        replace (after t (initproc s) p ch (A Sleep) (D ++ [q]) true q') with
          (if decide (q' ∈ wake_if hit t ch A Sleep ∧ chan (procs t q') = ch)
           then set_state RUNNABLE (after t (initproc s) p ch (A Sleep) (D ++ [q]) hit q')
           else after t (initproc s) p ch (A Sleep) (D ++ [q]) hit q'); [done|].
        unfold after. destruct hit; cbn [wake_if andb].
        -- rewrite decide_False; [done|]. intros [Hin Hch]. cbn in Hin.
           apply list_elem_of_filter in Hin as [? _]. done.
        -- destruct (decide (q' ∈ A Sleep ∧ chan (procs t q') = ch)) as [Hd|Hd].
           ++ by rewrite bool_decide_true.
           ++ by rewrite bool_decide_false.
      * split; [by apply (Hchain _ false)|]. split; [by rewrite <-app_assoc|]. exists t2. done.
    + rewrite bool_decide_false, orb_false_r in Eex by done. ksteps.
      split; [by eapply (Hchain _ (has_child t p D))|]. split; [by rewrite <-app_assoc|]. exists t1.
      split; [done|]. rewrite Eex. split; [done|]. intros q'.
      rewrite after_same; [apply Hp1|]. destruct (decide (q' = q)) as [->|]; auto.
  - intros D ? (EA & t1 & -> & H1 & Hp1). wp_steps. rewrite app_nil_r in EA. subst D. by apply HQ.
Qed.

(** The processes of the lists [S] have been handed over; [f] gives the record
    each process had before. *)
Definition handed (t : ptable) A (i : option nat) (p : nat) (S : list lid) (f : nat → proc) : Prop :=
  tinv t A ∧ ∀ L q, q ∈ A L → is_proc t q (if decide (L ∈ S) then adopt i p (f q) else f q).

Lemma wp_hand L s A p i S f (Q : unit → kstate → Prop) :
  handed (pt s) A i p S f → lid_ok L → L ∉ S → i = initproc s →
  (∀ t', handed t' A i p (L :: S) f → Q tt (put_pt t' s)) →
  wp (reparent L p false) Q s.
Proof.
  intros [H Hp] HL HS Hi HQ. eapply wp_reparent; [exact H|done|done|exact Hi|]. cbn [andb].
  intros t' H' Hp'. apply HQ. split; [exact H'|]. intros L' q Hq. specialize (Hp L' q Hq).
  specialize (Hp' q). unfold after in Hp'. cbn [andb] in Hp'.
  destruct (decide (L' = L)) as [->|HLL].
  - rewrite decide_True in Hp' by done. rewrite (decide_False (P := L ∈ S)) in Hp by done.
    rewrite decide_True by set_solver.
    eapply (is_proc_upd _ _ _ _ (adopt i p)); [exact Hp'|apply adopt_next|exact Hp].
  - rewrite decide_False in Hp'.
    + rewrite (decide_ext (L' ∈ L :: S) (L' ∈ S)) by set_solver. by eapply is_proc_trans.
    + intros Hq'. apply HLL. by eapply reps_disj; [apply H| |].
Qed.

Lemma wp_hand_ready n lo s A p i f (Q : option unit → kstate → Prop) :
  handed (pt s) A i p (map Ready (rev (seq 0 lo)) ++ [Running]) f → (lo + n = Datatypes.S MAXPRIO)%nat →
  i = initproc s →
  (∀ t', handed t' A i p (map Ready (rev (seq 0 (lo + n))) ++ [Running]) f → Q None (put_pt t' s)) →
  wp (count_for n lo (λ i, reparent (Ready i) p false;; mret (None : option unit))) Q s.
Proof.
  revert lo s. induction n as [|n IH]; intros lo s H Hn Hi HQ; cbn [count_for].
  - wp_steps. destruct s. rewrite Nat.add_0_r in HQ. by apply HQ.
  - wp_steps. eapply wp_hand; [exact H|cbn; lia| |done|].
    + rewrite elem_of_app, list_elem_of_fmap, list_elem_of_singleton.
      intros [(j & [= <-] & Hj)|]; [|done]. apply list_elem_of_In, in_rev, in_seq in Hj. lia.
    + intros t' H'. wp_steps. apply IH; [|lia|done|].
      * rewrite seq_S, rev_app_distr. exact H'.
      * replace (Datatypes.S lo + n)%nat with (lo + Datatypes.S n)%nat by lia. exact HQ.
Qed.

(** ** The locked part of exit *)

(** The sleepers on the first channel, and if [hit] on the second, are made ready. *)
Definition roused (t : ptable) (l : list nat) (ch1 : chan_t) (hit : bool) (ch2 : chan_t) (q : nat) : proc :=
  if decide (q ∈ l ∧ (chan (procs t q) = ch1 ∨ hit = true ∧ chan (procs t q) = ch2))
  then set_state RUNNABLE (procs t q) else procs t q.

Definition exit_lists (t : ptable) (ch1 : chan_t) (hit : bool) (ch2 : chan_t) (p : nat) A : lid → list nat :=
  move Running Zombie p (wake_if hit t ch2 (wake_lists t ch1 A)).

(** Free slots have no parent; every other process is handed over. *)
Definition exit_proc (t : ptable) (i : option nat) A (p : nat) (L : lid) (q : nat) : proc :=
  let r := roused t (A Sleep) (chan_of (parent (procs t p))) (has_child t p (A Zombie)) (chan_of i) q in
  if decide (L = Free) then r else adopt i p r.

Definition exit_post s A (p : nat) (t' : ptable) : Prop :=
  let t := pt s in
  tinv t' (exit_lists t (chan_of (parent (procs t p))) (has_child t p (A Zombie))
             (chan_of (initproc s)) p A) ∧
  is_proc t' p (set_state ZOMBIE (adopt (initproc s) p (procs t p))) ∧
  ∀ L q, q ∈ A L → q ≠ p → is_proc t' q (exit_proc t (initproc s) A p L q).

Lemma wake_other t ch A L : L ≠ Sleep → (∀ i, L ≠ Ready i) → wake_lists t ch A L = A L.
Proof. intros H1 H2. destruct L as [| | | | |i]; try done. by destruct (H2 i). Qed.

Lemma wake_if_other hit t ch A L : L ≠ Sleep → (∀ i, L ≠ Ready i) → wake_if hit t ch A L = A L.
Proof. intros. destruct hit; [by apply wake_other|done]. Qed.

Lemma wake_sub t ch A L q :
  q ∈ wake_lists t ch A L → q ∈ A L ∨ (q ∈ A Sleep ∧ chan (procs t q) = ch ∧ ∃ i, L = Ready i).
Proof.
  destruct L as [| | | | |i]; auto; cbn.
  - intros [_ ?]%list_elem_of_filter. auto.
  - intros [?|[[? ?] ?]%list_elem_of_filter]%elem_of_app; [auto|]. right. eauto.
Qed.

(** Where a process is after a wake-up: its list, or a ready list. *)
Lemma wake_on t ch A L q :
  tinv t A → q ∈ A L → ∃ L', q ∈ wake_lists t ch A L' ∧ (L' = L ∨ L = Sleep ∧ ∃ i, L' = Ready i).
Proof.
  intros H Hq. destruct L as [| | | | |i];
    [by exists Free; auto| |by exists Zombie; auto|by exists Running; auto|by exists Embryo; auto|].
  - destruct (decide (chan (procs t q) = ch)) as [E|E].
    + exists (Ready (Z.to_nat (priority (procs t q)))). split; [|by eauto]. cbn.
      apply elem_of_app. right. apply list_elem_of_filter. split; [|done]. split; [done|].
      pose proof (good_prio _ _ _ (ti_good _ _ H _ _ Hq) ltac:(done)). lia.
    + exists Sleep. split; [|by left]. cbn. by apply list_elem_of_filter.
  - exists (Ready i). split; [|by left]. cbn. apply elem_of_app. by left.
Qed.

Lemma roused_woken t l ch1 hit ch2 q :
  roused t l ch1 hit ch2 q =
  (if hit && bool_decide (q ∈ filter (λ q, chan (procs t q) ≠ ch1) l ∧ chan (procs t q) = ch2)
   then set_state RUNNABLE (woken_proc t ch1 l q) else woken_proc t ch1 l q).
Proof.
  unfold roused, woken_proc. destruct hit; cbn [andb].
  - destruct (decide (q ∈ l)) as [Hl|Hl].
    2: { rewrite !decide_False, bool_decide_false; [done|..]; rewrite ?list_elem_of_filter; naive_solver. }
    destruct (decide (chan (procs t q) = ch1)) as [E1|E1].
    { rewrite !decide_True, bool_decide_false; [done|..]; rewrite ?list_elem_of_filter; naive_solver. }
    rewrite (decide_False (P := q ∈ l ∧ chan (procs t q) = ch1)) by naive_solver.
    destruct (decide (chan (procs t q) = ch2)) as [E2|E2].
    + rewrite decide_True, bool_decide_true; [done|..]; rewrite ?list_elem_of_filter; naive_solver.
    + rewrite decide_False, bool_decide_false; [done|..]; rewrite ?list_elem_of_filter; naive_solver.
  - rewrite (decide_ext _ (q ∈ l ∧ chan (procs t q) = ch1)) by naive_solver. done.
Qed.

Lemma adopt_keys i p r :
  state (adopt i p r) = state r ∧ chan (adopt i p r) = chan r ∧ priority (adopt i p r) = priority r.
Proof. unfold adopt. by case_decide. Qed.
Lemma woken_keys t ch l q :
  parent (woken_proc t ch l q) = parent (procs t q) ∧
  chan (woken_proc t ch l q) = chan (procs t q) ∧ priority (woken_proc t ch l q) = priority (procs t q).
Proof. unfold woken_proc. by case_decide. Qed.

(** The lists scanned before the zombies. *)
Definition scanned : list lid :=
  [Sleep; Embryo] ++ map Ready (rev (seq 0 (MAXPRIO + 1))) ++ [Running].

Lemma scanned_spec L : lid_ok L → L ∈ scanned ↔ L ≠ Free ∧ L ≠ Zombie.
Proof.
  intros HL. unfold scanned. rewrite !elem_of_app, list_elem_of_fmap.
  assert (Hs : ∀ i, i ∈ rev (seq 0 (MAXPRIO + 1)) ↔ (i ≤ MAXPRIO)%nat).
  { intros i. rewrite list_elem_of_In, <-in_rev, in_seq. lia. }
  setoid_rewrite Hs. destruct L as [| | | | |i]; set_solver.
Qed.

(** Handing over the zombies, with init woken when there is one. *)
Lemma wp_exit_zombies s t A p (Q : unit → kstate → Prop) :
  let ch1 := chan_of (parent (procs t p)) in
  let A1 := wake_lists t ch1 A in
  let ch2 := chan_of (initproc s) in
  let hit := has_child t p (A Zombie) in
  tinv t A →
  handed (pt s) A1 (initproc s) p scanned (woken_proc t ch1 (A Sleep)) →
  (∀ t', tinv t' (wake_if hit t ch2 A1) →
     (∀ L q, q ∈ A L → is_proc t' q (exit_proc t (initproc s) A p L q)) → Q tt (put_pt t' s)) →
  wp (reparent Zombie p true) Q s.
Proof.
  intros ch1 A1 ch2 hit Ht [H Hp] HQ.
  assert (Ez : ∀ q, q ∈ A Zombie → is_proc (pt s) q (woken_proc t ch1 (A Sleep) q)).
  { intros q Hq. specialize (Hp Zombie q Hq). rewrite decide_False in Hp; [done|].
    rewrite scanned_spec by done. naive_solver. }
  assert (Ehit : has_child (pt s) p (A1 Zombie) = hit).
  { unfold hit, has_child, A1. cbn.
    assert (Hx : ∀ l, (∀ q, q ∈ l → q ∈ A Zombie) →
      existsb (λ q, bool_decide (parent (procs (pt s) q) = Some p)) l =
      existsb (λ q, bool_decide (parent (procs t q) = Some p)) l); [|by apply Hx].
    induction l as [|a l IH]; intros Hl; [done|]. cbn. rewrite IH by set_solver.
    by rewrite (is_proc_fld _ _ _ parent (Ez a ltac:(set_solver))), (proj1 (woken_keys t ch1 _ a)). }
  assert (Hk : same_keys (A1 Sleep) t (pt s)).
  { apply (is_proc_keys _ _ _ (λ q, adopt (initproc s) p (woken_proc t ch1 (A Sleep) q))).
    - intros q Hq. specialize (Hp Sleep q Hq). rewrite decide_True in Hp; [done|]. set_solver.
    - intros q _. destruct (adopt_keys (initproc s) p (woken_proc t ch1 (A Sleep) q)) as (_ & -> & ->).
      apply woken_keys. }
  eapply wp_reparent; [exact H|done|done|done|]. cbn [andb]. rewrite Ehit. cbv zeta.
  intros t' H' Hp'. apply HQ.
  { eapply tinv_ext; [|exact H']. intros L. unfold wake_if. destruct hit; [|done].
    by apply wake_lists_ext. }
  intros L q Hq. destruct (wake_on t ch1 A L q Ht Hq) as (L' & HL' & HLL).
  specialize (Hp L' q HL'). specialize (Hp' q). fold ch2 in Hp'.
  pose proof (elem_lid_ok _ _ _ _ (ti_reps _ _ H) HL') as Hok.
  assert (HA1 : A1 Sleep = filter (λ q, chan (procs t q) ≠ ch1) (A Sleep)) by done.
  assert (Ebd : bool_decide (q ∈ A1 Sleep ∧ chan (procs (pt s) q) = ch2) =
    bool_decide (q ∈ A1 Sleep ∧ chan (procs t q) = ch2)).
  { apply bool_decide_ext. split; intros [Hs E]; (split; [done|]); by rewrite (proj1 (Hk q Hs)) in *. }
  unfold after in Hp'. rewrite Ebd, HA1 in Hp'. unfold exit_proc. fold ch1 ch2 hit. rewrite roused_woken.
  set (b := hit && bool_decide _) in *.
  assert (Hset : ∀ r, adopt (initproc s) p (if b then set_state RUNNABLE r else r) =
     if b then set_state RUNNABLE (adopt (initproc s) p r) else adopt (initproc s) p r).
  { intros r. destruct b; [|done]. unfold adopt.
    change (parent (set_state RUNNABLE r)) with (parent r).
    by destruct (decide (parent r = Some p)). }
  destruct (decide (L' = Zombie)) as [->|HZ].
  - assert (L = Zombie) as -> by (destruct HLL as [<-|[-> [? ?]]]; done).
    rewrite decide_True in Hp' by done. rewrite (decide_False (P := Zombie = Free)), Hset by done.
    rewrite decide_False in Hp by (rewrite scanned_spec by done; naive_solver).
    destruct b; [eapply (is_proc_upd _ _ _ _ (λ r, set_state RUNNABLE (adopt (initproc s) p r)))
                |eapply (is_proc_upd _ _ _ _ (adopt (initproc s) p))];
      first [exact Hp'|exact Hp|intros; by rewrite adopt_next].
  - rewrite decide_False in Hp'.
    2: { intros Hq'. apply HZ. by eapply reps_disj; [apply H| |]. }
    assert (Hr : is_proc (pt s) q (if decide (L = Free) then woken_proc t ch1 (A Sleep) q
                                   else adopt (initproc s) p (woken_proc t ch1 (A Sleep) q))).
    { destruct (decide (L = Free)) as [->|HF].
      - rewrite decide_False in Hp; [done|]. rewrite scanned_spec by done. destruct HLL as [->|[? ?]]; naive_solver.
      - rewrite decide_True in Hp; [done|]. rewrite scanned_spec by done.
        split; [|done]. destruct HLL as [->|[_ [? ->]]]; done. }
    replace (if decide (L = Free) then _ else _) with
      (if b then set_state RUNNABLE (if decide (L = Free) then woken_proc t ch1 (A Sleep) q
                                   else adopt (initproc s) p (woken_proc t ch1 (A Sleep) q))
       else (if decide (L = Free) then woken_proc t ch1 (A Sleep) q
             else adopt (initproc s) p (woken_proc t ch1 (A Sleep) q))).
    2: { destruct (decide (L = Free)); [done|]. by rewrite Hset. }
    destruct b; [eapply (is_proc_upd _ _ _ _ (set_state RUNNABLE))|eapply is_proc_trans]; eauto.
Qed.

Lemma wp_exit_locked c s A p (Q : unit → kstate → Prop) :
  tinv (pt s) A → p ∈ A Running →
  (∀ t', exit_post s A p t' → Q tt (put_pt t' s)) → wp (exit_locked c p) Q s.
Proof.
  intros H Hp HQ. pose proof (ti_reps _ _ H) as Hr. unfold exit_locked. apply wp_bind, wp_fld.
  apply wp_bind, wp_onT, (wp_wakeup1 _ A); [done|]. intros t1 H1 Hp1 _.
  set (ch1 := chan_of (parent (procs (pt s) p))) in *.
  assert (Hh : handed (pt (put_pt t1 s)) (wake_lists (pt s) ch1 A) (initproc s) p []
                 (woken_proc (pt s) ch1 (A Sleep))).
  { split; [done|]. intros L q _. rewrite decide_False by set_solver. apply Hp1. }
  apply wp_bind. eapply wp_hand; [exact Hh|done|set_solver|done|]. clear Hh. intros t2 Hh.
  apply wp_bind. eapply (wp_hand_ready _ 0); [exact Hh|lia|done|]. clear Hh. intros t3 Hh.
  apply wp_bind. eapply wp_hand; [exact Hh|done| |done|].
  { rewrite elem_of_app, list_elem_of_fmap. set_solver. }
  clear Hh. intros t4 Hh. apply wp_bind. eapply wp_hand; [exact Hh|done| |done|].
  { rewrite elem_of_cons, elem_of_app, list_elem_of_fmap. set_solver. }
  clear Hh. intros t5 Hh. apply wp_bind, (wp_exit_zombies _ (pt s) A); [done|exact Hh|].
  intros t6 H6 Hp6. fold ch1 in H6. cbn [initproc put_pt] in H6, Hp6.
  set (A6 := wake_if _ _ _ _) in H6.
  assert (HpR : p ∈ A6 Running) by (unfold A6; by rewrite wake_if_other, wake_other).
  specialize (Hp6 Running p Hp) as Hpp. unfold exit_proc in Hpp.
  rewrite (decide_False (P := Running = Free)) in Hpp by done.
  assert (Er : ∀ l c1 b c2, p ∉ l → roused (pt s) l c1 b c2 p = procs (pt s) p).
  { intros. unfold roused. rewrite decide_False; [done|]. naive_solver. }
  rewrite Er in Hpp by (intros Hs; by pose proof (reps_disj _ _ Hr _ _ _ Hp Hs)).
  pose proof (mv_start_at _ _ p _ H6 (reps_lt _ _ Hr _ _ Hp) Hpp) as Hm. ksteps.
  apply wp_onT. eapply wp_mv_take; [exact Hm|done|]. clear Hm. intros t7 Hm. ksteps.
  apply wp_onT. eapply wp_mv_assert; [exact Hm| |].
  { rewrite (proj1 (adopt_keys _ _ _)). exact (good_state _ _ _ (ti_good _ _ H _ _ Hp)). }
  ksteps. apply (mv_upd _ _ _ _ _ (set_state ZOMBIE)) in Hm; [|done].
  apply wp_onT. eapply wp_mv_give; [exact Hm| |done|].
  { intros L'. eapply taken; [apply (ti_reps _ _ H6)|done]. }
  pose proof (ti_good _ _ H _ _ Hp) as [_ Hpr _].
  clear Hm. intros t8 Hm. ksteps. apply HQ. split; [|split; [apply Hm|]].
  - eapply mv_close; [exact Hm|apply given|]. split; [done|]. split; [|done].
    intros _. cbn. rewrite (proj2 (proj2 (adopt_keys _ _ _))). by apply Hpr.
  - intros L q Hq Hne. eapply is_proc_trans; [by apply Hm|]. by apply Hp6.
Qed.

(** From the acquisition of the lock to the switch: the caller is a zombie on
    no CPU, its children are init's and whoever waits for them is ready. *)
Definition exit_tail_post (c : nat) s A (p : nat) (s' : kstate) (A' : lid → list nat) : Prop :=
  tinv (pt s') A' ∧ p ∈ A' Zombie ∧ unheld c (ls s') ∧ setcpu c None (ls s) (ls s') ∧ kframe s s' ∧
  (∀ L, A' L = exit_lists (pt s) (chan_of (parent (procs (pt s) p))) (has_child (pt s) p (A Zombie))
                 (chan_of (initproc s)) p A L) ∧
  is_proc (pt s') p (set_context (AtSched (Spinlock.fl_if (Spinlock.cpus (ls s) c)) FromExit)
    (settle (ticks s) (set_state ZOMBIE (adopt (initproc s) p (procs (pt s) p))))) ∧
  ∀ L q, q ∈ A L → q ≠ p → is_proc (pt s') q (exit_proc (pt s) (initproc s) A p L q).

Lemma wp_exit_tail c s A p (Q : unit → kstate → Prop) :
  unheld c (ls s) → cur c s = Some p → tinv (pt s) A → p ∈ A Running →
  (∀ s' A', exit_tail_post c s A p s' A' → Q tt s') → wp (exit_tail c p) Q s.
Proof.
  intros Hu Hc H Hp HQ. unfold exit_tail.
  apply wp_bind, wp_acq; [done|]. intros l5 Hh Hf Hie. apply wp_bind.
  eapply (wp_exit_locked _ _ A); [done..|]. intros t6 (H6 & Hp6 & Hq6). apply wp_bind.
  eapply (wp_sched _ _ _ _ p _ Zombie); [done| |exact H6|exact Hp6| |done|done|done|].
  { unfold cur. cbn. by rewrite (proj1 Hf). }
  { unfold exit_lists. rewrite move_to by done. set_solver. }
  intros t7 H7 Hp7 Hq7 _. cbn in Hp7. rewrite Hie in Hp7.
  apply wp_scheduler_after; [done|apply ok_switchkvm|].
  intros s8 Hu8 Hs8 Ept Hk8. eapply HQ. unfold exit_tail_post. rewrite Ept. split; [exact H7|].
  assert (El : ∀ L A1, sched_lists (ticks s) (set_state ZOMBIE (adopt (initproc s) p (procs (pt s) p)))
    p A1 L = A1 L) by (intros; by apply sched_lists_other).
  split; [|split; [done|split; [by eapply lframe_setcpu|split; [done|split; [|split; [done|]]]]]].
  - rewrite El. unfold exit_lists. rewrite move_to by done. set_solver.
  - intros L. by rewrite El.
  - intros L q Hq Hne. eapply is_proc_trans; [by apply Hq7|]. by apply Hq6.
Qed.

(** ** exit *)

Context `{fo : !FileOps}.

(** What process [p] relies on while it runs kernel code on CPU [c]. *)
Definition running (c p : nat) s : Prop :=
  unheld c (ls s) ∧ cur c s = Some p ∧ ∃ A, tinv (pt s) A ∧ p ∈ A Running.

(** The file-system calls of exit return to the process that made them, with
    the process table in order and init where it was. *)
Class FileOpsOk : Prop := {
  ok_fileclose : ∀ c p f s, running c p s →
    wp (fileclose c f) (λ _ s', running c p s' ∧ initproc s' = initproc s) s;
  ok_begin_op : ∀ c p s, running c p s →
    wp (begin_op c) (λ _ s', running c p s' ∧ initproc s' = initproc s) s;
  ok_iput : ∀ c p d s, running c p s →
    wp (iput c d) (λ _ s', running c p s' ∧ initproc s' = initproc s) s;
  ok_end_op : ∀ c p s, running c p s →
    wp (end_op c) (λ _ s', running c p s' ∧ initproc s' = initproc s) s
}.
Context `{fok : !FileOpsOk}.

Lemma running_upd c p s q f :
  running c p s → (∀ r, next (f r) = next r ∧ state (f r) = state r ∧ priority (f r) = priority r) →
  running c p (put_pt (updt q f (pt s)) s).
Proof.
  intros (Hu & Hc & A & H & Hp) Hf. split; [done|]. split; [done|]. exists A. split; [|done].
  by apply tinv_upd.
Qed.

Lemma wp_close_files c p s (Q : unit → kstate → Prop) :
  running c p s → (∀ s', running c p s' → initproc s' = initproc s → Q tt s') →
  wp (close_files c p) Q s.
Proof.
  intros H HQ. unfold close_files. apply wp_bind.
  apply (wp_count_for (λ _ s1, running c p s1 ∧ initproc s1 = initproc s)); [done| |].
  - intros i s1 _ [H1 E1]. ksteps. destruct (nth i (ofile (procs (pt s1) p)) 0 =? 0); ksteps; [done|].
    eapply wp_mono; [by apply ok_fileclose|]. intros _ s2 [H2 E2]. ksteps.
    split; [by apply running_upd|]. cbn. by rewrite E2.
  - intros s1 [H1 E1]. wp_steps. by apply HQ.
Qed.

(** The process is a zombie on no CPU; its parent will find it. *)
Definition exited (c p : nat) (s' : kstate) : Prop :=
  unheld c (ls s') ∧ cur c s' = None ∧ ∃ A, tinv (pt s') A ∧ p ∈ A Zombie.

Lemma wp_exit c p s (Q : unit → kstate → Prop) :
  running c p s → initproc s ≠ Some p → (∀ s', exited c p s' → Q tt s') → wp (exit c) Q s.
Proof.
  intros H Hi HQ. unfold exit. pose proof H as (_ & Hc & _). ksteps. rewrite Hc.
  rewrite decide_False by congruence. ksteps.
  apply wp_close_files; [done|]. intros s1 H1 E1. ksteps.
  eapply wp_mono; [by apply ok_begin_op|]. intros _ s2 [H2 E2]. ksteps.
  eapply wp_mono; [by apply ok_iput|]. intros _ s3 [H3 E3]. ksteps.
  eapply wp_mono; [by apply ok_end_op|]. intros _ s4 [H4 E4]. ksteps.
  apply (running_upd c p s4 p (set_cwd 0)) in H4; [|done].
  destruct H4 as (Hu & Hc4 & A & HA & Hp).
  eapply wp_exit_tail; [done..|]. intros s8 A' (H8 & HZ & Hu8 & Hs8 & _). apply HQ.
  split; [done|]. split; [apply Hs8|]. by exists A'.
Qed.

End exit.
End ProcExit.
