(* ===== verification/Machine.v ===== *)
(** * Processes on several CPUs: the kernel as a transition system

    A state of the machine is a kernel state together with the processes that
    are inside [fork], between its two critical sections, and the slot each of
    them has allocated.  One step is one operation of proc.c executed by one
    CPU; the scheduler's step includes the resumption of the process it
    switches to.  The file system's and the drivers' effects on processes are
    the sleeps and wake-ups they perform, which are steps of their own. *)

From S2P Require Import Prelude Spinlock ProcTable CString Proc ProcInv ProcSpec.
From S2P Require Import ProcSched ProcLife ProcCtl ProcExit.
Local Open Scope Z_scope.

Module Machine.
Import ProcTable Proc ProcInv ProcSpec ProcSched ProcLife ProcCtl ProcExit.

Section machine.
Context `{cfg : Config} `{sv : Services}.

(** The file-system part of [forkret] and [exit] consists of other steps. *)
Definition no_fs : FileOps :=
  {| fileclose := λ _ _, mret tt; begin_op := λ _, mret tt; iput := λ _ _, mret tt;
     end_op := λ _, mret tt; iinit := λ _, mret tt; initlog := λ _, mret tt |}.

Definition mstate : Type := kstate * (nat → option nat).

Inductive op :=
| Tick | Schedule | Yield | GoSleep (ch : chan_t) (lk : option nat) | Wakeup (ch : chan_t)
| ForkAlloc | ForkRest | Wait | Kill (x : Z) | SetPrio (x prio : Z) | Exit | Grow (n : Z).

Definition onS {A} (m : M kstate A) : M mstate A := zoom fst (λ s m, (s, snd m)) m.

(** What a process does after [sched] returned in its system call, up to the
    next point where it holds no lock: a sleeper in [wait] goes on with its
    loop, any other sleeper releases the lock it slept with. *)
Definition continue (c : nat) (x : ProcTable.resume) : M kstate unit :=
  match x with
  | AtSched _ (FromSleep (Some k)) =>
      if decide (k = PTABLE) then wait_again c true;; mret tt else release c k
  | _ => mret tt
  end.

Definition schedule (c : nat) : M kstate unit :=
  o ← scheduler c;
  match o with
  | None => mret tt
  | Some p => x ← fld p context; Proc.resume (fo := no_fs) c;; continue c x
  end.

(** A process that goes to sleep holding lock [lk]. *)
Definition go_sleep (c : nat) (ch : chan_t) (lk : option nat) : M kstate unit :=
  match lk with Some k => acquire c k | None => mret tt end;;
  Proc.sleep c ch lk.

Definition exec (c : nat) (o : op) : M mstate unit :=
  match o with
  | Tick => onS (modify (λ s, put_ticks (u32 (ticks s + 1)) s))
  | Schedule => onS (schedule c)
  | Yield => onS (yield c)
  | GoSleep ch lk => onS (go_sleep c ch lk)
  | Wakeup ch => onS (wakeup c ch)
  | ForkAlloc =>
      r ← onS (allocproc c);
      match r with
      | None => mret tt
      | Some np => p ← onS (myproc c); modify (λ m, (fst m, <[p := Some np]> (snd m)))
      end
  | ForkRest =>
      p ← onS (myproc c);
      np ← gets (λ m, snd m p);
      np ← deref np;
      onS (fork_rest c np);;
      modify (λ m, (fst m, <[p := None]> (snd m)))
  | Wait => onS (wait c);; mret tt
  | Kill x => onS (kill c x);; mret tt
  | SetPrio x prio => onS (setpriority c x prio);; mret tt
  | Exit => p ← onS (myproc c); onS (exit_tail c p)
  | Grow n => onS (growproc c n);; mret tt
  end.

(** When CPU [c] can take the step: the scheduler runs on an idle CPU, system
    calls on behalf of the CPU's process; a process inside [fork] may only be
    preempted or finish; init does not exit. *)
Definition enabled (c : nat) (o : op) (m : mstate) : bool :=
  match o, cur c (fst m) with
  | Tick, _ | Wakeup _, _ => true
  | Schedule, None => true
  | Schedule, Some _ => false
  | _, None => false
  | Yield, Some _ => true
  | ForkRest, Some p => bool_decide (snd m p ≠ None)
  | Exit, Some p => bool_decide (snd m p = None ∧ initproc (fst m) ≠ Some p)
  | GoSleep _ lk, Some p => bool_decide (snd m p = None ∧ lk ≠ Some PTABLE)
  | _, Some p => bool_decide (snd m p = None)
  end.

Definition step (m m' : mstate) : Prop :=
  ∃ c o, enabled c o m = true ∧ exec c o m = Ok tt m'.

(** ** The invariant *)

Definition runs (l : Spinlock.lstate) (R : list nat) : Prop :=
  (∀ c p, Spinlock.proc (Spinlock.cpus l c) = Some p → p ∈ R) ∧
  (∀ p, p ∈ R → ∃ c, Spinlock.proc (Spinlock.cpus l c) = Some p) ∧
  (∀ c c' p, Spinlock.proc (Spinlock.cpus l c) = Some p →
             Spinlock.proc (Spinlock.cpus l c') = Some p → c = c').

(** No lock is held, except by CPU [own] the ptable lock. *)
Definition locks_ok (own : option nat) (l : Spinlock.lstate) : Prop :=
  (∀ k, k ≠ PTABLE → Spinlock.locked (Spinlock.locks l k) = false) ∧
  match own with
  | None => ∀ c, unheld c l
  | Some c => held c l ∧ ∀ c', c' ≠ c → Spinlock.ncli (Spinlock.cpus l c') = 0
  end.

(** A process that can be switched to. *)
Definition resumable (r : proc) : Prop :=
  match context r with NoContext | AtSched _ FromExit => False | _ => True end.

Definition waits (L : lid) : bool :=
  match L with Ready _ | Sleep | Embryo => true | _ => false end.

Definition pok (L : lid) (r : proc) : Prop := name_ok r ∧ (waits L = true → resumable r).

Record inv (own : option nat) (s : kstate) (f : nat → option nat) (A : lid → list nat) : Prop := {
  i_table : tinv (pt s) A;
  i_runs : runs (ls s) (A Running);
  i_locks : locks_ok own (ls s);
  i_procs : ∀ L q, q ∈ A L → pok L (procs (pt s) q);
  i_fork : ∀ p np, f p = Some np → np ∈ A Embryo;
  i_inj : ∀ p p' np, f p = Some np → f p' = Some np → p = p'
}.

Definition minv (m : mstate) : Prop := ∃ A, inv None (fst m) (snd m) A.

(** ** How the parts of the invariant are kept *)

Lemma runs_same l l' R :
  (∀ c, Spinlock.proc (Spinlock.cpus l' c) = Spinlock.proc (Spinlock.cpus l c)) → runs l R → runs l' R.
Proof.
  intros E (H1 & H2 & H3). split; [|split].
  - intros c' p. rewrite E. apply H1.
  - intros p Hp. destruct (H2 p Hp) as [c' Hc]. exists c'. by rewrite E.
  - intros c1 c2 p. rewrite !E. apply H3.
Qed.

Lemma runs_lframe c l l' R : lframe c l l' → runs l R → runs l' R.
Proof. intros [E _]. by apply runs_same. Qed.

Lemma runs_leave c p l l' R :
  setcpu c None l l' → Spinlock.proc (Spinlock.cpus l c) = Some p → runs l R → runs l' (del p R).
Proof.
  intros (E & Eo & _) Hc (H1 & H2 & H3). split; [|split].
  - intros c' q Hq. destruct (decide (c' = c)) as [->|Hne]; [by rewrite E in Hq|].
    rewrite Eo in Hq by done. rewrite elem_of_del. split; [|by eapply H1].
    intros ->. apply Hne. by eapply H3.
  - intros q [Hne Hq]%elem_of_del. destruct (H2 q Hq) as [c' Hc']. exists c'.
    rewrite Eo; [done|]. intros ->. rewrite Hc in Hc'. congruence.
  - intros c1 c2 q Hq1 Hq2. destruct (decide (c1 = c)) as [->|N1]; [by rewrite E in Hq1|].
    destruct (decide (c2 = c)) as [->|N2]; [by rewrite E in Hq2|].
    rewrite Eo in Hq1, Hq2 by done. by eapply H3.
Qed.

Lemma runs_enter c p l l' R :
  setcpu c (Some p) l l' → Spinlock.proc (Spinlock.cpus l c) = None → p ∉ R →
  runs l R → runs l' (R ++ [p]).
Proof.
  intros (E & Eo & _) Hc Hp (H1 & H2 & H3). split; [|split].
  - intros c' q Hq. destruct (decide (c' = c)) as [->|Hne].
    + rewrite E in Hq. injection Hq as ->. set_solver.
    + rewrite Eo in Hq by done. apply elem_of_app. left. by eapply H1.
  - intros q [Hq| ->%list_elem_of_singleton]%elem_of_app; [|by exists c].
    destruct (H2 q Hq) as [c' Hc']. exists c'. rewrite Eo; [done|]. congruence.
  - intros c1 c2 q Hq1 Hq2.
    destruct (decide (c1 = c)) as [->|N1], (decide (c2 = c)) as [->|N2]; [done|..].
    + rewrite E in Hq1. injection Hq1 as <-. rewrite Eo in Hq2 by done. by apply H1 in Hq2.
    + rewrite E in Hq2. injection Hq2 as <-. rewrite Eo in Hq1 by done. by apply H1 in Hq1.
    + rewrite Eo in Hq1, Hq2 by done. by eapply H3.
Qed.

Lemma locks_unheld c l l' :
  locks_ok None l → unheld c l' →
  (∀ c', c' ≠ c → Spinlock.cpus l' c' = Spinlock.cpus l c') →
  (∀ k, k ≠ PTABLE → Spinlock.locks l' k = Spinlock.locks l k) → locks_ok None l'.
Proof.
  intros [H1 H2] [Hl Hn] Hc Hk. split; [intros k ?; rewrite Hk; auto|].
  intros c'. split; [done|]. destruct (decide (c' = c)) as [->|]; [done|].
  rewrite Hc by done. apply H2.
Qed.

Lemma locks_release c l l' : locks_ok (Some c) l → unheld c l' → lframe c l l' → locks_ok None l'.
Proof.
  intros [H1 [_ H2]] [Hl Hn] (_ & Hc & Hk). split; [intros k ?; rewrite Hk; auto|].
  intros c'. split; [done|]. destruct (decide (c' = c)) as [->|]; [done|].
  rewrite Hc by done. by apply H2.
Qed.

Lemma locks_held c l l' :
  locks_ok None l → held c l' →
  (∀ c', c' ≠ c → Spinlock.cpus l' c' = Spinlock.cpus l c') →
  (∀ k, k ≠ PTABLE → Spinlock.locks l' k = Spinlock.locks l k) → locks_ok (Some c) l'.
Proof.
  intros [H1 H2] Hh Hc Hk. split; [intros k ?; rewrite Hk; auto|]. split; [done|].
  intros c' ?. rewrite Hc by done. apply H2.
Qed.

Lemma pok_same t q r L : is_proc t q r → pok L r → pok L (procs t q).
Proof.
  intros E. unfold pok, name_ok, resumable.
  by rewrite (is_proc_fld _ _ _ name E), (is_proc_fld _ _ _ context E) by done.
Qed.

Lemma pok_weaken L L' r : (waits L' = true → waits L = true) → pok L r → pok L' r.
Proof. intros H [H1 H2]. split; auto. Qed.

Lemma elem_move t L1 L2 p A L q :
  reps t A → p ∈ A L1 → q ∈ move L1 L2 p A L → (q = p ∧ L = L2) ∨ (q ≠ p ∧ q ∈ A L).
Proof.
  intros Hr Hp Hq. unfold move in Hq.
  assert (H1 : ∀ L', q ∈ <[L1 := del p (A L1)]> A L' → q ≠ p ∧ q ∈ A L').
  { intros L' Hq'. destruct (decide (L1 = L')) as [<-|Hne].
    - by rewrite fn_lookup_insert, elem_of_del in Hq'.
    - rewrite fn_lookup_insert_ne in Hq' by done. split; [|done]. intros ->.
      apply Hne. by eapply reps_disj. }
  destruct (decide (L2 = L)) as [<-|Hne].
  - rewrite fn_lookup_insert in Hq. apply elem_of_app in Hq as [Hq| ->%list_elem_of_singleton]; auto.
  - rewrite fn_lookup_insert_ne in Hq by done. auto.
Qed.

End machine.

(** ** Every operation keeps the invariant *)

Section ops.
Context `{mode : Mode} `{cfg : Config} `{sv : Services} `{svok : !ServicesOk sv}.
Implicit Types s : kstate.
Implicit Types A : lid → list nat.

Lemma inv_cur own c s f A p : inv own s f A → cur c s = Some p → p ∈ A Running.
Proof. intros H Hc. by apply (i_runs _ _ _ _ H) in Hc. Qed.

Lemma inv_unheld c s f A : inv None s f A → unheld c (ls s).
Proof. intros H. apply (i_locks _ _ _ _ H). Qed.

(** One process moved between two lists, the others are as they were. *)
Lemma procs_move own s f A L1 L2 p r' t' :
  inv own s f A → p ∈ A L1 → is_proc t' p r' → pok L2 r' →
  (∀ q, q ≠ p → is_proc t' q (procs (pt s) q)) →
  ∀ L q, q ∈ move L1 L2 p A L → pok L (procs t' q).
Proof.
  intros H Hp Hp' Hok Hq' L q Hq.
  eapply elem_move in Hq as [[-> ->]|[Hne Hq]]; [..|exact (ti_reps _ _ (i_table _ _ _ _ H))|exact Hp].
  - by eapply pok_same.
  - eapply pok_same; [by apply Hq'|]. by eapply i_procs.
Qed.

Lemma fork_move own s f A L1 L2 p :
  inv own s f A → p ∈ A L1 → L1 ≠ Embryo → ∀ x np, f x = Some np → np ∈ move L1 L2 p A Embryo.
Proof.
  intros H Hp HL x np Hx. pose proof (i_fork _ _ _ _ H _ _ Hx) as He.
  destruct (decide (L2 = Embryo)) as [->|H2]; [rewrite move_to by done; set_solver|].
  by rewrite move_other.
Qed.

Lemma charge_ctx tk r : context (settle tk r) = context r ∧ name (settle tk r) = name r.
Proof. unfold settle. destruct (budget _ <? 1); [|done]. by destruct (demotes tk r). Qed.

Lemma pok_ctx L L' r r' :
  name r' = name r → (waits L' = true → resumable r') → pok L r → pok L' r'.
Proof. intros E Hr [H1 _]. split; [|done]. unfold name_ok. by rewrite E. Qed.

(** Leaving the CPU: the list operations of the switch do not concern embryos. *)
Lemma inv_leave c s s' f A A' p :
  inv None s f A → cur c s = Some p → tinv (pt s') A' →
  unheld c (ls s') → setcpu c None (ls s) (ls s') →
  A' Running = del p (A Running) → A' Embryo = A Embryo →
  (∀ L q, q ∈ A' L → pok L (procs (pt s') q)) → inv None s' f A'.
Proof.
  intros H Hc H' Hu Hs ER EE Hp. constructor; [done| | |done|rewrite EE; apply H|apply H].
  - rewrite ER. eapply runs_leave; [done..|apply H].
  - eapply locks_unheld; [apply H|done|apply Hs..].
Qed.

(** Staying on the CPU. *)
Lemma inv_stay c s s' f A A' :
  inv None s f A → tinv (pt s') A' → unheld c (ls s') → lframe c (ls s) (ls s') →
  A' Running = A Running → A' Embryo = A Embryo →
  (∀ L q, q ∈ A' L → pok L (procs (pt s') q)) → inv None s' f A'.
Proof.
  intros H H' Hu Hf ER EE Hp. constructor; [done| | |done|rewrite EE; apply H|apply H].
  - rewrite ER. eapply runs_lframe; [done|apply H].
  - eapply locks_unheld; [apply H|done|apply Hf..].
Qed.

(** *** The queue of the highest priority

    Every step keeps the order of the first ready list: processes leave it at
    its head, by being dispatched, and join it at its end. *)
Definition keeps A A' : Prop := A (Ready 0) `prefix_of` A' (Ready 0).

Lemma keeps_refl A : keeps A A.
Proof. unfold keeps. reflexivity. Qed.
Lemma keeps_trans A A1 A2 : keeps A A1 → keeps A1 A2 → keeps A A2.
Proof. unfold keeps. apply transitivity. Qed.
Lemma keeps_move L1 L2 p A : L1 ≠ Ready 0 → keeps A (move L1 L2 p A).
Proof.
  intros H. unfold keeps, move. destruct (decide (L2 = Ready 0)) as [->|H2].
  - rewrite fn_lookup_insert, fn_lookup_insert_ne by done. by apply prefix_app_r.
  - by rewrite !fn_lookup_insert_ne.
Qed.
Lemma keeps_wake t ch A : keeps A (wake_lists t ch A).
Proof. unfold keeps. cbn. by apply prefix_app_r. Qed.
Lemma keeps_wake_if hit t ch A : keeps A (wake_if hit t ch A).
Proof. destruct hit; [apply keeps_wake|apply keeps_refl]. Qed.
Lemma keeps_exit t ch1 hit ch2 p A : keeps A (exit_lists t ch1 hit ch2 p A).
Proof.
  unfold exit_lists. eapply keeps_trans; [|by apply keeps_move]. eapply keeps_trans; [apply keeps_wake|apply keeps_wake_if].
Qed.
Lemma keeps_yield tk r p A : p ∉ A (Ready 0) → keeps A (yield_lists tk r p A).
Proof.
  intros Hp. unfold yield_lists, sched_lists. set (i := Z.to_nat (priority (set_state RUNNABLE r))).
  change (Z.to_nat (priority r)) with i. destruct (_ && _); [|by apply keeps_move].
  destruct (decide (i = 0%nat)) as [->|Hi].
  - unfold keeps. rewrite move_from, move_to, del_app, del_notin by done. by apply prefix_app_r.
  - eapply keeps_trans; apply keeps_move; [done|congruence].
Qed.
Lemma keeps_kill L q A : keeps A (kill_lists L q A).
Proof. unfold kill_lists. destruct (decide _); [by apply keeps_move|apply keeps_refl]. Qed.

Lemma step_yield c s f A p :
  inv None s f A → cur c s = Some p → wp (yield c) (λ _ s', ∃ A', inv None s' f A' ∧ keeps A A') s.
Proof.
  intros H Hc. pose proof (inv_cur _ _ _ _ _ _ H Hc) as Hp.
  pose proof (i_table _ _ _ _ H) as Ht. set (r := procs (pt s) p).
  eapply wp_yield; [by eapply inv_unheld|done|done|done|apply ok_switchkvm|].
  intros s' H' Hp' Hq' Hu Hs _. eexists. split; [|apply keeps_yield; intros HR; by pose proof (reps_disj _ _ (ti_reps _ _ Ht) _ _ _ Hp HR)].
  eapply inv_leave; [done|done|exact H'|done|done|..].
  - unfold yield_lists, sched_lists. destruct (_ && _); [|by rewrite move_from].
    by rewrite move_other, move_from.
  - unfold yield_lists, sched_lists. destruct (_ && _); rewrite ?move_other; done.
  - intros L q Hq.
    assert (Hm : (q = p ∧ ∃ i, L = Ready i) ∨ (q ≠ p ∧ q ∈ A L)).
    { unfold yield_lists, sched_lists in Hq.
      set (A1 := move Running _ p A) in *.
      assert (E1 : ∀ L, q ∈ A1 L → (q = p ∧ ∃ i, L = Ready i) ∨ (q ≠ p ∧ q ∈ A L)).
      { intros L1 H1. eapply elem_move in H1 as [[-> ->]|?]; [eauto|auto|apply Ht|done]. }
      destruct (_ && _); [|by apply E1].
      unfold move at 1 in Hq. destruct (decide (L = Ready (S (Z.to_nat (priority (set_state RUNNABLE r)))))) as [->|HL].
      - rewrite fn_lookup_insert in Hq. apply elem_of_app in Hq as [Hq|Hq%list_elem_of_singleton]; [|eauto].
        rewrite fn_lookup_insert_ne in Hq by (intros [= ?]; lia). by apply E1.
      - rewrite fn_lookup_insert_ne in Hq by done.
        destruct (decide (L = Ready (Z.to_nat (priority (set_state RUNNABLE r))))) as [->|HL2].
        + rewrite fn_lookup_insert in Hq. apply elem_of_del in Hq as [_ Hq]. by apply E1.
        + rewrite fn_lookup_insert_ne in Hq by done. by apply E1. }
    destruct Hm as [[-> [i ->]]|[Hne Hq2]].
    + eapply pok_same; [done|]. eapply (pok_ctx Running); [|done|by eapply i_procs].
      exact (proj2 (charge_ctx _ (set_state RUNNABLE (procs (pt s) p)))).
    + eapply pok_same; [by apply Hq'|]. by eapply i_procs.
Qed.

(** Entering [sleep] with lock [k] taken. *)
Lemma wp_take_lock c lk s f A p (Q : unit → kstate → Prop) :
  inv None s f A → cur c s = Some p → lk ≠ Some PTABLE →
  (∀ l', sleep_pre c lk l' →
     (∀ c', Spinlock.proc (Spinlock.cpus l' c') = Spinlock.proc (Spinlock.cpus (ls s) c')) →
     (∀ c', c' ≠ c → Spinlock.cpus l' c' = Spinlock.cpus (ls s) c') →
     (∀ k, Some k ≠ lk → Spinlock.locks l' k = Spinlock.locks (ls s) k) → Q tt (put_ls l' s)) →
  wp (match lk with Some k => acquire c k | None => mret tt end) Q s.
Proof.
  intros H Hc Hlk HQ. destruct (i_locks _ _ _ _ H) as [Hl Hu].
  destruct lk as [k|]; [|wp_steps; destruct s; apply HQ; try done; apply Hu].
  assert (Hk : k ≠ PTABLE) by congruence. destruct (Hu c) as [Hpt Hn].
  apply wp_onL, Spinlock.wp_acquire; [by apply Hl|].
  intros l' Ec (Eo & Ek & _) Hl' Ho'. unfold Spinlock.acq_cpu in Ec. rewrite Hn in Ec. apply HQ.
  - cbn. rewrite decide_False by done. rewrite Ek by done. rewrite Ec. by cbn.
  - intros c'. destruct (decide (c' = c)) as [->|]; [by rewrite Ec|by rewrite Eo].
  - done.
  - intros k' ?. apply Ek. congruence.
Qed.

Lemma step_sleep c ch lk s f A p :
  inv None s f A → cur c s = Some p → lk ≠ Some PTABLE →
  wp (go_sleep c ch lk) (λ _ s', ∃ A', inv None s' f A' ∧ keeps A A') s.
Proof.
  intros H Hc Hlk. pose proof (inv_cur _ _ _ _ _ _ H Hc) as Hp.
  pose proof (i_table _ _ _ _ H) as Ht. destruct (i_locks _ _ _ _ H) as [Hl0 Hu0].
  unfold go_sleep. apply wp_bind. eapply wp_take_lock; [done..|].
  intros l1 Hpre Ep Eo Ek.
  eapply (wp_sleep _ _ _ _ A p); [done| |done|done|apply ok_switchkvm|].
  { unfold cur. cbn. by rewrite Ep. }
  intros s' l2 H' Hp' Hq' Hu Hs Hset _. cbn in Hs. destruct Hs as (Sp & So & Sk & Sl).
  exists (move Running Sleep p A). split; [|by apply keeps_move].
  assert (Hlk' : ∀ k, k ≠ PTABLE → Spinlock.locked (Spinlock.locks (ls s') k) = false).
  { intros k Hk. rewrite (proj2 (proj2 Hset)) by done.
    destruct (decide (Some k = lk)) as [E|E]; [by apply Sl|]. rewrite Sk, Ek by done. by apply Hl0. }
  assert (Hother : ∀ c', c' ≠ c → Spinlock.cpus (ls s') c' = Spinlock.cpus (ls s) c').
  { intros c' Hne. by rewrite (proj1 (proj2 Hset)), So, Eo. }
  constructor; [done| | | | |apply H].
  - rewrite move_from by done. eapply (runs_leave c p (Spinlock.mklstate (Spinlock.cpus (ls s)) (Spinlock.locks (ls s')) (Spinlock.kword (ls s)))); [|done|apply H].
    split; [apply Hset|]. split; [done|done].
  - split; [done|]. intros c'. destruct Hu as [Hl Hn]. split; [done|].
    destruct (decide (c' = c)) as [->|]; [done|]. rewrite Hother by done. apply Hu0.
  - eapply procs_move; [exact H|done|exact Hp'| |exact Hq'].
    eapply (pok_ctx Running); [|done|by eapply i_procs].
    exact (proj2 (charge_ctx _ (set_state SLEEPING (set_chan ch (procs (pt s) p))))).
  - by eapply fork_move.
Qed.

Lemma step_wakeup c ch s f A :
  inv None s f A → wp (wakeup c ch) (λ _ s', ∃ A', inv None s' f A' ∧ keeps A A') s.
Proof.
  intros H. pose proof (i_table _ _ _ _ H) as Ht.
  eapply wp_wakeup; [by eapply inv_unheld|done|].
  intros s' H' Hp' Hu Hf _ _. eexists. split; [|apply keeps_wake]. eapply inv_stay; [done|exact H'|done|done|done|done|].
  intros L q Hq. eapply pok_same; [apply Hp'|]. unfold woken_proc.
  assert (Hpok : ∃ L0, pok L0 (procs (pt s) q) ∧ (waits L = true → waits L0 = true)).
  { apply wake_sub in Hq as [Hq|(Hq & _ & i & ->)].
    - exists L. split; [by eapply i_procs|done].
    - exists Sleep. split; [by eapply i_procs|done]. }
  destruct Hpok as (L0 & Hok & Hw). case_decide; by eapply pok_weaken.
Qed.

Lemma step_kill c x s f A :
  inv None s f A → wp (kill c x) (λ _ s', ∃ A', inv None s' f A' ∧ keeps A A') s.
Proof.
  intros H. pose proof (i_table _ _ _ _ H) as Ht. eapply wp_kill; [by eapply inv_unheld|done|].
  intros res s' (Hu & Hf & _ & _ & Hpost).
  destruct (target s A (u32 x) kill_order) as [[L q]|] eqn:E.
  - apply target_elem in E as (_ & Hq & _). destruct Hpost as (_ & H' & Hv & Hq').
    exists (kill_lists L q A). split; [|apply keeps_kill]. unfold kill_lists, victim in *.
    destruct (decide (L = Sleep)) as [->|HL].
    + eapply inv_stay; [done|exact H'|done|done|by rewrite move_other|by rewrite move_other|].
      eapply procs_move; [done|done|exact Hv| |done].
      eapply (pok_weaken Sleep); [done|]. exact (i_procs _ _ _ _ H _ _ Hq).
    + eapply inv_stay; [done|exact H'|done|done|done|done|]. intros L' q' Hq2.
      destruct (decide (q' = q)) as [->|Hne]; (eapply pok_same; [by eauto|]); exact (i_procs _ _ _ _ H _ _ Hq2).
  - destruct Hpost as [_ Ept]. exists A. split; [|apply keeps_refl]. eapply inv_stay; [done|by rewrite Ept|done|done|done|done|].
    rewrite Ept. apply H.
Qed.

Lemma step_setprio c x prio s f A :
  MAXPRIO = 0%nat → inv None s f A →
  wp (setpriority c x prio) (λ _ s', ∃ A', inv None s' f A' ∧ keeps A A') s.
Proof.
  intros H0 H. pose proof (i_table _ _ _ _ H) as Ht.
  eapply wp_setpriority; [by eapply inv_unheld|done| |].
  { intros Hr q Hq _. pose proof (good_prio _ _ _ (ti_good _ _ Ht _ _ Hq) ltac:(done)). lia. }
  intros res s' Hpost. unfold setprio_post in Hpost.
  destruct ((prio <? 0) || (Z.of_nat MAXPRIO <? prio)) eqn:Er; [destruct Hpost as [_ ->]; eauto using keeps_refl|].
  destruct Hpost as (Hu & Hf & _ & _ & Hpost).
  destruct (target s A (u32 x) setprio_order) as [[L q]|] eqn:E.
  - apply target_elem in E as (_ & Hq & _). destruct Hpost as (_ & H' & Hv & Hq').
    eexists. split; [eapply inv_stay; [done|exact H'|done|done|..]|].
    4: { destruct L as [| | | | |i]; try apply keeps_refl. pose proof (good_prio _ _ _ (ti_good _ _ Ht _ _ Hq) ltac:(done)).
         apply orb_false_iff in Er as [?%Z.ltb_ge ?%Z.ltb_ge]. cbn. rewrite (proj2 (Z.eqb_eq _ _)) by lia. apply keeps_refl. }
    + destruct L as [| | | | |i]; try done. cbn. destruct (_ =? _); [done|by rewrite move_other].
    + destruct L as [| | | | |i]; try done. cbn. destruct (_ =? _); [done|by rewrite move_other].
    + assert (Hsame : ∀ L' q', q' ∈ A L' → pok L' (procs (pt s') q')).
      { intros L' q' Hq2. destruct (decide (q' = q)) as [->|Hne];
          (eapply pok_same; [by eauto|]); exact (i_procs _ _ _ _ H _ _ Hq2). }
      destruct L as [| | | | |i]; try done. cbn. destruct (_ =? _); [done|].
      eapply procs_move; [done|done|exact Hv| |done]. exact (i_procs _ _ _ _ H _ _ Hq).
  - destruct Hpost as [_ Ept]. exists A. split; [|apply keeps_refl]. eapply inv_stay; [done|by rewrite Ept|done|done|done|done|].
    rewrite Ept. apply H.
Qed.

(** *** fork, in its two critical sections *)

Definition add_fork (p np : nat) (f : nat → option nat) : nat → option nat := <[p := Some np]> f.

Lemma step_fork_alloc c s f A p :
  inv None s f A → cur c s = Some p → f p = None →
  wp (allocproc c) (λ o s', cur c s' = Some p ∧ ∃ A',
    inv None s' (match o with Some np => add_fork p np f | None => f end) A' ∧ keeps A A') s.
Proof.
  intros H Hc Hf. pose proof (i_table _ _ _ _ H) as Ht. pose proof (ti_reps _ _ Ht) as Hr.
  eapply wp_allocproc; [by eapply inv_unheld|done|].
  intros o s' (Hu & Hfr & _ & _ & _ & _ & Hpost).
  assert (Hc' : cur c s' = Some p) by (unfold cur; by rewrite (proj1 Hfr)). split; [done|].
  destruct (A Free) as [|np l] eqn:EF.
  { destruct Hpost as (-> & _ & H' & Hq & _). exists A. split; [|apply keeps_refl]. eapply inv_stay; [done|exact H'|done|done|done|done|].
    intros L q Hin. eapply pok_same; [apply Hq|]. by eapply i_procs. }
  assert (Hnp : np ∈ A Free) by (rewrite EF; set_solver).
  assert (HnE : np ∉ A Embryo) by (intros HE; by pose proof (reps_disj _ _ Hr _ _ _ HE Hnp)).
  destruct Hpost as (_ & Hq & Ho). destruct o as [p'|].
  - destruct Ho as (-> & H' & ks & Hks & _). exists (move Free Embryo np A). split; [|by apply keeps_move].
    constructor; [done| | | | |].
    + rewrite move_other by done. eapply runs_lframe; [done|apply H].
    + eapply locks_unheld; [apply H|done|apply Hfr..].
    + eapply procs_move; [exact H|done|exact Hks| |done].
      eapply (pok_ctx Free _ (procs (pt s) np)); [done|done|by eapply i_procs].
    + intros x nx Hx. rewrite move_to by done. unfold add_fork in Hx.
      destruct (decide (p = x)) as [<-|Hne].
      * rewrite fn_lookup_insert in Hx. injection Hx as <-. set_solver.
      * rewrite fn_lookup_insert_ne in Hx by done. apply elem_of_app. left. by eapply i_fork.
    + unfold add_fork. intros x x' y. destruct (decide (p = x)) as [<-|N1], (decide (p = x')) as [<-|N2];
        rewrite ?fn_lookup_insert, ?fn_lookup_insert_ne by done; [done| | |by apply H].
      * intros [= <-] Hx. by apply (i_fork _ _ _ _ H) in Hx.
      * intros Hx [= <-]. by apply (i_fork _ _ _ _ H) in Hx.
  - destruct Ho as (_ & H' & Hks). exists (move Free Free np A). split; [|by apply keeps_move].
    assert (Em : ∀ L, move Embryo Free np (move Free Embryo np A) L = move Free Free np A L).
    { intros L. by apply move_move. }
    eapply inv_stay; [done|by eapply tinv_ext|done|done|..].
    + by rewrite move_other.
    + by rewrite move_other.
    + eapply procs_move; [exact H|done|exact Hks| |done].
      eapply (pok_ctx Free _ (procs (pt s) np)); [done|done|by eapply i_procs].
Qed.

Lemma step_fork_rest c s f A p np :
  inv None s f A → cur c s = Some p → f p = Some np →
  wp (fork_rest c np) (λ _ s', ∃ A', inv None s' (<[p := None]> f) A' ∧ keeps A A') s.
Proof.
  intros H Hc Hf. pose proof (i_table _ _ _ _ H) as Ht. pose proof (ti_reps _ _ Ht) as Hr.
  pose proof (inv_cur _ _ _ _ _ _ H Hc) as Hp. pose proof (i_fork _ _ _ _ H _ _ Hf) as Hnp.
  pose proof (i_procs _ _ _ _ H _ _ Hp) as [Hn1 _].
  pose proof (i_procs _ _ _ _ H _ _ Hnp) as [Hn2 Hctx]. specialize (Hctx eq_refl).
  eapply wp_fork_rest; [by eapply inv_unheld|done..|].
  intros x s' (Hu & Hfr & _ & Hq & Hx).
  assert (Hfork : ∀ L2, L2 ≠ Embryo → ∀ y ny, <[p := None]> f y = Some ny → ny ∈ move Embryo L2 np A Embryo).
  { intros L2 HL y ny. destruct (decide (p = y)) as [<-|Hne]; [by rewrite fn_lookup_insert|].
    rewrite fn_lookup_insert_ne, move_from by done. intros Hy. apply elem_of_del.
    split; [|by eapply i_fork]. intros ->. apply Hne. by eapply (i_inj _ _ _ _ H). }
  assert (Hinj : ∀ x x' y, <[p := None]> f x = Some y → <[p := None]> f x' = Some y → x = x').
  { intros x1 x2 y. destruct (decide (p = x1)) as [<-|N1]; [by rewrite fn_lookup_insert|].
    destruct (decide (p = x2)) as [<-|N2]; [by rewrite fn_lookup_insert|].
    rewrite !fn_lookup_insert_ne by done. apply H. }
  assert (Hrest : ∀ L2 r', L2 ≠ Embryo → L2 ≠ Running → tinv (pt s') (move Embryo L2 np A) →
    is_proc (pt s') np r' → pok L2 r' → ∃ A', inv None s' (<[p := None]> f) A' ∧ keeps A A').
  { intros L2 r' HE HR H' Hr' Hok. exists (move Embryo L2 np A). split; [|by apply keeps_move]. constructor; [done| | | |by eapply Hfork|done].
    - rewrite move_other by done. eapply runs_lframe; [done|apply H].
    - eapply locks_unheld; [apply H|done|apply Hfr..].
    - by eapply procs_move. }
  destruct Hx as [(_ & H' & Hch & _)|(_ & H' & npg & gs & ofs & d & nm & k1 & k2 & Hch & _ & _ & _ & _ & Hcs & Hl)].
  - eapply Hrest; [| |exact H'|exact Hch|]; [done..|]. split; [exact Hn2|done].
  - eapply Hrest; [| |exact H'|exact Hch|]; [done..|]. split; [|done].
    unfold name_ok. cbn. rewrite Hl. split; [apply Hn2|]. apply CString.cstr_short.
    rewrite Hcs, Hl, (proj1 Hn2), length_take. lia.
Qed.

(** *** wait *)

Lemma inv_acquire c s f A p l' :
  inv None s f A → cur c s = Some p → held c l' → lframe c (ls s) l' →
  inv (Some c) (put_ls l' s) f A ∧ cur c (put_ls l' s) = Some p.
Proof.
  intros H Hc Hh Hf. split; [|unfold cur; cbn; by rewrite (proj1 Hf)].
  constructor; try apply H.
  - eapply runs_lframe; [done|apply H].
  - eapply locks_held; [apply H|done|apply Hf..].
Qed.

(** The end of a critical section. *)
Lemma inv_release c s s' f A A' :
  inv (Some c) s f A → tinv (pt s') A' → unheld c (ls s') → lframe c (ls s) (ls s') →
  A' Running = A Running → A' Embryo = A Embryo →
  (∀ L q, q ∈ A' L → pok L (procs (pt s') q)) → inv None s' f A'.
Proof.
  intros H H' Hu Hf ER EE Hp. constructor; [done| | |done|rewrite EE; apply H|apply H].
  - rewrite ER. eapply runs_lframe; [done|apply H].
  - eapply locks_release; [apply H|done|done].
Qed.

Lemma step_wait_again c hk s f A p :
  inv (Some c) s f A → cur c s = Some p →
  wp (wait_again c hk) (λ _ s', ∃ A', inv None s' f A' ∧ keeps A A') s.
Proof.
  intros H Hc. pose proof (i_table _ _ _ _ H) as Ht. pose proof (ti_reps _ _ Ht) as Hr.
  destruct (i_locks _ _ _ _ H) as [Hl [Hh Hn]]. pose proof (inv_cur _ _ _ _ _ _ H Hc) as Hp.
  unfold wait_again. apply wp_bind. eapply wp_wait_pass; [done..|].
  intros o s1 Hpass. unfold wait_pass_post in Hpass.
  destruct (find _ (A Zombie)) as [z|] eqn:Ez.
  - apply find_some in Ez as [Hz%list_elem_of_In _].
    destruct Hpass as (-> & Hu1 & Hf1 & _ & H1 & Hz1 & Hq1). wp_steps.
    exists (move Zombie Free z A). split; [|by apply keeps_move]. eapply inv_release; [done|done|done|done| | |].
    + by rewrite move_other.
    + by rewrite move_other.
    + eapply procs_move; [exact H|done|exact Hz1| |done].
      destruct (i_procs _ _ _ _ H _ _ Hz) as [[Hlen _] _]. split; [|done].
      split; [by cbn; rewrite length_insert|]. exists 0%nat. split; [|lia]. cbn.
      apply list_lookup_insert_eq. lia.
  - destruct (_ && _).
    + destruct Hpass as [-> ->]. unfold wait_block. wp_steps. rewrite Hc.
      eapply wp_sleep; [exact Hh|done|done|done|apply ok_switchkvm|].
      intros s' l2 H' Hp' Hq' Hu' Hs' Hsc _. wp_steps.
      apply sframe_ptable in Hs'. pose proof (lframe_setcpu _ _ _ _ _ Hs' Hsc) as Hset.
      exists (move Running Sleep p A). split; [|by apply keeps_move]. constructor; [done| | | |by eapply fork_move|apply H].
      * rewrite move_from by done. eapply runs_leave; [done..|apply H].
      * split; [intros k Hk; rewrite (proj2 (proj2 Hset)) by done; by apply Hl|].
        intros c'. split; [apply Hu'|]. destruct (decide (c' = c)) as [->|Hne]; [apply Hu'|].
        rewrite (proj1 (proj2 Hset)) by done. by apply Hn.
      * eapply procs_move; [exact H|done|exact Hp'| |exact Hq'].
        eapply (pok_ctx Running); [|done|by eapply i_procs].
        exact (proj2 (charge_ctx _ (set_state SLEEPING (set_chan _ (procs (pt s) p))))).
    + destruct Hpass as (-> & l' & -> & Hu' & Hf'). wp_steps. exists A. split; [|apply keeps_refl].
      eapply inv_release; [done|done|done|done|done|done|apply H].
Qed.

Lemma step_wait c s f A p :
  inv None s f A → cur c s = Some p → wp (wait c) (λ _ s', ∃ A', inv None s' f A' ∧ keeps A A') s.
Proof.
  intros H Hc. unfold wait. apply wp_bind, wp_acq; [by eapply inv_unheld|].
  intros l' Hh Hf _. destruct (inv_acquire _ _ _ _ _ _ H Hc Hh Hf) as [H1 Hc1].
  exact (step_wait_again c false _ _ _ _ H1 Hc1).
Qed.

(** *** exit and growproc *)

Lemma step_exit c s f A p :
  inv None s f A → cur c s = Some p → wp (exit_tail c p) (λ _ s', ∃ A', inv None s' f A' ∧ keeps A A') s.
Proof.
  intros H Hc. pose proof (i_table _ _ _ _ H) as Ht. pose proof (ti_reps _ _ Ht) as Hr.
  pose proof (inv_cur _ _ _ _ _ _ H Hc) as Hp.
  eapply wp_exit_tail; [by eapply inv_unheld|done..|].
  intros s' A' (H' & _ & Hu & Hset & _ & EA & Hp' & Hq'). exists A'.
  split; [|unfold keeps; rewrite EA; apply keeps_exit].
  assert (ER : A' Running = del p (A Running)).
  { rewrite EA. unfold exit_lists. rewrite move_from, wake_if_other, wake_other by done. done. }
  assert (EE : A' Embryo = A Embryo).
  { rewrite EA. unfold exit_lists. rewrite move_other, wake_if_other, wake_other by done. done. }
  eapply inv_leave; [done..|]. intros L q Hq. destruct (decide (q = p)) as [->|Hne].
  - assert (L = Zombie) as ->.
    { eapply (reps_disj _ _ (ti_reps _ _ H')); [exact Hq|]. rewrite EA. unfold exit_lists.
      rewrite move_to by done. set_solver. }
    eapply pok_same; [exact Hp'|].
    eapply (pok_ctx Running); [|done|by eapply i_procs]. cbn. rewrite (proj2 (charge_ctx _ _)).
    unfold adopt. cbn. by case_decide.
  - rewrite EA in Hq. unfold exit_lists in Hq.
    assert (Hin : ∃ L0, q ∈ A L0 ∧ (waits L = true → waits L0 = true)).
    { destruct (decide (L = Zombie)) as [->|HZ].
      - rewrite move_to, wake_if_other, wake_other in Hq by done. exists Zombie. set_solver.
      - destruct (decide (L = Running)) as [->|HR].
        + rewrite move_from, wake_if_other, wake_other, elem_of_del in Hq by done. exists Running. naive_solver.
        + rewrite move_other in Hq by done. unfold wake_if in Hq.
          assert (Hq1 : q ∈ wake_lists (pt s) (chan_of (parent (procs (pt s) p))) A L ∨
            (q ∈ A Sleep ∧ ∃ i, L = Ready i)).
          { destruct (has_child _ _ _); [|auto].
            apply wake_sub in Hq as [Hq|(Hq & _ & Hi)]; [auto|].
            apply wake_sub in Hq as [Hq|(_ & _ & ? & ?)]; [auto|done]. }
          destruct Hq1 as [Hq1|[Hs [i ->]]]; [|by exists Sleep].
          apply wake_sub in Hq1 as [Hq1|(Hs & _ & i & ->)]; [by exists L|by exists Sleep]. }
    destruct Hin as (L0 & Hin & Hw). eapply pok_same; [by apply (Hq' L0)|].
    pose proof (i_procs _ _ _ _ H _ _ Hin) as Hok. apply (pok_weaken _ L) in Hok; [|done].
    unfold exit_proc, adopt, roused. repeat case_decide; exact Hok.
Qed.

Lemma step_grow c n s f A p :
  inv None s f A → cur c s = Some p → wp (growproc c n) (λ _ s', ∃ A', inv None s' f A' ∧ keeps A A') s.
Proof.
  intros H Hc. unfold growproc. apply wp_bind, (wp_myproc c p); [done|]. ksteps.
  assert (Hk : ∀ k, inv None (put_ext k s) f A) by (intros k; by destruct H; constructor).
  assert (Hup : ∀ z k k', inv None (put_ext k' (put_pt (updt p (set_sz z) (pt s)) (put_ext k s))) f A).
  { intros z k k'. destruct H as [H1 H2 H3 H4 H5 H6]. constructor; try done.
    - by apply tinv_upd.
    - intros L q Hq. unfold updt. cbn. destruct (decide (q = p)) as [->|Hne].
      + rewrite fn_lookup_alter. exact (H4 _ _ Hq).
      + rewrite fn_lookup_alter_ne by done. by apply H4. }
  assert (Hend : ∀ k r, wp (match r with
     | None => mret (-1)
     | Some sz1 => upd p (set_sz sz1);; onK (switchuvm (pgdir (procs (pt s) p)));; mret 0
     end) (λ _ s', ∃ A', inv None s' f A' ∧ keeps A A') (put_ext k s)).
  { intros k [z|]; ksteps; [|exists A; split; [done|apply keeps_refl]]. apply wp_service; [apply ok_switchuvm|].
    intros _ k'. ksteps. exists A. split; [apply Hup|apply keeps_refl]. }
  destruct (0 <? n); [|destruct (n <? 0)]; ksteps.
  - apply wp_service; [apply ok_allocuvm|]. intros z k. wp_steps. destruct (z =? 0); [apply (Hend k None)|apply (Hend k (Some z))].
  - apply wp_service; [apply ok_deallocuvm|]. intros z k. wp_steps. destruct (z =? 0); [apply (Hend k None)|apply (Hend k (Some z))].
  - apply wp_service; [apply ok_switchuvm|]. intros _ k. ksteps. exists A. split; [|apply keeps_refl]. destruct s.
    exact (Hup _ ext0 k).
Qed.

(** *** The scheduler and the process it switches to *)

Lemma cand_sub s A L q :
  q ∈ cand_lists s A L → ∃ L0, q ∈ A L0 ∧ (waits L = true → waits L0 = true).
Proof.
  unfold cand_lists. destruct (due s); [|eauto].
  destruct L as [| | | | |[|i]]; cbn; [by eauto..| |].
  - intros [Hq|Hq]%elem_of_app; [by exists (Ready 0)|by exists (Ready 1)].
  - intros Hq. by exists (Ready (S (S i))).
Qed.

Lemma cand_other s A L : (∀ i, L ≠ Ready i) → cand_lists s A L = A L.
Proof.
  intros H. unfold cand_lists. destruct (due s); [|done].
  destruct L as [| | | | |i]; try done. by destruct (H i).
Qed.

Lemma cand_pok s L L' r : pok L' r → pok L' (cand s L r).
Proof.
  unfold cand, promo_on, promo. intros H. destruct (due s); [|done]. destruct (promotes L); [|done].
  by destruct (0 <? priority r).
Qed.

(** A sleeper takes its lock back and, later, releases it. *)
Lemma wp_relock c k s (Q : unit → kstate → Prop) :
  unheld c (ls s) → k ≠ PTABLE → Spinlock.locked (Spinlock.locks (ls s) k) = false →
  (∀ l', unheld c l' →
     (∀ c', Spinlock.proc (Spinlock.cpus l' c') = Spinlock.proc (Spinlock.cpus (ls s) c')) →
     (∀ c', c' ≠ c → Spinlock.cpus l' c' = Spinlock.cpus (ls s) c') →
     (∀ k', k' ≠ k → Spinlock.locks l' k' = Spinlock.locks (ls s) k') →
     Spinlock.locked (Spinlock.locks l' k) = false → Q tt (put_ls l' s)) →
  wp (acquire c k) (λ _ s', wp (release c k) Q s') s.
Proof.
  intros [Hl Hn] Hk Hf HQ. apply wp_onL, Spinlock.wp_acquire; [done|].
  intros l3 Ec3 (Eo3 & Ek3 & _) Hl3 Ho3. unfold Spinlock.acq_cpu in Ec3. rewrite Hn in Ec3. cbn in Ec3.
  apply wp_onL, Spinlock.wp_release; cbn; rewrite ?Ec3; try done.
  intros l4 Ec4 (Eo4 & Ek4 & _) Hl4 _. unfold Spinlock.rel_cpu in Ec4. cbn in Ec4.
  apply (HQ l4).
  - split; [|by rewrite Ec4]. rewrite Ek4, Ek3 by done. done.
  - intros c'. destruct (decide (c' = c)) as [->|Hne]; [by rewrite Ec4|by rewrite Eo4, Eo3].
  - intros c' ?. by rewrite Eo4, Eo3.
  - intros k' ?. by rewrite Ek4, Ek3.
  - done.
Qed.

(** The resumption of process [p], which the scheduler has just switched to. *)
Lemma step_resume c s f A p :
  inv (Some c) s f A → cur c s = Some p → resumable (procs (pt s) p) →
  wp (x ← fld p context; Proc.resume (fo := no_fs) c;; continue c x)
     (λ _ s', ∃ A', inv None s' f A' ∧ keeps A A') s.
Proof.
  intros H Hc Hres. destruct (i_locks _ _ _ _ H) as [Hl [Hh Hn]].
  assert (Hchan : ∀ l', held c l' → lframe c (ls s) l' →
    inv (Some c) (put_pt (updt p (set_chan NullChan) (pt s)) (put_ls l' s)) f A).
  { intros l' Hh' Hf'. destruct H as [H1 H2 H3 H4 H5 H6]. constructor; try done.
    - by apply tinv_upd.
    - by eapply runs_lframe.
    - split; [intros k Hk; cbn; rewrite (proj2 (proj2 Hf')) by done; by apply Hl|]. split; [done|].
      intros c' Hne. cbn. rewrite (proj1 (proj2 Hf')) by done. by apply Hn.
    - intros L q Hq. unfold updt. cbn. destruct (decide (q = p)) as [->|Hne].
      + rewrite fn_lookup_alter. exact (H4 _ _ Hq).
      + rewrite fn_lookup_alter_ne by done. by apply H4. }
  assert (Hend : ∀ s1 l' b, inv (Some c) s1 f A → unheld c l' → lframe c (ls s1) l' →
    ∃ A', inv None (put_first b (put_ls l' s1)) f A' ∧ inv None (put_ls l' s1) f A' ∧ keeps A A').
  { intros s1 l' b Hi Hu Hf. exists A. split; [|split; [|apply keeps_refl]]; eapply (inv_release c s1); try done; apply Hi. }
  apply wp_bind, wp_fld, wp_bind. unfold Proc.resume. apply wp_bind, (wp_myproc c p); [done|].
  apply wp_bind, wp_fld. unfold resumable in Hres.
  destruct (context (procs (pt s) p)) as [| |ie k] eqn:Ectx; [done| |].
  - unfold forkret. apply wp_bind, wp_rel; [done|]. intros l' Hu Hf _. ksteps.
    destruct (Hend s l' false H Hu Hf) as (A' & I1 & I2 & I3). destruct (first s); ksteps.
    + change (∃ A', inv None (put_first false (put_ls l' s)) f A' ∧ keeps A A'). eauto.
    + change (∃ A', inv None (put_ls l' s) f A' ∧ keeps A A'). eauto.
  - apply wp_bind, wp_onL. unfold Spinlock.upd_cpu. wp_steps.
    set (l1 := Spinlock.mklstate _ _ _).
    assert (Hh1 : held c l1).
    { unfold held, l1. cbn. by rewrite fn_lookup_alter. }
    assert (Hf1 : lframe c (ls s) l1).
    { split; [|split; [|done]]; intros c'; unfold l1; cbn.
      - destruct (decide (c' = c)) as [->|]; [by rewrite fn_lookup_alter|by rewrite fn_lookup_alter_ne].
      - intros ?. by rewrite fn_lookup_alter_ne. }
    assert (Hc1 : cur c (put_ls l1 s) = Some p) by (unfold cur; cbn -[l1]; by rewrite (proj1 Hf1)).
    destruct k as [|[k|]|]; [| | |done].
    + apply wp_rel; [done|]. intros l' Hu Hf _. wp_steps. exists A. split; [|apply keeps_refl].
      eapply (inv_release c s); [done|apply H|done|by eapply lframe_trans|done|done|apply H].
    + unfold sleep_return. apply wp_bind, (wp_myproc c p); [done|]. ksteps.
      specialize (Hchan l1 Hh1 Hf1). unfold continue.
      destruct (decide (Some k = Some PTABLE)) as [Ek|Ek]; wp_steps.
      * injection Ek as ->. rewrite decide_True by done. wp_steps.
        eapply wp_mono; [by eapply step_wait_again|]. intros o s' Hs'. by wp_steps.
      * rewrite decide_False by congruence. assert (Hk : k ≠ PTABLE) by congruence.
        apply wp_rel; [done|]. intros l2 Hu2 Hf2 _.
        apply wp_relock; [done|done| |].
        { cbn. cbn in Hf2. rewrite (proj2 (proj2 Hf2)) by done. by apply (i_locks _ _ _ _ Hchan). }
        cbn in Hf2. intros l3 Hu3 Ep3 Eo3 Ek3 Hl3. cbn in Ep3, Eo3, Ek3. exists A. split; [|apply keeps_refl].
        pose proof (inv_release c _ (put_ls l2 (put_pt (updt p (set_chan NullChan) (pt s)) (put_ls l1 s)))
          f A A Hchan (i_table _ _ _ _ Hchan) Hu2 Hf2 eq_refl eq_refl (i_procs _ _ _ _ Hchan)) as J.
        destruct J as [J1 J2 [J3 J3'] J4 J5 J6]. constructor; try done.
        -- by eapply runs_same.
        -- split.
           ++ intros k' Hk'. cbn. destruct (decide (k' = k)) as [->|Hkk]; [done|].
              rewrite Ek3 by done. by apply J3.
           ++ intros c'. split; [apply Hu3|]. destruct (decide (c' = c)) as [->|Hne]; [apply Hu3|].
              cbn. rewrite Eo3 by done. apply J3'.
    + unfold sleep_return. apply wp_bind, (wp_myproc c p); [done|]. ksteps.
      rewrite decide_False by done. specialize (Hchan l1 Hh1 Hf1). ksteps.
      apply wp_rel; [done|]. intros l' Hu Hf _. ksteps. exists A. split; [|apply keeps_refl].
      eapply inv_release; [exact Hchan|apply Hchan|done|done|done|done|apply Hchan].
Qed.

(** The scheduler takes the head of the first ready list, if there is one. *)
Definition serves A A' : Prop := tl (A (Ready 0)) `prefix_of` A' (Ready 0).

Lemma cand_NoDup s A : reps (pt s) A → NoDup (cand_lists s A (Ready 0)).
Proof.
  intros Hr. unfold cand_lists. destruct (due s); [cbn|by eapply (reps_NoDup _ _ (Ready 0))].
  apply NoDup_app. split; [by eapply (reps_NoDup _ _ (Ready 0))|]. split; [|by eapply (reps_NoDup _ _ (Ready 1))].
  intros q H0 H1. by pose proof (reps_disj _ _ Hr _ _ _ H0 H1).
Qed.
Lemma serves_pick s A j p A' : is_pick (cand_lists s A) (Some (j, p)) →
  keeps (move (Ready j) Running p (cand_lists s A)) A' → NoDup (cand_lists s A (Ready 0)) → serves A A'.
Proof.
  intros [[l El] Hlow] Hk Hnd. assert (Hc : keeps A (cand_lists s A)).
  { unfold cand_lists. destruct (due s); [|apply keeps_refl]. unfold keeps. cbn. by apply prefix_app_r. }
  unfold serves. unfold keeps in Hc. destruct (A (Ready 0)) as [|q l0] eqn:E0; [apply prefix_nil|]. cbn [tl].
  destruct (decide (j = 0%nat)) as [->|Hj].
  - rewrite El in Hc, Hnd. apply prefix_cons_inv_1 in Hc as Hq. apply prefix_cons_inv_2 in Hc. subst q.
    unfold keeps in Hk. apply NoDup_cons in Hnd as [Hp _]. rewrite move_from, El, del_cons in Hk by done. by etrans.
  - rewrite (Hlow 0%nat) in Hc by lia. by apply prefix_nil_inv in Hc.
Qed.

Lemma step_schedule c s f A :
  inv None s f A → cur c s = None → wp (schedule c) (λ _ s', ∃ A', inv None s' f A' ∧ serves A A') s.
Proof.
  intros H Hc. pose proof (i_table _ _ _ _ H) as Ht. unfold schedule. apply wp_bind.
  eapply wp_scheduler; [by eapply inv_unheld|done|intros; apply ok_switchuvm|].
  assert (Hcand : ∀ t' (D : list nat), (∀ L q, q ∈ A L → q ∉ D → is_proc t' q (cand s L (procs (pt s) q))) →
    ∀ L q, q ∈ cand_lists s A L → q ∉ D → pok L (procs t' q)).
  { intros t' D Hq' L q Hq HD. destruct (cand_sub _ _ _ _ Hq) as (L0 & Hq0 & Hw).
    eapply pok_same; [by apply Hq'|]. apply cand_pok.
    eapply pok_weaken; [exact Hw|]. by eapply i_procs. }
  intros [p|] s1 Hpost; cbn in Hpost.
  - destruct Hpost as (j & L & Hpick & HpL & H1 & Hp1 & Hq1 & Hh & Hset & _).
    destruct Hpick as [[l El] Hlow].
    assert (Hp : p ∈ cand_lists s A (Ready j)) by (rewrite El; set_solver).
    assert (HR : cand_lists s A Running = A Running) by (by apply cand_other).
    assert (HE : cand_lists s A Embryo = A Embryo) by (by apply cand_other).
    assert (HpR : p ∉ A Running).
    { rewrite <-HR. intros HR'. pose proof (reps_disj _ _ (ti_reps _ _ H1)) as Hd.
      assert (HpR1 : p ∈ move (Ready j) Running p (cand_lists s A) Running)
        by (rewrite move_to by done; set_solver).
      destruct (decide (due s = true)) as [Ed|Ed].
      - unfold cand_lists in HR', Hp. rewrite Ed in HR', Hp. cbn in HR'.
        destruct j as [|j]; cbn in Hp.
        + apply elem_of_app in Hp as [Hp|Hp]; by pose proof (reps_disj _ _ (ti_reps _ _ Ht) _ _ _ HR' Hp).
        + by pose proof (reps_disj _ _ (ti_reps _ _ Ht) _ _ _ HR' Hp).
      - unfold cand_lists in HR', Hp. rewrite (not_true_is_false _ Ed) in HR', Hp.
        by pose proof (reps_disj _ _ (ti_reps _ _ Ht) _ _ _ HR' Hp). }
    assert (Hpok : pok (Ready j) (cand s L (procs (pt s) p))).
    { destruct (cand_sub _ _ _ _ Hp) as (L0 & Hq0 & Hw). apply cand_pok.
      eapply pok_weaken; [exact Hw|]. by eapply i_procs. }
    assert (Hres : resumable (procs (pt s1) p)).
    { unfold resumable. rewrite (is_proc_fld _ _ _ context Hp1) by done. cbn. by apply Hpok. }
    eapply wp_mono; [eapply (step_resume _ _ _ (move (Ready j) Running p (cand_lists s A))); [|apply Hset|exact Hres]|].
    2: { intros _ s' (A' & I & Hk). exists A'. split; [done|]. eapply serves_pick; [split; [by exists l|exact Hlow]|done|]. by apply cand_NoDup, Ht. }
    constructor; [done| | | | |apply H].
    + rewrite move_to, HR by done. eapply runs_enter; [done..|apply H].
    + eapply locks_held; [apply H|done|apply Hset..].
    + intros L' q Hq. destruct (decide (q = p)) as [->|Hne].
      * assert (L' = Running) as ->.
        { eapply (reps_disj _ _ (ti_reps _ _ H1)); [exact Hq|]. rewrite move_to by done. set_solver. }
        eapply pok_same; [exact Hp1|]. split; [apply Hpok|done].
      * eapply (Hcand _ [p]); [|..|set_solver].
        { intros L0 q0 Hq0 Hn0. apply Hq1; [done|set_solver]. }
        unfold move in Hq. destruct (decide (L' = Running)) as [->|N1].
        { rewrite fn_lookup_insert in Hq. rewrite fn_lookup_insert_ne in Hq by done. set_solver. }
        rewrite fn_lookup_insert_ne in Hq by done. destruct (decide (L' = Ready j)) as [->|N2].
        { rewrite fn_lookup_insert in Hq. by apply elem_of_del in Hq as [_ ?]. }
        by rewrite fn_lookup_insert_ne in Hq.
    + intros x np Hx. rewrite move_other, HE by done. by eapply i_fork.
  - destruct Hpost as (Hnone & H1 & Hq1 & Hu & Hf & _ & _). wp_steps. exists (cand_lists s A).
    split; [|unfold serves; rewrite Hnone; apply prefix_nil].
    eapply inv_stay; [done|done|done|done|by apply cand_other|by apply cand_other|].
    intros L q Hq. eapply (Hcand _ []); [|done|set_solver]. intros; by apply Hq1.
Qed.

(** *** All steps *)

Lemma wp_onS {B} (m : M kstate B) (Q : B → mstate → Prop) (x : mstate) :
  wp m (λ a s', Q a (s', snd x)) (fst x) → wp (onS m) Q x.
Proof. intros H. apply (wp_zoom fst (λ s m, (s, snd m))). exact H. Qed.

(** What a step does to the first ready list. *)
Definition advance (o : op) A A' : Prop := match o with Schedule => serves A A' | _ => keeps A A' end.

Lemma exec_queue c o m A :
  MAXPRIO = 0%nat → inv None (fst m) (snd m) A → enabled c o m = true →
  wp (exec c o) (λ _ m', ∃ A', inv None (fst m') (snd m') A' ∧ advance o A A') m.
Proof.
  intros H0 H He. destruct m as [s f]. cbn [fst snd] in H.
  assert (Hkeep : ∀ B (x : M kstate B) (R : (lid → list nat) → Prop), wp x (λ _ s', ∃ A', inv None s' f A' ∧ R A') s →
    wp (onS x) (λ _ m', ∃ A', inv None (fst m') (snd m') A' ∧ R A') (s, f)).
  { intros B x R Hx. apply wp_onS. exact Hx. }
  assert (Hkeep1 : ∀ B (x : M kstate B) (R : (lid → list nat) → Prop), wp x (λ _ s', ∃ A', inv None s' f A' ∧ R A') s →
    wp (onS x;; mret tt) (λ _ m', ∃ A', inv None (fst m') (snd m') A' ∧ R A') (s, f)).
  { intros B x R Hx. apply wp_bind. eapply wp_mono; [by apply Hkeep|]. intros; by wp_steps. }
  assert (Htick : wp (modify (λ s, put_ticks (u32 (ticks s + 1)) s)) (λ _ s', ∃ A', inv None s' f A' ∧ keeps A A') s).
  { wp_steps. exists A. split; [by destruct H; constructor|apply keeps_refl]. }
  destruct (cur c s) as [p|] eqn:Ec; unfold enabled in He; cbn [fst snd] in He; rewrite Ec in He.
  2: { destruct o; try discriminate; cbn [exec advance]; apply Hkeep; [exact Htick|by eapply step_schedule|by eapply step_wakeup]. }
  destruct o; try discriminate; cbn [exec advance].
  - apply Hkeep. exact Htick.
  - apply Hkeep. by eapply step_yield.
  - apply bool_decide_eq_true in He as [_ He]. apply Hkeep. by eapply step_sleep.
  - apply Hkeep. by eapply step_wakeup.
  - apply bool_decide_eq_true in He. apply wp_bind, wp_onS.
    eapply wp_mono; [by eapply step_fork_alloc|]. intros [np|] s' (Hc' & A' & H' & Hk); [|wp_steps; by exists A'].
    apply wp_bind, wp_onS, (wp_myproc c p); [done|]. wp_steps. by exists A'.
  - apply bool_decide_eq_true in He. apply wp_bind, wp_onS, (wp_myproc c p); [done|].
    wp_steps. cbn [fst snd] in *. destruct (f p) as [np|] eqn:Ef; [|done]. wp_steps. apply wp_onS.
    eapply wp_mono; [by eapply step_fork_rest|]. intros x s' (A' & H' & Hk). wp_steps. by exists A'.
  - apply Hkeep1. by eapply step_wait.
  - apply Hkeep1. by eapply step_kill.
  - apply Hkeep1. by eapply step_setprio.
  - apply wp_bind, wp_onS, (wp_myproc c p); [done|]. apply Hkeep. by eapply step_exit.
  - apply Hkeep1. by eapply step_grow.
Qed.

Lemma exec_keeps c o m :
  MAXPRIO = 0%nat → minv m → enabled c o m = true → wp (exec c o) (λ _ m', minv m') m.
Proof.
  intros H0 [A H] He. eapply wp_mono; [by apply (exec_queue _ _ _ A)|]. intros _ m' (A' & H' & _). by exists A'.
Qed.

End ops.
End Machine.
