(* ===== verification/Boot.v ===== *)
(** * The first process (proc.c: initProcessLists, initFreeList, userinit) *)

From S2P Require Import Prelude Spinlock ProcTable CString Proc ProcInv ProcSpec.
From S2P Require Import ProcSched ProcLife ProcCtl ProcExit Machine.
Local Open Scope Z_scope.

Module Boot.
Import ProcTable Proc ProcInv ProcSpec ProcLife Machine.

Section boot.
Context `{mode : Mode} `{cfg : Config} `{sv : Services} `{svok : !ServicesOk sv}.
Implicit Types s : kstate.

(** ** Empty lists *)

Definition no_procs (L : lid) : list nat := [].

Lemma reps_empty t : (∀ L, lid_ok L → head L t = None) → reps t no_procs.
Proof.
  intros H. constructor.
  - intros L HL. by apply H.
  - intros L _ Hne. by destruct Hne.
  - intros L1 L2 p Hp. by apply not_elem_of_nil in Hp.
  - intros L p Hp. by apply not_elem_of_nil in Hp.
  - done.
Qed.

(** The five lists other than the ready lists, and then one look at each list. *)
Definition clear_rest : M ptable unit :=
  set_head Free None;; set_tail Free None;;
  set_head Sleep None;; set_tail Sleep None;;
  set_head Zombie None;; set_tail Zombie None;;
  set_head Running None;; set_tail Running None;;
  set_head Embryo None;; set_tail Embryo None.

Lemma wp_clear_rest t (Q : unit → ptable → Prop) :
  (∀ t', (∀ i, head (Ready i) t' = head (Ready i) t) → (∀ L, (∀ i, L ≠ Ready i) → head L t' = None) →
     procs t' = procs t → PromoteAtTime t' = PromoteAtTime t → Q tt t') →
  wp clear_rest Q t.
Proof.
  intros HQ. destruct t as [pr pl pat]; destruct pl as [rd rt fr ft sl st zo zt ru ru' em et].
  unfold wp, clear_rest. vm_compute.
  apply (HQ (mkptable pr (mklists rd rt None None None None None None None None None None) pat)); try done.
  intros [| | | | |i] HL; try reflexivity. by destruct (HL i).
Qed.

Lemma wp_initProcessLists t (Q : unit → ptable → Prop) :
  (∀ t', reps t' no_procs → procs t' = procs t → PromoteAtTime t' = PromoteAtTime t → Q tt t') →
  wp initProcessLists Q t.
Proof.
  intros HQ. unfold initProcessLists. apply wp_bind.
  apply (wp_count_for (λ k t1, (∀ i, (i < k)%nat → head (Ready i) t1 = None) ∧
    procs t1 = procs t ∧ PromoteAtTime t1 = PromoteAtTime t)).
  - split; [|done]. intros; lia.
  - intros k t1 _ (H & Hp & Ht). unfold set_head, set_tail. wp_steps. split; [|done]. intros i Hi.
    destruct t1 as [pr pl pat]; destruct pl; cbn in *. destruct (decide (k = i)) as [->|Hne].
    + by rewrite !fn_lookup_insert.
    + rewrite !fn_lookup_insert_ne by done. apply H. lia.
  - intros t1 (H & Hp & Ht). apply (wp_clear_rest t1). intros t2 HR HO Hp2 Ht2.
    apply HQ; [|congruence|congruence]. apply reps_empty.
    intros [| | | | |i] Hok; [apply HO; done..|]. rewrite HR. apply H. cbn in Hok. lia.
Qed.

(** ** The free list *)

Definition upto (k : nat) (L : lid) : list nat := if decide (L = Free) then seq 0 k else [].

Lemma elem_seq q k : q ∈ seq 0 k ↔ (q < k)%nat.
Proof. rewrite list_elem_of_In, in_seq. lia. Qed.

(** All slots are free; [t] gives the other fields of every slot. *)
Lemma wp_initFreeList c s (Q : unit → kstate → Prop) :
  held c (ls s) → reps (pt s) no_procs →
  (∀ t', tinv t' (upto NPROC) →
     (∀ q, (q < NPROC)%nat → is_proc t' q (set_state UNUSED (procs (pt s) q))) →
     PromoteAtTime t' = PromoteAtTime (pt s) → Q tt (put_pt t' s)) →
  wp (initFreeList c) Q s.
Proof.
  intros (Hl & Ho & _) Hr HQ. unfold initFreeList, Spinlock.holding. ksteps.
  rewrite Hl, Ho, bool_decide_true by done. cbn [andb negb]. apply wp_bind.
  apply (wp_count_for (λ k s1, (k <= NPROC)%nat → ∃ t1, s1 = put_pt t1 s ∧ reps t1 (upto k) ∧
    (∀ q, (q < k)%nat → is_proc t1 q (set_state UNUSED (procs (pt s) q))) ∧
    (∀ q, (k <= q)%nat → is_proc t1 q (procs (pt s) q)) ∧ PromoteAtTime t1 = PromoteAtTime (pt s))).
  - intros _. exists (pt s). split; [by destruct s|]. split; [|split; [intros; lia|]].
    + eapply reps_ext; [|exact Hr]. intros L. unfold upto. by case_decide.
    + split; [|done]. intros; apply is_proc_refl.
  - intros k s1 Hk H1. destruct (H1 ltac:(lia)) as (t1 & -> & Hr1 & Hd & Hn & Ht1). ksteps.
    set (t2 := updt k (set_state UNUSED) t1).
    assert (Hr2 : reps t2 (upto k)).
    { eapply reps_procs; [| |exact Hr1]; [done|]. intros L q _. unfold t2.
      destruct (decide (q = k)) as [->|]; [by rewrite procs_updt_eq|by rewrite procs_updt_ne]. }
    apply wp_onT. eapply wp_stateListAdd; [exact Hr2|done|lia| |].
    { intros L. unfold upto. case_decide; [rewrite elem_seq; lia|set_solver]. }
    intros t3 Hr3 Hl3. change (relinked t2 t3) in Hl3. ksteps. intros _. exists t3. split; [done|]. split; [|split; [|split]].
    + eapply reps_ext; [|exact Hr3]. intros L. unfold upto. destruct (decide (L = Free)) as [->|HL].
      * rewrite fn_lookup_insert, decide_True by done. by rewrite seq_S.
      * by rewrite fn_lookup_insert_ne, decide_False.
    + intros q Hq. eapply is_proc_relinked; [exact Hl3|]. unfold t2, is_proc.
      destruct (decide (q = k)) as [->|Hne].
      * rewrite procs_updt_eq, (Hn k) by lia. done.
      * rewrite procs_updt_ne by done. apply Hd. lia.
    + intros q Hq. eapply is_proc_relinked; [exact Hl3|]. unfold t2, is_proc.
      rewrite procs_updt_ne by lia. apply Hn. lia.
    + rewrite (proj1 Hl3). done.
  - intros s1 H1. destruct (H1 ltac:(lia)) as (t1 & -> & Hr1 & Hd & _ & Ht1). wp_steps.
    apply HQ; [|done|done]. constructor; [done| |].
    + intros L q Hq. unfold upto in Hq. case_decide as HL; [|set_solver]. subst L.
      apply elem_seq in Hq. specialize (Hd q Hq). split; [by rewrite Hd|done|done].
    + intros q Hq. exists Free. unfold upto. rewrite decide_True by done. by apply elem_seq.
Qed.

(** ** userinit *)

(** The state in which main() calls userinit on the boot CPU: no CPU runs a
    process, no lock is held, the process table is statically initialised. *)
Definition booted s : Prop :=
  locks_ok None (ls s) ∧ (∀ c, cur c s = None) ∧ (∀ q, (q < NPROC)%nat → name_ok (procs (pt s) q)).

(** Only slot 0 is in use: it is ready at priority 0. *)
Definition init_lists (L : lid) : list nat :=
  match L with Free => seq 1 63 | Ready 0 => [0%nat] | _ => [] end.

Lemma init_lists_move L : move Embryo (Ready 0) 0 (move Free Embryo 0 (upto NPROC)) L = init_lists L.
Proof.
  rewrite move_move; [|done|done|by apply not_elem_of_nil].
  destruct (decide (L = Free)) as [->|H1]; [reflexivity|].
  destruct (decide (L = Ready 0)) as [->|H2]; [reflexivity|].
  rewrite move_other by done. unfold upto. rewrite decide_False by done.
  destruct L as [| | | | |[|i]]; done.
Qed.

(** The last assignment of userinit, [p->next = 0], changes nothing. *)
Lemma tinv_unlink t p A : tinv t A → A (Ready 0) = [p] → tinv (updt p (set_next None) t) A.
Proof.
  intros H E. pose proof (reps_chain _ _ (ti_reps _ _ H) (Ready 0) ltac:(cbn; lia)) as Hc.
  rewrite E in Hc. destruct Hc as [_ Hn]. cbn in Hn. unfold nx in Hn.
  assert (Ep : ∀ q, procs (updt p (set_next None) t) q = procs t q).
  { intros q. destruct (decide (q = p)) as [->|]; [|by rewrite procs_updt_ne].
    rewrite procs_updt_eq. rewrite <-Hn. by destruct (procs t p). }
  destruct H as [H1 H2 H3]. constructor; [| |done].
  - eapply reps_procs; [| |exact H1]; [done|]. intros L q _. by rewrite Ep.
  - intros L q Hq. destruct (H2 L q Hq). split; rewrite Ep; done.
Qed.

Definition userinit_post s (s' : kstate) : Prop :=
  inv None s' (λ _, None) init_lists ∧ initproc s' = Some 0%nat ∧
  PromoteAtTime (pt s') = u32 (ticks s + TICKS_TO_PROMOTE) ∧
  parent (procs (pt s') 0%nat) = None ∧ uid (procs (pt s') 0%nat) = 0 ∧ gid (procs (pt s') 0%nat) = 0 ∧
  pid (procs (pt s') 0%nat) = u32 (nextpid s) ∧ sz (procs (pt s') 0%nat) = PGSIZE ∧
  tf (procs (pt s') 0%nat) = user_tf.

(** The end of userinit, from the facts its steps establish. *)
Lemma boot_done c s t6 r6 l3 s' :
  locks_ok None (ls s) → (∀ c, cur c s = None) → lframe c (ls s) l3 → lframe c l3 (ls s') →
  tinv t6 init_lists → unheld c (ls s') → is_proc t6 0%nat r6 →
  (∀ q, (q < NPROC)%nat → q ≠ 0%nat → pok Free (procs t6 q)) → name_ok r6 →
  PromoteAtTime t6 = u32 (ticks s + TICKS_TO_PROMOTE) →
  context r6 = AtForkret → pt s' = updt 0 (set_next None) t6 → initproc s' = Some 0%nat →
  parent r6 = None ∧ uid r6 = 0 ∧ gid r6 = 0 ∧ pid r6 = u32 (nextpid s) ∧ sz r6 = PGSIZE ∧ tf r6 = user_tf →
  userinit_post s s'.
Proof.
  intros Hlk Hcur Hf1 Hf2 H6 Hu Hr6 Hq Hnm Ht Hctx Ept Hi Hflds.
  assert (Hf : lframe c (ls s) (ls s')) by (by eapply lframe_trans).
  assert (Hp : is_proc (pt s') 0%nat r6).
  { unfold is_proc. rewrite Ept, procs_updt_eq, Hr6. done. }
  assert (Hfld : ∀ B (g : proc → B), (∀ n r, g (set_next n r) = g r) → g (procs (pt s') 0%nat) = g r6)
    by (intros; by apply is_proc_fld).
  split.
  - constructor.
    + rewrite Ept. by apply tinv_unlink.
    + apply (runs_lframe c (ls s)); [done|]. split; [|split].
      * intros c' p. unfold cur in Hcur. by rewrite Hcur.
      * intros p Hp'. by apply not_elem_of_nil in Hp'.
      * intros c1 c2 p. unfold cur in Hcur. by rewrite Hcur.
    + eapply locks_unheld; [exact Hlk|done|apply Hf..].
    + intros L q Hin. destruct (decide (q = 0%nat)) as [->|Hne].
      * eapply pok_same; [exact Hp|]. split; [done|]. intros _. unfold resumable. by rewrite Hctx.
      * assert (L = Free) as ->.
        { destruct L as [| | | | |[|i]]; cbn in Hin; try done; set_solver. }
        rewrite Ept, procs_updt_ne by done. apply Hq; [|done].
        by eapply (reps_lt _ _ (ti_reps _ _ H6) Free).
    + done.
    + done.
  - split; [done|]. split; [by rewrite Ept|].
    rewrite (Hfld _ parent), (Hfld _ uid), (Hfld _ gid), (Hfld _ pid), (Hfld _ sz), (Hfld _ tf) by done.
    exact Hflds.
Qed.

Lemma wp_userinit c s (Q : unit → kstate → Prop) :
  booted s → (∀ k k', kalloc k = Ok None k' → may_fail) →
  (∀ k k', setupkvm k = Ok None k' → may_fail) →
  (∀ s', userinit_post s s' → Q tt s') → wp (userinit c) Q s.
Proof.
  intros (Hlk & Hcur & Hnm) Hka Hse HQ. unfold userinit, getlock, freelock.
  apply wp_bind, wp_bind, wp_acq; [apply Hlk|]. intros l1 Hh1 Hf1 _. ksteps. apply wp_onT. wp_steps.
  apply wp_onT, wp_initProcessLists. intros t1 Hr1 Hp1 Ht1. cbn in Hp1, Ht1. wp_steps.
  apply wp_initFreeList; [done|done|]. intros t2 H2 Hp2 Ht2. cbn in Hp2. rewrite Hp1 in Hp2. cbn in Ht2.
  wp_steps. apply wp_rel; [done|]. intros l2 Hu2 Hf2 _. cbn in Hf2. wp_steps.
  assert (Hf : lframe c (ls s) l2) by (by eapply lframe_trans). clear Hf1 Hf2.
  eapply wp_allocproc; [done|exact H2|]. intros o s3 (Hu3 & Hf3 & _ & _ & _ & Hpt3 & Hpost).
  cbn -[upto] in Hpost, Hf3. change (upto NPROC Free) with (0%nat :: seq 1 63) in Hpost. cbv iota in Hpost.
  destruct Hpost as (Hn3 & Hq3 & Ho). destruct o as [p|].
  2: { destruct Ho as (Ek & _). ksteps. exact (Hka _ _ Ek). }
  destruct Ho as (-> & H3 & ks & Hks & _). ksteps.
  assert (Hnm3 : ∀ q, (q < NPROC)%nat → name_ok (procs (pt s3) q)).
  { intros q Hq. unfold name_ok. destruct (decide (q = 0%nat)) as [->|Hne].
    - rewrite (is_proc_fld _ _ _ name Hks) by done. cbn.
      rewrite (is_proc_fld _ _ _ name (Hp2 0%nat Hq)) by done. by apply Hnm.
    - rewrite (is_proc_fld _ _ _ name (Hq3 q Hne)) by done. cbn.
      rewrite (is_proc_fld _ _ _ name (Hp2 q Hq)) by done. by apply Hnm. }
  assert (Hp : 0%nat ∈ move Free Embryo 0 (upto NPROC) Embryo) by apply given.
  pose proof (mv_start_at _ _ 0%nat _ H3 (reps_lt _ _ (ti_reps _ _ H3) _ _ Hp) Hks) as Hm.
  apply wp_service_eq; [apply ok_setupkvm|]. intros [pg|] k1 Ek; [|exact (Hse _ _ Ek)]. ksteps.
  mv_upds Hm. apply wp_service; [apply ok_inituvm|]. intros _ k2. ksteps. mv_upds Hm.
  rewrite (mv_fld _ _ _ _ _ name Hm) by done.
  assert (Hlen : length (name (procs t2 0%nat)) = 16%nat).
  { rewrite (is_proc_fld _ _ _ name (Hp2 0%nat ltac:(unfold NPROC; lia))) by done. cbn. apply Hnm. unfold NPROC; lia. }
  assert (Hz : CString.first_nul initcode_name 8).
  { split; [done|]. intros k Hk. do 8 (destruct k as [|k]; [done|]). lia. }
  destruct (CString.safestrcpy_spec (name (procs t2 0%nat)) initcode_name 16 8 Hz)
    as (nm & Enm & Hnl & Hcs & _); [lia|].
  eapply wp_lift_opt; [exact Enm|]. ksteps. mv_upds Hm.
  apply wp_service; [apply ok_namei_root|]. intros d k3. ksteps. mv_upds Hm.
  apply wp_acq; [done|]. intros l4 Hh4 Hf4 _. ksteps.
  apply wp_onT. eapply wp_mv_take; [exact Hm|exact Hp|]. clear Hm. intros t4 Hm. ksteps.
  apply wp_onT. eapply wp_mv_assert; [exact Hm|done|]. ksteps. mv_upds Hm.
  rewrite (mv_fld _ _ _ _ _ priority Hm) by done. apply wp_ready_idx; [cbn; lia|]. apply wp_bind, wp_onT.
  eapply wp_mv_give; [exact Hm| |cbn; lia|].
  { intros L'. eapply taken; [apply (ti_reps _ _ H3)|exact Hp]. }
  clear Hm. intros t5 Hm. ksteps. mv_upds Hm. apply wp_rel; [done|]. intros l6 Hu6 Hf6 _. ksteps.
  mv_upds Hm. 
  match type of Hm with mv _ ?t _ _ ?r => set (t6 := t) in *; set (r6 := r) in Hm end.
  apply HQ. eapply (boot_done c s t6 r6 (ls s3)); [done|done|exact (lframe_trans _ _ _ _ Hf Hf3)| | |exact Hu6|..].
  - exact (lframe_trans _ _ _ _ Hf4 Hf6).
  - eapply tinv_ext; [intros L; apply init_lists_move|].
    eapply mv_close; [exact Hm|apply given|]. split; [done|]. split; [cbn; lia|done].
  - apply Hm.
  - intros q Hq Hne. eapply pok_same; [by apply Hm|]. split; [by apply Hnm3|done].
  - change (length nm = 16%nat ∧ ∃ z, CString.first_nul nm z). rewrite Hnl, Hlen. split; [done|]. apply CString.cstr_short.
    rewrite Hcs, Hnl, Hlen, length_take. lia.
  - rewrite (mv_time _ _ _ _ _ Hm), Hpt3. cbn. by rewrite Ht2, Ht1.
  - done.
  - done.
  - done.
  - done.
Qed.

End boot.
End Boot.
