(* ===== verification/Example.v ===== *)
(** * A concrete machine

    Services that always succeed, a statically initialised process table and a
    few runs of the machine: the concrete inputs at which the theorems of this
    development are applied. *)

From S2P Require Import Prelude Spinlock ProcTable CString Proc ProcInv ProcSpec.
From S2P Require Import ProcSched ProcLife ProcCtl ProcExit Machine Boot.
Local Open Scope Z_scope.

Module Example.
Import ProcTable Proc ProcInv ProcSpec ProcLife Machine Boot.

(** The component state is the address of the next free page. *)
Definition toy : Services :=
  {| K := Z;
     kalloc := λ k, Ok (Some k) (k + 4096);
     kfree := λ _ k, Ok tt k;
     setupkvm := λ k, Ok (Some k) (k + 4096);
     inituvm := λ _ k, Ok tt k;
     copyuvm := λ _ _ k, Ok (Some k) (k + 4096);
     freevm := λ _ k, Ok tt k;
     allocuvm := λ _ _ n k, Ok n k;
     deallocuvm := λ _ _ n k, Ok n k;
     switchuvm := λ _ k, Ok tt k;
     switchkvm := λ k, Ok tt k;
     filedup := λ f k, Ok f k;
     idup := λ i k, Ok i k;
     namei_root := λ k, Ok 1 k |}.

Lemma toy_ok : ServicesOk (mode := Total) toy.
Proof. constructor; intros; exact I. Qed.

Definition cpu0 : Spinlock.cpu := Spinlock.mkcpu None 0 false false 0.
Definition lock0 : Spinlock.spinlock := Spinlock.mklock false "lock" None (replicate 10 0).
Definition ls0 : Spinlock.lstate := Spinlock.mklstate (λ _, cpu0) (λ _, lock0) (λ _, 0).
Definition proc0 : proc :=
  mkproc 0 0 0 UNUSED 0 None 0 tf_zero 0 NoContext NullChan 0 (replicate 16 0) 0 (replicate 16 0)
    0 0 0 0 0 None 0 0.
Definition lists0 : StateLists :=
  mklists (λ _, None) (λ _, None) None None None None None None None None None None.
Definition table0 : ptable := mkptable (λ _, proc0) lists0 0.

#[local] Existing Instance toy.

Definition boot0 : kstate := mkk ls0 table0 None 1 0 true [] 0 1048576.

Lemma boot0_booted : booted boot0.
Proof.
  split; [|split].
  - split; [done|]. intros c. done.
  - done.
  - intros q _. split; [done|]. exists 0%nat. split; [done|]. intros; lia.
Qed.

(** The machine after userinit, and after a sequence of steps; a step that is
    not enabled or does not return leaves it. *)
Definition mach0 `{Config} : mstate :=
  match userinit 0 boot0 with Ok _ s => (s, λ _, None) | _ => (boot0, λ _, None) end.

Fixpoint run `{Config} (l : list (nat * op)) (m : mstate) : mstate :=
  match l with
  | [] => m
  | (c, o) :: l =>
      run l (if enabled c o m then match exec c o m with Ok _ m' => m' | _ => m end else m)
  end.

End Example.
