(* ===== verification/ProcProps.v ===== *)
(** * Properties of process management

    The theorems about proc.c: the process table as a set of state lists, each
    operation, and the kernel as a whole running on several CPUs. *)

From S2P Require Import Prelude Spinlock ProcTable CString Proc ProcInv ProcSpec.
From S2P Require Import ProcSched ProcLife ProcCtl ProcExit Machine Boot Example.
Local Open Scope Z_scope.

Module ProcProps.
Import ProcTable Proc ProcInv ProcSpec ProcSched ProcLife ProcCtl ProcExit Machine Boot Example.

(** The states the machine can reach from userinit. *)
Inductive reachable `{Config} `{Services} : mstate → Prop :=
| reach_init c s0 s : booted s0 → userinit c s0 = Ok tt s → reachable (s, λ _, None)
| reach_step m m' : reachable m → step m m' → reachable m'.

(** ** The machine, with the repository's MAXPRIO *)

Section machine.
#[local] Existing Instance param_h.

Lemma reachable_minv `{sv : Services} m : reachable m → minv m.
Proof.
  induction 1 as [c s0 s Hb E|m m' _ IH (c & o & He & E)].
  - refine (wp_partial _ (λ _ s', minv (s', λ _, None)) _ _ _ _ E).
    apply (wp_userinit (mode := Partial)); [done|done|done|].
    intros s' (Hi & _). by exists init_lists.
  - refine (wp_partial _ (λ _ m', minv m') _ _ _ _ E). by apply (exec_keeps (mode := Partial)).
Qed.

#[local] Existing Instance toy.

Lemma run_reachable l m : reachable m → reachable (run l m).
Proof.
  revert m. induction l as [|[c o] l IH]; intros m Hm; [done|]. simpl. apply IH.
  destruct (enabled c o m) eqn:He; [|done].
  destruct (exec c o m) as [[] m'|? ?|? ?|?] eqn:E; try done.
  eapply reach_step; [done|]. by exists c, o.
Qed.

Lemma mach0_reachable : reachable mach0.
Proof.
  unfold mach0. destruct (userinit 0 boot0) as [[] s|? ?|? ?|?] eqn:E; [|vm_compute in E; discriminate..].
  eapply reach_init; [apply boot0_booted|exact E].
Qed.

Lemma mach_reachable l : reachable (run l mach0).
Proof. apply run_reachable, mach0_reachable. Qed.

(** CPU 0 runs init; CPU 1 is idle. *)
Definition mach1 : mstate := run [(0%nat, Schedule)] mach0.
(** init has forked a child, which is ready. *)
Definition mach2 : mstate := run [(0%nat, Schedule); (0%nat, ForkAlloc); (0%nat, ForkRest)] mach0.
(** Both processes run. *)
Definition mach3 : mstate :=
  run [(0%nat, Schedule); (0%nat, ForkAlloc); (0%nat, ForkRest); (1%nat, Schedule)] mach0.

(** C1: in every state that any interleaving of the operations of proc.c on
    any number of CPUs reaches from userinit, the process table is in order:
    every slot is on exactly one state list, the one for its state, the lists
    are well-formed chains with correct tails, the running list holds exactly
    the processes on CPUs, no lock is held, every process that waits can be
    resumed and every slot fork has allocated is an embryo. *)
Theorem machine_invariant `{sv : Services} (m : mstate) : reachable m → minv m.
Proof. apply reachable_minv. Qed.

Lemma machine_invariant_witness : minv mach3 ∧ cur 0 (fst mach3) = Some 0%nat ∧ cur 1 (fst mach3) = Some 1%nat.
Proof.
  split; [apply machine_invariant, (mach_reachable [(0%nat, Schedule); (0%nat, ForkAlloc); (0%nat, ForkRest); (1%nat, Schedule)])|].
  split; vm_compute; reflexivity.
Defined.

(** C2: no operation of proc.c can panic, fault or hang in a reachable state,
    provided the memory and file services it calls return: whatever step is
    enabled completes, and its result is again a reachable state. *)
Theorem machine_safe `{sv : Services} (c : nat) (o : op) (m : mstate) :
  ServicesOk (mode := Total) sv → reachable m → enabled c o m = true →
  ∃ m', exec c o m = Ok tt m' ∧ reachable m' ∧ minv m'.
Proof.
  intros Hok Hm He.
  destruct (wp_total _ _ _ (exec_keeps (mode := Total) (cfg := param_h) c o m eq_refl (reachable_minv m Hm) He))
    as ([] & m' & E & H'). exists m'. split; [done|]. split; [|done].
  eapply reach_step; [done|]. by exists c, o.
Qed.

Lemma machine_safe_witness : ∃ m', exec 1 Exit mach3 = Ok tt m' ∧ reachable m' ∧ minv m'.
Proof.
  apply machine_safe; [apply toy_ok| |vm_compute; reflexivity].
  apply (mach_reachable [(0%nat, Schedule); (0%nat, ForkAlloc); (0%nat, ForkRest); (1%nat, Schedule)]).
Defined.

(** Mutual exclusion of CPUs: in a reachable state a process runs on at
    most one CPU, and a process on a CPU is RUNNING and on no ready list. *)
Theorem machine_exclusive `{sv : Services} (c p : nat) (m : mstate) :
  reachable m → cur c (fst m) = Some p →
  state (procs (pt (fst m)) p) = RUNNING ∧ (p < NPROC)%nat ∧
  ∀ c', cur c' (fst m) = Some p → c' = c.
Proof.
  intros Hm Hc. destruct (reachable_minv m Hm) as [A H].
  pose proof (inv_cur _ _ _ _ _ _ H Hc) as Hp. split; [|split].
  - exact (good_state _ _ _ (ti_good _ _ (i_table _ _ _ _ H) _ _ Hp)).
  - exact (reps_lt _ _ (ti_reps _ _ (i_table _ _ _ _ H)) _ _ Hp).
  - intros c' Hc'. destruct (i_runs _ _ _ _ H) as (_ & _ & Hinj). by eapply Hinj.
Qed.

Lemma machine_exclusive_witness :
  state (procs (pt (fst mach3)) 1%nat) = RUNNING ∧ (1 < NPROC)%nat ∧
  ∀ c', cur c' (fst mach3) = Some 1%nat → c' = 1%nat.
Proof.
  apply machine_exclusive; [|vm_compute; reflexivity].
  apply (mach_reachable [(0%nat, Schedule); (0%nat, ForkAlloc); (0%nat, ForkRest); (1%nat, Schedule)]).
Defined.

End machine.

(** ** The operations

    Each holds for every value of MAXPRIO and all services that return. *)

Section operations.
Context `{cfg : Config} `{sv : Services} `{svok : !ServicesOk (mode := Total) sv}.
Implicit Types s : kstate.
Implicit Types A : lid → list nat.

(** Userinit, on the statically initialised table, puts every slot on the
    free list and makes slot 0 the first process: ready at priority 0, with
    user id, group id and parent 0 and the initial user registers. *)
Theorem userinit_boots c s :
  booted s → (∀ k k', kalloc k ≠ Ok None k') → (∀ k k', setupkvm k ≠ Ok None k') →
  ∃ s', userinit c s = Ok tt s' ∧ userinit_post s s'.
Proof.
  intros Hb Hk Hs. destruct (wp_total _ _ _ (wp_userinit (mode := Total) c s (λ _, userinit_post s) Hb
    (λ k k' E, Hk k k' E) (λ k k' E, Hs k k' E) (λ s' H, H))) as ([] & s' & E & H). by exists s'.
Qed.

(** stateListAdd appends: from lists [A] it returns 0 and the table then
    represents [A] with the process at the end of list [L]; no field of any
    process but the list links changes. *)
Theorem stateListAdd_appends t A L p :
  reps t A → lid_ok L → (p < NPROC)%nat → (∀ L', p ∉ A L') →
  ∃ t', stateListAdd L (Some p) t = Ok 0 t' ∧ reps t' (<[L := A L ++ [p]]> A) ∧ relinked t t'.
Proof.
  intros Hr HL Hp Hn.
  destruct (wp_total _ _ _ (wp_stateListAdd (mode := Total) L p A t
    (λ r t', r = 0 ∧ reps t' (<[L := A L ++ [p]]> A) ∧ relinked t t') Hr HL Hp Hn
    (λ t' H1 H2, conj eq_refl (conj H1 H2)))) as (r & t' & E & -> & ? & ?). by exists t'.
Qed.

(** C4: stateListRemove deletes: if the process is on list [L] it returns 0 and
    the table then represents [A] without it; if it is on another list or on
    none it returns -1 and changes nothing. *)
Theorem stateListRemove_deletes t A L p :
  reps t A → lid_ok L →
  if decide (p ∈ A L) then
    ∃ t', stateListRemove L (Some p) t = Ok 0 t' ∧ reps t' (<[L := del p (A L)]> A) ∧ relinked t t'
  else stateListRemove L (Some p) t = Ok (-1) t.
Proof.
  intros Hr HL. destruct (decide (p ∈ A L)) as [Hp|Hp]; [|by eapply stateListRemove_missing].
  destruct (wp_total _ _ _ (wp_stateListRemove (mode := Total) L p A t
    (λ r t', r = 0 ∧ reps t' (<[L := del p (A L)]> A) ∧ relinked t t') Hr HL Hp
    (λ t' H1 H2, conj eq_refl (conj H1 H2)))) as (r & t' & E & -> & ? & ?). by exists t'.
Qed.

(** Wakeup1(chan) makes ready exactly the processes sleeping on [chan]: in
    their order, each at the end of the ready list of its priority; every
    other sleeper stays asleep and no other field changes. *)
Theorem wakeup1_wakes t A ch :
  tinv t A →
  ∃ t', wakeup1 ch t = Ok tt t' ∧ tinv t' (wake_lists t ch A) ∧
        ∀ q, is_proc t' q (woken_proc t ch (A Sleep) q).
Proof.
  intros H. destruct (wp_total _ _ _ (wp_wakeup1 (mode := Total) t A ch
    (λ _ t', tinv t' (wake_lists t ch A) ∧ ∀ q, is_proc t' q (woken_proc t ch (A Sleep) q)) H
    (λ t' H1 H2 _, conj H1 H2))) as ([] & t' & E & ? & ?). by exists t'.
Qed.

(** One iteration of the scheduler: after the promotion, if it is due, the
    process at the head of the highest-priority non-empty ready list is moved
    to the running list, marked RUNNING and set as the CPU's process with its
    start-of-slice time; if and only if no process is ready nothing is
    dispatched and the CPU is left with interrupts on. *)
Theorem scheduler_dispatches c s A :
  unheld c (ls s) → tinv (pt s) A →
  ∃ o s', scheduler c s = Ok o s' ∧ sched_post c s A o s' ∧ (o = None ↔ ∀ i, A (Ready i) = []).
Proof.
  intros Hu H. destruct (wp_total _ _ _ (wp_scheduler (mode := Total) c s A
    (λ o s', sched_post c s A o s') Hu H (λ pg k, ok_switchuvm pg k) (λ o s' P, P))) as (o & s' & E & P).
  exists o, s'. split; [done|]. split; [done|]. destruct o as [p|]; cbn in P; [|naive_solver].
  split; [done|]. intros Hn. destruct P as (j & L & ((l & El) & _) & _). exfalso.
  unfold cand_lists in El. destruct (due s); [|by rewrite Hn in El].
  destruct j as [|j]; cbn in El; rewrite !Hn in El; done.
Qed.

(** Promotion lifts every running, sleeping and waiting process one level:
    ready list 0 receives list 1 behind its own processes, list [i] becomes
    list [i + 1], and the next promotion is scheduled. *)
Theorem promote_lifts t A :
  tinv t A →
  ∃ t', promote t = Ok tt t' ∧ tinv t' (promote_lists A) ∧
    (∀ L q, q ∈ A L → is_proc t' q (promo_on L (procs t q))) ∧
    PromoteAtTime t' = u32 (PromoteAtTime t + TICKS_TO_PROMOTE).
Proof.
  intros H. destruct (wp_total _ _ _ (wp_promote (mode := Total) t A
    (λ _ t', tinv t' (promote_lists A) ∧ (∀ L q, q ∈ A L → is_proc t' q (promo_on L (procs t q))) ∧
       PromoteAtTime t' = u32 (PromoteAtTime t + TICKS_TO_PROMOTE)) H
    (λ t' H1 H2 H3, conj H1 (conj H2 H3)))) as ([] & t' & E & P). by exists t'.
Qed.

(** Yield moves the caller from the running list to the end of a ready
    list, charges it for its time slice and, when its budget is used up and it
    is not at the lowest level, demotes it by one level with a new budget; the
    CPU is left without a process and the lock released. *)
Theorem yield_requeues c s A p :
  unheld c (ls s) → cur c s = Some p → tinv (pt s) A → p ∈ A Running →
  ∃ s', yield c s = Ok tt s' ∧
    tinv (pt s') (yield_lists (ticks s) (procs (pt s) p) p A) ∧
    is_proc (pt s') p (yielded (ticks s) (Spinlock.fl_if (Spinlock.cpus (ls s) c)) (procs (pt s) p)) ∧
    (∀ q, q ≠ p → is_proc (pt s') q (procs (pt s) q)) ∧
    unheld c (ls s') ∧ cur c s' = None ∧ (∀ c', c' ≠ c → cur c' s' = cur c' s).
Proof.
  intros Hu Hc H Hp. edestruct (wp_total _ _ _ (wp_yield (mode := Total) c s A p (λ _ s', _) Hu Hc H Hp
    ok_switchkvm (λ s' H1 H2 H3 H4 H5 _, conj H1 (conj H2 (conj H3 (conj H4 H5))))))
    as ([] & s' & E & H1 & H2 & H3 & H4 & Hcur & Hoth & _).
  exists s'. repeat (split; [done|]). intros c' Hne. unfold cur. by rewrite Hoth.
Qed.

(** Sleep(chan, lk) releases [lk] only after it holds the process table,
    puts the caller on the sleep list with its channel set and gives up the
    CPU; it returns to the scheduler with no lock held. *)
Theorem sleep_blocks c ch lk s A p :
  sleep_pre c lk (ls s) → cur c s = Some p → tinv (pt s) A → p ∈ A Running →
  ∃ s', Proc.sleep c ch lk s = Ok tt s' ∧ tinv (pt s') (move Running Sleep p A) ∧
    is_proc (pt s') p (slept (ticks s) (sleep_ie c lk (ls s)) ch lk (procs (pt s) p)) ∧
    (∀ q, q ≠ p → is_proc (pt s') q (procs (pt s) q)) ∧ unheld c (ls s') ∧ cur c s' = None ∧
    (∀ k, Some k = lk → k ≠ PTABLE → Spinlock.locked (Spinlock.locks (ls s') k) = false).
Proof.
  intros Hu Hc H Hp. edestruct (wp_total _ _ _ (wp_sleep (mode := Total) c ch lk s A p (λ _ s', _) Hu Hc H Hp
    ok_switchkvm (λ s' l1 H1 H2 H3 H4 H5 H6 _, conj H1 (conj H2 (conj H3 (conj H4
      (ex_intro (λ l1, sframe c lk (ls s) l1 ∧ setcpu c None l1 (ls s')) l1 (conj H5 H6))))))))
    as ([] & s' & E & H1 & H2 & H3 & H4 & l1 & H5 & Hcur & _ & Hk).
  exists s'. repeat (split; [done|]). intros k Hlk Hne. rewrite Hk by done. by apply H5.
Qed.

(** C5: fork fails with -1 only when there is no free slot, or kalloc refused a
    kernel stack, or copyuvm refused a copy of the caller's memory; then no
    process is lost and a stack it got is freed. Otherwise the slot at the head
    of the free list becomes a child of the caller: next pid, the stack and the
    page directory that kalloc and copyuvm returned, the caller's size, the
    caller's registers with 0 as return value, in each descriptor what filedup
    returned for the caller's open file (closed ones stay as in the slot), the
    directory idup returned, the caller's name, ids and priority, ready at that
    priority; fork returns the child's pid, and the services are called in
    exactly this order and no other. *)
Theorem fork_creates c s A p :
  unheld c (ls s) → cur c s = Some p → tinv (pt s) A → p ∈ A Running →
  (∀ q, (q < NPROC)%nat → name_ok (procs (pt s) q)) →
  ∃ x s', fork c s = Ok x s' ∧ fork_all_post c s A p x s'.
Proof.
  intros Hu Hc H Hp Hn. apply wp_total.
  exact (wp_fork (mode := Total) c s A p (fork_all_post c s A p) Hu Hc H Hp Hn (λ x s' P, P)).
Qed.

(** C6: wait reaps the first zombie child: it returns its pid and puts the
    slot, with its identity erased, on the free list; with living children and
    not killed it goes to sleep on its own slot until one exits; otherwise it
    returns -1 and changes nothing. *)
Theorem wait_reaps c s A p :
  unheld c (ls s) → cur c s = Some p → tinv (pt s) A → p ∈ A Running →
  ∃ o s', wait c s = Ok o s' ∧ wait_post c s A p o s'.
Proof.
  intros Hu Hc H Hp. apply wp_total.
  exact (wp_wait (mode := Total) c s A p (wait_post c s A p) Hu Hc H Hp (λ x s' P, P)).
Qed.

(** Kill(pid) finds the process on whatever list it is (running, sleeping,
    ready, zombie, embryo), marks it killed and, if it sleeps, makes it ready
    so that it notices; it returns -1, changing nothing, only if no process on
    those lists has that pid. *)
Theorem kill_marks c x s A :
  unheld c (ls s) → tinv (pt s) A →
  ∃ res s', kill c x s = Ok res s' ∧ kill_post c s A x res s' ∧
    (res = -1 → ∀ L q, L ∈ kill_order → q ∈ A L → pid (procs (pt s) q) ≠ u32 x).
Proof.
  intros Hu H. destruct (wp_total _ _ _ (wp_kill (mode := Total) c x s A (kill_post c s A x) Hu H
    (λ r s' P, P))) as (res & s' & E & P). exists res, s'. split; [done|]. split; [done|].
  intros ->. destruct P as (_ & _ & _ & _ & P).
  destruct (target s A (u32 x) kill_order) as [[L q]|] eqn:Et.
  - by destruct P as (? & _).
  - by apply (target_none (mode := Total)).
Qed.

(** Setpriority rejects priorities out of range without changing anything;
    for a ready or sleeping process it sets priority and budget and moves a
    ready one to its new list.  (A running process must already have the
    priority; [setpriority_running_breaks] is the other case.) *)
Theorem setpriority_sets c x prio s A :
  unheld c (ls s) → tinv (pt s) A →
  (0 <= prio <= Z.of_nat MAXPRIO →
   ∀ q, q ∈ A Running → pid (procs (pt s) q) = u32 x → priority (procs (pt s) q) = prio) →
  ∃ res s', setpriority c x prio s = Ok res s' ∧ setprio_post c s A x prio res s'.
Proof.
  intros Hu H Hr. apply wp_total.
  exact (wp_setpriority (mode := Total) c x prio s A (setprio_post c s A x prio) Hu H Hr (λ r s' P, P)).
Qed.

(** C7: exit, from the acquisition of the process table on, leaves the caller
    a zombie on no CPU, wakes its parent if that waits, hands all its children
    to init and wakes init if one of them is a zombie. *)
Theorem exit_hands_over c s A p :
  unheld c (ls s) → cur c s = Some p → tinv (pt s) A → p ∈ A Running →
  ∃ s' A', exit_tail c p s = Ok tt s' ∧ exit_tail_post c s A p s' A'.
Proof.
  intros Hu Hc H Hp. destruct (wp_total _ _ _ (wp_exit_tail (mode := Total) c s A p
    (λ _ s', ∃ A', exit_tail_post c s A p s' A') Hu Hc H Hp (λ s' A' P, ex_intro _ A' P)))
    as ([] & s' & E & A' & P). by exists s', A'.
Qed.

End operations.

(** ** The theorems at concrete inputs *)

Section witnesses.
#[local] Existing Instance param_h.
#[local] Existing Instance toy.
#[local] Existing Instance toy_ok.

Lemma inv_mach2 : ∃ A, inv None (fst mach2) (snd mach2) A.
Proof. apply reachable_minv, mach_reachable. Qed.
Lemma inv_mach3 : ∃ A, inv None (fst mach3) (snd mach3) A.
Proof. apply reachable_minv, mach_reachable. Qed.

Lemma userinit_boots_witness : ∃ s', userinit 0 boot0 = Ok tt s' ∧ userinit_post boot0 s'.
Proof. apply userinit_boots; [apply boot0_booted|done|done]. Defined.

(** Slots 1 and 2 are free. *)
Definition demo_table : ptable :=
  mkptable (<[1%nat := set_next (Some 2%nat) proc0]> (λ _, proc0))
    (put_list Free (Some 1%nat) (Some 2%nat) lists0) 0.
Definition demo_lists (L : lid) : list nat := if decide (L = Free) then [1%nat; 2%nat] else [].

Lemma demo_reps : reps demo_table demo_lists.
Proof.
  constructor; unfold demo_lists.
  - intros [| | | | |i] _; done.
  - intros L _. case_decide as HL; [subst; done|done].
  - intros L1 L2 p. repeat case_decide; subst; set_solver.
  - intros L p. case_decide; [|set_solver]. rewrite !elem_of_cons. unfold NPROC. intros [->|[->|Hn]]; [lia|lia|set_solver].
  - intros L HL. case_decide; [|done]. by subst.
Qed.

Lemma stateListAdd_appends_witness :
  ∃ t', stateListAdd Sleep (Some 3%nat) demo_table = Ok 0 t' ∧
    reps t' (<[Sleep := demo_lists Sleep ++ [3%nat]]> demo_lists) ∧ relinked demo_table t'.
Proof.
  apply stateListAdd_appends; [apply demo_reps|done|unfold NPROC; lia|].
  intros L. unfold demo_lists. case_decide; set_solver.
Defined.

Lemma stateListRemove_deletes_witness :
  ∃ t', stateListRemove Free (Some 2%nat) demo_table = Ok 0 t' ∧
    reps t' (<[Free := del 2 (demo_lists Free)]> demo_lists) ∧ relinked demo_table t'.
Proof. exact (stateListRemove_deletes demo_table demo_lists Free 2 demo_reps I). Defined.

Lemma wakeup1_wakes_witness : ∃ A t', wakeup1 (ProcChan 0) (pt (fst mach2)) = Ok tt t' ∧
  tinv t' (wake_lists (pt (fst mach2)) (ProcChan 0) A).
Proof.
  destruct inv_mach2 as [A H]. exists A.
  destruct (wakeup1_wakes _ A (ProcChan 0) (i_table _ _ _ _ H)) as (t' & E & Ht & _). exists t'. exact (conj E Ht).
Defined.

Lemma scheduler_dispatches_witness : ∃ A o s', scheduler 1 (fst mach2) = Ok o s' ∧ sched_post 1 (fst mach2) A o s'.
Proof.
  destruct inv_mach2 as [A H]. exists A.
  destruct (scheduler_dispatches 1 _ A (inv_unheld _ _ _ _ H) (i_table _ _ _ _ H)) as (o & s' & E & P & _).
  exists o, s'. exact (conj E P).
Defined.

Lemma promote_lifts_witness : ∃ A t', promote (pt (fst mach2)) = Ok tt t' ∧ tinv t' (promote_lists A).
Proof.
  destruct inv_mach2 as [A H]. exists A.
  destruct (promote_lifts _ A (i_table _ _ _ _ H)) as (t' & E & Ht & _). exists t'. exact (conj E Ht).
Defined.

Lemma cur_mach3 : cur 1 (fst mach3) = Some 1%nat.
Proof. vm_compute. reflexivity. Qed.

Lemma yield_requeues_witness : ∃ s', yield 1 (fst mach3) = Ok tt s' ∧ cur 1 s' = None.
Proof.
  destruct inv_mach3 as [A H].
  destruct (yield_requeues 1 (fst mach3) A 1 (inv_unheld _ _ _ _ H) cur_mach3 (i_table _ _ _ _ H)
    (inv_cur _ _ _ _ _ _ H cur_mach3)) as (s' & E & _ & _ & _ & _ & Hc & _). exists s'. exact (conj E Hc).
Defined.

Lemma sleep_blocks_witness : ∃ s', Proc.sleep 1 (AddrChan 7) None (fst mach3) = Ok tt s' ∧ cur 1 s' = None.
Proof.
  destruct inv_mach3 as [A H].
  destruct (sleep_blocks 1 (AddrChan 7) None (fst mach3) A 1 (inv_unheld _ _ _ _ H) cur_mach3 (i_table _ _ _ _ H)
    (inv_cur _ _ _ _ _ _ H cur_mach3)) as (s' & E & _ & _ & _ & _ & Hc & _). exists s'. exact (conj E Hc).
Defined.

Lemma inv_names own s f A q : inv own s f A → (q < NPROC)%nat → name_ok (procs (pt s) q).
Proof.
  intros H Hq. destruct (ti_cover _ _ (i_table _ _ _ _ H) q Hq) as [L HL].
  exact (proj1 (i_procs _ _ _ _ H _ _ HL)).
Qed.

Lemma fork_creates_witness : ∃ A x s', fork 1 (fst mach3) = Ok x s' ∧ fork_all_post 1 (fst mach3) A 1 x s'.
Proof.
  destruct inv_mach3 as [A H]. exists A.
  exact (fork_creates 1 (fst mach3) A 1 (inv_unheld _ _ _ _ H) cur_mach3 (i_table _ _ _ _ H)
    (inv_cur _ _ _ _ _ _ H cur_mach3) (λ q Hq, inv_names _ _ _ _ q H Hq)).
Defined.

Lemma wait_reaps_witness : ∃ A o s', wait 1 (fst mach3) = Ok o s' ∧ wait_post 1 (fst mach3) A 1 o s'.
Proof.
  destruct inv_mach3 as [A H]. exists A.
  exact (wait_reaps 1 (fst mach3) A 1 (inv_unheld _ _ _ _ H) cur_mach3 (i_table _ _ _ _ H)
    (inv_cur _ _ _ _ _ _ H cur_mach3)).
Defined.

Lemma kill_marks_witness : ∃ A res s', kill 0 2 (fst mach3) = Ok res s' ∧ kill_post 0 (fst mach3) A 2 res s'.
Proof.
  destruct inv_mach3 as [A H]. exists A.
  destruct (kill_marks 0 2 (fst mach3) A (inv_unheld _ _ _ _ H) (i_table _ _ _ _ H))
    as (res & s' & E & P & _). exists res, s'. exact (conj E P).
Defined.

Lemma setpriority_sets_witness :
  ∃ A res s', setpriority 0 2 0 (fst mach3) = Ok res s' ∧ setprio_post 0 (fst mach3) A 2 0 res s'.
Proof.
  destruct inv_mach3 as [A H]. exists A.
  apply (setpriority_sets 0 2 0 (fst mach3) A (inv_unheld _ _ _ _ H) (i_table _ _ _ _ H)).
  intros _ q Hq _. pose proof (good_prio _ _ _ (ti_good _ _ (i_table _ _ _ _ H) _ _ Hq) ltac:(done)) as Hp.
  change (Z.of_nat MAXPRIO) with 0 in Hp. lia.
Defined.

Lemma exit_hands_over_witness :
  ∃ A s' A', exit_tail 1 1 (fst mach3) = Ok tt s' ∧ exit_tail_post 1 (fst mach3) A 1 s' A'.
Proof.
  destruct inv_mach3 as [A H]. exists A.
  exact (exit_hands_over 1 (fst mach3) A 1 (inv_unheld _ _ _ _ H) cur_mach3 (i_table _ _ _ _ H)
    (inv_cur _ _ _ _ _ _ H cur_mach3)).
Defined.

End witnesses.

(** ** setpriority of a running process *)

(** The same build with two priority levels. *)
Definition two_levels : Config := {| MAXPRIO := 1 |}.

Definition onfst `{Services} (m : M kstate Z) (x : mstate) : mstate :=
  match m (fst x) with Ok _ s => (s, snd x) | _ => x end.

(** With more than one priority level, setpriority of a running process to
    another level takes it off the running list although it still runs, and
    its next yield panics. *)
Theorem setpriority_running_breaks :
  let m := run (H := two_levels) [(0%nat, Schedule)] (mach0 (H := two_levels)) in
  let m' := onfst (H := toy) (setpriority (cfg := two_levels) 0 1 1) m in
  cur 0 (fst m') = Some 0%nat ∧ state (procs (pt (fst m')) 0%nat) = RUNNING ∧
  head Running (pt (fst m')) = None ∧ head (Ready 1) (pt (fst m')) = Some 0%nat ∧
  ∃ s, yield (cfg := two_levels) 0 (fst m') = Panic "Yield" s.
Proof. cbv zeta. repeat split; try (vm_compute; reflexivity). eexists. vm_compute. reflexivity. Qed.

End ProcProps.
