(* ===== verification/ProcLive.v ===== *)
(** * Bounded waiting

    The ready list is a queue: whatever the CPUs do, a process on it is
    dispatched after as many dispatches as there are processes before it. *)

From S2P Require Import Prelude Spinlock ProcTable CString Proc ProcInv ProcSpec.
From S2P Require Import ProcSched ProcLife ProcCtl ProcExit Machine Boot Example ProcProps.
Local Open Scope Z_scope.

Module ProcLive.
Import ProcTable Proc ProcInv ProcSpec ProcSched ProcLife ProcCtl ProcExit Machine Boot Example ProcProps.

(** The [k]-th process that the [next] pointers reach from [h]. *)
Fixpoint nth_next (t : ptable) (h : option nat) (k : nat) : option nat :=
  match k, h with
  | O, _ => h
  | S k, Some p => nth_next t (next (procs t p)) k
  | S _, None => None
  end.
(** The [k]-th process of the ready list of the highest priority. *)
Definition nth_ready (t : ptable) (k : nat) : option nat := nth_next t (head (Ready 0) t) k.

Lemma nth_next_chain t h l k : chain (nx t) h l → nth_next t h k = l !! k.
Proof.
  revert h k. induction l as [|p l IH]; intros h k.
  - cbn. intros ->. by destruct k.
  - intros [-> Hc]. destruct k as [|k]; [done|]. cbn. by apply IH.
Qed.
Lemma nth_ready_list `{cfg : Config} t A k : reps t A → nth_ready t k = A (Ready 0) !! k.
Proof. intros H. apply nth_next_chain, (reps_chain _ _ H (Ready 0)). cbn. lia. Qed.

Section live.
#[local] Existing Instance param_h.
Context `{sv : Services}.

(** What the scheduler's step dispatches. *)
Definition dispatches (m : mstate) (c : nat) (o : op) : option nat :=
  match o with Schedule => match scheduler c (fst m) with Ok r _ => r | _ => None end | _ => None end.

(** An execution: the CPU, the operation and the process dispatched by each
    step. *)
Inductive execution : mstate → list (nat * op * option nat) → mstate → Prop :=
| ex_nil m : execution m [] m
| ex_step m c o m1 es m2 : enabled c o m = true → exec c o m = Ok tt m1 → execution m1 es m2 →
    execution m ((c, o, dispatches m c o) :: es) m2.

Definition is_schedule (e : nat * op * option nat) : bool := match e.1.2 with Schedule => true | _ => false end.
Definition schedules (es : list (nat * op * option nat)) : nat := length (filter is_schedule es).

(** The scheduler takes the head of the queue. *)
Lemma dispatches_head c m A p l : inv None (fst m) (snd m) A → cur c (fst m) = None → A (Ready 0) = p :: l →
  ∀ m', exec c Schedule m = Ok tt m' → dispatches m c Schedule = Some p.
Proof.
  intros H Hc HA m' E. unfold dispatches. destruct m as [s f]. cbn [fst snd exec] in *.
  unfold onS, zoom, schedule, mbind, M_mbind, M_bind in E. cbn [fst] in E.
  destruct (scheduler c s) as [o s1| | |] eqn:Es; try discriminate.
  refine (wp_partial (scheduler c) (λ o _, o = Some p) s _ _ _ Es).
  eapply (wp_scheduler (mode := Partial)); [by eapply inv_unheld|apply (i_table _ _ _ _ H)|intros; apply (ok_switchuvm (mode := Partial))|].
  intros [q|] s' Hpost; cbn in Hpost; [|destruct Hpost as [Hno _]; by rewrite Hno in HA].
  destruct Hpost as (j & L & [[l' El] Hlow] & _). assert (Hk : keeps A (cand_lists s A)).
  { unfold cand_lists. destruct (due s); [|apply keeps_refl]. unfold keeps. cbn. by apply prefix_app_r. }
  unfold keeps in Hk. rewrite HA in Hk. destruct (decide (j = 0%nat)) as [->|Hj].
  - rewrite El in Hk. apply prefix_cons_inv_1 in Hk. by subst q.
  - rewrite (Hlow 0%nat) in Hk by lia. by apply prefix_nil_inv in Hk.
Qed.

Lemma queued_dispatched m es m' : execution m es m' → ∀ A k p, inv None (fst m) (snd m) A → A (Ready 0) !! k = Some p →
  (k < schedules es)%nat → ∃ c, (c, Schedule, Some p) ∈ es.
Proof.
  induction 1 as [m|m c o m1 es m2 He E Hex IH]; intros A k p HI Hk Hn; [cbn in Hn; lia|].
  assert (Hq : ∃ A', inv None (fst m1) (snd m1) A' ∧ advance o A A').
  { refine (wp_partial _ (λ _ m', ∃ A', inv None (fst m') (snd m') A' ∧ advance o A A') _ _ _ _ E).
    by apply (exec_queue (mode := Partial)). }
  destruct Hq as (A' & HI' & Hadv). assert (o = Schedule ∨ o ≠ Schedule) as [->|Ho] by (destruct o; auto).
  - unfold schedules in Hn. rewrite filter_cons_True in Hn by done. cbn [length] in Hn.
    assert (Hc : cur c (fst m) = None) by (cbn in He; by destruct (cur c (fst m))).
    destruct (A (Ready 0)) as [|q l] eqn:EA; [done|]. destruct k as [|k].
    + injection Hk as ->. exists c. rewrite (dispatches_head c m A p l HI Hc EA m1 E). set_solver.
    + unfold advance, serves in Hadv. rewrite EA in Hadv. cbn [tl] in Hadv. destruct Hadv as [x Ex].
      destruct (IH A' k p HI') as [c' Hc']; [|unfold schedules; lia|exists c'; set_solver].
      rewrite Ex. apply lookup_app_l_Some. exact Hk.
  - assert (Hs : schedules ((c, o, dispatches m c o) :: es) = schedules es).
    { unfold schedules. rewrite filter_cons_False; [done|]. intros Hb. apply Ho. by destruct o. }
    assert (Hkeep : keeps A A') by (by destruct o). destruct Hkeep as [x Ex].
    destruct (IH A' k p HI') as [c' Hc']; [|lia|exists c'; set_solver].
    rewrite Ex. by apply lookup_app_l_Some.
Qed.
End live.

Section theorems.
#[local] Existing Instance param_h.

(** C3: no process starves.  From any reachable state, in every execution of
    the operations of proc.c on any number of CPUs, in any order and including
    preemption, sleeping, waking, forking, killing and exiting, the process at
    position k of the ready list is dispatched by one of the first k + 1
    scheduler steps. *)
Theorem ready_is_dispatched `{sv : Services} (m m' : mstate) (es : list (nat * op * option nat)) (k p : nat) :
  reachable m → nth_ready (pt (fst m)) k = Some p → execution m es m' → schedules es = S k →
  ∃ c, (c, Schedule, Some p) ∈ es.
Proof.
  intros Hm Hp Hex Hn. destruct (reachable_minv m Hm) as [A H].
  apply (queued_dispatched m es m' Hex A k p H); [|lia]. rewrite <-(nth_ready_list _ _ _ (ti_reps _ _ (i_table _ _ _ _ H))). done.
Qed.

#[local] Existing Instance toy.

Fixpoint events (l : list (nat * op)) (m : mstate) : list (nat * op * option nat) :=
  match l with
  | [] => []
  | (c, o) :: l => (c, o, dispatches m c o) :: events l (run [(c, o)] m)
  end.
Fixpoint runs_ok (l : list (nat * op)) (m : mstate) : bool :=
  match l with
  | [] => true
  | (c, o) :: l => enabled c o m && match exec c o m with Ok _ _ => true | _ => false end && runs_ok l (run [(c, o)] m)
  end.
Lemma run_execution l m : runs_ok l m = true → execution m (events l m) (run l m).
Proof.
  revert m. induction l as [|[c o] l IH]; intros m; [constructor|]. cbn [runs_ok events].
  intros [[He Hx]%andb_true_iff Hl]%andb_true_iff. specialize (IH _ Hl). cbn [run] in IH |- *. rewrite He in *.
  destruct (exec c o m) as [[] m1| | |] eqn:E; try discriminate. by econstructor.
Qed.

(** init has forked twice. *)
Definition two_ready : mstate := run [(0%nat, ForkAlloc); (0%nat, ForkRest)] mach2.
(** CPU 1 runs the first child for a while, init yields, and CPU 1 chooses
    again. *)
Definition some_steps : list (nat * op) := [(1%nat, Schedule); (1%nat, Yield); (0%nat, Yield); (1%nat, Schedule)].

(** The second child is dispatched by the second scheduler step although the
    first child is ready again before it. *)
Lemma ready_is_dispatched_witness : nth_ready (pt (fst two_ready)) 1 = Some 2%nat ∧ schedules (events some_steps two_ready) = 2%nat ∧
  ∃ c, (c, Schedule, Some 2%nat) ∈ events some_steps two_ready.
Proof.
  assert (Hp : nth_ready (pt (fst two_ready)) 1 = Some 2%nat) by (vm_compute; reflexivity).
  assert (Hn : schedules (events some_steps two_ready) = 2%nat) by (vm_compute; reflexivity).
  assert (Hx : execution two_ready (events some_steps two_ready) (run some_steps two_ready)) by (apply run_execution; vm_compute; reflexivity).
  assert (Hm : reachable two_ready) by apply run_reachable, (mach_reachable [(0%nat, Schedule); (0%nat, ForkAlloc); (0%nat, ForkRest)]).
  split; [exact Hp|]. split; [exact Hn|].
  exact (ready_is_dispatched two_ready (run some_steps two_ready) (events some_steps two_ready) 1 2 Hm Hp Hx Hn).
Defined.
End theorems.
End ProcLive.
