(* ===== verification/Kalloc.v ===== *)
(** * The physical page allocator (kalloc.c)

    Free pages are linked through their own first word.  The state is the
    allocator's record, the locking layer and the kernel's memory as bytes; the
    free list is refined to the sequence of free pages. *)

From S2P Require Import Prelude Spinlock.
Local Open Scope Z_scope.

Module Kalloc.

Definition PGSIZE : Z := 4096.
Definition KERNBASE : Z := 2147483648.
Definition PHYSTOP : Z := 234881024.
Definition PGROUNDUP (sz : Z) : Z := Z.land (u32 (sz + PGSIZE - 1)) (u32 (Z.lnot (PGSIZE - 1))).

(** ** Words in memory *)

Definition mem : Type := Z → Z.

Definition load32 (m : mem) (a : Z) : Z :=
  m a + 256 * m (a + 1) + 65536 * m (a + 2) + 16777216 * m (a + 3).
Definition store32 (m : mem) (a w : Z) : mem := λ x,
  if x =? a then w mod 256
  else if x =? a + 1 then (w / 256) mod 256
  else if x =? a + 2 then (w / 65536) mod 256
  else if x =? a + 3 then (w / 16777216) mod 256
  else m x.
(** memset(v, c, n) *)
Definition fill (m : mem) (v c n : Z) : mem := λ x,
  if (v <=? x) && (x <? v + n) then c mod 256 else m x.

(** ** State *)

(** [kmem], the memory and the locking layer; the kmem lock is lock 0 here. *)
Record kst := mkkst {
  ls : Spinlock.lstate;
  use_lock : bool;
  freelist : option Z;
  memory : mem
}.
Definition KMEM : nat := 0.

Definition put_ls (x : Spinlock.lstate) (s : kst) : kst := mkkst x (use_lock s) (freelist s) (memory s).
Definition put_use (x : bool) (s : kst) : kst := mkkst (ls s) x (freelist s) (memory s).
Definition put_list (x : option Z) (s : kst) : kst := mkkst (ls s) (use_lock s) x (memory s).
Definition put_mem (x : mem) (s : kst) : kst := mkkst (ls s) (use_lock s) (freelist s) x.

(** A [struct run *] is the address of a page; 0 is null. *)
Definition run_next (m : mem) (r : Z) : option Z :=
  let w := load32 m r in if w =? 0 then None else Some w.
Definition addr (r : option Z) : Z := default 0 r.

Section kalloc.
(** [end], the first address after the kernel: set by the linker. *)
Context (kend : Z).

(** [if(kmem.use_lock) acquire(&kmem.lock);] and its counterpart. *)
Definition lock (c : nat) : M kst unit :=
  b ← gets use_lock; when b (zoom ls put_ls (Spinlock.acquire c KMEM)).
Definition unlock (c : nat) : M kst unit :=
  b ← gets use_lock; when b (zoom ls put_ls (Spinlock.release c KMEM)).

Definition kfree (c : nat) (v : Z) : M kst unit :=
  if negb (u32 v mod PGSIZE =? 0) || (v <? kend) || (PHYSTOP <=? u32 (v - KERNBASE))
  then panic "kfree" else
  modify (λ s, put_mem (fill (memory s) v 1 PGSIZE) s);;
  lock c;;
  modify (λ s, put_mem (store32 (memory s) v (addr (freelist s))) s);;
  modify (put_list (Some v));;
  unlock c.

Definition kalloc (c : nat) : M kst (option Z) :=
  lock c;;
  r ← gets freelist;
  match r with
  | Some r => modify (λ s, put_list (run_next (memory s) r) s)
  | None => mret tt
  end;;
  unlock c;;
  mret r.

(** [for(; p + PGSIZE <= vend; p += PGSIZE) kfree(p);] *)
Fixpoint free_from (fuel : nat) (c : nat) (p vend : Z) : M kst unit :=
  if u32 (p + PGSIZE) <=? vend then
    match fuel with
    | O => hang
    | S fuel => kfree c p;; free_from fuel c (u32 (p + PGSIZE)) vend
    end
  else mret tt.
(** There are [vend / PGSIZE] pages below [vend]. *)
Definition freerange (c : nat) (vstart vend : Z) : M kst unit :=
  free_from (S (Z.to_nat (vend / PGSIZE))) c (PGROUNDUP vstart) vend.

Definition kinit1 (c : nat) (vstart vend : Z) : M kst unit :=
  zoom ls put_ls (Spinlock.initlock KMEM "kmem");;
  modify (put_use false);;
  freerange c vstart vend.
Definition kinit2 (c : nat) (vstart vend : Z) : M kst unit :=
  freerange c vstart vend;;
  modify (put_use true).

(** ** Refinement to a sequence of pages *)

(** A page of physical memory the allocator may hand out. *)
Definition page_ok (v : Z) : Prop :=
  v mod PGSIZE = 0 ∧ kend <= v ∧ KERNBASE <= v < KERNBASE + PHYSTOP.

(** The free pages are [l], in the order kalloc returns them. *)
Definition free (s : kst) (l : list Z) : Prop :=
  chain (run_next (memory s)) (freelist s) l ∧ Forall page_ok l.

(** CPU [c] can take the lock: nobody holds it. *)
Definition lockable (c : nat) (s : kst) : Prop :=
  use_lock s = true →
  Spinlock.locked (Spinlock.locks (ls s) KMEM) = false ∧
  0 <= Spinlock.ncli (Spinlock.cpus (ls s) c) < 2147483647.

Lemma free_NoDup s l : free s l → NoDup l.
Proof. intros [H _]. by eapply chain_NoDup. Qed.

Lemma load_store m a w : 0 <= w < w32 → load32 (store32 m a w) a = w.
Proof.
  intros Hw. unfold load32, store32, w32 in *.
  repeat (case_match; try lia). clear - Hw.
  replace (w / 65536) with (w / 256 / 256) by (by rewrite Z.div_div).
  replace (w / 16777216) with (w / 256 / 256 / 256) by (by rewrite !Z.div_div).
  rewrite (Z.mod_small (w / 256 / 256 / 256)).
  - pose proof (Z.div_mod w 256). pose proof (Z.div_mod (w / 256) 256).
    pose proof (Z.div_mod (w / 256 / 256) 256). lia.
  - split; [repeat apply Z.div_pos; lia|]. repeat (apply Z.div_lt_upper_bound; [lia|]). lia.
Qed.

Lemma load_store_ne m a b w : a + 4 <= b ∨ b + 4 <= a → load32 (store32 m a w) b = load32 m b.
Proof.
  intros H. unfold load32, store32. by repeat (case_match; try lia).
Qed.

Lemma load_fill_ne m v n c b : b + 4 <= v ∨ v + n <= b → load32 (fill m v c n) b = load32 m b.
Proof.
  intros H. unfold load32, fill.
  repeat match goal with |- context [(?a <=? ?b) && ?r] =>
    replace ((a <=? b) && r) with false by (symmetry; apply andb_false_iff; lia) end. done.
Qed.

(** Two different pages do not overlap. *)
Lemma pages_apart v w : page_ok v → page_ok w → v ≠ w → v + PGSIZE <= w ∨ w + PGSIZE <= v.
Proof.
  intros (Hv & _) (Hw & _) Hne. unfold PGSIZE in *.
  apply Z.mod_divide in Hv as [a ->]; [|done]. apply Z.mod_divide in Hw as [b ->]; [|done]. nia.
Qed.

(** Writing the page [v] leaves the links of other pages alone. *)
Lemma chain_page m v w h l :
  page_ok v → Forall page_ok l → v ∉ l →
  chain (run_next m) h l → chain (run_next (store32 (fill m v 1 PGSIZE) v w)) h l.
Proof.
  intros Hv Hl Hn. apply chain_ext. intros a Ha. unfold run_next.
  rewrite Forall_forall in Hl. pose proof (pages_apart v a Hv (Hl a Ha)) as Hd.
  destruct Hd as [Hd|Hd]; [by intros ->|..]; unfold PGSIZE in Hd |- *;
    rewrite load_store_ne, load_fill_ne by lia; done.
Qed.

(** Nor any byte outside it. *)
Lemma store_fill_ne m v w k x : ¬ (v <= x < v + PGSIZE) → store32 (fill m v k PGSIZE) v w x = m x.
Proof.
  intros Hx. unfold store32, fill, PGSIZE in *. repeat (case_match; try lia).
Qed.

Section specs.
Context `{mode : Mode}.

Lemma wp_lock c s (Q : unit → kst → Prop) :
  lockable c s →
  (∀ l', (use_lock s = true → Spinlock.locked (Spinlock.locks l' KMEM) = true ∧
            Spinlock.lcpu (Spinlock.locks l' KMEM) = Some c ∧ Spinlock.fl_if (Spinlock.cpus l' c) = false ∧
            Spinlock.ncli (Spinlock.cpus l' c) = Spinlock.ncli (Spinlock.cpus (ls s) c) + 1) →
         (use_lock s = false → l' = ls s) → Q tt (put_ls l' s)) → wp (lock c) Q s.
Proof.
  intros Hl HQ. unfold lock. wp_steps. unfold lockable in Hl. destruct (use_lock s) eqn:E.
  - destruct (Hl eq_refl) as [Hf Hn]. apply wp_zoom, Spinlock.wp_acquire; [done|].
    intros l' Hc _ Hk Ho. apply HQ; [|done]. intros _. rewrite Hc. unfold Spinlock.acq_cpu. cbn -[i32].
    rewrite i32_small by lia. done.
  - destruct s. by apply HQ.
Qed.

Lemma wp_unlock c s (Q : unit → kst → Prop) :
  (use_lock s = true → Spinlock.locked (Spinlock.locks (ls s) KMEM) = true ∧
     Spinlock.lcpu (Spinlock.locks (ls s) KMEM) = Some c ∧ Spinlock.fl_if (Spinlock.cpus (ls s) c) = false ∧
     1 <= Spinlock.ncli (Spinlock.cpus (ls s) c) < 2147483648) →
  (∀ l', (use_lock s = true → Spinlock.locked (Spinlock.locks l' KMEM) = false ∧
            Spinlock.ncli (Spinlock.cpus l' c) = Spinlock.ncli (Spinlock.cpus (ls s) c) - 1) →
         (use_lock s = false → l' = ls s) → Q tt (put_ls l' s)) → wp (unlock c) Q s.
Proof.
  intros Hl HQ. unfold unlock. wp_steps. destruct (use_lock s) eqn:E.
  - destruct (Hl eq_refl) as (Hk & Ho & Hi & Hn). apply wp_zoom, Spinlock.wp_release; [done..|].
    intros l' Hc _ Hk' _. apply HQ; [|done]. intros _. rewrite Hc. unfold Spinlock.rel_cpu. cbn -[i32].
    rewrite i32_small by lia. done.
  - destruct s. by apply HQ.
Qed.

Lemma kfree_guard v : page_ok v →
  negb (u32 v mod PGSIZE =? 0) || (v <? kend) || (PHYSTOP <=? u32 (v - KERNBASE)) = false.
Proof.
  intros (Hm & He & Hk). unfold KERNBASE, PHYSTOP, PGSIZE in *. rewrite !u32_small by (unfold w32; lia).
  rewrite Hm. cbn [Z.eqb negb orb]. apply orb_false_iff. split; [by apply Z.ltb_ge|]. apply Z.leb_gt. lia.
Qed.

(** What is left of a state after an operation, besides the free list. *)
Definition same_lock (c : nat) (s s' : kst) : Prop :=
  use_lock s' = use_lock s ∧ (lockable c s → lockable c s').

Lemma wp_kfree c v s l (Q : unit → kst → Prop) :
  free s l → lockable c s → page_ok v → v ∉ l →
  (∀ s', free s' (v :: l) → use_lock s' = use_lock s → lockable c s' →
     (∀ x, ¬ (v <= x < v + PGSIZE) → memory s' x = memory s x) → Q tt s') → wp (kfree c v) Q s.
Proof.
  intros [Hc Hp] Hlk Hv Hn HQ. unfold kfree. rewrite kfree_guard by done. wp_steps.
  apply wp_lock; [done|]. intros l1 H1 H1'. cbn in H1, H1'. wp_steps. apply wp_unlock.
  { cbn. intros E. destruct (H1 E) as (? & ? & ? & Hn1). destruct (Hlk E) as [_ Hb]. repeat (split; [done|]).
    rewrite Hn1. lia. }
  intros l2 H2 H2'. cbn in H2, H2'. apply HQ; [|done| |].
  - split; [|by constructor]. split; [done|]. cbn.
    assert (Ha : 0 <= addr (freelist s) < w32).
    { rewrite (chain_head _ _ _ Hc). destruct l as [|w l]; [done|]. cbn.
      apply Forall_cons in Hp as [(_ & _ & Hw) _]. unfold KERNBASE, PHYSTOP, w32 in *. lia. }
    replace (run_next _ v) with (freelist s); [by apply chain_page|].
    unfold run_next. rewrite load_store by done. rewrite (chain_head _ _ _ Hc) in Ha |- *.
    destruct l as [|w l]; [done|]. cbn. apply Forall_cons in Hp as [(_ & _ & Hw) _].
    destruct (Z.eqb_spec w 0); [unfold KERNBASE in *; lia|done].
  - intros E. destruct (H2 E) as [? Hn2]. split; [done|]. cbn. rewrite Hn2.
    destruct (H1 E) as (_ & _ & _ & Hn1). destruct (Hlk E). rewrite Hn1. lia.
  - intros x Hx. cbn. apply store_fill_ne. done.
Qed.

Lemma wp_kalloc c s l (Q : option Z → kst → Prop) :
  free s l → lockable c s →
  (∀ s', free s' (tail l) → use_lock s' = use_lock s → lockable c s' → memory s' = memory s → Q (head l) s') →
  wp (kalloc c) Q s.
Proof.
  intros [Hc Hp] Hlk HQ. unfold kalloc. apply wp_bind, wp_lock; [done|]. intros l1 H1 H1'.
  wp_steps. cbn in *. rewrite (chain_head _ _ _ Hc).
  assert (Hul : ∀ s1, use_lock s1 = use_lock s → ls s1 = l1 →
    memory s1 = memory s → free s1 (tail l) → wp (unlock c) (λ _ s', wp (mret (head l)) Q s') s1).
  { intros s1 Eu El Em Hf. apply wp_unlock.
    { rewrite Eu, El. intros E. destruct (H1 E) as (? & ? & ? & Hn1). destruct (Hlk E) as [_ Hb].
      repeat (split; [done|]). rewrite Hn1. lia. }
    intros l2 H2 H2'. rewrite Eu, El in *. wp_steps. apply HQ; [done|done| |done].
    intros E. cbn in E. rewrite Eu in E. destruct (H2 E) as [? Hn2]. split; [done|]. cbn. rewrite Hn2.
    destruct (H1 E) as (_ & _ & _ & Hn1). destruct (Hlk E). rewrite Hn1. lia. }
  destruct l as [|r l]; cbn [head]; wp_steps; apply Hul; try done.
  - destruct Hc as [_ Hc]. apply Forall_cons in Hp as [_ Hp]. by split.
Qed.

(** ** freerange *)

(** The pages [p], [p + PGSIZE], ... of which [n] lie below the end. *)
Definition pages (p : Z) (n : nat) : list Z := fmap (λ i, p + Z.of_nat i * PGSIZE) (seq 0 n).

Lemma pages_S p n : pages p (S n) = p :: pages (p + PGSIZE) n.
Proof.
  unfold pages. cbn [seq fmap list_fmap]. f_equal; [lia|]. rewrite <-seq_shift, <-list_fmap_compose.
  apply list_fmap_ext. intros i x _. cbn. lia.
Qed.

Lemma wp_free_from c vend n : ∀ fuel p s l (Q : unit → kst → Prop),
  free s l → lockable c s → (n <= fuel)%nat → 0 <= p → 0 <= vend < w32 - PGSIZE →
  p + Z.of_nat n * PGSIZE <= vend < p + (Z.of_nat n + 1) * PGSIZE →
  Forall page_ok (pages p n) → (∀ v, v ∈ pages p n → v ∉ l) →
  (∀ s', free s' (rev (pages p n) ++ l) → use_lock s' = use_lock s → lockable c s' → Q tt s') →
  wp (free_from fuel c p vend) Q s.
Proof.
  induction n as [|n IH]; intros fuel p s l Q Hf Hlk Hfu Hp Hve Hn Hok Hnew HQ.
  - assert (E : (u32 (p + PGSIZE) <=? vend) = false).
    { apply Z.leb_gt. unfold PGSIZE in *. rewrite u32_small; unfold w32 in *; lia. }
    destruct fuel; cbn [free_from]; rewrite E; wp_steps; by apply HQ.
  - destruct fuel as [|fuel]; [lia|]. cbn [free_from].
    assert (E : u32 (p + PGSIZE) = p + PGSIZE) by (apply u32_small; unfold PGSIZE, w32 in *; lia).
    rewrite E. rewrite (proj2 (Z.leb_le _ _)) by (unfold PGSIZE in *; lia).
    rewrite pages_S in Hok, Hnew. apply Forall_cons in Hok as [Hok1 Hok]. wp_steps.
    eapply wp_kfree; [done|done|done|apply Hnew; set_solver|]. intros s1 Hf1 Hu1 Hlk1 _.
    eapply IH; [exact Hf1|done|lia|unfold PGSIZE; lia|done|unfold PGSIZE in *; lia|done| |].
    + intros v Hv. apply not_elem_of_cons. split; [|apply Hnew; set_solver].
      intros ->. unfold pages in Hv. apply list_elem_of_fmap in Hv as (i & Hi & _). unfold PGSIZE in Hi. lia.
    + intros s2 Hf2 Hu2 Hlk2. apply HQ; [|congruence|done]. rewrite pages_S. cbn [rev].
      by rewrite <-app_assoc.
Qed.

End specs.

(** ** PGROUNDUP *)

Lemma mask_page x : 0 <= x < w32 → Z.land x (u32 (Z.lnot (PGSIZE - 1))) = x / PGSIZE * PGSIZE.
Proof.
  intros Hx. change (u32 (Z.lnot (PGSIZE - 1))) with (Z.shiftl (Z.ones 20) 12).
  change PGSIZE with (2 ^ 12). rewrite <-Z.shiftr_div_pow2, <-Z.shiftl_mul_pow2 by lia.
  apply Z.bits_inj'. intros i Hi. rewrite Z.land_spec.
  destruct (decide (i < 12)).
  - rewrite !Z.shiftl_spec_low by lia. apply andb_false_r.
  - rewrite !Z.shiftl_spec, Z.shiftr_spec by lia. replace (i - 12 + 12) with i by lia.
    destruct (decide (i - 12 < 20)).
    + rewrite Z.ones_spec_low by lia. apply andb_true_r.
    + rewrite Z.ones_spec_high by lia. rewrite andb_false_r. symmetry.
      destruct (decide (x = 0)) as [->|]; [apply Z.bits_0|].
      apply Z.bits_above_log2; [lia|]. apply Z.log2_lt_pow2; [lia|].
      eapply Z.lt_le_trans; [apply Hx|]. change w32 with (2 ^ 32). apply Z.pow_le_mono_r; lia.
Qed.

Lemma PGROUNDUP_spec v : 0 <= v < w32 - PGSIZE → PGROUNDUP v = (v + PGSIZE - 1) / PGSIZE * PGSIZE.
Proof.
  intros Hv. unfold PGROUNDUP. rewrite u32_small by (unfold PGSIZE, w32 in *; lia).
  apply mask_page. unfold PGSIZE, w32 in *; lia.
Qed.

Lemma pages_ok p n :
  p mod PGSIZE = 0 → kend <= p → KERNBASE <= p → p + Z.of_nat n * PGSIZE <= KERNBASE + PHYSTOP →
  Forall page_ok (pages p n).
Proof.
  intros Hm He Hk Hn. apply Forall_forall. intros v (i & -> & Hi)%list_elem_of_fmap.
  apply list_elem_of_In, in_seq in Hi. unfold PGSIZE in *. split; [|lia].
  by rewrite Z_mod_plus_full.
Qed.

(** ** Properties *)

(** kalloc returns the most recently freed page, or 0 when there is none;
    the page is a valid page of physical memory and is no longer free. *)
Theorem kalloc_hands_out c s l :
  free s l → lockable c s →
  ∃ s', kalloc c s = Ok (head l) s' ∧ free s' (tail l) ∧ lockable c s' ∧
        ∀ v, head l = Some v → page_ok v ∧ (v ∉ tail l).
Proof.
  intros Hf Hlk. pose proof (free_NoDup _ _ Hf) as Hnd.
  destruct (wp_total _ _ _ (wp_kalloc (mode := Total) c s l
    (λ r s', r = head l ∧ free s' (tail l) ∧ lockable c s') Hf Hlk
    (λ s' H1 _ H2 _, conj eq_refl (conj H1 H2)))) as (r & s' & E & -> & Hf' & Hlk').
  exists s'. repeat (split; [done|]). intros v Hv. destruct l as [|w l]; [done|]. injection Hv as ->.
  destruct Hf as [_ [Hp _]%Forall_cons]. split; [done|]. by apply NoDup_cons in Hnd as [? _].
Qed.

(** Kfree then kalloc gives the page back and restores the free list;
    kfree itself puts the page in front. *)
Theorem kfree_kalloc c v s l :
  free s l → lockable c s → page_ok v → v ∉ l →
  ∃ s1 s2, kfree c v s = Ok tt s1 ∧ free s1 (v :: l) ∧ kalloc c s1 = Ok (Some v) s2 ∧ free s2 l.
Proof.
  intros Hf Hlk Hv Hn. destruct (wp_total _ _ _ (wp_kfree (mode := Total) c v s l
    (λ _ s', free s' (v :: l) ∧ lockable c s') Hf Hlk Hv Hn (λ s' H1 _ H2 _, conj H1 H2)))
    as ([] & s1 & E1 & Hf1 & Hlk1).
  destruct (wp_total _ _ _ (wp_kalloc (mode := Total) c s1 (v :: l)
    (λ r s', r = Some v ∧ free s' l) Hf1 Hlk1
    (λ s' H1 _ _ _, conj eq_refl H1))) as (r & s2 & E2 & -> & Hf2). by exists s1, s2.
Qed.

(** Freerange terminates and frees exactly the whole pages between its
    bounds, each once, in ascending order (so that they are handed out in
    descending order), before the pages that were free. *)
Theorem freerange_frees c vstart vend s l :
  let p := PGROUNDUP vstart in
  let n := Z.to_nat ((vend - p) / PGSIZE) in
  free s l → lockable c s → 0 <= vstart <= vend → kend <= vstart → KERNBASE <= vstart →
  p <= vend <= KERNBASE + PHYSTOP → (∀ v, v ∈ pages p n → v ∉ l) →
  ∃ s', freerange c vstart vend s = Ok tt s' ∧ free s' (rev (pages p n) ++ l) ∧ lockable c s'.
Proof.
  intros p n Hf Hlk Hv He Hk Hb Hnew. assert (Hps : 0 < PGSIZE) by done.
  assert (Ep : p = (vstart + PGSIZE - 1) / PGSIZE * PGSIZE).
  { apply PGROUNDUP_spec. unfold KERNBASE, PHYSTOP, PGSIZE, w32 in *. lia. }
  assert (Hpv : vstart <= p).
  { rewrite Ep. pose proof (Z.div_mod (vstart + PGSIZE - 1) PGSIZE) as Hd.
    pose proof (Z.mod_pos_bound (vstart + PGSIZE - 1) PGSIZE). lia. }
  assert (Hn : Z.of_nat n = (vend - p) / PGSIZE) by (unfold n; apply Z2Nat.id, Z.div_pos; lia).
  assert (Hrange : p + Z.of_nat n * PGSIZE <= vend < p + (Z.of_nat n + 1) * PGSIZE).
  { rewrite Hn. pose proof (Z.div_mod (vend - p) PGSIZE). pose proof (Z.mod_pos_bound (vend - p) PGSIZE). lia. }
  destruct (wp_total _ _ _ (wp_free_from (mode := Total) c vend n (S (Z.to_nat (vend / PGSIZE))) p s l
    (λ _ s', free s' (rev (pages p n) ++ l) ∧ lockable c s') Hf Hlk
    ltac:(unfold n; apply Nat.le_le_succ_r, Z2Nat.inj_le; [apply Z.div_pos; lia|apply Z.div_pos; lia|apply Z.div_le_mono; lia])
    ltac:(lia) ltac:(unfold KERNBASE, PHYSTOP, PGSIZE, w32 in *; lia) Hrange
    ltac:(apply pages_ok; [rewrite Ep; apply Z_mod_mult|lia|lia|lia]) Hnew
    (λ s' H1 _ H2, conj H1 H2))) as ([] & s' & E & P). by exists s'.
Qed.

End kalloc.

(** Pages 0x80400000 and 0x80401000 are free; the kernel ends at 0x80110000. *)
Definition demo_end : Z := 2148597760.
Definition demo : kst :=
  mkkst (Spinlock.mklstate (λ _, Spinlock.mkcpu None 0 false true 0)
           (λ _, Spinlock.mklock false "kmem" None []) (λ _, 0)) true (Some 2151677952)
    (store32 (λ _, 0) 2151677952 2151682048).

Lemma demo_free : free demo_end demo [2151677952; 2151682048].
Proof.
  split; [vm_compute; done|]. repeat constructor; vm_compute; done.
Qed.
Lemma demo_lockable : lockable 0 demo.
Proof. intros _. vm_compute. done. Qed.

Lemma kalloc_hands_out_witness :
  ∃ s', kalloc 0 demo = Ok (Some 2151677952) s' ∧ free demo_end s' [2151682048].
Proof.
  destruct (kalloc_hands_out demo_end 0 demo _ demo_free demo_lockable) as (s' & E & Hf & _).
  exists s'. exact (conj E Hf).
Defined.

Lemma kfree_kalloc_witness :
  ∃ s1 s2, kfree demo_end 0 2151686144 demo = Ok tt s1 ∧
    free demo_end s1 (2151686144 :: [2151677952; 2151682048]) ∧
    kalloc 0 s1 = Ok (Some 2151686144) s2 ∧ free demo_end s2 [2151677952; 2151682048].
Proof.
  apply (kfree_kalloc demo_end 0); [apply demo_free|apply demo_lockable|vm_compute; done|].
  rewrite !not_elem_of_cons. repeat split; try done. apply not_elem_of_nil.
Defined.

Lemma freerange_frees_witness :
  ∃ s', freerange demo_end 0 2152726529 2152738816 demo = Ok tt s' ∧
    free demo_end s' (rev (pages (PGROUNDUP 2152726529) 2) ++ [2151677952; 2151682048]) ∧ lockable 0 s'.
Proof.
  refine (freerange_frees demo_end 0 2152726529 2152738816 demo _ demo_free demo_lockable _ _ _ _ _);
    [done|done|done|done|].
  intros v Hv. vm_compute in Hv. repeat (apply elem_of_cons in Hv as [->|Hv]; [by vm_compute; set_solver|]).
  by apply not_elem_of_nil in Hv.
Defined.

End Kalloc.
