(* ===== verification/Vm.v ===== *)
(** * Virtual memory (vm.c, mmu.h, memlayout.h)

    Page directories and page tables are pages of the kernel's memory and are
    read and written there, word by word, next to the page allocator of file
    Kalloc.  A page table entry is named by its kernel address.  The linker's
    symbols [end] and [data] are parameters.

    The tables are refined to the function [entry] from page numbers to entries,
    and the operations are specified by how they change it, which pages they
    take from and return to the allocator, and which bytes they may touch. *)

From S2P Require Import Prelude CString Spinlock Kalloc.
Local Open Scope Z_scope.

Module Vm.
Import Kalloc.

Definition EXTMEM : Z := 1048576.
Definition DEVSPACE : Z := 4261412864.
Definition KERNLINK : Z := KERNBASE + EXTMEM.
Definition v2p (a : Z) : Z := u32 (a - KERNBASE).
Definition p2v (a : Z) : Z := u32 (a + KERNBASE).

Definition NPDENTRIES : Z := 1024.
Definition NPTENTRIES : Z := 1024.
Definition PDX (va : Z) : Z := Z.land (Z.shiftr (u32 va) 22) 1023.
Definition PTX (va : Z) : Z := Z.land (Z.shiftr (u32 va) 12) 1023.
Definition PGROUNDDOWN (a : Z) : Z := Z.land a (u32 (Z.lnot (PGSIZE - 1))).
Definition PTE_P : Z := 1.
Definition PTE_W : Z := 2.
Definition PTE_U : Z := 4.
Definition PTE_ADDR (pte : Z) : Z := Z.land pte (u32 (Z.lnot 4095)).
Definition PTE_FLAGS (pte : Z) : Z := Z.land pte 4095.

(** Is the flag [f] set in [e]? *)
Definition has (e f : Z) : bool := negb (Z.land e f =? 0).

Definition ld (a : Z) : M kst Z := gets (λ s, load32 (memory s) a).
Definition st (a w : Z) : M kst unit := modify (λ s, put_mem (store32 (memory s) a w) s).
Definition clear_page (v : Z) : M kst unit := modify (λ s, put_mem (CString.memset (memory s) v 0 4096) s).
(** The bytes [l] copied to address [a]. *)
Definition put_bytes (m : mem) (a : Z) (l : list Z) : mem := λ x,
  if (a <=? x) && (x <? a + Z.of_nat (length l)) then nth (Z.to_nat (x - a)) l 0 else m x.

Section vm.
(** [end] and [data] (kernel.ld), and the CPU the code runs on. *)
Context (kend kdata : Z) (c : nat).

Definition walkpgdir (pgdir va : Z) (alloc : bool) : M kst (option Z) :=
  let pde := pgdir + 4 * PDX va in
  e ← ld pde;
  if has e PTE_P then mret (Some (p2v (PTE_ADDR e) + 4 * PTX va)) else
  if negb alloc then mret None else
  r ← kalloc c;
  match r with
  | None => mret None
  | Some pgtab =>
      clear_page pgtab;;
      st pde (Z.lor (Z.lor (Z.lor (v2p pgtab) PTE_P) PTE_W) PTE_U);;
      mret (Some (pgtab + 4 * PTX va))
  end.

Fixpoint map_loop (fuel : nat) (pgdir a last pa perm : Z) : M kst Z :=
  match fuel with
  | O => hang
  | S fuel =>
      r ← walkpgdir pgdir a true;
      match r with
      | None => mret (-1)
      | Some pte =>
          e ← ld pte;
          if has e PTE_P then panic "remap" else
          st pte (Z.lor (Z.lor pa perm) PTE_P);;
          if a =? last then mret 0
          else map_loop fuel pgdir (u32 (a + PGSIZE)) last (u32 (pa + PGSIZE)) perm
      end
  end.
(** The loop reaches [last] after at most [(last - a) / PGSIZE] rounds. *)
Definition mappages (pgdir va size pa perm : Z) : M kst Z :=
  let a := PGROUNDDOWN va in
  let last := PGROUNDDOWN (u32 (va + size - 1)) in
  map_loop (S (Z.to_nat (u32 (last - a) / PGSIZE))) pgdir a last pa perm.

Record kmap := mkkmap { k_virt : Z; k_phys_start : Z; k_phys_end : Z; k_perm : Z }.
Definition kmaps : list kmap :=
  [mkkmap KERNBASE 0 EXTMEM PTE_W; mkkmap KERNLINK (v2p KERNLINK) (v2p kdata) 0;
   mkkmap kdata (v2p kdata) PHYSTOP PTE_W; mkkmap DEVSPACE DEVSPACE 0 PTE_W].

Fixpoint setup_loop (pgdir : Z) (ks : list kmap) : M kst (option Z) :=
  match ks with
  | [] => mret (Some pgdir)
  | k :: ks =>
      r ← mappages pgdir (k_virt k) (u32 (k_phys_end k - k_phys_start k)) (k_phys_start k) (k_perm k);
      if r <? 0 then mret None else setup_loop pgdir ks
  end.
Definition setupkvm : M kst (option Z) :=
  r ← kalloc c;
  match r with
  | None => mret None
  | Some pgdir =>
      clear_page pgdir;;
      if DEVSPACE <? p2v PHYSTOP then panic "PHYSTOP too high" else
      setup_loop pgdir kmaps
  end.

(** The page that [kalloc] returns is not tested: a null pointer is written. *)
Definition inituvm (pgdir : Z) (init : list Z) (sz : Z) : M kst unit :=
  if PGSIZE <=? sz then panic "inituvm: more than a page" else
  r ← kalloc c;
  v ← deref r;
  clear_page v;;
  _ ← mappages pgdir 0 PGSIZE (v2p v) (Z.lor PTE_W PTE_U);
  modify (λ s, put_mem (put_bytes (memory s) v (take (Z.to_nat sz) init)) s).

(** [rd off n]: what readi returns and the bytes it puts at its destination. *)
Fixpoint load_loop (fuel : nat) (rd : Z → Z → Z * list Z) (pgdir va offset sz i : Z) : M kst Z :=
  if i <? sz then
    match fuel with
    | O => hang
    | S fuel =>
        r ← walkpgdir pgdir (u32 (va + i)) false;
        match r with
        | None => panic "loaduvm: address should exist"
        | Some pte =>
            e ← ld pte;
            let pa := PTE_ADDR e in
            let n := if sz - i <? PGSIZE then sz - i else PGSIZE in
            let '(k, bs) := rd (u32 (offset + i)) n in
            modify (λ s, put_mem (put_bytes (memory s) (p2v pa) bs) s);;
            if negb (k =? n) then mret (-1)
            else load_loop fuel rd pgdir va offset sz (u32 (i + PGSIZE))
        end
    end
  else mret 0.
Definition loaduvm (rd : Z → Z → Z * list Z) (pgdir va offset sz : Z) : M kst Z :=
  if negb (va mod PGSIZE =? 0) then panic "loaduvm: addr must be page aligned" else
  load_loop (S (Z.to_nat (sz / PGSIZE))) rd pgdir va offset sz 0.

Fixpoint dealloc_loop (fuel : nat) (pgdir oldsz a : Z) : M kst unit :=
  if a <? oldsz then
    match fuel with
    | O => hang
    | S fuel =>
        r ← walkpgdir pgdir a false;
        match r with
        | None => dealloc_loop fuel pgdir oldsz (u32 (u32 (a + (NPTENTRIES - 1) * PGSIZE) + PGSIZE))
        | Some pte =>
            e ← ld pte;
            (if has e PTE_P then
               let pa := PTE_ADDR e in
               if pa =? 0 then panic "kfree" else
               kfree kend c (p2v pa);;
               st pte 0
             else mret tt);;
            dealloc_loop fuel pgdir oldsz (u32 (a + PGSIZE))
        end
    end
  else mret tt.
(** There are at most [oldsz / PGSIZE + 1] pages below [oldsz]. *)
Definition deallocuvm (pgdir oldsz newsz : Z) : M kst Z :=
  if oldsz <=? newsz then mret oldsz else
  dealloc_loop (S (Z.to_nat (oldsz / PGSIZE))) pgdir oldsz (PGROUNDUP newsz);;
  mret newsz.

(** The result of mappages is not tested. *)
Fixpoint alloc_loop (fuel : nat) (pgdir oldsz newsz a : Z) : M kst Z :=
  if a <? newsz then
    match fuel with
    | O => hang
    | S fuel =>
        r ← kalloc c;
        match r with
        | None => _ ← deallocuvm pgdir newsz oldsz; mret 0
        | Some v =>
            clear_page v;;
            _ ← mappages pgdir a PGSIZE (v2p v) (Z.lor PTE_W PTE_U);
            alloc_loop fuel pgdir oldsz newsz (u32 (a + PGSIZE))
        end
    end
  else mret newsz.
Definition allocuvm (pgdir oldsz newsz : Z) : M kst Z :=
  if KERNBASE <=? newsz then mret 0 else
  if newsz <? oldsz then mret oldsz else
  alloc_loop (S (Z.to_nat (newsz / PGSIZE))) pgdir oldsz newsz (PGROUNDUP oldsz).

Definition freevm (pgdir : Z) : M kst unit :=
  if pgdir =? 0 then panic "freevm: no pgdir" else
  _ ← deallocuvm pgdir KERNBASE 0;
  count_for (Z.to_nat NPDENTRIES) 0 (λ i,
    e ← ld (pgdir + 4 * Z.of_nat i);
    when (has e PTE_P) (kfree kend c (p2v (PTE_ADDR e)));;
    mret (None : option unit));;
  kfree kend c pgdir.

Definition clearpteu (pgdir uva : Z) : M kst unit :=
  r ← walkpgdir pgdir uva false;
  match r with
  | None => panic "clearpteu"
  | Some pte => e ← ld pte; st pte (Z.land e (u32 (Z.lnot PTE_U)))
  end.

Fixpoint copy_loop (fuel : nat) (pgdir d sz i : Z) : M kst bool :=
  if i <? sz then
    match fuel with
    | O => hang
    | S fuel =>
        r ← walkpgdir pgdir i false;
        match r with
        | None => panic "copyuvm: pte should exist"
        | Some pte =>
            e ← ld pte;
            if negb (has e PTE_P) then panic "copyuvm: page not present" else
            let pa := PTE_ADDR e in
            let flags := PTE_FLAGS e in
            r ← kalloc c;
            match r with
            | None => mret false
            | Some v =>
                modify (λ s, put_mem (CString.memmove (memory s) v (p2v pa) 4096) s);;
                r ← mappages d i PGSIZE (v2p v) flags;
                if r <? 0 then mret false
                else copy_loop fuel pgdir d sz (u32 (i + PGSIZE))
            end
        end
    end
  else mret true.
Definition copyuvm (pgdir sz : Z) : M kst (option Z) :=
  r ← setupkvm;
  match r with
  | None => mret None
  | Some d =>
      ok ← copy_loop (S (Z.to_nat (sz / PGSIZE))) pgdir d sz 0;
      if (ok : bool) then mret (Some d) else freevm d;; mret None
  end.

(** The null pointer walkpgdir may return is not tested. *)
Definition uva2ka (pgdir uva : Z) : M kst (option Z) :=
  r ← walkpgdir pgdir uva false;
  pte ← deref r;
  e ← ld pte;
  if negb (has e PTE_P) then mret None else
  if negb (has e PTE_U) then mret None else
  mret (Some (p2v (PTE_ADDR e))).

(** Each round but the first starts at a page boundary. *)
Fixpoint copyout_loop (fuel : nat) (pgdir va : Z) (buf : list Z) : M kst Z :=
  match buf with
  | [] => mret 0
  | _ =>
      match fuel with
      | O => hang
      | S fuel =>
          let va0 := PGROUNDDOWN va in
          r ← uva2ka pgdir va0;
          match r with
          | None => mret (-1)
          | Some pa0 =>
              let n := Z.min (PGSIZE - (va - va0)) (Z.of_nat (length buf)) in
              modify (λ s, put_mem (put_bytes (memory s) (pa0 + (va - va0)) (take (Z.to_nat n) buf)) s);;
              copyout_loop fuel pgdir (u32 (va0 + PGSIZE)) (drop (Z.to_nat n) buf)
          end
      end
  end.
Definition copyout (pgdir va : Z) (p : list Z) : M kst Z := copyout_loop (length p) pgdir va p.

End vm.
End Vm.
