(* ===== verification/VmSpec.v ===== *)
(** * Page tables as a map from pages to entries

    [entry m d n] is the entry of page number [n] in the tables rooted at the
    directory [d], 0 where there is no table.  [dir_ok] says that the directory
    and its tables are distinct pages that are not free, and [evolves] that an
    operation keeps this and touches no page but the directory, its tables and
    pages it takes from the free list [l]. *)

From S2P Require Import Prelude CString Spinlock Kalloc Vm.
Local Open Scope Z_scope.

Module VmSpec.
Import Kalloc Vm.

(** ** Arithmetic of addresses and entries *)

Lemma PDX_page va : 0 <= va < w32 → PDX va = va / 4096 / 1024.
Proof.
  intros Hva. unfold PDX. rewrite u32_small by done. rewrite Z.shiftr_div_pow2 by lia.
  rewrite (Z.land_ones _ 10) by lia. rewrite Z.div_div by lia. change (4096 * 1024) with (2 ^ 22).
  apply Z.mod_small. split; [apply Z.div_pos; lia|]. apply Z.div_lt_upper_bound; unfold w32 in *; lia.
Qed.
Lemma PTX_page va : 0 <= va < w32 → PTX va = (va / 4096) mod 1024.
Proof.
  intros Hva. unfold PTX. rewrite u32_small by done. rewrite Z.shiftr_div_pow2 by lia.
  by rewrite (Z.land_ones _ 10) by lia.
Qed.

Lemma PTE_ADDR_spec e : 0 <= e < w32 → PTE_ADDR e = e / 4096 * 4096.
Proof. apply mask_page. Qed.
Lemma PTE_FLAGS_spec e : PTE_FLAGS e = e mod 4096.
Proof. apply (Z.land_ones e 12). lia. Qed.
Lemma PGROUNDDOWN_spec a : 0 <= a < w32 → PGROUNDDOWN a = a / 4096 * 4096.
Proof. apply mask_page. Qed.

Lemma lor_page pa f : pa mod 4096 = 0 → 0 <= f < 4096 → Z.lor pa f = pa + f.
Proof.
  intros Hpa Hf. symmetry. apply Z.add_nocarry_lor. apply Z.mod_divide in Hpa as [q ->]; [|done].
  change 4096 with (2 ^ 12) in *. rewrite <-Z.shiftl_mul_pow2 by lia. apply Z.bits_inj'. intros i Hi.
  rewrite Z.land_spec, Z.bits_0. destruct (decide (i < 12)).
  - by rewrite Z.shiftl_spec_low by lia.
  - assert (Z.testbit f i = false) as ->; [|apply andb_false_r]. apply Z.testbit_false; [lia|].
    rewrite Z.div_small; [done|]. split; [lia|]. eapply Z.lt_le_trans; [apply Hf|]. apply Z.pow_le_mono_r; lia.
Qed.

Lemma flags_range a b : 0 <= a < 4096 → 0 <= b < 4096 → 0 <= Z.lor a b < 4096.
Proof.
  intros Ha Hb. split; [apply Z.lor_nonneg; lia|]. change 4096 with (2 ^ 12) in *.
  apply Z.log2_lt_cancel. destruct (decide (Z.lor a b = 0)) as [->|Hne]; [done|].
  rewrite Z.log2_lor by lia. rewrite Z.log2_pow2 by lia.
  destruct (decide (a = 0)) as [->|], (decide (b = 0)) as [->|]; try done;
    apply Z.max_lub_lt; try done; apply Z.log2_lt_pow2; lia.
Qed.

Section pte.
Context (pa f : Z) (Hpa : pa mod 4096 = 0) (Hr : 0 <= pa < w32) (Hf : 0 <= f < 4096).

Lemma lor_range : 0 <= Z.lor pa f < w32.
Proof using Hpa Hr Hf.
  rewrite lor_page by done. apply Z.mod_divide in Hpa as [q ->]; [|done]. unfold w32 in *. lia.
Qed.
Lemma lor_addr : PTE_ADDR (Z.lor pa f) = pa.
Proof using Hpa Hr Hf.
  rewrite PTE_ADDR_spec by apply lor_range. rewrite lor_page by done.
  apply Z.mod_divide in Hpa as [q ->]; [|done]. rewrite Z.div_add_l, Z.div_small by lia. lia.
Qed.
Lemma lor_flags : PTE_FLAGS (Z.lor pa f) = f.
Proof using Hpa Hr Hf.
  rewrite PTE_FLAGS_spec, lor_page by done. apply Z.mod_divide in Hpa as [q ->]; [|done].
  by rewrite Z.add_comm, Z.mod_add, Z.mod_small by lia.
Qed.
End pte.

(** The entry mappages writes. *)
Definition pte_of (pa perm : Z) : Z := Z.lor (Z.lor pa perm) PTE_P.
Lemma pte_of_lor pa perm : pte_of pa perm = Z.lor pa (Z.lor perm PTE_P).
Proof. symmetry. apply Z.lor_assoc. Qed.
Lemma perm_range perm : 0 <= perm < 4096 → 0 <= Z.lor perm PTE_P < 4096.
Proof. intros. apply flags_range; [done|]. unfold PTE_P. lia. Qed.

Lemma has_lor e f g : has f g = true → has (Z.lor e f) g = true.
Proof.
  unfold has. rewrite !negb_true_iff, !Z.eqb_neq. intros H E. apply H.
  rewrite Z.land_lor_distr_l in E. apply Z.lor_eq_0_iff in E as [_ E]. done.
Qed.
Lemma pte_of_present pa perm : has (pte_of pa perm) PTE_P = true.
Proof. by apply has_lor. Qed.

(** ** Pages of memory *)

Definition same_page (m m' : mem) (v : Z) : Prop := ∀ x, v <= x < v + PGSIZE → m' x = m x.

Lemma same_page_refl m v : same_page m m v.
Proof. done. Qed.
Lemma same_page_trans m1 m2 m3 v : same_page m1 m2 v → same_page m2 m3 v → same_page m1 m3 v.
Proof. intros H1 H2 x Hx. by rewrite H2, H1. Qed.

Lemma load_same m m' v a : same_page m m' v → v <= a → a + 4 <= v + PGSIZE → load32 m' a = load32 m a.
Proof. intros H ? ?. unfold load32. rewrite !H by lia. done. Qed.

Section space.
Context (kend : Z).
Abbreviation page_ok := (page_ok kend).
Abbreviation free := (free kend).

(** Writing inside one page leaves another alone. *)
Lemma same_page_other m m' v w :
  page_ok v → page_ok w → v ≠ w → (∀ x, ¬ (v <= x < v + PGSIZE) → m' x = m x) → same_page m m' w.
Proof. intros Hv Hw Hne H x Hx. apply H. pose proof (pages_apart kend v w Hv Hw Hne). lia. Qed.

Lemma store_inside m v a w x :
  v <= a → a + 4 <= v + PGSIZE → ¬ (v <= x < v + PGSIZE) → store32 m a w x = m x.
Proof. intros. unfold store32. repeat (case_match; try lia). Qed.
Lemma memset_inside m v x : ¬ (v <= x < v + PGSIZE) → CString.memset m v 0 4096 x = m x.
Proof. intros H. rewrite CString.memset_spec. rewrite decide_False; [done|]. unfold PGSIZE in H. lia. Qed.
Lemma memset_zero m v x : v <= x < v + PGSIZE → CString.memset m v 0 4096 x = 0.
Proof. intros H. rewrite CString.memset_spec. rewrite decide_True; [done|]. unfold PGSIZE in H. lia. Qed.
Lemma load_zero m v a : v <= a → a + 4 <= v + PGSIZE → load32 (CString.memset m v 0 4096) a = 0.
Proof. intros. unfold load32. rewrite !memset_zero by lia. done. Qed.

Lemma free_same s m' l : free s l → (∀ v, v ∈ l → same_page (memory s) m' v) → free (put_mem m' s) l.
Proof.
  intros [Hc Hp] H. split; [|done]. cbn. eapply chain_ext; [|exact Hc]. intros a Ha. unfold run_next.
  rewrite (load_same (memory s) m' a); [done|by apply H|lia|unfold PGSIZE; lia].
Qed.

(** ** Directories *)

Definition tab (m : mem) (d i : Z) : option Z :=
  let e := load32 m (d + 4 * i) in if has e PTE_P then Some (p2v (PTE_ADDR e)) else None.
Definition entry (m : mem) (d n : Z) : Z :=
  match tab m d (n / 1024) with Some t => load32 m (t + 4 * (n mod 1024)) | None => 0 end.

Definition NPAGES : Z := 1048576.
Lemma page_index n : 0 <= n < NPAGES → 0 <= n / 1024 < 1024 ∧ 0 <= n mod 1024 < 1024.
Proof.
  intros Hn. unfold NPAGES in Hn. split; [|apply Z.mod_pos_bound; lia].
  split; [apply Z.div_pos; lia|]. apply Z.div_lt_upper_bound; lia.
Qed.

Record dir_ok (m : mem) (d : Z) (l : list Z) : Prop := {
  do_dir : page_ok d;
  do_free : d ∉ l;
  do_tab i t : 0 <= i < 1024 → tab m d i = Some t → page_ok t ∧ t ∉ l ∧ t ≠ d;
  do_inj i j t : 0 <= i < 1024 → 0 <= j < 1024 → tab m d i = Some t → tab m d j = Some t → i = j
}.

(** The pages an operation on the directory may write. *)
Definition foot (m : mem) (d : Z) (l : list Z) (v : Z) : Prop :=
  v = d ∨ v ∈ l ∨ ∃ i, 0 <= i < 1024 ∧ tab m d i = Some v.

Record evolves (m : mem) (d : Z) (l : list Z) (m' : mem) (l' : list Z) : Prop := {
  ev_dir : dir_ok m' d l';
  ev_foot v : foot m' d l' v → foot m d l v;
  ev_frame v : page_ok v → ¬ foot m d l v → same_page m m' v;
  ev_tab i t : 0 <= i < 1024 → tab m d i = Some t → tab m' d i = Some t
}.

Lemma evolves_refl m d l : dir_ok m d l → evolves m d l m l.
Proof. intros H. split; [done|done| |done]. intros. apply same_page_refl. Qed.
Lemma evolves_trans m d l m1 l1 m2 l2 : evolves m d l m1 l1 → evolves m1 d l1 m2 l2 → evolves m d l m2 l2.
Proof.
  intros [D1 F1 S1 T1] [D2 F2 S2 T2]. split; [done|by intros v ?%F2%F1| |by intros i t Hi ?%T1%T2].
  intros v Hv Hn. apply (same_page_trans _ m1); [by apply S1|]. apply S2; [done|]. by intros ?%F1.
Qed.

Lemma tab_same m m' d i : same_page m m' d → 0 <= i < 1024 → tab m' d i = tab m d i.
Proof. intros H Hi. unfold tab. rewrite (load_same m m' d); [done|done|lia|unfold PGSIZE; lia]. Qed.
Lemma entry_same m m' d n :
  same_page m m' d → (∀ t, tab m d (n / 1024) = Some t → same_page m m' t) → 0 <= n < NPAGES →
  entry m' d n = entry m d n.
Proof.
  intros Hd Ht Hn. apply page_index in Hn as [H1 H2]. unfold entry. rewrite (tab_same m m') by done.
  destruct (tab m d (n / 1024)) as [t|] eqn:E; [|done]. apply (load_same m m' t); [by apply Ht|lia|unfold PGSIZE; lia].
Qed.
Lemma dir_ok_same m m' d l l' :
  dir_ok m d l → same_page m m' d → (∀ v, v ∈ l' → v ∈ l ∨ ¬ foot m d l v) → dir_ok m' d l'.
Proof.
  intros [D1 D2 D3 D4] Hd Hl.
  assert (G : ∀ v, v ∈ l' → v ∉ l → foot m d l v → False) by (intros v Hv Hn Hf; destruct (Hl v Hv); done).
  split; [done| | |].
  - intros H. apply (G d); [done|done|by left].
  - intros i t Hi. rewrite (tab_same m) by done. intros E. destruct (D3 i t Hi E) as (P1 & P2 & P3).
    split; [done|]. split; [|done]. intros H. apply (G t); [done|done|]. right; right; eauto.
  - intros i j t Hi Hj. rewrite !(tab_same m m') by done. by apply D4.
Qed.

(** A kernel address and the physical page it stands for. *)
Lemma v2p_ok t : page_ok t → v2p t = t - KERNBASE ∧ v2p t mod 4096 = 0 ∧ 0 <= v2p t < w32 ∧ p2v (v2p t) = t.
Proof.
  intros (Hm & He & Hk). unfold v2p, p2v, KERNBASE, PHYSTOP, PGSIZE in *.
  rewrite (u32_small (t - _)) by (unfold w32; lia). split; [done|]. split.
  { apply Z.mod_divide in Hm as [q ->]; [|done]. replace (q * 4096 - 2147483648) with ((q - 524288) * 4096) by lia.
    by rewrite Z.mod_mul. }
  split; [unfold w32; lia|]. replace (t - 2147483648 + 2147483648) with t by lia. apply u32_small. unfold w32; lia.
Qed.

(** The directory gets a new, empty table. *)
Definition new_pde (t : Z) : Z := Z.lor (Z.lor (Z.lor (v2p t) PTE_P) PTE_W) PTE_U.
Lemma new_pde_tab t : page_ok t → has (new_pde t) PTE_P = true ∧ p2v (PTE_ADDR (new_pde t)) = t ∧ 0 <= new_pde t < w32.
Proof.
  intros Ht. destruct (v2p_ok t Ht) as (_ & H1 & H2 & H3).
  assert (E : new_pde t = Z.lor (v2p t) 7) by (unfold new_pde; rewrite <-!Z.lor_assoc; done).
  rewrite E, lor_addr by (done || lia). split; [by apply has_lor|]. split; [done|]. apply lor_range; done || lia.
Qed.

Lemma new_table m d t l i :
  dir_ok m d (t :: l) → page_ok t → t ∉ l → 0 <= i < 1024 → tab m d i = None →
  let m' := store32 (CString.memset m t 0 4096) (d + 4 * i) (new_pde t) in
  evolves m d (t :: l) m' l ∧ tab m' d i = Some t ∧ (∀ n, 0 <= n < NPAGES → entry m' d n = entry m d n).
Proof.
  intros D Ht Htl Hi Hno m'. pose proof D as [D1 D2 D3 D4]. apply not_elem_of_cons in D2 as [Hdt Hdl].
  destruct (new_pde_tab t Ht) as (N1 & N2 & N3).
  assert (Hst : ∀ x, ¬ (d <= x < d + PGSIZE) → m' x = CString.memset m t 0 4096 x).
  { intros x Hx. apply (store_inside _ d); [lia|unfold PGSIZE; lia|done]. }
  assert (Hms : ∀ v, page_ok v → v ≠ t → same_page m (CString.memset m t 0 4096) v).
  { intros v Hv Hne. apply (same_page_other _ _ t); [done|done|done|]. intros x. apply memset_inside. }
  assert (S1 : ∀ v, page_ok v → v ≠ d → v ≠ t → same_page m m' v).
  { intros v Hv H1 H2. eapply same_page_trans; [by apply Hms|]. by apply (same_page_other _ _ d). }
  assert (Ti : tab m' d i = Some t).
  { unfold tab, m'. rewrite load_store by done. by rewrite N1, N2. }
  assert (Tj : ∀ j, 0 <= j < 1024 → j ≠ i → tab m' d j = tab m d j).
  { intros j Hj Hne. transitivity (tab (CString.memset m t 0 4096) d j).
    - unfold tab, m'. rewrite load_store_ne by lia. done.
    - apply tab_same; [|done]. by apply Hms. }
  split; [split|split; [done|]].
  - split; [done|done| |].
    + intros j u Hj. destruct (decide (j = i)) as [->|Hne].
      * rewrite Ti. intros [= <-]. done.
      * rewrite Tj by done. intros E. destruct (D3 j u Hj E) as (? & [??]%not_elem_of_cons & ?). done.
    + assert (G : ∀ j, 0 <= j < 1024 → tab m d j = Some t → False).
      { intros j Hj E. destruct (D3 j t Hj E) as (_ & H & _). by apply H, list_elem_of_here. }
      intros j k u Hj Hk. destruct (decide (j = i)) as [->|], (decide (k = i)) as [->|]; [done|..];
        rewrite ?Ti, ?Tj by done; [intros [= <-]; intros E; by destruct (G k)|intros E [= <-]; by destruct (G j)|by apply D4].
  - intros v [->|[Hv|(j & Hj & E)]]; [by left|right; left; by apply list_elem_of_further|].
    destruct (decide (j = i)) as [->|].
    + rewrite Ti in E. injection E as <-. right; left. apply list_elem_of_here.
    + rewrite Tj in E by done. right; right. eauto.
  - intros v Hv Hf. apply S1; [done|..]; intros ->; apply Hf; [by left|right; left; apply list_elem_of_here].
  - intros j u Hj E. rewrite Tj; [done|done|]. intros ->. by rewrite Hno in E.
  - intros n Hn. pose proof (page_index n Hn) as [H1 H2]. unfold entry. destruct (decide (n / 1024 = i)) as [E|Hne].
    + rewrite E, Ti, Hno. rewrite (load_same (CString.memset m t 0 4096) m' t); [|by apply (same_page_other _ _ d)|lia|unfold PGSIZE; lia].
      apply load_zero; [lia|unfold PGSIZE; lia].
    + rewrite Tj by done. destruct (tab m d (n / 1024)) as [u|] eqn:E; [|done].
      destruct (D3 _ u H1 E) as (P1 & [P2 _]%not_elem_of_cons & P3).
      apply (load_same m m' u); [by apply S1|lia|unfold PGSIZE; lia].
Qed.

(** One entry is written. *)
Lemma set_entry m d l n t w :
  dir_ok m d l → 0 <= n < NPAGES → tab m d (n / 1024) = Some t → 0 <= w < w32 →
  let m' := store32 m (t + 4 * (n mod 1024)) w in
  evolves m d l m' l ∧ entry m' d n = w ∧ (∀ k, 0 <= k < NPAGES → k ≠ n → entry m' d k = entry m d k) ∧
  (∀ i, 0 <= i < 1024 → tab m' d i = tab m d i) ∧ (∀ x, ¬ (t <= x < t + PGSIZE) → m' x = m x).
Proof.
  intros D Hn E Hw m'. pose proof D as [D1 D2 D3 D4]. pose proof (page_index n Hn) as [H1 H2].
  destruct (D3 _ t H1 E) as (P1 & P2 & P3).
  assert (Hst : ∀ x, ¬ (t <= x < t + PGSIZE) → m' x = m x).
  { intros x Hx. apply (store_inside _ t); [lia|unfold PGSIZE; lia|done]. }
  assert (Hd : same_page m m' d) by (by apply (same_page_other _ _ t)).
  assert (Ht : ∀ i, 0 <= i < 1024 → tab m' d i = tab m d i) by (intros; by apply tab_same).
  split; [split|split; [|split; [|done]]].
  - eapply dir_ok_same; [exact D|done|]. intros v Hv. by left.
  - intros v [->|[Hv|(i & Hi & Ei)]]; [by left|by right; left|]. rewrite Ht in Ei by done. right; right. eauto.
  - intros v Hv Hf. apply (same_page_other _ _ t); [done|done| |done]. intros <-. apply Hf. right; right. eauto.
  - intros i u Hi. by rewrite Ht.
  - unfold entry. rewrite Ht, E by done. apply load_store. done.
  - intros k Hk Hne. pose proof (page_index k Hk) as [K1 K2]. unfold entry. rewrite Ht by done.
    destruct (decide (k / 1024 = n / 1024)) as [Eq|Hq].
    + rewrite Eq, E. apply load_store_ne. pose proof (Z.div_mod k 1024). pose proof (Z.div_mod n 1024). lia.
    + destruct (tab m d (k / 1024)) as [u|] eqn:Eu; [|done].
      destruct (D3 _ u K1 Eu) as (U1 & _). apply (load_same m m' u); [|lia|unfold PGSIZE; lia].
      apply (same_page_other _ _ t); [done|done| |done]. intros ->. apply Hq. by apply (D4 _ _ u).
Qed.

(** ** Walking and mapping *)

Context `{mode : Mode} (c : nat).

(** Between two operations on directory [d], with the pages [l] free. *)
Record vs (s : kst) (d : Z) (l : list Z) : Prop := {
  vs_free : free s l;
  vs_lock : lockable c s;
  vs_dir : dir_ok (memory s) d l
}.

Lemma lockable_mem s m' : lockable c s → lockable c (put_mem m' s).
Proof using. done. Qed.

Lemma wp_walk d va s (Q : option Z → kst → Prop) :
  0 <= va < w32 →
  Q (option_map (λ t, t + 4 * ((va / 4096) mod 1024)) (tab (memory s) d (va / 4096 / 1024))) s →
  wp (walkpgdir c d va false) Q s.
Proof.
  intros Hva HQ. unfold walkpgdir, ld. rewrite PDX_page, PTX_page by done. wp_steps. unfold tab in HQ.
  cbv zeta in *. destruct (has (load32 _ _) PTE_P); cbn [option_map negb] in *; wp_steps; done.
Qed.

(** The pages [tk] have become tables of the directory. *)
Definition tabled (m : mem) (d : Z) (tk : list Z) : Prop :=
  ∀ v, v ∈ tk → ∃ i, 0 <= i < 1024 ∧ tab m d i = Some v.
Lemma tabled_nil m d : tabled m d [].
Proof using. intros v Hv. by apply not_elem_of_nil in Hv. Qed.
Lemma tabled_app m d t1 t2 : tabled m d t1 → tabled m d t2 → tabled m d (t1 ++ t2).
Proof using. intros H1 H2 v [Hv|Hv]%elem_of_app; [by apply H1|by apply H2]. Qed.
Lemma tabled_evolves m d l m' l' tk : evolves m d l m' l' → tabled m d tk → tabled m' d tk.
Proof using. intros Ev H v Hv. destruct (H v Hv) as (i & Hi & E). exists i. split; [done|]. by apply (ev_tab _ _ _ _ _ Ev). Qed.

(** Whether the page's table has to be allocated. *)
Definition lacks (m : mem) (d n : Z) : Z := match tab m d (n / 1024) with Some _ => 0 | None => 1 end.

Lemma wp_walk_alloc d n s l (Q : option Z → kst → Prop) :
  vs s d l → 0 <= n < NPAGES →
  (∀ s' l' t, vs s' d l' → evolves (memory s) d l (memory s') l' →
     tab (memory s') d (n / 1024) = Some t → (∀ k, 0 <= k < NPAGES → entry (memory s') d k = entry (memory s) d k) →
     (∃ tk, l = tk ++ l' ∧ Z.of_nat (length tk) = lacks (memory s) d n ∧ tabled (memory s') d tk) → Q (Some (t + 4 * (n mod 1024))) s') →
  (∀ s', vs s' d [] → memory s' = memory s → l = [] → lacks (memory s) d n = 1 → Q None s') →
  wp (walkpgdir c d (n * 4096) true) Q s.
Proof.
  intros [Hf Hl D] Hn HS HN. pose proof (page_index n Hn) as [H1 _].
  unfold walkpgdir, ld. rewrite PDX_page, PTX_page by (unfold NPAGES, w32 in *; lia).
  rewrite Z.div_mul by done. wp_steps. unfold lacks in *. destruct (tab (memory s) d (n / 1024)) as [t|] eqn:E.
  - pose proof E as E'. unfold tab in E. cbv zeta in E. destruct (has (load32 _ _) PTE_P); [|done].
    injection E as E. wp_steps. rewrite E. apply (HS _ l); [by split|by apply evolves_refl|done|done|]. exists []. split; [done|]. split; [done|apply tabled_nil].
  - pose proof E as E'. unfold tab in E. cbv zeta in E. destruct (has (load32 _ _) PTE_P); [done|]. cbn [negb].
    apply wp_bind. apply (wp_kalloc kend c s l); [done|done|]. intros s1 Hf1 _ Hl1 Em.
    pose proof (free_NoDup _ _ _ Hf) as Hnd. destruct l as [|t l]; cbn [head tail] in *.
    + wp_steps. apply HN; [|done|done|done]. split; [done|done|]. by rewrite Em.
    + apply NoDup_cons in Hnd as [Htl Hnd]. pose proof Hf as [_ [Ht Hp]%Forall_cons].
      destruct (new_table _ _ _ _ _ D Ht Htl H1 E') as (V & T & En). unfold clear_page, st. wp_steps.
      cbn [memory put_mem]. rewrite Em. fold (new_pde t).
      apply (HS _ l); cbn [memory put_mem]; [|done|done|done|].
      2: { exists [t]. split; [done|]. split; [done|]. intros v ->%list_elem_of_singleton. by exists (n / 1024). }
      split; [|by apply lockable_mem|apply V].
      match goal with |- free (put_mem ?m' (put_mem ?m1 s1)) l => change (free (put_mem m' s1) l) end.
      apply free_same; [done|]. intros v Hv. rewrite Em. rewrite Forall_forall in Hp.
      pose proof D as [Dd Df _ _]. apply not_elem_of_cons in Df as [Df1 Df2].
      eapply same_page_trans.
      * apply (same_page_other _ _ t); [done|by apply Hp|by intros ->|]. intros x. apply memset_inside.
      * apply (same_page_other _ _ d); [done|by apply Hp|by intros ->|].
        intros x Hx. apply (store_inside _ d); [lia|unfold PGSIZE; lia|done].
Qed.

Lemma entry_tab m d n : has (entry m d n) PTE_P = true → tab m d (n / 1024) ≠ None.
Proof using. unfold entry. by destruct (tab m d (n / 1024)). Qed.

(** Writing the entry that [wp_walk] or [wp_walk_alloc] found. *)
Lemma vs_set_entry s d l n t w :
  vs s d l → 0 <= n < NPAGES → tab (memory s) d (n / 1024) = Some t → 0 <= w < w32 →
  let m' := store32 (memory s) (t + 4 * (n mod 1024)) w in
  vs (put_mem m' s) d l ∧ evolves (memory s) d l m' l ∧
  (∀ k, 0 <= k < NPAGES → entry m' d k = if decide (k = n) then w else entry (memory s) d k).
Proof using.
  intros [Hf Hl D] Hn E Hw m'. destruct (set_entry _ _ _ _ _ _ D Hn E Hw) as (V & En & Ek & _ & Hx).
  pose proof (page_index n Hn) as [H1 _]. destruct (do_tab _ _ _ D _ _ H1 E) as (P1 & P2 & P3).
  split; [|split; [done|]].
  - split; [|done|apply V]. apply free_same; [done|]. intros v Hv. pose proof Hf as [_ Hp]. rewrite Forall_forall in Hp.
    apply (same_page_other _ _ t); [done|by apply Hp| |done]. by intros ->.
  - intros k Hk. case_decide as Hkn; [by subst|]. by apply Ek.
Qed.

(** What mappages leaves when it has mapped [j] pages from page [n] on. *)
Record maps (s : kst) (d : Z) (l : list Z) (n j pa perm : Z) (s' : kst) (l' : list Z) : Prop := {
  mp_vs : vs s' d l';
  mp_ev : evolves (memory s) d l (memory s') l';
  mp_take : ∃ tk, l = tk ++ l' ∧ tabled (memory s') d tk;
  mp_entry k : 0 <= k < NPAGES →
    entry (memory s') d k = if decide (n <= k < n + j) then pte_of (pa + (k - n) * 4096) perm else entry (memory s) d k
}.

(** The tables missing for [k] pages from page [n] on, at most. *)
Definition cost (m : mem) (d n k : Z) : Z := lacks m d n + ((n + k - 1) / 1024 - n / 1024).

Lemma wp_map_loop d perm last : ∀ k fuel n pa s l (Q : Z → kst → Prop),
  vs s d l → 0 <= n → n + Z.of_nat k <= NPAGES → last = (n + Z.of_nat k - 1) * 4096 → (0 < k <= fuel)%nat →
  pa mod 4096 = 0 → 0 <= pa → pa + Z.of_nat k * 4096 <= w32 → 0 <= perm < 4096 →
  (∀ i, n <= i < n + Z.of_nat k → has (entry (memory s) d i) PTE_P = false) →
  (∀ s' l', maps s d l n (Z.of_nat k) pa perm s' l' →
     Z.of_nat (length l) - Z.of_nat (length l') <= cost (memory s) d n (Z.of_nat k) → Q 0 s') →
  (∀ s' j, maps s d l n j pa perm s' [] → 0 <= j < Z.of_nat k →
     Z.of_nat (length l) < cost (memory s) d n (Z.of_nat k) → Q (-1) s') →
  wp (map_loop c fuel d (n * 4096) last pa perm) Q s.
Proof.
  induction k as [|k IH]; intros fuel n pa s l Q V Hn Hk Hlast Hfu Hpa Hpa0 Hpa1 Hperm Hnp HQ HE; [lia|].
  destruct fuel as [|fuel]; [lia|]. cbn [map_loop].
  assert (Hn' : 0 <= n < NPAGES) by lia. assert (Hb : 0 <= lacks (memory s) d n <= 1) by (unfold lacks; case_match; lia).
  assert (Hmono : n / 1024 <= (n + Z.of_nat (S k) - 1) / 1024) by (apply Z.div_le_mono; lia).
  apply wp_bind, (wp_walk_alloc _ _ _ l); [done|done| |].
  2: { intros s1 V1 Em -> Hla. wp_steps. apply (HE _ 0); [|lia|unfold cost; cbn [length]; lia].
       split; [done|rewrite Em; apply evolves_refl, V|exists []; split; [done|apply tabled_nil]|]. intros i Hi. rewrite Em, decide_False by lia. done. }
  intros s1 l1 t V1 Ev1 Ht En1 (tk & -> & Htk & Htb). unfold ld, st. wp_steps.
  assert (Ee : load32 (memory s1) (t + 4 * (n mod 1024)) = entry (memory s1) d n) by (unfold entry; by rewrite Ht).
  rewrite Ee, En1, Hnp by (done || lia). wp_steps. fold (pte_of pa perm).
  assert (Hw : 0 <= pte_of pa perm < w32).
  { rewrite pte_of_lor. apply lor_range; [done|lia|by apply perm_range]. }
  destruct (vs_set_entry _ _ _ _ _ _ V1 Hn' Ht Hw) as (V2 & Ev2 & En2).
  set (s2 := put_mem _ s1) in *. set (m2 := store32 _ _ _) in *.
  assert (Ev : evolves (memory s) d (tk ++ l1) m2 l1) by (by eapply evolves_trans).
  assert (En : ∀ i, 0 <= i < NPAGES → entry m2 d i = if decide (n <= i < n + 1) then pte_of (pa + (i - n) * 4096) perm else entry (memory s) d i).
  { intros i Hi. rewrite En2 by done. repeat case_decide; try lia.
    - subst i. do 2 f_equal. lia.
    - by apply En1. }
  destruct (Z.eqb_spec (n * 4096) last) as [El|El].
  - assert (k = 0%nat) as -> by lia. wp_steps. apply (HQ _ l1).
    + split; [done|done|exists tk; split; [done|eapply tabled_evolves; [exact Ev2|exact Htb]]|exact En].
    + rewrite length_app. unfold cost. lia.
  - assert (Hk1 : (0 < k)%nat) by lia. unfold PGSIZE.
    rewrite !u32_small by (unfold NPAGES, w32 in *; lia). replace (n * 4096 + 4096) with ((n + 1) * 4096) by lia.
    assert (Hc : cost m2 d (n + 1) (Z.of_nat k) <= cost (memory s) d n (Z.of_nat (S k)) - lacks (memory s) d n).
    { unfold cost. replace (n + 1 + Z.of_nat k - 1) with (n + Z.of_nat (S k) - 1) by lia.
      assert (Hq : (n + 1) / 1024 = n / 1024 ∨ (n + 1) / 1024 = n / 1024 + 1).
      { pose proof (Z.div_mod n 1024). pose proof (Z.mod_pos_bound n 1024). pose proof (Z.div_mod (n + 1) 1024).
        pose proof (Z.mod_pos_bound (n + 1) 1024). lia. }
      pose proof (page_index n Hn') as [Hi _]. destruct Hq as [Hq|Hq]; rewrite Hq.
      - replace (lacks m2 d (n + 1)) with 0; [lia|]. unfold lacks. rewrite Hq.
        by rewrite (ev_tab _ _ _ _ _ Ev2 _ t Hi Ht).
      - assert (lacks m2 d (n + 1) <= 1) by (unfold lacks; case_match; lia). lia. }
    assert (Hmaps : ∀ j s' l', 0 <= j → maps s2 d l1 (n + 1) j (pa + 4096) perm s' l' → maps s d (tk ++ l1) n (1 + j) pa perm s' l').
    { intros j s' l' Hj [M1 M2 (tk' & -> & Htb') M4]. split; [done|by eapply evolves_trans| |].
      { exists (tk ++ tk'). rewrite app_assoc. split; [done|]. apply tabled_app; [|done].
        eapply tabled_evolves; [exact M2|]. eapply tabled_evolves; [exact Ev2|exact Htb]. }
      intros i Hi. rewrite M4 by done. change (memory s2) with m2. rewrite En by done. repeat case_decide; try lia; try done.
      all: (f_equal; lia). }
    apply (IH _ _ _ _ l1); try done; try lia.
    + by rewrite Z.add_comm, Z.add_mod, Hpa.
    + intros i Hi. change (memory s2) with m2. rewrite En, decide_False by lia. apply Hnp. lia.
    + intros s' l' Hm Hcost. apply (HQ _ l').
      * replace (Z.of_nat (S k)) with (1 + Z.of_nat k) by lia. apply Hmaps; [lia|done].
      * change (memory s2) with m2 in Hcost. rewrite length_app. lia.
    + intros s' j Hm Hj Hcost. apply (HE _ (1 + j)).
      * apply Hmaps; [lia|done].
      * lia.
      * change (memory s2) with m2 in Hcost. rewrite length_app. lia.
Qed.

(** The pages that [size] bytes from [va] lie on. *)
Definition npages (va size : Z) : Z := (va + size - 1) / 4096 - va / 4096 + 1.

Lemma wp_mappages d va size pa perm s l (Q : Z → kst → Prop) :
  vs s d l → 0 <= va → 0 < size → va + size <= w32 →
  pa mod 4096 = 0 → 0 <= pa → pa + npages va size * 4096 <= w32 → 0 <= perm < 4096 →
  (∀ i, va / 4096 <= i < va / 4096 + npages va size → has (entry (memory s) d i) PTE_P = false) →
  (∀ s' l', maps s d l (va / 4096) (npages va size) pa perm s' l' →
     Z.of_nat (length l) - Z.of_nat (length l') <= cost (memory s) d (va / 4096) (npages va size) → Q 0 s') →
  (∀ s' j, maps s d l (va / 4096) j pa perm s' [] → 0 <= j < npages va size →
     Z.of_nat (length l) < cost (memory s) d (va / 4096) (npages va size) → Q (-1) s') →
  wp (mappages c d va size pa perm) Q s.
Proof.
  intros V Hva Hsz Hend Hpa Hpa0 Hpa1 Hperm Hnp HQ HE. unfold mappages.
  rewrite (u32_small (va + size - 1)) by lia. rewrite !PGROUNDDOWN_spec by lia.
  set (n := va / 4096) in *. set (z := (va + size - 1) / 4096).
  assert (Hnz : n <= z) by (apply Z.div_le_mono; lia). assert (Hn0 : 0 <= n) by (apply Z.div_pos; lia).
  assert (Hz : z < NPAGES) by (apply Z.div_lt_upper_bound; unfold NPAGES, w32 in *; lia).
  assert (Hk : npages va size = z - n + 1) by done.
  assert (Hu : u32 (z * 4096 - n * 4096) / PGSIZE = z - n).
  { rewrite u32_small by (unfold NPAGES, w32 in *; lia). unfold PGSIZE.
    replace (z * 4096 - n * 4096) with ((z - n) * 4096) by lia. by apply Z.div_mul. }
  rewrite Hu. assert (Ek : Z.of_nat (S (Z.to_nat (z - n))) = npages va size) by lia.
  apply (wp_map_loop d perm (z * 4096) (S (Z.to_nat (z - n))) _ n pa s l); rewrite ?Ek; try done; lia.
Qed.

(** ** User pages *)

Definition NUSER : Z := 524288.
Definition upage (e : Z) : Z := p2v (PTE_ADDR e).

(** The user pages are pages of their own. *)
Record user_ok (m : mem) (d : Z) (l : list Z) : Prop := {
  uo_page n : 0 <= n < NUSER → has (entry m d n) PTE_P = true →
    page_ok (upage (entry m d n)) ∧ ¬ foot m d l (upage (entry m d n));
  uo_inj n k : 0 <= n < NUSER → 0 <= k < NUSER → has (entry m d n) PTE_P = true → has (entry m d k) PTE_P = true →
    upage (entry m d n) = upage (entry m d k) → n = k
}.

Lemma user_evolves m d l m' l' :
  user_ok m d l → evolves m d l m' l' → (∀ n, 0 <= n < NUSER → entry m' d n = entry m d n) → user_ok m' d l'.
Proof using.
  intros [U1 U2] Ev En. split.
  - intros n Hn. rewrite En by done. intros Hp. destruct (U1 n Hn Hp) as [H1 H2]. split; [done|].
    intros Hf. by apply H2, (ev_foot _ _ _ _ _ Ev).
  - intros n k Hn Hk. rewrite !En by done. by apply U2.
Qed.

(** The user pages among the [k] pages from [n] on. *)
Definition upages (m : mem) (d n : Z) (k : nat) : list Z :=
  omap (λ i, let e := entry m d (n + Z.of_nat i) in if has e PTE_P then Some (upage e) else None) (seq 0 k).

Lemma upages_S m d n k :
  upages m d n (S k) = (if has (entry m d n) PTE_P then [upage (entry m d n)] else []) ++ upages m d (n + 1) k.
Proof using.
  unfold upages. cbn [seq omap list_omap]. rewrite Z.add_0_r.
  assert (E : omap (λ i, let e := entry m d (n + Z.of_nat i) in if has e PTE_P then Some (upage e) else None) (seq 1 k) =
              omap (λ i, let e := entry m d (n + 1 + Z.of_nat i) in if has e PTE_P then Some (upage e) else None) (seq 0 k)).
  { rewrite <-seq_shift. induction (seq 0 k) as [|i r IH]; [done|]. cbn [fmap list_fmap omap list_omap map] in *.
    replace (n + Z.of_nat (S i)) with (n + 1 + Z.of_nat i) by lia. cbv zeta. by rewrite IH. }
  cbv zeta in *. rewrite E. destruct (has (entry m d n) PTE_P); done.
Qed.
Lemma upages_app m d k1 : ∀ n k2, upages m d n (k1 + k2) = upages m d n k1 ++ upages m d (n + Z.of_nat k1) k2.
Proof using.
  induction k1 as [|k1 IH]; intros n k2; [cbn [Nat.add]; by rewrite Z.add_0_r|].
  cbn [Nat.add]. rewrite !upages_S, IH, <-app_assoc. do 3 f_equal. lia.
Qed.
Lemma upages_ext m m' d n k :
  (∀ i, n <= i < n + Z.of_nat k → entry m' d i = entry m d i) → upages m' d n k = upages m d n k.
Proof using.
  revert n; induction k as [|k IH]; intros n H; [done|]. rewrite !upages_S, H by lia. f_equal. apply IH.
  intros i Hi. apply H. lia.
Qed.
Lemma upages_none m d n k : (∀ i, n <= i < n + Z.of_nat k → has (entry m d i) PTE_P = false) → upages m d n k = [].
Proof using.
  revert n; induction k as [|k IH]; intros n H; [done|]. rewrite upages_S, H by lia. apply IH. intros i Hi. apply H. lia.
Qed.
Lemma elem_upages m d k : ∀ n v, v ∈ upages m d n k ↔
  ∃ i, n <= i < n + Z.of_nat k ∧ has (entry m d i) PTE_P = true ∧ v = upage (entry m d i).
Proof using.
  induction k as [|k IH]; intros n v.
  - split; [intros H; by apply not_elem_of_nil in H|]. intros (i & Hi & _). lia.
  - rewrite upages_S, elem_of_app, IH. split.
    + intros [H|(i & Hi & H)]; [|exists i; split; [lia|done]].
      destruct (has (entry m d n) PTE_P) eqn:E; [|by apply not_elem_of_nil in H].
      apply list_elem_of_singleton in H as ->. exists n. split; [lia|done].
    + intros (i & Hi & Hp & ->). destruct (decide (i = n)) as [->|Hne].
      * left. rewrite Hp. by apply list_elem_of_singleton.
      * right. exists i. split; [lia|done].
Qed.
End space.
End VmSpec.
