(* ===== verification/VmUser.v ===== *)
(** * User memory: growing, shrinking, copying

    The specifications of deallocuvm, allocuvm, setupkvm, copyuvm and copyout
    over the page-table map of file VmSpec. *)

From S2P Require Import Prelude CString Spinlock Kalloc Vm VmSpec.
Local Open Scope Z_scope.

Module VmUser.
Import Kalloc Vm VmSpec.

Section user.
Context (kend : Z) (Hkend : KERNBASE < kend) `{mode : Mode} (c : nat).
Abbreviation page_ok := (page_ok kend).
Abbreviation free := (free kend).
Abbreviation vs := (vs kend c).
Abbreviation dir_ok := (dir_ok kend).
Abbreviation evolves := (evolves kend).
Abbreviation user_ok := (user_ok kend).

(** ** Shrinking *)

(** The user pages among the [k] pages from [n] on have been freed. *)
Record frees (s : kst) (d : Z) (l : list Z) (n : Z) (k : nat) (s' : kst) (l' : list Z) : Prop := {
  fr_vs : vs s' d l';
  fr_user : user_ok (memory s') d l';
  fr_list : l' = rev (upages (memory s) d n k) ++ l;
  fr_entry i : 0 <= i < NPAGES → entry (memory s') d i =
    if decide (n <= i < n + Z.of_nat k) then (if has (entry (memory s) d i) PTE_P then 0 else entry (memory s) d i)
    else entry (memory s) d i;
  fr_tab i : 0 <= i < 1024 → tab (memory s') d i = tab (memory s) d i;
  fr_frame v : page_ok v → ¬ foot (memory s) d l v → v ∉ upages (memory s) d n k → same_page (memory s) (memory s') v
}.

Lemma frees_none s d l n k :
  vs s d l → user_ok (memory s) d l → (∀ i, n <= i < n + Z.of_nat k → has (entry (memory s) d i) PTE_P = false) →
  frees s d l n k s l.
Proof using.
  intros V U H. split; [done|done|by rewrite upages_none| |done|done].
  intros i Hi. case_decide; [by rewrite H|done].
Qed.

Lemma frees_trans s d l n k1 s1 l1 k2 s2 l2 :
  0 <= n → n + Z.of_nat k1 + Z.of_nat k2 <= NPAGES →
  frees s d l n k1 s1 l1 → frees s1 d l1 (n + Z.of_nat k1) k2 s2 l2 → frees s d l n (k1 + k2) s2 l2.
Proof using.
  intros Hn Hk [V1 U1 L1 E1 T1 F1] [V2 U2 L2 E2 T2 F2].
  assert (Eu : upages (memory s1) d (n + Z.of_nat k1) k2 = upages (memory s) d (n + Z.of_nat k1) k2).
  { apply upages_ext. intros i Hi. rewrite E1, decide_False by lia. done. }
  split; [done|done| | | |].
  - rewrite L2, L1, Eu, upages_app, rev_app_distr, app_assoc. done.
  - intros i Hi. rewrite E2, E1 by done. repeat case_decide; try lia; done.
  - intros i Hi. by rewrite T2, T1.
  - intros v Hv Hf Hu. rewrite upages_app in Hu. apply not_elem_of_app in Hu as [Hu1 Hu2].
    eapply same_page_trans; [by apply F1|]. apply F2; [done| |by rewrite Eu].
    intros [->|[Hl|(i & Hi & Hi')]].
    + apply Hf. by left.
    + rewrite L1 in Hl. apply elem_of_app in Hl as [Hl|Hl].
      * apply list_elem_of_In, in_rev, list_elem_of_In in Hl. done.
      * apply Hf. by right; left.
    + apply Hf. right; right. rewrite T1 in Hi' by done. eauto.
Qed.

Lemma upage_addr e : page_ok (upage e) → PTE_ADDR e ≠ 0.
Proof using Hkend. intros (_ & H & _) E. unfold upage in H. rewrite E in H. change (p2v 0) with KERNBASE in H. lia. Qed.

(** One page: kfree, then the entry is cleared. *)
Lemma wp_free_page s d l n t (Q : unit → kst → Prop) :
  vs s d l → user_ok (memory s) d l → 0 <= n < NUSER → tab (memory s) d (n / 1024) = Some t →
  has (entry (memory s) d n) PTE_P = true →
  (∀ s' l', frees s d l n 1 s' l' → Q tt s') →
  wp (kfree kend c (upage (entry (memory s) d n));; st (t + 4 * (n mod 1024)) 0) Q s.
Proof.
  intros V U Hn Ht Hp HQ. pose proof V as [Vf Vl D]. destruct (uo_page _ _ _ _ U n Hn Hp) as [Hv Hnf].
  set (v := upage (entry (memory s) d n)) in *. assert (HnP : 0 <= n < NPAGES) by (unfold NUSER, NPAGES in *; lia).
  assert (Hvl : v ∉ l) by (intros H; apply Hnf; by right; left).
  assert (Hvd : v ≠ d) by (intros H; apply Hnf; by left).
  assert (Hvt : ∀ i u, 0 <= i < 1024 → tab (memory s) d i = Some u → v ≠ u).
  { intros i u Hi E ->. apply Hnf. right; right. eauto. }
  apply wp_bind, (wp_kfree kend c v s l); [done..|]. intros s1 F1 _ L1 M1.
  assert (S1 : ∀ w, page_ok w → w ≠ v → same_page (memory s) (memory s1) w).
  { intros w Hw Hne. apply (same_page_other kend _ _ v); [done|done|by apply not_eq_sym|done]. }
  assert (Sd : same_page (memory s) (memory s1) d) by (apply S1; [apply D|by apply not_eq_sym]).
  assert (T1 : ∀ i, 0 <= i < 1024 → tab (memory s1) d i = tab (memory s) d i) by (intros; by apply tab_same).
  assert (E1 : ∀ i, 0 <= i < NPAGES → entry (memory s1) d i = entry (memory s) d i).
  { intros i Hi. apply entry_same; [done| |done]. intros u Hu. pose proof (page_index i Hi) as [Hi' _].
    destruct (do_tab _ _ _ _ D _ u Hi' Hu) as (? & _). apply S1; [done|]. apply not_eq_sym. by apply (Hvt (i / 1024)). }
  assert (V1 : vs s1 d (v :: l)).
  { split; [done|done|]. eapply dir_ok_same; [exact D|done|]. intros w [->|Hw]%elem_of_cons; [by right|by left]. }
  pose proof (page_index n HnP) as [Hi _].
  destruct (vs_set_entry _ _ _ _ _ _ t 0 V1 HnP ltac:(by rewrite T1) ltac:(done)) as (V2 & Ev2 & E2).
  unfold st. wp_steps. apply (HQ _ (v :: l)).
  set (m2 := store32 _ _ _) in *.
  assert (T2 : ∀ i, 0 <= i < 1024 → tab m2 d i = tab (memory s) d i).
  { intros i Hi2. rewrite <-T1 by done. apply tab_same; [|done].
    destruct (do_tab _ _ _ _ D _ t Hi Ht) as (Pt & _ & Pd).
    apply (same_page_other kend _ _ t); [done|apply D|done|]. intros x Hx. apply (store_inside _ t); [|unfold PGSIZE|done].
    all: pose proof (Z.mod_pos_bound n 1024); lia. }
  assert (E : ∀ i, 0 <= i < NPAGES → entry m2 d i = if decide (i = n) then 0 else entry (memory s) d i).
  { intros i Hi2. rewrite E2 by done. case_decide; [done|]. by apply E1. }
  assert (Hu : upages (memory s) d n 1 = [v]) by (rewrite upages_S, Hp; done).
  split; [done| |by rewrite Hu| |done|].
  - change (memory (put_mem m2 s1)) with m2. split.
    + intros k Hk. rewrite E by (unfold NUSER, NPAGES in *; lia). case_decide as Hkn; [done|]. intros Hpk.
      destruct (uo_page _ _ _ _ U k Hk Hpk) as [P1 P2]. split; [done|]. intros [Hd|[Hl|(i & Hi2 & Ei)]].
      * apply P2. by left.
      * apply elem_of_cons in Hl as [Hl|Hl]; [|apply P2; by right; left].
        apply Hkn. by apply (uo_inj _ _ _ _ U).
      * apply P2. right; right. rewrite T2 in Ei by done. eauto.
    + intros a b Ha Hb. rewrite !E by (unfold NUSER, NPAGES in *; lia). case_decide; [done|]. case_decide; [done|].
      by apply (uo_inj _ _ _ _ U).
  - intros i Hi2. change (memory (put_mem m2 s1)) with m2. rewrite E by done. repeat case_decide; try lia; try done.
    subst i. by rewrite Hp.
  - intros w Hw Hf Hnu. rewrite Hu in Hnu. assert (w ≠ v) by (intros ->; apply Hnu; by apply list_elem_of_singleton).
    eapply same_page_trans; [by apply S1|]. apply (ev_frame _ _ _ _ _ _ Ev2); [done|].
    intros [->|[Hl|(i & Hi2 & Ei)]].
    + apply Hf. by left.
    + apply elem_of_cons in Hl as [->|Hl]; [done|]. apply Hf. by right; left.
    + apply Hf. right; right. rewrite T1 in Ei by done. eauto.
Qed.

Lemma wp_dealloc_end fuel d oldsz a s (Q : unit → kst → Prop) :
  oldsz <= a → Q tt s → wp (dealloc_loop kend c fuel d oldsz a) Q s.
Proof using. intros H HQ. destruct fuel; cbn [dealloc_loop]; rewrite (proj2 (Z.ltb_ge _ _)) by done; done. Qed.

Lemma wp_dealloc_loop d oldsz N : (N - 1) * 4096 < oldsz <= N * 4096 → N <= NUSER →
  ∀ fuel n s l (Q : unit → kst → Prop),
  vs s d l → user_ok (memory s) d l → 0 <= n → (Z.to_nat (N - n) <= fuel)%nat →
  (n < N → n mod 1024 = 0 ∨ tab (memory s) d (n / 1024) ≠ None) →
  (∀ s' l', frees s d l n (Z.to_nat (N - n)) s' l' → Q tt s') →
  wp (dealloc_loop kend c fuel d oldsz (n * 4096)) Q s.
Proof.
  intros Hold HN. induction fuel as [|fuel IH]; intros n s l Q V U Hn Hfu Hal HQ.
  { apply wp_dealloc_end; [lia|]. apply (HQ _ l). apply frees_none; [done|done|]. intros i Hi. lia. }
  destruct (decide (N <= n)) as [Hge|Hlt].
  { apply wp_dealloc_end; [lia|]. apply (HQ _ l). apply frees_none; [done|done|]. intros i Hi. lia. }
  assert (Hlt' : n < N) by lia. cbn [dealloc_loop]. rewrite (proj2 (Z.ltb_lt _ _)) by lia.
  assert (Hu : ∀ z, 0 <= z <= NUSER * 4096 + 4194304 → u32 z = z) by (intros z Hz; apply u32_small; unfold NUSER, w32 in *; lia).
  assert (Hn2 : 0 <= n < NUSER) by lia. assert (Hn3 : 0 <= n < NPAGES) by (unfold NUSER, NPAGES in *; lia).
  apply wp_bind, wp_walk; [unfold NUSER, w32 in *; lia|]. rewrite Z.div_mul by done.
  destruct (tab (memory s) d (n / 1024)) as [t|] eqn:Et; cbn [option_map].
  - assert (Hstep : ∀ s' l', frees s d l n 1 s' l' → wp (dealloc_loop kend c fuel d oldsz (u32 (n * 4096 + PGSIZE))) Q s').
    { intros s1 l1 F1. rewrite Hu by (unfold PGSIZE in *; lia). replace (n * 4096 + PGSIZE) with ((n + 1) * 4096) by (unfold PGSIZE; lia).
      apply (IH _ _ l1); [apply F1|apply F1|lia|lia| |].
      - intros _. rewrite (fr_tab _ _ _ _ _ _ _ F1) by (apply page_index; unfold NUSER, NPAGES in *; lia).
        destruct (decide ((n + 1) / 1024 = n / 1024)) as [->|Hne]; [right; by rewrite Et|left].
        pose proof (Z.div_mod n 1024). pose proof (Z.mod_pos_bound n 1024). pose proof (Z.div_mod (n + 1) 1024).
        pose proof (Z.mod_pos_bound (n + 1) 1024). lia.
      - intros s2 l2 F2. apply (HQ _ l2). replace (Z.to_nat (N - n)) with (1 + Z.to_nat (N - (n + 1)))%nat by lia.
        eapply frees_trans; [done| |exact F1|exact F2]. unfold NUSER, NPAGES in *. lia. }
    unfold ld. wp_steps.
    assert (Ee : load32 (memory s) (t + 4 * (n mod 1024)) = entry (memory s) d n) by (unfold entry; by rewrite Et).
    rewrite Ee. destruct (has (entry (memory s) d n) PTE_P) eqn:Hp.
    + destruct (uo_page _ _ _ _ U n Hn2 Hp) as [Hv _].
      rewrite (proj2 (Z.eqb_neq _ _)) by (by apply upage_addr). by eapply wp_free_page.
    + wp_steps. apply (Hstep _ l). apply frees_none; [done|done|]. intros i Hi. by replace i with n by lia.
  - destruct (Hal Hlt') as [Hm|]; [|done].
    assert (Hno : ∀ i, n <= i < n + 1024 → has (entry (memory s) d i) PTE_P = false).
    { intros i Hi. unfold entry. replace (i / 1024) with (n / 1024); [by rewrite Et|].
      pose proof (Z.div_mod n 1024). pose proof (Z.div_mod i 1024). pose proof (Z.mod_pos_bound i 1024). lia. }
    rewrite !Hu by (unfold NPTENTRIES, PGSIZE in *; rewrite ?Hu; lia).
    replace (n * 4096 + (NPTENTRIES - 1) * PGSIZE + PGSIZE) with ((n + 1024) * 4096) by (unfold NPTENTRIES, PGSIZE; lia).
    destruct (decide (N <= n + 1024)) as [Hend|Hmore].
    + apply wp_dealloc_end; [lia|]. apply (HQ _ l). apply frees_none; [done|done|]. intros i Hi. apply Hno. lia.
    + apply (IH _ _ l); [done|done|lia|lia| |].
      * intros _. left. rewrite Z.add_mod, Hm by done. done.
      * intros s2 l2 F2. apply (HQ _ l2). replace (Z.to_nat (N - n)) with (1024 + Z.to_nat (N - (n + 1024)))%nat by lia.
        eapply frees_trans; [done| |apply (frees_none s d l n 1024)|exact F2]; [unfold NUSER, NPAGES in *; lia|done|done|].
        intros i Hi. apply Hno. lia.
Qed.

(** The first page at or above an address. *)
Definition up (a : Z) : Z := (a + 4095) / 4096.
Lemma up_bounds a : (up a - 1) * 4096 < a <= up a * 4096.
Proof using. unfold up. pose proof (Z.div_mod (a + 4095) 4096). pose proof (Z.mod_pos_bound (a + 4095) 4096). lia. Qed.
Lemma up_mono a b : a <= b → up a <= up b.
Proof using. intros. apply Z.div_le_mono; lia. Qed.
Lemma PGROUNDUP_up a : 0 <= a <= KERNBASE → PGROUNDUP a = up a * 4096.
Proof using.
  intros. unfold up. rewrite PGROUNDUP_spec by (unfold KERNBASE, PGSIZE, w32 in *; lia).
  by replace (a + PGSIZE - 1) with (a + 4095) by (unfold PGSIZE; lia).
Qed.

Lemma wp_deallocuvm d oldsz newsz s l (Q : Z → kst → Prop) :
  vs s d l → user_ok (memory s) d l → 0 <= newsz <= oldsz → oldsz <= KERNBASE →
  (up newsz < up oldsz → up newsz mod 1024 = 0 ∨ tab (memory s) d (up newsz / 1024) ≠ None) →
  (∀ s' l', frees s d l (up newsz) (Z.to_nat (up oldsz - up newsz)) s' l' → Q newsz s') →
  wp (deallocuvm kend c d oldsz newsz) Q s.
Proof.
  intros V U Hsz Hk Hal HQ. unfold deallocuvm. destruct (Z.leb_spec oldsz newsz) as [H|H].
  - wp_steps. assert (oldsz = newsz) as -> by lia. apply (HQ _ l). rewrite Z.sub_diag.
    apply frees_none; [done|done|]. intros i Hi. lia.
  - pose proof (up_bounds oldsz) as Ho. pose proof (up_bounds newsz) as Hn.
    rewrite PGROUNDUP_up by lia. apply wp_bind. apply (wp_dealloc_loop d oldsz (up oldsz) Ho) with (l := l).
    + unfold NUSER, KERNBASE in *. lia.
    + done.
    + done.
    + unfold up. apply Z.div_pos; lia.
    + apply Nat.le_trans with (Z.to_nat (up oldsz)); [unfold up in *; lia|]. unfold PGSIZE.
      assert (up oldsz <= oldsz / 4096 + 1).
      { unfold up. pose proof (Z.div_mod (oldsz + 4095) 4096). pose proof (Z.mod_pos_bound (oldsz + 4095) 4096).
        pose proof (Z.div_mod oldsz 4096). pose proof (Z.mod_pos_bound oldsz 4096). lia. }
      lia.
    + done.
    + intros s' l' F. wp_steps. by apply (HQ _ l').
Qed.

(** ** Adding a page *)

(** Taking the first free page and filling it. *)
Lemma take_page s s' d v l m3 :
  vs s d (v :: l) → free s' l → lockable c s' → memory s' = memory s →
  (∀ x, ¬ (v <= x < v + PGSIZE) → m3 x = memory s x) →
  vs (put_mem m3 s') d l ∧ evolves (memory s) d (v :: l) m3 l ∧ page_ok v ∧ ¬ foot m3 d l v ∧
  (∀ i, 0 <= i < NPAGES → entry m3 d i = entry (memory s) d i) ∧
  (∀ i, 0 <= i < 1024 → tab m3 d i = tab (memory s) d i).
Proof using.
  intros [Vf Vl D] Hf Hl Em H3. pose proof (free_NoDup _ _ _ Vf) as [Hvl _]%NoDup_cons. pose proof Vf as [_ [Hv Hp]%Forall_cons].
  pose proof D as [D1 D2 D3 _]. apply not_elem_of_cons in D2 as [D2 _].
  assert (S3 : ∀ w, page_ok w → w ≠ v → same_page (memory s) m3 w).
  { intros w Hw Hne. apply (same_page_other kend _ _ v); [done|done|by apply not_eq_sym|done]. }
  assert (T3 : ∀ i, 0 <= i < 1024 → tab m3 d i = tab (memory s) d i) by (intros; apply tab_same; [by apply S3|done]).
  assert (Hnt : ∀ i, 0 <= i < 1024 → tab (memory s) d i ≠ Some v).
  { intros i Hi E. destruct (D3 _ _ Hi E) as (_ & H & _). apply H, list_elem_of_here. }
  assert (D' : dir_ok m3 d l).
  { eapply dir_ok_same; [exact D|by apply S3|]. intros w Hw. left. by apply list_elem_of_further. }
  split; [split; [|done|done]|split; [split|split; [done|split; [|split; [|done]]]]].
  - apply free_same; [done|]. intros w Hw. rewrite Em. rewrite Forall_forall in Hp. apply S3; [by apply Hp|]. by intros ->.
  - done.
  - intros w [->|[Hw|(i & Hi & E)]]; [by left|right; left; by apply list_elem_of_further|].
    rewrite T3 in E by done. right; right. eauto.
  - intros w Hw Hn. apply S3; [done|]. intros ->. apply Hn. right; left. apply list_elem_of_here.
  - intros i t Hi. by rewrite T3.
  - intros [->|[Hw|(i & Hi & E)]]; [done|done|]. rewrite T3 in E by done. by apply (Hnt i).
  - intros i Hi. apply entry_same; [by apply S3| |done]. intros t E. pose proof (page_index i Hi) as [Hi' _].
    destruct (D3 _ _ Hi' E) as (Ht & _). apply S3; [done|]. intros ->. by apply (Hnt (i / 1024)).
Qed.

Lemma npages_one n : npages (n * 4096) PGSIZE = 1.
Proof using.
  unfold npages, PGSIZE. rewrite Z.div_mul by done. replace (n * 4096 + 4096 - 1) with (4095 + n * 4096) by lia.
  rewrite Z.div_add by done. change (4095 / 4096) with 0. lia.
Qed.
Lemma lacks_le m d n : 0 <= lacks m d n <= 1.
Proof using. unfold lacks. destruct (tab m d (n / 1024)); lia. Qed.

(** Mapping the page that was taken and filled. *)
Lemma wp_map_page s s' d v l m3 n perm (Q : Z → kst → Prop) :
  vs s d (v :: l) → free s' l → lockable c s' → memory s' = memory s →
  (∀ x, ¬ (v <= x < v + PGSIZE) → m3 x = memory s x) →
  0 <= n < NUSER → 0 <= perm < 4096 → has (entry (memory s) d n) PTE_P = false →
  (∀ s4 l4, vs s4 d l4 → evolves (memory s) d (v :: l) (memory s4) l4 → ¬ foot (memory s4) d l4 v → page_ok v →
     (∃ tk, l = tk ++ l4 ∧ (length tk <= 1)%nat ∧ tabled (memory s4) d tk) → same_page m3 (memory s4) v →
     (∀ i, 0 <= i < NPAGES → entry (memory s4) d i = if decide (i = n) then pte_of (v2p v) perm else entry (memory s) d i) → Q 0 s4) →
  (∀ s4, vs s4 d [] → evolves (memory s) d (v :: l) (memory s4) [] → l = [] →
     (∀ i, 0 <= i < NPAGES → entry (memory s4) d i = entry (memory s) d i) → Q (-1) s4) →
  wp (mappages c d (n * 4096) PGSIZE (v2p v) perm) Q (put_mem m3 s').
Proof.
  intros V Hf Hl Em H3 Hn Hperm Hno HQ HE.
  destruct (take_page _ _ _ _ _ _ V Hf Hl Em H3) as (V3 & Ev3 & Hv & Hnf & En3 & T3).
  destruct (v2p_ok _ _ Hv) as (_ & A1 & A2 & A3). pose proof (lacks_le m3 d n) as Hla.
  assert (HnP : 0 <= n < NPAGES) by (unfold NUSER, NPAGES in *; lia).
  assert (Hc : cost m3 d n 1 = lacks m3 d n) by (unfold cost; replace (n + 1 - 1) with n by lia; lia).
  apply (wp_mappages kend c d _ _ _ _ _ l); rewrite ?npages_one, ?Z.div_mul by done; cbn [memory put_mem]; try done.
  - lia.
  - unfold PGSIZE, NUSER, w32 in *. lia.
  - lia.
  - apply Z.mod_divide in A1 as [q E]; [|done]. rewrite E in *. unfold w32 in *. lia.
  - intros i Hi. replace i with n by lia. by rewrite En3.
  - intros s4 l4 [M1 M2 (tk & -> & Htb) M4] Hcost. cbn [memory put_mem] in *. apply (HQ _ l4).
    + done.
    + by eapply evolves_trans.
    + intros H. by apply Hnf, (ev_foot _ _ _ _ _ _ M2).
    + done.
    + exists tk. split; [done|]. split; [rewrite length_app in Hcost; lia|done].
    + by apply (ev_frame _ _ _ _ _ _ M2).
    + intros i Hi. rewrite M4, En3 by done. repeat case_decide; try lia; try done.
      f_equal. lia.
  - intros s4 j [M1 M2 _ M4] Hj Hcost. cbn [memory put_mem] in *. apply HE.
    + done.
    + by eapply evolves_trans.
    + destruct l; [done|]. cbn [length] in Hcost. lia.
    + intros i Hi. rewrite M4, En3, decide_False by (done || lia). done.
Qed.

Lemma user_add m d l m' l' n v perm :
  user_ok m d l → evolves m d l m' l' → 0 <= n < NUSER → page_ok v → v ∈ l → ¬ foot m' d l' v → 0 <= perm < 4096 →
  (∀ i, 0 <= i < NPAGES → entry m' d i = if decide (i = n) then pte_of (v2p v) perm else entry m d i) → user_ok m' d l'.
Proof using.
  intros [U1 U2] Ev Hn Hv Hvl Hnf Hperm En. destruct (v2p_ok _ _ Hv) as (_ & A1 & A2 & A3).
  assert (Ev' : upage (pte_of (v2p v) perm) = v).
  { unfold upage. rewrite pte_of_lor, lor_addr; [done|done|done|by apply perm_range]. }
  assert (HU : ∀ i, 0 <= i < NUSER → 0 <= i < NPAGES) by (unfold NUSER, NPAGES; lia).
  assert (Hdiff : ∀ i, 0 <= i < NUSER → has (entry m d i) PTE_P = true → upage (entry m d i) ≠ v).
  { intros i Hi Hp E. destruct (U1 i Hi Hp) as [_ H]. apply H. rewrite E. by right; left. }
  split.
  - intros i Hi. rewrite En by auto. case_decide; [by rewrite Ev'|]. intros Hp. destruct (U1 i Hi Hp) as [H1 H2].
    split; [done|]. intros Hf. by apply H2, (ev_foot _ _ _ _ _ _ Ev).
  - intros i k Hi Hk. rewrite !En by auto. case_decide; case_decide; subst; rewrite ?Ev'.
    + done.
    + intros _ Hp E. by destruct (Hdiff k Hk Hp).
    + intros Hp _ E. by destruct (Hdiff i Hi Hp).
    + by apply U2.
Qed.

(** ** Growing *)

Definition zero_page (m : mem) (v : Z) : Prop := ∀ x, v <= x < v + PGSIZE → m x = 0.
Definition WU : Z := Z.lor PTE_W PTE_U.

(** Free page [v] has become one of the user pages [n0] to [n] or a table. *)
Definition used (m : mem) (d n0 n v : Z) : Prop :=
  page_ok v ∧ (∃ i, n0 <= i < n ∧ entry m d i = pte_of (v2p v) WU) ∨ (∃ i, 0 <= i < 1024 ∧ tab m d i = Some v).

Lemma used_evolves m d l m' l' n0 n n' v :
  evolves m d l m' l' → n <= n' → (∀ i, n0 <= i < n → entry m' d i = entry m d i) → used m d n0 n v → used m' d n0 n' v.
Proof using.
  intros Ev Hn En [(Hv & i & Hi & E)|(i & Hi & E)]; [left; split; [done|]|right]; exists i.
  - split; [lia|]. by rewrite En.
  - split; [done|]. by apply (ev_tab _ _ _ _ _ _ Ev).
Qed.

(** Pages [n0] to [n] have been added: fresh, zeroed, writable and for the user;
    every page that is no longer free is one of them or a table. *)
Record grows (s : kst) (d : Z) (l : list Z) (n0 n : Z) (s' : kst) (l' : list Z) : Prop := {
  gr_vs : vs s' d l';
  gr_user : user_ok (memory s') d l';
  gr_ev : evolves (memory s) d l (memory s') l';
  gr_take : ∃ tk, l = tk ++ l';
  gr_count : Z.of_nat (length l) - Z.of_nat (length l') <= 2 * (n - n0);
  gr_new i : n0 <= i < n → ∃ v, v ∈ l ∧ page_ok v ∧ entry (memory s') d i = pte_of (v2p v) WU ∧ zero_page (memory s') v;
  gr_old i : 0 <= i < NPAGES → ¬ (n0 <= i < n) → entry (memory s') d i = entry (memory s) d i;
  gr_used v : v ∈ l → v ∈ l' ∨ used (memory s') d n0 n v
}.

Lemma grows_refl s d l n : vs s d l → user_ok (memory s) d l → grows s d l n n s l.
Proof using. intros V U. split; [done|done|apply evolves_refl, V|by exists []|lia|intros i Hi; lia|done|by left]. Qed.

Lemma upage_pte v perm : page_ok v → 0 <= perm < 4096 → upage (pte_of (v2p v) perm) = v.
Proof using.
  intros Hv Hp. destruct (v2p_ok _ _ Hv) as (_ & A1 & A2 & A3).
  unfold upage. rewrite pte_of_lor, lor_addr; [done|done|done|by apply perm_range].
Qed.

(** The contents of the pages added so far survive what does not touch the footprint. *)
Lemma grows_keep s d l n0 n s1 l1 m2 l2 i v :
  grows s d l n0 n s1 l1 → evolves (memory s1) d l1 m2 l2 → 0 <= n0 → n <= NUSER → n0 <= i < n → page_ok v →
  entry (memory s1) d i = pte_of (v2p v) WU → zero_page (memory s1) v → zero_page m2 v.
Proof using.
  intros G Ev H0 HN Hi Hv E Hz x Hx. rewrite <-(Hz x Hx). apply (ev_frame _ _ _ _ _ _ Ev v); [done| |done].
  destruct (uo_page _ _ _ _ (gr_user _ _ _ _ _ _ _ G) i) as [_ H]; [lia|rewrite E; apply pte_of_present|].
  rewrite E, upage_pte in H; done.
Qed.

Lemma grows_step s d l n0 n s1 v l1 m3 s4 l4 :
  grows s d l n0 n s1 (v :: l1) → 0 <= n0 <= n → n < NUSER → zero_page m3 v →
  vs s4 d l4 → evolves (memory s1) d (v :: l1) (memory s4) l4 → ¬ foot (memory s4) d l4 v → page_ok v →
  (∃ tk, l1 = tk ++ l4 ∧ (length tk <= 1)%nat ∧ tabled (memory s4) d tk) → same_page m3 (memory s4) v →
  (∀ i, 0 <= i < NPAGES → entry (memory s4) d i = if decide (i = n) then pte_of (v2p v) WU else entry (memory s1) d i) →
  grows s d l n0 (n + 1) s4 l4.
Proof using.
  intros G Hn HN Hz V4 Ev4 Hnf Hv (tk & -> & Htk & Htb) Hsame En. pose proof G as [V U Ev (tk0 & ->) Hc Hnew Hold Hus].
  assert (HnP : ∀ i, n0 <= i < n + 1 → 0 <= i < NPAGES) by (unfold NUSER, NPAGES in *; lia).
  split.
  - done.
  - apply (user_add (memory s1) d (v :: tk ++ l4) _ _ n v WU); [done|done|lia|done|apply list_elem_of_here|done|done|done].
  - by eapply evolves_trans.
  - exists (tk0 ++ v :: tk). by rewrite <-app_assoc.
  - rewrite !length_app in Hc |- *. cbn [length] in Hc |- *. rewrite !length_app in Hc |- *. lia.
  - intros i Hi. rewrite En by auto. destruct (decide (i = n)) as [->|Hne].
    + exists v. split; [apply elem_of_app; right; apply list_elem_of_here|]. split; [done|]. split; [done|].
      intros x Hx. rewrite Hsame by done. by apply Hz.
    + destruct (Hnew i) as (w & W1 & W2 & W3 & W4); [lia|]. exists w. do 3 (split; [done|]).
      eapply grows_keep; [exact G|exact Ev4| | | |exact W2|exact W3|done]; lia.
  - intros i Hi Hne. rewrite En, decide_False by (done || lia). apply Hold; [done|lia].
  - intros w [[->|[Hw|Hw]%elem_of_app]%elem_of_cons|Hw]%Hus.
    + right; left. split; [done|]. exists n. split; [lia|]. by rewrite En, decide_True by (done || (apply HnP; lia)).
    + right; right. by apply Htb.
    + by left.
    + right. eapply used_evolves; [exact Ev4| |intros i Hi|exact Hw]; [lia|]. rewrite En, decide_False by (lia || (apply HnP; lia)). done.
Qed.

(** The same when memory has run out; [mappages] may have lost the last page, for
    want of a table. *)
Definition all_but_one (l : list Z) (kept : Z → Prop) : Prop :=
  ∃ lost, (length lost <= 1)%nat ∧ ∀ v, v ∈ l → kept v ∨ v ∈ lost.
Record partway (s : kst) (d : Z) (l : list Z) (n0 n : Z) (s' : kst) : Prop := {
  pw_vs : vs s' d [];
  pw_user : user_ok (memory s') d [];
  pw_ev : evolves (memory s) d l (memory s') [];
  pw_new i : n0 <= i < n → ∃ v, v ∈ l ∧ page_ok v ∧ entry (memory s') d i = pte_of (v2p v) WU ∧ zero_page (memory s') v;
  pw_old i : 0 <= i < NPAGES → ¬ (n0 <= i < n) → entry (memory s') d i = entry (memory s) d i;
  pw_used : all_but_one l (used (memory s') d n0 n)
}.
Lemma grows_out s d l n0 n s1 s2 : grows s d l n0 n s1 [] → free s2 [] → lockable c s2 → memory s2 = memory s1 → partway s d l n0 n s2.
Proof using.
  intros [V U Ev _ _ Hnew Hold Hus] Hf Hl E. split; rewrite ?E; try done.
  - split; rewrite ?E; try done. apply V.
  - exists []. split; [cbn; lia|]. intros v [H|H]%Hus; [by apply not_elem_of_nil in H|by left].
Qed.
Lemma partway_out s d l n0 n s1 s2 : partway s d l n0 n s1 → free s2 [] → lockable c s2 → memory s2 = memory s1 → partway s d l n0 n s2.
Proof using.
  intros [V U Ev Hnew Hold Hus] Hf Hl E. split; rewrite ?E; try done. split; rewrite ?E; try done. apply V.
Qed.

(** mappages found no memory for a table: nothing was added. *)
Lemma grows_skip s d l n0 n s1 l1 s4 :
  grows s d l n0 n s1 l1 → (length l1 <= 1)%nat → 0 <= n0 <= n → n <= NUSER → vs s4 d [] → evolves (memory s1) d l1 (memory s4) [] →
  (∀ i, 0 <= i < NPAGES → entry (memory s4) d i = entry (memory s1) d i) → partway s d l n0 n s4.
Proof using.
  intros G Hl1 Hn HN V4 Ev4 En. pose proof G as [V U Ev (tk0 & ->) Hc Hnew Hold Hus].
  assert (HU : ∀ i, 0 <= i < NUSER → 0 <= i < NPAGES) by (unfold NUSER, NPAGES; lia).
  split; [done| |by eapply evolves_trans| | |].
  - eapply user_evolves; [exact U|exact Ev4|]. auto.
  - intros i Hi. destruct (Hnew i Hi) as (w & W1 & W2 & W3 & W4). exists w. split; [done|]. split; [done|]. split.
    + rewrite En; [done|]. unfold NUSER, NPAGES in *. lia.
    + eapply grows_keep; [exact G|exact Ev4| | | |exact W2|exact W3|done]; lia.
  - intros i Hi Hne. rewrite En by done. by apply Hold.
  - exists l1. split; [done|]. intros v [Hv|Hv]%Hus; [by right|left].
    eapply used_evolves; [exact Ev4| |intros i Hi|exact Hv]; [lia|]. apply En. unfold NUSER, NPAGES in *. lia.
Qed.

(** Pages [n0] to [N] have been given back: what was free is free again or a
    table of the directory, all but at most one page. *)
Record undone (s : kst) (d : Z) (l : list Z) (n0 N : Z) (s' : kst) (l' : list Z) : Prop := {
  un_vs : vs s' d l';
  un_user : user_ok (memory s') d l';
  un_gone i : n0 <= i < N → has (entry (memory s') d i) PTE_P = false;
  un_old i : 0 <= i < NPAGES → ¬ (n0 <= i < N) → entry (memory s') d i = entry (memory s) d i;
  un_frame v : page_ok v → ¬ foot (memory s) d l v → same_page (memory s) (memory s') v;
  un_free v : v ∈ l' → v ∈ l;
  un_back : all_but_one l (λ v, v ∈ l' ∨ ∃ i, 0 <= i < 1024 ∧ tab (memory s') d i = Some v)
}.

Lemma partway_undone s d l n0 n N s1 s' l' :
  0 <= n0 <= n → n <= N <= NUSER → partway s d l n0 n s1 →
  (∀ i, n0 <= i < N → has (entry (memory s) d i) PTE_P = false) →
  frees s1 d [] n0 (Z.to_nat (N - n0)) s' l' → undone s d l n0 N s' l'.
Proof using.
  intros Hn HN [V U Ev Hnew Hold (lost & Hlo & Hus)] Hno [FV FU FL FE FT FF].
  assert (HP : ∀ i, n0 <= i < N → 0 <= i < NPAGES) by (unfold NUSER, NPAGES in *; lia).
  assert (Hrange : ∀ i, n0 <= i < n0 + Z.of_nat (Z.to_nat (N - n0)) ↔ n0 <= i < N) by (intros i; lia).
  assert (Hnew' : ∀ v, v ∈ upages (memory s1) d n0 (Z.to_nat (N - n0)) → v ∈ l).
  { intros v (i & Hi%Hrange & Hp & ->)%elem_upages. destruct (decide (i < n)) as [Hlt|Hge].
    - destruct (Hnew i) as (w & W1 & W2 & W3 & _); [lia|]. by rewrite W3, upage_pte.
    - rewrite Hold, Hno in Hp by (auto; lia). done. }
  split; [done|done| | | | |].
  - intros i Hi. rewrite FE by auto. rewrite decide_True by (by apply Hrange). destruct (has (entry _ _ _) _) eqn:E; [done|].
    exact E.
  - intros i Hi Hne. rewrite FE by done. rewrite decide_False by (by intros H%Hrange). apply Hold; [done|lia].
  - intros v Hv Hf. eapply same_page_trans; [by apply (ev_frame _ _ _ _ _ _ Ev)|]. apply FF; [done| |].
    + intros H. by apply Hf, (ev_foot _ _ _ _ _ _ Ev).
    + intros H%Hnew'. apply Hf. by right; left.
  - intros v. rewrite FL, app_nil_r. intros H. apply Hnew'. by apply list_elem_of_In, in_rev, list_elem_of_In in H.
  - exists lost. split; [done|]. intros v Hv. destruct (Hus v Hv) as [[(Hp & i & Hi & E)|(i & Hi & E)]|Hl]; [left; left|left; right|by right].
    + rewrite FL, app_nil_r. apply list_elem_of_In. rewrite <-in_rev. apply list_elem_of_In, elem_upages. exists i.
      rewrite E. split; [lia|]. split; [apply pte_of_present|by rewrite upage_pte].
    + exists i. split; [done|]. by rewrite FT.
Qed.

Section alloc.
Context (s : kst) (d : Z) (l : list Z) (oldsz newsz : Z) (Q : Z → kst → Prop).
Abbreviation n0 := (up oldsz).
Abbreviation N := (up newsz).
Context (Hold : 0 <= oldsz <= newsz) (Hnew : newsz < KERNBASE).
Context (Hno : ∀ i, n0 <= i < N → has (entry (memory s) d i) PTE_P = false).
Context (Hal : n0 < N → n0 mod 1024 = 0 ∨ tab (memory s) d (n0 / 1024) ≠ None).
Context (HA : ∀ s' l', grows s d l n0 N s' l' → Q newsz s').
Context (HB : ∀ s', partway s d l n0 (N - 1) s' → Z.of_nat (length l) < 2 * (N - n0) → Q newsz s').
Context (HC : ∀ s' l', undone s d l n0 N s' l' → Z.of_nat (length l) < 2 * (N - n0) → Q 0 s').

Lemma alloc_bounds : 0 <= n0 <= N ∧ N <= NUSER ∧ (N - 1) * 4096 < newsz <= N * 4096.
Proof using Hold Hnew.
  pose proof (up_bounds newsz). pose proof (up_bounds oldsz). pose proof (up_mono oldsz newsz).
  unfold NUSER, KERNBASE in *. lia.
Qed.

Lemma wp_alloc_undo n s1 :
  n0 <= n < N → partway s d l n0 n s1 → Z.of_nat (length l) < 2 * (N - n0) →
  wp (_ ← deallocuvm kend c d newsz oldsz; mret 0) Q s1.
Proof.
  intros Hn P Hlen. pose proof alloc_bounds as (B1 & B2 & B3). apply wp_bind. eapply wp_deallocuvm.
  - apply P.
  - apply P.
  - lia.
  - lia.
  - intros H. destruct (Hal H) as [H'|H']; [by left|right].
    destruct (tab (memory s) d (n0 / 1024)) as [t|] eqn:E; [|done].
    rewrite (ev_tab _ _ _ _ _ _ (pw_ev _ _ _ _ _ _ P) _ t); [done| |done]. apply page_index. unfold NUSER, NPAGES in *. lia.
  - intros s' l' F. wp_steps. apply (HC _ l'); [|done]. eapply partway_undone; [| |exact P|done|exact F]; lia.
Qed.

Lemma wp_alloc_loop : ∀ fuel n s1 l1,
  grows s d l n0 n s1 l1 → n0 <= n <= N → (Z.to_nat (N - n) <= fuel)%nat →
  wp (alloc_loop kend c fuel d oldsz newsz (n * 4096)) Q s1.
Proof.
  pose proof alloc_bounds as (B1 & B2 & B3).
  induction fuel as [|fuel IH]; intros n s1 l1 G Hn Hfu; cbn [alloc_loop];
    (destruct (decide (n = N)) as [->|Hne]; [rewrite (proj2 (Z.ltb_ge _ _)) by lia; wp_steps; by eapply HA|]); [lia|].
  rewrite (proj2 (Z.ltb_lt _ _)) by lia. pose proof G as [V U Ev (tk0 & El) Hc Hg Ho _].
  apply wp_bind, (wp_kalloc kend c s1 l1); [apply V|apply V|]. intros s2 F2 _ L2 M2.
  destruct l1 as [|v l2]; cbn [head tail] in *.
  { eapply (wp_alloc_undo n); [lia|by eapply grows_out|]. cbn [length] in Hc. lia. }
  unfold clear_page. wp_steps. rewrite M2.
  assert (Hu : u32 (n * 4096 + PGSIZE) = (n + 1) * 4096) by (rewrite u32_small; unfold PGSIZE, NUSER, w32 in *; lia).
  assert (HnU : 0 <= n < NUSER) by lia.
  eapply (wp_map_page s1 s2 d v l2 _ n); [done|done|done|done| |done|done| | |].
  - intros x Hx. by apply memset_inside.
  - rewrite Ho; [apply Hno; lia|unfold NUSER, NPAGES in *; lia|lia].
  - intros s4 l4 V4 Ev4 Hnf Hv Htk Hsame En. rewrite Hu. apply (IH _ _ l4); [|lia|lia].
    eapply (grows_step _ _ _ _ _ s1 v l2 _); [exact G|lia|lia| |done..]. intros x. by apply memset_zero.
  - intros s4 V4 Ev4 -> En. rewrite Hu.
    assert (P : partway s d l n0 n s4) by (eapply grows_skip; [exact G|done|lia|lia|done..]).
    assert (Hlen : Z.of_nat (length l) < 2 * (N - n0)) by (cbn [length] in Hc; lia).
    destruct (decide (n + 1 = N)) as [E|E].
    + destruct fuel; cbn [alloc_loop]; rewrite (proj2 (Z.ltb_ge _ _)) by lia; wp_steps; apply HB; try done;
        by replace (N - 1) with n by lia.
    + destruct fuel as [|fuel]; [lia|]. cbn [alloc_loop]. rewrite (proj2 (Z.ltb_lt _ _)) by lia.
      apply wp_bind, (wp_kalloc kend c s4 []); [apply V4|apply V4|]. intros s5 F5 _ L5 M5. cbn [head tail] in *.
      eapply (wp_alloc_undo n); [lia|by eapply partway_out|done].
Qed.

Lemma wp_allocuvm : vs s d l → user_ok (memory s) d l → wp (allocuvm kend c d oldsz newsz) Q s.
Proof.
  pose proof alloc_bounds as (B1 & B2 & B3). intros V U. unfold allocuvm.
  rewrite (proj2 (Z.leb_gt _ _)) by lia. rewrite (proj2 (Z.ltb_ge _ _)) by lia. rewrite PGROUNDUP_up by lia.
  apply (wp_alloc_loop _ _ _ l); [by apply grows_refl|lia|].
  unfold PGSIZE. assert (N <= newsz / 4096 + 1).
  { unfold up. pose proof (Z.div_mod (newsz + 4095) 4096). pose proof (Z.mod_pos_bound (newsz + 4095) 4096).
    pose proof (Z.div_mod newsz 4096). pose proof (Z.mod_pos_bound newsz 4096). lia. }
  lia.
Qed.
End alloc.
End user.
End VmUser.
