(* ===== verification/VmCopy.v ===== *)
(** * Kernel mappings and copies of address spaces

    setupkvm, freevm and copyuvm: what the kernel half of every directory maps,
    that freeing a directory returns all its pages, and that the child of fork
    gets its own copy of every page. *)

From S2P Require Import Prelude CString Spinlock Kalloc Vm VmSpec VmUser.
Local Open Scope Z_scope.

Module VmCopy.
Import Kalloc Vm VmSpec VmUser.

Section copy.
Context (kend : Z) (Hkend : KERNBASE < kend) `{mode : Mode} (c : nat).
Abbreviation page_ok := (page_ok kend).
Abbreviation free := (free kend).
Abbreviation vs := (vs kend c).
Abbreviation dir_ok := (dir_ok kend).
Abbreviation evolves := (evolves kend).
Abbreviation user_ok := (user_ok kend).
Context (kdata : Z) (Hdata : kdata mod 4096 = 0) (Hdata2 : KERNLINK < kdata < KERNBASE + PHYSTOP).

(** ** setupkvm *)

(** The kernel's entry for page [n]. *)
Definition kpte (n : Z) : Z :=
  if decide (524288 <= n < 524544) then pte_of ((n - 524288) * 4096) PTE_W
  else if decide (524544 <= n < kdata / 4096) then pte_of ((n - 524288) * 4096) 0
  else if decide (kdata / 4096 <= n < 581632) then pte_of ((n - 524288) * 4096) PTE_W
  else if decide (1040384 <= n < 1048576) then pte_of (n * 4096) PTE_W
  else 0.

(** A cleared page is a directory that maps nothing. *)
Lemma empty_dir m d l i n :
  page_ok d → d ∉ l → (∀ x, d <= x < d + PGSIZE → m x = 0) → 
  dir_ok m d l ∧ (0 <= i < 1024 → tab m d i = None) ∧ (0 <= n < NPAGES → entry m d n = 0).
Proof using.
  intros Hd Hl Hz.
  assert (T : ∀ i, 0 <= i < 1024 → tab m d i = None).
  { intros j Hj. unfold tab. replace (load32 m (d + 4 * j)) with 0; [done|].
    unfold load32. rewrite !Hz by (unfold PGSIZE; lia). done. }
  split; [|split; [apply T|]].
  - split; [done|done| |]; intros j; intros; rewrite T in *; done.
  - intros Hn. unfold entry. rewrite T; [done|]. by apply page_index.
Qed.

(** One line of kmap: pages [n] to [z] at the physical pages from [p] on. *)
Lemma wp_kmap d k n z p s l (Q : Z → kst → Prop) :
  vs s d l → k_virt k = n * 4096 → u32 (k_phys_end k - k_phys_start k) = (z - n) * 4096 → k_phys_start k = p * 4096 →
  0 <= n < z → z <= NPAGES → 0 <= p → p + (z - n) <= NPAGES → 0 <= k_perm k < 4096 →
  (∀ i, n <= i < z → has (entry (memory s) d i) PTE_P = false) →
  (∀ s' l', maps kend c s d l n (z - n) (p * 4096) (k_perm k) s' l' →
     Z.of_nat (length l) - Z.of_nat (length l') <= 1 + ((z - 1) / 1024 - n / 1024) → Q 0 s') →
  (∀ s' j, maps kend c s d l n j (p * 4096) (k_perm k) s' [] → Z.of_nat (length l) < 1 + ((z - 1) / 1024 - n / 1024) → Q (-1) s') →
  wp (mappages c d (k_virt k) (u32 (k_phys_end k - k_phys_start k)) (k_phys_start k) (k_perm k)) Q s.
Proof.
  intros V -> -> -> Hn Hz Hp Hpz Hperm Hno HQ HE.
  assert (Hnp : npages (n * 4096) ((z - n) * 4096) = z - n).
  { unfold npages. rewrite Z.div_mul by done. replace (n * 4096 + (z - n) * 4096 - 1) with (4095 + (z - 1) * 4096) by lia.
    rewrite Z.div_add by done. change (4095 / 4096) with 0. lia. }
  pose proof (lacks_le (memory s) d n) as Hla.
  assert (Hcost : cost (memory s) d n (z - n) <= 1 + ((z - 1) / 1024 - n / 1024)).
  { unfold cost. replace (n + (z - n) - 1) with (z - 1) by lia. lia. }
  apply (wp_mappages kend c d _ _ _ _ _ l); rewrite ?Hnp, ?Z.div_mul by done; try done; try (unfold NPAGES, w32 in *; lia).
  - by apply Z.mod_mul.
  - intros i Hi. apply Hno. lia.
  - intros s' l' M Hc. apply (HQ _ l'); [done|lia].
  - intros s' j M Hj Hc. apply (HE _ j); [done|lia].
Qed.

(** A directory with the kernel's entries for the pages below [b]. *)
Record kspace (s : kst) (l : list Z) (d b : Z) (s' : kst) (l' : list Z) : Prop := {
  ks_vs : vs s' d l';
  ks_entry n : 0 <= n < NPAGES → entry (memory s') d n = if decide (n < b) then kpte n else 0;
  ks_foot v : foot (memory s') d l' v → v ∈ l;
  ks_frame v : page_ok v → v ∉ l → same_page (memory s) (memory s') v
}.

Lemma kspace_maps s l d b s1 l1 n j pa perm s2 l2 :
  kspace s l d b s1 l1 → maps kend c s1 d l1 n j pa perm s2 l2 →
  vs s2 d l2 ∧ (∀ v, foot (memory s2) d l2 v → v ∈ l) ∧ (∀ v, page_ok v → v ∉ l → same_page (memory s) (memory s2) v).
Proof using.
  intros [K1 K2 K3 K4] [M1 M2 _ _]. split; [done|]. split.
  - intros v Hv. by apply K3, (ev_foot _ _ _ _ _ _ M2).
  - intros v Hv Hl. eapply same_page_trans; [by apply K4|]. apply (ev_frame _ _ _ _ _ _ M2); [done|]. by intros H%K3.
Qed.

Lemma kspace_step s l d b s1 l1 n z pa perm s2 l2 :
  kspace s l d b s1 l1 → maps kend c s1 d l1 n (z - n) pa perm s2 l2 → b <= n < z →
  (∀ k, b <= k < n → kpte k = 0) → (∀ k, n <= k < z → kpte k = pte_of (pa + (k - n) * 4096) perm) →
  kspace s l d z s2 l2.
Proof using.
  intros K M Hb H1 H2. destruct (kspace_maps _ _ _ _ _ _ _ _ _ _ _ _ K M) as (V & F & S). split; [done| |done|done].
  intros k Hk. rewrite (mp_entry _ _ _ _ _ _ _ _ _ _ _ M) by done. rewrite (ks_entry _ _ _ _ _ _ K) by done.
  repeat case_decide; try lia; try done; symmetry; (apply H2; lia) || (apply H1; lia).
Qed.

(** What is left when memory runs out. *)
Definition exhausted (s : kst) (l : list Z) (s' : kst) : Prop :=
  free s' [] ∧ lockable c s' ∧ ∀ v, page_ok v → v ∉ l → same_page (memory s) (memory s') v.

Lemma kpte_lines :
  (∀ k, k < 524288 → kpte k = 0) ∧ (∀ k, 524288 <= k < 524544 → kpte k = pte_of (0 * 4096 + (k - 524288) * 4096) PTE_W) ∧
  (∀ k, 524544 <= k < kdata / 4096 → kpte k = pte_of (256 * 4096 + (k - 524544) * 4096) 0) ∧
  (∀ k, kdata / 4096 <= k < 581632 → kpte k = pte_of ((kdata / 4096 - 524288) * 4096 + (k - kdata / 4096) * 4096) PTE_W) ∧
  (∀ k, 581632 <= k < 1040384 → kpte k = 0) ∧
  (∀ k, 1040384 <= k < 1048576 → kpte k = pte_of (1040384 * 4096 + (k - 1040384) * 4096) PTE_W) ∧
  524544 < kdata / 4096 < 581632 ∧ kdata = kdata / 4096 * 4096.
Proof using Hdata Hdata2.
  assert (E : kdata = kdata / 4096 * 4096).
  { pose proof (Z.div_mod kdata 4096). lia. }
  unfold KERNLINK, KERNBASE, EXTMEM, PHYSTOP in *.
  assert (B : 524544 < kdata / 4096 < 581632) by lia.
  repeat split; try done; try lia; intros k Hk; unfold kpte; repeat case_decide; try lia; try done; f_equal; lia.
Qed.

(** The directory and at most 66 tables. *)
Definition kcost : Z := 67.

(** One line, after which at most [spent + w] pages have been used. *)
Lemma wp_kline s l d b s1 l1 k ks n z p spent w (Q : option Z → kst → Prop) :
  kspace s l d b s1 l1 → 0 <= b <= n → n < z <= NPAGES → 0 <= p → p + (z - n) <= NPAGES → 0 <= k_perm k < 4096 →
  k_virt k = n * 4096 → u32 (k_phys_end k - k_phys_start k) = (z - n) * 4096 → k_phys_start k = p * 4096 →
  (∀ k, b <= k < n → kpte k = 0) → (∀ j, n <= j < z → kpte j = pte_of (p * 4096 + (j - n) * 4096) (k_perm k)) →
  1 + ((z - 1) / 1024 - n / 1024) <= w → Z.of_nat (length l) - Z.of_nat (length l1) <= spent → spent + w <= kcost →
  (∀ s', exhausted s l s' → Z.of_nat (length l) < kcost → Q None s') →
  (∀ s2 l2, kspace s l d z s2 l2 → Z.of_nat (length l) - Z.of_nat (length l2) <= spent + w → wp (setup_loop c d ks) Q s2) →
  wp (setup_loop c d (k :: ks)) Q s1.
Proof.
  intros K Hb Hz Hp Hpz Hperm E1 E2 E3 Hgap Hline Hw Hs Hsw HE HQ. cbn [setup_loop].
  apply wp_bind, (wp_kmap d _ n z p s1 l1); try done; try lia; [apply K| | |].
  - intros i Hi. rewrite (ks_entry _ _ _ _ _ _ K), decide_False by lia. done.
  - intros s2 l2 M C. change (0 <? 0) with false. cbv iota. apply (HQ _ l2); [|lia].
    eapply kspace_step; [exact K|exact M|lia|done|done].
  - intros s' j M C. cbn. apply wp_ret, HE; [|lia].
    destruct (kspace_maps _ _ _ _ _ _ _ _ _ _ _ _ K M) as ([V1 V2 _] & _ & S). done.
Qed.

(** The fresh directory. *)
Lemma kspace_start s s1 d l :
  free s (d :: l) → free s1 l → lockable c s1 → memory s1 = memory s →
  kspace s (d :: l) d 524288 (put_mem (CString.memset (memory s1) d 0 4096) s1) l.
Proof using Hdata Hdata2.
  intros Hf F1 Lk1 M1. pose proof (free_NoDup _ _ _ Hf) as [Hd _]%NoDup_cons. pose proof Hf as [_ [Hp Hps]%Forall_cons].
  set (m1 := CString.memset (memory s1) d 0 4096).
  assert (Z1 : ∀ x, d <= x < d + PGSIZE → m1 x = 0) by (intros x; apply memset_zero).
  assert (S1 : ∀ v, page_ok v → v ≠ d → same_page (memory s) m1 v).
  { intros v Hv Hne. rewrite <-M1. apply (same_page_other kend _ _ d); [done|done|by apply not_eq_sym|]. intros x. apply memset_inside. }
  split; cbn [memory put_mem].
  - split; [|done|by apply (empty_dir _ _ _ 0 0)]. apply free_same; [done|]. intros v Hv. rewrite M1.
    rewrite Forall_forall in Hps. apply S1; [by apply Hps|]. by intros ->.
  - intros n Hn. destruct (empty_dir m1 d l 0 n Hp Hd Z1) as (_ & _ & ->); [|done]. case_decide; [|done].
    symmetry. by apply (proj1 kpte_lines).
  - intros v [->|[Hv|(i & Hi & E)]]; [apply list_elem_of_here|by apply list_elem_of_further|].
    destruct (empty_dir m1 d l i 0 Hp Hd Z1) as (_ & T & _). by rewrite T in E.
  - intros v Hv [Hne Hn]%not_elem_of_cons. by apply S1.
Qed.

Lemma wp_setupkvm s l (Q : option Z → kst → Prop) :
  free s l → lockable c s →
  (∀ d s' l', kspace s l d NPAGES s' l' → Z.of_nat (length l) - Z.of_nat (length l') <= kcost → Q (Some d) s') →
  (∀ s', exhausted s l s' → Z.of_nat (length l) < kcost → Q None s') →
  wp (setupkvm kdata c) Q s.
Proof.
  intros Hf Hl HQ HE. destruct kpte_lines as (_ & L1 & L2 & L3 & L4 & L5 & B & Ed). set (K := kdata / 4096) in *.
  assert (HK : (K - 1) / 1024 <= K / 1024 <= 567).
  { split; [apply Z.div_le_mono; lia|apply Z.lt_succ_r, Z.div_lt_upper_bound; lia]. }
  assert (HK1 : 512 <= (K - 1) / 1024) by (apply Z.div_le_lower_bound; lia).
  assert (Ek : v2p kdata = (K - 524288) * 4096) by (unfold v2p, KERNBASE; rewrite Ed, u32_small; unfold w32; lia).
  unfold setupkvm. apply wp_bind, (wp_kalloc kend c s l); [done|done|]. intros s1 F1 _ Lk1 M1.
  destruct l as [|d l1]; cbn [head tail] in *.
  { wp_steps. apply HE; [|done]. split; [done|]. split; [done|]. intros v _ _. rewrite M1. apply same_page_refl. }
  unfold clear_page. wp_steps. change (DEVSPACE <? p2v PHYSTOP) with false. cbv iota. unfold kmaps.
  eapply (wp_kline _ _ d _ _ l1 _ _ 524288 524544 0 1 1); [by apply kspace_start|try done; try lia..].
  { cbn [length]. lia. }
  intros s2 l2 K2 C2. eapply (wp_kline _ _ d _ _ l2 _ _ 524544 K 256 2 (1 + ((K - 1) / 1024 - 512))); [exact K2|try done; try lia..].
  { unfold NPAGES. lia. }
  { unfold NPAGES. lia. }
  { cbn [k_phys_end k_phys_start]. rewrite Ek. change (v2p KERNLINK) with 1048576. rewrite u32_small; unfold w32; lia. }
  { unfold kcost. lia. }
  intros s3 l3 K3 C3.
  eapply (wp_kline _ _ d _ _ l3 _ _ K 581632 (K - 524288) _ (1 + (567 - K / 1024))); [exact K3|try done; try lia..|exact C3| |done|].
  { unfold NPAGES. lia. }
  { unfold NPAGES. lia. }
  { cbn [k_phys_end k_phys_start]. rewrite Ek. change PHYSTOP with (57344 * 4096). rewrite u32_small; unfold w32; lia. }
  { unfold kcost. lia. }
  intros s4 l4 K4 C4.
  eapply (wp_kline _ _ d _ _ l4 _ _ 1040384 1048576 1040384 _ 8); [exact K4|try done; try lia..|exact C4| |done|].
  { unfold kcost. lia. }
  intros s5 l5 K5 C5. cbn [setup_loop]. wp_steps. apply (HQ _ _ l5); [done|unfold kcost; lia].
Qed.

(** ** freevm *)

(** The first [k] tables. *)
Definition tabs (m : mem) (d : Z) (k : nat) : list Z := omap (λ i, tab m d (Z.of_nat i)) (seq 0 k).

Lemma tabs_S m d k : tabs m d (S k) = tabs m d k ++ match tab m d (Z.of_nat k) with Some t => [t] | None => [] end.
Proof using.
  unfold tabs. rewrite seq_S, omap_app. f_equal.
Qed.
Lemma elem_tabs m d k v : v ∈ tabs m d k ↔ ∃ i, (i < k)%nat ∧ tab m d (Z.of_nat i) = Some v.
Proof using.
  unfold tabs. rewrite list_elem_of_omap. split.
  - intros (i & Hi & E). exists i. split; [|done]. apply list_elem_of_In, in_seq in Hi. lia.
  - intros (i & Hi & E). exists i. split; [|done]. apply list_elem_of_In, in_seq. lia.
Qed.
Lemma elem_of_rev (l : list Z) v : v ∈ rev l ↔ v ∈ l.
Proof using. rewrite !list_elem_of_In. symmetry. apply in_rev. Qed.

(** One round of the loop over the directory. *)
Lemma wp_free_table m d l (k : nat) s (Q : option unit → kst → Prop) :
  dir_ok m d l → (k < 1024)%nat → free s (rev (tabs m d k) ++ l) → lockable c s →
  (∀ w, page_ok w → w ∉ tabs m d k → same_page m (memory s) w) →
  (∀ s', free s' (rev (tabs m d (S k)) ++ l) → lockable c s' →
     (∀ w, page_ok w → w ∉ tabs m d (S k) → same_page m (memory s') w) → Q None s') →
  wp (e ← ld (d + 4 * Z.of_nat k); when (has e PTE_P) (kfree kend c (p2v (PTE_ADDR e)));; mret None) Q s.
Proof.
  intros D Hk Hf Hl Hfr HQ. pose proof D as [D1 D2 D3 D4]. assert (Hk' : 0 <= Z.of_nat k < 1024) by lia.
  assert (Hd : d ∉ tabs m d k).
  { intros (i & Hi & E)%elem_tabs. destruct (D3 (Z.of_nat i) d ltac:(lia) E) as (_ & _ & ?). done. }
  assert (Et : tab (memory s) d (Z.of_nat k) = tab m d (Z.of_nat k)) by (apply tab_same; [by apply Hfr|done]).
  rewrite tabs_S in HQ. unfold ld. wp_steps. unfold tab at 1 in Et. cbv zeta in Et.
  destruct (has (load32 (memory s) (d + 4 * Z.of_nat k)) PTE_P); wp_steps; rewrite <-Et in HQ; cbv iota in HQ.
  - set (t := p2v _) in *. symmetry in Et. destruct (D3 _ _ Hk' Et) as (P1 & P2 & P3).
    apply (wp_kfree kend c t s _ _ Hf Hl P1).
    + rewrite elem_of_app, elem_of_rev, elem_tabs. intros [(i & Hi & E)|H]; [|done].
      assert (Z.of_nat i = Z.of_nat k) by (apply (D4 _ _ t); [lia|lia|done|done]). lia.
    + intros s' F' _ L' M'. wp_steps. apply HQ; [by rewrite rev_app_distr|done|].
      intros w Hw [Hw1 Hw2]%not_elem_of_app. eapply same_page_trans; [by apply Hfr|].
      apply (same_page_other kend _ _ t); [done|done| |done]. intros ->. apply Hw2. by apply list_elem_of_singleton.
  - rewrite app_nil_r in HQ. by apply HQ.
Qed.

Definition all_pages (m : mem) (d : Z) : list Z := d :: rev (tabs m d 1024) ++ rev (upages m d 0 (Z.to_nat NUSER)).

Lemma wp_freevm d s l (Q : unit → kst → Prop) :
  vs s d l → user_ok (memory s) d l →
  (∀ s', free s' (all_pages (memory s) d ++ l) → lockable c s' →
     (∀ w, page_ok w → w ∉ all_pages (memory s) d → w ∉ l → same_page (memory s) (memory s') w) → Q tt s') →
  wp (freevm kend c d) Q s.
Proof.
  intros V U HQ. pose proof (vs_dir _ _ _ _ _ V) as D0. unfold freevm.
  destruct (Z.eqb_spec d 0) as [->|_]; [destruct (do_dir _ _ _ _ D0) as (_ & ? & _); unfold KERNBASE in *; lia|].
  apply wp_bind. eapply wp_deallocuvm; [done|exact V|exact U|unfold KERNBASE; lia|lia|intros _; by left|].
  intros s1 l1 [V1 U1 L1 _ T1 F1]. change (up 0) with 0 in *. change (Z.to_nat (up KERNBASE - 0)) with (Z.to_nat NUSER) in *.
  pose proof (vs_dir _ _ _ _ _ V1) as D1.
  assert (Et : ∀ k, (k <= 1024)%nat → tabs (memory s1) d k = tabs (memory s) d k).
  { induction k as [|k IH]; intros Hk; [done|]. rewrite !tabs_S, IH, T1 by lia. done. }
  apply wp_bind. apply (wp_count_for (λ i s2, free s2 (rev (tabs (memory s1) d i) ++ l1) ∧ lockable c s2 ∧
    ∀ w, page_ok w → w ∉ tabs (memory s1) d i → same_page (memory s1) (memory s2) w)).
  - split; [apply V1|]. split; [apply V1|]. intros. apply same_page_refl.
  - intros i s2 Hi (Hf & Hl & Hfr). eapply (wp_free_table (memory s1)); [done| |done|done|done|].
    + change (Z.to_nat NPDENTRIES) with 1024%nat in Hi. lia.
    + done.
  - intros s2 (Hf & Hl & Hfr). change (0 + Z.to_nat NPDENTRIES)%nat with 1024%nat in *. rewrite Et in * by done.
    apply (wp_kfree kend c d s2 _ _ Hf Hl (do_dir _ _ _ _ D1)).
    + rewrite elem_of_app, elem_of_rev, elem_tabs. intros [(i & Hi & E)|H].
      * destruct (do_tab _ _ _ _ D0 (Z.of_nat i) d ltac:(lia) E) as (_ & _ & ?). done.
      * by apply (do_free _ _ _ _ D1).
    + intros s3 F3 _ L3 M3. apply HQ; [|done|].
      * unfold all_pages. rewrite L1 in F3. by rewrite <-app_comm_cons, <-app_assoc.
      * intros w Hw [Hwd Hn]%not_elem_of_cons Hwl. apply not_elem_of_app in Hn as [Hn1 Hn2]. rewrite elem_of_rev in Hn1, Hn2.
        eapply same_page_trans; [apply F1; [done| |done]|eapply same_page_trans; [by apply Hfr|]].
        -- intros [->|[H|(i & Hi & E)]]; [done|done|]. apply Hn1, elem_tabs. exists (Z.to_nat i).
           rewrite Z2Nat.id by lia. split; [lia|done].
        -- apply (same_page_other kend _ _ d); [apply D1|done|by apply not_eq_sym|done].
Qed.

(** ** copyuvm *)

(** A directory all of whose pages come from [l], which nothing else has noticed. *)
Record scratch (s : kst) (l : list Z) (dd : Z) (s' : kst) (l' : list Z) : Prop := {
  sc_vs : vs s' dd l';
  sc_user : user_ok (memory s') dd l';
  sc_foot v : foot (memory s') dd l' v → v ∈ l;
  sc_page i : 0 <= i < NUSER → has (entry (memory s') dd i) PTE_P = true → upage (entry (memory s') dd i) ∈ l;
  sc_frame v : page_ok v → v ∉ l → same_page (memory s) (memory s') v
}.

(** The first [n] pages of directory [d] are copied to [dd]. *)
Record copied (s : kst) (d : Z) (l : list Z) (dd n : Z) (s' : kst) (l' : list Z) : Prop := {
  cp_scratch : scratch s l dd s' l';
  cp_count : Z.of_nat (length l) - Z.of_nat (length l') <= kcost + 2 * n;
  cp_new i : 0 <= i < n → ∃ v, v ∈ l ∧ page_ok v ∧
    entry (memory s') dd i = pte_of (v2p v) (PTE_FLAGS (entry (memory s) d i)) ∧
    ∀ x, 0 <= x < PGSIZE → memory s' (v + x) = memory s (upage (entry (memory s) d i) + x);
  cp_old i : n <= i < NPAGES → entry (memory s') dd i = kpte i
}.

Lemma copied_start s d l dd s' l' :
  kspace s l dd NPAGES s' l' → Z.of_nat (length l) - Z.of_nat (length l') <= kcost → copied s d l dd 0 s' l'.
Proof using Hdata Hdata2.
  intros [K1 K2 K3 K4] Hc.
  assert (E : ∀ i, 0 <= i < NPAGES → entry (memory s') dd i = kpte i).
  { intros i Hi. rewrite K2, decide_True by (done || lia). done. }
  assert (E0 : ∀ i, 0 <= i < NUSER → entry (memory s') dd i = 0).
  { intros i Hi. rewrite E by (unfold NUSER, NPAGES in *; lia). apply (proj1 kpte_lines). unfold NUSER in *. lia. }
  split; [|lia|intros i Hi; lia|intros i Hi; apply E; lia].
  split; [done| |done| |done].
  - split.
    + intros i Hi. by rewrite E0.
    + intros i j Hi Hj. by rewrite E0.
  - intros i Hi. by rewrite E0.
Qed.

(** The space that is copied is disjoint from the free pages, hence unchanged. *)
Lemma source_same s d l dd s' l' i :
  dir_ok (memory s) d l → scratch s l dd s' l' → 0 <= i < NPAGES →
  tab (memory s') d (i / 1024) = tab (memory s) d (i / 1024) ∧ entry (memory s') d i = entry (memory s) d i.
Proof using.
  intros D S Hi. pose proof (page_index i Hi) as [Hi' _].
  assert (Sd : same_page (memory s) (memory s') d) by (apply (sc_frame _ _ _ _ _ S); apply D).
  split; [by apply tab_same|]. apply entry_same; [done| |done]. intros t Et.
  destruct (do_tab _ _ _ _ D _ _ Hi' Et) as (? & ? & _). by apply (sc_frame _ _ _ _ _ S).
Qed.

Lemma scratch_evolves s l dd s1 l1 s2 l2 :
  scratch s l dd s1 l1 → vs s2 dd l2 → evolves (memory s1) dd l1 (memory s2) l2 →
  (∀ i, 0 <= i < NPAGES → entry (memory s2) dd i = entry (memory s1) dd i) → scratch s l dd s2 l2.
Proof using.
  intros [S1 S2 S3 S4 S5] V Ev En. assert (HU : ∀ i, 0 <= i < NUSER → 0 <= i < NPAGES) by (unfold NUSER, NPAGES; lia).
  split; [done|by eapply user_evolves; [..|auto]| | |].
  - intros v Hv. by apply S3, (ev_foot _ _ _ _ _ _ Ev).
  - intros i Hi. rewrite En by auto. by apply S4.
  - intros v Hv Hl. eapply same_page_trans; [by apply S5|]. apply (ev_frame _ _ _ _ _ _ Ev); [done|]. by intros H%S3.
Qed.

Lemma copied_step s d l dd n s1 v l1 m3 s4 l4 :
  copied s d l dd n s1 (v :: l1) → 0 <= n < NUSER →
  (∀ x, 0 <= x < PGSIZE → m3 (v + x) = memory s (upage (entry (memory s) d n) + x)) →
  vs s4 dd l4 → evolves (memory s1) dd (v :: l1) (memory s4) l4 → ¬ foot (memory s4) dd l4 v → page_ok v →
  (∃ tk, l1 = tk ++ l4 ∧ (length tk <= 1)%nat ∧ tabled (memory s4) dd tk) → same_page m3 (memory s4) v →
  (∀ i, 0 <= i < NPAGES → entry (memory s4) dd i =
     if decide (i = n) then pte_of (v2p v) (PTE_FLAGS (entry (memory s) d n)) else entry (memory s1) dd i) →
  copied s d l dd (n + 1) s4 l4.
Proof using.
  intros [S Hc Hnew Hold] Hn H3 V4 Ev4 Hnf Hv (tk & -> & Htk) Hsame En. pose proof S as [S1 S2 S3 S4 S5].
  assert (Hfl : 0 <= PTE_FLAGS (entry (memory s) d n) < 4096) by (rewrite PTE_FLAGS_spec; apply Z.mod_pos_bound; lia).
  assert (HU : ∀ i, 0 <= i < NUSER → 0 <= i < NPAGES) by (unfold NUSER, NPAGES; lia).
  assert (Hvl : v ∈ l) by (apply S3; right; left; apply list_elem_of_here).
  split; [split; [done| | | |]|..].
  - apply (user_add kend (memory s1) dd (v :: tk ++ l4) _ _ n v (PTE_FLAGS (entry (memory s) d n)));
      [done|done|done|done|apply list_elem_of_here|done|done|done].
  - intros w Hw. by apply S3, (ev_foot _ _ _ _ _ _ Ev4).
  - intros i Hi. rewrite En by auto. case_decide; [by rewrite (upage_pte kend)|]. by apply S4.
  - intros w Hw Hl. eapply same_page_trans; [by apply S5|]. apply (ev_frame _ _ _ _ _ _ Ev4); [done|]. by intros H%S3.
  - cbn [length] in Hc. rewrite length_app in Hc. lia.
  - intros i Hi. destruct (decide (i = n)) as [->|Hne].
    + exists v. split; [done|]. split; [done|]. rewrite En, decide_True by auto. split; [done|].
      intros x Hx. rewrite Hsame by lia. by apply H3.
    + destruct (Hnew i) as (w & W1 & W2 & W3 & W4); [lia|]. exists w. split; [done|]. split; [done|].
      rewrite En, decide_False by (auto; unfold NUSER, NPAGES in *; lia). split; [done|]. intros x Hx. rewrite <-W4 by done.
      apply (ev_frame _ _ _ _ _ _ Ev4 w); [done| |lia]. destruct (uo_page _ _ _ _ S2 i) as [_ H]; [lia|rewrite W3; apply pte_of_present|].
      rewrite W3, (upage_pte kend) in H; [done|done|]. rewrite PTE_FLAGS_spec. apply Z.mod_pos_bound. lia.
  - intros i Hi. rewrite En, decide_False by lia. apply Hold. lia.
Qed.

Section loop.
Context (s : kst) (d : Z) (l : list Z) (sz : Z).
Context (D : dir_ok (memory s) d l) (U : user_ok (memory s) d l) (Hsz : 0 <= sz <= KERNBASE).
Context (Hpres : ∀ i, 0 <= i < up sz → has (entry (memory s) d i) PTE_P = true).
Implicit Types Q : bool → kst → Prop.

Lemma wp_copy_loop dd Q :
  (∀ s' l', copied s d l dd (up sz) s' l' → Q true s') →
  (∀ s', scratch s l dd s' [] → Z.of_nat (length l) < kcost + 2 * up sz → Q false s') →
  ∀ fuel n s1 l1, copied s d l dd n s1 l1 → 0 <= n <= up sz → (Z.to_nat (up sz - n) <= fuel)%nat →
  wp (copy_loop c fuel d dd sz (n * 4096)) Q s1.
Proof.
  intros HQ HE. pose proof (up_bounds sz) as B. assert (BN : up sz <= NUSER) by (unfold NUSER, KERNBASE in *; lia).
  induction fuel as [|fuel IH]; intros n s1 l1 C Hn Hfu; cbn [copy_loop];
    (destruct (decide (n = up sz)) as [->|Hne]; [rewrite (proj2 (Z.ltb_ge _ _)) by lia; wp_steps; by eapply HQ|]); [lia|].
  rewrite (proj2 (Z.ltb_lt _ _)) by lia. assert (HnU : 0 <= n < NUSER) by lia.
  assert (HnP : 0 <= n < NPAGES) by (unfold NUSER, NPAGES in *; lia). pose proof C as [S Hc _ Hold]. pose proof S as [S1 S2 S3 _ S5].
  destruct (source_same _ _ _ _ _ _ _ D S HnP) as [ET EE]. specialize (Hpres n ltac:(lia)).
  apply wp_bind, wp_walk; [unfold NUSER, w32 in *; lia|]. rewrite Z.div_mul, ET by done.
  destruct (tab (memory s) d (n / 1024)) as [t|] eqn:Et; cbn [option_map]; [|by apply entry_tab in Hpres].
  unfold ld. wp_steps.
  assert (Ee : load32 (memory s1) (t + 4 * (n mod 1024)) = entry (memory s) d n) by (rewrite <-EE; unfold entry; by rewrite ET).
  rewrite Ee, Hpres. cbn [negb]. fold (upage (entry (memory s) d n)).
  destruct (uo_page _ _ _ _ U n HnU Hpres) as [Hup Hnf].
  assert (Hul : upage (entry (memory s) d n) ∉ l) by (intros H; apply Hnf; by right; left).
  apply wp_bind, (wp_kalloc kend c s1 l1); [apply S1|apply S1|]. intros s2 F2 _ L2 M2.
  destruct l1 as [|v l2]; cbn [head tail] in *.
  { wp_steps. apply HE; [|cbn [length] in Hc; lia]. eapply scratch_evolves; [exact S|split; [done|done|]| |].
    - rewrite M2. apply S1.
    - rewrite M2. apply evolves_refl, S1.
    - intros i _. by rewrite M2. }
  wp_steps. rewrite M2. set (m3 := CString.memmove _ _ _ _).
  assert (H3 : ∀ x, m3 x = if decide (v <= x < v + PGSIZE) then memory s1 (upage (entry (memory s) d n) + (x - v)) else memory s1 x).
  { intros x. unfold m3. rewrite CString.memmove_spec. done. }
  assert (Hu : u32 (n * 4096 + PGSIZE) = (n + 1) * 4096) by (rewrite u32_small; unfold PGSIZE, NUSER, w32 in *; lia).
  apply (wp_map_page kend c s1 s2 dd v l2 m3 n); [done|done|done|done| |done| | | |].
  - intros x Hx. by rewrite H3, decide_False.
  - rewrite PTE_FLAGS_spec. apply Z.mod_pos_bound. lia.
  - rewrite Hold by lia. rewrite (proj1 kpte_lines); [done|unfold NUSER in *; lia].
  - intros s4 l4 V4 Ev4 Hnf4 Hv Htk Hsame En. change (0 <? 0) with false. cbv iota. rewrite Hu. apply (IH _ _ l4); [|lia|lia].
    eapply (copied_step _ _ _ _ _ s1 v l2 m3); [exact C|done| |done..]. intros x Hx. rewrite H3, decide_True by lia.
    replace (v + x - v) with x by lia. apply (S5 (upage (entry (memory s) d n))); [done|done|lia].
  - intros s4 V4 Ev4 -> En. change (-1 <? 0) with true. cbv iota. wp_steps. apply HE; [|cbn [length] in Hc; lia].
    by eapply scratch_evolves.
Qed.

Lemma wp_copyuvm (Q : option Z → kst → Prop) :
  free s l → lockable c s →
  (∀ dd s' l', copied s d l dd (up sz) s' l' → Q (Some dd) s') →
  (∀ s' l', free s' l' → lockable c s' → (∀ v, v ∈ l' → v ∈ l) →
     (∀ v, page_ok v → v ∉ l → same_page (memory s) (memory s') v) →
     Z.of_nat (length l) < kcost + 2 * up sz → Q None s') →
  wp (copyuvm kend kdata c d sz) Q s.
Proof.
  intros Hf Hl HQ HE. pose proof (up_bounds sz) as B. assert (B0 : 0 <= up sz) by (unfold up; apply Z.div_pos; lia).
  unfold copyuvm. apply wp_bind, (wp_setupkvm s l); [done|done| |].
  2: { intros s' (E1 & E2 & E3) Hc. wp_steps. apply (HE _ []); [done|done| |done|lia]. intros v Hv. by apply not_elem_of_nil in Hv. }
  intros dd s1 l1 K1 C1. apply wp_bind. change 0 with (0 * 4096) at 1.
  eapply wp_copy_loop; [| |by eapply copied_start|lia|].
  - intros s' l' C. wp_steps. by eapply HQ.
  - intros s2 [V2 U2 F2 P2 S2] Hc. cbv iota. apply wp_bind. apply (wp_freevm _ s2 []); [done|done|]. intros s3 F3 L3 S3.
    assert (Hin : ∀ v, v ∈ all_pages (memory s2) dd → v ∈ l).
    { intros v. unfold all_pages. rewrite elem_of_cons, elem_of_app, !elem_of_rev. intros [->|[H|H]].
      - apply F2. by left.
      - apply elem_tabs in H as (i & Hi & E). apply F2. right; right. exists (Z.of_nat i). split; [lia|done].
      - apply elem_upages in H as (i & Hi & Hp & ->). apply P2; [|done]. unfold NUSER in *. lia. }
    wp_steps. apply (HE _ (all_pages (memory s2) dd)); [by rewrite app_nil_r in F3|done|done| |done].
    intros v Hv Hn. eapply same_page_trans; [by apply S2|]. apply S3; [done|by intros H%Hin|]. apply not_elem_of_nil.
  - unfold PGSIZE. assert (up sz <= sz / 4096 + 1); [|lia].
    unfold up. pose proof (Z.div_mod (sz + 4095) 4096). pose proof (Z.mod_pos_bound (sz + 4095) 4096).
    pose proof (Z.div_mod sz 4096). pose proof (Z.mod_pos_bound sz 4096). lia.
Qed.
End loop.
End copy.
End VmCopy.
