(* ===== verification/VmOut.v ===== *)
(** * Writing user memory through its page table: uva2ka, copyout

    [uread m d a] is the byte a user of directory [d] sees at address [a]. *)

From S2P Require Import Prelude CString Spinlock Kalloc Vm VmSpec VmUser.
Local Open Scope Z_scope.

Module VmOut.
Import Kalloc Vm VmSpec VmUser.

Definition uread (m : mem) (d a : Z) : Z := m (upage (entry m d (a / 4096)) + a mod 4096).
(** The user may access page [n]. *)
Definition usable (m : mem) (d n : Z) : Prop := has (entry m d n) PTE_P = true ∧ has (entry m d n) PTE_U = true.

Section out.
Context (kend : Z) `{mode : Mode} (c : nat).
Abbreviation page_ok := (page_ok kend).
Abbreviation vs := (vs kend c).
Abbreviation user_ok := (user_ok kend).

Lemma put_bytes_other m a l x : ¬ (a <= x < a + Z.of_nat (length l)) → put_bytes m a l x = m x.
Proof using.
  intros H. unfold put_bytes. destruct (Z.leb_spec a x), (Z.ltb_spec x (a + Z.of_nat (length l))); cbn [andb]; try done. lia.
Qed.
Lemma put_bytes_at m a l x : a <= x < a + Z.of_nat (length l) → put_bytes m a l x = nth (Z.to_nat (x - a)) l 0.
Proof using.
  intros H. unfold put_bytes. rewrite (proj2 (Z.leb_le _ _)), (proj2 (Z.ltb_lt _ _)) by lia. done.
Qed.

(** Bytes written to a user page. *)
Lemma write_page s d l n off bs :
  vs s d l → user_ok (memory s) d l → 0 <= n < NUSER → has (entry (memory s) d n) PTE_P = true →
  0 <= off → off + Z.of_nat (length bs) <= 4096 →
  let m' := put_bytes (memory s) (upage (entry (memory s) d n) + off) bs in
  vs (put_mem m' s) d l ∧ user_ok m' d l ∧ (∀ i, 0 <= i < NPAGES → entry m' d i = entry (memory s) d i) ∧
  (∀ a, 0 <= a < KERNBASE → has (entry (memory s) d (a / 4096)) PTE_P = true →
     uread m' d a = if decide (n * 4096 + off <= a < n * 4096 + off + Z.of_nat (length bs))
                    then nth (Z.to_nat (a - (n * 4096 + off))) bs 0 else uread (memory s) d a) ∧
  (∀ w, page_ok w → w ≠ upage (entry (memory s) d n) → same_page (memory s) m' w).
Proof using.
  intros [Vf Vl D] U Hn Hp Hoff Hlen m'. set (v := upage (entry (memory s) d n)) in *.
  destruct (uo_page _ _ _ _ U n Hn Hp) as [Hv Hnf]. fold v in Hv, Hnf.
  assert (Hx : ∀ x, ¬ (v <= x < v + PGSIZE) → m' x = memory s x).
  { intros x H. apply put_bytes_other. unfold PGSIZE in H. lia. }
  assert (S : ∀ w, page_ok w → w ≠ v → same_page (memory s) m' w).
  { intros w Hw Hne. apply (same_page_other kend _ _ v); [done|done|by apply not_eq_sym|done]. }
  assert (Sd : same_page (memory s) m' d) by (apply S; [apply D|intros Hd; apply Hnf; by left]).
  assert (T : ∀ i, 0 <= i < 1024 → tab m' d i = tab (memory s) d i) by (intros; by apply tab_same).
  assert (En : ∀ i, 0 <= i < NPAGES → entry m' d i = entry (memory s) d i).
  { intros i Hi. apply entry_same; [done| |done]. intros t Et. pose proof (page_index i Hi) as [Hi' _].
    destruct (do_tab _ _ _ _ D _ _ Hi' Et) as (? & _). apply S; [done|]. intros Ht. apply Hnf. right; right. rewrite <-Ht. eauto. }
  assert (Hf : ∀ w, foot m' d l w → foot (memory s) d l w).
  { intros w [->|[H|(i & Hi & E)]]; [by left|by right; left|]. rewrite T in E by done. right; right. eauto. }
  assert (HU : ∀ i, 0 <= i < NUSER → 0 <= i < NPAGES) by (unfold NUSER, NPAGES; lia).
  split; [|split; [|split; [done|split; [|done]]]].
  - split; [|done|by eapply dir_ok_same; [exact D|done|intros w Hw; left]]. apply free_same; [done|]. intros w Hw.
    pose proof Vf as [_ Hps]. rewrite Forall_forall in Hps. apply S; [by apply Hps|]. intros Hw'. apply Hnf. right; left. by rewrite <-Hw'.
  - split.
    + intros i Hi. rewrite En by auto. intros Hpi. destruct (uo_page _ _ _ _ U i Hi Hpi) as [? H]. split; [done|]. by intros H'%Hf.
    + intros i j Hi Hj. rewrite !En by auto. by apply (uo_inj _ _ _ _ U).
  - intros a Ha Hpa. pose proof (Z.div_mod a 4096). pose proof (Z.mod_pos_bound a 4096).
    assert (HaU : 0 <= a / 4096 < NUSER) by (unfold NUSER, KERNBASE in *; lia).
    unfold uread. rewrite En by auto. destruct (decide (a / 4096 = n)) as [E|E].
    + rewrite E. fold v. case_decide.
      * unfold m'. rewrite put_bytes_at by lia. f_equal. lia.
      * apply put_bytes_other. lia.
    + rewrite decide_False by lia. destruct (uo_page _ _ _ _ U _ HaU Hpa) as [Hw _].
      apply (S (upage (entry (memory s) d (a / 4096)))); [done| |unfold PGSIZE; lia]. intros H'. apply E. by apply (uo_inj _ _ _ _ U).
Qed.

Lemma wp_uva2ka d n s (Q : option Z → kst → Prop) :
  0 <= n < NPAGES → usable (memory s) d n → Q (Some (upage (entry (memory s) d n))) s →
  wp (uva2ka c d (n * 4096)) Q s.
Proof.
  intros Hn [Hp Hu] HQ. unfold uva2ka. apply wp_bind, wp_walk; [unfold NPAGES, w32 in *; lia|]. rewrite Z.div_mul by done.
  destruct (tab (memory s) d (n / 1024)) as [t|] eqn:Et; cbn [option_map]; [|by apply entry_tab in Hp].
  unfold ld. wp_steps. replace (load32 _ _) with (entry (memory s) d n) by (unfold entry; by rewrite Et).
  rewrite Hp, Hu. cbn [negb]. by wp_steps.
Qed.

Record wrote (s : kst) (d va : Z) (p : list Z) (l : list Z) (s' : kst) : Prop := {
  wr_vs : vs s' d l;
  wr_user : user_ok (memory s') d l;
  wr_entry i : 0 <= i < NPAGES → entry (memory s') d i = entry (memory s) d i;
  wr_read a : 0 <= a < KERNBASE → has (entry (memory s) d (a / 4096)) PTE_P = true →
    uread (memory s') d a = if decide (va <= a < va + Z.of_nat (length p)) then nth (Z.to_nat (a - va)) p 0 else uread (memory s) d a;
  wr_frame w : page_ok w → (∀ n, 0 <= n < NUSER → has (entry (memory s) d n) PTE_P = true → upage (entry (memory s) d n) ≠ w) →
    same_page (memory s) (memory s') w
}.

Lemma wp_copyout_loop d l : ∀ fuel va p s (Q : Z → kst → Prop),
  vs s d l → user_ok (memory s) d l → (length p <= fuel)%nat → 0 <= va → va + Z.of_nat (length p) <= KERNBASE →
  (∀ a, va <= a < va + Z.of_nat (length p) → usable (memory s) d (a / 4096)) →
  (∀ s', wrote s d va p l s' → Q 0 s') → wp (copyout_loop c fuel d va p) Q s.
Proof.
  induction fuel as [|fuel IH]; intros va p s Q V U Hf Hva Hend Hu HQ.
  { destruct p; [|cbn in Hf; lia]. cbn. apply HQ. split; [done|done|done| |done]. intros a _ _. rewrite decide_False by (cbn; lia). done. }
  destruct (decide (p = [])) as [->|Hne].
  { cbn. apply HQ. split; [done|done|done| |done]. intros a _ _. rewrite decide_False by (cbn; lia). done. }
  assert (Hpos : (0 < length p)%nat) by (destruct p; [done|cbn; lia]).
  replace (copyout_loop c (S fuel) d va p) with
    (r ← uva2ka c d (PGROUNDDOWN va);
     match r with
     | None => mret (-1)
     | Some pa0 =>
         let n := Z.min (PGSIZE - (va - PGROUNDDOWN va)) (Z.of_nat (length p)) in
         modify (λ s, put_mem (put_bytes (memory s) (pa0 + (va - PGROUNDDOWN va)) (take (Z.to_nat n) p)) s);;
         copyout_loop c fuel d (u32 (PGROUNDDOWN va + PGSIZE)) (drop (Z.to_nat n) p)
     end) by (destruct p; done).
  rewrite PGROUNDDOWN_spec by (unfold KERNBASE, w32 in *; lia). set (n := va / 4096).
  pose proof (Z.div_mod va 4096) as Hdm. pose proof (Z.mod_pos_bound va 4096) as Hm. fold n in Hdm.
  assert (HnU : 0 <= n < NUSER) by (unfold NUSER, KERNBASE in *; lia).
  assert (HnP : 0 <= n < NPAGES) by (unfold NUSER, NPAGES in *; lia).
  assert (Hn : usable (memory s) d n) by (apply Hu; lia).
  apply wp_bind, wp_uva2ka; [done|done|]. cbv zeta. unfold PGSIZE. set (off := va - n * 4096). set (k := Z.min (4096 - off) (Z.of_nat (length p))).
  assert (Hk : 0 < k <= 4096 - off ∧ k <= Z.of_nat (length p) ∧ (k = 4096 - off ∨ k = Z.of_nat (length p))) by lia.
  clearbody k. wp_steps.
  assert (Hlt : Z.of_nat (length (take (Z.to_nat k) p)) = k) by (rewrite length_take; lia).
  destruct (write_page s d l n off (take (Z.to_nat k) p)) as (V1 & U1 & E1 & R1 & F1); [done|done|done|apply Hn|lia|lia|].
  set (s1 := put_mem _ s) in *. set (m1 := put_bytes _ _ _) in *. rewrite Hlt in R1. replace (n * 4096 + off) with va in R1 by lia.
  assert (Hp2 : Z.of_nat (length (drop (Z.to_nat k) p)) = Z.of_nat (length p) - k) by (rewrite length_drop; lia).
  assert (Hgo : ∀ va', (k < Z.of_nat (length p) → va' = va + k) → 0 <= va' → va' + (Z.of_nat (length p) - k) <= KERNBASE →
    wp (copyout_loop c fuel d va' (drop (Z.to_nat k) p)) Q s1).
  { intros va' Hva' H0 H1. apply IH; [done|done|lia|done|lia| |].
    - intros a Ha. unfold usable. change (memory s1) with m1. assert (va' = va + k) as -> by (apply Hva'; lia).
      rewrite E1 by (split; [apply Z.div_pos; lia|apply Z.div_lt_upper_bound; unfold NPAGES, KERNBASE in *; lia]). apply Hu. lia.
    - intros s' [W1 W2 W3 W4 W5]. apply HQ. split; [done|done| | |].
      + intros i Hi. rewrite W3 by done. by apply E1.
      + intros a Ha Hpa. assert (HaP : 0 <= a / 4096 < NPAGES).
        { split; [apply Z.div_pos; lia|apply Z.div_lt_upper_bound; unfold NPAGES, KERNBASE in *; lia]. }
        rewrite W4; [|done|change (memory s1) with m1; by rewrite E1]. change (memory s1) with m1. rewrite R1 by done. rewrite Hp2.
        rewrite !nth_lookup. destruct (decide (k < Z.of_nat (length p))) as [Hl|Hl]; [rewrite (Hva' Hl)|];
          repeat case_decide; try lia; try done;
          first [rewrite lookup_take_lt by lia; done | rewrite lookup_drop; do 2 f_equal; lia].
      + intros w Hw Hnu. eapply same_page_trans; [apply F1; [done|by apply not_eq_sym, Hnu, Hn]|]. apply W5; [done|].
        intros i Hi. change (memory s1) with m1. rewrite E1 by (unfold NUSER, NPAGES in *; lia). by apply Hnu. }
  rewrite u32_small by (unfold NUSER, w32 in *; lia). apply Hgo; unfold KERNBASE in *; lia.
Qed.
End out.
End VmOut.
