(* ===== verification/VmProps.v ===== *)
(** * Properties of virtual memory *)

From S2P Require Import Prelude CString Spinlock Kalloc Vm VmSpec VmUser VmCopy VmOut.
Local Open Scope Z_scope.

Module VmProps.
Import Kalloc Vm VmSpec VmUser VmCopy VmOut.

(** ** A concrete machine

    The kernel ends at 0x80110000 and its data starts at 0x80108000.  The page
    at 0x80500000 is an empty directory and the [k] pages from 0x80400000 on are
    free. *)
Definition kdata0 : Z := 2148564992.
Definition base0 : Z := 2151677952.
Definition dir0 : Z := 2152726528.
Definition mem0 (k : Z) : mem := λ x,
  let i := (x - base0) / 4096 in
  if (0 <=? i) && (i <? k - 1) then
    let w := base0 + (i + 1) * 4096 in
    let o := (x - base0) mod 4096 in
    if o <? 4 then (w / 256 ^ o) mod 256 else 0
  else 0.
Definition vm0 (k : Z) : kst :=
  mkkst (ls demo) true (if 0 <? k then Some base0 else None) (mem0 k).
Definition free0 (k : Z) : list Z := pages base0 (Z.to_nat k).

Lemma vm0_free : free demo_end (vm0 80) (free0 80).
Proof.
  split; [vm_compute; repeat split; reflexivity|]. apply pages_ok; [done|done|done|vm_compute; done].
Qed.
Lemma dir0_page : page_ok demo_end dir0.
Proof. vm_compute. done. Qed.
Lemma dir0_zero x : dir0 <= x < dir0 + PGSIZE → memory (vm0 80) x = 0.
Proof.
  intros Hx. cbn [memory vm0]. unfold mem0. cbv zeta.
  rewrite (proj2 (Z.ltb_ge ((x - base0) / 4096) (80 - 1))), andb_false_r; [done|].
  apply Z.div_le_lower_bound; [done|]. unfold base0, dir0 in *. lia.
Qed.
Lemma dir0_notfree : dir0 ∉ free0 80.
Proof. apply (bool_decide_unpack _). vm_compute. exact I. Qed.
Lemma vm0_vs : vs demo_end 0 (vm0 80) dir0 (free0 80).
Proof.
  split; [apply vm0_free|intros _; vm_compute; done|].
  apply (empty_dir demo_end (memory (vm0 80)) dir0 (free0 80) 0 0 dir0_page dir0_notfree dir0_zero).
Qed.
Lemma vm0_entry n : 0 <= n < NPAGES → entry (memory (vm0 80)) dir0 n = 0.
Proof. apply (empty_dir demo_end (memory (vm0 80)) dir0 (free0 80) 0 n dir0_page dir0_notfree dir0_zero). Qed.
Lemma vm0_user : user_ok demo_end (memory (vm0 80)) dir0 (free0 80).
Proof.
  assert (H : ∀ n, 0 <= n < NUSER → entry (memory (vm0 80)) dir0 n = 0).
  { intros n Hn. apply vm0_entry. unfold NUSER, NPAGES in *. lia. }
  split; [intros n Hn; by rewrite H|intros n k Hn Hk; by rewrite H].
Qed.

(** ** Growing and shrinking *)

(** C21: allocuvm from [oldsz] to [newsz] returns, and whatever happens leaves
    every page outside the directory, its tables and the free list untouched
    and all other entries as they were.  There are three outcomes.  It returns
    [newsz] and each new page is mapped, writable and for the user, to a page of
    its own that was free and is now zero, and no page is lost.  Or memory ran
    short (less than two free pages per new page) and it returns 0: none of the
    new pages is mapped any more, and all that was free is free again or has
    become a table, except at most the one page that mappages had no table for.
    Or memory ran short and only the table of the last page could not be
    allocated: since the result of mappages is not tested it returns [newsz],
    with all new pages but the last one mapped as above, the last one not
    mapped, and at most one page lost. *)
Theorem allocuvm_grows (kend : Z) (c : nat) (s : kst) (d : Z) (l : list Z) (oldsz newsz : Z) :
  KERNBASE < kend → vs kend c s d l → user_ok kend (memory s) d l → 0 <= oldsz <= newsz → newsz < KERNBASE →
  (∀ i, up oldsz <= i < up newsz → has (entry (memory s) d i) PTE_P = false) →
  (up oldsz < up newsz → up oldsz mod 1024 = 0 ∨ tab (memory s) d (up oldsz / 1024) ≠ None) →
  ∃ r s', allocuvm kend c d oldsz newsz s = Ok r s' ∧
    (r = newsz ∧ (∃ l', grows kend c s d l (up oldsz) (up newsz) s' l') ∨
     Z.of_nat (length l) < 2 * (up newsz - up oldsz) ∧
       (r = 0 ∧ (∃ l', undone kend c s d l (up oldsz) (up newsz) s' l') ∨
        r = newsz ∧ partway kend c s d l (up oldsz) (up newsz - 1) s')).
Proof.
  intros Hk V U H1 H2 H3 H4. apply wp_total. apply (wp_allocuvm kend Hk c s d l oldsz newsz); try done.
  - intros s' l' G. left. eauto.
  - intros s' P Hl. right. auto.
  - intros s' l' P Hl. right. split; [done|]. left. eauto.
Qed.

Lemma allocuvm_grows_witness :
  ∃ s' l', allocuvm demo_end 0 dir0 0 8192 (vm0 80) = Ok 8192 s' ∧ grows demo_end 0 (vm0 80) dir0 (free0 80) 0 2 s' l'.
Proof.
  destruct (allocuvm_grows demo_end 0 (vm0 80) dir0 (free0 80) 0 8192) as (r & s' & E & [[Er [l' G]]|[Hl _]]).
  - vm_compute. reflexivity.
  - apply vm0_vs.
  - apply vm0_user.
  - lia.
  - unfold KERNBASE. lia.
  - intros i Hi. change (up 0) with 0 in Hi. change (up 8192) with 2 in Hi. rewrite vm0_entry; [reflexivity|unfold NPAGES; lia].
  - intros _. left. reflexivity.
  - subst r. exists s', l'. exact (conj E G).
  - exfalso. revert Hl. vm_compute. discriminate.
Defined.

(** Deallocuvm from [oldsz] to [newsz] returns [newsz]; exactly the user
    pages at or above [newsz] go back to the free list, in order, their entries
    are cleared, and every other entry, page and table is untouched, also where
    it skips the range of a missing table. *)
Theorem deallocuvm_frees (kend : Z) (c : nat) (s : kst) (d : Z) (l : list Z) (oldsz newsz : Z) :
  KERNBASE < kend → vs kend c s d l → user_ok kend (memory s) d l → 0 <= newsz <= oldsz → oldsz <= KERNBASE →
  (up newsz < up oldsz → up newsz mod 1024 = 0 ∨ tab (memory s) d (up newsz / 1024) ≠ None) →
  ∃ s' l', deallocuvm kend c d oldsz newsz s = Ok newsz s' ∧
    frees kend c s d l (up newsz) (Z.to_nat (up oldsz - up newsz)) s' l'.
Proof.
  intros Hk V U H1 H2 H3.
  destruct (wp_total (deallocuvm kend c d oldsz newsz)
    (λ r s', r = newsz ∧ ∃ l', frees kend c s d l (up newsz) (Z.to_nat (up oldsz - up newsz)) s' l') s)
    as (r & s' & E & -> & l' & F); [|eauto].
  apply (wp_deallocuvm kend Hk c d oldsz newsz s l); try done. intros s' l' F. eauto.
Qed.

(** The machine after it has grown to one page. *)
Definition vm1 : kst := match allocuvm demo_end 0 dir0 0 4096 (vm0 80) with Ok _ s' => s' | _ => vm0 80 end.
Lemma vm1_grown : ∃ l, grows demo_end 0 (vm0 80) dir0 (free0 80) 0 1 vm1 l.
Proof.
  assert (H : ∃ r s', allocuvm demo_end 0 dir0 0 4096 (vm0 80) = Ok r s' ∧ ∃ l, grows demo_end 0 (vm0 80) dir0 (free0 80) 0 1 s' l).
  { apply wp_total. apply (wp_allocuvm demo_end ltac:(vm_compute; reflexivity) 0 (vm0 80) dir0 (free0 80) 0 4096).
    - lia.
    - unfold KERNBASE. lia.
    - intros i Hi. change (up 0) with 0 in Hi. change (up 4096) with 1 in Hi. rewrite vm0_entry; [reflexivity|unfold NPAGES; lia].
    - intros _. left. reflexivity.
    - intros s' l' G. by exists l'.
    - intros s' _ Hl. exfalso. revert Hl. vm_compute. discriminate.
    - intros s' l' _ Hl. exfalso. revert Hl. vm_compute. discriminate.
    - apply vm0_vs.
    - apply vm0_user. }
  unfold vm1. destruct H as (r & s' & -> & l & G). by exists l.
Qed.

Lemma deallocuvm_frees_witness :
  ∃ l s' l', deallocuvm demo_end 0 dir0 4096 0 vm1 = Ok 0 s' ∧ frees demo_end 0 vm1 dir0 l 0 1 s' l'.
Proof.
  destruct vm1_grown as [l G]. exists l. apply (deallocuvm_frees demo_end 0 vm1 dir0 l 4096 0).
  - vm_compute. reflexivity.
  - apply G.
  - apply G.
  - lia.
  - unfold KERNBASE. lia.
  - intros _. left. reflexivity.
Defined.

(** ** Copying *)

(** C22: copyuvm, from an address space whose pages below [sz] are present,
    returns and leaves every page that was not free (the parent's directory,
    tables and pages among them) unchanged.  Either it returns a new directory
    that maps the kernel as setupkvm does and each page below [sz] to a page of
    its own with the parent's flags and contents; or there were less than 67
    free pages and two per page, and it returns 0. *)
Theorem copyuvm_copies (kend kdata : Z) (c : nat) (s : kst) (d : Z) (l : list Z) (sz : Z) :
  KERNBASE < kend → kdata mod 4096 = 0 → KERNLINK < kdata < KERNBASE + PHYSTOP →
  vs kend c s d l → user_ok kend (memory s) d l → 0 <= sz <= KERNBASE →
  (∀ i, 0 <= i < up sz → has (entry (memory s) d i) PTE_P = true) →
  ∃ r s', copyuvm kend kdata c d sz s = Ok r s' ∧
    (∀ v, page_ok kend v → v ∉ l → same_page (memory s) (memory s') v) ∧
    match r with
    | Some dd => ∃ l', copied kend c kdata s d l dd (up sz) s' l'
    | None => Z.of_nat (length l) < kcost + 2 * up sz ∧
              ∃ l', free kend s' l' ∧ lockable c s' ∧ ∀ v, v ∈ l' → v ∈ l
    end.
Proof.
  intros Hk Hd1 Hd2 [Hf Hl D] U Hsz Hp. apply wp_total.
  apply (wp_copyuvm kend Hk c kdata Hd1 Hd2 s d l sz D U Hsz Hp _ Hf Hl).
  - intros dd s' l' C. split; [|by exists l']. intros v Hv Hn.
    by apply (sc_frame _ _ _ _ _ _ _ (cp_scratch _ _ _ _ _ _ _ _ _ _ C)).
  - intros s' l' F L In Fr Hc. split; [done|]. split; [done|]. by exists l'.
Qed.

Lemma copyuvm_copies_witness :
  ∃ l dd s' l', copyuvm demo_end kdata0 0 dir0 4096 vm1 = Ok (Some dd) s' ∧ copied demo_end 0 kdata0 vm1 dir0 l dd 1 s' l'.
Proof.
  destruct vm1_grown as [l G]. exists l.
  destruct (copyuvm_copies demo_end kdata0 0 vm1 dir0 l 4096) as ([dd|] & s' & E & _ & H).
  - vm_compute. reflexivity.
  - vm_compute. reflexivity.
  - vm_compute. split; reflexivity.
  - apply G.
  - apply G.
  - unfold KERNBASE. lia.
  - intros i Hi. change (up 4096) with 1 in Hi. destruct (gr_new _ _ _ _ _ _ _ _ _ G i Hi) as (v & _ & _ & -> & _).
    apply pte_of_present.
  - destruct H as [l' C]. exists dd, s', l'. exact (conj E C).
  - exfalso. destruct H as [H _]. pose proof (gr_count _ _ _ _ _ _ _ _ _ G) as Hc. change (up 4096) with 1 in H.
    assert (length (free0 80) = 80%nat) by reflexivity. unfold kcost in H. lia.
Defined.

(** C23: copyout to addresses whose pages are all present and for the user
    returns 0, after which the user reads exactly the given bytes there and
    the old bytes everywhere else, across page boundaries; the page tables and
    the free list are as before. *)
Theorem copyout_writes (kend : Z) (c : nat) (s : kst) (d : Z) (l : list Z) (va : Z) (p : list Z) :
  vs kend c s d l → user_ok kend (memory s) d l → 0 <= va → va + Z.of_nat (length p) <= KERNBASE →
  (∀ a, va <= a < va + Z.of_nat (length p) → usable (memory s) d (a / 4096)) →
  ∃ s', copyout c d va p s = Ok 0 s' ∧ vs kend c s' d l ∧
    (∀ i, 0 <= i < NPAGES → entry (memory s') d i = entry (memory s) d i) ∧
    (∀ a, 0 <= a < KERNBASE → has (entry (memory s) d (a / 4096)) PTE_P = true →
       uread (memory s') d a = if decide (va <= a < va + Z.of_nat (length p)) then nth (Z.to_nat (a - va)) p 0
                               else uread (memory s) d a).
Proof.
  intros V U Hva Hend Hu.
  destruct (wp_total (copyout c d va p) (λ r s', r = 0 ∧ wrote kend c s d va p l s') s) as (r & s' & E & -> & [W1 _ W3 W4 _]).
  - apply (wp_copyout_loop kend c d l); [done..|]. auto.
  - by exists s'.
Qed.

Lemma copyout_writes_witness :
  ∃ s', copyout 0 dir0 4090 [1; 2; 3; 4] vm1 = Ok 0 s' ∧ uread (memory s') dir0 4092 = 3.
Proof.
  destruct vm1_grown as [l G]. destruct (gr_new _ _ _ _ _ _ _ _ _ G 0) as (v & _ & _ & Ev & _); [lia|].
  assert (Hp : ∀ a, 0 <= a < 4096 → usable (memory vm1) dir0 (a / 4096)).
  { intros a Ha. rewrite Z.div_small by exact Ha. unfold usable. rewrite Ev. split; [apply pte_of_present|].
    unfold pte_of. rewrite <-Z.lor_assoc. apply has_lor. reflexivity. }
  destruct (copyout_writes demo_end 0 vm1 dir0 l 4090 [1; 2; 3; 4]) as (s' & E & _ & _ & R).
  - apply G.
  - apply G.
  - lia.
  - unfold KERNBASE. cbn. lia.
  - intros a Ha. cbn in Ha. apply Hp. lia.
  - exists s'. split; [exact E|]. rewrite R; [reflexivity|unfold KERNBASE; lia|]. apply (Hp 4092). lia.
Defined.

(** allocuvm does not test the result of mappages: with a single free page it
    reports success and the page it was asked for is not mapped. *)
Theorem allocuvm_unmapped :
  ∃ s', allocuvm demo_end 0 dir0 0 4096 (vm0 1) = Ok 4096 s' ∧ entry (memory s') dir0 0 = 0.
Proof.
  assert (H : match allocuvm demo_end 0 dir0 0 4096 (vm0 1) with
    | Ok r s' => (r, entry (memory s') dir0 0) | _ => (0, 1) end = (4096, 0)) by (vm_compute; reflexivity).
  destruct (allocuvm demo_end 0 dir0 0 4096 (vm0 1)) as [r s'| | |]; [|discriminate..].
  injection H as -> H. by exists s'.
Qed.
End VmProps.
