(* ===== verification/Seg.v ===== *)
(** * Segments, task state and interrupt gates (mmu.h, seginit to switchuvm of vm.c, tvinit of trap.c)

    The kernel describes its segments, its stack for interrupts and its
    interrupt handlers to the CPU in tables of bit fields.  A structure of bit
    fields is a list of values and widths, packed from the low bits on; the CPU's
    reading of the words is written with the positions of its manual, so that
    the two sides are stated independently of each other.

    The state has the words of the array [cpus] and of the table [idt], the
    registers of the CPU that the code loads (for segment registers also the
    descriptor that the CPU caches when it loads them), and the state of the page
    allocator, which holds the interrupt nesting too. *)

From S2P Require Import Prelude Spinlock Kalloc Vm.
Local Open Scope Z_scope.

Module Seg.

(** ** Bit fields *)

Fixpoint pack (fs : list (Z * Z)) : Z :=
  match fs with [] => 0 | (v, w) :: fs => v + 2 ^ w * pack fs end.
Definition slice (lo w z : Z) : Z := z / 2 ^ lo mod 2 ^ w.

Record segdesc := mksegdesc {
  lim_15_0 : Z; base_15_0 : Z; base_23_16 : Z; type : Z; s : Z; dpl : Z; p : Z; lim_19_16 : Z; avl : Z; rsv1 : Z; db : Z; g : Z; base_31_24 : Z
}.
Definition seg_words (d : segdesc) : Z * Z :=
  (pack [(lim_15_0 d, 16); (base_15_0 d, 16)],
   pack [(base_23_16 d, 8); (type d, 4); (s d, 1); (dpl d, 2); (p d, 1); (lim_19_16 d, 4); (avl d, 1); (rsv1 d, 1); (db d, 1); (g d, 1); (base_31_24 d, 8)]).

Definition SEG (type base lim dpl : Z) : segdesc :=
  mksegdesc (Z.land (Z.shiftr lim 12) 0xffff) (Z.land base 0xffff) (Z.land (Z.shiftr base 16) 0xff) type 1 dpl 1
    (Z.shiftr lim 28) 0 0 1 1 (Z.shiftr base 24).
Definition SEG16 (type base lim dpl : Z) : segdesc :=
  mksegdesc (Z.land lim 0xffff) (Z.land base 0xffff) (Z.land (Z.shiftr base 16) 0xff) type 1 dpl 1
    (Z.shiftr lim 16) 0 0 1 0 (Z.shiftr base 24).

Record gatedesc := mkgatedesc {
  off_15_0 : Z; cs : Z; args : Z; g_rsv1 : Z; g_type : Z; g_s : Z; g_dpl : Z; g_p : Z; off_31_16 : Z
}.
Definition gate_words (d : gatedesc) : Z * Z :=
  (pack [(off_15_0 d, 16); (cs d, 16)],
   pack [(args d, 5); (g_rsv1 d, 3); (g_type d, 4); (g_s d, 1); (g_dpl d, 2); (g_p d, 1); (off_31_16 d, 16)]).

Definition SEG_KCODE : Z := 1.
Definition SEG_KDATA : Z := 2.
Definition SEG_KCPU : Z := 3.
Definition SEG_UCODE : Z := 4.
Definition SEG_UDATA : Z := 5.
Definition SEG_TSS : Z := 6.
Definition NSEGS : Z := 7.
Definition DPL_USER : Z := 0x3.
Definition STA_X : Z := 0x8.
Definition STA_W : Z := 0x2.
Definition STA_R : Z := 0x2.
Definition STS_T32A : Z := 0x9.
Definition STS_IG32 : Z := 0xE.
Definition STS_TG32 : Z := 0xF.
Definition T_SYSCALL : Z := 64.
Definition KSTACKSIZE : Z := 4096.

Definition SETGATE (istrap : bool) (sel off d : Z) : gatedesc :=
  mkgatedesc (Z.land off 0xffff) sel 0 0 (if istrap then STS_TG32 else STS_IG32) 0 d 1 (Z.shiftr off 16).

(** ** The CPU's reading of the tables *)

Record segment := mksegment { sg_base : Z; sg_limit : Z; sg_type : Z; sg_app : Z; sg_dpl : Z; sg_present : Z; sg_big : Z }.
Definition decode_seg (lo hi : Z) : segment :=
  let lim := slice 0 16 lo + 2 ^ 16 * slice 16 4 hi in
  mksegment (slice 16 16 lo + 2 ^ 16 * slice 0 8 hi + 2 ^ 24 * slice 24 8 hi)
    (if slice 23 1 hi =? 1 then lim * 4096 + 4095 else lim) (slice 8 4 hi) (slice 12 1 hi) (slice 13 2 hi) (slice 15 1 hi) (slice 22 1 hi).
Record gate := mkgate { gt_off : Z; gt_sel : Z; gt_type : Z; gt_app : Z; gt_dpl : Z; gt_present : Z }.
Definition decode_gate (lo hi : Z) : gate :=
  mkgate (slice 0 16 lo + 2 ^ 16 * slice 16 16 hi) (slice 16 16 lo) (slice 8 4 hi) (slice 12 1 hi) (slice 13 2 hi) (slice 15 1 hi).

Record hst := mkhst {
  km : Kalloc.kst; words : Z → Z; kpgdir : Z;
  gdtr : Z * Z; idtr : Z * Z; gs : option segment; tr : option segment; cr3 : Z
}.
Definition put_km (k : Kalloc.kst) (x : hst) : hst := mkhst k (words x) (kpgdir x) (gdtr x) (idtr x) (gs x) (tr x) (cr3 x).
Definition put_words (m : Z → Z) (x : hst) : hst := mkhst (km x) m (kpgdir x) (gdtr x) (idtr x) (gs x) (tr x) (cr3 x).
Definition put_kpgdir (a : Z) (x : hst) : hst := mkhst (km x) (words x) a (gdtr x) (idtr x) (gs x) (tr x) (cr3 x).
Definition put_gdtr (r : Z * Z) (x : hst) : hst := mkhst (km x) (words x) (kpgdir x) r (idtr x) (gs x) (tr x) (cr3 x).
Definition put_idtr (r : Z * Z) (x : hst) : hst := mkhst (km x) (words x) (kpgdir x) (gdtr x) r (gs x) (tr x) (cr3 x).
Definition put_gs (d : segment) (x : hst) : hst := mkhst (km x) (words x) (kpgdir x) (gdtr x) (idtr x) (Some d) (tr x) (cr3 x).
Definition put_tr (d : segment) (x : hst) : hst := mkhst (km x) (words x) (kpgdir x) (gdtr x) (idtr x) (gs x) (Some d) (cr3 x).
Definition put_cr3 (a : Z) (x : hst) : hst := mkhst (km x) (words x) (kpgdir x) (gdtr x) (idtr x) (gs x) (tr x) a.

Definition st (a v : Z) : M hst unit := modify (λ x, put_words (<[a := v]> (words x)) x).
Definition put_desc (a : Z) (w : Z * Z) : M hst unit := st a w.1;; st (a + 4) w.2.

(** The descriptor that a selector names, in the table of [gdtr] (its address and
    limit); a selector past the limit faults. *)
Definition descriptor (sel : Z) (x : hst) : option segment :=
  let '(base, limit) := gdtr x in let o := 8 * (sel / 8) in
  if o + 7 <=? limit then Some (decode_seg (words x (base + o)) (words x (base + o + 4))) else None.
(** The three half words that [lgdt] and [lidt] take. *)
Definition pseudo (a size : Z) : Z * Z := (u16 a + 65536 * u16 (Z.shiftr a 16), u16 (size - 1)).
Definition lgdt (a size : Z) : M hst unit := modify (put_gdtr (pseudo a size)).
Definition lidt (a size : Z) : M hst unit := modify (put_idtr (pseudo a size)).
Definition loadgs (v : Z) : M hst unit :=
  d ← gets (descriptor v);
  match d with
  | Some d => if (sg_app d =? 1) && (sg_present d =? 1) then modify (put_gs d) else fault "segment"
  | None => fault "segment"
  end.
(** [ltr] takes an available 32-bit task state and marks it busy in the table. *)
Definition ltr (sel : Z) : M hst unit :=
  d ← gets (descriptor sel);
  match d with
  | Some d =>
      if (sg_app d =? 0) && (sg_type d =? STS_T32A) && (sg_present d =? 1) then
        b ← gets (λ x, fst (gdtr x) + 8 * (sel / 8) + 4);
        w ← gets (λ x, words x b);
        st b (w + 2 ^ 9);;
        modify (put_tr d)
      else fault "task state"
  | None => fault "task state"
  end.
Definition lcr3 (v : Z) : M hst unit := modify (put_cr3 v).
(** A word of the segment of %gs. *)
Definition gs_addr (off : Z) : M hst Z :=
  d ← gets gs;
  d ← deref d;
  if off + 3 <=? sg_limit d then mret (u32 (sg_base d + off)) else fault "segment limit".

(** ** The code *)

Section code.
(** The addresses of the arrays [cpus] and [idt], the entry points of vectors.S,
    the field [kstack] of a process, the linker's symbol [data] and the number of
    the CPU. *)
Context (cpus idt : Z) (vectors kstack : Z → Z) (kdata : Z) (c : nat).

(** The offsets in struct cpu and struct taskstate; see [layout_right]. *)
Definition SZ_CPU : Z := 188.
Definition SZ_TS : Z := 104.
Definition cpu_ts (a : Z) : Z := a + 8.
Definition cpu_gdt (a : Z) : Z := a + 112.
Definition cpu_cpu (a : Z) : Z := a + 180.
Definition ts_esp0 (a : Z) : Z := a + 4.
Definition ts_ss0 (a : Z) : Z := a + 8.

Definition seginit : M hst unit :=
  let a := cpus + Z.of_nat c * SZ_CPU in
  put_desc (cpu_gdt a + 8 * SEG_KCODE) (seg_words (SEG (Z.lor STA_X STA_R) 0 0xffffffff 0));;
  put_desc (cpu_gdt a + 8 * SEG_KDATA) (seg_words (SEG STA_W 0 0xffffffff 0));;
  put_desc (cpu_gdt a + 8 * SEG_UCODE) (seg_words (SEG (Z.lor STA_X STA_R) 0 0xffffffff DPL_USER));;
  put_desc (cpu_gdt a + 8 * SEG_UDATA) (seg_words (SEG STA_W 0 0xffffffff DPL_USER));;
  put_desc (cpu_gdt a + 8 * SEG_KCPU) (seg_words (SEG STA_W (cpu_cpu a) 8 0));;
  lgdt (cpu_gdt a) (8 * NSEGS);;
  loadgs (Z.shiftl SEG_KCPU 3);;
  x ← gs_addr 0;
  st x a;;
  x ← gs_addr 4;
  st x 0.

Definition switchkvm : M hst unit :=
  a ← gets kpgdir;
  lcr3 (Vm.v2p a).
Definition kvmalloc : M hst unit :=
  a ← zoom km put_km (Vm.setupkvm kdata c);
  modify (put_kpgdir (default 0 a));;
  switchkvm.

(** The CPU-local variables [cpu] and [proc]. *)
Definition cpu_local (off : Z) : M hst Z :=
  x ← gs_addr off;
  gets (λ m, words m x).
Definition onls {A} (m : M Spinlock.lstate A) : M hst A := zoom km put_km (zoom Kalloc.ls Kalloc.put_ls m).
Definition switchuvm (pgdir : Z) : M hst unit :=
  onls (Spinlock.pushcli c);;
  a ← cpu_local 0;
  put_desc (cpu_gdt a + 8 * SEG_TSS) (seg_words (SEG16 STS_T32A (cpu_ts a) (SZ_TS - 1) 0));;
  a ← cpu_local 0;
  w ← gets (λ x, words x (cpu_gdt a + 8 * SEG_TSS + 4));
  st (cpu_gdt a + 8 * SEG_TSS + 4) (w - 2 ^ 12 * slice 12 1 w);;
  a ← cpu_local 0;
  w ← gets (λ x, words x (ts_ss0 (cpu_ts a)));
  st (ts_ss0 (cpu_ts a)) (2 ^ 16 * slice 16 16 w + Z.shiftl SEG_KDATA 3);;
  a ← cpu_local 0;
  pr ← cpu_local 4;
  (if pr =? 0 then fault "null pointer" else st (ts_esp0 (cpu_ts a)) (u32 (kstack pr + KSTACKSIZE)));;
  ltr (Z.shiftl SEG_TSS 3);;
  (if pgdir =? 0 then panic "switchuvm: no pgdir" else lcr3 (Vm.v2p pgdir));;
  onls (Spinlock.popcli c).

Fixpoint set_gates (n : nat) (i : Z) : M hst unit :=
  match n with
  | O => mret tt
  | S n => put_desc (idt + 8 * i) (gate_words (SETGATE false (Z.shiftl SEG_KCODE 3) (vectors i) 0));; set_gates n (i + 1)
  end.
Definition tvinit : M hst unit :=
  set_gates 256 0;;
  put_desc (idt + 8 * T_SYSCALL) (gate_words (SETGATE true (Z.shiftl SEG_KCODE 3) (vectors T_SYSCALL) DPL_USER)).
Definition idtinit : M hst unit := lidt idt (8 * 256).
End code.

(** ** Layout of the structures *)

(** The fields of a structure with their size and alignment. *)
Definition cstruct : Type := list (string * Z * Z).
Definition aligned (o a : Z) : Z := (o + a - 1) / a * a.
Fixpoint offset (f : string) (o : Z) (l : cstruct) : option Z :=
  match l with
  | [] => None
  | (n, size, al) :: l => let o := aligned o al in if decide (n = f) then Some o else offset f (o + size) l
  end.
Definition size_of (l : cstruct) : Z := aligned (foldl (λ o '(_, size, al), aligned o al + size) 0 l) 4.
Definition taskstate : cstruct :=
  [("link", 4, 4); ("esp0", 4, 4); ("ss0", 2, 2); ("padding1", 2, 2); ("esp1", 4, 4); ("ss1", 2, 2); ("padding2", 2, 2);
   ("esp2", 4, 4); ("ss2", 2, 2); ("padding3", 2, 2); ("cr3", 4, 4); ("eip", 4, 4); ("eflags", 4, 4); ("eax", 4, 4);
   ("ecx", 4, 4); ("edx", 4, 4); ("ebx", 4, 4); ("esp", 4, 4); ("ebp", 4, 4); ("esi", 4, 4); ("edi", 4, 4);
   ("es", 2, 2); ("padding4", 2, 2); ("cs", 2, 2); ("padding5", 2, 2); ("ss", 2, 2); ("padding6", 2, 2); ("ds", 2, 2);
   ("padding7", 2, 2); ("fs", 2, 2); ("padding8", 2, 2); ("gs", 2, 2); ("padding9", 2, 2); ("ldt", 2, 2);
   ("padding10", 2, 2); ("t", 2, 2); ("iomb", 2, 2)]%string.
Definition cpu : cstruct :=
  [("id", 1, 1); ("scheduler", 4, 4); ("ts", size_of taskstate, 4); ("gdt", 8 * NSEGS, 4); ("started", 4, 4); ("ncli", 4, 4);
   ("intena", 4, 4); ("cpu", 4, 4); ("proc", 4, 4)]%string.
Lemma layout_right : size_of taskstate = SZ_TS ∧ size_of cpu = SZ_CPU ∧
  (∀ a, offset "esp0" 0 taskstate = Some (ts_esp0 a - a)) ∧ (∀ a, offset "ss0" 0 taskstate = Some (ts_ss0 a - a)) ∧
  (∀ a, offset "ts" 0 cpu = Some (cpu_ts a - a)) ∧ (∀ a, offset "gdt" 0 cpu = Some (cpu_gdt a - a)) ∧
  (∀ a, offset "cpu" 0 cpu = Some (cpu_cpu a - a)) ∧ (∀ a, offset "proc" 0 cpu = Some (cpu_cpu a + 4 - a)).
Proof.
  repeat split; try reflexivity; intros a; unfold ts_esp0, ts_ss0, cpu_ts, cpu_gdt, cpu_cpu.
  all: match goal with |- ?x = Some ?y => let r := eval vm_compute in x in change (r = Some y) end; f_equal; lia.
Qed.

(** ** Bit fields are read as they are written *)

Definition fits (f : Z * Z) : Prop := 0 <= f.2 ∧ 0 <= f.1 < 2 ^ f.2.
Definition width (fs : list (Z * Z)) : Z := foldr (λ f n, f.2 + n) 0 fs.
Lemma width_nonneg fs : Forall fits fs → 0 <= width fs.
Proof. induction 1 as [|[v w] fs [Hw _] _ IH]; [done|]. unfold width in *. cbn [foldr fst snd] in *. lia. Qed.
Lemma slice_pack fs k v w : Forall fits fs → fs !! k = Some (v, w) → slice (width (take k fs)) w (pack fs) = v.
Proof.
  intros H. revert k. induction H as [|[v0 w0] fs [Hw Hv] Hfs IH]; intros [|k] Hk; [done..| |]; cbn [fst snd] in *.
  - injection Hk as -> ->. unfold slice. cbn [take width foldr pack]. rewrite Z.pow_0_r, Z.div_1_r, (Z.mul_comm (2 ^ w)), Z.mod_add by lia. by apply Z.mod_small.
  - etransitivity; [|exact (IH k Hk)]. pose proof (width_nonneg (take k fs) (Forall_take _ k fs Hfs)).
    unfold slice. cbn [take width foldr pack fst snd]. fold (width (take k fs)). rewrite Z.pow_add_r, <-Z.div_div by lia.
    f_equal. f_equal. rewrite Z.add_comm, Z.mul_comm, Z.div_add_l by lia. rewrite (Z.div_small v0) by done. lia.
Qed.

Lemma slice_at fs k lo v w : Forall fits fs → fs !! k = Some (v, w) → width (take k fs) = lo → slice lo w (pack fs) = v.
Proof. intros H Hk <-. by apply slice_pack. Qed.

Definition desc_ok (d : segdesc) : Prop :=
  Forall fits [(lim_15_0 d, 16); (base_15_0 d, 16)] ∧
  Forall fits [(base_23_16 d, 8); (type d, 4); (s d, 1); (dpl d, 2); (p d, 1); (lim_19_16 d, 4); (avl d, 1); (rsv1 d, 1); (db d, 1); (g d, 1); (base_31_24 d, 8)].
Lemma decode_desc d : desc_ok d → decode_seg (seg_words d).1 (seg_words d).2 =
  mksegment (base_15_0 d + 2 ^ 16 * base_23_16 d + 2 ^ 24 * base_31_24 d)
    (if g d =? 1 then (lim_15_0 d + 2 ^ 16 * lim_19_16 d) * 4096 + 4095 else lim_15_0 d + 2 ^ 16 * lim_19_16 d) (type d) (s d) (dpl d) (p d) (db d).
Proof.
  intros [Hl Hh]. unfold decode_seg, seg_words. cbn [fst snd].
  rewrite (slice_at _ 0 0 _ _ Hl eq_refl eq_refl), (slice_at _ 1 16 _ _ Hl eq_refl eq_refl), (slice_at _ 0 0 _ _ Hh eq_refl eq_refl).
  rewrite (slice_at _ 1 8 _ _ Hh eq_refl eq_refl), (slice_at _ 2 12 _ _ Hh eq_refl eq_refl), (slice_at _ 3 13 _ _ Hh eq_refl eq_refl).
  rewrite (slice_at _ 4 15 _ _ Hh eq_refl eq_refl), (slice_at _ 5 16 _ _ Hh eq_refl eq_refl), (slice_at _ 8 22 _ _ Hh eq_refl eq_refl).
  by rewrite (slice_at _ 9 23 _ _ Hh eq_refl eq_refl), (slice_at _ 10 24 _ _ Hh eq_refl eq_refl).
Qed.

Lemma land_mod z n : 0 <= n → Z.land z (2 ^ n - 1) = z mod 2 ^ n.
Proof. intros Hn. rewrite <-Z.land_ones, Z.ones_equiv by lia. done. Qed.
Ltac fields := repeat (apply Forall_cons; split; [split; cbn [fst snd]; [lia|]|]); try apply Forall_nil.
(** The pieces of a base address. *)
Lemma base_pieces base : 0 <= base < w32 → 0 <= Z.land base 0xffff < 2 ^ 16 ∧ 0 <= Z.land (Z.shiftr base 16) 0xff < 2 ^ 8 ∧ 0 <= Z.shiftr base 24 < 2 ^ 8 ∧
  Z.land base 0xffff + 2 ^ 16 * Z.land (Z.shiftr base 16) 0xff + 2 ^ 24 * Z.shiftr base 24 = base.
Proof.
  intros Hb. unfold w32 in Hb. change 0xffff with (2 ^ 16 - 1). change 0xff with (2 ^ 8 - 1). rewrite (land_mod base 16), (land_mod _ 8), !Z.shiftr_div_pow2 by lia.
  change (2 ^ 16) with 65536. change (2 ^ 8) with 256. change (2 ^ 24) with 16777216. Z.to_euclidean_division_equations; lia.
Qed.

Lemma decode_SEG ty base lim d : 0 <= ty < 16 → 0 <= base < w32 → 0 <= lim < w32 → 0 <= d < 4 →
  decode_seg (seg_words (SEG ty base lim d)).1 (seg_words (SEG ty base lim d)).2 = mksegment base (lim / 4096 * 4096 + 4095) ty 1 d 1 1.
Proof.
  intros Ht Hb Hl Hd. destruct (base_pieces base Hb) as (B1 & B2 & B3 & B). unfold w32 in Hl.
  assert (L1 : 0 <= Z.land (Z.shiftr lim 12) 0xffff < 2 ^ 16 ∧ 0 <= Z.shiftr lim 28 < 2 ^ 4 ∧
    Z.land (Z.shiftr lim 12) 0xffff + 2 ^ 16 * Z.shiftr lim 28 = lim / 4096).
  { change 0xffff with (2 ^ 16 - 1). rewrite (land_mod _ 16), !Z.shiftr_div_pow2 by lia. change (2 ^ 16) with 65536. change (2 ^ 4) with 16. change (2 ^ 12) with 4096. change (2 ^ 28) with 268435456.
    Z.to_euclidean_division_equations; lia. }
  destruct L1 as (L1 & L2 & L). rewrite decode_desc.
  - unfold SEG. cbn [lim_15_0 base_15_0 base_23_16 type s dpl p lim_19_16 db g base_31_24]. rewrite B, L. reflexivity.
  - split; unfold SEG; cbn [lim_15_0 base_15_0 base_23_16 type s dpl p lim_19_16 avl rsv1 db g base_31_24]; fields; lia.
Qed.

(** The descriptor of the task state, whose bit [s] is cleared afterwards. *)
Definition set_s (v : Z) (d : segdesc) : segdesc :=
  mksegdesc (lim_15_0 d) (base_15_0 d) (base_23_16 d) (type d) v (dpl d) (p d) (lim_19_16 d) (avl d) (rsv1 d) (db d) (g d) (base_31_24 d).
Lemma SEG16_ok ty base lim d : 0 <= ty < 16 → 0 <= base < w32 → 0 <= lim < 65536 → 0 <= d < 4 → desc_ok (SEG16 ty base lim d).
Proof.
  intros Ht Hb Hl Hd. destruct (base_pieces base Hb) as (B1 & B2 & B3 & _).
  assert (L1 : Z.land lim 0xffff = lim) by (change 0xffff with (2 ^ 16 - 1); rewrite land_mod by lia; by apply Z.mod_small).
  assert (L2 : Z.shiftr lim 16 = 0) by (rewrite Z.shiftr_div_pow2 by lia; by apply Z.div_small).
  split; unfold SEG16; cbn [lim_15_0 base_15_0 base_23_16 type s dpl p lim_19_16 avl rsv1 db g base_31_24]; rewrite ?L1, ?L2; fields; lia.
Qed.
Lemma clear_s d : desc_ok d → (seg_words d).2 - 2 ^ 12 * slice 12 1 (seg_words d).2 = (seg_words (set_s 0 d)).2.
Proof.
  intros [_ Hh]. unfold seg_words at 2. cbn [snd]. rewrite (slice_at _ 2 12 _ _ Hh eq_refl eq_refl).
  unfold seg_words. cbn [snd pack set_s base_23_16 type s dpl p lim_19_16 avl rsv1 db g base_31_24]. lia.
Qed.
Lemma decode_TSS base lim : 0 <= base < w32 → 0 <= lim < 65536 → let d := set_s 0 (SEG16 STS_T32A base lim 0) in
  decode_seg (seg_words d).1 (seg_words d).2 = mksegment base lim STS_T32A 0 0 1 1.
Proof.
  intros Hb Hl d. pose proof (SEG16_ok STS_T32A base lim 0 ltac:(unfold STS_T32A; lia) Hb Hl ltac:(lia)) as [H1 H2].
  destruct (base_pieces base Hb) as (B1 & B2 & B3 & B). rewrite (decode_desc d); unfold d.
  - cbn [set_s SEG16 lim_15_0 base_15_0 base_23_16 type s dpl p lim_19_16 db g base_31_24]. rewrite B.
    change 0xffff with (2 ^ 16 - 1). rewrite land_mod, (Z.mod_small lim), Z.shiftr_div_pow2, (Z.div_small lim) by lia.
    change (0 =? 1) with false. cbn iota. f_equal. lia.
  - split; [done|]. revert H2. rewrite !Forall_cons. cbn [set_s base_23_16 type s dpl p lim_19_16 avl rsv1 db g base_31_24].
    intros (? & ? & _ & H2). split; [done|]. split; [done|]. split; [split; cbn; lia|done].
Qed.

Lemma pseudo_address a size : 0 <= a < w32 → pseudo a size = (a, u16 (size - 1)).
Proof.
  intros Ha. unfold pseudo, u16, w32 in *. rewrite Z.shiftr_div_pow2 by lia. change (2 ^ 16) with 65536. f_equal. Z.to_euclidean_division_equations; lia.
Qed.

(** ** The kernel's segments *)

Section view.
Context (cpus : Z) (c : nat) `{mode : Mode}.
Definition this_cpu : Z := cpus + Z.of_nat c * SZ_CPU.

Definition flat (ty d : Z) : segment := mksegment 0 (w32 - 1) ty 1 d 1 1.
Definition local_seg : segment := mksegment (cpu_cpu this_cpu) 4095 STA_W 1 0 1 1.
(** What the CPU finds after [seginit]: four flat segments, and its own variables
    behind %gs. *)
Record ready (x : hst) : Prop := {
  r_gdtr : gdtr x = (cpu_gdt this_cpu, 55);
  r_kcode : descriptor (Z.shiftl SEG_KCODE 3) x = Some (flat (Z.lor STA_X STA_R) 0);
  r_kdata : descriptor (Z.shiftl SEG_KDATA 3) x = Some (flat STA_W 0);
  r_ucode : descriptor (Z.lor (Z.shiftl SEG_UCODE 3) DPL_USER) x = Some (flat (Z.lor STA_X STA_R) DPL_USER);
  r_udata : descriptor (Z.lor (Z.shiftl SEG_UDATA 3) DPL_USER) x = Some (flat STA_W DPL_USER);
  r_gs : gs x = Some local_seg;
  r_cpu : words x (cpu_cpu this_cpu) = this_cpu
}.

Lemma wp_put_desc a w x (Q : unit → hst → Prop) : Q tt (put_words (<[a + 4 := w.2]> (<[a := w.1]> (words x))) x) → wp (put_desc a w) Q x.
Proof. intros HQ. by apply wp_bind, wp_modify, wp_modify. Qed.
Lemma wp_gs_addr off x (Q : Z → hst → Prop) : gs x = Some local_seg → 0 <= off <= 4 → 0 <= cpus → cpus + 8 * SZ_CPU <= w32 → (c < 8)%nat →
  Q (cpu_cpu this_cpu + off) x → wp (gs_addr off) Q x.
Proof.
  intros Hg Ho H0 H1 Hc HQ. unfold gs_addr. apply wp_bind, wp_gets. rewrite Hg. apply wp_bind, wp_deref. cbn [sg_limit sg_base local_seg].
  rewrite (proj2 (Z.leb_le _ _)) by lia. apply wp_ret. rewrite u32_small; [done|]. unfold this_cpu, cpu_cpu, SZ_CPU in *. lia.
Qed.
Lemma wp_cpu_local off x (Q : Z → hst → Prop) : gs x = Some local_seg → 0 <= off <= 4 → 0 <= cpus → cpus + 8 * SZ_CPU <= w32 → (c < 8)%nat →
  Q (words x (cpu_cpu this_cpu + off)) x → wp (cpu_local off) Q x.
Proof. intros. by apply wp_bind, wp_gs_addr, wp_gets. Qed.

(** Words at other addresses. *)
Ltac address := unfold cpu_gdt, cpu_cpu, cpu_ts, ts_esp0, ts_ss0, SEG_KCODE, SEG_KDATA, SEG_KCPU, SEG_UCODE, SEG_UDATA, SEG_TSS; lia.
Ltac at_words := repeat first [rewrite fn_lookup_insert | rewrite fn_lookup_insert_ne by address].
Lemma descriptor_at x i lo hi : gdtr x = (cpu_gdt this_cpu, 55) → 0 <= i < 7 → words x (cpu_gdt this_cpu + 8 * i) = lo →
  words x (cpu_gdt this_cpu + 8 * i + 4) = hi → ∀ k, 0 <= k < 8 → descriptor (8 * i + k) x = Some (decode_seg lo hi).
Proof.
  intros Hg Hi <- <- k Hk. unfold descriptor. rewrite Hg. assert ((8 * i + k) / 8 = i) as -> by (Z.to_euclidean_division_equations; lia).
  by rewrite (proj2 (Z.leb_le _ _)) by lia.
Qed.

Lemma stored_desc x i ty base lim d k : gdtr x = (cpu_gdt this_cpu, 55) → 0 <= i < 7 → 0 <= k < 8 → 0 <= ty < 16 → 0 <= base < w32 → 0 <= lim < w32 → 0 <= d < 4 →
  words x (cpu_gdt this_cpu + 8 * i) = (seg_words (SEG ty base lim d)).1 → words x (cpu_gdt this_cpu + 8 * i + 4) = (seg_words (SEG ty base lim d)).2 →
  descriptor (8 * i + k) x = Some (mksegment base (lim / 4096 * 4096 + 4095) ty 1 d 1 1).
Proof. intros Hg Hi Hk Ht Hb Hl Hd H1 H2. rewrite (descriptor_at x i _ _ Hg Hi H1 H2 k Hk). by rewrite decode_SEG. Qed.

Lemma wp_seginit x (Q : unit → hst → Prop) : 0 <= cpus → cpus + 8 * SZ_CPU <= w32 → (c < 8)%nat →
  (∀ x', ready x' → words x' (cpu_cpu this_cpu + 4) = 0 → km x' = km x → kpgdir x' = kpgdir x → idtr x' = idtr x → tr x' = tr x → cr3 x' = cr3 x → Q tt x') →
  wp (seginit cpus c) Q x.
Proof.
  intros H0 H1 Hc HQ. assert (Hr : 0 <= this_cpu ∧ this_cpu + SZ_CPU <= w32) by (unfold this_cpu, SZ_CPU in *; lia).
  unfold seginit. fold this_cpu. do 5 (apply wp_bind, wp_put_desc). apply wp_bind, wp_modify.
  rewrite pseudo_address by (unfold cpu_gdt, SZ_CPU in *; lia). change (u16 (8 * NSEGS - 1)) with 55.
  set (x5 := put_gdtr _ _). assert (Hx : ∀ m y, words y = m → gdtr y = gdtr x5 → m = <[cpu_cpu this_cpu + 4 := 0]> (<[cpu_cpu this_cpu + 0 := this_cpu]> (words x5)) ∨ m = words x5 →
    descriptor (Z.shiftl SEG_KCODE 3) y = Some (flat (Z.lor STA_X STA_R) 0) ∧ descriptor (Z.shiftl SEG_KDATA 3) y = Some (flat STA_W 0) ∧
    descriptor (Z.lor (Z.shiftl SEG_UCODE 3) DPL_USER) y = Some (flat (Z.lor STA_X STA_R) DPL_USER) ∧
    descriptor (Z.lor (Z.shiftl SEG_UDATA 3) DPL_USER) y = Some (flat STA_W DPL_USER) ∧ descriptor (Z.shiftl SEG_KCPU 3) y = Some local_seg).
  { intros m y Hm Hg Hw. split; [|split; [|split; [|split]]].
    - apply (stored_desc y SEG_KCODE _ 0 0xffffffff 0 0); try done; rewrite Hm; destruct Hw as [-> | ->]; cbn [words put_words put_gdtr x5]; by at_words.
    - apply (stored_desc y SEG_KDATA _ 0 0xffffffff 0 0); try done; rewrite Hm; destruct Hw as [-> | ->]; cbn [words put_words put_gdtr x5]; by at_words.
    - apply (stored_desc y SEG_UCODE _ 0 0xffffffff 3 3); try done; rewrite Hm; destruct Hw as [-> | ->]; cbn [words put_words put_gdtr x5]; by at_words.
    - apply (stored_desc y SEG_UDATA _ 0 0xffffffff 3 3); try done; rewrite Hm; destruct Hw as [-> | ->]; cbn [words put_words put_gdtr x5]; by at_words.
    - apply (stored_desc y SEG_KCPU STA_W (cpu_cpu this_cpu) 8 0 0); try done; [unfold cpu_cpu, SZ_CPU in *; lia|..];
        rewrite Hm; destruct Hw as [-> | ->]; cbn [words put_words put_gdtr x5]; by at_words. }
  apply wp_bind. unfold loadgs. apply wp_bind, wp_gets. destruct (Hx (words x5) x5) as (_ & _ & _ & _ & ->); [done|done|by right|].
  cbn [sg_app sg_present local_seg]. change ((1 =? 1) && (1 =? 1)) with true. cbv iota. apply wp_modify.
  apply wp_bind, wp_gs_addr; [done|lia|done..|]. apply wp_bind, wp_modify. apply wp_bind, wp_gs_addr; [done|lia|done..|]. apply wp_modify.
  apply HQ; try done.
  - destruct (Hx (<[cpu_cpu this_cpu + 4 := 0]> (<[cpu_cpu this_cpu + 0 := this_cpu]> (words x5)))
      (put_words (<[cpu_cpu this_cpu + 4 := 0]> (<[cpu_cpu this_cpu + 0 := this_cpu]> (words x5))) (put_gs local_seg x5))) as (D1 & D2 & D3 & D4 & _); [done|done|by left|].
    constructor; try done. cbn [words put_words put_gs]. rewrite Z.add_0_r. by at_words.
  - cbn [words put_words put_gs]. by rewrite fn_lookup_insert.
Qed.

Lemma ready_frame x x' : ready x → gdtr x' = gdtr x → gs x' = gs x → words x' (cpu_cpu this_cpu) = words x (cpu_cpu this_cpu) →
  (∀ a, cpu_gdt this_cpu + 8 <= a < cpu_gdt this_cpu + 48 → words x' a = words x a) → ready x'.
Proof.
  intros [Hg D1 D2 D3 D4 Hs Hc] Eg Es Ec Ew.
  assert (Hd : ∀ sel, 8 <= sel < 48 → descriptor sel x' = descriptor sel x).
  { intros sel Hsel. unfold descriptor. rewrite Eg, Hg. rewrite !Ew by (Z.to_euclidean_division_equations; lia). done. }
  constructor; rewrite ?Hd, ?Eg, ?Es, ?Ec; try done; by vm_compute.
Qed.

Section switch.
Context (kstack : Z → Z).
(** The task state in use: its segment, the stack it gives the CPU for interrupts
    from user mode, and the address space. *)
Record switched (pgdir pr : Z) (x : hst) : Prop := {
  w_tr : tr x = Some (mksegment (cpu_ts this_cpu) (SZ_TS - 1) STS_T32A 0 0 1 1);
  w_esp0 : words x (ts_esp0 (cpu_ts this_cpu)) = u32 (kstack pr + KSTACKSIZE);
  w_ss0 : slice 0 16 (words x (ts_ss0 (cpu_ts this_cpu))) = Z.shiftl SEG_KDATA 3;
  w_cr3 : cr3 x = Vm.v2p pgdir;
  w_ready : ready x;
  w_proc : words x (cpu_cpu this_cpu + 4) = pr
}.
Definition me (x : hst) : Spinlock.cpu := Spinlock.cpus (Kalloc.ls (km x)) c.

Lemma low_half h v : 0 <= v < 65536 → slice 0 16 (2 ^ 16 * h + v) = v.
Proof. intros Hv. unfold slice. rewrite Z.pow_0_r, Z.div_1_r, Z.add_comm, Z.mul_comm, Z.mod_add by lia. by apply Z.mod_small. Qed.
Lemma nested (r : Spinlock.cpu) : 0 <= Spinlock.ncli r < 2147483647 → (Spinlock.ncli r = 0 ∨ Spinlock.fl_if r = false) →
  Spinlock.ncli (Spinlock.rel_cpu (Spinlock.acq_cpu r)) = Spinlock.ncli r ∧ Spinlock.fl_if (Spinlock.rel_cpu (Spinlock.acq_cpu r)) = Spinlock.fl_if r.
Proof.
  intros Hn Hif. unfold Spinlock.rel_cpu, Spinlock.acq_cpu. cbn [Spinlock.ncli Spinlock.fl_if Spinlock.intena].
  rewrite !i32_small by (rewrite ?i32_small; lia). replace (Spinlock.ncli r + 1 - 1) with (Spinlock.ncli r) by lia. split; [done|].
  destruct (Z.eqb_spec (Spinlock.ncli r) 0); [done|]. destruct Hif as [Hif | Hif]; [done|]. by rewrite Hif.
Qed.

Lemma wp_switchuvm pgdir pr x (Q : unit → hst → Prop) : 0 <= cpus → cpus + 8 * SZ_CPU <= w32 → (c < 8)%nat → ready x →
  words x (cpu_cpu this_cpu + 4) = pr → pr ≠ 0 → pgdir ≠ 0 → 0 <= Spinlock.ncli (me x) < 2147483647 →
  (Spinlock.ncli (me x) = 0 ∨ Spinlock.fl_if (me x) = false) →
  (∀ x', switched pgdir pr x' → Spinlock.ncli (me x') = Spinlock.ncli (me x) → Spinlock.fl_if (me x') = Spinlock.fl_if (me x) → Q tt x') →
  wp (switchuvm kstack c pgdir) Q x.
Proof.
  intros H0 H1 Hc Hr Hpr Hp0 Hpg Hn Hif HQ. assert (Hr' : 0 <= this_cpu ∧ this_cpu + SZ_CPU <= w32) by (unfold this_cpu, SZ_CPU in *; lia).
  unfold switchuvm. apply wp_bind, wp_zoom, wp_zoom, Spinlock.wp_pushcli. intros l1 L1 _ _ _. set (x1 := put_km _ x).
  assert (Hgs : gs x1 = Some local_seg) by apply Hr. pose proof (r_cpu _ Hr) as Hcpu.
  set (d := SEG16 STS_T32A (cpu_ts this_cpu) (SZ_TS - 1) 0).
  assert (Hok : desc_ok d) by (apply SEG16_ok; unfold STS_T32A, SZ_TS, cpu_ts, SZ_CPU in *; lia).
  apply wp_bind, wp_cpu_local; [done|lia|done..|]. rewrite Z.add_0_r. cbn [words put_km x1]. rewrite Hcpu. fold d.
  apply wp_bind, wp_put_desc, wp_bind, wp_cpu_local; [done|lia|done..|]. cbn [words put_words put_km x1]. rewrite Z.add_0_r. at_words. rewrite Hcpu.
  apply wp_bind, wp_gets. cbn [words put_words]. at_words. rewrite (clear_s d Hok). apply wp_bind, wp_modify.
  apply wp_bind, wp_cpu_local; [done|lia|done..|]. cbn [words put_words]. rewrite Z.add_0_r. at_words. rewrite Hcpu.
  apply wp_bind, wp_gets, wp_bind, wp_modify. apply wp_bind, wp_cpu_local; [done|lia|done..|]. cbn [words put_words]. rewrite Z.add_0_r. at_words. rewrite Hcpu.
  apply wp_bind, wp_cpu_local; [done|lia|done..|]. cbn [words put_words]. at_words. rewrite Hpr, (proj2 (Z.eqb_neq pr 0)) by done.
  apply wp_bind, wp_modify. set (x2 := put_words _ _).
  assert (Ed : descriptor (Z.shiftl SEG_TSS 3) x2 = Some (mksegment (cpu_ts this_cpu) (SZ_TS - 1) STS_T32A 0 0 1 1)).
  { change (Z.shiftl SEG_TSS 3) with (8 * SEG_TSS + 0). rewrite (descriptor_at x2 SEG_TSS (seg_words (set_s 0 d)).1 (seg_words (set_s 0 d)).2);
      [|apply Hr|unfold SEG_TSS; lia|unfold x2; cbn [words put_words]; by at_words..|lia].
    f_equal. apply decode_TSS; unfold cpu_ts, SZ_TS, SZ_CPU in *; lia. }
  apply wp_bind. unfold ltr. apply wp_bind, wp_gets. rewrite Ed. cbn [sg_app sg_type sg_present].
  change ((0 =? 0) && (STS_T32A =? STS_T32A) && (1 =? 1)) with true. cbv iota.
  apply wp_bind, wp_gets, wp_bind, wp_gets, wp_bind, wp_modify, wp_modify. rewrite (proj2 (Z.eqb_neq pgdir 0)) by done.
  change (gdtr x2) with (gdtr x). rewrite (r_gdtr _ Hr). cbn [fst]. change (8 * (Z.shiftl SEG_TSS 3 / 8)) with 48.
  apply wp_bind, wp_modify. apply wp_zoom, wp_zoom, Spinlock.wp_popcli; cbn [km put_cr3 put_tr put_words put_km x2 Kalloc.ls Kalloc.put_ls].
  - change (Spinlock.fl_if (Spinlock.cpus l1 c) = false). by rewrite L1.
  - change (1 <= Spinlock.ncli (Spinlock.cpus l1 c) < 2147483648). rewrite L1. cbn [Spinlock.acq_cpu Spinlock.ncli]. fold (me x). rewrite i32_small; lia.
  - intros l2 L2 _ _ _. apply HQ.
    + constructor; [done|..].
      * cbn [words put_km put_cr3 put_tr put_words]. unfold x2. cbn [words put_words]. at_words. done.
      * cbn [words put_km put_cr3 put_tr put_words]. unfold x2. cbn [words put_words]. at_words. by apply low_half.
      * done.
      * eapply (ready_frame x); try done; cbn [words put_km put_cr3 put_tr put_words]; unfold x2; cbn [words put_words]; [by at_words|].
        intros a Ha. unfold cpu_gdt in Ha. by at_words.
      * cbn [words put_km put_cr3 put_tr put_words]. unfold x2. cbn [words put_words]. by at_words.
    + change (Spinlock.ncli (Spinlock.cpus l2 c) = Spinlock.ncli (me x)). rewrite L2. change (Spinlock.ncli (Spinlock.rel_cpu (Spinlock.cpus l1 c)) = Spinlock.ncli (me x)). rewrite L1. by apply (nested (me x)).
    + change (Spinlock.fl_if (Spinlock.cpus l2 c) = Spinlock.fl_if (me x)). rewrite L2. change (Spinlock.fl_if (Spinlock.rel_cpu (Spinlock.cpus l1 c)) = Spinlock.fl_if (me x)). rewrite L1. by apply (nested (me x)).
Qed.
End switch.
End view.

(** ** The gates *)

Section gates.
Context (idt : Z) (vectors : Z → Z) `{mode : Mode}.

Lemma decode_SETGATE b sel off d : 0 <= sel < 65536 → 0 <= off < w32 → 0 <= d < 4 →
  decode_gate (gate_words (SETGATE b sel off d)).1 (gate_words (SETGATE b sel off d)).2 = mkgate off sel (if b then STS_TG32 else STS_IG32) 0 d 1.
Proof.
  intros Hs Ho Hd. assert (Hp : 0 <= Z.land off 0xffff < 2 ^ 16 ∧ 0 <= Z.shiftr off 16 < 2 ^ 16 ∧ Z.land off 0xffff + 2 ^ 16 * Z.shiftr off 16 = off).
  { change 0xffff with (2 ^ 16 - 1). rewrite land_mod, Z.shiftr_div_pow2 by lia. unfold w32 in Ho. change (2 ^ 16) with 65536. Z.to_euclidean_division_equations; lia. }
  destruct Hp as (P1 & P2 & P). unfold decode_gate, gate_words. cbn [fst snd SETGATE off_15_0 cs args g_rsv1 g_type g_s g_dpl g_p off_31_16].
  set (ty := if b then _ else _). assert (Ht : 0 <= ty < 16) by (unfold ty, STS_TG32, STS_IG32; destruct b; lia). clearbody ty.
  assert (Hl : Forall fits [(Z.land off 0xffff, 16); (sel, 16)]) by (fields; lia).
  assert (Hh : Forall fits [(0, 5); (0, 3); (ty, 4); (0, 1); (d, 2); (1, 1); (Z.shiftr off 16, 16)]) by (fields; lia).
  rewrite (slice_at _ 0 0 _ _ Hl eq_refl eq_refl), (slice_at _ 1 16 _ _ Hl eq_refl eq_refl), (slice_at _ 2 8 _ _ Hh eq_refl eq_refl).
  rewrite (slice_at _ 3 12 _ _ Hh eq_refl eq_refl), (slice_at _ 4 13 _ _ Hh eq_refl eq_refl), (slice_at _ 5 15 _ _ Hh eq_refl eq_refl).
  by rewrite (slice_at _ 6 16 _ _ Hh eq_refl eq_refl), P.
Qed.

Definition gate_at (m : Z → Z) (n : Z) : gate := decode_gate (m (idt + 8 * n)) (m (idt + 8 * n + 4)).
Definition handler (n : Z) : gate :=
  mkgate (vectors n) (Z.shiftl SEG_KCODE 3) (if n =? T_SYSCALL then STS_TG32 else STS_IG32) 0 (if n =? T_SYSCALL then DPL_USER else 0) 1.
Context (vectors_range : ∀ n, 0 <= vectors n < w32).
Lemma wp_set_gates n : ∀ i x (Q : unit → hst → Prop),
  (∀ m, (∀ k, i <= k < i + Z.of_nat n → gate_at m k = mkgate (vectors k) (Z.shiftl SEG_KCODE 3) STS_IG32 0 0 1) →
    (∀ k, k < i → gate_at m k = gate_at (words x) k) → Q tt (put_words m x)) →
  wp (set_gates idt vectors n i) Q x.
Proof.
  induction n as [|n IH]; intros i x Q HQ; cbn [set_gates].
  - apply wp_ret. specialize (HQ (words x)). destruct x. apply HQ; [intros k Hk; lia|done].
  - apply wp_bind, wp_put_desc. apply IH. intros m H1 H2. apply HQ.
    + intros k Hk. destruct (decide (k = i)) as [->|Hne]; [|apply H1; lia]. rewrite H2 by lia. unfold gate_at. cbn [words put_words].
      rewrite fn_lookup_insert, fn_lookup_insert_ne, fn_lookup_insert by lia. rewrite decode_SETGATE; [done|by vm_compute|apply vectors_range|lia].
    + intros k Hk. rewrite H2 by lia. unfold gate_at. cbn [words put_words]. by rewrite !fn_lookup_insert_ne by lia.
Qed.
Lemma wp_tvinit x (Q : unit → hst → Prop) : (∀ m, (∀ k, 0 <= k < 256 → gate_at m k = handler k) → Q tt (put_words m x)) → wp (tvinit idt vectors) Q x.
Proof.
  intros HQ. unfold tvinit. apply wp_bind, wp_set_gates. intros m H1 _. apply wp_put_desc. cbn [words put_words]. apply HQ. intros k Hk. unfold handler.
  destruct (Z.eqb_spec k T_SYSCALL) as [->|Hne].
  - unfold gate_at. rewrite fn_lookup_insert, fn_lookup_insert_ne, fn_lookup_insert by lia.
    rewrite decode_SETGATE; [done|by vm_compute|apply vectors_range|by vm_compute].
  - rewrite <-H1 by lia. unfold gate_at. by rewrite !fn_lookup_insert_ne by lia.
Qed.

(** The gate that an interrupt goes through: an int instruction also needs the
    privilege that the gate asks for. *)
Definition interrupt (x : hst) (n cpl : Z) (int : bool) : option gate :=
  let '(base, limit) := idtr x in
  if 8 * n + 7 <=? limit then
    let g := decode_gate (words x (base + 8 * n)) (words x (base + 8 * n + 4)) in
    if (gt_present g =? 1) && (negb int || (cpl <=? gt_dpl g)) then Some g else None
  else None.
End gates.

(** ** Theorems *)

(** Seginit gives the CPU its segments.  On each of the eight CPUs it returns;
    the CPU then reads from its table flat code and data segments for the
    kernel and for user programs, with their privilege, and the segment of %gs,
    through which the variables [cpu] and [proc] are those of this CPU. *)
Theorem seginit_segments cpus c x : 0 <= cpus → cpus + 8 * SZ_CPU <= w32 → (c < 8)%nat →
  ∃ x', seginit cpus c x = Ok tt x' ∧ ready cpus c x' ∧
    cpu_local 0 x' = Ok (this_cpu cpus c) x' ∧ cpu_local 4 x' = Ok 0 x'.
Proof.
  intros H0 H1 Hc. destruct (wp_total (seginit cpus c) (λ _ x', ready cpus c x' ∧ words x' (cpu_cpu (this_cpu cpus c) + 4) = 0) x) as ([] & x' & E & Hr & Hp).
  { apply (wp_seginit cpus c (mode:=Total)); [done..|]. auto. }
  exists x'. split; [done|]. split; [done|]. split.
  - destruct (wp_total (cpu_local 0) (λ v y, v = this_cpu cpus c ∧ y = x') x') as (? & ? & -> & -> & ->); [|done].
    apply (wp_cpu_local cpus c); [apply Hr|lia|done..|]. rewrite Z.add_0_r. split; [apply Hr|done].
  - destruct (wp_total (cpu_local 4) (λ v y, v = 0 ∧ y = x') x') as (? & ? & -> & -> & ->); [|done].
    apply (wp_cpu_local cpus c); [apply Hr|lia|done..|]. done.
Qed.

(** C24: switchuvm prepares the CPU for a process.  With the segments of seginit and
    a current process, it returns with the task register on this CPU's task
    state, whose stack for interrupts from user mode is the top of the process's
    kernel stack in the kernel's data segment, and with the process's page
    directory in use; interrupts are enabled as before, and the CPU is ready for
    the next switch, however many have been made. *)
Theorem switchuvm_switches cpus c kstack pgdir pr x : 0 <= cpus → cpus + 8 * SZ_CPU <= w32 → (c < 8)%nat → ready cpus c x →
  words x (cpu_cpu (this_cpu cpus c) + 4) = pr → pr ≠ 0 → pgdir ≠ 0 → 0 <= Spinlock.ncli (me c x) < 2147483647 →
  (Spinlock.ncli (me c x) = 0 ∨ Spinlock.fl_if (me c x) = false) →
  ∃ x', switchuvm kstack c pgdir x = Ok tt x' ∧ switched cpus c kstack pgdir pr x' ∧
    Spinlock.ncli (me c x') = Spinlock.ncli (me c x) ∧ Spinlock.fl_if (me c x') = Spinlock.fl_if (me c x).
Proof.
  intros H0 H1 Hc Hr Hpr Hp Hg Hn Hi.
  destruct (wp_total (switchuvm kstack c pgdir) (λ _ x', switched cpus c kstack pgdir pr x' ∧
    Spinlock.ncli (me c x') = Spinlock.ncli (me c x) ∧ Spinlock.fl_if (me c x') = Spinlock.fl_if (me c x)) x) as ([] & x' & E & Hx); [|by exists x'].
  by eapply (wp_switchuvm cpus c kstack (mode:=Total)).
Qed.

(** C36: the gates of tvinit.  Every interrupt and exception enters the kernel's
    code segment at its entry of vectors.S, with interrupts disabled but for
    system calls; a user program's int instruction gets through only at the
    vector for system calls. *)
Theorem tvinit_gates idt vectors x : (∀ n, 0 <= vectors n < w32) → 0 <= idt → idt + 2048 <= w32 →
  ∃ x', (tvinit idt vectors;; idtinit idt) x = Ok tt x' ∧
    (∀ n cpl, 0 <= n < 256 → interrupt x' n cpl false = Some (handler vectors n)) ∧
    (∀ n, 0 <= n < 256 → interrupt x' n DPL_USER true = if n =? T_SYSCALL then Some (handler vectors n) else None) ∧
    (∀ n cpl int, 256 <= n → interrupt x' n cpl int = None).
Proof.
  intros Hv H0 H1. destruct (wp_total (tvinit idt vectors;; idtinit idt) (λ _ x', idtr x' = (idt, 2047) ∧ ∀ k, 0 <= k < 256 → gate_at idt (words x') k = handler vectors k) x)
    as ([] & x' & E & Hi & Hg).
  { apply wp_bind, (wp_tvinit idt vectors (mode:=Total)); [done|]. intros m Hm. apply wp_modify. rewrite pseudo_address by lia. done. }
  exists x'. split; [done|]. unfold interrupt. rewrite Hi. unfold gate_at in Hg. split; [|split].
  - intros n cpl Hn. rewrite (proj2 (Z.leb_le _ _)) by lia. rewrite Hg by done. done.
  - intros n Hn. rewrite (proj2 (Z.leb_le _ _)) by lia. rewrite Hg by done. unfold handler. by destruct (n =? T_SYSCALL).
  - intros n cpl int Hn. by rewrite (proj2 (Z.leb_gt _ _)) by lia.
Qed.

(** ** A machine *)

Definition idle_cpu : Spinlock.cpu := Spinlock.mkcpu None 1 false false 0.
Definition blank : hst :=
  mkhst (Kalloc.mkkst (Spinlock.mklstate (λ _, idle_cpu) (λ _, Spinlock.mklock false "" None []) (λ _, 0)) false None (λ _, 0))
    (λ _, 0) 0 (0, 0) (0, 0) None None 0.
Definition CPUS : Z := 0x80112780.
Definition IDT : Z := 0x80114CA0.

Lemma seginit_segments_witness : ∃ x', seginit CPUS 3 blank = Ok tt x' ∧ ready CPUS 3 x' ∧
  cpu_local 0 x' = Ok 0x801129B4 x' ∧ cpu_local 4 x' = Ok 0 x'.
Proof. apply (seginit_segments CPUS 3 blank); vm_compute; [discriminate|discriminate|]. repeat constructor. Defined.

(** The first CPU after seginit, with a process chosen. *)
Definition chosen : hst :=
  match seginit CPUS 0 blank with Ok _ x => put_words (<[cpu_cpu CPUS + 4 := 0x80112DE0]> (words x)) x | _ => blank end.
Lemma chosen_ready : ready CPUS 0 chosen.
Proof. constructor; vm_compute; reflexivity. Qed.
Lemma switchuvm_switches_witness : ∃ x', switchuvm (λ _, 0x8DFFF000) 0 0x8DFFE000 chosen = Ok tt x' ∧
  switched CPUS 0 (λ _, 0x8DFFF000) 0x8DFFE000 0x80112DE0 x' ∧
  Spinlock.ncli (me 0 x') = 1 ∧ Spinlock.fl_if (me 0 x') = false.
Proof.
  apply (switchuvm_switches CPUS 0 (λ _, 0x8DFFF000) 0x8DFFE000 0x80112DE0 chosen); [by vm_compute|by vm_compute|lia|apply chosen_ready|reflexivity|done|done| |by right].
  vm_compute. split; [discriminate|reflexivity].
Defined.

Lemma tvinit_gates_witness : ∃ x', (tvinit IDT (λ n, 0x80105000 + 7 * (n mod 256));; idtinit IDT) blank = Ok tt x' ∧
  (∀ n cpl, 0 <= n < 256 → interrupt x' n cpl false = Some (handler (λ n, 0x80105000 + 7 * (n mod 256)) n)) ∧
  (∀ n, 0 <= n < 256 → interrupt x' n DPL_USER true = if n =? T_SYSCALL then Some (handler (λ n, 0x80105000 + 7 * (n mod 256)) n) else None) ∧
  (∀ n cpl int, 256 <= n → interrupt x' n cpl int = None).
Proof.
  apply (tvinit_gates IDT (λ n, 0x80105000 + 7 * (n mod 256)) blank); [|by vm_compute|by vm_compute].
  intros n. unfold w32. pose proof (Z.mod_pos_bound n 256). lia.
Defined.

End Seg.
