(* ===== verification/Bytes.v ===== *)
(** * Little-endian words in byte arrays

    Disk blocks and structures that are read from disk are lists of bytes; this
    file holds how the code reads and writes their 16- and 32-bit fields and
    copies ranges of bytes. *)

From S2P Require Import Prelude.
Local Open Scope Z_scope.

Module Bytes.

Definition byte (l : list Z) (i : nat) : Z := nth i l 0.

Definition get16 (l : list Z) (i : nat) : Z := byte l i + 256 * byte l (i + 1).
Definition get32 (l : list Z) (i : nat) : Z :=
  byte l i + 256 * byte l (i + 1) + 65536 * byte l (i + 2) + 16777216 * byte l (i + 3).

Definition put16 (l : list Z) (i : nat) (w : Z) : list Z :=
  <[(i + 1)%nat := (w / 256) mod 256]> (<[i := w mod 256]> l).
Definition put32 (l : list Z) (i : nat) (w : Z) : list Z :=
  <[(i + 3)%nat := (w / 256 / 256 / 256) mod 256]> (<[(i + 2)%nat := (w / 256 / 256) mod 256]>
    (<[(i + 1)%nat := (w / 256) mod 256]> (<[i := w mod 256]> l))).

(** memmove between distinct arrays: [n] bytes from [src + so] to [l + o]. *)
Definition slice (l : list Z) (o n : nat) : list Z := take n (drop o l).
Definition splice (l : list Z) (o : nat) (src : list Z) : list Z :=
  take o l ++ src ++ drop (o + length src) l.

(** All bytes are bytes. *)
Definition bytes (l : list Z) : Prop := Forall (λ b, 0 <= b < 256) l.

Lemma byte_insert l i j x :
  (i < length l)%nat → byte (<[i := x]> l) j = if decide (i = j) then x else byte l j.
Proof.
  intros Hi. unfold byte. rewrite !nth_lookup. case_decide as E.
  - subst. by rewrite list_lookup_insert_eq.
  - by rewrite list_lookup_insert_ne.
Qed.

Lemma length_put16 l i w : length (put16 l i w) = length l.
Proof. unfold put16. by rewrite !length_insert. Qed.
Lemma length_put32 l i w : length (put32 l i w) = length l.
Proof. unfold put32. by rewrite !length_insert. Qed.

Lemma byte_put32 l i w j :
  (i + 4 <= length l)%nat →
  byte (put32 l i w) j =
  if decide (j = i) then w mod 256
  else if decide (j = i + 1)%nat then (w / 256) mod 256
  else if decide (j = i + 2)%nat then (w / 256 / 256) mod 256
  else if decide (j = i + 3)%nat then (w / 256 / 256 / 256) mod 256
  else byte l j.
Proof.
  intros Hi. unfold put32. rewrite !byte_insert by (rewrite ?length_insert; lia).
  repeat case_decide; try lia; done.
Qed.

Lemma byte_put16 l i w j :
  (i + 2 <= length l)%nat →
  byte (put16 l i w) j =
  if decide (j = i) then w mod 256
  else if decide (j = i + 1)%nat then (w / 256) mod 256 else byte l j.
Proof.
  intros Hi. unfold put16. rewrite !byte_insert by (rewrite ?length_insert; lia).
  repeat case_decide; try lia; done.
Qed.

Lemma get32_put32 l i w :
  (i + 4 <= length l)%nat → 0 <= w < w32 → get32 (put32 l i w) i = w.
Proof.
  intros Hi Hw. unfold get32. rewrite !byte_put32 by done.
  repeat first [rewrite decide_True by lia|rewrite decide_False by lia]. unfold w32 in Hw.
  rewrite (Z.mod_small (w / 256 / 256 / 256)).
  - pose proof (Z.div_mod w 256). pose proof (Z.div_mod (w / 256) 256).
    pose proof (Z.div_mod (w / 256 / 256) 256). lia.
  - split; [repeat apply Z.div_pos; lia|]. repeat (apply Z.div_lt_upper_bound; [lia|]). lia.
Qed.

Lemma get16_put16 l i w :
  (i + 2 <= length l)%nat → 0 <= w < 65536 → get16 (put16 l i w) i = w.
Proof.
  intros Hi Hw. unfold get16. rewrite !byte_put16 by done.
  repeat first [rewrite decide_True by lia|rewrite decide_False by lia].
  rewrite (Z.mod_small (w / 256)).
  - pose proof (Z.div_mod w 256). lia.
  - split; [apply Z.div_pos; lia|]. apply Z.div_lt_upper_bound; lia.
Qed.

Lemma get32_put32_ne l i j w :
  (i + 4 <= length l)%nat → (j + 4 <= i ∨ i + 4 <= j)%nat → get32 (put32 l i w) j = get32 l j.
Proof.
  intros Hi Hd. unfold get32. rewrite !byte_put32 by done.
  by repeat (rewrite decide_False by lia).
Qed.

Lemma get32_put16_ne l i j w :
  (i + 2 <= length l)%nat → (j + 4 <= i ∨ i + 2 <= j)%nat → get32 (put16 l i w) j = get32 l j.
Proof.
  intros Hi Hd. unfold get32. rewrite !byte_put16 by done.
  by repeat (rewrite decide_False by lia).
Qed.

Lemma get16_put16_ne l i j w :
  (i + 2 <= length l)%nat → (j + 2 <= i ∨ i + 2 <= j)%nat → get16 (put16 l i w) j = get16 l j.
Proof.
  intros Hi Hd. unfold get16. rewrite !byte_put16 by done.
  by repeat (rewrite decide_False by lia).
Qed.

Lemma get16_put32_ne l i j w :
  (i + 4 <= length l)%nat → (j + 2 <= i ∨ i + 4 <= j)%nat → get16 (put32 l i w) j = get16 l j.
Proof.
  intros Hi Hd. unfold get16. rewrite !byte_put32 by done.
  by repeat (rewrite decide_False by lia).
Qed.

(** ** Ranges *)

Lemma length_splice l o src :
  (o + length src <= length l)%nat → length (splice l o src) = length l.
Proof. intros. unfold splice. rewrite !length_app, length_take, length_drop. lia. Qed.

Lemma lookup_splice l o src i :
  (o + length src <= length l)%nat →
  splice l o src !! i =
  if decide (o <= i < o + length src)%nat then src !! (i - o)%nat else l !! i.
Proof.
  intros Hl. unfold splice. assert (Ht : length (take o l) = o) by (rewrite length_take; lia).
  destruct (decide (i < o)%nat).
  - rewrite decide_False by lia. rewrite lookup_app_l by lia. by rewrite lookup_take_lt.
  - rewrite lookup_app_r by lia. rewrite Ht. case_decide.
    + rewrite lookup_app_l by lia. done.
    + rewrite lookup_app_r by lia. rewrite lookup_drop. f_equal. lia.
Qed.

Lemma slice_splice l o src :
  (o + length src <= length l)%nat → slice (splice l o src) o (length src) = src.
Proof.
  intros Hl. unfold slice, splice.
  rewrite drop_app_le by (rewrite length_take; lia).
  rewrite drop_ge by (rewrite length_take; lia). rewrite app_nil_l. by rewrite take_app_length.
Qed.

Lemma lookup_slice l o n i : slice l o n !! i = if decide (i < n)%nat then l !! (o + i)%nat else None.
Proof.
  unfold slice. case_decide.
  - by rewrite lookup_take_lt, lookup_drop.
  - apply lookup_take_ge. lia.
Qed.

Lemma length_slice l o n : (o + n <= length l)%nat → length (slice l o n) = n.
Proof. intros. unfold slice. rewrite length_take, length_drop. lia. Qed.

End Bytes.
