(* ===== verification/Kern.v ===== *)
(** * Critical sections, waiting and waking, as the file system and the console use them

    The file-system code runs on one CPU at a time between two points where it
    may wait.  What it can observe of the locking layer is which spin locks its
    CPU holds: file Spinlock shows that [acquire] adds a free lock to them, that
    [release] removes one, and that both panic exactly when that is misused.
    Another CPU holding the lock only delays [acquire].

    [sleep] gives up the lock and waits: the operation does not return in this
    state (outcome [Hang], with the lock released) and runs its loop again when
    it is woken.  [wakeup] is recorded, so that theorems can say who is woken. *)

From S2P Require Import Prelude.

Module Kern.

(** What a process can wait for. *)
Inductive chan := CBuf (b : nat) | CLog | CInode (i : nat) | CPipeRead (p : nat) | CPipeWrite (p : nat) | CInput.
#[export] Instance chan_eq_dec : EqDecision chan.
Proof. solve_decision. Defined.

(** The spin locks of the file system, the pipes, the console and the disk. *)
Inductive lockid := LBcache | LLog | LIcache | LFtable | LPipe (p : nat) | LCons | LIde.
#[export] Instance lockid_eq_dec : EqDecision lockid.
Proof. solve_decision. Defined.

Record kern := mkkern { lks : list lockid; woken : list chan }.

Definition acquire (k : lockid) : M kern unit :=
  l ← gets lks;
  if decide (k ∈ l) then panic "acquire"
  else modify (λ s, mkkern (k :: lks s) (woken s)).

Definition release (k : lockid) : M kern unit :=
  l ← gets lks;
  if decide (k ∈ l) then modify (λ s, mkkern (filter (λ x, x ≠ k) (lks s)) (woken s))
  else panic "release".

Definition initlock (k : lockid) : M kern unit :=
  modify (λ s, mkkern (filter (λ x, x ≠ k) (lks s)) (woken s)).

Definition wakeup (ch : chan) : M kern unit :=
  modify (λ s, mkkern (lks s) (woken s ++ [ch])).

Definition sleep {A} (ch : chan) (k : lockid) : M kern A :=
  release k;; hang.

(** Nothing is locked: the state between two operations. *)
Definition quiet (s : kern) : Prop := lks s = [].

Section specs.
Context `{mode : Mode}.

Lemma wp_kacquire k s (Q : unit → kern → Prop) :
  quiet s → Q tt (mkkern [k] (woken s)) → wp (acquire k) Q s.
Proof.
  unfold quiet. intros Hq HQ. unfold acquire. wp_steps. rewrite Hq, decide_False by apply not_elem_of_nil.
  wp_steps. by rewrite Hq.
Qed.

Lemma wp_krelease k s (Q : unit → kern → Prop) :
  lks s = [k] → Q tt (mkkern [] (woken s)) → wp (release k) Q s.
Proof.
  intros Hq HQ. unfold release. wp_steps. rewrite Hq, decide_True by (by apply list_elem_of_singleton).
  wp_steps. rewrite Hq. replace (filter _ [k]) with (@nil lockid); [done|].
  rewrite filter_cons_False; [done|]. naive_solver.
Qed.
End specs.

End Kern.
