(* ===== verification/Bio.v ===== *)
(** * The buffer cache (bio.c, buf.h) on a disk driver (memide.c)

    The buffers are on a doubly linked ring through the list head, most recently
    used first.  A buffer is named by its index and the head by [NBUF].  The disk
    is the memory disk of memide.c, whose [iderw] does at once what ide.c does
    with an interrupt in between.  [bget] of a block whose buffer is in use
    waits: the outcome is [Hang].

    The ring is refined to the sequence of buffers, and the cache to the view of
    the blocks that file Log builds on. *)

From S2P Require Import Prelude Kern.
Local Open Scope Z_scope.

Module Bio.

Definition NBUF : nat := 30.
Definition HEAD : nat := NBUF.

Record buf := mkbuf {
  b_busy : bool; b_valid : bool; b_dirty : bool;
  b_dev : Z; b_blockno : Z;
  b_prev : nat; b_next : nat;
  b_data : list Z
}.
Definition set_bflags (y v d : bool) (b : buf) : buf :=
  mkbuf y v d (b_dev b) (b_blockno b) (b_prev b) (b_next b) (b_data b).
Definition set_ident (dev no : Z) (b : buf) : buf :=
  mkbuf (b_busy b) (b_valid b) (b_dirty b) dev no (b_prev b) (b_next b) (b_data b).
Definition set_prev (p : nat) (b : buf) : buf :=
  mkbuf (b_busy b) (b_valid b) (b_dirty b) (b_dev b) (b_blockno b) p (b_next b) (b_data b).
Definition set_next (n : nat) (b : buf) : buf :=
  mkbuf (b_busy b) (b_valid b) (b_dirty b) (b_dev b) (b_blockno b) (b_prev b) n (b_data b).
Definition set_bdata (x : list Z) (b : buf) : buf :=
  mkbuf (b_busy b) (b_valid b) (b_dirty b) (b_dev b) (b_blockno b) (b_prev b) (b_next b) x.

Record bst := mkbst { kn : Kern.kern; bufs : nat → buf; memdisk : Z → list Z; disksize : Z }.
Definition put_kn (k : Kern.kern) (s : bst) : bst := mkbst k (bufs s) (memdisk s) (disksize s).

Definition acquire : M bst unit := zoom kn put_kn (Kern.acquire Kern.LBcache).
Definition release : M bst unit := zoom kn put_kn (Kern.release Kern.LBcache).
Definition wakeup (i : nat) : M bst unit := zoom kn put_kn (Kern.wakeup (Kern.CBuf i)).
Definition sleep {A} (i : nat) : M bst A := zoom kn put_kn (Kern.sleep (Kern.CBuf i) Kern.LBcache).

Definition bu (i : nat) : M bst buf := gets (λ s, bufs s i).
Definition upd (i : nat) (f : buf → buf) : M bst unit :=
  modify (λ s, mkbst (kn s) (alter f i (bufs s)) (memdisk s) (disksize s)).

(** ** memide.c *)

Definition iderw (i : nat) : M bst unit :=
  b ← bu i;
  if negb (b_busy b) then panic "iderw: buf not busy" else
  if b_valid b && negb (b_dirty b) then panic "iderw: nothing to do" else
  if negb (b_dev b =? 1) then panic "iderw: request not for disk 1" else
  z ← gets disksize;
  if z <=? b_blockno b then panic "iderw: block out of range" else
  (if b_dirty b then
     upd i (λ b, set_bflags (b_busy b) (b_valid b) false b);;
     modify (λ s, mkbst (kn s) (bufs s) (<[b_blockno b := b_data b]> (memdisk s)) (disksize s))
   else
     x ← gets (λ s, memdisk s (b_blockno b));
     upd i (set_bdata x));;
  upd i (λ b, set_bflags (b_busy b) true (b_dirty b) b).

(** ** bio.c *)

Definition binit : M bst unit :=
  zoom kn put_kn (Kern.initlock Kern.LBcache);;
  upd HEAD (set_prev HEAD);;
  upd HEAD (set_next HEAD);;
  count_for NBUF 0 (λ i,
    h ← bu HEAD;
    upd i (set_next (b_next h));;
    upd i (set_prev HEAD);;
    upd i (λ b, set_ident 4294967295 (b_blockno b) b);;
    upd (b_next h) (set_prev i);;
    upd HEAD (set_next i);;
    mret (None : option unit));;
  mret tt.

(** Is the block already cached?  The first buffer for it on the ring. *)
Fixpoint find_cached (fuel : nat) (s : bst) (i : nat) (dev no : Z) : option (option nat) :=
  if decide (i = HEAD) then Some None else
  match fuel with
  | O => None
  | S fuel =>
      let b := bufs s i in
      if (b_dev b =? dev) && (b_blockno b =? no) then Some (Some i)
      else find_cached fuel s (b_next b) dev no
  end.

(** The least recently used buffer that is neither busy nor dirty. *)
Fixpoint find_clean (fuel : nat) (s : bst) (i : nat) : option (option nat) :=
  if decide (i = HEAD) then Some None else
  match fuel with
  | O => None
  | S fuel =>
      let b := bufs s i in
      if negb (b_busy b) && negb (b_dirty b) then Some (Some i)
      else find_clean fuel s (b_prev b)
  end.

Definition bget (dev no : Z) : M bst nat :=
  acquire;;
  h ← bu HEAD;
  r ← gets (λ s, find_cached NBUF s (b_next h) dev no);
  match r with
  | None => hang
  | Some (Some i) =>
      b ← bu i;
      if b_busy b then sleep i else
      upd i (λ b, set_bflags true (b_valid b) (b_dirty b) b);;
      release;;
      mret i
  | Some None =>
      h ← bu HEAD;
      r ← gets (λ s, find_clean NBUF s (b_prev h));
      match r with
      | None => hang
      | Some (Some i) =>
          upd i (set_ident dev no);;
          upd i (set_bflags true false false);;
          release;;
          mret i
      | Some None => panic "bget: no buffers"
      end
  end.

Definition bread (dev no : Z) : M bst nat :=
  i ← bget dev no;
  b ← bu i;
  (if b_valid b then mret tt else iderw i);;
  mret i.

Definition bwrite (i : nat) : M bst unit :=
  b ← bu i;
  if negb (b_busy b) then panic "bwrite" else
  upd i (λ b, set_bflags (b_busy b) (b_valid b) true b);;
  iderw i.

Definition brelse (i : nat) : M bst unit :=
  b ← bu i;
  if negb (b_busy b) then panic "brelse" else
  acquire;;
  b ← bu i;
  upd (b_next b) (set_prev (b_prev b));;
  b ← bu i;
  upd (b_prev b) (set_next (b_next b));;
  h ← bu HEAD;
  upd i (set_next (b_next h));;
  upd i (set_prev HEAD);;
  h ← bu HEAD;
  upd (b_next h) (set_prev i);;
  upd HEAD (set_next i);;
  upd i (λ b, set_bflags false (b_valid b) (b_dirty b) b);;
  wakeup i;;
  release.

(** ** The ring as a sequence *)

(** From [a] through [l] to [z], in both directions. *)
Fixpoint linked (nx pv : nat → nat) (a : nat) (l : list nat) (z : nat) : Prop :=
  match l with
  | [] => nx a = z ∧ pv z = a
  | b :: l => nx a = b ∧ pv b = a ∧ linked nx pv b l z
  end.

Lemma linked_app nx pv l1 : ∀ a x l2 z,
  linked nx pv a (l1 ++ x :: l2) z ↔ linked nx pv a l1 x ∧ linked nx pv x l2 z.
Proof. induction l1 as [|b l1 IH]; intros a x l2 z; cbn [linked app]; [naive_solver|]. rewrite IH. naive_solver. Qed.

Lemma linked_ext nx pv nx' pv' l : ∀ a z,
  (∀ b, b ∈ a :: l → nx' b = nx b) → (∀ b, b ∈ l ++ [z] → pv' b = pv b) →
  linked nx pv a l z → linked nx' pv' a l z.
Proof.
  induction l as [|b l IH]; intros a z Hn Hp; cbn [linked].
  - rewrite (Hn a), (Hp z) by set_solver. done.
  - rewrite (Hn a), (Hp b) by set_solver. intros (H1 & H2 & H3). split; [done|]. split; [done|].
    apply IH; [set_solver|set_solver|done].
Qed.

Lemma linked_prev nx pv a l1 i l2 z : linked nx pv a (l1 ++ i :: l2) z → pv i ∈ a :: l1.
Proof.
  revert a; induction l1 as [|b l1 IH]; intros a; cbn [linked app].
  - intros (_ & -> & _). set_solver.
  - intros (_ & _ & H). apply IH in H. set_solver.
Qed.
Lemma linked_next nx pv a l1 i l2 z : linked nx pv a (l1 ++ i :: l2) z → nx i ∈ l2 ++ [z].
Proof.
  rewrite linked_app. intros [_ H]. destruct l2 as [|b l2]; cbn [linked] in H; destruct H as [-> _]; set_solver.
Qed.

Lemma linked_unlink nx pv l1 : ∀ a i l2 z,
  NoDup (a :: l1 ++ i :: l2) → z ∉ l1 ++ i :: l2 → linked nx pv a (l1 ++ i :: l2) z →
  linked (<[pv i := nx i]> nx) (<[nx i := pv i]> pv) a (l1 ++ l2) z.
Proof.
  induction l1 as [|b l1 IH]; intros a i l2 z Hnd Hz H.
  - cbn [app] in *. cbn [linked] in H. destruct H as (Hna & Hpi & H). rewrite Hpi.
    apply NoDup_cons in Hnd as [Ha Hnd]. apply NoDup_cons in Hnd as [Hi Hnd].
    destruct l2 as [|q l2]; cbn [linked] in *.
    + destruct H as [Hni Hpz]. rewrite Hni, !fn_lookup_insert. done.
    + destruct H as (Hni & Hpq & H). rewrite Hni, !fn_lookup_insert. split; [done|]. split; [done|].
      eapply linked_ext; [| |exact H].
      * intros x Hx. apply fn_lookup_insert_ne. set_solver.
      * intros x Hx. apply fn_lookup_insert_ne. apply NoDup_cons in Hnd as [Hq _]. set_solver.
  - pose proof (linked_prev _ _ _ _ _ _ _ (proj2 (proj2 H))) as Hp.
    pose proof (linked_next _ _ _ _ _ _ _ (proj2 (proj2 H))) as Hn.
    cbn [app linked] in *. destruct H as (Hna & Hpb & H). apply NoDup_cons in Hnd as [Ha Hnd].
    pose proof Hnd as Hnd'. apply NoDup_cons in Hnd' as [Hb _].
    apply not_elem_of_cons in Hz as [Hzb Hz].
    assert (pv i ≠ a).
    { intros <-. apply Ha. rewrite app_comm_cons. apply elem_of_app. by left. }
    assert (nx i ≠ b).
    { intros <-. apply elem_of_app in Hn as [Hn|Hn%list_elem_of_singleton]; [|done].
      apply Hb, elem_of_app. right. by apply list_elem_of_further. }
    rewrite !fn_lookup_insert_ne by done. split; [done|]. split; [done|]. by apply IH.
Qed.

Lemma linked_push nx pv a i l :
  NoDup (a :: l) → i ∉ a :: l → linked nx pv a l a →
  linked (<[a := i]> (<[i := nx a]> nx)) (<[nx a := i]> (<[i := a]> pv)) a (i :: l) a.
Proof.
  intros Hnd Hi H. apply NoDup_cons in Hnd as [Ha Hnd].
  assert (Hna : nx a ≠ i) by (destruct l as [|b l]; cbn [linked] in H; destruct H as [-> _]; set_solver).
  cbn [linked]. rewrite fn_lookup_insert. split; [done|].
  rewrite fn_lookup_insert_ne, fn_lookup_insert by done. split; [done|].
  destruct l as [|b l]; cbn [linked] in *.
  - destruct H as [E1 E2]. rewrite E1 in *. rewrite fn_lookup_insert.
    rewrite fn_lookup_insert_ne, fn_lookup_insert by set_solver. done.
  - destruct H as (E1 & E2 & H). rewrite E1 in *. rewrite fn_lookup_insert.
    rewrite fn_lookup_insert_ne, fn_lookup_insert by set_solver. split; [done|]. split; [done|].
    apply NoDup_cons in Hnd as [Hb Hnd]. eapply linked_ext; [| |exact H].
    + intros x Hx. rewrite !fn_lookup_insert_ne by set_solver. done.
    + intros x Hx. rewrite !fn_lookup_insert_ne by set_solver. done.
Qed.


Lemma linked_rev nx pv l : ∀ a z, linked nx pv a l z → linked pv nx z (rev l) a.
Proof.
  induction l as [|b l IH]; intros a z; cbn [linked rev]; [naive_solver|].
  intros (H1 & H2 & H3). apply linked_app. split; [by apply IH|]. done.
Qed.

Lemma elem_rev (x : nat) l : x ∈ rev l ↔ x ∈ l.
Proof. rewrite !list_elem_of_In. symmetry. apply in_rev. Qed.

Definition nexts (s : bst) (i : nat) : nat := b_next (bufs s i).
Definition prevs (s : bst) (i : nat) : nat := b_prev (bufs s i).

(** The buffer [i] is for block [no] of device [dev]. *)
Definition is_for (s : bst) (dev no : Z) (i : nat) : Prop := b_dev (bufs s i) = dev ∧ b_blockno (bufs s i) = no.
(** The buffer may be given to another block. *)
Definition clean (s : bst) (i : nat) : Prop := b_busy (bufs s i) = false ∧ b_dirty (bufs s i) = false.

Lemma find_cached_spec s dev no l : ∀ fuel a,
  linked (nexts s) (prevs s) a l HEAD → HEAD ∉ l → (length l <= fuel)%nat →
  match find_cached fuel s (nexts s a) dev no with
  | Some (Some i) => i ∈ l ∧ is_for s dev no i
  | Some None => ∀ i, i ∈ l → ¬ is_for s dev no i
  | None => False
  end.
Proof.
  induction l as [|b l IH]; intros fuel a; cbn [linked].
  - intros [-> _] _ _. destruct fuel; cbn [find_cached]; rewrite decide_True by done; set_solver.
  - intros (-> & _ & H) Hh Hf. apply not_elem_of_cons in Hh as [Hb Hh]. cbn [length] in Hf.
    destruct fuel as [|fuel]; [lia|]. cbn [find_cached]. rewrite decide_False by done. cbv zeta.
    destruct (Z.eqb_spec (b_dev (bufs s b)) dev) as [E1|E1]; [destruct (Z.eqb_spec (b_blockno (bufs s b)) no) as [E2|E2]|];
      cbn [andb].
    + split; [set_solver|done].
    + specialize (IH fuel b H Hh ltac:(lia)). fold (nexts s b). destruct (find_cached _ _ _ _ _) as [[i|]|]; [set_solver| |done].
      intros i [->|Hi]%elem_of_cons; [by intros [_ ?]|by apply IH].
    + specialize (IH fuel b H Hh ltac:(lia)). fold (nexts s b). destruct (find_cached _ _ _ _ _) as [[i|]|]; [set_solver| |done].
      intros i [->|Hi]%elem_of_cons; [by intros [? _]|by apply IH].
Qed.

Lemma find_clean_spec s l : ∀ fuel a,
  linked (prevs s) (nexts s) a l HEAD → HEAD ∉ l → (length l <= fuel)%nat →
  match find_clean fuel s (prevs s a) with
  | Some (Some i) => ∃ l1 l2, l = l1 ++ i :: l2 ∧ clean s i ∧ ∀ j, j ∈ l1 → ¬ clean s j
  | Some None => ∀ i, i ∈ l → ¬ clean s i
  | None => False
  end.
Proof.
  induction l as [|b l IH]; intros fuel a; cbn [linked].
  - intros [-> _] _ _. destruct fuel; cbn [find_clean]; rewrite decide_True by done; set_solver.
  - intros (-> & _ & H) Hh Hf. apply not_elem_of_cons in Hh as [Hb Hh]. cbn [length] in Hf.
    destruct fuel as [|fuel]; [lia|]. cbn [find_clean]. rewrite decide_False by done. cbv zeta.
    destruct (negb (b_busy (bufs s b)) && negb (b_dirty (bufs s b))) eqn:E.
    + apply andb_true_iff in E as [E1%negb_true_iff E2%negb_true_iff]. exists [], l. split; [done|]. split; [done|]. set_solver.
    + assert (Hn : ¬ clean s b) by (intros [E1 E2]; by rewrite E1, E2 in E).
      specialize (IH fuel b H Hh ltac:(lia)). fold (prevs s b). destruct (find_clean _ _ _) as [[i|]|]; [| |done].
      * destruct IH as (l1 & l2 & -> & Hc & Hl). exists (b :: l1), l2. split; [done|]. split; [done|].
        intros j [->|Hj]%elem_of_cons; [done|by apply Hl].
      * intros i [->|Hi]%elem_of_cons; [done|by apply IH].
Qed.

(** ** The cache's invariant and what it shows of the disk *)

(** [l] is the ring, most recently used first.  A block of disk 1 has at most
    one buffer, and a buffer that is not in use holds the block's contents, the
    newer ones when it is dirty. *)
Record bc_ok (s : bst) (l : list nat) : Prop := {
  bc_ring : linked (nexts s) (prevs s) HEAD l HEAD;
  bc_nodup : NoDup (HEAD :: l);
  bc_all : length l = NBUF;
  bc_unique i j no : i ∈ l → j ∈ l → is_for s 1 no i → is_for s 1 no j → i = j;
  bc_valid i no : i ∈ l → is_for s 1 no i → b_busy (bufs s i) = false → b_valid (bufs s i) = true;
  bc_sync i no : i ∈ l → is_for s 1 no i → clean s i → b_data (bufs s i) = memdisk s no
}.

(** The contents of a block, as [bread] will show them. *)
Definition shows (s : bst) (l : list nat) (no : Z) (x : list Z) : Prop :=
  (∃ i, i ∈ l ∧ is_for s 1 no i ∧ b_valid (bufs s i) = true ∧ b_data (bufs s i) = x) ∨
  ((∀ i, i ∈ l → is_for s 1 no i → b_valid (bufs s i) = false) ∧ memdisk s no = x).

Lemma shows_fun s l no x y : bc_ok s l → shows s l no x → shows s l no y → x = y.
Proof.
  intros B [(i & Hi & Fi & Vi & <-)|[Hn <-]] [(j & Hj & Fj & Vj & <-)|[Hn' <-]]; try done.
  - by rewrite (bc_unique _ _ B i j no).
  - by rewrite (Hn' i Hi Fi) in Vi.
  - by rewrite (Hn j Hj Fj) in Vj.
Qed.

Section specs.
Context `{mode : Mode}.

Lemma wp_bacquire s (Q : unit → bst → Prop) :
  Kern.quiet (kn s) → Q tt (put_kn (Kern.mkkern [Kern.LBcache] (Kern.woken (kn s))) s) → wp acquire Q s.
Proof. intros. by apply wp_zoom, Kern.wp_kacquire. Qed.
Lemma wp_brelease s (Q : unit → bst → Prop) :
  Kern.lks (kn s) = [Kern.LBcache] → Q tt (put_kn (Kern.mkkern [] (Kern.woken (kn s))) s) → wp release Q s.
Proof. intros. by apply wp_zoom, Kern.wp_krelease. Qed.

(** The states an operation on buffer [i] can leave: only [i] is changed, and
    not its place on the ring. *)
Record only (i : nat) (s s' : bst) : Prop := {
  on_quiet : Kern.quiet (kn s');
  on_others j : j ≠ i → bufs s' j = bufs s j;
  on_links : b_next (bufs s' i) = b_next (bufs s i) ∧ b_prev (bufs s' i) = b_prev (bufs s i);
  on_disksize : disksize s' = disksize s
}.

Lemma only_linked i s s' a l z : only i s s' → linked (nexts s) (prevs s) a l z → linked (nexts s') (prevs s') a l z.
Proof using.
  intros [_ Ho [L1 L2] _]. apply linked_ext; intros b _; unfold nexts, prevs; destruct (decide (b = i)) as [->|];
    rewrite ?Ho by done; done.
Qed.

(** What bread leaves: the block's buffer, in use and up to date. *)
Record have (no : Z) (l : list nat) (s : bst) (i : nat) (s' : bst) : Prop := {
  hv_only : only i s s';
  hv_in : i ∈ l;
  hv_for : is_for s' 1 no i;
  hv_busy : b_busy (bufs s' i) = true;
  hv_valid : b_valid (bufs s' i) = true;
  hv_shows : shows s l no (b_data (bufs s' i));
  hv_disk : memdisk s' = memdisk s;
  hv_old : (is_for s 1 no i ∧ b_dirty (bufs s' i) = b_dirty (bufs s i)) ∨ (clean s i ∧ b_dirty (bufs s' i) = false ∧
             (∀ j, j ∈ l → ¬ is_for s 1 no j) ∧ ∃ l1 l2, l = l1 ++ i :: l2 ∧ ∀ j, j ∈ l2 → ¬ clean s j)
}.

Lemma wp_bread_buf s l no (Q : nat → bst → Prop) :
  bc_ok s l → Kern.quiet (kn s) → 0 <= no < disksize s →
  (∀ i, i ∈ l → is_for s 1 no i → b_busy (bufs s i) = false) →
  (∃ i, i ∈ l ∧ (is_for s 1 no i ∨ clean s i)) →
  (∀ i s', have no l s i s' → Q i s') → wp (bread 1 no) Q s.
Proof.
  intros B Hq Hno Hnb Hex HQ. pose proof (bc_nodup _ _ B) as Hnd. apply NoDup_cons in Hnd as [Hh Hnd].
  pose proof (find_cached_spec s 1 no l NBUF HEAD (bc_ring _ _ B) Hh ltac:(by rewrite (bc_all _ _ B))) as Hfc.
  pose proof (find_clean_spec s (rev l) NBUF HEAD (linked_rev _ _ _ _ _ (bc_ring _ _ B))
    ltac:(by rewrite elem_rev) ltac:(by rewrite length_rev, (bc_all _ _ B))) as Hcl.
  assert (Hext1 : ∀ n a d b k, find_cached n (put_kn k s) a d b = find_cached n s a d b).
  { clear. induction n as [|n IH]; intros; cbn [find_cached]; [done|]. cbv zeta. cbn [bufs put_kn]. by rewrite IH. }
  assert (Hext2 : ∀ n a k, find_clean n (put_kn k s) a = find_clean n s a).
  { clear. induction n as [|n IH]; intros; cbn [find_clean]; [done|]. cbv zeta. cbn [bufs put_kn]. by rewrite IH. }
  unfold bread, bget, bu, upd. apply wp_bind, wp_bind, wp_bacquire; [done|]. wp_steps.
  rewrite Hext1. change (b_next (bufs (put_kn _ s) HEAD)) with (nexts s HEAD).
  destruct (find_cached NBUF s (nexts s HEAD) 1 no) as [[i|]|]; [| |done].
  - destruct Hfc as [Hi Hf]. wp_steps. cbn [bufs put_kn]. rewrite (Hnb i Hi Hf). wp_steps.
    apply wp_brelease; [done|]. wp_steps. cbn [bufs put_kn]. rewrite fn_lookup_alter. cbn [b_valid set_bflags].
    pose proof (bc_valid _ _ B i no Hi Hf (Hnb i Hi Hf)) as Hv. rewrite Hv. wp_steps. apply HQ.
    split; cbn [bufs put_kn memdisk kn disksize]; try done; rewrite ?fn_lookup_alter; try done.
    + split; cbn [bufs put_kn kn disksize]; rewrite ?fn_lookup_alter; try done. intros j Hj. by rewrite fn_lookup_alter_ne.
    + unfold is_for. cbn [bufs put_kn]. rewrite fn_lookup_alter. exact Hf.
    + left. by exists i.
    + left. done.
  - wp_steps. rewrite Hext2. change (b_prev (bufs (put_kn _ s) HEAD)) with (prevs s HEAD).
    destruct (find_clean NBUF s (prevs s HEAD)) as [[i|]|]; [| |done].
    2: { destruct Hex as (i & Hi & [Hf|Hc]); [by destruct (Hfc i Hi Hf)|]. exfalso. apply (Hcl i); [by apply elem_rev|done]. }
    destruct Hcl as (l1 & l2 & El & Hc & Hl1). wp_steps. apply wp_brelease; [done|]. wp_steps.
    cbn [bufs put_kn]. rewrite !fn_lookup_alter. cbn [b_valid set_bflags].
    assert (Hi : i ∈ l) by (apply elem_rev; rewrite El; set_solver).
    unfold iderw, bu, upd. wp_steps. cbn [bufs put_kn]. rewrite !fn_lookup_alter.
    cbn [b_busy b_valid b_dirty b_dev b_blockno set_bflags set_ident negb andb]. rewrite Z.eqb_refl. cbn [negb].
    wp_steps. cbn [disksize put_kn]. rewrite (proj2 (Z.leb_gt _ _)) by lia. wp_steps. apply HQ.
    split; cbn [bufs put_kn memdisk kn disksize]; rewrite ?fn_lookup_alter; try done.
    + split; cbn [bufs put_kn kn disksize]; rewrite ?fn_lookup_alter; try done.
      intros j Hj. by rewrite !fn_lookup_alter_ne.
    + unfold is_for. cbn [bufs put_kn]. by rewrite !fn_lookup_alter.
    + right. split; [|done]. intros j Hj Hf. by destruct (Hfc j Hj Hf).
    + right. split; [done|]. split; [done|]. split; [done|]. exists (rev l2), (rev l1). split.
      * rewrite <-(rev_involutive l), El, rev_app_distr. cbn [rev]. by rewrite <-app_assoc.
      * intros j Hj. apply Hl1. by apply elem_rev.
Qed.

(** Every other buffer is for what it was for. *)
Lemma have_other no l s i s' j dev b :
  have no l s i s' → j ≠ i → (is_for s' dev b j ↔ is_for s dev b j).
Proof using. intros H Hj. unfold is_for. by rewrite (on_others _ _ _ (hv_only _ _ _ _ _ H) j Hj). Qed.

Lemma have_ok no l s i s' : bc_ok s l → have no l s i s' → bc_ok s' l.
Proof using.
  intros B H. pose proof H as [O Hi Hf Hb Hv Hs Hd Ho]. split.
  - by eapply only_linked; [|apply (bc_ring _ _ B)].
  - apply (bc_nodup _ _ B).
  - apply (bc_all _ _ B).
  - assert (G : ∀ j, j ∈ l → j ≠ i → is_for s' 1 no j → False).
    { intros j Hj Hne Fj. apply (have_other _ _ _ _ _ _ _ _ H Hne) in Fj. destruct Ho as [[Fi _]|(_ & _ & Hno & _)].
      - apply Hne. by apply (bc_unique _ _ B j i no).
      - by apply (Hno j). }
    intros j1 j2 no' H1 H2 F1 F2. destruct (decide (j1 = i)) as [->|N1], (decide (j2 = i)) as [->|N2]; [done|..].
    + exfalso. destruct Hf as [E1 E2], F1 as [E3 E4]. apply (G j2); [done|done|]. by rewrite <-E2, E4.
    + exfalso. destruct Hf as [E1 E2], F2 as [E3 E4]. apply (G j1); [done|done|]. by rewrite <-E2, E4.
    + apply (have_other _ _ _ _ _ _ _ _ H) in F1, F2; [|done..]. by apply (bc_unique _ _ B j1 j2 no').
  - intros j no' Hj Fj Hnb. destruct (decide (j = i)) as [->|Hne]; [by rewrite Hb in Hnb|].
    rewrite (on_others _ _ _ O j Hne) in *. apply (have_other _ _ _ _ _ _ _ _ H Hne) in Fj.
    by apply (bc_valid _ _ B j no').
  - intros j no' Hj Fj [C1 C2]. destruct (decide (j = i)) as [->|Hne]; [by rewrite Hb in C1|].
    rewrite (on_others _ _ _ O j Hne) in *. apply (have_other _ _ _ _ _ _ _ _ H Hne) in Fj. rewrite Hd.
    by apply (bc_sync _ _ B j no').
Qed.

(** Reading a block changes no block's contents: what is evicted is on disk. *)
Lemma have_shows no l s i s' b x : bc_ok s l → have no l s i s' → shows s l b x → shows s' l b x.
Proof using.
  intros B H Hx. pose proof (have_ok _ _ _ _ _ B H) as B'. pose proof H as [O Hi Hf Hb Hv Hs Hd Ho].
  destruct (decide (b = no)) as [->|Hbn].
  { rewrite (shows_fun s l no x _ B Hx Hs). left. by exists i. }
  assert (Hni : ¬ is_for s' 1 b i) by (intros [_ E]; destruct Hf as [_ E']; congruence).
  destruct Hx as [(j & Hj & Fj & Vj & <-)|[Hn <-]].
  - destruct (decide (j = i)) as [->|Hne].
    + (* the evicted block *) destruct Ho as [[[_ E] _]|(Hc & _ & Hno & _)]; [destruct Fj as [_ E']; congruence|].
      right. split.
      * intros k Hk Fk. destruct (decide (k = i)) as [->|Hki]; [done|]. exfalso. apply Hki.
        apply (have_other _ _ _ _ _ _ _ _ H Hki) in Fk. by apply (bc_unique _ _ B k i b).
      * rewrite Hd. symmetry. by apply (bc_sync _ _ B i b).
    + left. exists j. rewrite (on_others _ _ _ O j Hne). split; [done|].
      split; [by apply (have_other _ _ _ _ _ _ _ _ H Hne)|done].
  - right. rewrite Hd. split; [|done]. intros k Hk Fk. destruct (decide (k = i)) as [->|Hki]; [done|].
    rewrite (on_others _ _ _ O k Hki). apply Hn; [done|]. by apply (have_other _ _ _ _ _ _ _ _ H Hki).
Qed.

(** bwrite puts the buffer's data on the disk. *)
Lemma wp_bwrite_buf s i no (Q : unit → bst → Prop) :
  b_busy (bufs s i) = true → is_for s 1 no i → 0 <= no < disksize s →
  (∀ s', kn s' = kn s → disksize s' = disksize s → memdisk s' = <[no := b_data (bufs s i)]> (memdisk s) →
     (∀ j, j ≠ i → bufs s' j = bufs s j) → bufs s' i = set_bflags true true false (bufs s i) → Q tt s') →
  wp (bwrite i) Q s.
Proof.
  intros Hb [F1 F2] Hno HQ. unfold bwrite, iderw, bu, upd. wp_steps. rewrite Hb. cbn [negb]. wp_steps.
  cbn [bufs]. rewrite fn_lookup_alter. cbn [b_busy b_valid b_dirty b_dev b_blockno set_bflags].
  rewrite Hb, F1, Z.eqb_refl. cbn [negb]. rewrite andb_false_r. wp_steps. cbn [disksize]. rewrite F2.
  rewrite (proj2 (Z.leb_gt _ _)) by lia. wp_steps. apply HQ; cbn [kn bufs memdisk disksize]; try done.
  - intros j Hj. by rewrite !fn_lookup_alter_ne.
  - rewrite !fn_lookup_alter. destruct (bufs s i). cbn in *. by rewrite Hb.
Qed.

(** The ring after brelse: the buffer comes first. *)
Definition to_front (i : nat) (l : list nat) : list nat := i :: filter (λ j, j ≠ i) l.

Lemma filter_one (i : nat) (l1 l2 : list nat) : NoDup (l1 ++ i :: l2) → filter (λ j, j ≠ i) (l1 ++ i :: l2) = l1 ++ l2.
Proof using.
  intros (H1 & H2 & H3)%NoDup_app. apply NoDup_cons in H3 as [H3 _]. rewrite filter_app, filter_cons_False by naive_solver.
  assert (G : ∀ l : list nat, i ∉ l → filter (λ j : nat, j ≠ i) l = l).
  { intros l Hl. induction l as [|y l IH]; [done|]. rewrite filter_cons_True by set_solver. f_equal. apply IH. set_solver. }
  rewrite !G; [done|done|]. intros Hi. apply (H2 i Hi). set_solver.
Qed.

(** The six assignments of brelse to the links. *)
Definition relinked (i : nat) (B : nat → buf) : nat → buf :=
  let B := alter (set_prev (b_prev (B i))) (b_next (B i)) B in
  let B := alter (set_next (b_next (B i))) (b_prev (B i)) B in
  let B := alter (set_next (b_next (B HEAD))) i B in
  let B := alter (set_prev HEAD) i B in
  let B := alter (set_prev i) (b_next (B HEAD)) B in
  alter (set_next i) HEAD B.

Lemma alter_field {A} (g : buf → A) (f : buf → buf) (j : nat) (B : nat → buf) v k :
  g (f (B j)) = v → g (alter f j B k) = (<[j := v]> (λ k, g (B k))) k.
Proof using.
  intros E. destruct (decide (k = j)) as [->|]; [by rewrite fn_lookup_alter, fn_lookup_insert|].
  by rewrite fn_lookup_alter_ne, fn_lookup_insert_ne.
Qed.
Lemma alter_keep {A} (g : buf → A) (f : buf → buf) (j : nat) (B : nat → buf) k :
  (∀ b, g (f b) = g b) → g (alter f j B k) = g (B k).
Proof using.
  intros E. destruct (decide (k = j)) as [->|]; [by rewrite fn_lookup_alter|by rewrite fn_lookup_alter_ne].
Qed.

(** The fields that are not links. *)
Definition payload (b : buf) := (b_busy b, b_valid b, b_dirty b, b_dev b, b_blockno b, b_data b).
Lemma relinked_payload i B k : payload (relinked i B k) = payload (B k).
Proof using. unfold relinked. cbv zeta. by rewrite !(alter_keep payload). Qed.

Lemma linked_ext_all nx pv nx' pv' a l z :
  (∀ b, nx' b = nx b) → (∀ b, pv' b = pv b) → linked nx pv a l z → linked nx' pv' a l z.
Proof using. intros H1 H2. apply linked_ext; intros b _; [apply H1|apply H2]. Qed.

Lemma relinked_ring i B l1 l2 :
  NoDup (HEAD :: l1 ++ i :: l2) → linked (λ k, b_next (B k)) (λ k, b_prev (B k)) HEAD (l1 ++ i :: l2) HEAD →
  linked (λ k, b_next (relinked i B k)) (λ k, b_prev (relinked i B k)) HEAD (i :: l1 ++ l2) HEAD.
Proof using.
  intros Hnd H. pose proof Hnd as Hnd'. apply NoDup_cons in Hnd as [Hh Hnd].
  pose proof (linked_next _ _ _ _ _ _ _ H) as Hn. pose proof (linked_prev _ _ _ _ _ _ _ H) as Hp.
  set (nx := λ k, b_next (B k)) in *. set (pv := λ k, b_prev (B k)) in *.
  assert (Hih : i ≠ HEAD) by (intros ->; apply Hh, elem_of_app; right; apply list_elem_of_here).
  apply NoDup_app in Hnd as (Hnd1 & Hd12 & Hnd2). apply NoDup_cons in Hnd2 as [Hi2 Hnd2].
  assert (Hi1 : i ∉ l1) by (intros Hi; apply (Hd12 i Hi), list_elem_of_here).
  assert (Hni : nx i ≠ i).
  { intros E. rewrite E in Hn. apply elem_of_app in Hn as [Hn|Hn%list_elem_of_singleton]; done. }
  pose proof (linked_unlink nx pv l1 HEAD i l2 HEAD Hnd' Hh H) as H1.
  set (nx2 := <[pv i := nx i]> nx) in *. set (pv1 := <[nx i := pv i]> pv) in *.
  assert (Hnd3 : NoDup (HEAD :: l1 ++ l2)).
  { apply NoDup_cons. split.
    - intros Hx. apply Hh. apply elem_of_app in Hx as [Hx|Hx]; apply elem_of_app; [by left|right; by apply list_elem_of_further].
    - apply NoDup_app. split; [done|]. split; [|done]. intros x X1 X2. apply (Hd12 x X1). by apply list_elem_of_further. }
  assert (Hi3 : i ∉ HEAD :: l1 ++ l2).
  { apply not_elem_of_cons. split; [done|]. intros [?|?]%elem_of_app; done. }
  pose proof (linked_push nx2 pv1 HEAD i (l1 ++ l2) Hnd3 Hi3 H1) as H2.
  eapply linked_ext_all; [| |exact H2]; intros k; unfold relinked; cbv zeta.
  - set (B1 := alter (set_prev (b_prev (B i))) (b_next (B i)) B).
    assert (E1 : ∀ k, b_next (B1 k) = nx k) by (intros; by apply (alter_keep b_next)).
    assert (P1 : b_prev (B1 i) = pv i) by (unfold B1; rewrite fn_lookup_alter_ne by exact Hni; done).
    set (B2 := alter (set_next (b_next (B1 i))) (b_prev (B1 i)) B1).
    assert (E2 : ∀ k, b_next (B2 k) = nx2 k).
    { intros k'. unfold B2. rewrite (alter_field b_next _ _ _ (nx i)), P1 by (cbn; apply E1). unfold nx2.
      destruct (decide (k' = pv i)) as [->|]; [by rewrite !fn_lookup_insert|].
      rewrite !fn_lookup_insert_ne by done. apply E1. }
    rewrite (alter_field b_next _ HEAD _ i) by done.
    destruct (decide (k = HEAD)) as [->|Hk]; [by rewrite !fn_lookup_insert|]. rewrite !(fn_lookup_insert_ne _ HEAD) by done.
    rewrite !(alter_keep b_next (set_prev _)) by done. rewrite (alter_field b_next _ i _ (nx2 HEAD)) by (cbn; apply E2).
    destruct (decide (k = i)) as [->|Hki]; [by rewrite !fn_lookup_insert|]. rewrite !fn_lookup_insert_ne by done. apply E2.
  - set (B1 := alter (set_prev (b_prev (B i))) (b_next (B i)) B).
    assert (E1 : ∀ k, b_next (B1 k) = nx k) by (intros; by apply (alter_keep b_next)).
    assert (P1 : ∀ k, b_prev (B1 k) = pv1 k) by (intros k'; unfold B1; by rewrite (alter_field b_prev _ _ _ (pv i))).
    assert (P1i : b_prev (B1 i) = pv i) by (rewrite P1; unfold pv1; by rewrite fn_lookup_insert_ne by exact Hni).
    set (B2 := alter (set_next (b_next (B1 i))) (b_prev (B1 i)) B1).
    assert (E2 : ∀ k, b_next (B2 k) = nx2 k).
    { intros k'. unfold B2. rewrite (alter_field b_next _ _ _ (nx i)), P1i by (cbn; apply E1). unfold nx2.
      destruct (decide (k' = pv i)) as [->|]; [by rewrite !fn_lookup_insert|].
      rewrite !fn_lookup_insert_ne by done. apply E1. }
    rewrite (alter_keep b_prev (set_next i)) by done.
    set (B3 := alter (set_next (b_next (B2 HEAD))) i B2). set (B4 := alter (set_prev HEAD) i B3).
    assert (Hh4 : b_next (B4 HEAD) = nx2 HEAD).
    { unfold B4, B3. rewrite !fn_lookup_alter_ne by exact Hih. apply E2. }
    rewrite Hh4, (alter_field b_prev _ _ _ i) by done.
    destruct (decide (k = nx2 HEAD)) as [->|Hk]; [by rewrite !fn_lookup_insert|]. rewrite !(fn_lookup_insert_ne _ (nx2 HEAD)) by done.
    unfold B4. rewrite (alter_field b_prev _ i _ HEAD) by done.
    destruct (decide (k = i)) as [->|Hki]; [by rewrite !fn_lookup_insert|]. rewrite !fn_lookup_insert_ne by done.
    unfold B3, B2. rewrite !(alter_keep b_prev (set_next _)) by done. apply P1.
Qed.

(** What brelse leaves: the same buffers, [i] first and no longer in use. *)
Record released (i : nat) (s s' : bst) : Prop := {
  rl_kern : kn s' = Kern.mkkern [] (Kern.woken (kn s) ++ [Kern.CBuf i]);
  rl_bufs : bufs s' = alter (λ b, set_bflags false (b_valid b) (b_dirty b) b) i (relinked i (bufs s));
  rl_disk : memdisk s' = memdisk s;
  rl_size : disksize s' = disksize s
}.

Lemma wp_bu k B d z i (Q : buf → bst → Prop) : Q (B i) (mkbst k B d z) → wp (bu i) Q (mkbst k B d z).
Proof. done. Qed.
Lemma wp_bupd k B d z i f (Q : unit → bst → Prop) :
  (∀ B', B' = alter f i B → Q tt (mkbst k B' d z)) → wp (upd i f) Q (mkbst k B d z).
Proof. intros HQ. by apply wp_modify, HQ. Qed.

Lemma wp_brelse_buf s i (Q : unit → bst → Prop) :
  Kern.quiet (kn s) → b_busy (bufs s i) = true → (∀ s', released i s s' → Q tt s') → wp (brelse i) Q s.
Proof.
  destruct s as [k B d z]. cbn [kn bufs]. intros Hq Hb HQ. unfold brelse. apply wp_bind, wp_bu. rewrite Hb. cbn [negb].
  apply wp_bind, wp_bacquire; [done|]. cbn [kn put_kn bufs memdisk disksize].
  apply wp_bind, wp_bu, wp_bind, wp_bupd. intros B1 E1.
  apply wp_bind, wp_bu, wp_bind, wp_bupd. intros B2 E2.
  apply wp_bind, wp_bu, wp_bind, wp_bupd. intros B3 E3.
  apply wp_bind, wp_bupd. intros B4 E4.
  apply wp_bind, wp_bu, wp_bind, wp_bupd. intros B5 E5.
  apply wp_bind, wp_bupd. intros B6 E6.
  apply wp_bind, wp_bupd. intros B7 E7.
  apply wp_bind, wp_zoom, wp_modify, wp_brelease; [done|]. apply HQ. split; [done|cbn [bufs put_kn]|done|done].
  cbn [bufs] in *. unfold relinked. cbv zeta. rewrite <-E1, <-E2, <-E3, <-E4, <-E5, <-E6. done.
Qed.

Lemma released_other i s s' j : released i s s' → j ≠ i → payload (bufs s' j) = payload (bufs s j).
Proof using. intros R Hj. rewrite (rl_bufs _ _ _ R), fn_lookup_alter_ne by done. apply relinked_payload. Qed.

Lemma released_at i s s' : released i s s' →
  payload (bufs s' i) =
    (false, b_valid (bufs s i), b_dirty (bufs s i), b_dev (bufs s i), b_blockno (bufs s i), b_data (bufs s i)).
Proof using.
  intros R. rewrite (rl_bufs _ _ _ R), fn_lookup_alter. pose proof (relinked_payload i (bufs s) i) as E.
  unfold payload in *. cbn [b_busy b_valid b_dirty b_dev b_blockno b_data set_bflags]. injection E as ? ? ? ? ? ?. congruence.
Qed.

(** All but the mark that it is in use. *)
Definition contents (b : buf) := (b_valid b, b_dirty b, b_dev b, b_blockno b, b_data b).
Lemma released_contents i s s' j : released i s s' → contents (bufs s' j) = contents (bufs s j).
Proof using.
  intros R. destruct (decide (j = i)) as [->|Hj].
  - pose proof (released_at _ _ _ R) as E. unfold payload, contents in *. injection E as ? ? ? ? ? ?. congruence.
  - pose proof (released_other _ _ _ _ R Hj) as E. unfold payload, contents in *. injection E as ? ? ? ? ? ?. congruence.
Qed.
Lemma released_is_for i s s' dev no j : released i s s' → (is_for s' dev no j ↔ is_for s dev no j).
Proof using.
  intros R. pose proof (released_contents _ _ _ j R) as E. unfold contents in E. unfold is_for. injection E as ? ? -> -> ?. done.
Qed.

Lemma released_ring i s s' l :
  bc_ok s l → i ∈ l → released i s s' → linked (nexts s') (prevs s') HEAD (to_front i l) HEAD.
Proof using.
  intros B Hi R. pose proof (bc_nodup _ _ B) as Hnd. pose proof (bc_ring _ _ B) as Hr.
  apply list_elem_of_split in Hi as (l1 & l2 & ->). unfold to_front.
  rewrite filter_one by (by apply NoDup_cons in Hnd as [_ ?]).
  eapply linked_ext_all; [| |exact (relinked_ring i (bufs s) l1 l2 Hnd Hr)]; intros k; unfold nexts, prevs; rewrite (rl_bufs _ _ _ R).
  - by rewrite (alter_keep b_next).
  - by rewrite (alter_keep b_prev).
Qed.

Lemma elem_to_front (i : nat) (l : list nat) j : i ∈ l → (j ∈ to_front i l ↔ j ∈ l).
Proof using.
  intros Hi. unfold to_front. rewrite elem_of_cons, list_elem_of_filter. destruct (decide (j = i)) as [->|]; naive_solver.
Qed.
Lemma length_to_front (i : nat) (l : list nat) : NoDup l → i ∈ l → length (to_front i l) = length l.
Proof using.
  intros Hnd (l1 & l2 & ->)%list_elem_of_split. unfold to_front. rewrite filter_one by done.
  cbn [length]. rewrite !length_app. cbn [length]. lia.
Qed.
Lemma NoDup_to_front (i : nat) (l : list nat) : NoDup (HEAD :: l) → i ∈ l → NoDup (HEAD :: to_front i l).
Proof using.
  intros [Hh Hnd]%NoDup_cons Hi. apply NoDup_cons. rewrite elem_to_front by done. split; [done|].
  apply NoDup_cons. split; [rewrite list_elem_of_filter; naive_solver|]. by apply NoDup_filter.
Qed.

Lemma released_ok i s s' l no :
  bc_ok s l → i ∈ l → is_for s 1 no i → b_valid (bufs s i) = true →
  (b_dirty (bufs s i) = false → b_data (bufs s i) = memdisk s no) →
  released i s s' → bc_ok s' (to_front i l).
Proof using.
  intros B Hi Hf Hv Hd R. pose proof (bc_nodup _ _ B) as Hnd. pose proof Hnd as [_ Hnd']%NoDup_cons. split.
  - by apply (released_ring _ s).
  - by apply NoDup_to_front.
  - rewrite length_to_front by done. apply (bc_all _ _ B).
  - intros j1 j2 no'. rewrite !elem_to_front, !(released_is_for _ _ _ _ _ _ R) by done. apply (bc_unique _ _ B).
  - intros j no'. rewrite elem_to_front, (released_is_for _ _ _ _ _ _ R) by done. intros Hj Fj Hb.
    destruct (decide (j = i)) as [->|Hne].
    + pose proof (released_at _ _ _ R) as E. injection E as ? ? ? ? ? ?. congruence.
    + pose proof (released_other _ _ _ _ R Hne) as E. injection E as ? ? ? ? ? ?.
      transitivity (b_valid (bufs s j)); [done|]. apply (bc_valid _ _ B j no'); congruence.
  - intros j no'. rewrite elem_to_front, (released_is_for _ _ _ _ _ _ R), (rl_disk _ _ _ R) by done. intros Hj Fj [C1 C2].
    destruct (decide (j = i)) as [->|Hne].
    + pose proof (released_at _ _ _ R) as E. injection E as ? ? ? ? ? ?. destruct Hf, Fj.
      assert (no' = no) as -> by congruence. rewrite <-Hd; congruence.
    + pose proof (released_other _ _ _ _ R Hne) as E. injection E as ? ? ? ? ? ?.
      transitivity (b_data (bufs s j)); [done|]. apply (bc_sync _ _ B j no'); [done|done|]. split; congruence.
Qed.

(** Giving a buffer back changes no block's contents. *)
Lemma released_shows i s s' l b x : i ∈ l → released i s s' → shows s l b x → shows s' (to_front i l) b x.
Proof using.
  intros Hi R. assert (C : ∀ j, contents (bufs s' j) = contents (bufs s j)) by (intros; by apply (released_contents i)).
  intros [(j & Hj & Fj & Vj & Dj)|[Hn Hm]].
  - left. exists j. rewrite elem_to_front, (released_is_for _ _ _ _ _ _ R) by done.
    specialize (C j). injection C as ? ? ? ? ?. repeat split; congruence || apply Fj.
  - right. rewrite (rl_disk _ _ _ R). split; [|done]. intros j.
    rewrite elem_to_front, (released_is_for _ _ _ _ _ _ R) by done. intros Hj Fj.
    specialize (C j). injection C as ? ? ? ? ?. etrans; [eassumption|]. by apply Hn.
Qed.

(** Who waits for the buffer is woken. *)
Definition woke (i : nat) (s : bst) : Prop := Kern.CBuf i ∈ Kern.woken (kn s).

(** A buffer in use may differ from the disk, and may be written to it. *)
Record held (i : nat) (no : Z) (s s' : bst) : Prop := {
  hd_for : is_for s 1 no i ∧ is_for s' 1 no i;
  hd_busy : b_busy (bufs s' i) = true;
  hd_others j : j ≠ i → bufs s' j = bufs s j;
  hd_links : b_next (bufs s' i) = b_next (bufs s i) ∧ b_prev (bufs s' i) = b_prev (bufs s i);
  hd_disk b : b ≠ no → memdisk s' b = memdisk s b
}.
Lemma held_ok i no s s' l : bc_ok s l → i ∈ l → held i no s s' → bc_ok s' l.
Proof using.
  intros B Hi [[Hf Hf'] Hb Ho [L1 L2] Hd].
  assert (F : ∀ j no', is_for s' 1 no' j → is_for s 1 no' j).
  { intros j no'. destruct (decide (j = i)) as [->|]; unfold is_for in *; [|by rewrite Ho].
    intros [_ E]. destruct Hf, Hf'. split; congruence. }
  split.
  - eapply linked_ext_all; [| |apply (bc_ring _ _ B)]; intros b; unfold nexts, prevs;
      destruct (decide (b = i)) as [->|]; rewrite ?Ho by done; done.
  - apply (bc_nodup _ _ B).
  - apply (bc_all _ _ B).
  - intros j1 j2 no' H1 H2 F1%F F2%F. by apply (bc_unique _ _ B j1 j2 no').
  - intros j no' Hj Fj%F Hj'. destruct (decide (j = i)) as [->|Hne]; [congruence|].
    rewrite Ho in * by done. by apply (bc_valid _ _ B j no').
  - intros j no' Hj Fj%F [C1 C2]. destruct (decide (j = i)) as [->|Hne]; [congruence|].
    rewrite Hd. { rewrite Ho in * by done. by apply (bc_sync _ _ B j no'). }
    intros ->. apply Hne. by apply (bc_unique _ _ B j i no).
Qed.
Lemma held_shows i no s s' l b x : bc_ok s l → i ∈ l → held i no s s' → b ≠ no → shows s l b x → shows s' l b x.
Proof using.
  intros B Hi [[[_ Hf] [_ Hf']] Hb Ho _ Hd] Hbn [(j & Hj & Fj & Vj & Dj)|[Hn Hm]].
  - left. exists j. assert (j ≠ i) by (intros ->; destruct Fj; congruence). unfold is_for. rewrite Ho by done. done.
  - right. rewrite Hd by done. split; [|done]. intros j Hj Fj.
    assert (j ≠ i) by (intros ->; destruct Fj; congruence). unfold is_for in Fj. rewrite Ho in * by done. by apply Hn.
Qed.

(** The way the log and the file system change a block on the disk: read it,
    change the data, write it and give the buffer back. *)
Definition write_through (no : Z) (x : list Z) : M bst unit :=
  i ← bread 1 no; upd i (set_bdata x);; bwrite i;; brelse i.

Lemma wp_write_through s l no x (Q : unit → bst → Prop) :
  bc_ok s l → Kern.quiet (kn s) → 0 <= no < disksize s →
  (∀ i, i ∈ l → is_for s 1 no i → b_busy (bufs s i) = false) →
  (∃ i, i ∈ l ∧ (is_for s 1 no i ∨ clean s i)) →
  (∀ i s', i ∈ l → bc_ok s' (to_front i l) → Kern.quiet (kn s') → woke i s' → memdisk s' = <[no := x]> (memdisk s) →
     shows s' (to_front i l) no x → (∀ b y, b ≠ no → shows s l b y → shows s' (to_front i l) b y) → Q tt s') →
  wp (write_through no x) Q s.
Proof.
  intros B Hq Hno Hnb Hex HQ. unfold write_through. apply wp_bind. apply (wp_bread_buf _ l); [done..|].
  intros i s1 H. pose proof (have_ok _ _ _ _ _ B H) as B1. pose proof H as [[Hq1 _ _ Hz] Hi Hf Hb Hv _ Hd _].
  unfold upd. wp_steps. apply (wp_bwrite_buf _ i no).
  { cbn [bufs]. by rewrite fn_lookup_alter. }
  { unfold is_for in *. cbn [bufs]. by rewrite fn_lookup_alter. }
  { cbn [disksize]. by rewrite Hz. }
  cbn [kn bufs memdisk disksize]. rewrite fn_lookup_alter. intros s2 K2 Z2 M2 O2 B2.
  assert (Hh : held i no s1 s2).
  { split; unfold is_for in *; rewrite ?B2; try done.
    - intros j Hj. by rewrite O2, fn_lookup_alter_ne.
    - intros b Hbn. by rewrite M2, fn_lookup_insert_ne. }
  pose proof (held_ok _ _ _ _ _ B1 Hi Hh) as Bc2. apply wp_brelse_buf; [by rewrite K2|by rewrite B2|].
  intros s3 R. apply (HQ i); try done.
  - apply (released_ok _ s2 _ _ no); try done; [apply Hh|by rewrite B2|]. rewrite B2, M2, fn_lookup_insert. done.
  - rewrite (rl_kern _ _ _ R). done.
  - unfold woke. rewrite (rl_kern _ _ _ R). cbn. apply elem_of_app. right. by apply list_elem_of_singleton.
  - rewrite (rl_disk _ _ _ R), M2, Hd. done.
  - apply (released_shows _ s2); [done..|]. left. exists i. rewrite B2. split; [done|]. split; [apply Hh|done].
  - intros b y Hbn Hs. apply (released_shows _ s2); [done..|]. apply (held_shows i no s1); [done..|].
    by apply (have_shows _ _ _ _ _ _ _ B H).
Qed.
End specs.

(** ** What [binit] leaves, and the claims *)

Definition ring0 : list nat := rev (seq 0 NBUF).

Lemma ring0_nodup : NoDup (HEAD :: ring0).
Proof. apply (bool_decide_unpack _). vm_compute. exact I. Qed.

Ltac vm_all := intros; vm_compute; repeat split; reflexivity.
Lemma binit_ring k b d z : let s' := match binit (mkbst k b d z) with Ok _ s' => s' | _ => mkbst k b d z end in
  linked (nexts s') (prevs s') HEAD ring0 HEAD.
Proof. vm_all. Qed.
Lemma binit_devs k b d z : let s' := match binit (mkbst k b d z) with Ok _ s' => s' | _ => mkbst k b d z end in
  map (λ i, b_dev (bufs s' i)) ring0 = repeat 4294967295 NBUF.
Proof. vm_all. Qed.

Lemma binit_rest k b d z :
  match binit (mkbst k b d z) with Ok _ s' => memdisk s' | _ => λ _, [] end = d ∧
  match binit (mkbst k b d z) with Ok _ s' => disksize s' | _ => 0 end = z ∧
  match binit (mkbst k b d z) with Ok _ _ => true | _ => false end = true.
Proof. vm_all. Qed.

(** The cache starts empty, whatever memory held. *)
Lemma binit_ok s : ∃ s', binit s = Ok tt s' ∧ bc_ok s' ring0 ∧ memdisk s' = memdisk s ∧ disksize s' = disksize s ∧
  (∀ i no, i ∈ ring0 → ¬ is_for s' 1 no i).
Proof.
  destruct s as [k b d z]. pose proof (binit_ring k b d z) as H1. pose proof (binit_devs k b d z) as H2.
  pose proof (binit_rest k b d z) as (H3 & H4 & H5). destruct (binit (mkbst k b d z)) as [[] s'| | |]; try done. exists s'.
  assert (Hn : ∀ i no, i ∈ ring0 → ¬ is_for s' 1 no i).
  { intros i no Hi [Hd _]. apply (list_elem_of_fmap_2 (λ i, b_dev (bufs s' i))) in Hi.
    change (fmap _ ring0) with (map (λ i, b_dev (bufs s' i)) ring0) in Hi. rewrite H2, Hd in Hi.
    apply list_elem_of_In, repeat_spec in Hi. done. }
  split; [done|]. split; [|done]. split; [exact H1|apply ring0_nodup|done|..];
    intros i; intros; exfalso; by eapply (Hn i).
Qed.

(** A machine whose cache was just initialised, with block [b] of its disk
    holding the single word [b]. *)
Definition booted : bst :=
  let s := mkbst (Kern.mkkern [] []) (λ _, mkbuf false false false 0 0 0 0%nat []) (λ b, [b]) 1000 in
  match binit s with Ok _ s' => s' | _ => s end.
Lemma booted_ok : bc_ok booted ring0 ∧ (∀ i no, i ∈ ring0 → ¬ is_for booted 1 no i).
Proof.
  unfold booted. cbv zeta. edestruct binit_ok as (s' & -> & H & _ & _ & Hn). done.
Qed.
Lemma booted_quiet : Kern.quiet (kn booted).
Proof. vm_compute. reflexivity. Qed.
Lemma booted_size : disksize booted = 1000.
Proof. vm_compute. reflexivity. Qed.
Lemma booted_clean : ∃ i, i ∈ ring0 ∧ clean booted i.
Proof. exists 0%nat. split; [apply (bool_decide_unpack _); vm_compute; exact I|]. vm_compute. done. Qed.

(** Bread of a block of the disk whose buffer is not in use, when it has
    one or some buffer can be recycled, returns (it neither panics nor waits)
    the block's only buffer: marked in use and valid, holding what the cache
    shows of the block (the cached contents, else the disk's).  The disk is not
    written, the cache keeps its invariant and shows every block as before, and
    a buffer is taken from another block only if it is neither in use nor dirty
    and every less recently used buffer is in use or dirty. *)
Theorem bread_caches (s : bst) (l : list nat) (no : Z) :
  bc_ok s l → Kern.quiet (kn s) → 0 <= no < disksize s →
  (∀ i, i ∈ l → is_for s 1 no i → b_busy (bufs s i) = false) →
  (∃ i, i ∈ l ∧ (is_for s 1 no i ∨ clean s i)) →
  ∃ i s', bread 1 no s = Ok i s' ∧ i ∈ l ∧ is_for s' 1 no i ∧
    b_busy (bufs s' i) = true ∧ b_valid (bufs s' i) = true ∧
    shows s l no (b_data (bufs s' i)) ∧ memdisk s' = memdisk s ∧ Kern.quiet (kn s') ∧
    bc_ok s' l ∧ (∀ b x, shows s l b x → shows s' l b x) ∧
    (is_for s 1 no i ∨
     (∀ j, j ∈ l → ¬ is_for s 1 no j) ∧ clean s i ∧ ∃ l1 l2, l = l1 ++ i :: l2 ∧ ∀ j, j ∈ l2 → ¬ clean s j).
Proof.
  intros B Hq Hno Hnb Hex. apply wp_total, (wp_bread_buf _ l); [done..|]. intros i s' H.
  pose proof (have_ok _ _ _ _ _ B H) as B'. pose proof H as [[Hq' _ _ _] Hi Hf Hb Hv Hs Hd Ho].
  do 8 (split; [done|]). split; [intros b x; apply (have_shows no l s i s' b x B H)|]. naive_solver.
Qed.

Lemma bread_caches_witness :
  ∃ i s', bread 1 7 booted = Ok i s' ∧ is_for s' 1 7 i ∧ b_valid (bufs s' i) = true ∧ bc_ok s' ring0.
Proof.
  destruct (bread_caches booted ring0 7) as (i & s' & H1 & _ & H2 & _ & H3 & _ & _ & _ & H4 & _).
  - apply booted_ok.
  - apply booted_quiet.
  - rewrite booted_size. lia.
  - intros i Hi Hf. destruct (proj2 booted_ok i 7 Hi Hf).
  - destruct booted_clean as (i & Hi & Hc). exists i. split; [exact Hi|]. right. exact Hc.
  - exists i, s'. exact (conj H1 (conj H2 (conj H3 H4))).
Defined.

(** C18: reading a block through the cache, changing its data, writing it and
    giving the buffer back returns; the disk then holds exactly the new data in
    that block and is otherwise unchanged, the cache shows the new data for
    that block and what it showed before for every other block, its invariant
    holds with that buffer moved to the front of the ring, and whoever waits
    for the buffer is woken. *)
Theorem write_through_updates (s : bst) (l : list nat) (no : Z) (x : list Z) :
  bc_ok s l → Kern.quiet (kn s) → 0 <= no < disksize s →
  (∀ i, i ∈ l → is_for s 1 no i → b_busy (bufs s i) = false) →
  (∃ i, i ∈ l ∧ (is_for s 1 no i ∨ clean s i)) →
  ∃ i s', write_through no x s = Ok tt s' ∧ i ∈ l ∧ bc_ok s' (to_front i l) ∧ Kern.quiet (kn s') ∧ woke i s' ∧
    memdisk s' = <[no := x]> (memdisk s) ∧ shows s' (to_front i l) no x ∧
    (∀ b y, b ≠ no → shows s l b y → shows s' (to_front i l) b y).
Proof.
  intros B Hq Hno Hnb Hex. pose (Q (_ : unit) s' := ∃ i, i ∈ l ∧ bc_ok s' (to_front i l) ∧ Kern.quiet (kn s') ∧ woke i s' ∧
    memdisk s' = <[no := x]> (memdisk s) ∧ shows s' (to_front i l) no x ∧
    (∀ b y, b ≠ no → shows s l b y → shows s' (to_front i l) b y)).
  destruct (wp_total (write_through no x) Q s) as ([] & s' & E & i & H).
  { apply (wp_write_through _ l); [done..|]. intros i s' **. by exists i. }
  by exists i, s'.
Qed.

Lemma write_through_updates_witness :
  ∃ i s', write_through 7 [42] booted = Ok tt s' ∧ bc_ok s' (to_front i ring0) ∧ shows s' (to_front i ring0) 7 [42].
Proof.
  destruct (write_through_updates booted ring0 7 [42]) as (i & s' & H1 & _ & H2 & _ & _ & _ & H3 & _).
  - apply booted_ok.
  - apply booted_quiet.
  - rewrite booted_size. lia.
  - intros i Hi Hf. destruct (proj2 booted_ok i 7 Hi Hf).
  - destruct booted_clean as (i & Hi & Hc). exists i. split; [exact Hi|]. right. exact Hc.
  - exists i, s'. exact (conj H1 (conj H2 H3)).
Defined.
End Bio.
