(* ===== verification/Log.v ===== *)
(** * The write-ahead log (log.c)

    The log runs on the block cache.  [cache b] is what the running system sees
    in block [b] and [disk b] what survives a crash; [held b] says that the
    block's buffer is B_BUSY and [dirty b] that it is B_DIRTY.  [bread] of a
    held block waits, [bwrite] makes the disk equal to the cache for that block
    in one atomic step, and a block that is neither held nor dirty may be
    dropped from the cache at any time, which is invisible as long as its cached
    contents are those of the disk (the invariant [clean]).  File Bio shows that
    bio.c provides this.  The device has the one file system, so blocks are
    named by their number.

    The cache has NBUF buffers, and bget panics when it needs one and every one
    is busy or dirty.  [spare] counts the buffers it could still recycle: a
    block that is neither held nor dirty takes one when it is read and gives it
    back when it is released clean.  [None] stands for a cache whose size is
    left out of account, as the layers above the log do.

    [trace] records the disk after every block write: the states a crash can
    leave behind. *)

From S2P Require Import Prelude Bytes Kern.
Local Open Scope Z_scope.

Module Log.
Import Bytes.

Definition BSIZE : nat := 512.
Definition MAXOPBLOCKS : Z := 10.
Definition LOGSIZE : Z := MAXOPBLOCKS * 3.
Definition NBUF : nat := 30.

Definition block : Type := list Z.

Record lst := mklst {
  kn : Kern.kern;
  disk : Z → block;
  cache : Z → block;
  dirty : Z → bool;
  held : Z → bool;
  spare : option nat;
  trace : list (Z → block);
  start : Z; size : Z;
  outstanding : Z; committing : bool;
  lh_n : Z; lh_block : list Z
}.

Definition put_kn (k : Kern.kern) (s : lst) : lst :=
  mklst k (disk s) (cache s) (dirty s) (held s) (spare s) (trace s) (start s) (size s) (outstanding s) (committing s) (lh_n s) (lh_block s).
Definition put_io (d c : Z → block) (f h : Z → bool) (t : list (Z → block)) (s : lst) : lst :=
  mklst (kn s) d c f h (spare s) t (start s) (size s) (outstanding s) (committing s) (lh_n s) (lh_block s).
Definition put_lh (n : Z) (b : list Z) (s : lst) : lst :=
  mklst (kn s) (disk s) (cache s) (dirty s) (held s) (spare s) (trace s) (start s) (size s) (outstanding s) (committing s) n b.
Definition put_ops (o : Z) (c : bool) (s : lst) : lst :=
  mklst (kn s) (disk s) (cache s) (dirty s) (held s) (spare s) (trace s) (start s) (size s) o c (lh_n s) (lh_block s).
Definition put_where (a z : Z) (s : lst) : lst :=
  mklst (kn s) (disk s) (cache s) (dirty s) (held s) (spare s) (trace s) a z (outstanding s) (committing s) (lh_n s) (lh_block s).
Definition put_spare (n : option nat) (s : lst) : lst :=
  mklst (kn s) (disk s) (cache s) (dirty s) (held s) n (trace s) (start s) (size s) (outstanding s) (committing s) (lh_n s) (lh_block s).

Definition acquire (k : Kern.lockid) : M lst unit := zoom kn put_kn (Kern.acquire k).
Definition release (k : Kern.lockid) : M lst unit := zoom kn put_kn (Kern.release k).
Definition initlock (k : Kern.lockid) : M lst unit := zoom kn put_kn (Kern.initlock k).
Definition wakeup (ch : Kern.chan) : M lst unit := zoom kn put_kn (Kern.wakeup ch).
Definition sleep {A} (ch : Kern.chan) (k : Kern.lockid) : M lst A := zoom kn put_kn (Kern.sleep ch k).

(** ** The block cache, as the log sees it *)

Definition bread (b : Z) : M lst block :=
  h ← gets (λ s, held s b);
  if (h : bool) then hang else
  d ← gets (λ s, dirty s b);
  n ← gets spare;
  (if (d : bool) then mret tt else
   match n with
   | Some O => panic "bget: no buffers"
   | _ => modify (put_spare (pred <$> n))
   end);;
  modify (λ s, put_io (disk s) (cache s) (dirty s) (<[b := true]> (held s)) (trace s) s);;
  gets (λ s, cache s b).
Definition bwrite (b : Z) : M lst unit :=
  h ← gets (λ s, held s b);
  if negb h then panic "bwrite" else
  modify (λ s, let d := <[b := cache s b]> (disk s) in
               put_io d (cache s) (<[b := false]> (dirty s)) (held s) (trace s ++ [d]) s).
Definition brelse (b : Z) : M lst unit :=
  h ← gets (λ s, held s b);
  if negb h then panic "brelse" else
  modify (λ s, put_spare (if dirty s b then spare s else S <$> spare s) s);;
  modify (λ s, put_io (disk s) (cache s) (dirty s) (<[b := false]> (held s)) (trace s) s).

(** The data of a held buffer, and writing it. *)
Definition data (b : Z) : M lst block := gets (λ s, cache s b).
Definition store (b : Z) (x : block) : M lst unit :=
  modify (λ s, put_io (disk s) (<[b := x]> (cache s)) (dirty s) (held s) (trace s) s).

(** [log.lh.block[i]]: outside the LOGSIZE entries of the array it faults. *)
Definition lh_get (i : nat) : M lst Z :=
  l ← gets lh_block; match l !! i with Some b => mret b | None => fault "log.lh.block" end.
Definition lh_set (i : nat) (b : Z) : M lst unit :=
  l ← gets lh_block;
  if decide (i < length l)%nat then modify (λ s, put_lh (lh_n s) (<[i := b]> (lh_block s)) s)
  else fault "log.lh.block".

(** ** Transactions *)

Definition install_trans : M lst unit :=
  n ← gets lh_n;
  a ← gets start;
  count_for (Z.to_nat n) 0 (λ tail,
    lbuf ← bread (a + Z.of_nat tail + 1);
    b ← lh_get tail;
    _ ← bread b;
    store b lbuf;;
    bwrite b;;
    brelse (a + Z.of_nat tail + 1);;
    brelse b;;
    mret (None : option unit));;
  mret tt.

(** The header block: [n], then the block numbers. *)
Definition hd_n (x : block) : Z := i32 (get32 x 0).
Definition hd_block (x : block) (i : nat) : Z := i32 (get32 x (4 + 4 * i)).

Definition read_head : M lst unit :=
  a ← gets start;
  buf ← bread a;
  modify (λ s, put_lh (hd_n buf) (lh_block s) s);;
  n ← gets lh_n;
  count_for (Z.to_nat n) 0 (λ i, lh_set i (hd_block buf i);; mret (None : option unit));;
  brelse a.

Definition write_head : M lst unit :=
  a ← gets start;
  hb ← bread a;
  n ← gets lh_n;
  store a (put32 hb 0 (u32 n));;
  count_for (Z.to_nat n) 0 (λ i,
    b ← lh_get i;
    hb ← data a;
    store a (put32 hb (4 + 4 * i) (u32 b));;
    mret (None : option unit));;
  bwrite a;;
  brelse a.

Definition recover_from_log : M lst unit :=
  read_head;;
  install_trans;;
  modify (λ s, put_lh 0 (lh_block s) s);;
  write_head.

(** [readsb] copies block 1; nlog and logstart are its words 3 and 4.  The
    header takes [4 * (LOGSIZE + 1)] bytes of a block, fewer than BSIZE. *)
Definition initlog : M lst unit :=
  if (Z.of_nat BSIZE <=? 4 * (LOGSIZE + 1)) then panic "initlog: too big logheader" else
  initlock Kern.LLog;;
  sb ← bread 1;
  brelse 1;;
  modify (put_where (i32 (get32 sb 16)) (i32 (get32 sb 12)));;
  recover_from_log.

(** One turn of the loop: it waits, or counts the operation in and leaves. *)
Definition begin_op : M lst unit :=
  acquire Kern.LLog;;
  c ← gets committing;
  if (c : bool) then sleep Kern.CLog Kern.LLog else
  n ← gets lh_n;
  o ← gets outstanding;
  if LOGSIZE <? n + (o + 1) * MAXOPBLOCKS then sleep Kern.CLog Kern.LLog else
  modify (λ s, put_ops (outstanding s + 1) (committing s) s);;
  release Kern.LLog.

Definition write_log : M lst unit :=
  n ← gets lh_n;
  a ← gets start;
  count_for (Z.to_nat n) 0 (λ tail,
    _ ← bread (a + Z.of_nat tail + 1);
    b ← lh_get tail;
    from ← bread b;
    store (a + Z.of_nat tail + 1) from;;
    bwrite (a + Z.of_nat tail + 1);;
    brelse b;;
    brelse (a + Z.of_nat tail + 1);;
    mret (None : option unit));;
  mret tt.

Definition commit : M lst unit :=
  n ← gets lh_n;
  if 0 <? n then
    write_log;;
    write_head;;
    install_trans;;
    modify (λ s, put_lh 0 (lh_block s) s);;
    write_head
  else mret tt.

Definition end_op : M lst unit :=
  acquire Kern.LLog;;
  modify (λ s, put_ops (outstanding s - 1) (committing s) s);;
  c ← gets committing;
  if (c : bool) then panic "log.committing" else
  o ← gets outstanding;
  (if o =? 0 then modify (λ s, put_ops (outstanding s) true s) else wakeup Kern.CLog);;
  release Kern.LLog;;
  if o =? 0 then
    commit;;
    acquire Kern.LLog;;
    modify (λ s, put_ops (outstanding s) false s);;
    wakeup Kern.CLog;;
    release Kern.LLog
  else mret tt.

(** The search loop of log_write: the first index with the block number, or [n]. *)
Fixpoint find_block (l : list Z) (n : nat) (b : Z) : nat :=
  match n, l with
  | S n, x :: l => if x =? b then O else S (find_block l n b)
  | _, _ => O
  end.

Definition log_write (b : Z) : M lst unit :=
  n ← gets lh_n;
  z ← gets size;
  if (LOGSIZE <=? n) || (z - 1 <=? n) then panic "too big a transaction" else
  o ← gets outstanding;
  if o <? 1 then panic "log_write outside of trans" else
  acquire Kern.LLog;;
  l ← gets lh_block;
  let i := find_block l (Z.to_nat n) b in
  lh_set i b;;
  (if Z.of_nat i =? n then modify (λ s, put_lh (lh_n s + 1) (lh_block s) s) else mret tt);;
  modify (λ s, put_spare (if held s b || dirty s b then spare s else pred <$> spare s) s);;
  modify (λ s, put_io (disk s) (cache s) (<[b := true]> (dirty s)) (held s) (trace s) s);;
  release Kern.LLog.

(** ** What a crash leaves, and what recovery makes of it *)

(** Installing [bs] from the log area of [d], in order. *)
Fixpoint install (a : Z) (i : nat) (bs : list Z) (d : Z → block) : Z → block :=
  match bs with
  | [] => d
  | b :: bs => install a (S i) bs (<[b := d (a + Z.of_nat i + 1)]> d)
  end.

Definition logged (x : block) : list Z := hd_block x <$> seq 0 (Z.to_nat (hd_n x)).

(** The file-system contents a disk stands for. *)
Definition replay (a : Z) (d : Z → block) : Z → block := install a 0 (logged (d a)) d.

(** The blocks that are not the log. *)
Definition home (a z b : Z) : Prop := b < a ∨ a + z <= b.

(** *** Installation, as a function *)

Lemma install_other a bs : ∀ i d b, b ∉ bs → install a i bs d b = d b.
Proof.
  induction bs as [|x bs IH]; intros i d b Hb; [done|]. simpl. rewrite IH by set_solver.
  apply fn_lookup_insert_ne. set_solver.
Qed.

Lemma install_lookup a z bs : ∀ i d j b,
  NoDup bs → Forall (home a z) bs → Z.of_nat (i + length bs) < z →
  bs !! j = Some b → install a i bs d b = d (a + Z.of_nat (i + j) + 1).
Proof.
  induction bs as [|x bs IH]; intros i d j b Hnd Hh Hz Hj; [done|].
  apply NoDup_cons in Hnd as [Hx Hnd]. apply Forall_cons in Hh as [Hhx Hh]. simpl in Hz.
  destruct j as [|j]; simpl in Hj.
  - injection Hj as ->. simpl. rewrite install_other by done. rewrite fn_lookup_insert, Nat.add_0_r. done.
  - simpl. rewrite (IH (S i) _ j b) by (done || lia). 
    assert (j < length bs)%nat by (by eapply lookup_lt_Some).
    rewrite fn_lookup_insert_ne.
    + f_equal. lia.
    + destruct Hhx; lia.
Qed.

(** What a disk with the header [bs] stands for. *)
Lemma replay_in a z d bs j b :
  logged (d a) = bs → NoDup bs → Forall (home a z) bs → Z.of_nat (length bs) < z →
  bs !! j = Some b → replay a d b = d (a + Z.of_nat j + 1).
Proof. intros <- Hnd Hh Hz Hj. unfold replay. by rewrite (install_lookup a z _ 0 d j). Qed.

Lemma replay_out a d bs b : logged (d a) = bs → b ∉ bs → replay a d b = d b.
Proof. intros <- Hb. by apply install_other. Qed.

Lemma logged_nil x : hd_n x = 0 → logged x = [].
Proof. unfold logged. by intros ->. Qed.

Lemma logged_eq x bs :
  hd_n x = Z.of_nat (length bs) → (∀ i b, bs !! i = Some b → hd_block x i = b) → logged x = bs.
Proof.
  intros Hn Hb. unfold logged. rewrite Hn, Nat2Z.id. apply list_eq. intros i.
  rewrite list_lookup_fmap. destruct (decide (i < length bs)%nat) as [Hi|Hi].
  - rewrite lookup_seq_lt by done. cbn. destruct (lookup_lt_is_Some_2 bs i Hi) as [b Eb].
    rewrite Eb. f_equal. by apply Hb.
  - rewrite lookup_seq_ge, lookup_ge_None_2 by lia. done.
Qed.

(** ** Steps of the cache *)

(** Lookups in functions updated at a point. *)
Ltac fn_at := cbn [kn disk cache dirty held spare trace start size outstanding committing lh_n lh_block
                   put_kn put_io put_lh put_ops put_where put_spare];
  repeat (rewrite fn_lookup_insert || (rewrite fn_lookup_insert_ne by (done || lia))).

Section cache.
Context `{mode : Mode}.

(** The recyclable buffers after block [b] is read, and after it is released. *)
Definition took (b : Z) (s : lst) : option nat := if dirty s b then spare s else pred <$> spare s.
Definition gave (b : Z) (s : lst) : option nat := if dirty s b then spare s else S <$> spare s.

Definition hold (b : Z) (h : bool) (s : lst) : lst :=
  put_io (disk s) (cache s) (dirty s) (<[b := h]> (held s)) (trace s)
    (put_spare (if h then took b s else gave b s) s).

(** There is a buffer for block [b]. *)
Definition has_buf (b : Z) (s : lst) : Prop := dirty s b = true ∨ spare s ≠ Some O.

Lemma wp_bread b s (Q : block → lst → Prop) :
  held s b = false → has_buf b s → Q (cache s b) (hold b true s) → wp (bread b) Q s.
Proof.
  intros Hh Hb HQ. unfold bread. wp_steps. rewrite Hh. wp_steps. unfold hold, took in HQ.
  destruct (dirty s b) eqn:Ed; [wp_steps; destruct s; exact HQ|]. destruct Hb as [?|Hb]; [congruence|].
  destruct (spare s) as [[|n]|] eqn:En; [done| |]; wp_steps; rewrite ?En in HQ; exact HQ.
Qed.

Lemma wp_brelse b s (Q : unit → lst → Prop) :
  held s b = true → Q tt (hold b false s) → wp (brelse b) Q s.
Proof. intros Hh HQ. unfold brelse. wp_steps. rewrite Hh. cbn [negb]. wp_steps. exact HQ. Qed.

Lemma wp_bwrite b s (Q : unit → lst → Prop) :
  held s b = true →
  (let d := <[b := cache s b]> (disk s) in
   Q tt (put_io d (cache s) (<[b := false]> (dirty s)) (held s) (trace s ++ [d]) s)) →
  wp (bwrite b) Q s.
Proof. intros Hh HQ. unfold bwrite. wp_steps. rewrite Hh. cbn [negb]. wp_steps. exact HQ. Qed.
End cache.

(** At least [k] buffers can be recycled. *)
Definition room (k : nat) (s : lst) : Prop := ∀ n, spare s = Some n → (k <= n)%nat.

Lemma room_one s : room 1 s → spare s ≠ Some O.
Proof. intros H E. specialize (H _ E). lia. Qed.
Lemma room_two s : room 2 s → pred <$> spare s ≠ Some O.
Proof. unfold room. destruct (spare s) as [[|[|n]]|]; cbn; intros H; try done; specialize (H _ eq_refl); lia. Qed.
Lemma room_less j k s : (j <= k)%nat → room k s → room j s.
Proof. intros Hj H n E. specialize (H n E). lia. Qed.
Lemma room_same k s s' : spare s' = spare s → room k s → room k s'.
Proof. unfold room. by intros ->. Qed.
Lemma spare_back s : room 1 s → S <$> (pred <$> spare s) = spare s.
Proof. unfold room. destruct (spare s) as [[|n]|]; intros H; [|done..]. specialize (H _ eq_refl). lia. Qed.
Lemma spare_back2 s : room 2 s → S <$> (S <$> (pred <$> (pred <$> spare s))) = spare s.
Proof.
  unfold room. destruct (spare s) as [[|[|n]]|]; intros H; [..|done]; try done; specialize (H _ eq_refl); lia.
Qed.

(** With no buffer in use, the blocks [D] are dirty and pin one buffer each. *)
Record pool (D : list Z) (s : lst) : Prop := {
  po_nodup : NoDup D;
  po_dirty b : dirty s b = true ↔ b ∈ D;
  po_spare n : spare s = Some n → (n + length D = NBUF)%nat
}.

Lemma pool_room D s k : pool D s → (length D + k <= NBUF)%nat → room k s.
Proof. intros [_ _ H] Hk n E. specialize (H n E). lia. Qed.
Lemma pool_clean D s b : pool D s → b ∉ D → dirty s b = false.
Proof. intros [_ H _] Hb. destruct (dirty s b) eqn:E; [|done]. by apply H in E. Qed.
Lemma pool_same D s s' : (∀ b, dirty s' b = dirty s b) → spare s' = spare s → pool D s → pool D s'.
Proof. intros Hd Hs [H1 H2 H3]. split; [done| |by rewrite Hs]. intros b. by rewrite Hd. Qed.

Create HintDb room.
#[export] Hint Resolve room_one room_two : room.
Ltac solve_buf :=
  try assumption; unfold has_buf, hold, took, gave; fn_at;
  first [left; by eauto
        |right; repeat match goal with H : dirty _ _ = _ |- _ => rewrite H end; by eauto with room].

Ltac io_step :=
  match goal with
  | |- wp (bread _) _ _ => apply wp_bread; [unfold hold; fn_at; first [done|by eauto]|solve_buf|]
  | |- wp (brelse _) _ _ => apply wp_brelse; [unfold hold; fn_at; first [done|by eauto]|]
  | |- wp (bwrite _) _ _ => apply wp_bwrite; [unfold hold; fn_at; first [done|by eauto]|]; cbv zeta
  | |- wp (store _ _) _ _ => unfold store
  | |- wp (data _) _ _ => unfold data
  | _ => wp_step
  end.
Ltac io_steps := repeat (io_step; cbn beta).

Section proofs.
Context `{mode : Mode}.
Context (a z : Z).

(** The transaction in memory: the block numbers [bs], distinct home blocks. *)
Definition trans (bs : list Z) : Prop :=
  NoDup bs ∧ Forall (λ b, home a z b ∧ 0 <= b < 2147483648) bs ∧
  Z.of_nat (length bs) < z ∧ Z.of_nat (length bs) <= LOGSIZE.

Definition in_mem (bs : list Z) (s : lst) : Prop :=
  start s = a ∧ lh_n s = Z.of_nat (length bs) ∧ length (lh_block s) = Z.to_nat LOGSIZE ∧
  take (length bs) (lh_block s) = bs.

(** No buffer is in use. *)
Definition idle (s : lst) : Prop := ∀ b, held s b = false.

(** The part of the state the disk operations leave alone. *)
Definition same_log (s s' : lst) : Prop :=
  kn s' = kn s ∧ start s' = start s ∧ size s' = size s ∧ outstanding s' = outstanding s ∧
  committing s' = committing s ∧ lh_n s' = lh_n s ∧ lh_block s' = lh_block s.

(** Every disk state passed through on the way satisfies [P]. *)
Definition passes (P : (Z → block) → Prop) (s s' : lst) : Prop :=
  ∃ tr, trace s' = trace s ++ tr ∧ Forall P tr.

Lemma passes_refl P s : passes P s s.
Proof. exists []. by rewrite app_nil_r. Qed.
Lemma passes_trans P s1 s2 s3 : passes P s1 s2 → passes P s2 s3 → passes P s1 s3.
Proof.
  intros (t1 & E1 & H1) (t2 & E2 & H2). exists (t1 ++ t2). rewrite E2, E1, app_assoc.
  split; [done|]. by apply Forall_app.
Qed.
Lemma passes_mono (P P' : (Z → block) → Prop) s s' : (∀ d, P d → P' d) → passes P s s' → passes P' s s'.
Proof. intros H (t & E & Ht). exists t. split; [done|]. by eapply Forall_impl. Qed.
Lemma passes_one (P : (Z → block) → Prop) s1 s2 s3 d :
  passes P s1 s2 → P d → trace s3 = trace s2 ++ [d] → passes P s1 s3.
Proof.
  intros H1 Hd E. eapply passes_trans; [exact H1|]. exists [d]. split; [done|]. by constructor.
Qed.

Lemma trans_home bs i b : trans bs → bs !! i = Some b → home a z b ∧ 0 <= b < 2147483648.
Proof. intros (_ & H & _) Hi. by eapply Forall_lookup_1 in H. Qed.
Lemma trans_homes bs : trans bs → Forall (home a z) bs.
Proof. intros (_ & H & _). eapply Forall_impl; [exact H|]. naive_solver. Qed.

Lemma wp_lh_get bs s i b (Q : Z → lst → Prop) :
  take (length bs) (lh_block s) = bs → bs !! i = Some b → Q b s → wp (lh_get i) Q s.
Proof.
  intros E Hi HQ. unfold lh_get. wp_steps.
  assert (Hl : lh_block s !! i = Some b).
  { rewrite <-E in Hi. apply lookup_take_Some in Hi as [? _]. done. }
  by rewrite Hl.
Qed.

(** *** write_head *)

Record head_done (bs : list Z) (s s' : lst) : Prop := {
  hd_log : same_log s s';
  hd_idle : idle s';
  hd_num : hd_n (disk s' a) = Z.of_nat (length bs);
  hd_list : logged (disk s' a) = bs;
  hd_len : length (disk s' a) = BSIZE;
  hd_sync : cache s' a = disk s' a;
  hd_rest b : b ≠ a → disk s' b = disk s b ∧ cache s' b = cache s b ∧ dirty s' b = dirty s b;
  hd_dirty : dirty s' a = false;
  hd_spare : spare s' = spare s;
  hd_trace : trace s' = trace s ++ [disk s']
}.

(** The header while it is being filled in: [k] block numbers are in place. *)
Record head_part (bs : list Z) (k : nat) (s s1 : lst) : Prop := {
  hp_log : same_log s s1;
  hp_held b : held s1 b = bool_decide (b = a);
  hp_disk : disk s1 = disk s;
  hp_trace : trace s1 = trace s;
  hp_dirty : dirty s1 = dirty s;
  hp_spare : spare s1 = pred <$> spare s;
  hp_cache b : b ≠ a → cache s1 b = cache s b;
  hp_len : length (cache s1 a) = BSIZE;
  hp_num : hd_n (cache s1 a) = Z.of_nat (length bs);
  hp_list i b : (i < k)%nat → bs !! i = Some b → hd_block (cache s1 a) i = b
}.

Lemma head_part_start bs s :
  trans bs → idle s → length (cache s a) = BSIZE → lh_n s = Z.of_nat (length bs) → dirty s a = false →
  head_part bs 0 s (put_io (disk s) (<[a := put32 (cache s a) 0 (u32 (lh_n s))]> (cache s)) (dirty s)
                      (<[a := true]> (held s)) (trace s) (put_spare (took a s) s)).
Proof.
  intros (_ & _ & _ & Hls) Hi Hlen En Hd. split; fn_at; try done.
  - intros b. cbn. case_bool_decide as Hb; [subst; by rewrite fn_lookup_insert|].
    rewrite fn_lookup_insert_ne by done. apply Hi.
  - unfold took. by rewrite Hd.
  - intros b Hb. by fn_at.
  - by rewrite length_put32.
  - unfold hd_n. rewrite get32_put32; [|rewrite Hlen; unfold BSIZE; lia|apply u32_range].
    rewrite i32_u32; [done|]. rewrite En. unfold LOGSIZE, MAXOPBLOCKS in Hls. lia.
  - intros; lia.
Qed.

Lemma head_part_step bs k b s s1 :
  trans bs → bs !! k = Some b → head_part bs k s s1 →
  head_part bs (S k) s (put_io (disk s1) (<[a := put32 (cache s1 a) (4 + 4 * k) (u32 b)]> (cache s1)) (dirty s1)
                      (held s1) (trace s1) s1).
Proof.
  intros Ht Eb [H1 H2 H3 H4 H5 H5' H6 H7 H8 H9]. pose proof (lookup_lt_Some _ _ _ Eb) as Hk.
  pose proof Ht as (_ & _ & _ & Hls). destruct (trans_home _ _ _ Ht Eb) as [_ Hb].
  assert (HB : (4 + 4 * k + 4 <= length (cache s1 a))%nat) by (rewrite H7; unfold BSIZE, LOGSIZE, MAXOPBLOCKS in *; lia).
  split; fn_at; try done.
  - intros b' Hb'. fn_at. by apply H6.
  - by rewrite length_put32.
  - unfold hd_n. rewrite get32_put32_ne by lia. exact H8.
  - intros i b' Hi Hb'. unfold hd_block. destruct (decide (i = k)) as [->|Hne].
    + rewrite get32_put32 by (done || apply u32_range). rewrite Eb in Hb'. injection Hb' as <-.
      apply i32_u32. lia.
    + rewrite get32_put32_ne by lia. apply H9; [lia|done].
Qed.

Lemma wp_write_head bs s (Q : unit → lst → Prop) :
  trans bs → in_mem bs s → idle s → length (cache s a) = BSIZE → dirty s a = false → room 1 s →
  (∀ s', head_done bs s s' → Q tt s') → wp write_head Q s.
Proof.
  intros Ht (Es & En & El & Et) Hi Hlen Hd Hr HQ. unfold write_head. io_steps. rewrite Es in *. io_steps.
  unfold hold; fn_at. replace (Z.to_nat (lh_n s)) with (length bs) by lia.
  apply (wp_count_for (λ k s1, (k <= length bs)%nat → head_part bs k s s1)).
  - intros _. exact (head_part_start bs s Ht Hi Hlen En Hd).
  - intros k s1 Hk H1. specialize (H1 ltac:(lia)). destruct (lookup_lt_is_Some_2 bs k ltac:(lia)) as [b Eb].
    wp_steps. apply (wp_lh_get bs _ _ b); [|done|].
    { destruct (hp_log _ _ _ _ H1) as (_ & _ & _ & _ & _ & _ & ->). done. }
    io_steps. intros _. by apply (head_part_step bs k b s s1).
  - intros s1 H1. destruct (H1 ltac:(lia)) as [P1 P2 P3 P4 P5 P5' P6 P7 P8 P9].
    assert (held s1 a = true) by (by rewrite P2, bool_decide_true). io_steps.
    apply HQ. unfold hold. split; fn_at; try done.
    + intros b. cbn. destruct (decide (b = a)) as [->|Hb]; fn_at; [done|]. by rewrite P2, bool_decide_false.
    + apply logged_eq; [done|]. intros i b Hb. apply P9; [|done]. by eapply lookup_lt_Some.
    + intros b Hb. fn_at. rewrite P3, P5. split; [done|]. split; [by apply P6|done].
    + unfold gave. fn_at. rewrite P5'. by apply spare_back.
    + by rewrite P4.
Qed.
(** *** write_log *)

(** Block [b] is one of the log's data blocks in use. *)
Definition slot (n : nat) (b : Z) : Prop := a < b <= a + Z.of_nat n.

Record logw_part (bs : list Z) (k : nat) (s s1 : lst) : Prop := {
  lw_log : same_log s s1;
  lw_idle : idle s1;
  lw_rest b : ¬ slot k b → disk s1 b = disk s b ∧ cache s1 b = cache s b ∧ dirty s1 b = dirty s b;
  lw_data i b : (i < k)%nat → bs !! i = Some b →
    disk s1 (a + Z.of_nat i + 1) = cache s b ∧ cache s1 (a + Z.of_nat i + 1) = cache s b ∧
    dirty s1 (a + Z.of_nat i + 1) = false;
  lw_spare : spare s1 = spare s;
  lw_trace : passes (λ d, ∀ b, ¬ slot (length bs) b → d b = disk s b) s s1
}.

(** A block held and released again is as it was. *)
Lemma idle_after s s' (l : list Z) :
  idle s → (∀ b, b ∉ l → held s' b = held s b) → (∀ b, b ∈ l → held s' b = false) → idle s'.
Proof. intros Hi H1 H2 b. destruct (decide (b ∈ l)); [by apply H2|]. rewrite H1 by done. apply Hi. Qed.

Lemma slot_not_home bs k : trans bs → (k < length bs)%nat → (a + Z.of_nat k + 1) ∉ bs.
Proof.
  intros Ht Hk (j & Hj)%list_elem_of_lookup. destruct (trans_home _ _ _ Ht Hj) as [Hh _].
  destruct Ht as (_ & _ & ? & _). unfold home in Hh. lia.
Qed.

Lemma wp_write_log bs s (Q : unit → lst → Prop) :
  trans bs → in_mem bs s → idle s → pool bs s → room 1 s →
  (∀ s', logw_part bs (length bs) s s' → Q tt s') → wp write_log Q s.
Proof.
  intros Ht Hm Hid Hp Hr HQ. pose proof Hm as (Es & En & El & Et).
  unfold write_log. wp_steps. rewrite Es, En, Nat2Z.id.
  apply (wp_count_for (λ k s1, (k <= length bs)%nat → logw_part bs k s s1)).
  - intros _. split; try done; [|apply passes_refl]. intros; lia.
  - intros k s1 Hk H1. destruct (H1 ltac:(lia)) as [Sl Hi1 Hsame Hw Hsp Htr].
    destruct (lookup_lt_is_Some_2 bs k ltac:(lia)) as [b Eb].
    destruct (trans_home _ _ _ Ht Eb) as [Hh _].
    assert (Hbk : b ≠ a + Z.of_nat k + 1) by (destruct Ht as (_ & _ & ? & _); unfold home in Hh; lia).
    assert (Hds : dirty s1 (a + Z.of_nat k + 1) = false).
    { destruct (Hsame (a + Z.of_nat k + 1)) as (_ & _ & ->); [unfold slot; lia|].
      apply (pool_clean bs); [done|]. apply slot_not_home; [done|lia]. }
    assert (Hdb : dirty s1 b = true).
    { destruct (Hsame b) as (_ & _ & ->); [destruct Ht as (_ & _ & ? & _); unfold slot, home in *; lia|].
      apply (po_dirty _ _ Hp). by eapply list_elem_of_lookup_2. }
    pose proof (room_same 1 s s1 Hsp Hr) as Hr1.
    io_steps. apply (wp_lh_get bs _ _ b); [|done|].
    { unfold hold; fn_at. destruct Sl as (_ & _ & _ & _ & _ & _ & ->). done. }
    io_steps. intros _. unfold hold.
    assert (Hcb : cache s1 b = cache s b) by (apply Hsame; destruct Ht as (_ & _ & ? & _); unfold slot, home in *; lia).
    split; fn_at.
    + done.
    + eapply (idle_after s1 _ [b; a + Z.of_nat k + 1]); [done|intros b' Hb'|intros b' Hb'].
      * fn_at. rewrite !not_elem_of_cons in Hb'. destruct Hb' as (? & ? & _).
        by rewrite !fn_lookup_insert_ne by done.
      * fn_at. rewrite !elem_of_cons, elem_of_nil in Hb'. destruct (decide (b' = a + Z.of_nat k + 1)) as [->|]; fn_at; [done|].
        destruct Hb' as [->|[->|[]]]; [by fn_at|done].
    + intros b' Hb'. assert (b' ≠ a + Z.of_nat k + 1) by (unfold slot in Hb'; lia).
      fn_at. apply Hsame. unfold slot in *; lia.
    + intros i b' Hi Hb'. destruct (decide (i = k)) as [->|Hne].
      * fn_at. rewrite Eb in Hb'. injection Hb' as <-. done.
      * fn_at. apply Hw; [lia|done].
    + unfold took, gave. fn_at. rewrite Hds, Hdb, spare_back by done. exact Hsp.
    + eapply passes_one; [exact Htr| |done]. intros b' Hb'.
      rewrite fn_lookup_insert_ne by (unfold slot in Hb'; lia). apply Hsame. unfold slot in *; lia.
  - intros s1 H1. wp_steps. apply HQ, H1. lia.
Qed.

(** *** install_trans *)

(** The blocks still dirty after [k] blocks are installed: all the others at a
    commit, none at a recovery. *)
Definition unclean (committed : bool) (bs : list Z) (k : nat) : list Z := if committed then drop k bs else [].

Record inst_part (f : bool) (bs : list Z) (k : nat) (s s1 : lst) : Prop := {
  it_log : same_log s s1;
  it_idle : idle s1;
  it_rest b : b ∉ bs → disk s1 b = disk s b ∧ cache s1 b = cache s b ∧ dirty s1 b = dirty s b;
  it_data i b : (i < k)%nat → bs !! i = Some b →
    disk s1 b = disk s (a + Z.of_nat i + 1) ∧ cache s1 b = disk s (a + Z.of_nat i + 1) ∧ dirty s1 b = false;
  it_pool : pool (unclean f bs k) s1;
  it_trace : passes (λ d, ∀ b, b ∉ bs → d b = disk s b) s s1
}.

(** Installing one block: its buffer becomes clean. *)
Lemma pool_install f bs k b s s1 :
  pool (unclean f bs k) s → bs !! k = Some b → NoDup bs → room (if f then 1 else 2) s →
  (∀ b', dirty s1 b' = <[b := false]> (dirty s) b') →
  spare s1 = S <$> (S <$> (pred <$> (if f then spare s else pred <$> spare s))) →
  pool (unclean f bs (S k)) s1.
Proof.
  intros [H1 H2 H3] Eb Hnd Hr Hd Hs. destruct f; cbn [unclean] in *.
  - rewrite (drop_S _ _ _ Eb) in H1, H2, H3. apply NoDup_cons in H1 as [Hb H1]. split; [done| |].
    + intros b'. rewrite Hd. destruct (decide (b' = b)) as [->|Hne]; fn_at; [done|]. rewrite H2. set_solver.
    + intros n. rewrite Hs.  rewrite spare_back by done. destruct (spare s) as [m|]; [|done]. cbn. intros [= <-].
      specialize (H3 _ eq_refl). cbn in H3. lia.
  - split; [done| |].
    + intros b'. rewrite Hd. destruct (decide (b' = b)) as [->|Hne]; fn_at; [set_solver|]. apply H2.
    + intros n. rewrite Hs, spare_back2 by done. apply H3.
Qed.

Lemma wp_install f bs s (Q : unit → lst → Prop) :
  trans bs → in_mem bs s → idle s → pool (unclean f bs 0) s →
  (length (unclean f bs 0) + (if f then 1 else 2) <= NBUF)%nat →
  (∀ i, (i < length bs)%nat → cache s (a + Z.of_nat i + 1) = disk s (a + Z.of_nat i + 1)) →
  (∀ s', inst_part f bs (length bs) s s' → Q tt s') → wp install_trans Q s.
Proof.
  intros Ht Hm Hid Hp Hr Heq HQ. pose proof Hm as (Es & En & El & Et).
  unfold install_trans. wp_steps. rewrite Es, En, Nat2Z.id.
  apply (wp_count_for (λ k s1, (k <= length bs)%nat → inst_part f bs k s s1)).
  - intros _. split; try done; [|apply passes_refl]. intros; lia.
  - intros k s1 Hk H1. destruct (H1 ltac:(lia)) as [Sl Hi1 Hsame Hw Hsp Htr].
    destruct (lookup_lt_is_Some_2 bs k ltac:(lia)) as [b Eb].
    assert (Hb : b ∈ bs) by (by eapply list_elem_of_lookup_2).
    assert (Hns : (a + Z.of_nat k + 1) ∉ bs) by (apply slot_not_home; [done|lia]).
    assert (Hbk : b ≠ a + Z.of_nat k + 1) by (intros ->; done).
    assert (Hds : dirty s1 (a + Z.of_nat k + 1) = false).
    { apply (pool_clean _ _ _ Hsp). destruct f; [|set_solver]. cbn. intros Hin. apply Hns. rewrite <-(take_drop k bs). apply elem_of_app. by right. }
    assert (Hdb : dirty s1 b = f).
    { destruct f; [|apply (pool_clean _ _ _ Hsp); set_solver]. apply (po_dirty _ _ Hsp). cbn.
      rewrite (drop_S _ _ _ Eb). by left. }
    assert (Hr1 : room (if f then 1 else 2) s1).
    { apply (pool_room _ _ _ Hsp). revert Hr. destruct f; cbn; rewrite ?length_drop; lia. }
    assert (Hr2 : room 1 s1) by (destruct f; [done|by eapply room_less, Hr1; lia]).
    assert (Hnb : has_buf b (hold (a + Z.of_nat k + 1) true s1)).
    { unfold has_buf, hold, took. fn_at. rewrite Hds, Hdb. destruct f; [by left|right; by apply room_two]. }
    io_steps. apply (wp_lh_get bs _ _ b); [|done|].
    { unfold hold; fn_at. destruct Sl as (_ & _ & _ & _ & _ & _ & ->). done. }
    io_steps. intros _. unfold hold.
    assert (Ev : cache s1 (a + Z.of_nat k + 1) = disk s (a + Z.of_nat k + 1)).
    { rewrite (proj1 (proj2 (Hsame _ Hns))). apply Heq. lia. }
    split; fn_at.
    + done.
    + eapply (idle_after s1 _ [b; a + Z.of_nat k + 1]); [done|intros b' Hb'|intros b' Hb'].
      * fn_at. rewrite !not_elem_of_cons in Hb'. destruct Hb' as (? & ? & _).
        by rewrite !fn_lookup_insert_ne by done.
      * fn_at. rewrite !elem_of_cons, elem_of_nil in Hb'. destruct (decide (b' = b)) as [->|]; fn_at; [done|].
        destruct Hb' as [->|[->|[]]]; [done|by fn_at].
    + intros b' Hb'. assert (b' ≠ b) by (intros ->; done). fn_at. by apply Hsame.
    + intros i b' Hi Hb'. destruct (decide (i = k)) as [->|Hne].
      * rewrite Eb in Hb'. injection Hb' as <-. fn_at. done.
      * assert (b' ≠ b) by (intros ->; apply Hne; destruct Ht as [Hnd _]; by eapply NoDup_lookup).
        fn_at. apply Hw; [lia|done].
    + apply (pool_install f bs k b s1); fn_at; [done|done|by destruct Ht|done|done|].
      unfold took, gave. fn_at. rewrite Hds, Hdb. by destruct f.
    + eapply passes_one; [exact Htr| |done]. intros b' Hb'.
      rewrite fn_lookup_insert_ne by (intros ->; done). by apply Hsame.
  - intros s1 H1. wp_steps. apply HQ, H1. lia.
Qed.
(** *** commit *)

(** Between operations: the transaction [bs] is in memory only, and the disk
    and the cache differ at most in its blocks. *)
Record pending (bs : list Z) (s : lst) : Prop := {
  pe_trans : trans bs;
  pe_mem : in_mem bs s;
  pe_idle : idle s;
  pe_head : hd_n (disk s a) = 0;
  pe_len : length (disk s a) = BSIZE;
  pe_clean b : dirty s b = false → cache s b = disk s b;
  pe_pool : pool bs s
}.
Lemma pe_dirty bs s (P : pending bs s) b : dirty s b = true → b ∈ bs.
Proof. apply (po_dirty _ _ (pe_pool _ _ P)). Qed.

(** The file system a disk stands for is [f]. *)
Definition stands_for (d f : Z → block) : Prop := ∀ b, home a z b → replay a d b = f b.

(** A disk as a crash may leave it: a header that names distinct home blocks. *)
Record crashed (bs : list Z) (d : Z → block) : Prop := {
  cr_trans : trans bs;
  cr_num : hd_n (d a) = Z.of_nat (length bs);
  cr_list : logged (d a) = bs;
  cr_len : length (d a) = BSIZE
}.

(** Recovery from [d] is possible and gives [f]. *)
Definition recovers_to (d f : Z → block) : Prop := stands_for d f ∧ ∃ bs, crashed bs d.

Lemma trans_start bs : trans bs → a ∉ bs.
Proof.
  intros Ht (j & Hj)%list_elem_of_lookup. destruct (trans_home _ _ _ Ht Hj) as [Hh _].
  destruct Ht as (_ & _ & ? & _). unfold home in Hh. lia.
Qed.
Lemma home_not_slot bs b : trans bs → home a z b → ¬ slot (length bs) b ∧ b ≠ a.
Proof. intros (_ & _ & ? & _). unfold home, slot. lia. Qed.

(** A disk with a cleared header stands for itself. *)
Lemma stands_empty d : hd_n (d a) = 0 → stands_for d d.
Proof. intros H b _. eapply replay_out; [by apply logged_nil|]. apply not_elem_of_nil. Qed.

(** A disk with the header [bs] stands for [f] when the log holds [f]'s
    contents of [bs] and the other blocks are in place. *)
Lemma stands_logged bs d f :
  trans bs → logged (d a) = bs →
  (∀ i b, bs !! i = Some b → d (a + Z.of_nat i + 1) = f b) →
  (∀ b, home a z b → b ∉ bs → d b = f b) → stands_for d f.
Proof.
  intros Ht Hl Hin Hout b Hb. destruct (decide (b ∈ bs)) as [Hbs|Hbs].
  - apply list_elem_of_lookup in Hbs as [j Hj]. rewrite <-(Hin j b Hj). pose proof Ht as (? & _ & ? & _).
    apply (replay_in a z d bs); try done. by apply trans_homes.
  - rewrite <-(Hout b) by done. by eapply replay_out.
Qed.

Lemma stands_ext d f g : (∀ b, home a z b → f b = g b) → stands_for d f → stands_for d g.
Proof. intros H Hd b Hb. rewrite Hd by done. by apply H. Qed.

Lemma pending_start bs s : pending bs s → cache s a = disk s a.
Proof.
  intros P. apply (pe_clean bs s P). destruct (dirty s a) eqn:E; [|done].
  destruct (trans_start bs (pe_trans _ _ P)). by apply (pe_dirty _ _ P).
Qed.

Lemma trans_nil : 0 < z → trans [].
Proof. intros. split; [constructor|]. split; [constructor|]. unfold LOGSIZE, MAXOPBLOCKS. cbn. lia. Qed.

Lemma in_mem_nil s : start s = a → length (lh_block s) = Z.to_nat LOGSIZE → in_mem [] (put_lh 0 (lh_block s) s).
Proof. intros ? ?. by split. Qed.

(** The log's other variables. *)
Definition same_ops (s s' : lst) : Prop :=
  kn s' = kn s ∧ start s' = start s ∧ size s' = size s ∧ outstanding s' = outstanding s ∧
  committing s' = committing s.

Record commit_done (s s' : lst) : Prop := {
  cd_ops : same_ops s s';
  cd_pending : pending [] s';
  cd_home b : home a z b → disk s' b = cache s b ∧ cache s' b = cache s b;
  cd_crash : passes (λ d, recovers_to d (disk s) ∨ recovers_to d (cache s)) s s'
}.

Lemma same_log_mem bs s s' : same_log s s' → in_mem bs s → in_mem bs s'.
Proof. intros (_ & E1 & _ & _ & _ & E2 & E3) (? & ? & ? & ?). split; rewrite ?E1, ?E2, ?E3; done. Qed.

(** The four phases of a commit of [bs], and what the disk is after each. *)
Section phases.
Context (bs : list Z) (s s1 s2 s3 s4 : lst).
Hypothesis P : pending bs s.
Hypothesis W : logw_part bs (length bs) s s1.
Hypothesis H : head_done bs s1 s2.
Hypothesis I : inst_part true bs (length bs) s2 s3.
Hypothesis E : head_done [] (put_lh 0 (lh_block s3) s3) s4.

Let Ht : trans bs := pe_trans _ _ P.

Lemma pending_out b : b ∉ bs → cache s b = disk s b.
Proof using P.
  intros Hb. apply (pe_clean _ _ P). destruct (dirty s b) eqn:Ed; [|done]. by apply (pe_dirty _ _ P) in Ed.
Qed.

Lemma ph_slot i b : bs !! i = Some b →
  disk s2 (a + Z.of_nat i + 1) = cache s b ∧ cache s2 (a + Z.of_nat i + 1) = cache s b ∧
  dirty s2 (a + Z.of_nat i + 1) = false.
Proof using W H.
  intros Eb. destruct (hd_rest _ _ _ H (a + Z.of_nat i + 1)) as (-> & -> & ->); [lia|].
  apply (lw_data _ _ _ _ W); [|done]. by eapply lookup_lt_Some.
Qed.

Lemma slot_index b : slot (length bs) b → ∃ i b', bs !! i = Some b' ∧ b = a + Z.of_nat i + 1.
Proof using.
  intros Hs. destruct (lookup_lt_is_Some_2 bs (Z.to_nat (b - a - 1))) as [b' Eb'].
  - unfold slot in Hs. lia.
  - exists (Z.to_nat (b - a - 1)), b'. split; [done|]. unfold slot in Hs. lia.
Qed.

Lemma ph_pool : pool (unclean true bs 0) s2.
Proof using P W H Ht.
  cbn. rewrite drop_0. apply (pool_same bs s); [|by rewrite (hd_spare _ _ _ H), (lw_spare _ _ _ _ W)|apply (pe_pool _ _ P)].
  assert (Hcl : ∀ b, b ∉ bs → dirty s b = false) by (intros; by apply (pool_clean _ _ _ (pe_pool _ _ P))).
  intros b. destruct (decide (b = a)) as [->|Hba].
  { rewrite (hd_dirty _ _ _ H). symmetry. apply Hcl. by apply trans_start. }
  destruct (decide (slot (length bs) b)) as [Hs|Hs].
  - destruct (slot_index b Hs) as (i & b' & Eb' & ->). destruct (ph_slot i b' Eb') as (_ & _ & ->).
    symmetry. apply Hcl, slot_not_home; [done|by eapply lookup_lt_Some].
  - destruct (hd_rest _ _ _ H b Hba) as (_ & _ & ->). by destruct (lw_rest _ _ _ _ W b Hs) as (_ & _ & ->).
Qed.

Lemma ph_other b : home a z b → b ∉ bs → disk s2 b = cache s b ∧ cache s2 b = cache s b.
Proof using P W H Ht.
  intros Hb Hbs. destruct (home_not_slot bs b Ht Hb) as [Hns Hna].
  destruct (hd_rest _ _ _ H b Hna) as (-> & -> & _). destruct (lw_rest _ _ _ _ W b Hns) as (-> & -> & _).
  split; [|done]. symmetry. by apply pending_out.
Qed.

(** Every disk from the header write to the end of the installation. *)
Lemma ph_new d : (∀ b, b ∉ bs → d b = disk s2 b) → recovers_to d (cache s).
Proof using P W H Ht.
  intros Hd. split.
  2: { exists bs. destruct H. split; rewrite ?Hd by (by apply trans_start); done. }
  apply (stands_logged bs); [done|rewrite Hd by (by apply trans_start); apply (hd_list _ _ _ H)| |].
  - intros i b Eb. rewrite Hd; [by apply ph_slot|]. apply slot_not_home; [done|by eapply lookup_lt_Some].
  - intros b Hb Hbs. rewrite Hd by done. by apply ph_other.
Qed.

(** Every disk before the header write. *)
Lemma ph_old d : (∀ b, ¬ slot (length bs) b → d b = disk s b) → recovers_to d (disk s).
Proof using P Ht.
  intros Hd. assert (Ha : d a = disk s a) by (apply Hd; unfold slot; lia). split.
  2: { exists []. destruct P. split; rewrite ?Ha; try done; [|by apply logged_nil].
       apply trans_nil. destruct Ht as (_ & _ & ? & _). lia. }
  apply (stands_ext _ d); [intros b Hb; apply Hd; by apply (home_not_slot bs)|].
  apply stands_empty. rewrite Ha. apply (pe_head _ _ P).
Qed.

Lemma ph_final b : home a z b → disk s4 b = cache s b ∧ cache s4 b = cache s b.
Proof using P W H I E Ht.
  intros Hb. destruct (home_not_slot bs b Ht Hb) as [_ Hna].
  destruct (hd_rest _ _ _ E b Hna) as (-> & -> & _). fn_at. destruct (decide (b ∈ bs)) as [Hbs|Hbs].
  - apply list_elem_of_lookup in Hbs as [j Hj]. destruct (it_data _ _ _ _ _ I j b) as (-> & -> & _);
      [by eapply lookup_lt_Some|done|]. destruct (ph_slot j b Hj) as (-> & _). done.
  - destruct (it_rest _ _ _ _ _ I b Hbs) as (-> & -> & _). by apply ph_other.
Qed.

Lemma ph_log b : ¬ home a z b → cache s4 b = disk s4 b.
Proof using P W H I E Ht.
  intros Hb. destruct (decide (b = a)) as [->|Hba]; [apply (hd_sync _ _ _ E)|].
  destruct (hd_rest _ _ _ E b Hba) as (-> & -> & _). fn_at.
  assert (b ∉ bs) as Hbs.
  { intros Hbs. pose proof (trans_homes _ Ht) as Hf. rewrite Forall_forall in Hf. by apply Hb, Hf. }
  destruct (it_rest _ _ _ _ _ I b Hbs) as (-> & -> & _).
  destruct (decide (slot (length bs) b)) as [Hs|Hs].
  - destruct (slot_index b Hs) as (i & b' & Eb' & ->). by destruct (ph_slot i b' Eb') as (-> & -> & _).
  - destruct (hd_rest _ _ _ H b Hba) as (-> & -> & _). destruct (lw_rest _ _ _ _ W b Hs) as (-> & -> & _).
    by apply pending_out.
Qed.

Lemma ph_dirty b : dirty s4 b = false.
Proof using P W H I E Ht.
  destruct (decide (b = a)) as [->|Hba]; [apply (hd_dirty _ _ _ E)|].
  destruct (hd_rest _ _ _ E b Hba) as (_ & _ & ->). fn_at. destruct (decide (b ∈ bs)) as [Hbs|Hbs].
  - apply list_elem_of_lookup in Hbs as [j Hj].
    destruct (it_data _ _ _ _ _ I j b) as (_ & _ & ->); [by eapply lookup_lt_Some|done..].
  - destruct (it_rest _ _ _ _ _ I b Hbs) as (_ & _ & ->). destruct (decide (slot (length bs) b)) as [Hs|Hs].
    + destruct (slot_index b Hs) as (i & b' & Eb' & ->). apply (ph_slot i b' Eb').
    + destruct (hd_rest _ _ _ H b Hba) as (_ & _ & ->). destruct (lw_rest _ _ _ _ W b Hs) as (_ & _ & ->).
      destruct (dirty s b) eqn:Ed; [|done]. by apply (pe_dirty _ _ P) in Ed.
Qed.

Lemma ph_mem : in_mem [] (put_lh 0 (lh_block s3) s3).
Proof using P W H I.
  pose proof (same_log_mem _ _ _ (it_log _ _ _ _ _ I) (same_log_mem _ _ _ (hd_log _ _ _ H)
    (same_log_mem _ _ _ (lw_log _ _ _ _ W) (pe_mem _ _ P)))) as (? & _ & ? & _). by apply in_mem_nil.
Qed.

Lemma ph_pending : pending [] s4.
Proof using P W H I E Ht.
  split.
  - apply trans_nil. destruct Ht as (_ & _ & ? & _). lia.
  - eapply same_log_mem; [exact (hd_log _ _ _ E)|exact ph_mem].
  - apply (hd_idle _ _ _ E).
  - apply (hd_num _ _ _ E).
  - apply (hd_len _ _ _ E).
  - intros b _. destruct (decide (home a z b)) as [Hb|Hb]; [by destruct (ph_final b Hb) as [-> ->]|by apply ph_log].
  - pose proof (it_pool _ _ _ _ _ I) as [_ _ Hs]. cbn in Hs. rewrite drop_all in Hs. split; [constructor| |].
    + intros b. rewrite ph_dirty, elem_of_nil. done.
    + intros n. rewrite (hd_spare _ _ _ E). fn_at. apply Hs.
Qed.

Lemma ph_crash : passes (λ d, recovers_to d (disk s) ∨ recovers_to d (cache s)) s s4.
Proof using P W H I E Ht.
  eapply passes_trans; [eapply passes_mono; [|exact (lw_trace _ _ _ _ W)]; intros d Hd; left; by apply ph_old|].
  eapply passes_one; [|right|exact (hd_trace _ _ _ E)].
  - eapply passes_trans; [eapply (passes_one _ s1 s1 s2); [apply passes_refl|right; by apply ph_new|exact (hd_trace _ _ _ H)]|].
    eapply passes_mono; [|exact (it_trace _ _ _ _ _ I)]. intros d Hd. right. by apply ph_new.
  - split; [apply (stands_ext _ (disk s4)); [intros b Hb; by apply ph_final|]; apply stands_empty, (hd_num _ _ _ E)|].
    exists []. destruct E. split; try done. apply trans_nil. destruct Ht as (_ & _ & ? & _). lia.
Qed.

Lemma ph_done : commit_done s s4.
Proof using P W H I E Ht.
  split; [|exact ph_pending|exact ph_final|exact ph_crash].
  pose proof (lw_log _ _ _ _ W) as (? & ? & ? & ? & ? & ?). pose proof (hd_log _ _ _ H) as (? & ? & ? & ? & ? & ?).
  pose proof (it_log _ _ _ _ _ I) as (? & ? & ? & ? & ? & ?). pose proof (hd_log _ _ _ E) as (? & ? & ? & ? & ? & ?).
  unfold same_ops. cbn in *. repeat split; congruence.
Qed.
End phases.

Lemma wp_commit bs s (Q : unit → lst → Prop) :
  pending bs s → (length bs < NBUF)%nat → (∀ s', commit_done s s' → Q tt s') → wp commit Q s.
Proof.
  intros P Hnb HQ. pose proof P as [Ht Hm Hi Hh Hlen Hcl Hpo].
  pose proof (pool_room _ _ 1 Hpo ltac:(lia)) as Hr. pose proof Hm as (Es & En & El & Et).
  unfold commit. wp_steps. rewrite En. destruct (Z.ltb_spec 0 (Z.of_nat (length bs))) as [Hpos|Hpos].
  - wp_steps. apply (wp_write_log bs); [done..|]. intros s1 W.
    pose proof (same_log_mem _ _ _ (lw_log _ _ _ _ W) Hm) as M1.
    apply wp_bind, (wp_write_head bs); [done|done|apply (lw_idle _ _ _ _ W)| | |by eapply room_same; [apply (lw_spare _ _ _ _ W)|]|].
    { destruct (lw_rest _ _ _ _ W a) as (_ & -> & _); [unfold slot; lia|]. by rewrite (pending_start _ _ P). }
    { destruct (lw_rest _ _ _ _ W a) as (_ & _ & ->); [unfold slot; lia|].
      apply (pool_clean _ _ _ Hpo). by apply trans_start. }
    intros s2 H. pose proof (same_log_mem _ _ _ (hd_log _ _ _ H) M1) as M2.
    apply wp_bind, (wp_install true bs); [done|done|apply (hd_idle _ _ _ H)|by eapply ph_pool|cbn; rewrite drop_0; lia| |].
    { intros i Hib. destruct (lookup_lt_is_Some_2 bs i Hib) as [b Eb].
      by destruct (ph_slot bs s s1 s2 W H i b Eb) as (-> & -> & _). }
    intros s3 I. pose proof (it_pool _ _ _ _ _ I) as Hp3. cbn in Hp3. rewrite drop_all in Hp3.
    wp_steps. apply (wp_write_head []);
      [apply trans_nil; destruct Ht as (_ & _ & ? & _); lia|by eapply ph_mem|apply (it_idle _ _ _ _ _ I)| |
       apply (pool_clean _ _ _ Hp3), not_elem_of_nil|apply (pool_room _ _ 1 Hp3); cbn; unfold NBUF; lia|].
    { fn_at. destruct (it_rest _ _ _ _ _ I a) as (_ & -> & _); [by apply trans_start|].
      rewrite (hd_sync _ _ _ H). apply (hd_len _ _ _ H). }
    intros s4 E. apply HQ. by apply (ph_done bs s s1 s2 s3 s4).
  - assert (Ebs : bs = []) by (destruct bs; [done|simpl in Hpos; lia]). subst bs.
    wp_steps. apply HQ. split; [done|done| |apply passes_refl].
    intros b _. split; [|done]. symmetry. apply (pending_out [] s P), not_elem_of_nil.
Qed.

(** *** Recovery *)

(** The machine has just started: nothing is cached but what the disk holds. *)
Record booting (s : lst) : Prop := {
  bo_idle : idle s;
  bo_sync b : cache s b = disk s b;
  bo_dirty b : dirty s b = false;
  bo_spare n : spare s = Some n → n = NBUF;
  bo_array : length (lh_block s) = Z.to_nat LOGSIZE
}.

Lemma logged_lookup x bs i b : logged x = bs → bs !! i = Some b → hd_block x i = b.
Proof.
  intros <- Hi. unfold logged in Hi. rewrite list_lookup_fmap in Hi. pose proof Hi as Hs.
  apply fmap_Some in Hs as (j & Hj & ->). apply lookup_seq in Hj as [-> _]. done.
Qed.

Lemma wp_read_head bs s (Q : unit → lst → Prop) :
  crashed bs (disk s) → booting s → start s = a →
  (∀ s', in_mem bs s' → booting s' → same_ops s s' → disk s' = disk s → trace s' = trace s → Q tt s') →
  wp read_head Q s.
Proof.
  intros [Ht Hn Hl Hlen] [Hi Hsy Hd Hsp Hb] Es HQ.
  assert (Hr : room 1 s) by (intros n ->%Hsp; unfold NBUF; lia). unfold read_head. wp_steps. rewrite Es. io_steps.
  unfold hold; fn_at. rewrite Hsy, Hn, Nat2Z.id.
  assert (Hcap : (length bs <= Z.to_nat LOGSIZE)%nat) by (destruct Ht as (_ & _ & _ & ?); lia).
  apply (wp_count_for (λ k s1, (k <= length bs)%nat →
    (∀ b, held s1 b = bool_decide (b = a)) ∧ disk s1 = disk s ∧ cache s1 = cache s ∧ dirty s1 = dirty s ∧
    spare s1 = pred <$> spare s ∧ trace s1 = trace s ∧ same_ops s s1 ∧ lh_n s1 = Z.of_nat (length bs) ∧
    length (lh_block s1) = Z.to_nat LOGSIZE ∧ take k (lh_block s1) = take k bs)).
  - intros _. fn_at. unfold took. rewrite Hd. split; [|done]. intros b. case_bool_decide; [subst; by fn_at|]. fn_at. apply Hi.
  - intros k s1 Hk H1. destruct (H1 ltac:(lia)) as (Hh & Ed & Ec & Ef & Esp & Etr & So & En & El & Et).
    destruct (lookup_lt_is_Some_2 bs k ltac:(lia)) as [b Eb].
    unfold lh_set. wp_steps. rewrite decide_True by lia. wp_steps. intros _. fn_at.
    repeat (split; [done|]). rewrite length_insert. split; [done|].
    rewrite (take_S_r _ _ b) by (rewrite list_lookup_insert_eq by lia; f_equal; by eapply logged_lookup).
    rewrite (take_S_r _ _ b Eb), take_insert_ge, Et by lia. done.
  - intros s1 H1. destruct (H1 ltac:(lia)) as (Hh & Ed & Ec & Ef & Esp & Etr & So & En & El & Et).
    assert (held s1 a = true) by (by rewrite Hh, bool_decide_true). io_steps. unfold hold.
    apply HQ; fn_at; try done.
    + split; fn_at; [by rewrite (proj1 (proj2 So)), Es|]. split; [done|]. split; [done|]. cbn in Et. by rewrite Et, firstn_all.
    + split; fn_at; [|by rewrite Ed, Ec|by rewrite Ef| |done].
      2: { intros n. unfold gave. rewrite Ef, Hd, Esp, spare_back by done. apply Hsp. }
      intros b. cbn. destruct (decide (b = a)) as [->|]; fn_at; [done|]. by rewrite Hh, bool_decide_false.
Qed.

Record recovered (s s' : lst) : Prop := {
  re_ops : same_ops s s';
  re_pending : pending [] s';
  re_home b : home a z b → disk s' b = replay a (disk s) b ∧ cache s' b = replay a (disk s) b;
  re_crash : passes (λ d, recovers_to d (replay a (disk s))) s s'
}.

Lemma same_ops_log s s' : same_log s s' → same_ops s s'.
Proof. intros (? & ? & ? & ? & ? & _). done. Qed.
Lemma same_ops_trans s s' s'' : same_ops s s' → same_ops s' s'' → same_ops s s''.
Proof. unfold same_ops. intros (? & ? & ? & ? & ?) (? & ? & ? & ? & ?). repeat split; congruence. Qed.

Lemma replay_installed bs d d' :
  crashed bs d → (∀ b, b ∉ bs → d' b = d b) → stands_for d' (replay a d).
Proof.
  intros C Hd. pose proof (cr_trans _ _ C) as Ht. apply (stands_logged bs).
  - done.
  - rewrite Hd by (by apply trans_start). apply (cr_list _ _ C).
  - intros i b Eb. rewrite Hd by (apply slot_not_home; [done|by eapply lookup_lt_Some]).
    symmetry. pose proof Ht as (? & _ & ? & _).
    apply (replay_in a z d bs); [apply (cr_list _ _ C)|done|by apply trans_homes|done|done].
  - intros b _ Hb. rewrite Hd by done. symmetry. by apply (replay_out a d bs); [apply (cr_list _ _ C)|].
Qed.

Lemma wp_recover bs s (Q : unit → lst → Prop) :
  crashed bs (disk s) → booting s → start s = a →
  (∀ s', recovered s s' → Q tt s') → wp recover_from_log Q s.
Proof.
  intros C Hbo Es HQ. pose proof (cr_trans _ _ C) as Ht. assert (Hna : a ∉ bs) by (by apply trans_start).
  unfold recover_from_log. apply wp_bind, (wp_read_head bs); [done..|].
  intros s1 M1 [I1 Y1 F1 G1 A1] O1 D1 T1.
  assert (Hp1 : pool [] s1).
  { split; [constructor| |]; [intros b; by rewrite F1, elem_of_nil|]. intros n ->%G1. apply Nat.add_0_r. }
  apply wp_bind, (wp_install false bs); [done|done|done|exact Hp1|cbn; unfold NBUF; lia|intros; by rewrite Y1|].
  intros s2 [L2 I2 R2 W2 Hp2 T2]. cbn in Hp2. pose proof (same_log_mem _ _ _ L2 M1) as M2. wp_steps.
  destruct (R2 a Hna) as (Ed & Ec & Ef).
  apply (wp_write_head []); [apply trans_nil; destruct Ht as (_ & _ & ? & _); lia|
    apply in_mem_nil; by destruct M2 as (? & _ & ? & _)|done|fn_at; rewrite Ec, Y1, D1; apply (cr_len _ _ C)|
    apply (pool_clean _ _ _ Hp2), not_elem_of_nil|apply (pool_room _ _ 1 Hp2); cbn; unfold NBUF; lia|].
  intros s3 [L3 I3 N3 G3 Len3 S3 R3 F3 P3 T3].
  assert (Hrep : ∀ b, b ≠ a → disk s3 b = replay a (disk s) b ∧ cache s3 b = replay a (disk s) b ∧ dirty s3 b = false).
  { intros b Hba. destruct (R3 b Hba) as (-> & -> & ->). fn_at. destruct (decide (b ∈ bs)) as [Hb|Hb].
    - apply list_elem_of_lookup in Hb as [j Hj]. pose proof Ht as (? & _ & ? & _).
      rewrite (replay_in a z (disk s) bs j b (cr_list _ _ C)) by (done || by apply trans_homes).
      rewrite <-D1. apply W2; [by eapply lookup_lt_Some|done].
    - destruct (R2 b Hb) as (-> & -> & ->). rewrite (replay_out a (disk s) bs b (cr_list _ _ C) Hb), Y1, D1. done. }
  apply HQ. split.
  - eapply same_ops_trans; [exact O1|]. eapply same_ops_trans; [by apply same_ops_log, L2|].
    apply same_ops_log in L3. exact L3.
  - split; [apply trans_nil; destruct Ht as (_ & _ & ? & _); lia|
      eapply same_log_mem; [exact L3|]; apply in_mem_nil; by destruct M2 as (? & _ & ? & _)|done|done|done| |].
    + intros b _. destruct (decide (b = a)) as [->|Hba]; [done|]. by destruct (Hrep b Hba) as (-> & -> & _).
    + split; [constructor| |].
      * intros b. rewrite elem_of_nil. destruct (decide (b = a)) as [->|Hba]; [by rewrite F3|].
        by destruct (Hrep b Hba) as (_ & _ & ->).
      * intros n. rewrite P3. apply (po_spare _ _ Hp2).
  - intros b Hb. destruct (home_not_slot bs b Ht Hb) as [_ Hba]. by destruct (Hrep b Hba) as (? & ? & _).
  - unfold passes. rewrite <-T1. change (passes (λ d, recovers_to d (replay a (disk s))) s1 s3).
    eapply passes_one; [eapply passes_mono; [|exact T2]| |exact T3].
    + intros d Hd. rewrite D1 in Hd. split; [by apply (replay_installed bs)|]. exists bs. destruct C.
      split; rewrite ?Hd by done; done.
    + split.
      * apply (stands_ext _ (disk s3)); [|by apply stands_empty].
        intros b Hb. destruct (home_not_slot bs b Ht Hb) as [_ Hba]. by apply Hrep.
      * exists []. split; [apply trans_nil; destruct Ht as (_ & _ & ? & _); lia|done..].
Qed.
(** *** log_write *)

Definition absorb (bs : list Z) (b : Z) : list Z := if decide (b ∈ bs) then bs else bs ++ [b].

Lemma find_block_in l n b : b ∈ take n l → take n l !! find_block l n b = Some b.
Proof.
  revert l; induction n as [|n IH]; intros [|x l]; try (intros H; by apply elem_of_nil in H).
  cbn [take find_block]. intros H. destruct (Z.eqb_spec x b) as [->|Hx]; [done|].
  apply elem_of_cons in H as [?|H]; [done|]. by apply IH.
Qed.
Lemma find_block_out l n b : (n <= length l)%nat → b ∉ take n l → find_block l n b = n.
Proof.
  revert l; induction n as [|n IH]; intros [|x l] Hl; try done; [simpl in Hl; lia|].
  cbn [take find_block]. intros H. apply not_elem_of_cons in H as [H1 H2].
  destruct (Z.eqb_spec x b) as [->|Hx]; [done|]. f_equal. apply IH; [simpl in Hl; lia|done].
Qed.

Lemma absorb_trans bs b :
  trans bs → home a z b → 0 <= b < 2147483648 →
  Z.of_nat (length bs) < LOGSIZE → Z.of_nat (length bs) < z - 1 → trans (absorb bs b).
Proof.
  intros (H1 & H2 & H3 & H4) Hh Hb Hl Hz. unfold absorb. case_decide as D; [done|].
  split; [|split].
  - apply NoDup_app. split; [done|]. split; [set_solver|apply NoDup_singleton].
  - apply Forall_app. split; [done|]. by constructor.
  - rewrite length_app. simpl. lia.
Qed.

Lemma kern_back k : Kern.quiet k → Kern.mkkern [] (Kern.woken k) = k.
Proof. destruct k. cbn. unfold Kern.quiet. cbn. by intros ->. Qed.

Lemma wp_lacquire k s (Q : unit → lst → Prop) :
  Kern.quiet (kn s) → Q tt (put_kn (Kern.mkkern [k] (Kern.woken (kn s))) s) → wp (acquire k) Q s.
Proof. intros Hq HQ. apply wp_zoom, Kern.wp_kacquire; done. Qed.
Lemma wp_lrelease k s (Q : unit → lst → Prop) :
  Kern.lks (kn s) = [k] → Q tt (put_kn (Kern.mkkern [] (Kern.woken (kn s))) s) → wp (release k) Q s.
Proof. intros Hq HQ. apply wp_zoom, Kern.wp_krelease; done. Qed.

Lemma wp_lwakeup ch s (Q : unit → lst → Prop) :
  Q tt (put_kn (Kern.mkkern (Kern.lks (kn s)) (Kern.woken (kn s) ++ [ch])) s) → wp (wakeup ch) Q s.
Proof. intros HQ. exact HQ. Qed.

(** The state after log_write of [b]. *)
Definition logged_state (s : lst) (n : Z) (l : list Z) (b : Z) : lst :=
  put_lh n l (put_io (disk s) (cache s) (<[b := true]> (dirty s)) (held s) (trace s)
    (put_spare (if held s b || dirty s b then spare s else pred <$> spare s) s)).

Lemma wp_log_write bs b s (Q : unit → lst → Prop) :
  in_mem bs s → Kern.quiet (kn s) → 1 <= outstanding s →
  Z.of_nat (length bs) < LOGSIZE → Z.of_nat (length bs) < size s - 1 →
  (∀ n l, in_mem (absorb bs b) (logged_state s n l b) → Q tt (logged_state s n l b)) →
  wp (log_write b) Q s.
Proof.
  intros (Es & En & El & Et) Hq Ho Hl Hz HQ. unfold log_write. wp_steps. rewrite En.
  rewrite (proj2 (Z.leb_gt _ _)) by lia. rewrite (proj2 (Z.leb_gt _ _)) by lia. cbn [orb].
  wp_steps. rewrite (proj2 (Z.ltb_ge _ _)) by lia. apply wp_bind, wp_lacquire; [done|]. wp_steps.
  rewrite Nat2Z.id. fn_at. cbv zeta.
  assert (Hcap : (length bs < length (lh_block s))%nat) by (rewrite El; lia).
  destruct (decide (b ∈ bs)) as [Hb|Hb].
  - pose proof (find_block_in (lh_block s) (length bs) b ltac:(by rewrite Et)) as Hf. rewrite Et in Hf.
    pose proof (lookup_lt_Some _ _ _ Hf) as Hlt. unfold lh_set. wp_steps. fn_at.
    rewrite decide_True by lia. wp_steps. destruct (Z.eqb_spec (Z.of_nat (find_block (lh_block s) (length bs) b)) (Z.of_nat (length bs))); [lia|].
    wp_steps. apply wp_lrelease; [done|]. cbn. rewrite kern_back by done. fn_at.
    apply (HQ (lh_n s) (<[find_block (lh_block s) (length bs) b := b]> (lh_block s))).
    unfold absorb. rewrite decide_True by done. split; [done|]. split; [done|]. unfold logged_state; fn_at.
    split; [by rewrite length_insert|]. rewrite take_insert_lt, Et by lia. by apply list_insert_id.
  - assert (Hf : find_block (lh_block s) (length bs) b = length bs) by (apply find_block_out; [lia|by rewrite Et]).
    rewrite Hf. unfold lh_set. wp_steps. fn_at. rewrite decide_True by lia. wp_steps. rewrite Z.eqb_refl.
    wp_steps. apply wp_lrelease; [done|]. cbn. rewrite kern_back by done. fn_at.
    apply (HQ (lh_n s + 1) (<[length bs := b]> (lh_block s))).
    unfold absorb. rewrite decide_False by done. split; [done|]. unfold logged_state; fn_at. rewrite length_app. simpl.
    split; [lia|]. split; [by rewrite length_insert|]. rewrite Nat.add_1_r, (take_S_r _ _ b).
    + by rewrite take_insert_ge, Et by lia.
    + by rewrite list_lookup_insert_eq.
Qed.
End proofs.
End Log.
