(* ===== verification/LogProps.v ===== *)
(** * The log's promises

    A machine that interleaves file-system operations on the log, and the
    properties: transactions reach the disk atomically, recovery restores a
    transaction boundary from any crash, and which operations find room.  They
    hold for a log of up to NBUF blocks, header included (mkfs makes one of
    LOGSIZE = NBUF blocks), so that a commit also finds the buffers it needs. *)

From stdpp Require Import relations.
From S2P Require Import Prelude Bytes Kern Log.
Local Open Scope Z_scope.

Module LogProps.
Import Log.

(** What a client does to a block inside a transaction. *)
Definition update (b : Z) (x : block) : M lst unit :=
  _ ← bread b;
  store b x;;
  log_write b;;
  brelse b.

(** A machine state: the log, how many more blocks each operation in progress
    may still write, and the file system as of the last commit. *)
Record mst := mkmst { lg : lst; budget : list nat; saved : Z → block }.

Section machine.
Context (a z : Z).

Inductive step : mst → mst → Prop :=
| step_begin s s' ops f :
    begin_op s = Ok tt s' → step (mkmst s ops f) (mkmst s' (Z.to_nat MAXOPBLOCKS :: ops) f)
| step_update s s' ops f i k b x :
    ops !! i = Some (S k) → home a z b → 0 <= b < 2147483648 →
    update b x s = Ok tt s' → step (mkmst s ops f) (mkmst s' (<[i := k]> ops) f)
| step_end s s' ops f i :
    (i < length ops)%nat → end_op s = Ok tt s' →
    step (mkmst s ops f) (mkmst s' (delete i ops) (if decide (length ops = 1%nat) then cache s else f)).

(** The invariant: the pending transaction fits with all the budgets, and
    nothing of it has reached the disk. *)
Record minv (bs : list Z) (m : mst) : Prop := {
  mi_pending : pending a z bs (lg m);
  mi_quiet : Kern.quiet (kn (lg m));
  mi_size : size (lg m) = z;
  mi_idle : committing (lg m) = false;
  mi_ops : outstanding (lg m) = Z.of_nat (length (budget m));
  mi_each : Forall (λ k, (k <= Z.to_nat MAXOPBLOCKS)%nat) (budget m);
  mi_room : Z.of_nat (length bs + sum_list (budget m)) <= LOGSIZE;
  mi_empty : budget m = [] → bs = [];
  mi_saved b : home a z b → disk (lg m) b = saved m b
}.

Lemma sum_bound l k : Forall (λ x, (x <= k)%nat) l → (sum_list l <= length l * k)%nat.
Proof. induction 1; simpl; lia. Qed.
Lemma sum_insert (l : list nat) i k j : l !! i = Some k → (sum_list (<[i := j]> l) + k = sum_list l + j)%nat.
Proof.
  revert i; induction l as [|x l IH]; intros [|i] E; simpl in *; [done|done|injection E as ->; lia|].
  specialize (IH i E). lia.
Qed.
Lemma sum_delete (l : list nat) i : (sum_list (delete i l) <= sum_list l)%nat.
Proof.
  revert i; induction l as [|x l IH]; intros [|i]; [done|done|simpl; lia|].
  change (delete (S i) (x :: l)) with (x :: delete i l). specialize (IH i). simpl. lia.
Qed.

Section specs.
Context `{mode : Mode}.

Lemma wp_begin_op s (Q : unit → lst → Prop) :
  Kern.quiet (kn s) → committing s = false → lh_n s + (outstanding s + 1) * MAXOPBLOCKS <= LOGSIZE →
  Q tt (put_ops (outstanding s + 1) (committing s) s) → wp begin_op Q s.
Proof.
  intros Hq Hc Hr HQ. unfold begin_op. apply wp_bind, wp_lacquire; [done|]. wp_steps. fn_at. rewrite Hc.
  wp_steps. fn_at. rewrite (proj2 (Z.ltb_ge _ _)) by done. wp_steps. apply wp_lrelease; [done|].
  cbn. rewrite kern_back by done. destruct s; exact HQ.
Qed.

Lemma absorb_in bs b y : y ∈ absorb bs b ↔ y ∈ bs ∨ y = b.
Proof. unfold absorb. case_decide; set_solver. Qed.

Lemma update_pending bs b x s n l sp :
  pending a z bs s → home a z b → 0 <= b < 2147483648 →
  Z.of_nat (length bs) < LOGSIZE → Z.of_nat (length bs) < z - 1 →
  in_mem a (absorb bs b) (put_lh n l s) → (∀ n, sp = Some n → (n + length (absorb bs b) = NBUF)%nat) →
  pending a z (absorb bs b)
    (put_lh n l (put_io (disk s) (<[b := x]> (cache s)) (<[b := true]> (dirty s))
       (<[b := false]> (<[b := true]> (held s))) (trace s) (put_spare sp s))).
Proof.
  intros [Ht Hm Hi Hh Hl Hc [Hd1 Hd2 _]] Hb Hr Hls Hz Hin Hsp.
  pose proof (absorb_trans _ _ _ _ Ht Hb Hr Hls Hz) as Ht'. split; fn_at; try done.
  - intros b'. cbn. destruct (decide (b' = b)) as [->|]; fn_at; [done|apply Hi].
  - intros b'. destruct (decide (b' = b)) as [->|]; fn_at; [done|apply Hc].
  - split; [apply Ht'| |done]. intros b'. rewrite absorb_in. fn_at.
    destruct (decide (b' = b)) as [->|]; fn_at; [naive_solver|]. rewrite Hd2. naive_solver.
Qed.

(** A block that is not pending takes a buffer until the commit. *)
Lemma pool_absorb bs b s n :
  pool bs s → (length bs < NBUF)%nat → took b s = Some n → (n + length (absorb bs b) = NBUF)%nat.
Proof.
  intros [H1 H2 H3] Hl. unfold took, absorb. destruct (dirty s b) eqn:Ed.
  - rewrite decide_True by (by apply H2). apply H3.
  - rewrite decide_False by (intros Hb%H2; congruence).
    destruct (spare s) as [m|]; [|done]. cbn. intros [= <-]. specialize (H3 m eq_refl). rewrite length_app. cbn. lia.
Qed.

Lemma pool_buf bs b s : pool bs s → (length bs < NBUF)%nat → has_buf b s.
Proof. intros Hp Hl. right. apply room_one, (pool_room _ _ 1 Hp). lia. Qed.

Lemma wp_update bs b x s (Q : unit → lst → Prop) :
  pending a z bs s → Kern.quiet (kn s) → 1 <= outstanding s → size s = z → home a z b → 0 <= b < 2147483648 →
  Z.of_nat (length bs) < LOGSIZE → Z.of_nat (length bs) < z - 1 →
  (∀ s', pending a z (absorb bs b) s' → cache s' = <[b := x]> (cache s) → disk s' = disk s →
         kn s' = kn s → size s' = size s → outstanding s' = outstanding s → committing s' = committing s →
         Q tt s') →
  wp (update b x) Q s.
Proof.
  intros P Hq Ho Hs Hb Hr Hls Hz HQ. pose proof (pe_idle _ _ _ _ P) as Hi. pose proof (pe_pool _ _ _ _ P) as Hp.
  assert (Hlb : (length bs < NBUF)%nat) by (unfold LOGSIZE, MAXOPBLOCKS, NBUF in *; lia).
  pose proof (pool_buf bs b s Hp Hlb) as Hbuf. unfold update. io_steps.
  apply (wp_log_write a bs); [exact (pe_mem _ _ _ _ P)|done|done|done|unfold hold; fn_at; lia|].
  intros n l Hin. unfold logged_state, hold, gave in *. io_steps. unfold hold, gave.
  apply HQ; fn_at; try done. cbn [orb]. apply (update_pending bs); try done. intros m. by apply pool_absorb.
Qed.

(** With the log full, the block is read and the transaction refused. *)
Lemma update_refused bs b x s :
  pending a z bs s → size s = z → (length bs < NBUF)%nat → z - 1 <= Z.of_nat (length bs) →
  ∃ s', update b x s = Panic "too big a transaction" s'.
Proof.
  intros P Hs Hl Hz. pose proof (pe_idle _ _ _ _ P b) as Hi. pose proof (pe_mem _ _ _ _ P) as (_ & En & _ & _).
  assert (Hr : wp (H := Total) (bread b) (λ _ s1, lh_n s1 = lh_n s ∧ size s1 = size s) s).
  { apply wp_bread; [done|by apply (pool_buf bs), Hl; apply P|]. by unfold hold; fn_at. }
  apply wp_total in Hr as (d & s1 & E & E1 & E2). unfold update, mbind, M_mbind, M_bind. rewrite E. cbn.
  unfold log_write, mbind, M_mbind, M_bind. cbn. rewrite E1, E2, En, Hs.
  rewrite (proj2 (Z.leb_le (z - 1) _)) by done. rewrite orb_true_r. by eexists.
Qed.

Lemma wp_end_last bs s (Q : unit → lst → Prop) :
  pending a z bs s → (length bs < NBUF)%nat → Kern.quiet (kn s) → outstanding s = 1 → committing s = false →
  (∀ s1 s', commit_done a z (put_ops 0 true s) s1 →
            s' = put_ops 0 false (put_kn (Kern.mkkern [] (Kern.woken (kn s) ++ [Kern.CLog])) s1) → Q tt s') →
  wp end_op Q s.
Proof.
  intros P Hl Hq Ho Hc HQ. unfold end_op. apply wp_bind, wp_lacquire; [done|]. wp_steps. fn_at. rewrite Hc.
  wp_steps. fn_at. rewrite Ho. change (1 - 1) with 0. rewrite Z.eqb_refl. wp_steps. apply wp_lrelease; [done|].
  cbn. rewrite kern_back by done. apply wp_bind. refine (wp_commit a z bs (put_ops 0 true s) _ _ Hl _).
  { destruct P as [? ? ? ? ? ? [? ? ?]]. split; done. }
  intros s1 C. pose proof (cd_ops _ _ _ _ C) as (K1 & _ & _ & O1 & _). cbn in K1, O1.
  apply wp_bind, wp_lacquire; [by rewrite K1|]. apply wp_bind, wp_modify, wp_bind, wp_lwakeup.
  apply wp_lrelease; [done|]. apply (HQ s1).
  - done.
  - fn_at. cbn. rewrite K1. cbn. by rewrite O1.
Qed.

Lemma wp_end_more s (Q : unit → lst → Prop) :
  Kern.quiet (kn s) → outstanding s ≠ 1 → committing s = false →
  Q tt (put_ops (outstanding s - 1) false (put_kn (Kern.mkkern [] (Kern.woken (kn s) ++ [Kern.CLog])) s)) →
  wp end_op Q s.
Proof.
  intros Hq Ho Hc HQ. unfold end_op. apply wp_bind, wp_lacquire; [done|]. wp_steps. fn_at. rewrite Hc.
  wp_steps. fn_at. destruct (Z.eqb_spec (outstanding s - 1) 0); [lia|]. apply wp_lwakeup.
  apply wp_bind, wp_lrelease; [done|]. wp_steps. exact HQ.
Qed.
End specs.

(** *** The invariant is kept *)

(** begin_op returns only when the operation fits. *)
Lemma begin_op_admits s :
  Kern.quiet (kn s) → committing s = false →
  wp (H:=Partial) begin_op (λ _ s', lh_n s + (outstanding s + 1) * MAXOPBLOCKS <= LOGSIZE ∧
                                    s' = put_ops (outstanding s + 1) (committing s) s) s.
Proof.
  intros Hq Hc. destruct (decide (lh_n s + (outstanding s + 1) * MAXOPBLOCKS <= LOGSIZE)) as [Hr|Hr].
  - by apply wp_begin_op.
  - unfold begin_op. apply wp_bind, wp_lacquire; [done|]. wp_steps. fn_at. rewrite Hc.
    wp_steps. fn_at. rewrite (proj2 (Z.ltb_lt _ _)) by lia. apply wp_zoom. unfold Kern.sleep.
    by apply wp_bind, Kern.wp_krelease.
Qed.


Hypothesis Hz : z <= Z.of_nat NBUF.

(** The pending blocks leave a buffer free. *)
Lemma pending_bufs bs s : pending a z bs s → (length bs < NBUF)%nat.
Proof using Hz. intros P. destruct (pe_trans _ _ _ _ P) as (_ & _ & ? & _). lia. Qed.

Lemma minv_begin bs s s' ops f :
  minv bs (mkmst s ops f) → begin_op s = Ok tt s' → minv bs (mkmst s' (Z.to_nat MAXOPBLOCKS :: ops) f).
Proof.
  intros I E. destruct I as [P Hq Hs Hc Ho He Hr Hem Hsv]. cbn in *.
  destruct (wp_partial _ _ _ _ _ (begin_op_admits s Hq Hc) E) as [Hroom ->].
  pose proof (pe_mem _ _ _ _ P) as (_ & En & _ & _). pose proof (sum_bound _ _ He) as Hsum.
  split; cbn; try done.
  - destruct P as [? ? ? ? ? ? []]. by split.
  - lia.
  - by constructor.
  - unfold MAXOPBLOCKS, LOGSIZE in *. lia.
Qed.

Lemma minv_update bs s s' ops f i k b x :
  minv bs (mkmst s ops f) → ops !! i = Some (S k) → home a z b → 0 <= b < 2147483648 →
  update b x s = Ok tt s' → minv (absorb bs b) (mkmst s' (<[i := k]> ops) f).
Proof.
  intros I Ei Hb Hr E. destruct I as [P Hq Hs Hc Ho He Hro Hem Hsv]. cbn in *.
  pose proof (sum_insert ops i (S k) k Ei) as Hsum. pose proof (lookup_lt_Some _ _ _ Ei) as Hlt.
  assert (Hlen : (length (absorb bs b) <= S (length bs))%nat)
    by (unfold absorb; case_decide; rewrite ?length_app; simpl; lia).
  destruct (Z_lt_le_dec (Z.of_nat (length bs)) (z - 1)) as [Hfit|Hfull].
  2: { destruct (update_refused bs b x s P Hs (pending_bufs _ _ P) Hfull) as [s1 E1]. congruence. }
  refine (wp_partial (update b x) (λ _ x', minv (absorb bs b) (mkmst x' _ _)) s tt s' _ E).
  apply (wp_update bs); [done|done|lia|done|done|done|lia|lia|].
  intros s1 P1 Ec Ed Ek Es Eo Eco. split; cbn; rewrite ?Ek, ?Es, ?Eo, ?Eco, ?Ed, ?length_insert; try done.
  - apply Forall_insert; [done|]. eapply Forall_lookup_1 in He; [|exact Ei]. lia.
  - lia.
  - intros E0. apply (f_equal length) in E0. rewrite length_insert in E0. simpl in E0. lia.
Qed.

Lemma minv_end bs s s' ops f i :
  minv bs (mkmst s ops f) → (i < length ops)%nat → end_op s = Ok tt s' →
  ∃ bs', minv bs' (mkmst s' (delete i ops) (if decide (length ops = 1%nat) then cache s else f)).
Proof.
  intros I Hi E. destruct I as [P Hq Hs Hc Ho He Hro Hem Hsv]. cbn in *.
  pose proof (length_delete ops i (lookup_lt_is_Some_2 _ _ Hi)) as Hld.
  refine (wp_partial end_op (λ _ x', ∃ bs', minv bs' (mkmst x' _ _)) s tt s' _ E). case_decide as D.
  - apply (wp_end_last bs); [done|by eapply pending_bufs|done|lia|done|]. intros s1 s2 [O1 P1 H1 _] ->.
    assert (Ed : delete i ops = []) by (apply length_zero_iff_nil; rewrite Hld; lia). rewrite Ed.
    exists []. destruct O1 as (K1 & _ & Z1 & _). cbn in *. split; cbn; try done.
    + destruct P1 as [? ? ? ? ? ? []]. by split.
    + by rewrite Z1.
    + intros b Hb. by apply H1.
  - apply (wp_end_more); [done|lia|done|]. exists bs. split; cbn; try done.
    + destruct P as [? ? ? ? ? ? []]. by split.
    + rewrite Hld. lia.
    + by apply Forall_delete.
    + pose proof (sum_delete ops i). lia.
    + intros E0. apply (f_equal length) in E0. rewrite Hld in E0. simpl in E0. lia.
Qed.

Lemma step_keeps bs m m' : minv bs m → step m m' → ∃ bs', minv bs' m'.
Proof.
  intros I S. destruct S.
  - eexists. by eapply minv_begin.
  - eexists. by eapply minv_update.
  - by eapply minv_end.
Qed.

Lemma reach_minv m0 m : minv [] m0 → rtc step m0 m → ∃ bs, minv bs m.
Proof.
  intros H0 R. assert (∀ bs, minv bs m0 → ∃ bs, minv bs m) as G; [|by eapply G].
  clear H0. induction R as [|m0 m1 m S R IH]; intros bs H; [by eexists|].
  destruct (step_keeps _ _ _ H S) as [bs' H']. by eapply IH.
Qed.

(** A machine that recovers from [d] finds the file system [f]. *)
Definition recovery_gives (d f : Z → block) : Prop :=
  ∀ s, booting s → start s = a → disk s = d →
  ∃ s', recover_from_log s = Ok tt s' ∧ pending a z [] s' ∧
        ∀ b, home a z b → disk s' b = f b ∧ cache s' b = f b.

Lemma recovers_gives d f : recovers_to a z d f → recovery_gives d f.
Proof.
  intros [Hs [bs C]] s Hb Es <-. destruct (wp_total recover_from_log (λ _ s', recovered a z s s') s) as ([] & s' & E & R).
  { by apply (wp_recover (mode := Total) a z bs). }
  exists s'. split; [done|]. split; [exact (re_pending _ _ _ _ R)|]. intros b Hh.
  destruct (re_home _ _ _ _ R b Hh) as [-> ->]. by rewrite Hs.
Qed.

End machine.

(** ** Properties *)

(** C8: in every state the machine reaches from a clean log of at most NBUF
    blocks, the blocks of the pending transaction are distinct, there are fewer
    of them than the log has blocks, together with what the operations in
    progress may still write they are at most LOGSIZE, and none of their new
    contents has reached its home location: the disk is the file system of the
    last commit. *)
Theorem log_isolates a z m0 m :
  z <= Z.of_nat NBUF → minv a z [] m0 → rtc (step a z) m0 m →
  ∃ bs, pending a z bs (lg m) ∧ Z.of_nat (length bs + sum_list (budget m)) <= LOGSIZE ∧
        ∀ b, home a z b → disk (lg m) b = saved m b.
Proof.
  intros Hz H0 R. destruct (reach_minv a z Hz m0 m H0 R) as [bs [? ? ? ? ? ? ? ? ?]]. by exists bs.
Qed.


(** C10: when the last operation ends, the whole transaction commits: end_op
    returns with every update on disk, and a crash after any of its block
    writes, followed by recovery, gives the file system either entirely as it
    was before the transaction or entirely as the transaction left it.  For
    logs of at most NBUF blocks, as mkfs makes them: with more blocks pending
    the commit could run out of buffers. *)
Theorem commit_is_atomic a z m0 m :
  z <= Z.of_nat NBUF → minv a z [] m0 → rtc (step a z) m0 m → length (budget m) = 1%nat →
  ∃ s' tr, end_op (lg m) = Ok tt s' ∧ trace s' = trace (lg m) ++ tr ∧
    (∀ b, home a z b → disk s' b = cache (lg m) b ∧ cache s' b = cache (lg m) b) ∧
    Forall (λ d, recovery_gives a z d (saved m) ∨ recovery_gives a z d (cache (lg m))) tr.
Proof.
  intros Hz H0 R Hl. destruct (reach_minv a z Hz m0 m H0 R) as [bs [P Hq Hs Hc Ho He Hr Hem Hsv]].
  destruct (wp_total end_op (λ _ s', (∀ b, home a z b → disk s' b = cache (lg m) b ∧ cache s' b = cache (lg m) b) ∧
      passes (λ d, recovers_to a z d (disk (lg m)) ∨ recovers_to a z d (cache (lg m))) (lg m) s') (lg m))
    as ([] & s' & E & Hh & tr & Etr & Htr).
  { apply (wp_end_last a z bs); [done|by eapply (pending_bufs a z)|done|lia|done|].
    intros s1 s2 [O1 P1 H1 T1] ->. by split. }
  exists s', tr. repeat (split; [done|]). eapply Forall_impl; [exact Htr|]. intros d [[Hd Hb]|Hd]; [left|right].
  - apply recovers_gives. split; [|done]. by eapply stands_ext.
  - by apply recovers_gives.
Qed.

(** C11: recovery brings the disk to the file system its log stands for, and a
    crash after any block write of the recovery itself is harmless: recovering
    again gives the same file system. *)
Theorem recovery_restores a z bs s :
  crashed a z bs (disk s) → booting s → start s = a →
  ∃ s' tr, recover_from_log s = Ok tt s' ∧ pending a z [] s' ∧ trace s' = trace s ++ tr ∧
    (∀ b, home a z b → disk s' b = replay a (disk s) b ∧ cache s' b = replay a (disk s) b) ∧
    Forall (λ d, recovery_gives a z d (replay a (disk s))) tr.
Proof.
  intros C Hb Es. destruct (wp_total recover_from_log (λ _ s', recovered a z s s') s) as ([] & s' & E & R).
  { by apply (wp_recover (mode := Total) a z bs). }
  destruct R as [O P Hh (tr & Etr & Ht)]. exists s', tr. repeat (split; [done|]).
  eapply Forall_impl; [exact Ht|]. intros d Hd. by apply recovers_gives.
Qed.

(** ** Running the machine *)

(** An operation that begins, and one that writes a block: as functions. *)
Definition do_begin (m : mst) : option mst :=
  match begin_op (lg m) with
  | Ok _ s => Some (mkmst s (Z.to_nat MAXOPBLOCKS :: budget m) (saved m))
  | _ => None
  end.
Definition do_update (a z : Z) (i : nat) (b : Z) (x : block) (m : mst) : option mst :=
  match budget m !! i with
  | Some (S k) =>
      if decide ((b < a ∨ a + z <= b) ∧ 0 <= b < 2147483648) then
        match update b x (lg m) with
        | Ok _ s => Some (mkmst s (<[i := k]> (budget m)) (saved m))
        | _ => None
        end
      else None
  | _ => None
  end.

Lemma do_begin_step a z m m' : do_begin m = Some m' → step a z m m'.
Proof.
  destruct m as [s ops f]. unfold do_begin. cbn. destruct (begin_op s) as [[] s'| | |] eqn:E; try done.
  intros [= <-]. by constructor.
Qed.
Lemma do_update_step a z i b x m m' : do_update a z i b x m = Some m' → step a z m m'.
Proof.
  destruct m as [s ops f]. unfold do_update. cbn. destruct (ops !! i) as [[|k]|] eqn:Ei; try done.
  case_decide as D; [|done]. destruct (update b x s) as [[] s'| | |] eqn:E; try done.
  intros [= <-]. destruct D as [D1 D2]. by apply (step_update a z s s' ops f i k b x).
Qed.

(** Operation [i] writes the blocks [bs]. *)
Fixpoint do_updates (a z : Z) (i : nat) (x : block) (bs : list Z) (m : mst) : option mst :=
  match bs with
  | [] => Some m
  | b :: bs => m' ← do_update a z i b x m; do_updates a z i x bs m'
  end.
Lemma do_updates_steps a z i x bs : ∀ m m', do_updates a z i x bs m = Some m' → rtc (step a z) m m'.
Proof.
  induction bs as [|b bs IH]; intros m m'; [by intros [= <-]|]. cbn.
  intros (m1 & E1 & E2)%bind_Some. eapply rtc_l; [by eapply do_update_step|by apply IH].
Qed.

(** A freshly made file system with its log in the [z] blocks from block 2. *)
Definition empty_block : block := replicate BSIZE 0.
Definition fresh (z : Z) : mst :=
  mkmst (mklst (Kern.mkkern [] []) (λ _, empty_block) (λ _, empty_block) (λ _, false) (λ _, false)
           (Some NBUF) [] 2 z 0 false 0 (replicate (Z.to_nat LOGSIZE) 0)) [] (λ _, empty_block).

Lemma fresh_minv z : 0 < z → minv 2 z [] (fresh z).
Proof.
  intros Hz. split; try done.
  - split; try done; [by apply trans_nil|]. split; [constructor| |].
    + intros b. by rewrite elem_of_nil.
    + intros n [= <-]. done.
Qed.

(** Two operations begin and write three blocks, one of them twice. *)
Definition busy : option mst :=
  m ← do_begin (fresh LOGSIZE);
  m ← do_begin m;
  m ← do_updates 2 LOGSIZE 0 (replicate BSIZE 7) [40; 41] m;
  do_updates 2 LOGSIZE 1 (replicate BSIZE 9) [41; 0] m.
Definition ending : option mst :=
  m ← do_begin (fresh LOGSIZE);
  do_updates 2 LOGSIZE 0 (replicate BSIZE 7) [40; 41] m.

(** The state a run ends in. *)
Abbreviation final run := (default (fresh LOGSIZE) run).

Lemma returned {A} (d : A) (o : option A) : bool_decide (is_Some o) = true → o = Some (default d o).
Proof. by destruct o. Qed.

Lemma busy_reached m : busy = Some m → rtc (step 2 LOGSIZE) (fresh LOGSIZE) m.
Proof.
  unfold busy. intros (m1 & E1 & (m2 & E2 & (m3 & E3 & E4)%bind_Some)%bind_Some)%bind_Some.
  do 2 (eapply rtc_l; [by eapply do_begin_step|]). etrans; by eapply do_updates_steps.
Qed.
Lemma ending_reached m : ending = Some m → rtc (step 2 LOGSIZE) (fresh LOGSIZE) m.
Proof.
  unfold ending. intros (m1 & E1 & E2)%bind_Some.
  eapply rtc_l; [by eapply do_begin_step|]. by eapply do_updates_steps.
Qed.

Lemma busy_run : bool_decide (is_Some busy) = true.
Proof. vm_compute. reflexivity. Qed.
Lemma ending_run : bool_decide (is_Some ending) = true.
Proof. vm_compute. reflexivity. Qed.
Lemma ending_budget : length (budget (final ending)) = 1%nat.
Proof. vm_compute. reflexivity. Qed.

Lemma log_isolates_witness :
  ∃ bs, pending 2 LOGSIZE bs (lg (final busy)) ∧ Z.of_nat (length bs + sum_list (budget (final busy))) <= LOGSIZE ∧
        ∀ b, home 2 LOGSIZE b → disk (lg (final busy)) b = saved (final busy) b.
Proof. exact (log_isolates 2 LOGSIZE _ _ ltac:(done) (fresh_minv LOGSIZE ltac:(done)) (busy_reached _ (returned _ _ busy_run))). Defined.


Lemma commit_is_atomic_witness :
  ∃ s' tr, end_op (lg (final ending)) = Ok tt s' ∧ trace s' = trace (lg (final ending)) ++ tr ∧
    Forall (λ d, recovery_gives 2 LOGSIZE d (saved (final ending)) ∨ recovery_gives 2 LOGSIZE d (cache (lg (final ending)))) tr.
Proof.
  destruct (commit_is_atomic 2 LOGSIZE _ _ ltac:(done) (fresh_minv LOGSIZE ltac:(done)) (ending_reached _ (returned _ _ ending_run)) ending_budget)
    as (s' & tr & E & Et & _ & Ht). exists s', tr. exact (conj E (conj Et Ht)).
Defined.

(** A disk whose log holds a committed write of nines to block 40. *)
Definition crash_disk : Z → block := λ b,
  if b =? 2 then Bytes.put32 (Bytes.put32 empty_block 0 1) 4 40
  else if b =? 3 then replicate BSIZE 9 else empty_block.
Definition crash_boot : lst :=
  mklst (Kern.mkkern [] []) crash_disk crash_disk (λ _, false) (λ _, false) (Some NBUF) [] 2 31 0 false 0 (replicate (Z.to_nat LOGSIZE) 0).
Lemma crash_disk_ok : crashed 2 31 [40] crash_disk.
Proof.
  split; [|vm_compute; done..]. split; [apply NoDup_singleton|]. split; [|by vm_compute].
  constructor; [|constructor]. split; [right|]; by vm_compute.
Qed.

Lemma crash_booting : booting crash_boot.
Proof. split; try done. by intros n [= <-]. Qed.

Lemma recovery_restores_witness :
  ∃ s', recover_from_log crash_boot = Ok tt s' ∧ disk s' 40 = replicate BSIZE 9.
Proof.
  destruct (recovery_restores 2 31 [40] crash_boot crash_disk_ok crash_booting eq_refl) as (s' & tr & E & _ & _ & H & _).
  exists s'. refine (conj E _). rewrite (proj1 (H 40 ltac:(right; vm_compute; done))). vm_compute. reflexivity.
Defined.

(** ** The log that mkfs makes is one block short

    begin_op admits operations until LOGSIZE block writes are promised, and
    log_write refuses the transaction at [log.size - 1]; mkfs.c sets nlog to
    LOGSIZE, counting the header block. *)
Definition full : option mst :=
  m ← do_begin (fresh LOGSIZE);
  m ← do_begin m;
  m ← do_begin m;
  m ← do_updates 2 LOGSIZE 0 empty_block [40; 41; 42; 43; 44; 45; 46; 47; 48; 49] m;
  m ← do_updates 2 LOGSIZE 1 empty_block [50; 51; 52; 53; 54; 55; 56; 57; 58; 59] m;
  do_updates 2 LOGSIZE 2 empty_block [60; 61; 62; 63; 64; 65; 66; 67; 68] m.

Lemma full_reached m : full = Some m → rtc (step 2 LOGSIZE) (fresh LOGSIZE) m.
Proof.
  unfold full. intros (m1 & E1 & (m2 & E2 & (m3 & E3 & (m4 & E4 & (m5 & E5 & E6)%bind_Some)%bind_Some)%bind_Some)%bind_Some)%bind_Some.
  do 3 (eapply rtc_l; [by eapply do_begin_step|]).
  do 2 (etrans; [by eapply do_updates_steps|]). by eapply do_updates_steps.
Qed.

(** Operation 2 has one write left, and it is refused. *)
Definition refused (m : mst) : bool :=
  bool_decide (budget m !! 2%nat = Some 1%nat) &&
  match update 69 empty_block (lg m) with Panic p _ => String.eqb p "too big a transaction" | _ => false end.

Lemma full_refused : from_option refused false full = true.
Proof. vm_compute. reflexivity. Qed.

(** C12: on a file system made by mkfs (nlog = LOGSIZE), three operations that
    each stay within MAXOPBLOCKS can make log_write panic: there is a reachable
    state in which an operation with one block write left in its budget panics
    when it uses it. *)
Theorem mkfs_log_overflows :
  ∃ m s', rtc (step 2 LOGSIZE) (fresh LOGSIZE) m ∧ budget m !! 2%nat = Some 1%nat ∧
          update 69 empty_block (lg m) = Panic "too big a transaction" s'.
Proof.
  pose proof full_refused as G. destruct full as [m|] eqn:E; [|done]. cbn [from_option] in G.
  unfold refused in G. apply andb_true_iff in G as [B1 B2]. apply bool_decide_eq_true in B1.
  destruct (update 69 empty_block (lg m)) as [|p s'| |] eqn:U; try discriminate B2. apply String.eqb_eq in B2. subst p.
  exists m, s'. exact (conj (full_reached m E) (conj B1 U)).
Qed.

End LogProps.
