(* ===== verification/Fs.v ===== *)
(** * The file system (fs.c, with fs.h, file.h and stat.h)

    Blocks, inodes, directories and path names, on top of the log.  The state
    is the log with its block cache, the inode cache and the superblock; a
    [struct inode *] is an index into the inode cache, so that the null tests of
    [ilock] and [iunlock] are the type of their argument.  The file system lives
    on the device ROOTDEV; access to any other device is a fault here.

    Waiting for a buffer or a locked inode is the outcome [Hang]: the operation
    is not enabled until another process lets go.  Buffers of user or kernel
    memory that the code copies to or from are lists of bytes; [readi] returns
    the bytes it wrote to [dst] next to its result. *)

From S2P Require Import Prelude CString Bytes Kern Log.
Local Open Scope Z_scope.

Module Fs.
Import Bytes.

Definition ROOTDEV : Z := 1.
Definition ROOTINO : Z := 1.
Definition NINODE : nat := 50.
Definition NDEV : Z := 10.
Definition BSIZE : Z := 512.
Definition NDIRECT : nat := 10.
Definition NINDIRECT : nat := 128.
Definition MAXFILE : Z := 138.
Definition IPB : Z := 8.
Definition BPB : Z := 4096.
Definition DIRSIZ : nat := 14.
Definition T_DIR : Z := 1.
Definition T_FILE : Z := 2.
Definition T_DEV : Z := 3.

(** ** Data *)

Record superblock := mksb {
  sb_size : Z; sb_nblocks : Z; sb_ninodes : Z; sb_nlog : Z;
  sb_logstart : Z; sb_inodestart : Z; sb_bmapstart : Z
}.

Record inode := mkinode {
  i_dev : Z; i_inum : Z; i_ref : Z; i_busy : bool; i_valid : bool;
  i_type : Z; i_major : Z; i_minor : Z; i_nlink : Z;
  i_uid : Z; i_gid : Z; i_mode : Z; i_size : Z; i_addrs : list Z
}.

Record stat := mkstat {
  st_type : Z; st_dev : Z; st_ino : Z; st_nlink : Z; st_size : Z;
  st_uid : Z; st_gid : Z; st_mode : Z
}.

Definition set_ref (r : Z) (i : inode) : inode :=
  mkinode (i_dev i) (i_inum i) r (i_busy i) (i_valid i) (i_type i) (i_major i) (i_minor i) (i_nlink i)
    (i_uid i) (i_gid i) (i_mode i) (i_size i) (i_addrs i).
Definition set_flags (b v : bool) (i : inode) : inode :=
  mkinode (i_dev i) (i_inum i) (i_ref i) b v (i_type i) (i_major i) (i_minor i) (i_nlink i)
    (i_uid i) (i_gid i) (i_mode i) (i_size i) (i_addrs i).
Definition set_type (t : Z) (i : inode) : inode :=
  mkinode (i_dev i) (i_inum i) (i_ref i) (i_busy i) (i_valid i) t (i_major i) (i_minor i) (i_nlink i)
    (i_uid i) (i_gid i) (i_mode i) (i_size i) (i_addrs i).
Definition set_links (ma mi n : Z) (i : inode) : inode :=
  mkinode (i_dev i) (i_inum i) (i_ref i) (i_busy i) (i_valid i) (i_type i) ma mi n
    (i_uid i) (i_gid i) (i_mode i) (i_size i) (i_addrs i).
Definition set_owner (u g m : Z) (i : inode) : inode :=
  mkinode (i_dev i) (i_inum i) (i_ref i) (i_busy i) (i_valid i) (i_type i) (i_major i) (i_minor i) (i_nlink i)
    u g m (i_size i) (i_addrs i).
Definition set_size (z : Z) (i : inode) : inode :=
  mkinode (i_dev i) (i_inum i) (i_ref i) (i_busy i) (i_valid i) (i_type i) (i_major i) (i_minor i) (i_nlink i)
    (i_uid i) (i_gid i) (i_mode i) z (i_addrs i).
Definition set_addr (k : nat) (a : Z) (i : inode) : inode :=
  mkinode (i_dev i) (i_inum i) (i_ref i) (i_busy i) (i_valid i) (i_type i) (i_major i) (i_minor i) (i_nlink i)
    (i_uid i) (i_gid i) (i_mode i) (i_size i) (<[k := a]> (i_addrs i)).

(** *** The layout of [struct dinode], 64 bytes at [o] in a block *)

Definition dinode_off (inum : Z) : nat := Z.to_nat (64 * (inum mod IPB)).

(** The fields of the on-disk inode, copied into the in-memory one. *)
Definition load_dinode (x : Log.block) (o : nat) (i : inode) : inode :=
  mkinode (i_dev i) (i_inum i) (i_ref i) (i_busy i) (i_valid i)
    (i16 (get16 x o)) (i16 (get16 x (o + 2))) (i16 (get16 x (o + 4))) (i16 (get16 x (o + 6)))
    (get16 x (o + 8)) (get16 x (o + 10)) (get32 x (o + 12)) (get32 x (o + 16))
    ((λ k, get32 x (o + 20 + 4 * k)) <$> seq 0 (S NDIRECT)).

Fixpoint put_words (x : Log.block) (o : nat) (l : list Z) : Log.block :=
  match l with
  | [] => x
  | w :: l => put_words (put32 x o (u32 w)) (o + 4) l
  end.

(** The assignments of [iupdate], in its order. *)
Definition store_dinode (x : Log.block) (o : nat) (i : inode) : Log.block :=
  let x := put16 x o (u16 (i_type i)) in
  let x := put16 x (o + 2) (u16 (i_major i)) in
  let x := put16 x (o + 4) (u16 (i_minor i)) in
  let x := put16 x (o + 6) (u16 (i_nlink i)) in
  let x := put32 x (o + 16) (u32 (i_size i)) in
  let x := put16 x (o + 8) (u16 (i_uid i)) in
  let x := put16 x (o + 10) (u16 (i_gid i)) in
  let x := put32 x (o + 12) (u32 (i_mode i)) in
  put_words x (o + 20) (i_addrs i).

(** ** State *)

Record fst := mkfst { lg : Log.lst; icache : list inode; sb : superblock }.
Definition put_lg (l : Log.lst) (s : fst) : fst := mkfst l (icache s) (sb s).
Definition put_ic (l : list inode) (s : fst) : fst := mkfst (lg s) l (sb s).
Definition put_sb (x : superblock) (s : fst) : fst := mkfst (lg s) (icache s) x.

(** The log, the block cache and the locks, seen from here. *)
Definition onlog {A} (m : M Log.lst A) : M fst A := zoom lg put_lg m.
Definition acquire (k : Kern.lockid) : M fst unit := onlog (Log.acquire k).
Definition release (k : Kern.lockid) : M fst unit := onlog (Log.release k).
Definition wakeup (ch : Kern.chan) : M fst unit := onlog (Log.wakeup ch).
Definition sleep {A} (ch : Kern.chan) (k : Kern.lockid) : M fst A := onlog (Log.sleep ch k).
Definition bread (dev b : Z) : M fst Log.block :=
  if dev =? ROOTDEV then onlog (Log.bread b) else fault "device".
Definition brelse (b : Z) : M fst unit := onlog (Log.brelse b).
Definition data (b : Z) : M fst Log.block := onlog (Log.data b).
Definition store (b : Z) (x : Log.block) : M fst unit := onlog (Log.store b x).
Definition log_write (b : Z) : M fst unit := onlog (Log.log_write b).
Definition begin_op : M fst unit := onlog Log.begin_op.
Definition end_op : M fst unit := onlog Log.end_op.

(** Reading and writing through a [struct inode *]. *)
Definition ino (i : nat) : M fst inode :=
  l ← gets icache; match l !! i with Some x => mret x | None => fault "inode" end.
Definition upd (i : nat) (f : inode → inode) : M fst unit :=
  modify (λ s, put_ic (alter f i (icache s)) s).

(** [for(off = lo; off < hi; off += d)], where the body may return. *)
Fixpoint step_for {S B} (fuel : nat) (off hi d : Z) (body : Z → M S (option B)) : M S (option B) :=
  if off <? hi then
    match fuel with
    | O => hang
    | Datatypes.S fuel =>
        r ← body off;
        match r with
        | Some b => mret (Some b)
        | None => step_for fuel (u32 (off + d)) hi d body
        end
    end
  else mret None.

(** ** Blocks *)

Definition decode_sb (x : Log.block) : superblock :=
  mksb (get32 x 0) (get32 x 4) (get32 x 8) (get32 x 12) (get32 x 16) (get32 x 20) (get32 x 24).

Definition readsb (dev : Z) : M fst superblock :=
  x ← bread dev 1;
  brelse 1;;
  mret (decode_sb x).

Definition zero_block : Log.block := replicate (Z.to_nat BSIZE) 0.

Definition bzero (dev bno : Z) : M fst unit :=
  _ ← bread dev bno;
  store bno zero_block;;
  log_write bno;;
  brelse bno.

Definition BBLOCK (b : Z) (x : superblock) : Z := u32 (b / BPB + sb_bmapstart x).
Definition IBLOCK (i : Z) (x : superblock) : Z := u32 (i / IPB + sb_inodestart x).

(** [bp->data[bi/8] & (1 << (bi % 8))] and its update. *)
Definition bit_of (x : Log.block) (bi : Z) : bool :=
  negb (Z.land (byte x (Z.to_nat (bi / 8))) (Z.shiftl 1 (bi mod 8)) =? 0).
Definition bit_set (x : Log.block) (bi : Z) : Log.block :=
  <[Z.to_nat (bi / 8) := Z.lor (byte x (Z.to_nat (bi / 8))) (Z.shiftl 1 (bi mod 8))]> x.
Definition bit_clear (x : Log.block) (bi : Z) : Log.block :=
  <[Z.to_nat (bi / 8) := Z.land (byte x (Z.to_nat (bi / 8))) (Z.lnot (Z.shiftl 1 (bi mod 8)))]> x.

(** One bitmap block: the first [n] bits of block [bb], for blocks from [b]. *)
Definition balloc_in (dev b bb : Z) (n : nat) : M fst (option Z) :=
  count_for n 0 (λ bi,
    x ← data bb;
    if bit_of x (Z.of_nat bi) then mret None else
    store bb (bit_set x (Z.of_nat bi));;
    log_write bb;;
    brelse bb;;
    bzero dev (b + Z.of_nat bi);;
    mret (Some (b + Z.of_nat bi))).

Definition balloc (dev : Z) : M fst Z :=
  x ← gets sb;
  r ← step_for (S (Z.to_nat (sb_size x / BPB))) 0 (sb_size x) BPB (λ b,
    let bb := BBLOCK b x in
    _ ← bread dev bb;
    r ← balloc_in dev b bb (Z.to_nat (Z.min BPB (sb_size x - b)));
    match r with
    | Some a => mret (Some a)
    | None => brelse bb;; mret None
    end);
  match r with
  | Some a => mret a
  | None => panic "balloc: out of blocks"
  end.

Definition bfree (dev b : Z) : M fst unit :=
  x ← readsb dev;
  modify (put_sb x);;
  let bb := BBLOCK b x in
  d ← bread dev bb;
  let bi := b mod BPB in
  if negb (bit_of d bi) then panic "freeing free block" else
  store bb (bit_clear d bi);;
  log_write bb;;
  brelse bb.

(** ** Inodes *)

(** The message [iinit] prints is not part of the state. *)
Definition iinit (dev : Z) : M fst unit :=
  onlog (Log.initlock Kern.LIcache);;
  x ← readsb dev;
  modify (put_sb x).

(** The search of [iget]: the entry for the inode, or the first free one. *)
Fixpoint iget_scan (l : list inode) (i : nat) (dev inum : Z) (empty : option nat) : nat + option nat :=
  match l with
  | [] => inr empty
  | ip :: l =>
      if (0 <? i_ref ip) && (i_dev ip =? dev) && (i_inum ip =? inum) then inl i
      else iget_scan l (S i) dev inum
             (match empty with
              | None => if i_ref ip =? 0 then Some i else None
              | Some e => Some e
              end)
  end.

Definition fresh_inode (dev inum : Z) (ip : inode) : inode :=
  mkinode dev inum 1 false false (i_type ip) (i_major ip) (i_minor ip) (i_nlink ip)
    (i_uid ip) (i_gid ip) (i_mode ip) (i_size ip) (i_addrs ip).

Definition iget (dev inum : Z) : M fst nat :=
  acquire Kern.LIcache;;
  l ← gets icache;
  match iget_scan l 0 dev inum None with
  | inl i =>
      upd i (λ ip, set_ref (i_ref ip + 1) ip);;
      release Kern.LIcache;;
      mret i
  | inr None => panic "iget: no inodes"
  | inr (Some i) =>
      upd i (fresh_inode dev inum);;
      release Kern.LIcache;;
      mret i
  end.

Definition ialloc (dev type : Z) : M fst nat :=
  x ← gets sb;
  r ← count_for (Z.to_nat (sb_ninodes x - 1)) 1 (λ k,
    let inum := Z.of_nat k in
    let ib := IBLOCK inum x in
    d ← bread dev ib;
    if get16 d (dinode_off inum) =? 0 then
      store ib (put16 (splice d (dinode_off inum) (replicate 64 0)) (dinode_off inum) (u16 type));;
      log_write ib;;
      brelse ib;;
      i ← iget dev inum;
      mret (Some i)
    else
      brelse ib;;
      mret None);
  match r with
  | Some i => mret i
  | None => panic "ialloc: no inodes"
  end.

Definition iupdate (i : nat) : M fst unit :=
  ip ← ino i;
  x ← gets sb;
  let ib := IBLOCK (i_inum ip) x in
  d ← bread (i_dev ip) ib;
  store ib (store_dinode d (dinode_off (i_inum ip)) ip);;
  log_write ib;;
  brelse ib.

Definition idup (i : nat) : M fst nat :=
  acquire Kern.LIcache;;
  _ ← ino i;
  upd i (λ ip, set_ref (i_ref ip + 1) ip);;
  release Kern.LIcache;;
  mret i.

Definition ilock (i : nat) : M fst unit :=
  ip ← ino i;
  if i_ref ip <? 1 then panic "ilock" else
  acquire Kern.LIcache;;
  ip ← ino i;
  if i_busy ip then sleep (Kern.CInode i) Kern.LIcache else
  upd i (λ ip, set_flags true (i_valid ip) ip);;
  release Kern.LIcache;;
  ip ← ino i;
  if i_valid ip then mret tt else
  x ← gets sb;
  let ib := IBLOCK (i_inum ip) x in
  d ← bread (i_dev ip) ib;
  upd i (load_dinode d (dinode_off (i_inum ip)));;
  brelse ib;;
  upd i (λ ip, set_flags (i_busy ip) true ip);;
  ip ← ino i;
  if i_type ip =? 0 then panic "ilock: no type" else mret tt.

Definition iunlock (i : nat) : M fst unit :=
  ip ← ino i;
  if negb (i_busy ip) || (i_ref ip <? 1) then panic "iunlock" else
  acquire Kern.LIcache;;
  upd i (λ ip, set_flags false (i_valid ip) ip);;
  wakeup (Kern.CInode i);;
  release Kern.LIcache.

(** *** Contents *)

Definition addr_of (i k : nat) : M fst Z :=
  ip ← ino i; match i_addrs ip !! k with Some a => mret a | None => fault "ip->addrs" end.

(** [if((addr = ip->addrs[k]) == 0) ip->addrs[k] = addr = balloc(ip->dev);] *)
Definition bmap_slot (i k : nat) : M fst Z :=
  a ← addr_of i k;
  if a =? 0 then
    ip ← ino i;
    a ← balloc (i_dev ip);
    upd i (set_addr k a);;
    mret a
  else mret a.

Definition bmap (i : nat) (bn : Z) : M fst Z :=
  if bn <? Z.of_nat NDIRECT then bmap_slot i (Z.to_nat bn) else
  let bn := bn - Z.of_nat NDIRECT in
  if bn <? Z.of_nat NINDIRECT then
    a ← bmap_slot i NDIRECT;
    ip ← ino i;
    d ← bread (i_dev ip) a;
    let e := get32 d (Z.to_nat (4 * bn)) in
    e ← (if e =? 0 then
           e ← balloc (i_dev ip);
           d ← data a;
           store a (put32 d (Z.to_nat (4 * bn)) (u32 e));;
           log_write a;;
           mret e
         else mret e);
    brelse a;;
    mret e
  else panic "bmap: out of range".

Definition itrunc (i : nat) : M fst unit :=
  ip ← ino i;
  count_for NDIRECT 0 (λ k,
    a ← addr_of i k;
    if a =? 0 then mret (None : option unit) else
    bfree (i_dev ip) a;;
    upd i (set_addr k 0);;
    mret None);;
  a ← addr_of i NDIRECT;
  (if a =? 0 then mret tt else
   _ ← bread (i_dev ip) a;
   count_for NINDIRECT 0 (λ j,
     d ← data a;
     let e := get32 d (4 * j) in
     if e =? 0 then mret (None : option unit) else
     bfree (i_dev ip) e;;
     mret None);;
   brelse a;;
   bfree (i_dev ip) a;;
   upd i (set_addr NDIRECT 0));;
  upd i (set_size 0);;
  iupdate i.

Definition iput (i : nat) : M fst unit :=
  acquire Kern.LIcache;;
  ip ← ino i;
  (if (i_ref ip =? 1) && i_valid ip && (i_nlink ip =? 0) then
     if i_busy ip then panic "iput busy" else
     upd i (λ ip, set_flags true (i_valid ip) ip);;
     release Kern.LIcache;;
     itrunc i;;
     upd i (set_type 0);;
     iupdate i;;
     acquire Kern.LIcache;;
     upd i (set_flags false false);;
     wakeup (Kern.CInode i)
   else mret tt);;
  upd i (λ ip, set_ref (i_ref ip - 1) ip);;
  release Kern.LIcache.

Definition iunlockput (i : nat) : M fst unit := iunlock i;; iput i.

Definition stati (i : nat) : M fst stat :=
  ip ← ino i;
  mret (mkstat (i_type ip) (i_dev ip) (i_inum ip) (i_nlink ip) (i_size ip) (i_uid ip) (i_gid ip) (i_mode ip)).

Section devices.
(** [devsw]: the functions drivers register for a major device number. *)
Context (dev_read : Z → option (nat → Z → M fst (Z * list Z))).
Context (dev_write : Z → option (nat → list Z → Z → M fst Z)).

(** The copying loop of [readi]; [tot] bytes are done. *)
Fixpoint read_loop (fuel : nat) (i : nat) (dst : list Z) (tot n off : Z) : M fst (list Z) :=
  if tot <? n then
    match fuel with
    | O => hang
    | S fuel =>
        a ← bmap i (off / BSIZE);
        ip ← ino i;
        d ← bread (i_dev ip) a;
        let m := Z.min (n - tot) (BSIZE - off mod BSIZE) in
        let dst := dst ++ slice d (Z.to_nat (off mod BSIZE)) (Z.to_nat m) in
        brelse a;;
        read_loop fuel i dst (tot + m) n (u32 (off + m))
    end
  else mret dst.

Definition readi (i : nat) (off n : Z) : M fst (Z * list Z) :=
  ip ← ino i;
  if i_type ip =? T_DEV then
    if (i_major ip <? 0) || (NDEV <=? i_major ip) then mret (-1, []) else
    match dev_read (i_major ip) with
    | None => mret (-1, [])
    | Some f => f i n
    end
  else
  if (i_size ip <? off) || (u32 (off + n) <? off) then mret (-1, []) else
  let n := if i_size ip <? u32 (off + n) then i_size ip - off else n in
  dst ← read_loop (S (S (Z.to_nat (n / BSIZE)))) i [] 0 n off;
  mret (n, dst).

(** The copying loop of [writei] returns the final offset. *)
Fixpoint write_loop (fuel : nat) (i : nat) (src : list Z) (tot n off : Z) : M fst Z :=
  if tot <? n then
    match fuel with
    | O => hang
    | S fuel =>
        a ← bmap i (off / BSIZE);
        ip ← ino i;
        d ← bread (i_dev ip) a;
        let m := Z.min (n - tot) (BSIZE - off mod BSIZE) in
        store a (splice d (Z.to_nat (off mod BSIZE)) (slice src (Z.to_nat tot) (Z.to_nat m)));;
        log_write a;;
        brelse a;;
        write_loop fuel i src (tot + m) n (u32 (off + m))
    end
  else mret off.

Definition writei (i : nat) (src : list Z) (off n : Z) : M fst Z :=
  ip ← ino i;
  if i_type ip =? T_DEV then
    if (i_major ip <? 0) || (NDEV <=? i_major ip) then mret (-1) else
    match dev_write (i_major ip) with
    | None => mret (-1)
    | Some f => f i src n
    end
  else
  if (i_size ip <? off) || (u32 (off + n) <? off) then mret (-1) else
  if MAXFILE * BSIZE <? u32 (off + n) then mret (-1) else
  off ← write_loop (S (S (Z.to_nat (n / BSIZE)))) i src 0 n off;
  ip ← ino i;
  (if (0 <? n) && (i_size ip <? off) then
     upd i (set_size off);;
     iupdate i
   else mret tt);;
  mret n.

(** ** Directories *)

(** Code of string.c inside the file system: a stray access faults. *)
Definition lift {A} (o : option A) : M fst A :=
  match o with Some a => mret a | None => fault "string" end.

(** [struct dirent]: a 16-bit inode number and the name. *)
Definition de_inum (de : list Z) : Z := get16 de 0.
Definition de_name (de : list Z) : list Z := slice de 2 DIRSIZ.

Definition namecmp (s t : list Z) : option Z := CString.strncmp s t DIRSIZ.

(** Returns the inode and the offset of its entry. *)
Definition dirlookup (d : nat) (name : list Z) : M fst (option (nat * Z)) :=
  dp ← ino d;
  if negb (i_type dp =? T_DIR) then panic "dirlookup not DIR" else
  step_for (S (Z.to_nat (i_size dp / 16))) 0 (i_size dp) 16 (λ off,
    '(r, de) ← readi d off 16;
    if negb (r =? 16) then panic "dirlink read" else
    if de_inum de =? 0 then mret None else
    c ← lift (namecmp name (de_name de));
    if c =? 0 then
      dp ← ino d;
      i ← iget (i_dev dp) (de_inum de);
      mret (Some (i, off))
    else mret None).

(** The search for an empty entry: the offset where the loop stops. *)
Definition dir_empty (d : nat) (size : Z) : M fst (option Z) :=
  step_for (S (Z.to_nat (size / 16))) 0 size 16 (λ off,
    '(r, de) ← readi d off 16;
    if negb (r =? 16) then panic "dirlink read" else
    if de_inum de =? 0 then mret (Some off) else mret None).

(** After a search that finds none, [off] is the size rounded up. *)
Definition dirlink (d : nat) (name : list Z) (inum : Z) : M fst Z :=
  r ← dirlookup d name;
  match r with
  | Some (i, _) => iput i;; mret (-1)
  | None =>
      dp ← ino d;
      e ← dir_empty d (i_size dp);
      let off := match e with Some off => off | None => (i_size dp + 15) / 16 * 16 end in
      nm ← lift (CString.strncpy (replicate DIRSIZ 0) name (Z.of_nat DIRSIZ));
      r ← writei d (put16 [0; 0] 0 (u16 inum) ++ nm) off 16;
      if negb (r =? 16) then panic "dirlink" else mret 0
  end.

(** ** Paths *)

(** A path is a pointer into a byte array that holds a terminating zero. *)
Fixpoint skip_slashes (p : list Z) : option (list Z) :=
  match p with
  | [] => None
  | c :: p' => if c =? 47 then skip_slashes p' else Some p
  end.

(** The characters up to a slash or the end, and the rest. *)
Fixpoint elem (p : list Z) : option (list Z * list Z) :=
  match p with
  | [] => None
  | c :: p' =>
      if (c =? 47) || (c =? 0) then Some ([], p)
      else '(e, r) ← elem p'; Some (c :: e, r)
  end.

(** [memmove(name, s, len)] into the DIRSIZ bytes of [name]. *)
Definition copy_name (name e : list Z) : list Z :=
  if decide (DIRSIZ <= length e)%nat then splice name 0 (take DIRSIZ e)
  else <[length e := 0]> (splice name 0 e).

(** [Some None]: no name to remove; [None]: the array has no terminator. *)
Definition skipelem (path name : list Z) : option (option (list Z * list Z)) :=
  p ← skip_slashes path;
  match p with
  | [] => None
  | c :: _ =>
      if c =? 0 then Some None else
      '(e, r) ← elem p;
      r ← skip_slashes r;
      Some (Some (r, copy_name name e))
  end.

(** [*path == '\0'] *)
Definition at_end (p : list Z) : bool := match p with c :: _ => c =? 0 | [] => false end.

(** The loop of [namex], from the inode [i]. *)
Fixpoint namex_loop (fuel : nat) (i : nat) (path : list Z) (parent : bool) (name : list Z) :
    M fst (option nat * list Z) :=
  e ← lift (skipelem path name);
  match e with
  | None =>
      if (parent : bool) then iput i;; mret (None, name) else mret (Some i, name)
  | Some (path, name) =>
      match fuel with
      | O => hang
      | S fuel =>
          ilock i;;
          ip ← ino i;
          if negb (i_type ip =? T_DIR) then iunlockput i;; mret (None, name) else
          if parent && at_end path then iunlock i;; mret (Some i, name) else
          next ← dirlookup i name;
          match next with
          | None => iunlockput i;; mret (None, name)
          | Some (next, _) => iunlockput i;; namex_loop fuel next path parent name
          end
      end
  end.

(** [cwd] is the current directory of the calling process. *)
Definition namex (cwd : nat) (path : list Z) (parent : bool) (name : list Z) : M fst (option nat * list Z) :=
  i ← (match path with
       | [] => fault "string"
       | c :: _ => if c =? 47 then iget ROOTDEV ROOTINO else idup cwd
       end);
  namex_loop (length path) i path parent name.

Definition namei (cwd : nat) (path : list Z) : M fst (option nat) :=
  '(r, _) ← namex cwd path false (replicate DIRSIZ 0); mret r.
Definition nameiparent (cwd : nat) (path name : list Z) : M fst (option nat * list Z) :=
  namex cwd path true name.

(** ** Ownership and mode *)

Definition chown (cwd : nat) (path : list Z) (uid : Z) : M fst Z :=
  if (uid <? 0) || (32767 <? uid) then mret (-1) else
  begin_op;;
  node ← namei cwd path;
  match node with
  | None => end_op;; mret (-1)
  | Some i =>
      ilock i;;
      upd i (λ ip, set_owner uid (i_gid ip) (i_mode ip) ip);;
      iupdate i;;
      iunlock i;;
      end_op;;
      mret 0
  end.

Definition chgrp (cwd : nat) (path : list Z) (gid : Z) : M fst Z :=
  if (gid <? 0) || (32767 <? gid) then mret (-1) else
  begin_op;;
  node ← namei cwd path;
  match node with
  | None => end_op;; mret (-1)
  | Some i =>
      ilock i;;
      upd i (λ ip, set_owner (i_uid ip) gid (i_mode ip) ip);;
      iupdate i;;
      iunlock i;;
      end_op;;
      mret 0
  end.

(** 01777 is 1023. *)
Definition chmod (cwd : nat) (path : list Z) (mode : Z) : M fst Z :=
  if (mode <? 0) || (1023 <? mode) then mret (-1) else
  begin_op;;
  node ← namei cwd path;
  match node with
  | None => end_op;; mret (-1)
  | Some i =>
      ilock i;;
      upd i (λ ip, set_owner (i_uid ip) (i_gid ip) mode ip);;
      iupdate i;;
      iunlock i;;
      end_op;;
      mret 0
  end.
End devices.

End Fs.
