(* ===== verification/FsSpec.v ===== *)
(** * Reasoning about the file system's state

    [st L k c h ic x s] describes a file-system state [s] inside a transaction:
    the spin locks [L] are held, the log has room for [k] more blocks, the
    blocks contain [c], the buffers in use are [h], the inode cache is [ic] and
    the superblock [x].  The number of buffers is left out of account here
    (file LogProps has the limit).  The operations of fs.c are specified as transformers of
    these components. *)

From S2P Require Import Prelude CString Bytes Kern Log Fs.
Local Open Scope Z_scope.

Module FsSpec.
Import Bytes Fs.

Record st (L : list Kern.lockid) (k : nat) (c : Z → Log.block) (h : Z → bool) (ic : list inode)
    (x : superblock) (s : fst) : Prop := {
  st_locks : Kern.lks (Log.kn (lg s)) = L;
  st_cache b : Log.cache (lg s) b = c b;
  st_held b : Log.held (lg s) b = h b;
  st_icache : icache s = ic;
  st_sb : sb s = x;
  st_spare : Log.spare (lg s) = None;
  st_log : ∃ bs, Log.in_mem (Log.start (lg s)) bs (lg s) ∧ 1 <= Log.outstanding (lg s) ∧
             Z.of_nat (length bs + k) <= Log.LOGSIZE ∧ Z.of_nat (length bs + k) < Log.size (lg s)
}.

(** No buffer is in use. *)
Abbreviation none := (λ _ : Z, false).

Lemma st_ext L k c c' h h' ic x s :
  (∀ b, c b = c' b) → (∀ b, h b = h' b) → st L k c h ic x s → st L k c' h' ic x s.
Proof. intros Hc Hh [? ? ? ? ? ? ?]. split; try done; intros; by rewrite <-?Hc, <-?Hh. Qed.

Lemma st_less L k j c h ic x s : (j <= k)%nat → st L k c h ic x s → st L j c h ic x s.
Proof.
  intros Hj [? ? ? ? ? ? (bs & ? & ? & ? & ?)]. split; try done. exists bs. repeat (split; [done|]). lia.
Qed.

(** Taking a buffer and letting it go. *)
Lemma hold_back (h : Z → bool) b : h b = false → ∀ b', <[b := false]> (<[b := true]> h) b' = h b'.
Proof.
  intros Hb b'. destruct (decide (b' = b)) as [->|]; [by rewrite fn_lookup_insert|].
  by rewrite !fn_lookup_insert_ne.
Qed.

Lemma hold_none b f s : Log.spare s = None → Log.spare (Log.hold b f s) = None.
Proof. intros E. cbn. unfold Log.took, Log.gave. rewrite E. by destruct f, (Log.dirty s b). Qed.

Section specs.
Context `{mode : Mode}.
Implicit Types (Q : unit → fst → Prop) (c : Z → Log.block) (h : Z → bool).

Lemma wp_fbread L k c h ic x b s (Q : Log.block → fst → Prop) :
  st L k c h ic x s → h b = false →
  (∀ s', st L k c (<[b := true]> h) ic x s' → Q (c b) s') → wp (bread ROOTDEV b) Q s.
Proof.
  intros H Hb HQ. unfold bread. rewrite Z.eqb_refl. apply wp_zoom, Log.wp_bread.
  { by rewrite (st_held _ _ _ _ _ _ _ H). }
  { right. by rewrite (st_spare _ _ _ _ _ _ _ H). }
  rewrite (st_cache _ _ _ _ _ _ _ H). apply HQ. destruct H as [? ? Hh ? ? Hn ?]. split; try done; [|by apply hold_none].
  intros b'. cbn. destruct (decide (b' = b)) as [->|]; [by rewrite !fn_lookup_insert|].
  rewrite !fn_lookup_insert_ne by done. apply Hh.
Qed.

Lemma wp_fbrelse L k c h ic x b s Q :
  st L k c h ic x s → h b = true →
  (∀ s', st L k c (<[b := false]> h) ic x s' → Q tt s') → wp (brelse b) Q s.
Proof.
  intros H Hb HQ. apply wp_zoom, Log.wp_brelse.
  { by rewrite (st_held _ _ _ _ _ _ _ H). }
  apply HQ. destruct H as [? ? Hh ? ? Hn ?]. split; try done; [|by apply hold_none].
  intros b'. cbn. destruct (decide (b' = b)) as [->|]; [by rewrite !fn_lookup_insert|].
  rewrite !fn_lookup_insert_ne by done. apply Hh.
Qed.

Lemma wp_fdata L k c h ic x b s (Q : Log.block → fst → Prop) :
  st L k c h ic x s → Q (c b) s → wp (data b) Q s.
Proof.
  intros H HQ. apply wp_zoom. unfold Log.data. apply wp_gets. rewrite (st_cache _ _ _ _ _ _ _ H).
  by destruct s as [l i z].
Qed.

Lemma wp_fstore L k c h ic x b d s Q :
  st L k c h ic x s → (∀ s', st L k (<[b := d]> c) h ic x s' → Q tt s') → wp (store b d) Q s.
Proof.
  intros H HQ. apply wp_zoom. unfold Log.store. apply wp_modify, HQ. destruct H as [? Hc ? ? ? ? ?]. split; try done.
  intros b'. cbn. destruct (decide (b' = b)) as [->|]; [by rewrite !fn_lookup_insert|].
  rewrite !fn_lookup_insert_ne by done. apply Hc.
Qed.

Lemma wp_flogw k c h ic x b s Q :
  st [] (S k) c h ic x s → (∀ s', st [] k c h ic x s' → Q tt s') → wp (log_write b) Q s.
Proof.
  intros [Hl Hc Hh Hi Hs Hn (bs & Hm & Ho & Hr1 & Hr2)] HQ.
  apply wp_zoom, (Log.wp_log_write (Log.start (lg s)) bs); [done|done|done|lia|lia|].
  intros n l Hm'. apply HQ. split; try done; [cbn; rewrite Hn; by destruct (_ || _)|]. exists (Log.absorb bs b). split; [done|]. split; [done|].
  assert (length (Log.absorb bs b) <= S (length bs))%nat.
  { unfold Log.absorb. case_decide; rewrite ?length_app; simpl; lia. }
  cbn. lia.
Qed.

Lemma wp_facquire k c h ic x lk s Q :
  st [] k c h ic x s → (∀ s', st [lk] k c h ic x s' → Q tt s') → wp (acquire lk) Q s.
Proof.
  intros H HQ. apply wp_zoom, Log.wp_lacquire; [exact (st_locks _ _ _ _ _ _ _ H)|]. apply HQ.
  destruct H. by split.
Qed.
Lemma wp_frelease k c h ic x lk s Q :
  st [lk] k c h ic x s → (∀ s', st [] k c h ic x s' → Q tt s') → wp (release lk) Q s.
Proof.
  intros H HQ. apply wp_zoom, Log.wp_lrelease; [exact (st_locks _ _ _ _ _ _ _ H)|]. apply HQ.
  destruct H. by split.
Qed.
Lemma wp_fwakeup L k c h ic x ch s Q :
  st L k c h ic x s → (∀ s', st L k c h ic x s' → Q tt s') → wp (wakeup ch) Q s.
Proof. intros H HQ. apply wp_zoom, Log.wp_lwakeup. apply HQ. destruct H. by split. Qed.

Lemma wp_ino L k c h ic x i ip s (Q : inode → fst → Prop) :
  st L k c h ic x s → ic !! i = Some ip → Q ip s → wp (ino i) Q s.
Proof.
  intros H Hi HQ. unfold ino. wp_steps. rewrite (st_icache _ _ _ _ _ _ _ H), Hi. by wp_steps.
Qed.
Lemma wp_fupd L k c h ic x i f s Q :
  st L k c h ic x s → (∀ s', st L k c h (alter f i ic) x s' → Q tt s') → wp (upd i f) Q s.
Proof.
  intros H HQ. unfold upd. apply wp_modify, HQ. destruct H as [? ? ? Hi ? ? ?]. split; try done. cbn. by rewrite Hi.
Qed.
Lemma wp_getsb L k c h ic x s (Q : superblock → fst → Prop) :
  st L k c h ic x s → Q x s → wp (gets sb) Q s.
Proof. intros H HQ. apply wp_gets. by rewrite (st_sb _ _ _ _ _ _ _ H). Qed.

(** Reading a block and letting it go; changing it inside the transaction. *)
Lemma wp_peek {A} L k c h ic x b (f : Log.block → A) s (Q : A → fst → Prop) :
  st L k c h ic x s → h b = false →
  (∀ s', st L k c h ic x s' → Q (f (c b)) s') →
  wp (d ← bread ROOTDEV b; brelse b;; mret (f d)) Q s.
Proof.
  intros H Hb HQ. apply wp_bind. eapply wp_fbread; [done|done|]. intros s1 H1.
  apply wp_bind. eapply wp_fbrelse; [done|by rewrite fn_lookup_insert|]. intros s2 H2. wp_steps. apply HQ.
  (eapply st_ext; [| |eassumption]); [done|by apply hold_back].
Qed.

Lemma wp_fchange k c h ic x b (f : Log.block → Log.block) s Q :
  st [] (S k) c h ic x s → h b = false →
  (∀ s', st [] k (<[b := f (c b)]> c) h ic x s' → Q tt s') →
  wp (d ← bread ROOTDEV b; store b (f d);; log_write b;; brelse b) Q s.
Proof.
  intros H Hb HQ. apply wp_bind. eapply wp_fbread; [done|done|]. intros s1 H1.
  apply wp_bind. eapply wp_fstore; [done|]. intros s2 H2. apply wp_bind. eapply wp_flogw; [done|]. intros s3 H3.
  eapply wp_fbrelse; [done|by rewrite fn_lookup_insert|]. intros s4 H4. apply HQ.
  (eapply st_ext; [| |eassumption]); [done|by apply hold_back].
Qed.

Lemma wp_readsb L k c h ic x s (Q : superblock → fst → Prop) :
  st L k c h ic x s → h 1 = false →
  (∀ s', st L k c h ic x s' → Q (decode_sb (c 1)) s') → wp (readsb ROOTDEV) Q s.
Proof. intros H Hb HQ. unfold readsb. by eapply wp_peek. Qed.

Lemma wp_bzero k c h ic x b s Q :
  st [] (S k) c h ic x s → h b = false →
  (∀ s', st [] k (<[b := zero_block]> c) h ic x s' → Q tt s') → wp (bzero ROOTDEV b) Q s.
Proof. intros H Hb HQ. unfold bzero. by eapply (wp_fchange k c h ic x b (λ _, zero_block)). Qed.

(** Loops with a stride. *)
Lemma wp_step_for {B} (I : Z → fst → Prop) (Q : option B → fst → Prop) (body : Z → M fst (option B)) hi d : 
  0 < d → hi + d < w32 → ∀ fuel off s,
  0 <= off → hi - off <= Z.of_nat fuel * d → I off s →
  (∀ off s, 0 <= off < hi → I off s →
    wp (body off) (λ r s', match r with Some b => Q (Some b) s' | None => I (off + d) s' end) s) →
  (∀ off s, hi <= off → I off s → Q None s) →
  wp (step_for fuel off hi d body) Q s.
Proof.
  intros Hd Hhi fuel. induction fuel as [|fuel IH]; intros off s Ho Hf HI Hb He; cbn [step_for].
  - rewrite (proj2 (Z.ltb_ge _ _)) by lia. wp_steps. apply (He off); [lia|done].
  - destruct (Z.ltb_spec off hi) as [Hlt|Hge]; [|wp_steps; by apply (He off)].
    apply wp_bind. eapply wp_mono; [by apply Hb|]. intros [b|] s' H; [by wp_steps|].
    rewrite u32_small by lia. apply IH; [lia|lia|done|done|done].
Qed.
End specs.

(** ** Bits of the free map *)

Lemma bit_of_testbit d bi :
  0 <= bi → bit_of d bi = Z.testbit (byte d (Z.to_nat (bi / 8))) (bi mod 8).
Proof.
  intros Hb. unfold bit_of. set (v := byte _ _). set (n := bi mod 8).
  assert (Hn : 0 <= n < 8) by (apply Z.mod_pos_bound; lia).
  destruct (Z.testbit v n) eqn:E.
  - destruct (Z.eqb_spec (Z.land v (Z.shiftl 1 n)) 0) as [Z0|]; [|done].
    apply (f_equal (λ z, Z.testbit z n)) in Z0. rewrite Z.land_spec, Z.shiftl_spec, Z.sub_diag, E, Z.bits_0 in Z0 by lia. done.
  - replace (Z.land v (Z.shiftl 1 n)) with 0; [done|]. symmetry. apply Z.bits_inj'. intros m Hm.
    rewrite Z.land_spec, Z.bits_0. destruct (decide (m = n)) as [->|Hne]; [by rewrite E|].
    replace (Z.testbit (Z.shiftl 1 n) m) with false; [apply andb_false_r|].
    rewrite Z.shiftl_1_l. symmetry. apply Z.pow2_bits_false. lia.
Qed.

Lemma bit_split i j : 0 <= i → 0 <= j → i / 8 = j / 8 → i mod 8 = j mod 8 → i = j.
Proof. intros. pose proof (Z.div_mod i 8). pose proof (Z.div_mod j 8). lia. Qed.

Section bits.
Context (d : Log.block) (bi : Z).
Hypothesis Hlen : length d = Z.to_nat BSIZE.
Hypothesis Hbi : 0 <= bi < BPB.

Lemma bi_in : (Z.to_nat (bi / 8) < length d)%nat.
Proof using Hlen Hbi.
  rewrite Hlen. unfold BSIZE, BPB in *. pose proof (Z.div_pos bi 8). pose proof (Z.div_lt_upper_bound bi 8 512). lia.
Qed.

Lemma bit_of_set j : 0 <= j → bit_of (bit_set d bi) j = bool_decide (j = bi) || bit_of d j.
Proof using Hlen Hbi.
  intros Hj. rewrite !bit_of_testbit by done. unfold bit_set. rewrite byte_insert by apply bi_in.
  assert (0 <= bi / 8) by (apply Z.div_pos; lia). assert (0 <= j / 8) by (apply Z.div_pos; lia).
  assert (0 <= bi mod 8 < 8) by (apply Z.mod_pos_bound; lia). assert (0 <= j mod 8 < 8) by (apply Z.mod_pos_bound; lia).
  case_decide as E.
  - rewrite Z.lor_spec, Z.shiftl_1_l. assert (E' : bi / 8 = j / 8) by lia. rewrite E'. case_bool_decide as D.
    + subst. rewrite Z.pow2_bits_true by lia. by rewrite orb_true_r.
    + rewrite Z.pow2_bits_false; [by rewrite orb_false_r|]. intros M. apply D. symmetry. apply bit_split; (done || lia).
  - rewrite bool_decide_false; [done|]. intros ->. done.
Qed.

Lemma bit_of_clear j : 0 <= j → bit_of (bit_clear d bi) j = negb (bool_decide (j = bi)) && bit_of d j.
Proof using Hlen Hbi.
  intros Hj. rewrite !bit_of_testbit by done. unfold bit_clear. rewrite byte_insert by apply bi_in.
  assert (0 <= bi / 8) by (apply Z.div_pos; lia). assert (0 <= j / 8) by (apply Z.div_pos; lia).
  assert (0 <= bi mod 8 < 8) by (apply Z.mod_pos_bound; lia). assert (0 <= j mod 8 < 8) by (apply Z.mod_pos_bound; lia).
  case_decide as E.
  - rewrite Z.land_spec, Z.lnot_spec, Z.shiftl_1_l by lia. assert (E' : bi / 8 = j / 8) by lia. rewrite E'. case_bool_decide as D.
    + subst. rewrite Z.pow2_bits_true by lia. apply andb_false_r.
    + rewrite Z.pow2_bits_false; [by rewrite andb_true_r|]. intros M. apply D. symmetry. apply bit_split; (done || lia).
  - rewrite bool_decide_false; [done|]. intros ->. done.
Qed.

(** Clearing the bit that was set gives the block back. *)
Lemma bit_clear_set : bit_of d bi = false → bit_clear (bit_set d bi) bi = d.
Proof using Hlen Hbi.
  intros Hb. rewrite bit_of_testbit in Hb by lia. unfold bit_clear, bit_set.
  rewrite byte_insert by apply bi_in. rewrite decide_True by done.
  etrans; [apply list_insert_insert_eq|]. apply list_insert_id. destruct (lookup_lt_is_Some_2 d _ bi_in) as [v Hv]. rewrite Hv. f_equal.
  unfold byte in *. rewrite nth_lookup, Hv in *. cbn in *. symmetry. apply Z.bits_inj'. intros m Hm.
  assert (0 <= bi mod 8) by (apply Z.mod_pos_bound; lia).
  rewrite Z.land_spec, Z.lnot_spec, Z.lor_spec, Z.shiftl_1_l by lia. destruct (decide (m = bi mod 8)) as [->|Hne].
  - rewrite Z.pow2_bits_true by lia. cbn. rewrite Hb. by rewrite andb_false_r.
  - rewrite Z.pow2_bits_false by lia. by rewrite orb_false_r, andb_true_r.
Qed.
End bits.

End FsSpec.
