(* ===== verification/FsDemo.v ===== *)
(** * A small file system

    A disk of 200 blocks as mkfs lays it out, with a log of 31 blocks, 16
    inodes and a root directory, on which the properties of the file system are
    instantiated. *)

From S2P Require Import Prelude CString Bytes Kern Log Fs FsSpec.
Local Open Scope Z_scope.

Module FsDemo.
Import Bytes Fs FsSpec.

Definition zb : Log.block := replicate 512 0.

(** size 200, 163 data blocks, 16 inodes, log at 2, inodes at 33, map at 36. *)
Definition demo_sb : superblock := mksb 200 163 16 31 2 33 36.
Definition sb_block : Log.block :=
  put32 (put32 (put32 (put32 (put32 (put32 (put32 zb 0 200) 4 163) 8 16) 12 31) 16 2) 20 33) 24 36.

(** The root directory, inode 1, is in block 37 with entries "." and "..". *)
Definition root_inode : inode :=
  mkinode 1 1 0 false false 1 0 0 1 0 0 493 512 (37 :: replicate 10 0).
Definition root_block : Log.block :=
  [1; 0; 46] ++ replicate 13 0 ++ [1; 0; 46; 46] ++ replicate 12 0 ++ replicate 480 0.
(** Blocks 0 to 37 are in use. *)
Definition map_block : Log.block := replicate 4 255 ++ [63] ++ replicate 507 0.

Definition demo_disk (b : Z) : Log.block :=
  if b =? 1 then sb_block
  else if b =? 33 then store_dinode zb 64 root_inode
  else if b =? 36 then map_block
  else if b =? 37 then root_block else zb.

Definition no_inode : inode := mkinode 0 0 0 false false 0 0 0 0 0 0 0 0 (replicate 11 0).
Definition demo_icache : list inode := replicate NINODE no_inode.

(** The state in which [o] operations are in progress. *)
Definition demo_fs (o : Z) : fst :=
  mkfst (Log.mklst (Kern.mkkern [] []) demo_disk demo_disk none none None [] 2 31 o false 0 (replicate 30 0))
    demo_icache demo_sb.

Lemma demo_st k : (k <= 30)%nat → st [] k demo_disk none demo_icache demo_sb (demo_fs 1).
Proof.
  intros Hk. split; try done. exists []. split; [by split|]. split; [done|]. cbn. unfold Log.LOGSIZE, Log.MAXOPBLOCKS. lia.
Qed.

(** There are no devices. *)
Definition no_read : Z → option (nat → Z → M fst (Z * list Z)) := λ _, None.
Definition no_write : Z → option (nat → list Z → Z → M fst Z) := λ _, None.

End FsDemo.
