(* ===== verification/FsBlocks.v ===== *)
(** * The block allocator of fs.c

    The free map as a predicate on block numbers, and balloc and bfree as
    operations on it. *)

From S2P Require Import Prelude CString Bytes Kern Log Fs FsSpec FsDemo.
Local Open Scope Z_scope.

Module FsBlocks.
Import Bytes Fs FsSpec FsDemo.

(** The superblock describes a file system whose block numbers fit 32 bits. *)
Definition sb_ok (x : superblock) : Prop :=
  0 <= sb_size x ∧ sb_size x + BPB < w32 ∧ 0 <= sb_bmapstart x ∧ sb_bmapstart x + sb_size x < w32.

(** Block [b] is marked in use; the map's blocks are whole. *)
Definition used (x : superblock) (c : Z → Log.block) (b : Z) : bool := bit_of (c (BBLOCK b x)) (b mod BPB).
Definition map_ok (x : superblock) (c : Z → Log.block) : Prop :=
  ∀ b, 0 <= b < sb_size x → length (c (BBLOCK b x)) = Z.to_nat BSIZE.

Definition mark (x : superblock) (b : Z) (c : Z → Log.block) : Z → Log.block :=
  <[BBLOCK b x := bit_set (c (BBLOCK b x)) (b mod BPB)]> c.
Definition unmark (x : superblock) (b : Z) (c : Z → Log.block) : Z → Log.block :=
  <[BBLOCK b x := bit_clear (c (BBLOCK b x)) (b mod BPB)]> c.

Section proofs.
Context `{mode : Mode}.
Context (x : superblock).
Hypothesis Hx : sb_ok x.

Lemma BBLOCK_eq b : 0 <= b < sb_size x → BBLOCK b x = b / BPB + sb_bmapstart x.
Proof using Hx.
  destruct Hx as (H1 & H2 & H3 & H4). intros Hb. unfold BBLOCK, BPB in *. apply u32_small.
  pose proof (Z.div_pos b 4096). pose proof (Z.div_le_upper_bound b 4096 (sb_size x)). lia.
Qed.

Lemma in_block j bi : 0 <= j → 0 <= bi < BPB → (j * BPB + bi) / BPB = j ∧ (j * BPB + bi) mod BPB = bi.
Proof using.
  intros Hj Hb. unfold BPB in *. split.
  - rewrite Z.div_add_l by done. rewrite Z.div_small by lia. lia.
  - rewrite Z.add_comm, Z_mod_plus_full. by apply Z.mod_small.
Qed.

Lemma BBLOCK_same j bi : 0 <= j → 0 <= bi < BPB → j * BPB + bi < sb_size x →
  BBLOCK (j * BPB + bi) x = BBLOCK (j * BPB) x.
Proof using Hx.
  intros Hj Hb Hs. assert (0 <= j * BPB) by (unfold BPB; lia). rewrite !BBLOCK_eq by lia.
  rewrite (proj1 (in_block j bi Hj Hb)). rewrite <-(Z.add_0_r (j * BPB)).
  rewrite (proj1 (in_block j 0 Hj ltac:(unfold BPB; lia))). done.
Qed.

Section alloc.
Context (k : nat) (c : Z → Log.block) (h : Z → bool) (ic : list inode) (f : Z).
Hypothesis Hf : 0 <= f < sb_size x.
Hypothesis Hfree : used x c f = false.
Hypothesis Hfirst : ∀ b, 0 <= b < f → used x c b = true.
Hypothesis Hmap : map_ok x c.
Hypothesis Hheld : ∀ b, 0 <= b < sb_size x → h (BBLOCK b x) = false.
Hypothesis Hheldf : h f = false.

Definition allocated (s : fst) : Prop := st [] k (<[f := zero_block]> (mark x f c)) h ic x s.

(** A bitmap block is scanned up to the first free block, if that is in it. *)
Lemma wp_balloc_in j s (Q : option Z → fst → Prop) :
  0 <= j → j * BPB < sb_size x → j * BPB <= f →
  st [] (S (S k)) c (<[BBLOCK (j * BPB) x := true]> h) ic x s →
  (∀ s', allocated s' → Q (Some f) s') →
  (∀ s', (j + 1) * BPB <= f → st [] (S (S k)) c (<[BBLOCK (j * BPB) x := true]> h) ic x s' → Q None s') →
  wp (balloc_in ROOTDEV (j * BPB) (BBLOCK (j * BPB) x) (Z.to_nat (Z.min BPB (sb_size x - j * BPB)))) Q s.
Proof using Hx Hf Hfree Hfirst Hmap Hheld Hheldf.
  intros Hj Hjs Hjf Hs HQ1 HQ2. set (bb := BBLOCK (j * BPB) x) in *. unfold balloc_in.
  apply (wp_count_for (λ bi s, j * BPB + Z.of_nat bi <= f ∧ st [] (S (S k)) c (<[bb := true]> h) ic x s)).
  - split; [lia|done].
  - intros bi s1 Hbi [Hle H1]. assert (Hb : 0 <= Z.of_nat bi < BPB) by (unfold BPB in *; lia).
    assert (Hbs : j * BPB + Z.of_nat bi < sb_size x) by lia.
    pose proof (BBLOCK_same j _ Hj Hb Hbs) as Ebb. pose proof (proj2 (in_block j _ Hj Hb)) as Emod.
    apply wp_bind. eapply wp_fdata; [done|].
    assert (Eu : bit_of (c bb) (Z.of_nat bi) = used x c (j * BPB + Z.of_nat bi)).
    { unfold used. rewrite Ebb, Emod. done. }
    rewrite Eu. destruct (decide (j * BPB + Z.of_nat bi = f)) as [E|Hne].
    + rewrite E, Hfree. apply wp_bind. eapply wp_fstore; [done|]. intros s2 H2.
      apply wp_bind. eapply wp_flogw; [done|]. intros s3 H3.
      apply wp_bind. eapply wp_fbrelse; [done|by rewrite fn_lookup_insert|]. intros s4 H4.
      assert (Hhb : h bb = false) by (apply Hheld; unfold BPB in *; lia).
      apply wp_bind. eapply wp_bzero; [done|rewrite (hold_back h bb Hhb); done|]. intros s5 H5.
      wp_steps. apply HQ1. unfold allocated, mark. replace (f mod BPB) with (Z.of_nat bi) by (rewrite <-E; done).
      replace (BBLOCK f x) with bb by (rewrite <-E; done).
      (eapply st_ext; [| |eassumption]); [done|by apply hold_back].
    + rewrite Hfirst by (unfold BPB in *; lia). wp_steps. split; [lia|done].
  - intros s1 [Hle H1]. apply HQ2; [unfold BPB in *; lia|done].
Qed.

Lemma wp_balloc s (Q : Z → fst → Prop) :
  st [] (S (S k)) c h ic x s → (∀ s', allocated s' → Q f s') → wp (balloc ROOTDEV) Q s.
Proof using Hx Hf Hfree Hfirst Hmap Hheld Hheldf.
  intros Hs HQ. unfold balloc. apply wp_bind. eapply wp_getsb; [done|]. apply wp_bind.
  apply (wp_step_for (λ off s, ∃ j, off = j * BPB ∧ 0 <= j ∧ off <= f ∧ st [] (S (S k)) c h ic x s)).
  - done.
  - by destruct Hx as (_ & ? & _).
  - done.
  - unfold BPB. destruct Hx as (? & _). pose proof (Z.div_mod (sb_size x) 4096).
    pose proof (Z.div_pos (sb_size x) 4096). pose proof (Z.mod_pos_bound (sb_size x) 4096). lia.
  - exists 0. split; [done|]. split; [done|]. split; [lia|done].
  - intros off s1 Hoff (j & -> & Hj & Hle & H1). cbv zeta.
    assert (Hhb : h (BBLOCK (j * BPB) x) = false) by (apply Hheld; lia).
    apply wp_bind. eapply wp_fbread; [done|done|]. intros s2 H2. apply wp_bind.
    apply wp_balloc_in; [done|lia|done|done| |].
    + intros s3 H3. wp_steps. by apply HQ.
    + intros s3 Hle' H3. apply wp_bind. eapply wp_fbrelse; [done|by rewrite fn_lookup_insert|]. intros s4 H4.
      wp_steps. exists (j + 1). split; [unfold BPB; lia|]. split; [lia|]. split; [unfold BPB in *; lia|].
      (eapply st_ext; [| |eassumption]); [done|by apply hold_back].
  - intros off s1 Hoff (j & -> & Hj & Hle & H1). lia.
Qed.
End alloc.

(** The map after marking and unmarking. *)
Lemma used_mark c b j :
  map_ok x c → 0 <= b < sb_size x → 0 <= j < sb_size x →
  used x (mark x b c) j = bool_decide (j = b) || used x c j.
Proof using Hx.
  intros Hm Hb Hj. unfold used, mark. assert (Hm1 : 0 <= j mod BPB < BPB) by (apply Z.mod_pos_bound; done).
  destruct (decide (BBLOCK j x = BBLOCK b x)) as [E|E].
  - rewrite E, fn_lookup_insert. rewrite bit_of_set; [|by apply Hm|by apply Z.mod_pos_bound|lia].
    f_equal. apply bool_decide_ext. rewrite !BBLOCK_eq in E by done. split; [|by intros ->].
    intros M. pose proof (Z.div_mod j BPB ltac:(done)). pose proof (Z.div_mod b BPB ltac:(done)).
    assert (Hd : j / BPB = b / BPB) by lia. rewrite Hd, M in *. lia.
  - rewrite fn_lookup_insert_ne by done. rewrite bool_decide_false; [done|]. by intros ->.
Qed.

Lemma used_unmark c b j :
  map_ok x c → 0 <= b < sb_size x → 0 <= j < sb_size x →
  used x (unmark x b c) j = negb (bool_decide (j = b)) && used x c j.
Proof using Hx.
  intros Hm Hb Hj. unfold used, unmark. assert (Hm1 : 0 <= j mod BPB < BPB) by (apply Z.mod_pos_bound; done).
  destruct (decide (BBLOCK j x = BBLOCK b x)) as [E|E].
  - rewrite E, fn_lookup_insert. rewrite bit_of_clear; [|by apply Hm|by apply Z.mod_pos_bound|lia].
    f_equal. f_equal. apply bool_decide_ext. rewrite !BBLOCK_eq in E by done. split; [|by intros ->].
    intros M. pose proof (Z.div_mod j BPB ltac:(done)). pose proof (Z.div_mod b BPB ltac:(done)).
    assert (Hd : j / BPB = b / BPB) by lia. rewrite Hd, M in *. lia.
  - rewrite fn_lookup_insert_ne by done. rewrite bool_decide_false; [done|]. by intros ->.
Qed.

Lemma wp_bfree k c h ic b s (Q : unit → fst → Prop) :
  st [] (S k) c h ic x s → decode_sb (c 1) = x → h 1 = false → h (BBLOCK b x) = false →
  used x c b = true → (∀ s', st [] k (unmark x b c) h ic x s' → Q tt s') → wp (bfree ROOTDEV b) Q s.
Proof using.
  intros Hs Hsb H1 Hbb Hu HQ. unfold bfree. apply wp_bind. eapply wp_readsb; [done|done|]. intros s1 H2.
  rewrite Hsb. wp_steps. apply (wp_fbread [] (S k) c h ic x); [destruct H2; by split|done|]. intros s2 H3. unfold used in Hu. rewrite Hu. cbn [negb].
  apply wp_bind. eapply wp_fstore; [done|]. intros s3 H4. apply wp_bind. eapply wp_flogw; [done|]. intros s4 H5.
  eapply wp_fbrelse; [done|by rewrite fn_lookup_insert|]. intros s5 H6. apply HQ.
  (eapply st_ext; [| |eassumption]); [done|by apply hold_back].
Qed.
End proofs.


(** ** Properties *)

(** C15: balloc returns the lowest-numbered free block, zeroed and marked in
    use; no other block's mark and no other block's contents change (apart from
    the map block that holds the mark), and it terminates after at most one
    pass over the map. *)
Theorem balloc_allocates x k c h ic f s :
  sb_ok x → map_ok x c → 0 <= f < sb_size x → used x c f = false → (∀ b, 0 <= b < f → used x c b = true) →
  (∀ b, 0 <= b < sb_size x → BBLOCK b x ≠ f) → (∀ b, 0 <= b < sb_size x → h (BBLOCK b x) = false) → h f = false →
  st [] (S (S k)) c h ic x s →
  ∃ s' c', balloc ROOTDEV s = Ok f s' ∧ st [] k c' h ic x s' ∧ c' f = zero_block ∧
    (∀ b, 0 <= b < sb_size x → used x c' b = bool_decide (b = f) || used x c b) ∧
    (∀ b, b ≠ f → b ≠ BBLOCK f x → c' b = c b).
Proof.
  intros Hx Hm Hf Hu Hfirst Hne Hh Hhf Hs.
  destruct (wp_total (balloc ROOTDEV) (λ a s', a = f ∧ allocated x k c h ic f s') s) as (a & s' & E & -> & Ha).
  { apply (wp_balloc x Hx k c h ic f); done. }
  exists s', (<[f := zero_block]> (mark x f c)). split; [done|]. split; [done|].
  split; [by rewrite fn_lookup_insert|]. split.
  - intros b Hb. rewrite <-(used_mark x Hx c f b) by done. unfold used. by rewrite fn_lookup_insert_ne by (symmetry; auto).
  - intros b H1 H2. unfold mark. by rewrite !fn_lookup_insert_ne by done.
Qed.

(** Bfree clears exactly the mark of its block, whatever else the map
    holds, and it undoes balloc: after allocating and freeing a block the map
    block is bit for bit what it was. *)
Theorem bfree_frees x k c h ic b s :
  sb_ok x → map_ok x c → 0 <= b < sb_size x → decode_sb (c 1) = x → h 1 = false → h (BBLOCK b x) = false →
  used x c b = true → st [] (S k) c h ic x s →
  ∃ s' c', bfree ROOTDEV b s = Ok tt s' ∧ st [] k c' h ic x s' ∧
    (∀ j, 0 <= j < sb_size x → used x c' j = negb (bool_decide (j = b)) && used x c j) ∧
    (∀ j, j ≠ BBLOCK b x → c' j = c j) ∧
    (∀ c0, length (c0 (BBLOCK b x)) = Z.to_nat BSIZE → used x c0 b = false →
       c (BBLOCK b x) = mark x b c0 (BBLOCK b x) → c' (BBLOCK b x) = c0 (BBLOCK b x)).
Proof.
  intros Hx Hm Hb Hsb H1 Hbb Hu Hs.
  destruct (wp_total (bfree ROOTDEV b) (λ _ s', st [] k (unmark x b c) h ic x s') s) as ([] & s' & E & Ha).
  { by apply (wp_bfree x k c h ic). }
  exists s', (unmark x b c). split; [done|]. split; [done|]. split; [intros j Hj; by apply used_unmark|]. split.
  - intros j Hj. unfold unmark. by rewrite fn_lookup_insert_ne.
  - intros c0 Hl Hu0 Hc. unfold unmark, mark in *. rewrite fn_lookup_insert in *. rewrite Hc.
    apply bit_clear_set; [done|by apply Z.mod_pos_bound|exact Hu0].
Qed.

(** *** On the demonstration disk *)

Lemma demo_sb_ok : sb_ok demo_sb.
Proof. repeat split; by vm_compute. Qed.
Lemma demo_BBLOCK b : 0 <= b < 200 → BBLOCK b demo_sb = 36.
Proof. intros Hb. rewrite (BBLOCK_eq demo_sb demo_sb_ok) by done. unfold BPB. rewrite Z.div_small by lia. done. Qed.
Lemma demo_map_ok : map_ok demo_sb demo_disk.
Proof. intros b Hb. by rewrite demo_BBLOCK. Qed.
Lemma demo_used b : 0 <= b < 38 → used demo_sb demo_disk b = true.
Proof.
  intros Hb. unfold used. rewrite demo_BBLOCK by lia. change (demo_disk 36) with map_block.
  rewrite Z.mod_small by (unfold BPB; lia).
  assert (H : forallb (λ n, bit_of map_block (Z.of_nat n)) (seq 0 38) = true) by (vm_compute; reflexivity).
  rewrite forallb_forall in H. specialize (H (Z.to_nat b)). rewrite Z2Nat.id in H by lia. apply H, in_seq. lia.
Qed.

Lemma balloc_allocates_witness :
  ∃ s' c', balloc ROOTDEV (demo_fs 1) = Ok 38 s' ∧ st [] 0 c' none demo_icache demo_sb s'.
Proof.
  destruct (balloc_allocates demo_sb 0 demo_disk none demo_icache 38 (demo_fs 1) demo_sb_ok demo_map_ok
    ltac:(done) ltac:(vm_compute; reflexivity) demo_used
    ltac:(intros b Hb; rewrite (demo_BBLOCK b Hb); done) ltac:(done) eq_refl (demo_st 2 ltac:(lia)))
    as (s' & c' & E & H & _). exists s', c'. exact (conj E H).
Defined.

Lemma bfree_frees_witness :
  ∃ s' c', bfree ROOTDEV 37 (demo_fs 1) = Ok tt s' ∧ used demo_sb c' 37 = false.
Proof.
  destruct (bfree_frees demo_sb 0 demo_disk none demo_icache 37 (demo_fs 1) demo_sb_ok demo_map_ok
    ltac:(done) ltac:(vm_compute; reflexivity) eq_refl eq_refl ltac:(vm_compute; reflexivity) (demo_st 1 ltac:(lia)))
    as (s' & c' & E & _ & H & _). exists s', c'. refine (conj E _). rewrite (H 37 ltac:(done)). reflexivity.
Defined.

End FsBlocks.
