(* ===== verification/FsInode.v ===== *)
(** * Inodes: the cache's reference counts and the on-disk format

    iget, idup and iput as operations on the number of references to an inode,
    and the round trip between the in-memory and the on-disk inode. *)

From S2P Require Import Prelude CString Bytes Kern Log Fs FsSpec FsDemo.
Local Open Scope Z_scope.

Module FsInode.
Import Bytes Fs FsSpec FsDemo.

(** ** Reference counts *)

Definition hit (dev inum : Z) (ip : inode) : bool :=
  (0 <? i_ref ip) && (i_dev ip =? dev) && (i_inum ip =? inum).

(** The references to an inode that the cache counts. *)
Definition refs (dev inum : Z) (ic : list inode) : Z :=
  foldr (λ ip n, (if hit dev inum ip then i_ref ip else 0) + n) 0 ic.

(** Every inode in use has one entry, and no count is negative. *)
Definition ic_ok (ic : list inode) : Prop :=
  (∀ i j ip jp, ic !! i = Some ip → ic !! j = Some jp → 0 < i_ref ip → 0 < i_ref jp →
     i_dev ip = i_dev jp → i_inum ip = i_inum jp → i = j) ∧
  Forall (λ ip, 0 <= i_ref ip) ic.

Lemma hit_spec dev inum ip : hit dev inum ip = true ↔ 0 < i_ref ip ∧ i_dev ip = dev ∧ i_inum ip = inum.
Proof. unfold hit. rewrite !andb_true_iff, Z.ltb_lt, !Z.eqb_eq. naive_solver. Qed.

Lemma refs_cons dev inum ip ic :
  refs dev inum (ip :: ic) = (if hit dev inum ip then i_ref ip else 0) + refs dev inum ic.
Proof. done. Qed.

Lemma refs_alter dev inum ic : ∀ i ip f, ic !! i = Some ip →
  refs dev inum (alter f i ic) = refs dev inum ic
    - (if hit dev inum ip then i_ref ip else 0) + (if hit dev inum (f ip) then i_ref (f ip) else 0).
Proof.
  induction ic as [|jp ic IH]; intros [|i] ip f Hi; [done|done|..].
  - injection Hi as ->. cbn. lia.
  - change (alter f (S i) (jp :: ic)) with (jp :: alter f i ic).
    rewrite !refs_cons, (IH i ip f Hi). lia.
Qed.

(** The search finds the entry in use, or the first free entry. *)
Lemma iget_scan_spec dev inum l : ∀ i e,
  match iget_scan l i dev inum e with
  | inl j => ∃ k ip, j = (i + k)%nat ∧ l !! k = Some ip ∧ hit dev inum ip = true
  | inr o => (∀ k ip, l !! k = Some ip → hit dev inum ip = false) ∧
      match o with
      | Some j => e = Some j ∨ (e = None ∧ ∃ k ip, j = (i + k)%nat ∧ l !! k = Some ip ∧ i_ref ip = 0)
      | None => e = None ∧ ∀ k ip, l !! k = Some ip → i_ref ip ≠ 0
      end
  end.
Proof.
  induction l as [|ip l IH]; intros i e; cbn [iget_scan].
  - split; [done|]. destruct e; [by left|done].
  - fold (hit dev inum ip). destruct (hit dev inum ip) eqn:Hh.
    + exists 0%nat, ip. split; [lia|done].
    + set (e' := match e with None => _ | Some _ => _ end). specialize (IH (S i) e').
      destruct (iget_scan l (S i) dev inum e') as [j|o].
      * destruct IH as (k & jp & -> & Hk & Hj). exists (S k), jp. split; [lia|done].
      * destruct IH as [H1 H2]. split; [intros [|k] jp Hk; [by injection Hk as <-|by eapply H1]|].
        destruct o as [j|].
        -- destruct H2 as [He|(He & k & jp & -> & Hk & Hr)].
           ++ destruct e as [e0|]; [by left|]. right. split; [done|]. unfold e' in He.
              destruct (Z.eqb_spec (i_ref ip) 0) as [Hz|]; [|done]. injection He as <-. exists 0%nat, ip. split; [lia|done].
           ++ right. split; [by destruct e|]. exists (S k), jp. split; [lia|done].
        -- destruct H2 as [He H2]. destruct e; [done|]. split; [done|]. unfold e' in He.
           intros [|k] jp Hk; [|by eapply H2]. injection Hk as <-. by destruct (Z.eqb_spec (i_ref ip) 0).
Qed.

(** Changing the count of one entry by one. *)
Lemma ic_ok_bump ic i ip r :
  ic_ok ic → ic !! i = Some ip → 0 < i_ref ip → 0 <= r → ic_ok (alter (set_ref r) i ic).
Proof.
  intros [Hu Hp] Hi H0 Hr. split.
  - intros j1 j2 ip1 ip2 H1 H2 R1 R2 E1 E2.
    assert (G : ∀ j jp, alter (set_ref r) i ic !! j = Some jp → 0 < i_ref jp →
      ∃ jp', ic !! j = Some jp' ∧ 0 < i_ref jp' ∧ i_dev jp' = i_dev jp ∧ i_inum jp' = i_inum jp).
    { intros j jp Hj Hpos. destruct (decide (j = i)) as [->|Hne].
      - rewrite list_lookup_alter_eq, Hi in Hj. cbn in Hj. injection Hj as <-. by exists ip.
      - rewrite list_lookup_alter_ne in Hj by done. by exists jp. }
    destruct (G _ _ H1 R1) as (q1 & ? & ? & ? & ?), (G _ _ H2 R2) as (q2 & ? & ? & ? & ?).
    apply (Hu j1 j2 q1 q2); congruence.
  - apply Forall_alter; [done|]. intros y _ _. done.
Qed.

Lemma ic_ok_fresh ic i ip dev inum :
  ic_ok ic → ic !! i = Some ip → i_ref ip = 0 → (∀ k jp, ic !! k = Some jp → hit dev inum jp = false) →
  ic_ok (alter (fresh_inode dev inum) i ic).
Proof.
  intros [Hu Hp] Hi H0 Hno. split.
  - assert (G : ∀ j jp, j ≠ i → alter (fresh_inode dev inum) i ic !! j = Some jp → 0 < i_ref jp →
      ¬ (i_dev jp = dev ∧ i_inum jp = inum)).
    { intros j jp Hne Hj Hpos [E1 E2]. rewrite list_lookup_alter_ne in Hj by done.
      specialize (Hno j jp Hj). by rewrite (proj2 (hit_spec dev inum jp)) in Hno. }
    assert (Gi : ∀ jp, alter (fresh_inode dev inum) i ic !! i = Some jp → i_dev jp = dev ∧ i_inum jp = inum).
    { intros jp Hj. rewrite list_lookup_alter_eq, Hi in Hj. cbn in Hj. by injection Hj as <-. }
    intros j1 j2 ip1 ip2 H1 H2 R1 R2 E1 E2.
    destruct (decide (j1 = i)) as [->|N1], (decide (j2 = i)) as [->|N2]; [done|..].
    + destruct (Gi _ H1). destruct (G _ _ N2 H2 R2). split; congruence.
    + destruct (Gi _ H2). destruct (G _ _ N1 H1 R1). split; congruence.
    + rewrite list_lookup_alter_ne in H1, H2 by done. by apply (Hu j1 j2 ip1 ip2).
  - apply Forall_alter; [done|]. intros y _ _. done.
Qed.

(** An entry for the inode exists or one is free. *)
Definition has_room (dev inum : Z) (ic : list inode) : Prop :=
  ∃ i ip, ic !! i = Some ip ∧ (hit dev inum ip = true ∨ i_ref ip = 0).

Section specs.
Context `{mode : Mode}.

(** What iget makes of the cache. *)
Record got (dev inum : Z) (ic ic' : list inode) (i : nat) : Prop := {
  got_ok : ic_ok ic';
  got_entry : ∃ ip, ic' !! i = Some ip ∧ hit dev inum ip = true;
  got_refs d n : refs d n ic' = refs d n ic + (if bool_decide (d = dev ∧ n = inum) then 1 else 0);
  got_other j : j ≠ i → ic' !! j = ic !! j
}.

Lemma refs_bump d n ic i ip :
  ic !! i = Some ip → 0 < i_ref ip →
  refs d n (alter (λ ip, set_ref (i_ref ip + 1) ip) i ic) =
  refs d n ic + (if bool_decide (d = i_dev ip ∧ n = i_inum ip) then 1 else 0).
Proof using.
  intros Hi H0. rewrite (refs_alter d n ic i ip) by done.
  assert (E : hit d n (set_ref (i_ref ip + 1) ip) = hit d n ip).
  { unfold hit. cbn. by rewrite !(proj2 (Z.ltb_lt _ _)) by lia. }
  rewrite E. case_bool_decide as D.
  - destruct D as [-> ->]. rewrite (proj2 (hit_spec _ _ ip)) by done. cbn. lia.
  - destruct (hit d n ip) eqn:Hh; [|lia]. apply hit_spec in Hh. naive_solver.
Qed.

Lemma alter_bump_ext (ic : list inode) (i : nat) ip :
  ic !! i = Some ip → alter (λ ip, set_ref (i_ref ip + 1) ip) i ic = alter (set_ref (i_ref ip + 1)) i ic.
Proof using. intros Hi. apply list_alter_ext; [|done]. intros y Hy. rewrite Hi in Hy. by injection Hy as <-. Qed.

Lemma wp_iget k c h ic x dev inum s (Q : nat → fst → Prop) :
  st [] k c h ic x s → ic_ok ic → has_room dev inum ic →
  (∀ i ic' s', got dev inum ic ic' i → st [] k c h ic' x s' → Q i s') → wp (iget dev inum) Q s.
Proof.
  intros Hs Hok Hroom HQ. unfold iget. apply wp_bind. eapply wp_facquire; [done|]. intros s1 H1.
  wp_steps. rewrite (st_icache _ _ _ _ _ _ _ H1). pose proof (iget_scan_spec dev inum ic 0 None) as Hsc.
  destruct (iget_scan ic 0 dev inum None) as [i|o].
  - destruct Hsc as (i' & ip & -> & Hi & Hh). cbn [Nat.add] in *. pose proof Hh as (H0 & <- & <-)%hit_spec.
    apply wp_bind. eapply wp_fupd; [done|]. intros s2 H2. apply wp_bind. eapply wp_frelease; [done|]. intros s3 H3.
    wp_steps. eapply HQ; [|exact H3]. split.
    + rewrite (alter_bump_ext _ _ ip) by done. by apply (ic_ok_bump _ _ ip); [..|lia].
    + eexists. rewrite list_lookup_alter_eq, Hi. split; [done|]. apply hit_spec. cbn. split; [lia|done].
    + intros d n. by apply refs_bump.
    + intros j Hj. by apply list_lookup_alter_ne.
  - destruct Hsc as [Hno Ho]. destruct o as [i|].
    2: { destruct Ho as [_ Ho], Hroom as (j & jp & Hj & [Hh|H0]); [by rewrite (Hno _ _ Hj) in Hh|by apply Ho in Hj]. }
    destruct Ho as [?|(_ & i' & ip & -> & Hi & H0)]; [done|]. cbn [Nat.add].
    apply wp_bind. eapply wp_fupd; [done|]. intros s2 H2. apply wp_bind. eapply wp_frelease; [done|]. intros s3 H3.
    wp_steps. eapply HQ; [|exact H3]. split.
    + by apply (ic_ok_fresh _ _ ip).
    + eexists. rewrite list_lookup_alter_eq, Hi. split; [done|]. by apply hit_spec.
    + intros d n. rewrite (refs_alter d n ic i' ip) by done.
      assert (E : hit d n ip = false) by (unfold hit; by rewrite H0). rewrite E. case_bool_decide as D.
      * destruct D as [-> ->]. rewrite (proj2 (hit_spec dev inum (fresh_inode dev inum ip))) by done. cbn. lia.
      * destruct (hit d n (fresh_inode dev inum ip)) eqn:Hh; [|lia]. apply hit_spec in Hh. cbn in Hh. naive_solver.
    + intros j Hj. by apply list_lookup_alter_ne.
Qed.

Lemma wp_idup k c h ic x i ip s (Q : nat → fst → Prop) :
  st [] k c h ic x s → ic !! i = Some ip →
  (∀ s', st [] k c h (alter (λ ip, set_ref (i_ref ip + 1) ip) i ic) x s' → Q i s') → wp (idup i) Q s.
Proof.
  intros Hs Hi HQ. unfold idup. apply wp_bind. eapply wp_facquire; [done|]. intros s1 H1.
  apply wp_bind. eapply wp_ino; [done|done|]. apply wp_bind. eapply wp_fupd; [done|]. intros s2 H2.
  apply wp_bind. eapply wp_frelease; [done|]. intros s3 H3. wp_steps. by apply HQ.
Qed.

(** Dropping a reference that is not the last one to a deleted file. *)
Lemma wp_iput k c h ic x i ip s (Q : unit → fst → Prop) :
  st [] k c h ic x s → ic !! i = Some ip → i_ref ip ≠ 1 ∨ i_valid ip = false ∨ i_nlink ip ≠ 0 →
  (∀ s', st [] k c h (alter (λ ip, set_ref (i_ref ip - 1) ip) i ic) x s' → Q tt s') → wp (iput i) Q s.
Proof.
  intros Hs Hi Hne HQ. unfold iput. apply wp_bind. eapply wp_facquire; [done|]. intros s1 H1.
  apply wp_bind. eapply wp_ino; [done|done|].
  replace ((i_ref ip =? 1) && i_valid ip && (i_nlink ip =? 0)) with false.
  - wp_steps. eapply wp_fupd; [done|]. intros s2 H2. by eapply wp_frelease.
  - symmetry. destruct (Z.eqb_spec (i_ref ip) 1), (i_valid ip), (Z.eqb_spec (i_nlink ip) 0); try done. naive_solver.
Qed.
End specs.

(** ** The on-disk inode *)

Lemma length_put_words l : ∀ x o, length (put_words x o l) = length x.
Proof. induction l as [|w l IH]; intros x o; cbn [put_words]; [done|]. by rewrite IH, length_put32. Qed.

Lemma byte_put_words l : ∀ x o j,
  (o + 4 * length l <= length x)%nat → (j < o ∨ o + 4 * length l <= j)%nat → byte (put_words x o l) j = byte x j.
Proof.
  induction l as [|w l IH]; intros x o j Hl Hj; cbn [put_words]; [done|]. cbn [length] in *.
  rewrite IH by (rewrite ?length_put32; lia). rewrite byte_put32 by lia. by repeat (rewrite decide_False by lia).
Qed.

Lemma get32_put_words l : ∀ x o k w,
  (o + 4 * length l <= length x)%nat → l !! k = Some w → get32 (put_words x o l) (o + 4 * k) = u32 w.
Proof.
  induction l as [|w0 l IH]; intros x o k w Hl Hk; [done|]. cbn [put_words length] in *. destruct k as [|k].
  - injection Hk as ->. rewrite Nat.add_0_r. unfold get32.
    rewrite !byte_put_words by (rewrite ?length_put32; lia). fold (get32 (put32 x o (u32 w)) o).
    apply get32_put32; [lia|apply u32_range].
  - replace (o + 4 * S k)%nat with (o + 4 + 4 * k)%nat by lia. apply IH; [|done]. rewrite length_put32. lia.
Qed.

Lemma i16_u16 z : -32768 <= z < 32768 → i16 (u16 z) = z.
Proof. intros Hz. unfold i16, u16. rewrite Zplus_mod_idemp_l, Z.mod_small by lia. lia. Qed.

(** The values fit the fields of [struct dinode]. *)
Definition fits (ip : inode) : Prop :=
  -32768 <= i_type ip < 32768 ∧ -32768 <= i_major ip < 32768 ∧ -32768 <= i_minor ip < 32768 ∧
  -32768 <= i_nlink ip < 32768 ∧ 0 <= i_uid ip < 65536 ∧ 0 <= i_gid ip < 65536 ∧
  0 <= i_mode ip < w32 ∧ 0 <= i_size ip < w32 ∧
  length (i_addrs ip) = S NDIRECT ∧ Forall (λ a, 0 <= a < w32) (i_addrs ip).

(** [ip] with the bookkeeping fields of [jp]. *)
Definition rebooked (jp ip : inode) : inode :=
  mkinode (i_dev jp) (i_inum jp) (i_ref jp) (i_busy jp) (i_valid jp) (i_type ip) (i_major ip) (i_minor ip)
    (i_nlink ip) (i_uid ip) (i_gid ip) (i_mode ip) (i_size ip) (i_addrs ip).

Lemma length_store_dinode d o ip : length (store_dinode d o ip) = length d.
Proof. unfold store_dinode. by rewrite length_put_words, !length_put32, !length_put16, !length_put32, !length_put16. Qed.

(** Only the 64 bytes of the inode are written. *)
Lemma byte_store_dinode d o ip j :
  length (i_addrs ip) = S NDIRECT → (o + 64 <= length d)%nat → (j < o ∨ o + 64 <= j)%nat →
  byte (store_dinode d o ip) j = byte d j.
Proof.
  intros Ha Hd Hj. unfold store_dinode, NDIRECT in *. cbv zeta.
  rewrite byte_put_words by (rewrite ?length_put32, ?length_put16, ?length_put32, ?length_put16, ?Ha; lia).
  repeat first
    [ rewrite byte_put32 by (rewrite ?length_put16, ?length_put32, ?length_put16; lia)
    | rewrite byte_put16 by (rewrite ?length_put32, ?length_put16, ?length_put32, ?length_put16; lia) ].
  by repeat (rewrite decide_False by lia).
Qed.

Lemma get16_put_words_ne l x o j :
  (o + 4 * length l <= length x)%nat → (j + 2 <= o ∨ o + 4 * length l <= j)%nat → get16 (put_words x o l) j = get16 x j.
Proof. intros. unfold get16. by rewrite !byte_put_words by lia. Qed.
Lemma get32_put_words_ne l x o j :
  (o + 4 * length l <= length x)%nat → (j + 4 <= o ∨ o + 4 * length l <= j)%nat → get32 (put_words x o l) j = get32 x j.
Proof. intros. unfold get32. by rewrite !byte_put_words by lia. Qed.

Ltac lens := rewrite ?length_put32, ?length_put16, ?length_put32, ?length_put16; lia.
Ltac skip_fields := repeat first
  [ rewrite get16_put_words_ne by (rewrite ?length_put32, ?length_put16, ?length_put32, ?length_put16; lia)
  | rewrite get32_put_words_ne by (rewrite ?length_put32, ?length_put16, ?length_put32, ?length_put16; lia)
  | rewrite get16_put32_ne by lens | rewrite get16_put16_ne by lens
  | rewrite get32_put32_ne by lens | rewrite get32_put16_ne by lens ].

Lemma load_store_dinode d o ip jp :
  fits ip → (o + 64 <= length d)%nat → load_dinode (store_dinode d o ip) o jp = rebooked jp ip.
Proof.
  intros (F1 & F2 & F3 & F4 & F5 & F6 & F7 & F8 & Fl & Fa) Hd. unfold load_dinode, rebooked.
  unfold NDIRECT in *. assert (Hu : ∀ z, 0 <= u16 z < 65536) by (intros; apply Z.mod_pos_bound; done).
  assert (Es : ∀ z, 0 <= z < 65536 → u16 z = z) by (intros; by apply Z.mod_small).
  f_equal; unfold store_dinode; cbv zeta; skip_fields.
  - rewrite get16_put16 by (lens || apply Hu). by apply i16_u16.
  - rewrite get16_put16 by (lens || apply Hu). by apply i16_u16.
  - rewrite get16_put16 by (lens || apply Hu). by apply i16_u16.
  - rewrite get16_put16 by (lens || apply Hu). by apply i16_u16.
  - rewrite get16_put16 by (lens || apply Hu). by apply Es.
  - rewrite get16_put16 by (lens || apply Hu). by apply Es.
  - rewrite get32_put32 by (lens || apply u32_range). by apply u32_small.
  - rewrite get32_put32 by (lens || apply u32_range). by apply u32_small.
  - apply list_eq. intros k. rewrite list_lookup_fmap. destruct (decide (k < 11)%nat) as [Hk|Hk].
    + rewrite lookup_seq_lt by done. cbn [fmap option_fmap option_map].
      destruct (lookup_lt_is_Some_2 (i_addrs ip) k ltac:(lia)) as [w Hw]. rewrite Hw. f_equal. cbn [Nat.add].
      rewrite (get32_put_words _ _ _ k w) by (done || lens). apply u32_small.
      by eapply Forall_lookup_1 in Fa.
    + rewrite lookup_seq_ge, lookup_ge_None_2 by lia. done.
Qed.

Lemma load_store_other d o o' ip jp :
  length (i_addrs ip) = S NDIRECT → (o + 64 <= length d)%nat → (o' + 64 <= o ∨ o + 64 <= o')%nat →
  load_dinode (store_dinode d o ip) o' jp = load_dinode d o' jp.
Proof.
  intros Ha Hd Ho. assert (E : ∀ j, (o' <= j < o' + 64)%nat → byte (store_dinode d o ip) j = byte d j).
  { intros j Hj. apply byte_store_dinode; [done|done|lia]. }
  unfold load_dinode, get16, get32. rewrite !E by lia. f_equal.
  apply list_fmap_ext. intros k z Hz. apply lookup_seq in Hz as [-> Hk]. unfold NDIRECT in Hk. by rewrite !E by lia.
Qed.

Section lock.
Context `{mode : Mode}.

Lemma wp_iupdate k c h ic x i ip s (Q : unit → fst → Prop) :
  st [] (S k) c h ic x s → ic !! i = Some ip → i_dev ip = ROOTDEV → h (IBLOCK (i_inum ip) x) = false →
  (∀ s', st [] k (<[IBLOCK (i_inum ip) x := store_dinode (c (IBLOCK (i_inum ip) x)) (dinode_off (i_inum ip)) ip]> c)
           h ic x s' → Q tt s') →
  wp (iupdate i) Q s.
Proof.
  intros Hs Hi Hd Hh HQ. unfold iupdate. apply wp_bind. eapply wp_ino; [done|done|].
  apply wp_bind. eapply wp_getsb; [done|]. cbv zeta. rewrite Hd.
  by apply (wp_fchange k c h ic x (IBLOCK (i_inum ip) x) (λ d, store_dinode d (dinode_off (i_inum ip)) ip)).
Qed.

(** Locking an inode that nobody holds. *)
Definition locked_inode (c : Z → Log.block) (x : superblock) (ip : inode) : inode :=
  if i_valid ip then set_flags true true ip
  else set_flags true true (load_dinode (c (IBLOCK (i_inum ip) x)) (dinode_off (i_inum ip)) ip).

Lemma alter_alter (f g : inode → inode) i (l : list inode) : alter f i (alter g i l) = alter (f ∘ g) i l.
Proof using. revert i. induction l as [|y l IH]; intros [|i]; [done..|]. apply (f_equal (cons y)), IH. Qed.

Lemma alter_at (f : inode → inode) i ip (l : list inode) : l !! i = Some ip → alter f i l = <[i := f ip]> l.
Proof using.
  intros Hi. apply list_eq. intros j. rewrite list_lookup_alter, list_lookup_insert. case_decide as E.
  - subst j. rewrite Hi. pose proof (lookup_lt_Some _ _ _ Hi). by rewrite decide_True.
  - rewrite decide_False; [done|]. by intros [? _].
Qed.

Lemma wp_ilock k c h ic x i ip s (Q : unit → fst → Prop) :
  st [] k c h ic x s → ic !! i = Some ip → 1 <= i_ref ip → i_busy ip = false → i_dev ip = ROOTDEV →
  h (IBLOCK (i_inum ip) x) = false → i_type (locked_inode c x ip) ≠ 0 ∨ i_valid ip = true →
  (∀ s', st [] k c h (<[i := locked_inode c x ip]> ic) x s' → Q tt s') → wp (ilock i) Q s.
Proof.
  intros Hs Hi Hr Hb Hd Hh Ht HQ. unfold ilock. pose proof (lookup_lt_Some _ _ _ Hi) as Hlt.
  apply wp_bind. eapply wp_ino; [done|done|]. rewrite (proj2 (Z.ltb_ge _ _)) by lia.
  apply wp_bind. eapply wp_facquire; [done|]. intros s1 H1.
  apply wp_bind. eapply wp_ino; [done|done|]. rewrite Hb.
  apply wp_bind. eapply wp_fupd; [done|]. intros s2 H2. rewrite (alter_at _ _ ip) in H2 by done.
  apply wp_bind. eapply wp_frelease; [done|]. intros s3 H3.
  apply wp_bind. eapply wp_ino; [done|by apply list_lookup_insert_eq|]. cbn [i_valid set_flags].
  unfold locked_inode in *. destruct (i_valid ip) eqn:Hv; [wp_steps; by apply HQ|].
  apply wp_bind. eapply wp_getsb; [done|]. cbv zeta. cbn [i_inum i_dev set_flags]. rewrite Hd.
  apply wp_bind. eapply wp_fbread; [done|done|]. intros s4 H4.
  apply wp_bind. eapply wp_fupd; [done|]. intros s5 H5.
  apply wp_bind. eapply wp_fbrelse; [done|by rewrite fn_lookup_insert|]. intros s6 H6.
  apply wp_bind. eapply wp_fupd; [done|]. intros s7 H7.
  rewrite alter_alter, (alter_at _ _ _ _ (list_lookup_insert_eq _ _ _ Hlt)), list_insert_insert_eq in H7.
  apply wp_bind. eapply wp_ino; [done|by apply list_lookup_insert_eq|].
  destruct Ht as [Ht|]; [|done]. cbn in Ht |- *. rewrite (proj2 (Z.eqb_neq _ _)) by done. wp_steps. apply HQ.
  eapply st_ext; [| |exact H7]; [done|by apply hold_back].
Qed.

Lemma wp_iunlock k c h ic x i ip s (Q : unit → fst → Prop) :
  st [] k c h ic x s → ic !! i = Some ip → 1 <= i_ref ip → i_busy ip = true →
  (∀ s', st [] k c h (<[i := set_flags false (i_valid ip) ip]> ic) x s' → Q tt s') → wp (iunlock i) Q s.
Proof.
  intros Hs Hi Hr Hb HQ. unfold iunlock. apply wp_bind. eapply wp_ino; [done|done|].
  rewrite Hb, (proj2 (Z.ltb_ge _ _)) by lia. cbn [negb orb]. apply wp_bind. eapply wp_facquire; [done|]. intros s1 H1.
  apply wp_bind. eapply wp_fupd; [done|]. intros s2 H2. rewrite (alter_at _ _ ip) in H2 by done.
  apply wp_bind. eapply wp_fwakeup; [done|]. intros s3 H3. by eapply wp_frelease.
Qed.
End lock.


(** ** Properties *)

(** Iget returns the one cache entry for the inode, with its reference
    count increased by one; the counts of all other inodes and all other entries
    stay as they are, and the cache keeps one entry per inode in use.  (It
    panics only when every entry is in use for another inode.) *)
Theorem iget_references k c h ic x dev inum s :
  st [] k c h ic x s → ic_ok ic → has_room dev inum ic →
  ∃ i ic' s', iget dev inum s = Ok i s' ∧ st [] k c h ic' x s' ∧ ic_ok ic' ∧
    (∃ ip, ic' !! i = Some ip ∧ hit dev inum ip = true) ∧
    (∀ d n, refs d n ic' = refs d n ic + (if bool_decide (d = dev ∧ n = inum) then 1 else 0)) ∧
    (∀ j, j ≠ i → ic' !! j = ic !! j).
Proof.
  intros Hs Hok Hr. destruct (wp_total (iget dev inum) (λ i s', ∃ ic', got dev inum ic ic' i ∧ st [] k c h ic' x s') s)
    as (i & s' & E & ic' & [G1 G2 G3 G4] & H).
  - apply (wp_iget (mode := Total) k c h ic x); [done|done|done|]. intros i ic' s' G H. by exists ic'.
  - by exists i, ic', s'.
Qed.

(** Inode numbers whose blocks are within the device. *)
Definition inum_ok (x : superblock) (n : Z) : Prop := 0 <= n ∧ 0 <= sb_inodestart x ∧ n / IPB + sb_inodestart x < w32.

Lemma dinode_off_in inum : 0 <= inum → (dinode_off inum + 64 <= 512)%nat.
Proof. intros. unfold dinode_off, IPB. pose proof (Z.mod_pos_bound inum 8). lia. Qed.

(** Different inodes in one block do not overlap. *)
Lemma dinode_apart x m n :
  inum_ok x m → inum_ok x n → m ≠ n → IBLOCK m x = IBLOCK n x →
  (dinode_off n + 64 <= dinode_off m ∨ dinode_off m + 64 <= dinode_off n)%nat.
Proof.
  intros (M1 & M2 & M3) (N1 & N2 & N3) Hne. unfold IBLOCK, dinode_off, IPB in *.
  pose proof (Z.div_pos m 8). pose proof (Z.div_pos n 8). rewrite !u32_small by lia. intros E.
  pose proof (Z.div_mod m 8). pose proof (Z.div_mod n 8). pose proof (Z.mod_pos_bound m 8). pose proof (Z.mod_pos_bound n 8). lia.
Qed.

(** C16: iupdate writes the inode so that ilock reads it back: every field a
    later ilock copies from the disk block is the one iupdate was called with,
    and what it would read for any other inode is unchanged. *)
Theorem iupdate_roundtrip k c h ic x i ip s :
  st [] (S k) c h ic x s → ic !! i = Some ip → i_dev ip = ROOTDEV → fits ip → inum_ok x (i_inum ip) →
  h (IBLOCK (i_inum ip) x) = false → length (c (IBLOCK (i_inum ip) x)) = 512%nat →
  ∃ s' c', iupdate i s = Ok tt s' ∧ st [] k c' h ic x s' ∧
    (∀ jp, load_dinode (c' (IBLOCK (i_inum ip) x)) (dinode_off (i_inum ip)) jp = rebooked jp ip) ∧
    (∀ n jp, inum_ok x n → n ≠ i_inum ip →
       load_dinode (c' (IBLOCK n x)) (dinode_off n) jp = load_dinode (c (IBLOCK n x)) (dinode_off n) jp).
Proof.
  intros Hs Hi Hd Hf Hn Hh Hl. pose proof Hf as (_ & _ & _ & _ & _ & _ & _ & _ & Ha & _).
  pose proof (dinode_off_in (i_inum ip) ltac:(by destruct Hn)) as Ho.
  destruct (wp_total (iupdate i) (λ _ s', st [] k (<[IBLOCK (i_inum ip) x :=
      store_dinode (c (IBLOCK (i_inum ip) x)) (dinode_off (i_inum ip)) ip]> c) h ic x s') s) as ([] & s' & E & H).
  { by apply (wp_iupdate (mode := Total) k c h ic x i ip). }
  eexists s', _. split; [done|]. split; [exact H|]. split.
  - intros jp. rewrite fn_lookup_insert. apply load_store_dinode; [done|]. by rewrite Hl.
  - intros n jp Hnn Hne. destruct (decide (IBLOCK n x = IBLOCK (i_inum ip) x)) as [EB|NB].
    + rewrite EB, fn_lookup_insert. apply load_store_other; [done|by rewrite Hl|].
      apply (dinode_apart x); [done|done|congruence|done].
    + by rewrite fn_lookup_insert_ne.
Qed.

(** *** On the demonstration disk *)

Lemma demo_ic_ok : ic_ok demo_icache.
Proof.
  split.
  - intros i j ip jp Hi Hj H0. apply lookup_replicate in Hi as [-> _]. done.
  - by apply Forall_replicate.
Qed.

Lemma iget_references_witness :
  ∃ i ic' s', iget 1 1 (demo_fs 1) = Ok i s' ∧ refs 1 1 ic' = refs 1 1 demo_icache + 1.
Proof.
  destruct (iget_references 0 demo_disk none demo_icache demo_sb 1 1 (demo_fs 1) (demo_st 0 ltac:(lia)) demo_ic_ok
    (ex_intro _ 0%nat (ex_intro _ no_inode (conj eq_refl (or_intror eq_refl))))) as (i & ic' & s' & E & _ & _ & _ & R & _).
  exists i, ic', s'. exact (conj E (R 1 1)).
Defined.

Definition cached_root : list inode := <[0%nat := set_ref 1 root_inode]> demo_icache.
Definition cached_fs : fst := mkfst (lg (demo_fs 1)) cached_root demo_sb.
Lemma cached_st k : (k <= 30)%nat → st [] k demo_disk none cached_root demo_sb cached_fs.
Proof. intros Hk. destruct (demo_st k Hk). by split. Qed.

Lemma iupdate_roundtrip_witness :
  ∃ s' c', iupdate 0 cached_fs = Ok tt s' ∧
    load_dinode (c' 33) 64 no_inode = rebooked no_inode (set_ref 1 root_inode).
Proof.
  destruct (iupdate_roundtrip 0 demo_disk none cached_root demo_sb 0 (set_ref 1 root_inode) cached_fs
    (cached_st 1 ltac:(lia)) eq_refl eq_refl
    ltac:(repeat (split; [by vm_compute|]); repeat constructor; by vm_compute)
    ltac:(repeat split; by vm_compute) eq_refl ltac:(vm_compute; reflexivity)) as (s' & c' & E & _ & H & _).
  exists s', c'. exact (conj E (H no_inode)).
Defined.

Lemma chmod_run :
  match chmod no_read 0 [47; 0] 511 (demo_fs 0) with
  | Ok r s => (r =? 0) && (refs 1 1 (icache s) =? 1) && (Log.outstanding (lg s) =? 0)
  | _ => false
  end = true.
Proof. vm_compute. reflexivity. Qed.

(** Chmod (like chown and chgrp) never gives back the reference that namei
    took: a successful call leaves the inode with one reference more than it
    had, so that its cache entry can never be recycled. *)
Theorem chmod_leaks :
  ∃ s', chmod no_read 0 [47; 0] 511 (demo_fs 0) = Ok 0 s' ∧
    refs 1 1 (icache (demo_fs 0)) = 0 ∧ refs 1 1 (icache s') = 1 ∧ Log.outstanding (lg s') = 0.
Proof.
  pose proof chmod_run as G. destruct (chmod no_read 0 [47; 0] 511 (demo_fs 0)) as [r s'| | |] eqn:E; try discriminate G.
  rewrite !andb_true_iff, !Z.eqb_eq in G. destruct G as ((-> & G1) & G2). exists s'.
  exact (conj eq_refl (conj eq_refl (conj G1 G2))).
Qed.

End FsInode.
