(* ===== verification/FsData.v ===== *)
(** * File contents: bmap, readi and writei

    A file whose blocks are allocated is a sequence of bytes, addressed through
    the direct and the indirect block numbers.  readi returns a piece of it and
    writei replaces one. *)

From S2P Require Import Prelude CString Bytes Kern Log Fs FsSpec FsDemo FsInode.
Local Open Scope Z_scope.

Module FsData.
Import Bytes Fs FsSpec FsDemo FsInode.

(** The number of the block that holds block [bn] of the file. *)
Definition indirect (ip : inode) : Z := nth NDIRECT (i_addrs ip) 0.
Definition blockno (c : Z → Log.block) (ip : inode) (bn : Z) : Z :=
  if bn <? Z.of_nat NDIRECT then nth (Z.to_nat bn) (i_addrs ip) 0
  else get32 (c (indirect ip)) (Z.to_nat (4 * (bn - Z.of_nat NDIRECT))).

(** Byte [p] of the file, and [n] bytes from [p]. *)
Definition content (c : Z → Log.block) (ip : inode) (p : Z) : Z :=
  byte (c (blockno c ip (p / BSIZE))) (Z.to_nat (p mod BSIZE)).
Definition contents (c : Z → Log.block) (ip : inode) (p n : Z) : list Z :=
  (λ k, content c ip (p + Z.of_nat k)) <$> seq 0 (Z.to_nat n).

(** The first [len] bytes of the file are in allocated, distinct blocks of 512
    bytes that are not the indirect block. *)
Record laid_out (c : Z → Log.block) (ip : inode) (len : Z) : Prop := {
  lo_len : 0 <= len <= MAXFILE * BSIZE;
  lo_addrs : length (i_addrs ip) = S NDIRECT;
  lo_block bn : 0 <= bn → bn * BSIZE < len → blockno c ip bn ≠ 0;
  lo_indirect : Z.of_nat NDIRECT * BSIZE < len → indirect ip ≠ 0;
  lo_size bn : 0 <= bn → bn * BSIZE < len → length (c (blockno c ip bn)) = Z.to_nat BSIZE;
  lo_apart bn : 0 <= bn → bn * BSIZE < len → blockno c ip bn ≠ indirect ip;
  lo_inj a b : 0 <= a → a * BSIZE < len → 0 <= b → b * BSIZE < len → blockno c ip a = blockno c ip b → a = b
}.

Lemma block_of p len : 0 <= p < len → 0 <= p / BSIZE ∧ p / BSIZE * BSIZE < len.
Proof.
  unfold BSIZE. intros Hp. pose proof (Z.div_pos p 512). pose proof (Z.div_mod p 512).
  pose proof (Z.mod_pos_bound p 512). lia.
Qed.

(** Moving inside a block. *)
Lemma same_block p k : 0 <= p → 0 <= k → p mod BSIZE + k < BSIZE → (p + k) / BSIZE = p / BSIZE ∧ (p + k) mod BSIZE = p mod BSIZE + k.
Proof.
  unfold BSIZE. intros Hp Hk Hlt. pose proof (Z.div_mod p 512). pose proof (Z.mod_pos_bound p 512).
  pose proof (Z.div_mod (p + k) 512). pose proof (Z.mod_pos_bound (p + k) 512). lia.
Qed.

Lemma lookup_byte (d : list Z) j : (j < length d)%nat → d !! j = Some (byte d j).
Proof. intros Hj. unfold byte. rewrite nth_lookup. by destruct (lookup_lt_is_Some_2 d j Hj) as [v ->]. Qed.

Lemma contents_app c ip p m n :
  0 <= m → 0 <= n → contents c ip p (m + n) = contents c ip p m ++ contents c ip (p + m) n.
Proof.
  intros Hm Hn. unfold contents. rewrite Z2Nat.inj_add by done. rewrite seq_app, fmap_app. f_equal.
  cbn [Nat.add]. replace (seq (Z.to_nat m) (Z.to_nat n)) with (Nat.add (Z.to_nat m) <$> seq 0 (Z.to_nat n))
    by (rewrite fmap_add_seq; f_equal; lia).
  rewrite <-list_fmap_compose.
  apply list_fmap_ext. intros i j _. cbn. f_equal. lia.
Qed.

Lemma lookup_contents c ip p n k :
  (Z.of_nat k < n) → contents c ip p n !! k = Some (content c ip (p + Z.of_nat k)).
Proof. intros Hk. unfold contents. rewrite list_lookup_fmap, lookup_seq_lt by lia. done. Qed.

Lemma length_contents c ip p n : length (contents c ip p n) = Z.to_nat n.
Proof. unfold contents. by rewrite length_fmap, length_seq. Qed.

(** A piece of one block is a piece of the file. *)
Lemma slice_contents c ip len p m :
  laid_out c ip len → 0 <= p < len → 0 <= m <= BSIZE - p mod BSIZE →
  slice (c (blockno c ip (p / BSIZE))) (Z.to_nat (p mod BSIZE)) (Z.to_nat m) = contents c ip p m.
Proof.
  intros Hlo Hp Hm. destruct (block_of p len Hp) as [B1 B2]. pose proof (lo_size _ _ _ Hlo _ B1 B2) as Hl.
  assert (Hpm : 0 <= p mod BSIZE < BSIZE) by (apply Z.mod_pos_bound; done).
  apply list_eq. intros k. rewrite lookup_slice. case_decide as Hk.
  - rewrite lookup_contents by lia. rewrite lookup_byte by (rewrite Hl; lia). f_equal. unfold content.
    destruct (same_block p (Z.of_nat k)) as [-> ->]; [lia|lia|lia|]. f_equal. lia.
  - symmetry. apply lookup_ge_None_2. rewrite length_contents. lia.
Qed.

Section read.
Context `{mode : Mode}.
Context (k : nat) (c : Z → Log.block) (ic : list inode) (x : superblock) (i : nat) (ip : inode) (len : Z).
Hypothesis Hi : ic !! i = Some ip.
Hypothesis Hdev : i_dev ip = ROOTDEV.
Hypothesis Hlo : laid_out c ip len.

Lemma wp_addr_of L h j s (Q : Z → fst → Prop) :
  st L k c h ic x s → (j <= NDIRECT)%nat → Q (nth j (i_addrs ip) 0) s → wp (addr_of i j) Q s.
Proof using Hi Hlo.
  intros Hs Hj HQ. unfold addr_of. apply wp_bind. eapply wp_ino; [done|done|].
  destruct (lookup_lt_is_Some_2 (i_addrs ip) j) as [w Hw]; [rewrite (lo_addrs _ _ _ Hlo); unfold NDIRECT in *; lia|].
  rewrite nth_lookup, Hw in HQ. rewrite Hw. wp_steps. exact HQ.
Qed.

Lemma wp_bmap_slot h j s (Q : Z → fst → Prop) :
  st [] k c h ic x s → (j <= NDIRECT)%nat → nth j (i_addrs ip) 0 ≠ 0 → Q (nth j (i_addrs ip) 0) s → wp (bmap_slot i j) Q s.
Proof using Hi Hlo.
  intros Hs Hj Hnz HQ. unfold bmap_slot. apply wp_bind. eapply wp_addr_of; [done|done|].
  rewrite (proj2 (Z.eqb_neq _ _)) by done. by wp_steps.
Qed.

(** bmap of an allocated block changes nothing. *)
Lemma wp_bmap bn s (Q : Z → fst → Prop) :
  st [] k c none ic x s → 0 <= bn → bn * BSIZE < len →
  (∀ s', st [] k c none ic x s' → Q (blockno c ip bn) s') → wp (bmap i bn) Q s.
Proof using Hi Hdev Hlo.
  intros Hs Hb Hlt HQ. pose proof (lo_block _ _ _ Hlo bn Hb Hlt) as Hnz. pose proof (lo_len _ _ _ Hlo) as Hl.
  unfold bmap, blockno in *. destruct (Z.ltb_spec bn (Z.of_nat NDIRECT)) as [H1|H1].
  - eapply wp_bmap_slot; [done|unfold NDIRECT in *; lia|done|by apply HQ].
  - rewrite (proj2 (Z.ltb_lt _ _)) by (unfold NDIRECT, NINDIRECT, MAXFILE, BSIZE in *; lia).
    apply wp_bind. eapply wp_bmap_slot; [done|done|apply (lo_indirect _ _ _ Hlo); unfold NDIRECT, BSIZE in *; lia|].
    fold (indirect ip). apply wp_bind. eapply wp_ino; [done|done|]. rewrite Hdev.
    apply wp_bind. eapply wp_fbread; [done|done|]. intros s1 H2. rewrite (proj2 (Z.eqb_neq _ _)) by done.
    apply wp_bind, wp_ret, wp_bind. eapply wp_fbrelse; [done|by rewrite fn_lookup_insert|]. intros s2 H3. wp_steps.
    apply HQ. eapply st_ext; [| |exact H3]; [done|by apply hold_back].
Qed.

(** The blocks a range of [n] bytes from [off] touches. *)
Definition touched (off n : Z) : Z := if n <=? 0 then 0 else (off + n - 1) / BSIZE - off / BSIZE + 1.

Lemma touched_step off n m :
  0 <= off → 0 < n → m = Z.min n (BSIZE - off mod BSIZE) →
  0 < m ∧ 0 <= touched (off + m) (n - m) ∧ touched off n = touched (off + m) (n - m) + 1.
Proof using.
  clear. unfold touched, BSIZE. intros Ho Hn ->. pose proof (Z.mod_pos_bound off 512 ltac:(done)).
  pose proof (Z.div_mod off 512 ltac:(done)). rewrite (proj2 (Z.leb_gt n 0)) by done.
  destruct (decide (n <= 512 - off mod 512)) as [Hle|Hgt].
  - rewrite Z.min_l by lia. rewrite (proj2 (Z.leb_le (n - n) 0)) by lia.
    pose proof (Z.div_mod (off + n - 1) 512 ltac:(done)). pose proof (Z.mod_pos_bound (off + n - 1) 512 ltac:(done)). lia.
  - rewrite Z.min_r by lia. rewrite (proj2 (Z.leb_gt (n - (512 - off mod 512)) 0)) by lia.
    replace (off + (512 - off mod 512) + (n - (512 - off mod 512)) - 1) with (off + n - 1) by lia.
    replace (off + (512 - off mod 512)) with ((off / 512 + 1) * 512) by lia. rewrite Z.div_mul by done.
    pose proof (Z.div_le_mono ((off / 512 + 1) * 512) (off + n - 1) 512 ltac:(done) ltac:(lia)) as Hd.
    rewrite Z.div_mul in Hd by done. lia.
Qed.

Lemma touched_fuel off n : 0 <= off → 0 <= n → touched off n <= n / BSIZE + 2.
Proof using.
  clear. unfold touched, BSIZE. intros Ho Hn. destruct (Z.leb_spec n 0).
  - pose proof (Z.div_pos n 512). lia.
  - pose proof (Z.div_mod off 512). pose proof (Z.mod_pos_bound off 512). pose proof (Z.div_mod n 512).
    pose proof (Z.mod_pos_bound n 512). pose proof (Z.div_mod (off + n - 1) 512).
    pose proof (Z.mod_pos_bound (off + n - 1) 512). lia.
Qed.

Lemma wp_fread_loop fuel : ∀ dst tot n off s (Q : list Z → fst → Prop),
  st [] k c none ic x s → 0 <= tot <= n → 0 <= off → off + (n - tot) <= len → touched off (n - tot) <= Z.of_nat fuel →
  (∀ s', st [] k c none ic x s' → Q (dst ++ contents c ip off (n - tot)) s') →
  wp (read_loop fuel i dst tot n off) Q s.
Proof using Hi Hdev Hlo.
  induction fuel as [|fuel IH]; intros dst tot n off s Q Hs Ht Ho Hl Hf HQ; cbn [read_loop];
    destruct (Z.ltb_spec tot n) as [Hlt|Hge].
  - destruct (touched_step off (n - tot) _ Ho ltac:(lia) eq_refl) as (_ & ? & ?). lia.
  - wp_steps. replace (n - tot) with 0 in HQ by lia. specialize (HQ s Hs). by rewrite app_nil_r in HQ.
  - destruct (touched_step off (n - tot) _ Ho ltac:(lia) eq_refl) as (Hm & Hpos & Hstep).
    set (m := Z.min (n - tot) (BSIZE - off mod BSIZE)) in *.
    destruct (block_of off len ltac:(lia)) as [B1 B2].
    apply wp_bind. eapply wp_bmap; [done|done|done|]. intros s1 H1.
    apply wp_bind. eapply wp_ino; [done|done|]. rewrite Hdev. apply wp_bind. eapply wp_fbread; [done|done|].
    intros s2 H2. cbv zeta. fold m. apply wp_bind. eapply wp_fbrelse; [done|by rewrite fn_lookup_insert|]. intros s3 H3.
    pose proof (lo_len _ _ _ Hlo) as Hlen. rewrite u32_small by (unfold MAXFILE, BSIZE, w32 in *; lia).
    apply IH; [eapply st_ext; [| |exact H3]; [done|by apply hold_back]|lia|lia|lia|
      replace (n - (tot + m)) with (n - tot - m) by lia; lia|].
    intros s4 H4. rewrite <-app_assoc, (slice_contents c ip len) by (done || lia).
    replace (n - (tot + m)) with (n - tot - m) by lia.
    rewrite <-contents_app by lia. replace (m + (n - tot - m)) with (n - tot) by lia. by apply HQ.
  - wp_steps. replace (n - tot) with 0 in HQ by lia. specialize (HQ s Hs). by rewrite app_nil_r in HQ.
Qed.

Lemma wp_readi dr off n s (Q : Z * list Z → fst → Prop) :
  st [] k c none ic x s → i_type ip ≠ T_DEV → i_size ip = len → 0 <= off <= len → 0 <= n → off + n < w32 →
  (∀ s', st [] k c none ic x s' → let m := Z.min n (len - off) in Q (m, contents c ip off m) s') →
  wp (readi dr i off n) Q s.
Proof using Hi Hdev Hlo.
  intros Hs Ht Hsz Ho Hn Hw HQ. unfold readi. apply wp_bind. eapply wp_ino; [done|done|].
  rewrite (proj2 (Z.eqb_neq _ _)) by done. rewrite Hsz, (proj2 (Z.ltb_ge len off)) by lia.
  rewrite u32_small by lia. rewrite (proj2 (Z.ltb_ge (off + n) off)) by lia. cbn [orb]. cbv zeta.
  assert (Em : (if len <? off + n then len - off else n) = Z.min n (len - off)).
  { destruct (Z.ltb_spec len (off + n)); lia. }
  rewrite Em. set (m := Z.min n (len - off)) in *. apply wp_bind.
  apply wp_fread_loop; [done|lia|lia|lia| |].
  - rewrite Z.sub_0_r. pose proof (touched_fuel off m ltac:(lia) ltac:(lia)).
    assert (0 <= m / BSIZE) by (apply Z.div_pos; [lia|done]). lia.
  - intros s' H'. rewrite app_nil_l, Z.sub_0_r. wp_steps. by apply HQ.
Qed.
End read.


(** ** Writing *)

(** [c'] is [c] with the bytes [src] of the file written at [off]. *)
Record written (ip : inode) (len off : Z) (src : list Z) (c c' : Z → Log.block) : Prop := {
  wr_content p : 0 <= p < len →
    content c' ip p = if decide (off <= p < off + Z.of_nat (length src)) then nth (Z.to_nat (p - off)) src 0 else content c ip p;
  wr_map bn : 0 <= bn → bn * BSIZE < len → blockno c' ip bn = blockno c ip bn;
  wr_other b : (∀ bn, 0 <= bn → bn * BSIZE < len → b ≠ blockno c ip bn) → c' b = c b;
  wr_length b : length (c' b) = length (c b)
}.

Lemma written_nil ip len off c : written ip len off [] c c.
Proof. split; try done. intros p _. rewrite decide_False by (cbn; lia). done. Qed.

Lemma written_laid_out ip len off src c c' : laid_out c ip len → written ip len off src c c' → laid_out c' ip len.
Proof.
  intros [L1 L2 L3 L4 L5 L6 L7] [W1 W2 W3 W4]. split; try done.
  - intros bn H1 H2. rewrite W2 by done. by apply L3.
  - intros bn H1 H2. rewrite W2, W4 by done. by apply L5.
  - intros bn H1 H2. rewrite W2 by done. by apply L6.
  - intros a b A1 A2 B1 B2. rewrite !W2 by done. by apply L7.
Qed.

Lemma written_trans ip len off s1 s2 c c1 c2 :
  0 <= off → written ip len off s1 c c1 → written ip len (off + Z.of_nat (length s1)) s2 c1 c2 →
  written ip len off (s1 ++ s2) c c2.
Proof.
  intros Ho [A1 A2 A3 A4] [B1 B2 B3 B4]. split.
  - intros p Hp. rewrite B1, A1 by done. rewrite length_app.
    destruct (decide (off + Z.of_nat (length s1) <= p < off + Z.of_nat (length s1) + Z.of_nat (length s2))) as [D|D].
    + rewrite decide_True by lia. rewrite app_nth2 by lia. f_equal. lia.
    + destruct (decide (off <= p < off + Z.of_nat (length s1))) as [D'|D'].
      * rewrite decide_True by lia. rewrite app_nth1 by lia. done.
      * rewrite decide_False by lia. done.
  - intros bn H1 H2. rewrite B2, A2 by done. done.
  - intros b Hb. rewrite B3, A3; [done|done|]. intros bn H1 H2. rewrite A2 by done. by apply Hb.
  - intros b. by rewrite B4, A4.
Qed.

(** Writing inside one block. *)
Lemma written_one c ip len off seg :
  laid_out c ip len → 0 <= off → 0 < Z.of_nat (length seg) <= BSIZE - off mod BSIZE → off + Z.of_nat (length seg) <= len →
  let a := blockno c ip (off / BSIZE) in
  written ip len off seg c (<[a := splice (c a) (Z.to_nat (off mod BSIZE)) seg]> c).
Proof.
  intros Hlo Ho Hs Hl a. destruct (block_of off len ltac:(lia)) as [B1 B2].
  pose proof (lo_size _ _ _ Hlo _ B1 B2) as Hsz. fold a in Hsz.
  assert (Hom : 0 <= off mod BSIZE < BSIZE) by (apply Z.mod_pos_bound; done).
  assert (Hfit : (Z.to_nat (off mod BSIZE) + length seg <= length (c a))%nat) by (rewrite Hsz; unfold BSIZE in *; lia).
  assert (Hmap : ∀ bn, blockno (<[a := splice (c a) (Z.to_nat (off mod BSIZE)) seg]> c) ip bn = blockno c ip bn).
  { intros bn. unfold blockno. rewrite fn_lookup_insert_ne; [done|]. intros E.
    by apply (lo_apart _ _ _ Hlo _ B1 B2). }
  split.
  - intros p Hp. destruct (block_of p len Hp) as [P1 P2]. unfold content. rewrite Hmap.
    assert (Hpm : 0 <= p mod BSIZE < BSIZE) by (apply Z.mod_pos_bound; done).
    pose proof (Z.div_mod p BSIZE ltac:(done)) as Ep. pose proof (Z.div_mod off BSIZE ltac:(done)) as Eo.
    destruct (decide (p / BSIZE = off / BSIZE)) as [E|E].
    + rewrite E. fold a. rewrite fn_lookup_insert. unfold byte. rewrite !nth_lookup, lookup_splice by done.
      assert (Epo : p - off = p mod BSIZE - off mod BSIZE) by (rewrite E in Ep; lia).
      destruct (decide (off <= p < off + Z.of_nat (length seg))) as [D|D].
      * rewrite decide_True by lia. f_equal. f_equal. lia.
      * rewrite decide_False by lia. done.
    + rewrite fn_lookup_insert_ne.
      * rewrite decide_False; [done|]. intros D. apply E. 
        destruct (same_block off (p - off)) as [Q _]; [lia|lia|lia|]. by replace (off + (p - off)) with p in Q by lia.
      * unfold a. intros Ea. apply E. by apply (lo_inj _ _ _ Hlo).
  - intros bn _ _. apply Hmap.
  - intros b Hb. apply fn_lookup_insert_ne. intros E. by apply (Hb (off / BSIZE) B1 B2).
  - intros b. destruct (decide (b = a)) as [->|]; [|by rewrite fn_lookup_insert_ne].
    rewrite fn_lookup_insert. by apply length_splice.
Qed.

Lemma slice_app_next (src : list Z) a m n :
  0 <= a → 0 <= m → 0 <= n → slice src (Z.to_nat a) (Z.to_nat (m + n)) =
  slice src (Z.to_nat a) (Z.to_nat m) ++ slice src (Z.to_nat (a + m)) (Z.to_nat n).
Proof.
  intros Ha Hm Hn. unfold slice. rewrite !Z2Nat.inj_add by done. rewrite <-drop_drop.
  generalize (drop (Z.to_nat a) src). intros l. apply list_eq. intros j.
  destruct (decide (j < Z.to_nat m)%nat) as [H1|H1].
  - rewrite lookup_take_lt by lia. destruct (decide (j < length l)%nat) as [H2|H2].
    + rewrite lookup_app_l by (rewrite length_take; lia). by rewrite lookup_take_lt.
    + rewrite lookup_ge_None_2 by lia. symmetry. apply lookup_ge_None_2.
      rewrite length_app, !length_take, length_drop. lia.
  - destruct (decide (Z.to_nat m <= length l)%nat) as [H2|H2].
    + rewrite lookup_app_r by (rewrite length_take; lia). rewrite length_take, Nat.min_l by lia.
      destruct (decide (j < Z.to_nat m + Z.to_nat n)%nat).
      * rewrite !lookup_take_lt by lia. rewrite lookup_drop. f_equal. lia.
      * by rewrite !lookup_take_ge by lia.
    + rewrite !lookup_ge_None_2; [done|..]; rewrite ?length_app, ?length_take, ?length_drop; lia.
Qed.

Section write.
Context `{mode : Mode}.
Context (ic : list inode) (x : superblock) (i : nat) (ip : inode) (len : Z).
Hypothesis Hi : ic !! i = Some ip.
Hypothesis Hdev : i_dev ip = ROOTDEV.

Lemma wp_fwrite_loop src fuel : ∀ k c tot n off s (Q : Z → fst → Prop),
  laid_out c ip len → st [] (fuel + k) c none ic x s → 0 <= tot <= n → n <= Z.of_nat (length src) → 0 <= off → off + (n - tot) <= len →
  touched off (n - tot) <= Z.of_nat fuel →
  (∀ c' s', written ip len off (slice src (Z.to_nat tot) (Z.to_nat (n - tot))) c c' → st [] k c' none ic x s' →
     Q (off + (n - tot)) s') →
  wp (write_loop fuel i src tot n off) Q s.
Proof using Hi Hdev.
  induction fuel as [|fuel IH]; intros k c tot n off s Q Hlo Hs Ht Hn Ho Hl Hf HQ; cbn [write_loop];
    destruct (Z.ltb_spec tot n) as [Hlt|Hge].
  - destruct (touched_step off (n - tot) _ Ho ltac:(lia) eq_refl) as (_ & ? & ?). lia.
  - wp_steps. replace (n - tot) with 0 in HQ by lia. rewrite Z.add_0_r in HQ. eapply HQ; [apply written_nil|done].
  - destruct (touched_step off (n - tot) _ Ho ltac:(lia) eq_refl) as (Hm & Hpos & Hstep).
    set (m := Z.min (n - tot) (BSIZE - off mod BSIZE)) in *.
    destruct (block_of off len ltac:(lia)) as [B1 B2].
    apply wp_bind. eapply wp_bmap; [done|done|done|done|done|done|]. intros s1 H1.
    apply wp_bind. eapply wp_ino; [done|done|]. rewrite Hdev. apply wp_bind. eapply wp_fbread; [done|done|].
    intros s2 H2. cbv zeta. fold m. apply wp_bind. eapply wp_fstore; [done|]. intros s3 H3.
    apply wp_bind. cbn [Nat.add] in H3. eapply wp_flogw; [done|]. intros s4 H4.
    apply wp_bind. eapply wp_fbrelse; [done|by rewrite fn_lookup_insert|]. intros s5 H5.
    pose proof (lo_len _ _ _ Hlo) as Hlen. rewrite u32_small by (unfold MAXFILE, BSIZE, w32 in *; lia).
    assert (Hseg : length (slice src (Z.to_nat tot) (Z.to_nat m)) = Z.to_nat m) by (apply length_slice; lia).
    pose proof (written_one c ip len off (slice src (Z.to_nat tot) (Z.to_nat m)) Hlo Ho ltac:(lia) ltac:(lia)) as W1.
    cbv zeta in W1. replace (n - (tot + m)) with (n - tot - m) in * by lia.
    eapply (IH k); [by eapply written_laid_out|eapply st_ext; [| |exact H5]; [done|by apply hold_back]|lia|lia|lia|lia|
      replace (n - (tot + m)) with (n - tot - m) by lia; lia|].
    intros c' s6 W2 H6. replace (n - (tot + m)) with (n - tot - m) in * by lia.
    replace (off + m + (n - tot - m)) with (off + (n - tot)) by lia. eapply HQ; [|exact H6].
    replace (n - tot) with (m + (n - tot - m)) at 1 by lia. rewrite slice_app_next by lia.
    eapply written_trans; [done|exact W1|]. rewrite Hseg, Z2Nat.id by lia. exact W2.
  - wp_steps. replace (n - tot) with 0 in HQ by lia. rewrite Z.add_0_r in HQ. eapply HQ; [apply written_nil|].
    eapply st_less; [|exact Hs]. lia.
Qed.

(** The file's blocks are not the block of its inode. *)
Definition inode_apart (c : Z → Log.block) : Prop :=
  indirect ip ≠ IBLOCK (i_inum ip) x ∧
  ∀ bn, 0 <= bn → bn * BSIZE < len → blockno c ip bn ≠ IBLOCK (i_inum ip) x.

(** The inode after a write that ends at [e]. *)
Definition grown (e : Z) : inode := if i_size ip <? e then set_size e ip else ip.

(** The disk [c] with the inode rewritten if the file has grown to [e]. *)
Definition recorded (e : Z) (c : Z → Log.block) : Z → Log.block :=
  if i_size ip <? e
  then <[IBLOCK (i_inum ip) x := store_dinode (c (IBLOCK (i_inum ip) x)) (dinode_off (i_inum ip)) (set_size e ip)]> c
  else c.

Lemma recorded_other e c b : b ≠ IBLOCK (i_inum ip) x → recorded e c b = c b.
Proof using. intros Hb. unfold recorded. destruct (_ <? _); [by rewrite fn_lookup_insert_ne|done]. Qed.

(** The inode block of [recorded] holds the grown inode. *)
Lemma recorded_inode e c jp :
  fits ip → 0 <= e < w32 → inum_ok x (i_inum ip) → length (c (IBLOCK (i_inum ip) x)) = 512%nat → i_size ip < e →
  load_dinode (recorded e c (IBLOCK (i_inum ip) x)) (dinode_off (i_inum ip)) jp = rebooked jp (grown e).
Proof using.
  intros Hf He Hn Hl Hg. pose proof (dinode_off_in (i_inum ip) ltac:(by destruct Hn)) as Ho.
  unfold recorded, grown. rewrite (proj2 (Z.ltb_lt _ _)) by done. rewrite fn_lookup_insert.
  apply load_store_dinode; [|by rewrite Hl]. destruct Hf as (? & ? & ? & ? & ? & ? & ? & _ & ? & ?). done.
Qed.

Lemma wp_writei k c dw src off n s (Q : Z → fst → Prop) :
  laid_out c ip len → inode_apart c → i_type ip ≠ T_DEV → 0 <= off <= i_size ip → 0 < n <= Z.of_nat (length src) → off + n <= len →
  st [] (S (S (Z.to_nat (n / BSIZE))) + S k) c none ic x s →
  (∀ c1 s', written ip len off (take (Z.to_nat n) src) c c1 →
     st [] k (recorded (off + n) c1) none (<[i := grown (off + n)]> ic) x s' → Q n s') →
  wp (writei dw i src off n) Q s.
Proof using Hi Hdev.
  intros Hlo Hap Ht Ho Hn Hl Hs HQ. pose proof (lo_len _ _ _ Hlo) as Hlen. pose proof (lookup_lt_Some _ _ _ Hi) as Hlt.
  unfold writei. apply wp_bind. eapply wp_ino; [done|done|].
  rewrite (proj2 (Z.eqb_neq _ _)) by done. rewrite (proj2 (Z.ltb_ge (i_size ip) off)) by lia.
  rewrite u32_small by (unfold MAXFILE, BSIZE, w32 in *; lia). rewrite (proj2 (Z.ltb_ge (off + n) off)) by lia. cbn [orb].
  rewrite (proj2 (Z.ltb_ge (MAXFILE * BSIZE) (off + n))) by lia. apply wp_bind.
  eapply (wp_fwrite_loop src _ (S k) c); [done|exact Hs|lia|lia|lia|lia| |].
  { rewrite Z.sub_0_r. pose proof (touched_fuel off n ltac:(lia) ltac:(lia)).
    assert (0 <= n / BSIZE) by (apply Z.div_pos; [lia|done]). lia. }
  intros c1 s1 W H1. rewrite Z.sub_0_r in W |- *. unfold slice in W. cbn [Z.to_nat drop] in W.
  apply wp_bind. eapply wp_ino; [done|done|]. rewrite (proj2 (Z.ltb_lt 0 n)) by lia. cbn [andb].
  unfold grown, recorded in HQ. destruct (Z.ltb_spec (i_size ip) (off + n)) as [Hg|Hg].
  - apply wp_bind. apply wp_bind. eapply wp_fupd; [done|]. intros s2 H2. rewrite (alter_at _ _ ip) in H2 by done.
    eapply (wp_iupdate k c1 none _ x i); [exact H2|by apply list_lookup_insert_eq|done|done|]. intros s3 H3.
    wp_steps. eapply HQ; [exact W|exact H3].
  - wp_steps. eapply HQ; [exact W|]. rewrite list_insert_id by done. eapply st_less; [|exact H1]. lia.
Qed.
End write.


Lemma laid_out_less c ip len len' : 0 <= len' <= len → laid_out c ip len → laid_out c ip len'.
Proof.
  intros Hl [L1 L2 L3 L4 L5 L6 L7]. split; [lia|done|..].
  - intros bn H1 H2. apply L3; [done|lia].
  - intros H. apply L4. lia.
  - intros bn H1 H2. apply L5; [done|lia].
  - intros bn H1 H2. apply L6; [done|lia].
  - intros a b A1 A2 B1 B2. apply L7; (done || lia).
Qed.

(** Nothing but the block addresses of an inode matters for its contents. *)
Lemma content_addrs c ip jp p : i_addrs jp = i_addrs ip → content c jp p = content c ip p.
Proof. intros E. unfold content, blockno, indirect. by rewrite E. Qed.
Lemma laid_out_addrs c ip jp len : i_addrs jp = i_addrs ip → laid_out c ip len → laid_out c jp len.
Proof.
  intros E [L1 L2 L3 L4 L5 L6 L7].
  assert (Hb : ∀ bn, blockno c jp bn = blockno c ip bn) by (intros bn; unfold blockno, indirect; by rewrite E).
  assert (Hi : indirect jp = indirect ip) by (unfold indirect; by rewrite E).
  split; try setoid_rewrite Hb; rewrite ?Hi; try done. by rewrite E.
Qed.
Lemma grown_addrs ip e : i_addrs (grown ip e) = i_addrs ip.
Proof. unfold grown. by case_match. Qed.

(** Changing a block that is not the file's changes nothing of the file. *)
Lemma content_other c c' ip len b0 :
  indirect ip ≠ b0 → (∀ bn, 0 <= bn → bn * BSIZE < len → blockno c ip bn ≠ b0) → (∀ b, b ≠ b0 → c' b = c b) →
  (∀ bn, blockno c' ip bn = blockno c ip bn) ∧ (∀ p, 0 <= p < len → content c' ip p = content c ip p) ∧
  (laid_out c ip len → laid_out c' ip len).
Proof.
  intros Hind Hbl Hc. assert (Hm : ∀ bn, blockno c' ip bn = blockno c ip bn).
  { intros bn. unfold blockno. by rewrite Hc. }
  split; [done|]. split.
  - intros p Hp. destruct (block_of p len Hp). unfold content. rewrite Hm, Hc; [done|by apply Hbl].
  - intros [L1 L2 L3 L4 L5 L6 L7]. split; try done.
    + intros bn H1 H2. rewrite Hm. by apply L3.
    + intros bn H1 H2. rewrite Hm, Hc by (by apply Hbl). by apply L5.
    + intros bn H1 H2. rewrite Hm. by apply L6.
    + intros a b. rewrite !Hm. apply L7.
Qed.

(** ** Properties *)

(** Readi returns exactly the bytes of the file between the offset and the
    end of the range or of the file, through direct and indirect blocks alike,
    and leaves the file system as it was; it returns after at most one pass over
    the blocks of the range. *)
Theorem readi_reads dr k c ic x i ip off n s :
  st [] k c none ic x s → ic !! i = Some ip → i_dev ip = ROOTDEV → i_type ip ≠ T_DEV →
  laid_out c ip (i_size ip) → 0 <= off <= i_size ip → 0 <= n → off + n < w32 →
  ∃ s', let m := Z.min n (i_size ip - off) in
    readi dr i off n s = Ok (m, contents c ip off m) s' ∧ st [] k c none ic x s'.
Proof.
  intros Hs Hi Hd Ht Hlo Ho Hn Hw. set (m := Z.min n (i_size ip - off)).
  destruct (wp_total (readi dr i off n) (λ r s', r = (m, contents c ip off m) ∧ st [] k c none ic x s') s)
    as (r & s' & E & -> & H).
  { by apply (wp_readi (mode := Total) k c ic x i ip (i_size ip)). }
  by exists s'.
Qed.

(** C17: writei inside a file's allocated blocks replaces exactly the bytes of
    its range: afterwards a byte of the file is the byte written there if it is
    in the range, and what it was otherwise; the file ends where it did or at
    the end of the range; if it has grown, the inode on the disk is the cached
    one with the new size, and if not its block is as it was; no block but the
    file's and the inode's changes; and readi of the range returns what was
    written. *)
Theorem writei_writes dr dw k c ic x i ip len src off n s :
  st [] (S (S (Z.to_nat (n / BSIZE))) + S k) c none ic x s → ic !! i = Some ip → i_dev ip = ROOTDEV → i_type ip ≠ T_DEV →
  fits ip → inum_ok x (i_inum ip) → length (c (IBLOCK (i_inum ip) x)) = 512%nat →
  laid_out c ip len → inode_apart x ip len c → i_size ip <= len → 0 <= off <= i_size ip →
  0 < n <= Z.of_nat (length src) → off + n <= len →
  ∃ s' c', writei dw i src off n s = Ok n s' ∧
    st [] k c' none (<[i := grown ip (off + n)]> ic) x s' ∧
    (∀ p, 0 <= p < len → content c' ip p =
       if decide (off <= p < off + n) then nth (Z.to_nat (p - off)) src 0 else content c ip p) ∧
    i_size (grown ip (off + n)) = Z.max (i_size ip) (off + n) ∧
    (if decide (i_size ip < off + n)
     then ∀ jp, load_dinode (c' (IBLOCK (i_inum ip) x)) (dinode_off (i_inum ip)) jp = rebooked jp (grown ip (off + n))
     else c' (IBLOCK (i_inum ip) x) = c (IBLOCK (i_inum ip) x)) ∧
    (∀ b, b ≠ IBLOCK (i_inum ip) x → (∀ bn, 0 <= bn → bn * BSIZE < len → b ≠ blockno c ip bn) → c' b = c b) ∧
    ∃ s'', readi dr i off n s' = Ok (n, take (Z.to_nat n) src) s''.
Proof.
  intros Hs Hi Hd Ht Hfit Hnum Hib Hlo Hap Hsz Ho Hn Hl. pose proof (lo_len _ _ _ Hlo) as Hmax.
  destruct (wp_total (writei dw i src off n) (λ r s', r = n ∧ ∃ c1, written ip len off (take (Z.to_nat n) src) c c1 ∧
     st [] k (recorded x ip (off + n) c1) none (<[i := grown ip (off + n)]> ic) x s') s) as (r & s' & E & -> & c1 & W & H).
  { apply (wp_writei (mode := Total) ic x i ip len Hi Hd k c); [done..|]. intros c1 s' W H. split; [done|]. by exists c1. }
  set (c' := recorded x ip (off + n) c1) in *.
  assert (Hc : ∀ b, b ≠ IBLOCK (i_inum ip) x → c' b = c1 b) by (intros; by apply recorded_other).
  assert (Hci : c1 (IBLOCK (i_inum ip) x) = c (IBLOCK (i_inum ip) x)).
  { apply (wr_other _ _ _ _ _ _ W). intros bn H1 H2 E'. destruct Hap as [_ Hap]. by apply (Hap bn H1 H2). }
  assert (Hlen : length (take (Z.to_nat n) src) = Z.to_nat n) by (rewrite length_take; lia).
  destruct (content_other c1 c' ip len (IBLOCK (i_inum ip) x)) as (_ & Hcont & Hlo').
  { by destruct Hap. }
  { intros bn H1 H2. rewrite (wr_map _ _ _ _ _ _ W) by done. destruct Hap as [_ Hap]. by apply Hap. }
  { done. }
  assert (Hall : ∀ p, 0 <= p < len → content c' ip p =
       if decide (off <= p < off + n) then nth (Z.to_nat (p - off)) src 0 else content c ip p).
  { intros p Hp. rewrite Hcont, (wr_content _ _ _ _ _ _ W), Hlen, Z2Nat.id by (done || lia). case_decide; [|done].
    rewrite !nth_lookup, lookup_take_lt by lia. done. }
  assert (Hgs : i_size (grown ip (off + n)) = Z.max (i_size ip) (off + n)).
  { unfold grown. destruct (Z.ltb_spec (i_size ip) (off + n)); cbn; lia. }
  exists s', c'. do 4 (split; [done|]). split; [|split].
  { case_decide as D; [|unfold c', recorded; by rewrite (proj2 (Z.ltb_ge _ _)) by lia].
    intros jp. apply recorded_inode; [done|unfold MAXFILE, BSIZE, w32 in *; lia|done|by rewrite Hci|done]. }
  { intros b Hb Hbn. rewrite Hc by done. by apply (wr_other _ _ _ _ _ _ W). }
  destruct (wp_total (readi dr i off n) (λ r _, r = (n, take (Z.to_nat n) src)) s') as (r & s'' & E' & ->); [|by exists s''].
  apply (wp_readi (mode := Total) k c' (<[i := grown ip (off + n)]> ic) x i (grown ip (off + n)) (i_size (grown ip (off + n))));
    [apply list_lookup_insert_eq; by eapply lookup_lt_Some|unfold grown; by case_match| |done|
     unfold grown; by case_match|done|lia|lia|unfold MAXFILE, BSIZE, w32 in *; lia|].
  - apply (laid_out_less _ _ len); [lia|]. apply (laid_out_addrs _ ip); [apply grown_addrs|].
    apply Hlo'. by eapply written_laid_out.
  - intros s2 _. cbv zeta. rewrite Z.min_l by lia. f_equal. apply list_eq. intros j.
    destruct (decide (j < Z.to_nat n)%nat) as [Hj|Hj].
    + rewrite lookup_contents, lookup_take_lt by lia. rewrite (content_addrs _ ip) by apply grown_addrs.
      rewrite Hall, decide_True by lia. replace (Z.to_nat _) with j by lia.
      destruct (lookup_lt_is_Some_2 src j ltac:(lia)) as [v Hv]. by rewrite nth_lookup, Hv.
    + rewrite !lookup_ge_None_2; [done|lia|]. rewrite length_contents. lia.
Qed.

(** *** On the demonstration disk: the root directory's block *)

Definition file_inode : inode := mkinode 1 2 1 true true T_FILE 0 0 1 0 0 493 100 (37 :: replicate 10 0).
Definition file_icache : list inode := <[0%nat := file_inode]> demo_icache.
Definition file_fs : fst := mkfst (lg (demo_fs 1)) file_icache demo_sb.
Lemma file_st k : (k <= 30)%nat → st [] k demo_disk none file_icache demo_sb file_fs.
Proof. intros Hk. destruct (demo_st k Hk). by split. Qed.

Lemma file_laid_out len : 0 <= len <= 512 → laid_out demo_disk file_inode len.
Proof.
  intros Hl. assert (H0 : ∀ bn, 0 <= bn → bn * BSIZE < len → bn = 0) by (unfold BSIZE; intros; lia).
  split.
  - unfold MAXFILE, BSIZE. lia.
  - done.
  - intros bn H1 H2. by rewrite (H0 bn H1 H2).
  - unfold NDIRECT, BSIZE. lia.
  - intros bn H1 H2. rewrite (H0 bn H1 H2). reflexivity.
  - intros bn H1 H2. by rewrite (H0 bn H1 H2).
  - intros a b A1 A2 B1 B2 _. by rewrite (H0 a A1 A2), (H0 b B1 B2).
Qed.

Lemma readi_reads_witness :
  ∃ s', readi no_read 0 90 20 file_fs = Ok (10, contents demo_disk file_inode 90 10) s'.
Proof.
  destruct (readi_reads no_read 0 demo_disk file_icache demo_sb 0 file_inode 90 20 file_fs (file_st 0 ltac:(lia)) eq_refl eq_refl
    ltac:(discriminate) (file_laid_out 100 ltac:(lia)) ltac:(cbn; lia) ltac:(lia) ltac:(unfold w32; lia)) as (s' & E & _).
  exists s'. exact E.
Defined.

Lemma writei_writes_witness :
  ∃ s' s'', writei no_write 0 [7; 8; 9] 99 3 file_fs = Ok 3 s' ∧ readi no_read 0 99 3 s' = Ok (3, [7; 8; 9]) s''.
Proof.
  destruct (writei_writes no_read no_write 0 demo_disk file_icache demo_sb 0 file_inode 512 [7; 8; 9] 99 3 file_fs
    (file_st 3 ltac:(lia)) eq_refl eq_refl ltac:(discriminate)
    ltac:(repeat (split; [by vm_compute|]); repeat constructor; by vm_compute) ltac:(repeat split; by vm_compute) ltac:(vm_compute; reflexivity)
    (file_laid_out 512 ltac:(lia))
    ltac:(split; [done|]; intros bn H1 H2; unfold BSIZE in H2; by replace bn with 0 by lia)
    ltac:(cbn; lia) ltac:(cbn; lia) ltac:(cbn; lia) ltac:(lia)) as (s' & c' & E & _ & _ & _ & _ & _ & s'' & R).
  exists s', s''. exact (conj E R).
Defined.

End FsData.
