(* ===== verification/FsPath.v ===== *)
(** * Path names: skipelem

    The elements of a path, and that skipelem takes the first of them. *)

From S2P Require Import Prelude CString Bytes Fs.
Local Open Scope Z_scope.

Module FsPath.
Import Bytes Fs.

(** A character of a path element. *)
Definition plain (c : Z) : Prop := c ≠ 47 ∧ c ≠ 0.
Definition slashes (n : nat) : list Z := replicate n 47.

Lemma skip_slashes_spec n c p : c ≠ 47 → skip_slashes (slashes n ++ c :: p) = Some (c :: p).
Proof.
  intros Hc. induction n as [|n IH]; cbn [slashes replicate app skip_slashes].
  - by rewrite (proj2 (Z.eqb_neq _ _)).
  - exact IH.
Qed.

Lemma elem_spec e c p : Forall plain e → ¬ plain c → elem (e ++ c :: p) = Some (e, c :: p).
Proof.
  intros He Hc. induction He as [|a e [H1 H2] He IH]; cbn [app elem].
  - destruct (Z.eqb_spec c 47), (Z.eqb_spec c 0); try done. by destruct Hc.
  - rewrite (proj2 (Z.eqb_neq _ _)), (proj2 (Z.eqb_neq _ _)) by done. cbn [orb]. by rewrite IH.
Qed.

(** The buffer holds the element, cut at DIRSIZ characters and otherwise
    terminated by a zero. *)
Definition names (name e : list Z) : Prop :=
  length name = DIRSIZ ∧ take (length (take DIRSIZ e)) name = take DIRSIZ e ∧
  ((length e < DIRSIZ)%nat → name !! length e = Some 0).

Lemma copy_name_spec name e : length name = DIRSIZ → names (copy_name name e) e.
Proof.
  intros Hn. unfold names, copy_name. case_decide as D.
  - assert (Hl : length (take DIRSIZ e) = DIRSIZ) by (rewrite length_take; lia).
    assert (Hf : (0 + length (take DIRSIZ e) <= length name)%nat) by lia.
    split; [by rewrite length_splice|]. split; [|lia].
    pose proof (slice_splice name 0 (take DIRSIZ e) Hf) as E. unfold slice in E. exact E.
  - assert (Hf : (0 + length e <= length name)%nat) by lia. rewrite (take_ge e DIRSIZ) by lia.
    split; [by rewrite length_insert, length_splice|]. split.
    + rewrite take_insert_ge by lia. pose proof (slice_splice name 0 e Hf) as E. unfold slice in E. exact E.
    + intros _. apply list_lookup_insert_eq. rewrite length_splice; lia.
Qed.

(** Skipelem skips leading slashes, copies the first element of the path
    into the buffer (cut at DIRSIZ characters, else terminated), and returns the
    rest of the path without its leading slashes, which is shorter than the path
    it was given; on a path of slashes only it reports that there is none. *)
Theorem skipelem_splits m e j c rest name :
  Forall plain e → ¬ plain c ∨ (0 < j)%nat → c ≠ 47 → length name = DIRSIZ →
  match e with
  | [] => skipelem (slashes m ++ 0 :: rest) name = Some None
  | _ :: _ => ∃ name', skipelem (slashes m ++ e ++ slashes j ++ c :: rest) name = Some (Some (c :: rest, name')) ∧
      names name' e ∧ (length (c :: rest) < length (slashes m ++ e ++ slashes j ++ c :: rest))%nat
  end.
Proof.
  intros He Hj Hc Hn. destruct e as [|a e].
  - unfold skipelem. by rewrite skip_slashes_spec.
  - apply Forall_cons in He as [[Ha1 Ha2] He]. exists (copy_name name (a :: e)). split; [|split].
    + unfold skipelem. rewrite <-app_comm_cons, skip_slashes_spec by done. cbn [mbind option_bind].
      rewrite (proj2 (Z.eqb_neq _ _)) by done.
      assert (E : elem (a :: e ++ slashes j ++ c :: rest) = Some (a :: e, slashes j ++ c :: rest)).
      { destruct j as [|j]; cbn [slashes replicate app]; rewrite app_comm_cons; apply elem_spec; try by constructor.
        - destruct Hj; [done|lia].
        - by intros [? _]. }
      rewrite E. cbn [mbind option_bind]. by rewrite skip_slashes_spec.
    + by apply copy_name_spec.
    + rewrite !length_app. cbn [length]. unfold slashes. rewrite !length_replicate. lia.
Qed.

(** "//a/bb": the element is "a" and the rest "bb". *)
Lemma skipelem_splits_witness :
  ∃ name', skipelem [47; 47; 97; 47; 98; 98; 0] (replicate 14 1) = Some (Some ([98; 98; 0], name')) ∧ names name' [97].
Proof.
  destruct (skipelem_splits 2 [97] 1 98 [98; 0] (replicate 14 1) ltac:(repeat constructor; done) ltac:(right; lia)
    ltac:(done) eq_refl) as (name' & E & H & _). exists name'. exact (conj E H).
Defined.

(** The examples in the comment of the source. *)
Example skipelem_a_bb_c :
  skipelem [97; 47; 98; 98; 47; 99; 0] (replicate 14 0) = Some (Some ([98; 98; 47; 99; 0], 97 :: replicate 13 0)).
Proof. reflexivity. Qed.
Example skipelem_a : skipelem [97; 0] (replicate 14 0) = Some (Some ([0], 97 :: replicate 13 0)).
Proof. reflexivity. Qed.
Example skipelem_none : skipelem [0] (replicate 14 0) = Some None ∧ skipelem [47; 47; 47; 47; 0] (replicate 14 0) = Some None.
Proof. split; reflexivity. Qed.

End FsPath.
