(* ===== verification/Pipe.v ===== *)
(** * Pipes (pipe.c)

    One pipe: a ring of PIPESIZE bytes with 32-bit counters of the bytes read
    and written.  A call that has to wait gives up the lock in the middle of
    its loop; [pipewrite] and [piperead] therefore run one segment, from taking
    the lock to returning ([Done]) or to going to sleep ([Asleep], with the
    loop index at which the call goes on when it is woken).

    The ring is refined to the queue of the bytes written and not yet read, and
    any interleaving of segments delivers the bytes in order. *)

From stdpp Require Import relations.
From S2P Require Import Prelude Kern.
Local Open Scope Z_scope.

Module Pipe.

Definition PIPESIZE : Z := 512.

Record pipe := mkpipe {
  data : list Z; nread : Z; nwrite : Z; readopen : bool; writeopen : bool
}.

(** A pipe and the locking layer; [p] is the pipe's name. *)
Record pst := mkpst { kn : Kern.kern; pp : pipe }.
Definition put_kn (k : Kern.kern) (s : pst) : pst := mkpst k (pp s).
Definition put_pipe (x : pipe) (s : pst) : pst := mkpst (kn s) x.

Inductive outcome (A : Type) := Done (a : A) | Asleep (i : nat).
Arguments Done {A} _.
Arguments Asleep {A} _.

Section ops.
Context (p : nat).

Definition acquire : M pst unit := zoom kn put_kn (Kern.acquire (Kern.LPipe p)).
Definition release : M pst unit := zoom kn put_kn (Kern.release (Kern.LPipe p)).
Definition wakeup (ch : Kern.chan) : M pst unit := zoom kn put_kn (Kern.wakeup ch).

(** The initial pipe [pipealloc] makes in a page of arbitrary bytes. *)
Definition pipeinit (page : list Z) : pipe := mkpipe page 0 0 true true.

(** The part of [pipeclose] before the page is freed: whether it is to be. *)
Definition pipeclose (writable : bool) : M pst bool :=
  acquire;;
  (if writable then
     modify (λ s, put_pipe (mkpipe (data (pp s)) (nread (pp s)) (nwrite (pp s)) (readopen (pp s)) false) s);;
     wakeup (Kern.CPipeRead p)
   else
     modify (λ s, put_pipe (mkpipe (data (pp s)) (nread (pp s)) (nwrite (pp s)) false (writeopen (pp s))) s);;
     wakeup (Kern.CPipeWrite p));;
  x ← gets pp;
  release;;
  mret (negb (readopen x) && negb (writeopen x)).

Definition push (c : Z) (x : pipe) : pipe :=
  mkpipe (<[Z.to_nat (nwrite x mod PIPESIZE) := c]> (data x)) (nread x) (u32 (nwrite x + 1)) (readopen x) (writeopen x).
Definition pop (x : pipe) : pipe :=
  mkpipe (data x) (u32 (nread x + 1)) (nwrite x) (readopen x) (writeopen x).

(** The loop of [pipewrite] over the bytes from index [i] on. *)
Fixpoint write_loop (killed : bool) (i : nat) (l : list Z) : M pst (option (outcome Z)) :=
  match l with
  | [] => mret None
  | c :: l =>
      x ← gets pp;
      if nwrite x =? u32 (nread x + PIPESIZE) then
        if negb (readopen x) || killed then release;; mret (Some (Done (-1)))
        else wakeup (Kern.CPipeRead p);; release;; mret (Some (Asleep i))
      else modify (put_pipe (push c x));; write_loop killed (S i) l
  end.

(** [addr] holds the [n] bytes to write; [i] is 0 at the call. *)
Definition pipewrite (killed : bool) (addr : list Z) (i : nat) : M pst (outcome Z) :=
  acquire;;
  r ← write_loop killed i (drop i addr);
  match r with
  | Some r => mret r
  | None =>
      wakeup (Kern.CPipeRead p);;
      release;;
      mret (Done (Z.of_nat (length addr)))
  end.

(** The copying loop of [piperead]: the bytes taken, at most [n]. *)
Fixpoint read_loop (n : nat) (acc : list Z) : M pst (list Z) :=
  match n with
  | O => mret acc
  | S n =>
      x ← gets pp;
      if nread x =? nwrite x then mret acc else
      c ← (match data x !! Z.to_nat (nread x mod PIPESIZE) with
           | Some c => mret c
           | None => fault "p->data"
           end);
      modify (put_pipe (pop x));;
      read_loop n (acc ++ [c])
  end.

(** Returns the count and the bytes stored at [addr]. *)
Definition piperead (killed : bool) (n : Z) : M pst (outcome (Z * list Z)) :=
  acquire;;
  x ← gets pp;
  if (nread x =? nwrite x) && writeopen x then
    release;;
    if killed then mret (Done (-1, [])) else mret (Asleep 0)
  else
  l ← read_loop (Z.to_nat n) [];
  wakeup (Kern.CPipeWrite p);;
  release;;
  mret (Done (Z.of_nat (length l), l)).

(** ** Refinement to a queue *)

(** The pipe holds the bytes [q], oldest first. *)
Definition queue (x : pipe) (q : list Z) : Prop :=
  length (data x) = Z.to_nat PIPESIZE ∧ 0 <= nread x < w32 ∧
  nwrite x = u32 (nread x + Z.of_nat (length q)) ∧ Z.of_nat (length q) <= PIPESIZE ∧
  ∀ k c, q !! k = Some c → data x !! Z.to_nat ((nread x + Z.of_nat k) mod PIPESIZE) = Some c.

Lemma u32_ring z : (u32 z) mod PIPESIZE = z mod PIPESIZE.
Proof.
  unfold u32, w32, PIPESIZE. rewrite (Z.div_mod z 4294967296) at 2 by done.
  replace (4294967296 * (z / 4294967296) + z mod 4294967296)
    with (z mod 4294967296 + (z / 4294967296 * 8388608) * 512) by lia. by rewrite Z_mod_plus_full.
Qed.

Lemma ring_lt z : (Z.to_nat (z mod PIPESIZE) < Z.to_nat PIPESIZE)%nat.
Proof. unfold PIPESIZE. pose proof (Z.mod_pos_bound z 512). lia. Qed.

Lemma ring_inj a i j :
  0 <= i < PIPESIZE → 0 <= j < PIPESIZE →
  Z.to_nat ((a + i) mod PIPESIZE) = Z.to_nat ((a + j) mod PIPESIZE) → i = j.
Proof.
  unfold PIPESIZE. intros Hi Hj E. pose proof (Z.mod_pos_bound (a + i) 512). pose proof (Z.mod_pos_bound (a + j) 512).
  assert (E' : (a + i) mod 512 = (a + j) mod 512) by lia.
  pose proof (Z.div_mod (a + i) 512). pose proof (Z.div_mod (a + j) 512). lia.
Qed.

(** The pipe is full exactly when the queue has PIPESIZE bytes, and empty when
    it has none, in spite of the wrap-around of the counters. *)
Lemma u32_add_eq r a b :
  0 <= a <= PIPESIZE → 0 <= b <= PIPESIZE → u32 (r + a) = u32 (r + b) → a = b.
Proof.
  unfold u32, w32, PIPESIZE. intros Ha Hb E. pose proof (Z.div_mod (r + a) 4294967296).
  pose proof (Z.div_mod (r + b) 4294967296). lia.
Qed.

Lemma queue_full x q : queue x q → (nwrite x =? u32 (nread x + PIPESIZE)) = bool_decide (Z.of_nat (length q) = PIPESIZE).
Proof.
  intros (_ & Hr & -> & Hq & _). case_bool_decide as D; [rewrite D; apply Z.eqb_refl|].
  apply Z.eqb_neq. intros E. apply D. eapply u32_add_eq; [| |exact E]; unfold PIPESIZE in *; lia.
Qed.
Lemma queue_empty x q : queue x q → (nread x =? nwrite x) = bool_decide (q = []).
Proof.
  intros (_ & Hr & -> & Hq & _). rewrite <-(u32_small (nread x) Hr) at 1. case_bool_decide as D.
  - subst. rewrite Z.add_0_r. apply Z.eqb_refl.
  - apply Z.eqb_neq. intros E. rewrite <-(Z.add_0_r (nread x)) in E at 1.
    apply u32_add_eq in E; [|unfold PIPESIZE in *; lia..]. destruct q; [done|simpl in E; lia].
Qed.

Lemma queue_push x q c : queue x q → Z.of_nat (length q) < PIPESIZE → queue (push c x) (q ++ [c]).
Proof.
  intros (Hl & Hr & Hw & Hq & Hd) Hlt. unfold push. split; cbn [data nread nwrite]; [by rewrite length_insert|].
  split; [done|]. rewrite length_app. cbn [length]. split; [|split; [lia|]].
  { rewrite Hw. unfold u32 at 1 2. rewrite Zplus_mod_idemp_l. unfold u32. f_equal. lia. }
  intros k c' Hk. rewrite Hw, u32_ring. destruct (decide (k = length q)) as [->|Hne].
  - rewrite lookup_app_r, Nat.sub_diag in Hk by lia. injection Hk as <-.
    apply list_lookup_insert_eq. rewrite Hl. apply ring_lt.
  - apply lookup_app_Some in Hk as [Hk|[Hge Hk]].
    + pose proof (lookup_lt_Some _ _ _ Hk) as Hlk. rewrite list_lookup_insert_ne; [by apply Hd|].
      intros E. apply ring_inj in E; unfold PIPESIZE in *; lia.
    + destruct (k - length q)%nat eqn:Ek; [lia|done].
Qed.

Lemma queue_pop x c q : queue x (c :: q) →
  data x !! Z.to_nat (nread x mod PIPESIZE) = Some c ∧ queue (pop x) q.
Proof.
  intros (Hl & Hr & Hw & Hq & Hd). split.
  - specialize (Hd 0%nat c eq_refl). by rewrite Z.add_0_r in Hd.
  - unfold pop. split; [done|]. cbn [data nread nwrite length] in *. split; [apply u32_range|].
    split; [|split; [lia|]].
    + rewrite Hw. unfold u32. rewrite Zplus_mod_idemp_l. f_equal. lia.
    + intros k c' Hk. specialize (Hd (S k) c' Hk). rewrite <-Hd. f_equal. f_equal.
      rewrite <-(u32_ring (u32 (nread x + 1) + Z.of_nat k)). unfold u32 at 1 2. rewrite Zplus_mod_idemp_l.
      fold (u32 (nread x + 1 + Z.of_nat k)). rewrite u32_ring. f_equal. lia.
Qed.

(** ** The segments *)

Section specs.
Context `{mode : Mode}.

(** The lock is held, by this call only. *)
Definition locked (s : pst) : Prop := Kern.lks (kn s) = [Kern.LPipe p].
(** What the locking layer is after a segment that wakes [l]. *)
Definition woke (l : list Kern.chan) (s s' : pst) : Prop :=
  Kern.lks (kn s') = [] ∧ Kern.woken (kn s') = Kern.woken (kn s) ++ l.

Lemma wp_pacquire s (Q : unit → pst → Prop) :
  Kern.quiet (kn s) → Q tt (put_kn (Kern.mkkern [Kern.LPipe p] (Kern.woken (kn s))) s) → wp acquire Q s.
Proof. intros. by apply wp_zoom, Kern.wp_kacquire. Qed.
Lemma wp_prelease s (Q : unit → pst → Prop) :
  locked s → Q tt (put_kn (Kern.mkkern [] (Kern.woken (kn s))) s) → wp release Q s.
Proof. intros. by apply wp_zoom, Kern.wp_krelease. Qed.
Lemma wp_pwakeup ch s (Q : unit → pst → Prop) :
  Q tt (put_kn (Kern.mkkern (Kern.lks (kn s)) (Kern.woken (kn s) ++ [ch])) s) → wp (wakeup ch) Q s.
Proof. intros HQ. exact HQ. Qed.

(** The ends of the pipe are as they were. *)
Definition same_ends (x y : pipe) : Prop := readopen y = readopen x ∧ writeopen y = writeopen x.

Definition wrote (x y : pipe) : Prop := same_ends x y ∧ nread y = nread x.

(** The loop stores a prefix [w] of its bytes; it stops early only when the
    pipe is full, returning -1 or going to sleep. *)
Lemma wp_write_loop (killed : bool) l : ∀ i s q (Q : option (outcome Z) → pst → Prop),
  locked s → queue (pp s) q →
  (∀ s' (w : list Z) r, queue (pp s') (q ++ w) → wrote (pp s) (pp s') → w `prefix_of` l →
     (match r with
      | None => w = l ∧ kn s' = kn s
      | Some r => Z.of_nat (length (q ++ w)) = PIPESIZE ∧ w ≠ l ∧
          if negb (readopen (pp s)) || killed then r = Done (-1) ∧ woke [] s s'
          else r = Asleep (i + length w) ∧ woke [Kern.CPipeRead p] s s'
      end) → Q r s') →
  wp (write_loop killed i l) Q s.
Proof.
  induction l as [|c l IH]; intros i s q Q Hl Hq HQ; cbn [write_loop]; wp_steps.
  - apply (HQ s [] None); [by rewrite app_nil_r|done|done|done].
  - rewrite (queue_full _ _ Hq). case_bool_decide as D.
    + destruct (negb (readopen (pp s)) || killed) eqn:E; cbn [negb].
      * wp_steps. apply wp_prelease; [done|]. wp_steps.
        apply (HQ _ [] (Some (Done (-1)))); cbn; rewrite ?app_nil_r; try done; [by apply prefix_nil|].
        repeat split; try done. by rewrite app_nil_r.
      * wp_steps. apply wp_pwakeup, wp_bind, wp_prelease; [done|]. wp_steps.
        apply (HQ _ [] (Some (Asleep i))); cbn; rewrite ?app_nil_r; try done; [by apply prefix_nil|].
        repeat split; try done. by rewrite Nat.add_0_r.
    + wp_steps. apply (IH (S i) _ (q ++ [c])); [done| |].
      { apply queue_push; [done|]. destruct Hq as (_ & _ & _ & ? & _). lia. }
      intros s' w r Hq' He Hw Hr. rewrite <-app_assoc in Hq'. apply (HQ s' (c :: w) r); [done|done|by apply prefix_cons|].
      destruct r as [r|].
      * destruct Hr as (H1 & H2 & H3). rewrite <-app_assoc in H1. split; [done|]. split; [congruence|].
        cbn in H3. destruct (negb (readopen (pp s)) || killed); [done|]. destruct H3 as [-> H3]. split; [|done].
        f_equal. simpl. lia.
      * destruct Hr as [-> Hr]. done.
Qed.

Lemma wp_pipewrite (killed : bool) addr i s q (Q : outcome Z → pst → Prop) :
  Kern.quiet (kn s) → queue (pp s) q →
  (∀ s' (w : list Z) r, queue (pp s') (q ++ w) → wrote (pp s) (pp s') → w `prefix_of` drop i addr →
     (if decide (w = drop i addr) then r = Done (Z.of_nat (length addr)) ∧ woke [Kern.CPipeRead p] s s'
      else Z.of_nat (length (q ++ w)) = PIPESIZE ∧
           if negb (readopen (pp s)) || killed then r = Done (-1) ∧ woke [] s s'
           else r = Asleep (i + length w) ∧ woke [Kern.CPipeRead p] s s') → Q r s') →
  wp (pipewrite killed addr i) Q s.
Proof.
  intros Hk Hq HQ. unfold pipewrite. apply wp_bind, wp_pacquire; [done|].
  apply wp_bind, (wp_write_loop killed _ _ _ q); [done|done|]. intros s' w r Hq' He Hw Hr. destruct r as [r|].
  - wp_steps. apply (HQ s' w r); [done|done|done|]. destruct Hr as (H1 & H2 & H3). rewrite decide_False by done. done.
  - destruct Hr as [-> Hr]. wp_steps. apply wp_pwakeup, wp_bind, wp_prelease; [by unfold locked; cbn; rewrite Hr|]. wp_steps.
    apply (HQ _ (drop i addr)); [done|done|done|]. rewrite decide_True by done. split; [done|].
    split; cbn; [done|]. by rewrite Hr.
Qed.

(** The copying loop takes as many bytes as there are, at most [n]. *)
Lemma wp_read_loop n : ∀ s q acc (Q : list Z → pst → Prop),
  queue (pp s) q →
  (∀ s', queue (pp s') (drop n q) → same_ends (pp s) (pp s') → kn s' = kn s → Q (acc ++ take n q) s') →
  wp (read_loop n acc) Q s.
Proof.
  induction n as [|n IH]; intros s q acc Q Hq HQ; cbn [read_loop]; wp_steps.
  - specialize (HQ s). rewrite app_nil_r in HQ. by apply HQ.
  - rewrite (queue_empty _ _ Hq). destruct q as [|c q].
    + rewrite bool_decide_true by done. wp_steps. specialize (HQ s). cbn in HQ. rewrite app_nil_r in HQ. by apply HQ.
    + rewrite bool_decide_false by done. destruct (queue_pop _ _ _ Hq) as [Hc Hq']. rewrite Hc. wp_steps.
      apply (IH _ q); [done|]. intros s' H1 H2 H3. rewrite <-app_assoc. by apply HQ.
Qed.

Lemma wp_piperead (killed : bool) n s q (Q : outcome (Z * list Z) → pst → Prop) :
  Kern.quiet (kn s) → queue (pp s) q →
  (∀ s' (r : outcome (Z * list Z)), same_ends (pp s) (pp s') →
     (if bool_decide (q = []) && writeopen (pp s)
      then r = (if killed then Done (-1, []) else Asleep 0) ∧ queue (pp s') q ∧ woke [] s s'
      else let l := take (Z.to_nat n) q in
           r = Done (Z.of_nat (length l), l) ∧ queue (pp s') (drop (Z.to_nat n) q) ∧
           woke [Kern.CPipeWrite p] s s') → Q r s') →
  wp (piperead killed n) Q s.
Proof.
  intros Hk Hq HQ. unfold piperead. apply wp_bind, wp_pacquire; [done|]. wp_steps. cbn [pp put_kn].
  rewrite (queue_empty _ _ Hq). destruct (bool_decide (q = []) && writeopen (pp s)) eqn:E.
  - apply wp_bind, wp_prelease; [done|].
    assert (Hw : woke [] s (put_kn (Kern.mkkern [] (Kern.woken (kn s))) s)) by (split; cbn; by rewrite ?app_nil_r).
    destruct killed; wp_steps; by apply HQ.
  - apply wp_bind, (wp_read_loop _ _ q); [done|]. intros s' H1 H2 H3. rewrite app_nil_l.
    wp_steps. apply wp_pwakeup, wp_bind, wp_prelease; [by unfold locked; cbn; rewrite H3|]. wp_steps.
    apply HQ; [done|]. split; [done|]. split; [done|]. split; cbn; [done|]. by rewrite H3.
Qed.

Lemma wp_pipeclose (writable : bool) s q (Q : bool → pst → Prop) :
  Kern.quiet (kn s) → queue (pp s) q →
  (∀ s', queue (pp s') q →
     readopen (pp s') = (if writable then readopen (pp s) else false) →
     writeopen (pp s') = (if writable then false else writeopen (pp s)) →
     woke [if writable then Kern.CPipeRead p else Kern.CPipeWrite p] s s' →
     Q (negb (readopen (pp s')) && negb (writeopen (pp s'))) s') →
  wp (pipeclose writable) Q s.
Proof.
  intros Hk Hq HQ. unfold pipeclose. apply wp_bind, wp_pacquire; [done|].
  destruct writable; wp_steps; apply wp_pwakeup; wp_steps; apply wp_prelease; [done| |done|]; wp_steps;
    match goal with |- Q _ ?x => by apply (HQ x) end.
Qed.
End specs.

(** ** Any interleaving of segments *)

(** The pipe, all bytes stored in it so far, and all bytes taken from it. *)
Record hist := mkhist { now : pst; sent : list Z; got : list Z }.

(** The bytes a segment stored: as many as [nwrite] advanced by. *)
Definition stored (addr : list Z) (i : nat) (s s' : pst) : list Z :=
  take (Z.to_nat (u32 (nwrite (pp s') - nwrite (pp s)))) (drop i addr).

Inductive pstep : hist → hist → Prop :=
| pstep_write s s' (a b : list Z) killed addr i r :
    pipewrite killed addr i s = Ok r s' → pstep (mkhist s a b) (mkhist s' (a ++ stored addr i s s') b)
| pstep_read s s' (a b : list Z) killed n r :
    piperead killed n s = Ok r s' →
    pstep (mkhist s a b) (mkhist s' a (b ++ match r with Done (_, l) => l | Asleep _ => [] end))
| pstep_close s s' (a b : list Z) writable r :
    pipeclose writable s = Ok r s' → pstep (mkhist s a b) (mkhist s' a b).

Definition hinv (h : hist) : Prop :=
  Kern.quiet (kn (now h)) ∧ ∃ q, queue (pp (now h)) q ∧ sent h = got h ++ q.

Lemma stored_eq addr i s s' (q w : list Z) :
  queue (pp s) q → queue (pp s') (q ++ w) → nread (pp s') = nread (pp s) → w `prefix_of` drop i addr →
  stored addr i s s' = w.
Proof.
  intros (_ & Hr & Hw & Hl & _) (_ & Hr' & Hw' & Hl' & _) En [k Ek]. unfold stored. rewrite Ek, Hw, Hw', En, length_app.
  rewrite length_app in Hl'. replace (Z.to_nat _) with (length w); [by rewrite take_app_length|].
  unfold u32. rewrite <-Zminus_mod. replace (_ - _) with (Z.of_nat (length w)) by lia.
  rewrite Z.mod_small; unfold w32, PIPESIZE in *; lia.
Qed.

Lemma pstep_inv h h' : hinv h → pstep h h' → hinv h'.
Proof.
  intros [Hk (q & Hq & Hs)] S. destruct S as [s s' a b killed addr i r E|s s' a b killed n r E|s s' a b writable r E];
    cbn in Hk, Hq, Hs; subst a.
  - refine (wp_partial _ (λ r x, hinv (mkhist x ((b ++ q) ++ stored addr i s x) b)) s r s' _ E).
    apply (wp_pipewrite _ _ _ _ q); [done|done|]. intros s1 w r1 Hq1 [He Hn] Hw Hr.
    rewrite (stored_eq addr i s s1 q w) by done. split; cbn.
    + case_decide; [by destruct Hr as (_ & ? & _)|]. destruct Hr as [_ Hr]. case_match; by destruct Hr as (_ & ? & _).
    + exists (q ++ w). split; [done|]. by rewrite app_assoc.
  - refine (wp_partial _ (λ r x, hinv (mkhist x (b ++ q) (b ++ match r with Done (_, l) => l | Asleep _ => [] end))) s r s' _ E).
    apply (wp_piperead _ _ _ q); [done|done|]. intros s1 r1 He Hr. destruct (_ && _).
    + destruct Hr as (-> & Hq1 & Hw & _). split; [done|]. exists q. split; [done|]. cbn.
      destruct killed; by rewrite app_nil_r.
    + destruct Hr as (-> & Hq1 & Hw & _). split; [done|]. exists (drop (Z.to_nat n) q). split; [done|]. cbn.
      by rewrite <-app_assoc, take_drop.
  - refine (wp_partial _ (λ r x, hinv (mkhist x (b ++ q) b)) s r s' _ E).
    apply (wp_pipeclose _ _ q); [done|done|]. intros s1 Hq1 _ _ [Hw _]. split; [done|]. by exists q.
Qed.

Lemma preach_inv h h' : hinv h → rtc pstep h h' → hinv h'.
Proof. intros H R. induction R as [|h h1 h2 S R IH]; [done|]. apply IH. by eapply pstep_inv. Qed.
End ops.

(** ** Properties *)

(** C13: whatever calls read, write and close the pipe, and however their
    segments interleave, the bytes taken out are the bytes put in, in the same
    order: those taken are a prefix of those stored, at most PIPESIZE bytes
    behind, although the 32-bit counters wrap around. *)
Theorem pipe_is_fifo p k page h :
  length page = Z.to_nat PIPESIZE → Kern.quiet k →
  rtc (pstep p) (mkhist (mkpst k (pipeinit page)) [] []) h →
  ∃ q, sent h = got h ++ q ∧ queue (pp (now h)) q ∧ Z.of_nat (length q) <= PIPESIZE.
Proof.
  intros Hl Hk R. assert (H0 : hinv (mkhist (mkpst k (pipeinit page)) [] [])).
  { split; [done|]. exists []. split; [|done]. split; [done|]. split; [done|]. split; [done|]. by split. }
  destruct (preach_inv p _ h H0 R) as [_ (q & Hq & Hs)].
  exists q. split; [done|]. split; [done|]. by destruct Hq as (_ & _ & _ & ? & _).
Qed.

(** A segment of pipewrite stores its bytes in order as long as they fit.
    It returns the count when all are stored, and wakes the readers; when the
    pipe is full it returns -1 if nobody can read any more or the process was
    killed, and otherwise wakes the readers and sleeps, to go on with the first
    byte that did not fit. *)
Theorem pipewrite_segment p killed addr i s q :
  Kern.quiet (kn s) → queue (pp s) q →
  ∃ w r s', pipewrite p killed addr i s = Ok r s' ∧ queue (pp s') (q ++ w) ∧ (w `prefix_of` drop i addr) ∧
    if decide (w = drop i addr) then r = Done (Z.of_nat (length addr)) ∧ woke [Kern.CPipeRead p] s s'
    else Z.of_nat (length (q ++ w)) = PIPESIZE ∧
         if negb (readopen (pp s)) || killed then r = Done (-1) ∧ woke [] s s'
         else r = Asleep (i + length w) ∧ woke [Kern.CPipeRead p] s s'.
Proof.
  intros Hk Hq. destruct (wp_total (pipewrite p killed addr i) (λ r s', ∃ w : list Z, queue (pp s') (q ++ w) ∧
    w `prefix_of` drop i addr ∧
    if decide (w = drop i addr) then r = Done (Z.of_nat (length addr)) ∧ woke [Kern.CPipeRead p] s s'
    else Z.of_nat (length (q ++ w)) = PIPESIZE ∧
         if negb (readopen (pp s)) || killed then r = Done (-1) ∧ woke [] s s'
         else r = Asleep (i + length w) ∧ woke [Kern.CPipeRead p] s s') s) as (r & s' & E & w & H).
  - apply (wp_pipewrite (mode := Total) p killed addr i s q); [done|done|]. intros s' w r H1 _ H2 H3. by exists w.
  - by exists w, r, s'.
Qed.

(** piperead on an empty pipe with a writer waits (or returns -1 when the
    process was killed); otherwise it takes the oldest bytes, as many as there
    are up to the count asked for, so that it returns 0 only at end of file or
    for a count of 0, and wakes the writers. *)
Theorem piperead_segment p killed n s q :
  Kern.quiet (kn s) → queue (pp s) q →
  ∃ r s', piperead p killed n s = Ok r s' ∧
    if bool_decide (q = []) && writeopen (pp s)
    then r = (if killed then Done (-1, []) else Asleep 0) ∧ queue (pp s') q ∧ woke [] s s'
    else let l := take (Z.to_nat n) q in
         r = Done (Z.of_nat (length l), l) ∧ queue (pp s') (drop (Z.to_nat n) q) ∧ woke [Kern.CPipeWrite p] s s'.
Proof.
  intros Hk Hq. apply (wp_total (piperead p killed n)).
  apply (wp_piperead (mode := Total) p killed n s q); [done|done|]. intros s' r _ H. exact H.
Qed.

(** *** Concrete runs *)

Definition demo_pipe : pst := mkpst (Kern.mkkern [] []) (pipeinit (replicate 512 0)).

Lemma demo_queue : queue (pp demo_pipe) [].
Proof. split; [done|]. split; [done|]. split; [done|]. by split. Qed.

Lemma pipe_is_fifo_witness :
  ∃ h q, sent h = [5; 6; 7] ∧ got h = [5; 6] ∧ sent h = got h ++ q.
Proof.
  assert (W : pipewrite 3 false [5; 6; 7] 0 demo_pipe =
    Ok (Done 3) (mkpst (Kern.mkkern [] [Kern.CPipeRead 3]) (mkpipe (5 :: 6 :: 7 :: replicate 509 0) 0 3 true true)))
    by reflexivity.
  assert (R : piperead 3 false 2 (mkpst (Kern.mkkern [] [Kern.CPipeRead 3]) (mkpipe (5 :: 6 :: 7 :: replicate 509 0) 0 3 true true)) =
    Ok (Done (2, [5; 6])) (mkpst (Kern.mkkern [] [Kern.CPipeRead 3; Kern.CPipeWrite 3]) (mkpipe (5 :: 6 :: 7 :: replicate 509 0) 2 3 true true)))
    by reflexivity.
  destruct (pipe_is_fifo 3 (Kern.mkkern [] []) (replicate 512 0) _ eq_refl eq_refl
    (rtc_l _ _ _ _ (pstep_write 3 _ _ [] [] false [5; 6; 7] 0%nat _ W) (rtc_once _ _ (pstep_read 3 _ _ _ [] false 2 _ R))))
    as (q & E & _). eexists _, q. refine (conj _ (conj _ E)); reflexivity.
Defined.

Lemma pipewrite_segment_witness :
  ∃ w r s', pipewrite 3 false [5; 6; 7] 1 demo_pipe = Ok r s' ∧ queue (pp s') ([] ++ w) ∧ (w `prefix_of` [6; 7]).
Proof.
  destruct (pipewrite_segment 3 false [5; 6; 7] 1 demo_pipe [] eq_refl demo_queue) as (w & r & s' & E & Hq & Hw & _).
  exists w, r, s'. exact (conj E (conj Hq Hw)).
Defined.

Lemma piperead_segment_witness :
  ∃ r s', piperead 3 false 10 demo_pipe = Ok r s' ∧ r = Asleep 0.
Proof.
  destruct (piperead_segment 3 false 10 demo_pipe [] eq_refl demo_queue) as (r & s' & E & Hr).
  exists r, s'. exact (conj E (proj1 Hr)).
Defined.

End Pipe.
