(* ===== verification/Syscall.v ===== *)
(** * System-call arguments (syscall.c)

    What the kernel reads of the calling process: its size, the user stack
    pointer and its memory, the bytes at the addresses below the size.  The
    functions return [None] where the C functions return -1. *)

From S2P Require Import Prelude CString Bytes.
Local Open Scope Z_scope.

Module Syscall.

Record usr := mkusr { u_sz : Z; u_esp : Z; umem : Z → Z }.

Definition word (m : Z → Z) (a : Z) : Z :=
  m a + 256 * m (a + 1) + 65536 * m (a + 2) + 16777216 * m (a + 3).

Definition fetchint (u : usr) (addr : Z) : option Z :=
  if (u_sz u <=? addr) || (u_sz u <? u32 (addr + 4)) then None else Some (i32 (word (umem u) addr)).

(** [for(s = *pp; s < ep; s++) if( *s == 0) return s - *pp;] *)
Fixpoint scan_nul (fuel : nat) (m : Z → Z) (s : Z) (len : Z) : option Z :=
  match fuel with
  | O => None
  | S fuel => if m s =? 0 then Some len else scan_nul fuel m (s + 1) (len + 1)
  end.

(** The length; the pointer set is [addr]. *)
Definition fetchstr (u : usr) (addr : Z) : option Z :=
  if u_sz u <=? addr then None else scan_nul (Z.to_nat (u_sz u - addr)) (umem u) addr 0.

Definition argint (u : usr) (n : Z) : option Z := fetchint u (u32 (u_esp u + 4 + 4 * n)).

Definition argptr (u : usr) (n size : Z) : option Z :=
  i ← argint u n;
  if (u_sz u <=? u32 i) || (u_sz u <? u32 (u32 i + size)) then None else Some (u32 i).

(** The pointer and the length. *)
Definition argstr (u : usr) (n : Z) : option (Z * Z) :=
  a ← argint u n;
  len ← fetchstr u (u32 a);
  Some (u32 a, len).

(** [n] bytes of memory from [a]. *)
Definition bytes_at (m : Z → Z) (a : Z) (n : nat) : list Z := (λ k, m (a + Z.of_nat k)) <$> seq 0 n.
Definition put_bytes (m : Z → Z) (a : Z) (l : list Z) : Z → Z := λ x,
  if (a <=? x) && (x <? a + Z.of_nat (length l)) then default 0 (l !! Z.to_nat (x - a)) else m x.

(** The string an argument points to, with its terminator. *)
Definition string_at (u : usr) (p : Z * Z) : list Z := bytes_at (umem u) p.1 (S (Z.to_nat p.2)).

(** *** Facts *)

Lemma scan_nul_spec fuel m : ∀ s len r,
  scan_nul fuel m s len = Some r →
  len <= r < len + Z.of_nat fuel ∧ m (s + (r - len)) = 0 ∧ ∀ k, 0 <= k < r - len → m (s + k) ≠ 0.
Proof.
  induction fuel as [|fuel IH]; intros s len r; [done|]. cbn [scan_nul].
  destruct (Z.eqb_spec (m s) 0) as [E|E].
  - intros [= <-]. split; [lia|]. replace (s + (len - len)) with s by lia. split; [done|]. intros; lia.
  - intros H. apply IH in H as (H1 & H2 & H3). split; [lia|].
    replace (s + 1 + (r - (len + 1))) with (s + (r - len)) in H2 by lia. split; [done|]. intros k Hk.
    destruct (decide (k = 0)) as [->|]; [by rewrite Z.add_0_r|].
    specialize (H3 (k - 1) ltac:(lia)). by replace (s + 1 + (k - 1)) with (s + k) in H3 by lia.
Qed.

Lemma scan_nul_ext fuel m m' : ∀ s len,
  (∀ x, s <= x < s + Z.of_nat fuel → m' x = m x) → scan_nul fuel m' s len = scan_nul fuel m s len.
Proof.
  induction fuel as [|fuel IH]; intros s len H; [done|]. cbn [scan_nul]. rewrite H by lia.
  case_match; [done|]. apply IH. intros; apply H; lia.
Qed.

(** The process's memory is below the kernel. *)
Definition user_ok (u : usr) : Prop := 0 <= u_sz u <= 2147483648.

Lemma fetchint_in u addr w :
  user_ok u → 0 <= addr < w32 → fetchint u addr = Some w →
  addr + 4 <= u_sz u ∧ w = i32 (word (umem u) addr).
Proof.
  unfold user_ok, fetchint, w32. intros Hu Ha. destruct (Z.leb_spec (u_sz u) addr); [done|].
  rewrite u32_small by (unfold w32; lia). destruct (Z.ltb_spec (u_sz u) (addr + 4)); [done|].
  cbn. intros [= <-]. lia.
Qed.

(** Two states of a process that agree on the memory it owns. *)
Definition agree (u v : usr) : Prop :=
  u_sz v = u_sz u ∧ u_esp v = u_esp u ∧ ∀ x, 0 <= x < u_sz u → umem v x = umem u x.

Lemma fetchint_agree u v addr : user_ok u → 0 <= addr < w32 → agree u v → fetchint v addr = fetchint u addr.
Proof.
  intros Hu Ha (E1 & E2 & E3). unfold fetchint. rewrite E1. destruct (_ || _) eqn:G; [done|].
  apply orb_false_iff in G as [G1%Z.leb_gt G2%Z.ltb_ge]. unfold user_ok, w32 in *.
  rewrite u32_small in G2 by (unfold w32; lia). unfold word. rewrite !E3 by lia. done.
Qed.

Lemma fetchstr_agree u v addr : 0 <= addr → agree u v → fetchstr v addr = fetchstr u addr.
Proof.
  intros Ha (E1 & E2 & E3). unfold fetchstr. rewrite E1. destruct (Z.leb_spec (u_sz u) addr); [done|].
  apply scan_nul_ext. intros x Hx. apply E3. lia.
Qed.

(** ** Properties *)

(** C14: the argument functions read only memory the process owns: their
    results are the same in any two states that agree on the addresses below
    the process's size, whatever the stack pointer and the pointers passed. *)
Theorem args_stay_inside u v n size :
  user_ok u → agree u v →
  argint v n = argint u n ∧ argptr v n size = argptr u n size ∧ argstr v n = argstr u n.
Proof.
  intros Hu Ha. assert (E : argint v n = argint u n).
  { unfold argint. destruct Ha as (E1 & E2 & E3). rewrite E2. apply fetchint_agree; [done|apply u32_range|done]. }
  split; [done|]. split.
  - unfold argptr. rewrite E. destruct Ha as (-> & _). done.
  - unfold argstr. rewrite E. destruct (argint u n) as [a|]; [|done]. cbn.
    rewrite (fetchstr_agree u v) by (done || apply u32_range). done.
Qed.

(** What the argument functions accept is safe to use: a pointer accepted
    for a non-negative size spans memory of the process, and an accepted string
    lies inside it, ends in a zero byte and holds none before it. *)
Theorem args_are_checked u n :
  user_ok u →
  (∀ size a, 0 <= size < 2147483648 → argptr u n size = Some a → 0 <= a ∧ a + size <= u_sz u) ∧
  (∀ a len, argstr u n = Some (a, len) →
     0 <= a ∧ 0 <= len ∧ a + len < u_sz u ∧ umem u (a + len) = 0 ∧ ∀ k, 0 <= k < len → umem u (a + k) ≠ 0).
Proof.
  intros Hu. unfold user_ok in Hu. split.
  - intros size a Hs. unfold argptr. destruct (argint u n) as [i|]; [|done]. cbn. pose proof (u32_range i) as Hi.
    destruct (Z.leb_spec (u_sz u) (u32 i)); [done|]. unfold w32 in Hi.
    rewrite (u32_small (u32 i + size)) by (unfold w32; lia). destruct (Z.ltb_spec (u_sz u) (u32 i + size)); [done|].
    cbn. intros [= <-]. lia.
  - intros a len. unfold argstr. destruct (argint u n) as [i|]; [|done]. cbn. pose proof (u32_range i) as Hi.
    intros (l & Hl & [= <- <-])%bind_Some. unfold fetchstr in Hl. destruct (Z.leb_spec (u_sz u) (u32 i)); [done|].
    apply scan_nul_spec in Hl as (H1 & H2 & H3). rewrite Z.sub_0_r in *. repeat split; try lia; try done.
Qed.

(** A process of one page whose stack pointer is 4000, with one argument. *)
Definition demo_usr (arg : Z) : usr :=
  mkusr 4096 4000 (λ x, if (4004 <=? x) && (x <? 4008) then (arg / 2 ^ (8 * (x - 4004))) mod 256
                        else if (100 <=? x) && (x <? 103) then 97 else 0).

Lemma args_stay_inside_witness :
  argint (mkusr 4096 4000 (λ x, if x <? 4096 then umem (demo_usr 100) x else 77)) 0 = argint (demo_usr 100) 0.
Proof.
  refine (proj1 (args_stay_inside (demo_usr 100) _ 0 0 _ _)).
  - split; done.
  - split; [done|]. split; [done|]. intros x Hx. cbn -[Z.mul Z.pow Z.div]. rewrite (proj2 (Z.ltb_lt _ _)); [done|apply Hx].
Defined.

Lemma args_are_checked_witness : ∃ a len, argstr (demo_usr 100) 0 = Some (a, len) ∧ a + len < 4096.
Proof.
  exists 100, 3. refine (conj _ _); [vm_compute; reflexivity|].
  refine (proj1 (proj2 (proj2 (proj2 (args_are_checked (demo_usr 100) 0 _) 100 3 _)))).
  - split; done.
  - vm_compute. reflexivity.
Defined.

(** A negative size defeats the check: argptr accepts every pointer into
    the process, wherever it points, for some negative size (which sys_read and
    sys_write pass on unchecked), because the sum wraps around. *)
Theorem argptr_negative_size u n i :
  user_ok u → argint u n = Some i → u32 i < u_sz u →
  ∀ size, - u32 i <= size < 0 → argptr u n size = Some (u32 i).
Proof.
  intros Hu Hi Hlt size Hs. unfold user_ok in Hu. unfold argptr. rewrite Hi. cbn.
  rewrite (proj2 (Z.leb_gt _ _)) by done. pose proof (u32_range i).
  rewrite (u32_small (u32 i + size)) by lia. rewrite (proj2 (Z.ltb_ge _ _)) by lia. done.
Qed.

Lemma argptr_negative_size_witness : argptr (demo_usr 100) 0 (-50) = Some 100.
Proof.
  refine (argptr_negative_size (demo_usr 100) 0 100 _ _ _ (-50) _).
  - split; done.
  - vm_compute. reflexivity.
  - vm_compute. reflexivity.
  - split; vm_compute; [discriminate|reflexivity].
Defined.

End Syscall.
