(* ===== verification/File.v ===== *)
(** * Open files (file.c, file.h, and the allocation of pipes in pipe.c)

    The state adds to the file system the table of open files, the pipes (named
    by the page they live in) and the free pages the page allocator would hand
    out, most recently freed first (file Kalloc).  A pipe operation that goes to
    sleep is the outcome [Hang]: the call has not returned. *)

From S2P Require Import Prelude CString Bytes Kern Log Fs Pipe.
Local Open Scope Z_scope.

Module File.

Definition NFILE : nat := 100.

Inductive ftype := FD_NONE | FD_PIPE | FD_INODE.
#[export] Instance ftype_eq_dec : EqDecision ftype.
Proof. solve_decision. Defined.

Record file := mkfile {
  f_type : ftype; f_ref : Z; f_readable : bool; f_writable : bool;
  f_pipe : Z; f_ip : nat; f_off : Z
}.
Definition set_fref (r : Z) (f : file) : file :=
  mkfile (f_type f) r (f_readable f) (f_writable f) (f_pipe f) (f_ip f) (f_off f).
Definition set_ftype (t : ftype) (f : file) : file :=
  mkfile t (f_ref f) (f_readable f) (f_writable f) (f_pipe f) (f_ip f) (f_off f).
Definition set_off (o : Z) (f : file) : file :=
  mkfile (f_type f) (f_ref f) (f_readable f) (f_writable f) (f_pipe f) (f_ip f) o.
Definition set_pipe (r w : bool) (p : Z) (f : file) : file :=
  mkfile FD_PIPE (f_ref f) r w p (f_ip f) (f_off f).
Definition set_inode (r w : bool) (i : nat) (f : file) : file :=
  mkfile FD_INODE (f_ref f) r w (f_pipe f) i 0.

Record ost := mkost {
  fs : Fs.fst;
  ftable : list file;
  pipes : Z → Pipe.pipe;
  pages : list Z
}.
Definition put_fs (x : Fs.fst) (s : ost) : ost := mkost x (ftable s) (pipes s) (pages s).
Definition put_ft (x : list file) (s : ost) : ost := mkost (fs s) x (pipes s) (pages s).
Definition put_pages (x : list Z) (s : ost) : ost := mkost (fs s) (ftable s) (pipes s) x.
Definition put_pp (p : Z) (x : Pipe.pipe) (s : ost) : ost := mkost (fs s) (ftable s) (<[p := x]> (pipes s)) (pages s).

Definition onfs {A} (m : M Fs.fst A) : M ost A := zoom fs put_fs m.
Definition acquire (k : Kern.lockid) : M ost unit := onfs (Fs.acquire k).
Definition release (k : Kern.lockid) : M ost unit := onfs (Fs.release k).

(** Running code of pipe.c on pipe [p]. *)
Definition onpipe {A} (p : Z) (m : M Pipe.pst A) : M ost A :=
  zoom (λ s, Pipe.mkpst (Log.kn (Fs.lg (fs s))) (pipes s p))
       (λ x s, put_pp p (Pipe.pp x) (put_fs (Fs.put_lg (Log.put_kn (Pipe.kn x) (Fs.lg (fs s))) (fs s)) s)) m.
Definition await {A} (m : M ost (Pipe.outcome A)) : M ost A :=
  r ← m; match r with Pipe.Done a => mret a | Pipe.Asleep _ => hang end.

Definition fil (f : nat) : M ost file :=
  l ← gets ftable; match l !! f with Some x => mret x | None => fault "file" end.
Definition updf (f : nat) (g : file → file) : M ost unit :=
  modify (λ s, put_ft (alter g f (ftable s)) s).

Definition kalloc : M ost (option Z) :=
  l ← gets pages;
  match l with
  | [] => mret None
  | p :: l => modify (put_pages l);; mret (Some p)
  end.
Definition kfree (p : Z) : M ost unit := modify (λ s, put_pages (p :: pages s) s).

(** ** file.c *)

Definition fileinit : M ost unit := onfs (Fs.onlog (Log.initlock Kern.LFtable)).

(** The first unused entry of the table. *)
Fixpoint free_file (l : list file) (i : nat) : option nat :=
  match l with
  | [] => None
  | f :: l => if f_ref f =? 0 then Some i else free_file l (S i)
  end.

Definition filealloc : M ost (option nat) :=
  acquire Kern.LFtable;;
  l ← gets ftable;
  match free_file l 0 with
  | Some f =>
      updf f (set_fref 1);;
      release Kern.LFtable;;
      mret (Some f)
  | None =>
      release Kern.LFtable;;
      mret None
  end.

Definition filedup (f : nat) : M ost nat :=
  acquire Kern.LFtable;;
  x ← fil f;
  if f_ref x <? 1 then panic "filedup" else
  updf f (λ x, set_fref (f_ref x + 1) x);;
  release Kern.LFtable;;
  mret f.

(** pipe.c: [pipeclose], with the page freed when both ends are closed. *)
Definition pipeclose (p : Z) (writable : bool) : M ost unit :=
  b ← onpipe p (Pipe.pipeclose (Z.to_nat p) writable);
  if (b : bool) then kfree p else mret tt.

Definition fileclose (f : nat) : M ost unit :=
  acquire Kern.LFtable;;
  x ← fil f;
  if f_ref x <? 1 then panic "fileclose" else
  updf f (λ x, set_fref (f_ref x - 1) x);;
  if 0 <? f_ref x - 1 then release Kern.LFtable else
  ff ← fil f;
  updf f (λ x, set_ftype FD_NONE (set_fref 0 x));;
  release Kern.LFtable;;
  match f_type ff with
  | FD_PIPE => pipeclose (f_pipe ff) (f_writable ff)
  | FD_INODE =>
      onfs Fs.begin_op;;
      onfs (Fs.iput (f_ip ff));;
      onfs Fs.end_op
  | FD_NONE => mret tt
  end.

Definition filestat (f : nat) : M ost (option Fs.stat) :=
  x ← fil f;
  match f_type x with
  | FD_INODE =>
      onfs (Fs.ilock (f_ip x));;
      st ← onfs (Fs.stati (f_ip x));
      onfs (Fs.iunlock (f_ip x));;
      mret (Some st)
  | _ => mret None
  end.

Section devices.
Context (dev_read : Z → option (nat → Z → M Fs.fst (Z * list Z))).
Context (dev_write : Z → option (nat → list Z → Z → M Fs.fst Z)).

(** [killed] is the calling process's flag; the bytes read are returned. *)
Definition fileread (killed : bool) (f : nat) (n : Z) : M ost (Z * list Z) :=
  x ← fil f;
  if negb (f_readable x) then mret (-1, []) else
  match f_type x with
  | FD_PIPE => await (onpipe (f_pipe x) (Pipe.piperead (Z.to_nat (f_pipe x)) killed n))
  | FD_INODE =>
      onfs (Fs.ilock (f_ip x));;
      '(r, l) ← onfs (Fs.readi dev_read (f_ip x) (f_off x) (u32 n));
      let r := i32 r in
      (if 0 <? r then updf f (λ x, set_off (u32 (f_off x + r)) x) else mret tt);;
      onfs (Fs.iunlock (f_ip x));;
      mret (r, l)
  | FD_NONE => panic "fileread"
  end.

(** ((LOGSIZE-1-1-2) / 2) * 512 *)
Definition max_write : Z := 6656.

(** The loop of [filewrite], with [i] bytes written. *)
Fixpoint filewrite_loop (fuel : nat) (f ip : nat) (addr : list Z) (i n : Z) : M ost Z :=
  if i <? n then
    match fuel with
    | O => hang
    | S fuel =>
        let n1 := if max_write <? n - i then max_write else n - i in
        onfs Fs.begin_op;;
        onfs (Fs.ilock ip);;
        x ← fil f;
        r ← onfs (Fs.writei dev_write ip (drop (Z.to_nat i) addr) (f_off x) (u32 n1));
        (if 0 <? i32 r then updf f (λ x, set_off (u32 (f_off x + i32 r)) x) else mret tt);;
        onfs (Fs.iunlock ip);;
        onfs Fs.end_op;;
        if i32 r <? 0 then mret i else
        if negb (i32 r =? n1) then panic "short filewrite" else
        filewrite_loop fuel f ip addr (i + i32 r) n
    end
  else mret i.

Definition filewrite (killed : bool) (f : nat) (addr : list Z) (n : Z) : M ost Z :=
  x ← fil f;
  if negb (f_writable x) then mret (-1) else
  match f_type x with
  | FD_PIPE => await (onpipe (f_pipe x) (Pipe.pipewrite (Z.to_nat (f_pipe x)) killed (take (Z.to_nat n) addr) 0))
  | FD_INODE =>
      i ← filewrite_loop (S (Z.to_nat (n / max_write))) f (f_ip x) addr 0 n;
      mret (if i =? n then n else -1)
  | FD_NONE => panic "filewrite"
  end.
End devices.

(** ** Making a pipe (pipe.c) *)

Definition close_opt (f : option nat) : M ost unit :=
  match f with Some f => fileclose f | None => mret tt end.

(** [bad:] gives back what was allocated. *)
Definition pipe_bad (p : option Z) (f0 f1 : option nat) : M ost (option (nat * nat)) :=
  match p with Some p => kfree p | None => mret tt end;;
  close_opt f0;;
  close_opt f1;;
  mret None.

Definition pipealloc : M ost (option (nat * nat)) :=
  f0 ← filealloc;
  match f0 with
  | None => pipe_bad None None None
  | Some r =>
      f1 ← filealloc;
      match f1 with
      | None => pipe_bad None (Some r) None
      | Some w =>
          p ← kalloc;
          match p with
          | None => pipe_bad None (Some r) (Some w)
          | Some p =>
              modify (λ s, put_pp p (Pipe.pipeinit (Pipe.data (pipes s p))) s);;
              onfs (Fs.onlog (Log.initlock (Kern.LPipe (Z.to_nat p))));;
              updf r (set_pipe true false p);;
              updf w (set_pipe false true p);;
              mret (Some (r, w))
          end
      end
  end.

End File.
