(* ===== verification/Sysfile.v ===== *)
(** * File-system calls (sysfile.c)

    The calls run for one process: its memory and stack pointer (file Syscall),
    its open files and its current directory.  A call returns -1 where the C
    code does; the system-call arguments are fetched in the code's order. *)

From S2P Require Import Prelude CString Bytes Kern Log Fs Pipe File Syscall.
Local Open Scope Z_scope.

Module Sysfile.
Import Bytes.

Definition NOFILE : nat := 16.
Definition MAXARG : nat := 32.
Definition O_RDONLY : Z := 0.
Definition O_WRONLY : Z := 1.
Definition O_RDWR : Z := 2.
Definition O_CREATE : Z := 512.
(** UID, GID and MODE (0755) of a new file. *)
Definition UID : Z := 0.
Definition GID : Z := 0.
Definition MODE : Z := 493.

Record sst := mksst {
  os : File.ost;
  usr : Syscall.usr;
  ofile : list (option nat);
  cwd : nat;
  killed : bool
}.
Definition put_os (x : File.ost) (s : sst) : sst := mksst x (usr s) (ofile s) (cwd s) (killed s).
Definition put_usr (x : Syscall.usr) (s : sst) : sst := mksst (os s) x (ofile s) (cwd s) (killed s).
Definition put_ofile (x : list (option nat)) (s : sst) : sst := mksst (os s) (usr s) x (cwd s) (killed s).
Definition put_cwd (x : nat) (s : sst) : sst := mksst (os s) (usr s) (ofile s) x (killed s).

Definition onos {A} (m : M File.ost A) : M sst A := zoom os put_os m.
Definition onfs {A} (m : M Fs.fst A) : M sst A := onos (File.onfs m).

Definition argint (n : Z) : M sst (option Z) := gets (λ s, Syscall.argint (usr s) n).
Definition argptr (n size : Z) : M sst (option Z) := gets (λ s, Syscall.argptr (usr s) n size).
(** The string argument, as the bytes up to and including its terminator. *)
Definition argstr (n : Z) : M sst (option (list Z)) :=
  gets (λ s, Syscall.string_at (usr s) <$> Syscall.argstr (usr s) n).

(** Writing to the memory of the process. *)
Definition copyout (a : Z) (l : list Z) : M sst unit :=
  modify (λ s, put_usr (Syscall.mkusr (Syscall.u_sz (usr s)) (Syscall.u_esp (usr s))
                          (Syscall.put_bytes (Syscall.umem (usr s)) a l)) s).

(** The descriptor and the file. *)
Definition argfd (n : Z) : M sst (option (nat * nat)) :=
  a ← argint n;
  l ← gets ofile;
  mret (fd ← a;
        if (fd <? 0) || (Z.of_nat NOFILE <=? fd) then None else
        f ← mjoin (l !! Z.to_nat fd); Some (Z.to_nat fd, f)).

(** The first free descriptor. *)
Fixpoint free_fd (l : list (option nat)) (fd : nat) : option nat :=
  match l with
  | [] => None
  | None :: _ => Some fd
  | Some _ :: l => free_fd l (S fd)
  end.
Definition fdalloc (f : nat) : M sst (option nat) :=
  l ← gets ofile;
  match free_fd l 0 with
  | Some fd => modify (λ s, put_ofile (<[fd := Some f]> (ofile s)) s);; mret (Some fd)
  | None => mret None
  end.

Definition sys_dup : M sst Z :=
  a ← argfd 0;
  match a with
  | None => mret (-1)
  | Some (_, f) =>
      fd ← fdalloc f;
      match fd with
      | None => mret (-1)
      | Some fd => _ ← onos (File.filedup f); mret (Z.of_nat fd)
      end
  end.

(** [struct stat] in memory: 2 bytes of type, 2 of padding, dev, ino, 2 bytes
    of nlink, 2 of padding, size, uid, gid, mode; the padding in [x] stays. *)
Definition encode_stat (x : list Z) (st : Fs.stat) : list Z :=
  let x := put16 x 0 (u16 (Fs.st_type st)) in
  let x := put32 x 4 (u32 (Fs.st_dev st)) in
  let x := put32 x 8 (u32 (Fs.st_ino st)) in
  let x := put16 x 12 (u16 (Fs.st_nlink st)) in
  let x := put32 x 16 (u32 (Fs.st_size st)) in
  let x := put16 x 20 (u16 (Fs.st_uid st)) in
  let x := put16 x 22 (u16 (Fs.st_gid st)) in
  put32 x 24 (u32 (Fs.st_mode st)).

Section devices.
Context (dev_read : Z → option (nat → Z → M Fs.fst (Z * list Z))).
Context (dev_write : Z → option (nat → list Z → Z → M Fs.fst Z)).

Definition sys_read : M sst Z :=
  a ← argfd 0;
  n ← argint 2;
  match a, n with
  | Some (_, f), Some n =>
      p ← argptr 1 n;
      match p with
      | None => mret (-1)
      | Some p =>
          k ← gets killed;
          '(r, l) ← onos (File.fileread dev_read k f n);
          copyout p l;;
          mret r
      end
  | _, _ => mret (-1)
  end.

Definition sys_write : M sst Z :=
  a ← argfd 0;
  n ← argint 2;
  match a, n with
  | Some (_, f), Some n =>
      p ← argptr 1 n;
      match p with
      | None => mret (-1)
      | Some p =>
          k ← gets killed;
          l ← gets (λ s, Syscall.bytes_at (Syscall.umem (usr s)) p (Z.to_nat n));
          onos (File.filewrite dev_write k f l n)
      end
  | _, _ => mret (-1)
  end.

Definition sys_close : M sst Z :=
  a ← argfd 0;
  match a with
  | None => mret (-1)
  | Some (fd, f) =>
      modify (λ s, put_ofile (<[fd := None]> (ofile s)) s);;
      onos (File.fileclose f);;
      mret 0
  end.

Definition sys_fstat : M sst Z :=
  a ← argfd 0;
  p ← argptr 1 28;
  match a, p with
  | Some (_, f), Some p =>
      r ← onos (File.filestat f);
      match r with
      | Some st =>
          x ← gets (λ s, Syscall.bytes_at (Syscall.umem (usr s)) p 28);
          copyout p (encode_stat x st);;
          mret 0
      | None => mret (-1)
      end
  | _, _ => mret (-1)
  end.

Definition no_name : list Z := replicate Fs.DIRSIZ 0.

(** [bad:] of sys_link takes the link count back. *)
Definition link_bad (ip : nat) : M Fs.fst Z :=
  Fs.ilock ip;;
  Fs.upd ip (λ x, Fs.set_links (Fs.i_major x) (Fs.i_minor x) (Fs.i_nlink x - 1) x);;
  Fs.iupdate ip;;
  Fs.iunlockput ip;;
  Fs.end_op;;
  mret (-1).

Definition link (cw : nat) (old new : list Z) : M Fs.fst Z :=
  Fs.begin_op;;
  r ← Fs.namei dev_read cw old;
  match r with
  | None => Fs.end_op;; mret (-1)
  | Some ip =>
      Fs.ilock ip;;
      x ← Fs.ino ip;
      if Fs.i_type x =? Fs.T_DIR then Fs.iunlockput ip;; Fs.end_op;; mret (-1) else
      Fs.upd ip (λ x, Fs.set_links (Fs.i_major x) (Fs.i_minor x) (Fs.i_nlink x + 1) x);;
      Fs.iupdate ip;;
      Fs.iunlock ip;;
      '(dp, name) ← Fs.nameiparent dev_read cw new no_name;
      match dp with
      | None => link_bad ip
      | Some dp =>
          Fs.ilock dp;;
          d ← Fs.ino dp;
          x ← Fs.ino ip;
          r ← (if negb (Fs.i_dev d =? Fs.i_dev x) then mret (-1)
               else Fs.dirlink dev_read dev_write dp name (Fs.i_inum x));
          if r <? 0 then Fs.iunlockput dp;; link_bad ip else
          Fs.iunlockput dp;;
          Fs.iput ip;;
          Fs.end_op;;
          mret 0
      end
  end.

Definition sys_link : M sst Z :=
  old ← argstr 0;
  new ← argstr 1;
  match old, new with
  | Some old, Some new => cw ← gets cwd; onfs (link cw old new)
  | _, _ => mret (-1)
  end.

(** [off] starts behind "." and "..". *)
Definition isdirempty (d : nat) : M Fs.fst bool :=
  dp ← Fs.ino d;
  r ← Fs.step_for (S (Z.to_nat (Fs.i_size dp / 16))) 32 (Fs.i_size dp) 16 (λ off,
        '(r, de) ← Fs.readi dev_read d off 16;
        if negb (r =? 16) then panic "isdirempty: readi" else
        if negb (Fs.de_inum de =? 0) then mret (Some tt) else mret None);
  mret (match r with Some _ => false | None => true end).

Definition unlink_bad (dp : nat) : M Fs.fst Z :=
  Fs.iunlockput dp;; Fs.end_op;; mret (-1).

Definition unlink (cw : nat) (path : list Z) : M Fs.fst Z :=
  Fs.begin_op;;
  '(dp, name) ← Fs.nameiparent dev_read cw path no_name;
  match dp with
  | None => Fs.end_op;; mret (-1)
  | Some dp =>
      Fs.ilock dp;;
      c1 ← Fs.lift (Fs.namecmp name [46; 0]);
      c2 ← (if c1 =? 0 then mret 0 else Fs.lift (Fs.namecmp name [46; 46; 0]));
      if (c1 =? 0) || (c2 =? 0) then unlink_bad dp else
      r ← Fs.dirlookup dev_read dp name;
      match r with
      | None => unlink_bad dp
      | Some (ip, off) =>
          Fs.ilock ip;;
          x ← Fs.ino ip;
          if Fs.i_nlink x <? 1 then panic "unlink: nlink < 1" else
          e ← (if Fs.i_type x =? Fs.T_DIR then isdirempty ip else mret true);
          if negb e then Fs.iunlockput ip;; unlink_bad dp else
          r ← Fs.writei dev_write dp (replicate 16 0) off 16;
          if negb (r =? 16) then panic "unlink: writei" else
          x ← Fs.ino ip;
          (if Fs.i_type x =? Fs.T_DIR then
             Fs.upd dp (λ d, Fs.set_links (Fs.i_major d) (Fs.i_minor d) (Fs.i_nlink d - 1) d);;
             Fs.iupdate dp
           else mret tt);;
          Fs.iunlockput dp;;
          Fs.upd ip (λ x, Fs.set_links (Fs.i_major x) (Fs.i_minor x) (Fs.i_nlink x - 1) x);;
          Fs.iupdate ip;;
          Fs.iunlockput ip;;
          Fs.end_op;;
          mret 0
      end
  end.

Definition sys_unlink : M sst Z :=
  path ← argstr 0;
  match path with
  | Some path => cw ← gets cwd; onfs (unlink cw path)
  | None => mret (-1)
  end.

(** The new inode, locked. *)
Definition create (cw : nat) (path : list Z) (type major minor : Z) : M Fs.fst (option nat) :=
  '(dp, name) ← Fs.nameiparent dev_read cw path no_name;
  match dp with
  | None => mret None
  | Some dp =>
      Fs.ilock dp;;
      r ← Fs.dirlookup dev_read dp name;
      match r with
      | Some (ip, _) =>
          Fs.iunlockput dp;;
          Fs.ilock ip;;
          x ← Fs.ino ip;
          if (type =? Fs.T_FILE) && (Fs.i_type x =? Fs.T_FILE) then mret (Some ip) else
          Fs.iunlockput ip;;
          mret None
      | None =>
          d ← Fs.ino dp;
          ip ← Fs.ialloc (Fs.i_dev d) type;
          Fs.ilock ip;;
          Fs.upd ip (Fs.set_links (i16 major) (i16 minor) 1);;
          Fs.upd ip (Fs.set_owner UID GID MODE);;
          Fs.iupdate ip;;
          x ← Fs.ino ip;
          (if type =? Fs.T_DIR then
             Fs.upd dp (λ d, Fs.set_links (Fs.i_major d) (Fs.i_minor d) (Fs.i_nlink d + 1) d);;
             Fs.iupdate dp;;
             r1 ← Fs.dirlink dev_read dev_write ip [46; 0] (Fs.i_inum x);
             r2 ← (if r1 <? 0 then mret (-1) else Fs.dirlink dev_read dev_write ip [46; 46; 0] (Fs.i_inum d));
             if r2 <? 0 then panic "create dots" else mret tt
           else mret tt);;
          r ← Fs.dirlink dev_read dev_write dp name (Fs.i_inum x);
          if r <? 0 then panic "create: dirlink" else
          Fs.iunlockput dp;;
          mret (Some ip)
      end
  end.

Definition flag (m b : Z) : bool := negb (Z.land m b =? 0).

(** The inode to open, locked, inside the transaction. *)
Definition open_inode (cw : nat) (path : list Z) (omode : Z) : M Fs.fst (option nat) :=
  Fs.begin_op;;
  if flag omode O_CREATE then
    r ← create cw path Fs.T_FILE 0 0;
    match r with
    | None => Fs.end_op;; mret None
    | Some ip => mret (Some ip)
    end
  else
    r ← Fs.namei dev_read cw path;
    match r with
    | None => Fs.end_op;; mret None
    | Some ip =>
        Fs.ilock ip;;
        x ← Fs.ino ip;
        if (Fs.i_type x =? Fs.T_DIR) && negb (omode =? O_RDONLY)
        then Fs.iunlockput ip;; Fs.end_op;; mret None
        else mret (Some ip)
    end.

Definition sys_open : M sst Z :=
  path ← argstr 0;
  omode ← argint 1;
  match path, omode with
  | Some path, Some omode =>
      cw ← gets cwd;
      r ← onfs (open_inode cw path omode);
      match r with
      | None => mret (-1)
      | Some ip =>
          f ← onos File.filealloc;
          fd ← (match f with Some f => fdalloc f | None => mret None end);
          match f, fd with
          | Some f, Some fd =>
              onfs (Fs.iunlock ip);;
              onfs Fs.end_op;;
              onos (File.updf f (File.set_inode (negb (flag omode O_WRONLY)) (flag omode O_WRONLY || flag omode O_RDWR) ip));;
              mret (Z.of_nat fd)
          | _, _ =>
              onos (File.close_opt f);;
              onfs (Fs.iunlockput ip);;
              onfs Fs.end_op;;
              mret (-1)
          end
      end
  | _, _ => mret (-1)
  end.

Definition sys_mkdir : M sst Z :=
  onfs Fs.begin_op;;
  path ← argstr 0;
  cw ← gets cwd;
  ip ← (match path with Some path => onfs (create cw path Fs.T_DIR 0 0) | None => mret None end);
  match ip with
  | None => onfs Fs.end_op;; mret (-1)
  | Some ip => onfs (Fs.iunlockput ip);; onfs Fs.end_op;; mret 0
  end.

Definition sys_mknod : M sst Z :=
  onfs Fs.begin_op;;
  path ← argstr 0;
  major ← argint 1;
  minor ← argint 2;
  cw ← gets cwd;
  ip ← (match path, major, minor with
        | Some path, Some major, Some minor => onfs (create cw path Fs.T_DEV major minor)
        | _, _, _ => mret None
        end);
  match ip with
  | None => onfs Fs.end_op;; mret (-1)
  | Some ip => onfs (Fs.iunlockput ip);; onfs Fs.end_op;; mret 0
  end.

Definition sys_chdir : M sst Z :=
  onfs Fs.begin_op;;
  path ← argstr 0;
  cw ← gets cwd;
  ip ← (match path with Some path => onfs (Fs.namei dev_read cw path) | None => mret None end);
  match ip with
  | None => onfs Fs.end_op;; mret (-1)
  | Some ip =>
      onfs (Fs.ilock ip);;
      x ← onfs (Fs.ino ip);
      if negb (Fs.i_type x =? Fs.T_DIR) then onfs (Fs.iunlockput ip);; onfs Fs.end_op;; mret (-1) else
      onfs (Fs.iunlock ip);;
      onfs (Fs.iput cw);;
      onfs Fs.end_op;;
      modify (put_cwd ip);;
      mret 0
  end.

(** The arguments of sys_exec: what it passes to exec, or [None] for -1. *)
Fixpoint exec_argv (n : nat) (u : Syscall.usr) (uargv : Z) (i : Z) : option (list (list Z)) :=
  match n with
  | O => None
  | S n =>
      uarg ← Syscall.fetchint u (u32 (uargv + 4 * i));
      if uarg =? 0 then Some [] else
      len ← Syscall.fetchstr u (u32 uarg);
      rest ← exec_argv n u uargv (i + 1);
      Some (Syscall.string_at u (u32 uarg, len) :: rest)
  end.
Definition sys_exec_args (u : Syscall.usr) : option (list Z * list (list Z)) :=
  path ← Syscall.argstr u 0;
  uargv ← Syscall.argint u 1;
  argv ← exec_argv MAXARG u (u32 uargv) 0;
  Some (Syscall.string_at u path, argv).

Definition word_bytes (w : Z) : list Z := put32 (replicate 4 0) 0 (u32 w).

Definition sys_pipe : M sst Z :=
  fd ← argptr 0 8;
  match fd with
  | None => mret (-1)
  | Some fd =>
      r ← onos File.pipealloc;
      match r with
      | None => mret (-1)
      | Some (rf, wf) =>
          fd0 ← fdalloc rf;
          fd1 ← (match fd0 with Some _ => fdalloc wf | None => mret None end);
          match fd0, fd1 with
          | Some fd0, Some fd1 =>
              copyout fd (word_bytes (Z.of_nat fd0));;
              copyout (fd + 4) (word_bytes (Z.of_nat fd1));;
              mret 0
          | _, _ =>
              (match fd0 with
               | Some fd0 => modify (λ s, put_ofile (<[fd0 := None]> (ofile s)) s)
               | None => mret tt
               end);;
              onos (File.fileclose rf);;
              onos (File.fileclose wf);;
              mret (-1)
          end
      end
  end.

(** The results of argint and argptr are not looked at: an argument that was
    not fetched is [dflt], what the uninitialised variable holds.  The path is
    read from the memory of the process; reading on past its end faults. *)
Definition path_at (s : sst) (p : Z) : list Z :=
  Syscall.bytes_at (Syscall.umem (usr s)) p (Z.to_nat (Syscall.u_sz (usr s) - p)).

Definition sys_chown (dflt_uid dflt_path : Z) : M sst Z :=
  uid ← argint 1;
  path ← argptr 0 1;
  cw ← gets cwd;
  p ← gets (λ s, path_at s (default dflt_path path));
  onfs (Fs.chown dev_read cw p (default dflt_uid uid)).
Definition sys_chgrp (dflt_gid dflt_path : Z) : M sst Z :=
  gid ← argint 1;
  path ← argptr 0 1;
  cw ← gets cwd;
  p ← gets (λ s, path_at s (default dflt_path path));
  onfs (Fs.chgrp dev_read cw p (default dflt_gid gid)).
Definition sys_chmod (dflt_mode dflt_path : Z) : M sst Z :=
  mode ← argint 1;
  path ← argptr 0 1;
  cw ← gets cwd;
  p ← gets (λ s, path_at s (default dflt_path path));
  onfs (Fs.chmod dev_read cw p (default dflt_mode mode)).
End devices.

End Sysfile.
