(* ===== verification/Exec.v ===== *)
(** * Loading programs (exec.c, elf.h)

    exec runs on the file system, the page tables and the calling process.  The
    kernel's stack, on which the headers are read, holds [junk] before.  The
    call of switchuvm, which loads the new directory into the CPU, changes none
    of this state.

    [load] is loaduvm of vm.c with the reads it makes of the file. *)

From S2P Require Import Prelude CString Spinlock Bytes Kern Log Fs Kalloc Vm VmSpec VmOut.
Local Open Scope Z_scope.

Module Exec.
Import Kalloc Vm.

Definition MAXARG : nat := 32.
Definition ELF_MAGIC : Z := 1179403647.
Definition ELF_PROG_LOAD : Z := 1.

(** The fields of the calling process that exec reads and writes. *)
Record eproc := mkeproc {
  p_pgdir : Z; p_sz : Z; p_eip : Z; p_esp : Z; p_uid : Z; p_gid : Z; p_name : list Z
}.
Record est := mkest { vm : kst; fsys : Fs.fst; self : eproc; cwd : nat }.
Definition put_vm (x : kst) (s : est) : est := mkest x (fsys s) (self s) (cwd s).
Definition put_fsys (x : Fs.fst) (s : est) : est := mkest (vm s) x (self s) (cwd s).
Definition put_self (x : eproc) (s : est) : est := mkest (vm s) (fsys s) x (cwd s).
Definition onvm {A} (m : M kst A) : M est A := zoom vm put_vm m.
Definition onfs {A} (m : M Fs.fst A) : M est A := zoom fsys put_fsys m.

(** Headers: a [struct elfhdr] of 52 bytes and a [struct proghdr] of 32. *)
Definition elf_magic (h : list Z) : Z := Bytes.get32 h 0.
Definition elf_entry (h : list Z) : Z := Bytes.get32 h 24.
Definition elf_phoff (h : list Z) : Z := Bytes.get32 h 28.
Definition elf_phnum (h : list Z) : Z := Bytes.get16 h 44.
Definition ph_type (h : list Z) : Z := Bytes.get32 h 0.
Definition ph_off (h : list Z) : Z := Bytes.get32 h 4.
Definition ph_vaddr (h : list Z) : Z := Bytes.get32 h 8.
Definition ph_filesz (h : list Z) : Z := Bytes.get32 h 16.
Definition ph_memsz (h : list Z) : Z := Bytes.get32 h 20.

(** The permission bits of the mode: [o_x], [g_x], [u_x] and [setuid]. *)
Definition o_x (mode : Z) : bool := Z.testbit mode 0.
Definition g_x (mode : Z) : bool := Z.testbit mode 3.
Definition u_x (mode : Z) : bool := Z.testbit mode 6.
Definition setuid_bit (mode : Z) : bool := Z.testbit mode 9.
Definition may_exec (uid gid : Z) (ip : Fs.inode) : bool :=
  if uid =? Fs.i_uid ip then u_x (Fs.i_mode ip)
  else if gid =? Fs.i_gid ip then g_x (Fs.i_mode ip)
  else o_x (Fs.i_mode ip).

(** The bytes of 32-bit words, little-endian. *)
Definition word_bytes (w : Z) : list Z := [w mod 256; (w / 256) mod 256; (w / 65536) mod 256; (w / 16777216) mod 256].
Definition words_bytes (ws : list Z) : list Z := concat (word_bytes <$> ws).

Section exec.
Context (kend kdata : Z) (c : nat) (dev_read : Z → option (nat → Z → M Fs.fst (Z * list Z))) (junk : list Z).

(** ** The user stack *)

(** Pushing argument strings (without their terminators) from index [argc] on:
    the new stack pointer and the addresses, or [None] for [goto bad]. *)
Fixpoint push_args (pgdir : Z) (argc : nat) (argv : list (list Z)) (sp : Z) (ustack : list Z) : M kst (option (Z * list Z)) :=
  match argv with
  | [] => mret (Some (sp, ustack))
  | a :: argv =>
      if decide (MAXARG <= argc)%nat then mret None else
      let sp := Z.land (u32 (sp - (Z.of_nat (length a) + 1))) (u32 (Z.lnot 3)) in
      r ← copyout c pgdir sp (a ++ [0]);
      if r <? 0 then mret None else push_args pgdir (S argc) argv sp (ustack ++ [sp])
  end.

Definition setup_stack (pgdir : Z) (argv : list (list Z)) (sp : Z) : M kst (option Z) :=
  r ← push_args pgdir 0 argv sp [];
  match r with
  | None => mret None
  | Some (sp, ptrs) =>
      let argc := Z.of_nat (length argv) in
      let ustack := [4294967295; argc; u32 (sp - (argc + 1) * 4)] ++ ptrs ++ [0] in
      let sp := u32 (sp - (3 + argc + 1) * 4) in
      r ← copyout c pgdir sp (words_bytes ustack);
      if r <? 0 then mret None else mret (Some sp)
  end.

(** ** Segments *)

Fixpoint load (fuel : nat) (ip : nat) (pgdir va offset sz i : Z) : M est Z :=
  if i <? sz then
    match fuel with
    | O => hang
    | S fuel =>
        r ← onvm (walkpgdir c pgdir (u32 (va + i)) false);
        match r with
        | None => panic "loaduvm: address should exist"
        | Some pte =>
            e ← onvm (ld pte);
            let pa := PTE_ADDR e in
            let n := if sz - i <? PGSIZE then sz - i else PGSIZE in
            '(k, bs) ← onfs (Fs.readi dev_read ip (u32 (offset + i)) n);
            onvm (modify (λ s, put_mem (put_bytes (memory s) (p2v pa) bs) s));;
            if negb (k =? n) then mret (-1) else load fuel ip pgdir va offset sz (u32 (i + PGSIZE))
        end
    end
  else mret 0.
Definition loaduvm (pgdir va : Z) (ip : nat) (offset sz : Z) : M est Z :=
  if negb (va mod PGSIZE =? 0) then panic "loaduvm: addr must be page aligned" else
  load (S (Z.to_nat (sz / PGSIZE))) ip pgdir va offset sz 0.

(** The loop over the program headers, [k] of which are left: the size, or
    [None] for [goto bad]. *)
Fixpoint load_segments (k : nat) (ip : nat) (pgdir off sz : Z) : M est (option Z) :=
  match k with
  | O => mret (Some sz)
  | S k =>
      '(n, ph) ← onfs (Fs.readi dev_read ip (u32 off) 32);
      if negb (n =? 32) then mret None else
      if negb (ph_type ph =? ELF_PROG_LOAD) then load_segments k ip pgdir (off + 32) sz else
      if ph_memsz ph <? ph_filesz ph then mret None else
      sz ← onvm (allocuvm kend c pgdir sz (u32 (ph_vaddr ph + ph_memsz ph)));
      if sz =? 0 then mret None else
      r ← loaduvm pgdir (ph_vaddr ph) ip (ph_off ph) (ph_filesz ph);
      if r <? 0 then mret None else
      load_segments k ip pgdir (off + 32) sz
  end.

(** ** exec *)

(** [bad:], with the inode still locked or already released. *)
Definition bad (pgdir : option Z) (ip : option nat) : M est Z :=
  (match pgdir with Some d => onvm (freevm kend c d) | None => mret tt end);;
  (match ip with Some i => onfs (Fs.iunlockput i);; onfs Fs.end_op | None => mret tt end);;
  mret (-1).

(** What follows the last slash. *)
Fixpoint last_elem (last s : list Z) : list Z :=
  match s with
  | [] => last
  | x :: s => last_elem (if x =? 47 then s else last) s
  end.

(** Commit to the user image. *)
Definition commit (path : list Z) (pgdir sz entry sp : Z) (setuid : option Z) : M est Z :=
  p ← gets self;
  match CString.safestrcpy (p_name p) (last_elem path path ++ [0]) 16 with
  | None => fault "safestrcpy"
  | Some name =>
      modify (put_self (mkeproc pgdir sz entry sp (default (p_uid p) setuid) (p_gid p) name));;
      onvm (freevm kend c (p_pgdir p));;
      mret 0
  end.

(** The part after the file has been read. *)
Definition finish (path : list Z) (argv : list (list Z)) (pgdir sz entry : Z) (setuid : option Z) : M est Z :=
  let sz := PGROUNDUP sz in
  sz ← onvm (allocuvm kend c pgdir sz (u32 (sz + 2 * PGSIZE)));
  if sz =? 0 then bad (Some pgdir) None else
  onvm (clearpteu c pgdir (u32 (sz - 2 * PGSIZE)));;
  r ← onvm (setup_stack pgdir argv sz);
  match r with
  | None => bad (Some pgdir) None
  | Some sp => commit path pgdir sz entry sp setuid
  end.

(** The part with the inode locked.  The number of bytes read is compared as an
    unsigned number. *)
Definition exec_inode (path : list Z) (argv : list (list Z)) (i : nat) : M est Z :=
  '(n, bs) ← onfs (Fs.readi dev_read i 0 52);
  let elf := bs ++ drop (length bs) junk in
  if u32 n <? 52 then bad None (Some i) else
  if negb (elf_magic elf =? ELF_MAGIC) then bad None (Some i) else
  d ← onvm (setupkvm kdata c);
  match d with
  | None => bad None (Some i)
  | Some pgdir =>
      p ← gets self;
      ip ← onfs (Fs.ino i);
      if negb (may_exec (p_uid p) (p_gid p) ip) then bad (Some pgdir) (Some i) else
      let setuid := if setuid_bit (Fs.i_mode ip) then Some (Fs.i_uid ip) else None in
      r ← load_segments (Z.to_nat (elf_phnum elf)) i pgdir (elf_phoff elf) 0;
      match r with
      | None => bad (Some pgdir) (Some i)
      | Some sz =>
          onfs (Fs.iunlockput i);;
          onfs Fs.end_op;;
          finish path argv pgdir sz (elf_entry elf) setuid
      end
  end.

Definition exec (path : list Z) (argv : list (list Z)) : M est Z :=
  onfs Fs.begin_op;;
  w ← gets cwd;
  ip ← onfs (Fs.namei dev_read w (path ++ [0]));
  match ip with
  | None => onfs Fs.end_op;; mret (-1)
  | Some i => onfs (Fs.ilock i);; exec_inode path argv i
  end.
End exec.
End Exec.
