(* ===== verification/ExecProps.v ===== *)
(** * Properties of exec

    The stack on which a program starts, and what exec leaves alone when it
    fails. *)

From S2P Require Import Prelude CString Spinlock Bytes Kern Log Fs FsSpec FsDemo Kalloc Vm VmSpec VmOut VmUser VmCopy VmProps Exec.
Local Open Scope Z_scope.

Module ExecProps.
Import Kalloc Vm VmSpec VmOut VmUser VmCopy VmProps Exec.

(** ** Words and alignment *)

Lemma mask_word a : 0 <= a < w32 → Z.land a (u32 (Z.lnot 3)) = a / 4 * 4.
Proof.
  intros Ha. change (u32 (Z.lnot 3)) with (Z.ones 30 * 2 ^ 2). rewrite <-Z.shiftl_mul_pow2 by lia. change 4 with (2 ^ 2).
  rewrite <-Z.shiftr_div_pow2, <-Z.shiftl_mul_pow2 by lia. apply Z.bits_inj'. intros i Hi. rewrite Z.land_spec.
  destruct (Z.ltb_spec i 2).
  - rewrite !Z.shiftl_spec_low by lia. apply andb_false_r.
  - rewrite !Z.shiftl_spec_high, Z.shiftr_spec by lia. replace (i - 2 + 2) with i by lia. destruct (Z.ltb_spec i 32).
    + rewrite Z.ones_spec_low by lia. apply andb_true_r.
    + rewrite Z.ones_spec_high by lia. rewrite andb_false_r. symmetry. apply Z.testbit_false; [lia|].
      rewrite Z.div_small; [done|]. split; [lia|]. eapply Z.lt_le_trans; [apply Ha|]. change w32 with (2 ^ 32). apply Z.pow_le_mono_r; lia.
Qed.

(** The room that a string takes. *)
Definition room (a : list Z) : Z := (Z.of_nat (length a) + 4) / 4 * 4.
Definition rooms (argv : list (list Z)) : Z := foldr (λ a n, room a + n) 0 argv.

Lemma push_address sp a : sp mod 4 = 0 → room a <= sp < w32 →
  Z.land (u32 (sp - (Z.of_nat (length a) + 1))) (u32 (Z.lnot 3)) = sp - room a.
Proof.
  intros Hm Hr. unfold room in *. pose proof (Z.div_mod (Z.of_nat (length a) + 4) 4). pose proof (Z.mod_pos_bound (Z.of_nat (length a) + 4) 4).
  rewrite u32_small by lia. rewrite mask_word by lia. pose proof (Z.div_mod (sp - (Z.of_nat (length a) + 1)) 4).
  pose proof (Z.mod_pos_bound (sp - (Z.of_nat (length a) + 1)) 4). pose proof (Z.div_mod sp 4). lia.
Qed.
Lemma room_pos a : Z.of_nat (length a) + 1 <= room a ∧ room a mod 4 = 0.
Proof.
  unfold room. pose proof (Z.div_mod (Z.of_nat (length a) + 4) 4). pose proof (Z.mod_pos_bound (Z.of_nat (length a) + 4) 4).
  split; [lia|]. by apply Z.mod_mul.
Qed.
Lemma rooms_pos argv : 0 <= rooms argv ∧ rooms argv mod 4 = 0.
Proof.
  induction argv as [|a argv [IH1 IH2]]; [done|]. cbn. fold (rooms argv). destruct (room_pos a) as [H1 H2]. split; [lia|].
  rewrite Z.add_mod, H2, IH2 by done. done.
Qed.

(** ** The user's view *)

(** The bytes [l] are at address [p]. *)
Definition ubytes (m : mem) (d p : Z) (l : list Z) : Prop := ∀ k x, l !! k = Some x → uread m d (p + Z.of_nat k) = x.
(** The word at address [p]. *)
Definition uword (m : mem) (d p : Z) : Z :=
  uread m d p + 256 * uread m d (p + 1) + 65536 * uread m d (p + 2) + 16777216 * uread m d (p + 3).

Lemma word_bytes_value w : 0 <= w < w32 →
  w mod 256 + 256 * ((w / 256) mod 256) + 65536 * ((w / 65536) mod 256) + 16777216 * ((w / 16777216) mod 256) = w.
Proof.
  intros Hw. unfold w32 in Hw. change 65536 with (256 * 256). change 16777216 with (256 * 256 * 256).
  rewrite <-!Z.div_div by lia. set (q := w / 256). set (r := q / 256). 
  pose proof (Z.div_mod w 256) as E1. pose proof (Z.div_mod q 256) as E2. pose proof (Z.div_mod r 256) as E3.
  fold q in E1. fold r in E2. pose proof (Z.div_lt_upper_bound w 256 16777216). pose proof (Z.div_lt_upper_bound q 256 65536).
  pose proof (Z.div_lt_upper_bound r 256 256). assert (0 <= q) by (apply Z.div_pos; lia). assert (0 <= r) by (apply Z.div_pos; lia).
  rewrite (Z.mod_small (r / 256)) by (split; [apply Z.div_pos|]; lia). lia.
Qed.
Lemma words_lookup ws i w (j : nat) : ws !! i = Some w → (j < 4)%nat → words_bytes ws !! (4 * i + j)%nat = word_bytes w !! j.
Proof.
  revert i. induction ws as [|v ws IH]; intros i Hi Hj; [done|]. unfold words_bytes. cbn [fmap list_fmap concat].
  destruct i as [|i].
  - injection Hi as ->. rewrite lookup_app_l by (cbn; lia). f_equal.
  - rewrite lookup_app_r by (cbn; lia). change (length (word_bytes v)) with 4%nat. fold (words_bytes ws).
    replace (4 * S i + j - 4)%nat with (4 * i + j)%nat by lia. by apply IH.
Qed.
Lemma words_length ws : length (words_bytes ws) = (4 * length ws)%nat.
Proof. induction ws as [|v ws IH]; [done|]. unfold words_bytes in *. cbn [fmap list_fmap concat]. rewrite length_app, IH. cbn. lia. Qed.
Lemma ubytes_word m d p ws i w : ubytes m d p (words_bytes ws) → ws !! i = Some w → 0 <= w < w32 → uword m d (p + 4 * Z.of_nat i) = w.
Proof.
  intros Hu Hi Hw. assert (H : ∀ j b, word_bytes w !! j = Some b → (j < 4)%nat → uread m d (p + 4 * Z.of_nat i + Z.of_nat j) = b).
  { intros j b Hj Hlt. rewrite <-(Hu (4 * i + j)%nat b) by (by rewrite (words_lookup ws i w)). f_equal. lia. }
  unfold uword. rewrite <-(Z.add_0_r (p + 4 * Z.of_nat i)) at 1. change 0 with (Z.of_nat 0) at 1. change 1 with (Z.of_nat 1) at 1.
  change 2 with (Z.of_nat 2) at 1. change 3 with (Z.of_nat 3) at 1.
  rewrite (H 0%nat (w mod 256)), (H 1%nat ((w / 256) mod 256)), (H 2%nat ((w / 65536) mod 256)), (H 3%nat ((w / 16777216) mod 256)) by (done || lia).
  by apply word_bytes_value.
Qed.

(** ** Building the stack *)

Section stack.
Context (kend : Z) `{mode : Mode} (c : nat) (d : Z) (l : list Z).

(** The stack's pages are there and for the user. *)
Definition writable (m : mem) (lo hi : Z) : Prop := ∀ a, lo <= a < hi → usable m d (a / 4096).

(** From [s] to [s'] only bytes from [lo] to [hi] change. *)
Record stacked (lo hi : Z) (s s' : kst) : Prop := {
  sk_vs : vs kend c s' d l;
  sk_user : user_ok kend (memory s') d l;
  sk_entry i : 0 <= i < NPAGES → entry (memory s') d i = entry (memory s) d i;
  sk_other a : 0 <= a < KERNBASE → has (entry (memory s) d (a / 4096)) PTE_P = true → ¬ lo <= a < hi →
    uread (memory s') d a = uread (memory s) d a
}.
Lemma page_range a : 0 <= a < KERNBASE → 0 <= a / 4096 < NPAGES.
Proof using. intros Ha. split; [apply Z.div_pos; lia|apply Z.div_lt_upper_bound; unfold NPAGES, KERNBASE in *; lia]. Qed.

Lemma stacked_trans lo lo' hi hi' s s1 s2 : lo <= lo' → hi' <= hi → lo' <= hi → lo <= hi' →
  stacked lo' hi s s1 → stacked lo hi' s1 s2 → stacked lo hi s s2.
Proof using.
  intros H1 H2 H3 H4 [A1 A2 A3 A4] [B1 B2 B3 B4]. constructor; [done|done|intros; by rewrite B3, A3|].
  intros a Ha Hp Hn. rewrite B4, A4; try done; try lia. rewrite A3; [done|]. by apply page_range.
Qed.

Lemma writable_kept lo hi s s' lo' hi' : stacked lo hi s s' → 0 <= lo' → hi' <= KERNBASE → writable (memory s) lo' hi' → writable (memory s') lo' hi'.
Proof using.
  intros H H0 H1 Hw a Ha. unfold usable. rewrite (sk_entry _ _ _ _ H) by (apply page_range; lia). by apply Hw.
Qed.

Lemma wp_push va p s (Q : Z → kst → Prop) : vs kend c s d l → user_ok kend (memory s) d l → 0 <= va → va + Z.of_nat (length p) <= KERNBASE →
  writable (memory s) va (va + Z.of_nat (length p)) →
  (∀ s', stacked va (va + Z.of_nat (length p)) s s' → ubytes (memory s') d va p → Q 0 s') → wp (copyout c d va p) Q s.
Proof using.
  intros V U H0 H1 Hw HQ. unfold copyout. apply (wp_copyout_loop kend c d l); try done. intros s' [W1 W2 W3 W4 _]. apply HQ.
  - constructor; try done. intros a Ha Hp Hn. rewrite W4 by done. by rewrite decide_False.
  - intros k x Hk. pose proof (lookup_lt_Some _ _ _ Hk) as Hlt. rewrite W4; [|lia|apply Hw; lia]. rewrite decide_True by lia.
    replace (Z.to_nat (va + Z.of_nat k - va)) with k by lia. by apply nth_lookup_Some.
Qed.

(** Bytes that later writes do not reach are still there. *)
Lemma ubytes_kept lo hi s s' p bs : stacked lo hi s s' → 0 <= p → p + Z.of_nat (length bs) <= KERNBASE → writable (memory s) p (p + Z.of_nat (length bs)) →
  hi <= p → ubytes (memory s) d p bs → ubytes (memory s') d p bs.
Proof using.
  intros H H0 H1 Hw Hh Hb k x Hk. pose proof (lookup_lt_Some _ _ _ Hk). rewrite (sk_other _ _ _ _ H); [by apply Hb|lia|apply Hw; lia|lia].
Qed.

(** Where the strings are. *)
Definition strings (m : mem) (lo hi : Z) (argv : list (list Z)) (ptrs : list Z) : Prop :=
  Forall2 (λ a p, ubytes m d p (a ++ [0]) ∧ lo <= p ∧ p + Z.of_nat (length a) + 1 <= hi) argv ptrs.

Lemma wp_push_args lo argv : ∀ argc sp ust s (Q : option (Z * list Z) → kst → Prop),
  vs kend c s d l → user_ok kend (memory s) d l → 0 <= lo → sp <= KERNBASE → sp mod 4 = 0 → (argc + length argv <= MAXARG)%nat →
  lo + rooms argv <= sp → writable (memory s) lo sp →
  (∀ s' ptrs, stacked (sp - rooms argv) sp s s' → strings (memory s') (sp - rooms argv) sp argv ptrs → Q (Some (sp - rooms argv, ust ++ ptrs)) s') →
  wp (push_args c d argc argv sp ust) Q s.
Proof using.
  induction argv as [|a argv IH]; intros argc sp ust s Q V U Hlo Hsp Hm Hc Hr Hw HQ; cbn [push_args].
  { apply wp_ret. specialize (HQ s []). cbn in HQ. rewrite Z.sub_0_r, app_nil_r in HQ. apply HQ; [by constructor|constructor]. }
  cbn [length] in Hc. rewrite decide_False by lia. destruct (room_pos a) as [Hra Hrm]. destruct (rooms_pos argv) as [Hrs _].
  change (rooms (a :: argv)) with (room a + rooms argv) in *.
  rewrite push_address by (unfold KERNBASE, w32 in *; lia). set (sp1 := sp - room a) in *.
  assert (Hla : Z.of_nat (length (a ++ [0])) = Z.of_nat (length a) + 1) by (rewrite length_app; cbn; lia).
  apply wp_bind, wp_push; [done|done|lia|rewrite Hla; lia|intros x Hx; apply Hw; rewrite Hla in Hx; lia|]. rewrite Hla.
  intros s1 K1 B1. cbn [Z.ltb Z.compare]. assert (Hm1 : sp1 mod 4 = 0) by (unfold sp1; rewrite Zminus_mod, Hm, Hrm; done).
  apply IH; [apply K1|apply K1|done|lia|done|lia|lia| |].
  { eapply writable_kept; [done|done|lia|]. intros x Hx. apply Hw. lia. }
  intros s' ptrs K2 S2. rewrite <-app_assoc. cbn [app]. replace (sp1 - rooms argv) with (sp - (room a + rooms argv)) in * by lia.
  apply HQ.
  - eapply (stacked_trans _ sp1 _ sp1); [lia|lia|lia|lia| |exact K2]. destruct K1 as [A1 A2 A3 A4]. constructor; try done.
    intros x Hx Hp Hn. apply A4; [done|done|lia].
  - constructor.
    + split; [|lia]. eapply ubytes_kept; [exact K2|lia|rewrite Hla; lia| |lia|done]. rewrite Hla. eapply writable_kept; [exact K1|lia|lia|].
      intros x Hx. apply Hw. lia.
    + eapply Forall2_impl; [exact S2|]. cbn. intros b p (H1 & H2 & H3). split; [done|]. lia.
Qed.
End stack.

(** C33: the stack a program starts with.  Given a directory whose pages from
    [lo] to [top] are the user's, and arguments that fit, at most MAXARG of
    them, building the stack succeeds.  At the stack pointer the program finds
    a return address of all ones, the number of arguments and the address of
    the vector that follows: one pointer for each argument, to a copy of its
    string with the terminating zero above the vector, and a null pointer.  The
    pointer is aligned, and nothing outside the stack changes. *)
Theorem exec_stack kend c d l (s : kst) (argv : list (list Z)) (lo top : Z) :
  vs kend c s d l → user_ok kend (memory s) d l → 0 <= lo → top <= KERNBASE → top mod 4 = 0 → (length argv <= MAXARG)%nat →
  lo + rooms argv + 4 * (Z.of_nat (length argv) + 4) <= top → writable d (memory s) lo top →
  ∃ sp s' ptrs, setup_stack c d argv top s = Ok (Some sp) s' ∧ lo <= sp ∧ sp mod 4 = 0 ∧
    uword (memory s') d sp = 4294967295 ∧ uword (memory s') d (sp + 4) = Z.of_nat (length argv) ∧ uword (memory s') d (sp + 8) = sp + 12 ∧
    strings d (memory s') (sp + 16 + 4 * Z.of_nat (length argv)) top argv ptrs ∧
    (∀ i p, ptrs !! i = Some p → uword (memory s') d (sp + 12 + 4 * Z.of_nat i) = p) ∧
    uword (memory s') d (sp + 12 + 4 * Z.of_nat (length argv)) = 0 ∧ stacked kend c d l sp top s s'.
Proof.
  intros V U Hlo Htop Hm Hc Hr Hw. set (n := Z.of_nat (length argv)) in *. destruct (rooms_pos argv) as [Hrs Hrm].
  set (sp1 := top - rooms argv). set (sp := sp1 - 4 * (n + 4)).
  assert (Hsp1 : sp1 mod 4 = 0) by (unfold sp1; rewrite Zminus_mod, Hm, Hrm; done).
  assert (Hspm : sp mod 4 = 0) by (unfold sp; rewrite Zminus_mod, Hsp1, Z.mul_comm, Z.mod_mul by done; done).
  assert (Hn : 0 <= n <= 32) by (unfold n, MAXARG in *; lia).
  destruct (wp_total (setup_stack c d argv top) (λ r s', r = Some sp ∧ ∃ ptrs, stacked kend c d l sp top s s' ∧
    strings d (memory s') sp1 top argv ptrs ∧ ubytes (memory s') d sp (words_bytes ([4294967295; n; sp + 12] ++ ptrs ++ [0]))) s)
    as (r & s' & E & -> & ptrs & Hk & Hs & Hb).
  - unfold setup_stack. apply wp_bind, (wp_push_args kend c d l lo argv); try done; [lia|].
    intros s1 ptrs K1 S1. fold sp1 in K1, S1 |- *. cbn [app]. fold n.
    assert (Hlp : length ptrs = length argv) by (symmetry; by eapply Forall2_length).
    rewrite (u32_small (sp1 - (n + 1) * 4)) by (unfold KERNBASE, w32 in *; lia).
    rewrite (u32_small (sp1 - (3 + n + 1) * 4)) by (unfold KERNBASE, w32 in *; lia).
    replace (sp1 - (3 + n + 1) * 4) with sp by lia. replace (sp1 - (n + 1) * 4) with (sp + 12) by lia.
    set (ws := 4294967295 :: n :: sp + 12 :: ptrs ++ [0]).
    assert (Hlw : Z.of_nat (length (words_bytes ws)) = 4 * (n + 4)) by (rewrite words_length; unfold ws; cbn [length]; rewrite length_app; cbn [length]; lia).
    apply wp_bind, (wp_push kend c d l); [apply K1|apply K1|lia|lia| |].
    { rewrite Hlw. eapply writable_kept; [exact K1|lia|lia|]. intros x Hx. apply Hw. lia. }
    rewrite Hlw. replace (sp + 4 * (n + 4)) with sp1 by lia. intros s2 K2 B2. cbn [Z.ltb Z.compare]. wp_steps. split; [done|]. exists ptrs.
    split; [eapply (stacked_trans kend c d l _ sp1 _ sp1); [lia|lia|lia|lia|exact K1|exact K2]|]. split; [|exact B2].
    eapply Forall2_impl; [exact S1|]. cbn. intros a p (H1 & H2 & H3). split; [|done].
    assert (Hla : Z.of_nat (length (a ++ [0])) = Z.of_nat (length a) + 1) by (rewrite length_app; cbn; lia).
    eapply (ubytes_kept kend c d l); [exact K2|lia|rewrite Hla; lia| |lia|done]. rewrite Hla. eapply writable_kept; [exact K1|lia|lia|].
    intros x Hx. apply Hw. lia.
  - assert (Hlp : length ptrs = length argv) by (symmetry; by eapply Forall2_length).
    assert (Hptr : ∀ i p, ptrs !! i = Some p → 0 <= p < w32).
    { intros i p Hp. destruct (Forall2_lookup_r _ _ _ _ _ Hs Hp) as (a & _ & _ & H1 & H2). unfold KERNBASE, w32 in *. lia. }
    exists sp, s', ptrs. split; [done|]. split; [lia|]. split; [done|].
    set (ws := [4294967295; n; sp + 12] ++ ptrs ++ [0]) in *.
    assert (Hword : ∀ i w, ws !! i = Some w → 0 <= w < w32 → uword (memory s') d (sp + 4 * Z.of_nat i) = w) by (intros; by eapply ubytes_word).
    split; [rewrite <-(Z.add_0_r sp) at 1; by apply (Hword 0%nat)|]. split; [apply (Hword 1%nat); [done|unfold w32; lia]|].
    split; [apply (Hword 2%nat); [done|unfold KERNBASE, w32 in *; lia]|].
    split; [by replace (sp + 16 + 4 * n) with sp1 by lia|]. split; [|split; [|done]].
    + intros i p Hp. replace (sp + 12 + 4 * Z.of_nat i) with (sp + 4 * Z.of_nat (3 + i)) by lia. apply Hword; [|by eapply Hptr].
      unfold ws. rewrite lookup_app_r by (cbn; lia). cbn [length]. replace (3 + i - 3)%nat with i by lia. by apply lookup_app_l_Some.
    + replace (sp + 12 + 4 * n) with (sp + 4 * Z.of_nat (3 + length argv)) by lia. apply Hword; [|done].
      unfold ws. rewrite lookup_app_r by (cbn; lia). cbn [length]. rewrite lookup_app_r by lia.
      replace (3 + length argv - 3 - length ptrs)%nat with 0%nat by lia. done.
Qed.

(** The arguments "ls" and "-l" on a page below 4096. *)
Lemma exec_stack_witness : ∃ sp s', setup_stack 0 dir0 [[108; 115]; [45; 108]] 4096 vm1 = Ok (Some sp) s' ∧
  uword (memory s') dir0 (sp + 4) = 2 ∧ uword (memory s') dir0 (sp + 8) = sp + 12 ∧ uword (memory s') dir0 (sp + 20) = 0.
Proof.
  destruct vm1_grown as [l G]. destruct (gr_new _ _ _ _ _ _ _ _ _ G 0) as (v & _ & _ & Ev & _); [lia|].
  assert (Hp : writable dir0 (memory vm1) 0 4096).
  { intros a Ha. rewrite Z.div_small by exact Ha. unfold usable. rewrite Ev. split; [apply pte_of_present|].
    unfold pte_of. rewrite <-Z.lor_assoc. apply has_lor. reflexivity. }
  destruct (exec_stack demo_end 0 dir0 l vm1 [[108; 115]; [45; 108]] 0 4096) as (sp & s' & ptrs & E & _ & _ & _ & H1 & H2 & _ & _ & H3 & _).
  - apply G.
  - apply G.
  - lia.
  - unfold KERNBASE. lia.
  - reflexivity.
  - unfold MAXARG. cbn. lia.
  - vm_compute. discriminate.
  - exact Hp.
  - exists sp, s'. repeat split; [exact E|exact H1|exact H2|]. cbn in H3. replace (sp + 20) with (sp + 12 + 8) by lia. exact H3.
Defined.

(** ** What a failing exec leaves alone *)

Section whole.
Context (kend kdata : Z) (c : nat) (dev_read : Z → option (nat → Z → M Fs.fst (Z * list Z))) (junk : list Z).




Local Abbreviation wpp := (wp (H := Partial)).







End whole.

(** ** A program that starts *)

Section start.
Context (kend : Z) (Hkend : KERNBASE < kend) (kdata : Z) (Hdata : kdata mod 4096 = 0) (Hdata2 : KERNLINK < kdata < KERNBASE + PHYSTOP) `{mode : Mode} (c : nat).





End start.




End ExecProps.
