(* ===== verification/Printf.v ===== *)
(** * Formatted output (printf.c; console.c: printint, cprintf)

    What is written, as the list of its characters.  An argument is the 32-bit
    word the code reads at [ap]; [str a] is the string at address [a].  Reading
    past the last argument, or writing past the 16 characters of the digit
    buffer, is [None]. *)

From S2P Require Import Prelude CString.
Local Open Scope Z_scope.

Module Printf.

(** The two static tables of digits. *)
Definition digits_upper : list Z := [48;49;50;51;52;53;54;55;56;57;65;66;67;68;69;70].
Definition digits_lower : list Z := [48;49;50;51;52;53;54;55;56;57;97;98;99;100;101;102].

(** [do buf[i++] = digits[x % base]; while((x /= base) != 0);] with room for
    [fuel] more characters. *)
Fixpoint put_digits (fuel : nat) (table : list Z) (x base : Z) : option (list Z) :=
  match fuel with
  | O => None
  | S fuel =>
      let d := nth (Z.to_nat (x mod base)) table 0 in
      let x := x / base in
      if x =? 0 then Some [d] else option_map (cons d) (put_digits fuel table x base)
  end.

Definition printint (table : list Z) (xx base : Z) (sgn : bool) : option (list Z) :=
  let neg := sgn && (xx <? 0) in
  let x := if neg then u32 (- xx) else u32 xx in
  match put_digits 16 table x base with
  | None => None
  | Some buf =>
      if neg then if decide (length buf < 16)%nat then Some (rev (buf ++ [45])) else None
      else Some (rev buf)
  end.

Definition null_string : list Z := [40; 110; 117; 108; 108; 41].

Section printf.
Context (str : Z → list Z).
Definition string_at (a : Z) : list Z := if a =? 0 then null_string else str a.

(** [state] is ['%'] after a percent sign. *)
Fixpoint printf_from (state : bool) (fmt : list Z) (ap : list Z) : option (list Z) :=
  match fmt with
  | [] => Some []
  | c :: fmt =>
      if negb state then
        if c =? 37 then printf_from true fmt ap else option_map (cons c) (printf_from false fmt ap)
      else if c =? 100 then
        match ap with
        | a :: ap => o ← printint digits_upper (i32 a) 10 true; option_map (app o) (printf_from false fmt ap)
        | [] => None
        end
      else if (c =? 120) || (c =? 112) then
        match ap with
        | a :: ap => o ← printint digits_upper (i32 a) 16 false; option_map (app o) (printf_from false fmt ap)
        | [] => None
        end
      else if c =? 115 then
        match ap with
        | a :: ap => option_map (app (string_at a)) (printf_from false fmt ap)
        | [] => None
        end
      else if c =? 99 then
        match ap with
        | a :: ap => option_map (cons (u8 a)) (printf_from false fmt ap)
        | [] => None
        end
      else if c =? 37 then option_map (cons c) (printf_from false fmt ap)
      else option_map (app [37; c]) (printf_from false fmt ap)
  end.
Definition printf (fmt ap : list Z) : option (list Z) := printf_from false fmt ap.

(** cprintf looks at the character after the percent sign at once. *)
Fixpoint cprintf (fmt : list Z) (argp : list Z) : option (list Z) :=
  match fmt with
  | [] => Some []
  | c :: fmt =>
      if negb (c =? 37) then option_map (cons c) (cprintf fmt argp) else
      match fmt with
      | [] => Some []
      | c :: fmt =>
          if c =? 100 then
            match argp with
            | a :: argp => o ← printint digits_lower (i32 a) 10 true; option_map (app o) (cprintf fmt argp)
            | [] => None
            end
          else if (c =? 120) || (c =? 112) then
            match argp with
            | a :: argp => o ← printint digits_lower (i32 a) 16 false; option_map (app o) (cprintf fmt argp)
            | [] => None
            end
          else if c =? 115 then
            match argp with
            | a :: argp => option_map (app (string_at a)) (cprintf fmt argp)
            | [] => None
            end
          else if c =? 37 then option_map (cons 37) (cprintf fmt argp)
          else option_map (app [37; c]) (cprintf fmt argp)
      end
  end.
End printf.

(** ** The digits of a number *)

(** Their value, least significant digit first. *)
Fixpoint value (base : Z) (ds : list Z) : Z :=
  match ds with [] => 0 | d :: ds => d + base * value base ds end.

(** Character [c] stands for the digit [d] in a table. *)
Definition denotes (table : list Z) (base : Z) (c d : Z) : Prop := 0 <= d < base ∧ c = nth (Z.to_nat d) table 0.

Lemma put_digits_spec table base : 2 <= base → ∀ k fuel x, 0 <= x < base ^ Z.of_nat k → (0 < k <= fuel)%nat →
  ∃ buf ds, put_digits fuel table x base = Some buf ∧ Forall2 (denotes table base) buf ds ∧
    value base ds = x ∧ (0 < length buf <= k)%nat.
Proof.
  intros Hb. induction k as [|k IH]; intros fuel x Hx Hf; [lia|]. destruct fuel as [|fuel]; [lia|]. cbn [put_digits].
  pose proof (Z.div_mod x base ltac:(lia)) as Hdm. pose proof (Z.mod_pos_bound x base ltac:(lia)) as Hm.
  assert (Hd : denotes table base (nth (Z.to_nat (x mod base)) table 0) (x mod base)) by done.
  destruct (Z.eqb_spec (x / base) 0) as [E|E].
  - exists [nth (Z.to_nat (x mod base)) table 0], [x mod base]. split; [done|]. split; [constructor; [done|constructor]|].
    cbn [value length]. split; lia.
  - assert (Hq : 0 <= x / base) by (apply Z.div_pos; lia).
    assert (Hq2 : x / base < base ^ Z.of_nat k).
    { apply Z.div_lt_upper_bound; [lia|]. rewrite Nat2Z.inj_succ, Z.pow_succ_r in Hx by lia. lia. }
    destruct k as [|k]; [cbn in Hq2; lia|].
    destruct (IH fuel (x / base)) as (buf & ds & -> & F & V & L); [lia|lia|].
    exists (nth (Z.to_nat (x mod base)) table 0 :: buf), (x mod base :: ds). split; [done|]. split; [by constructor|].
    cbn [value length]. rewrite V. split; lia.
Qed.

(** ** Reading a number back *)

Lemma i32_cong a b : a mod w32 = b mod w32 → i32 a = i32 b.
Proof.
  intros H. unfold i32. f_equal. rewrite <-(Zplus_mod_idemp_l a), <-(Zplus_mod_idemp_l b), H. done.
Qed.
Lemma i32_mod a : i32 a mod w32 = a mod w32.
Proof.
  unfold i32. rewrite Zminus_mod_idemp_l. f_equal. lia.
Qed.

(** The decimal digits of printf are those atoi knows. *)
Lemma decimal c d : denotes digits_upper 10 c d → c = 48 + d ∧ 0 <= d < 10.
Proof.
  intros [Hd ->]. split; [|done]. assert (H : d = 0 ∨ d = 1 ∨ d = 2 ∨ d = 3 ∨ d = 4 ∨ d = 5 ∨ d = 6 ∨ d = 7 ∨ d = 8 ∨ d = 9) by lia.
  destruct H as [->|[->|[->|[->|[->|[->|[->|[->|[->| ->]]]]]]]]]; reflexivity.
Qed.

Lemma digits_app acc l1 l2 :
  Forall (λ c, 48 <= c <= 57) l1 → CString.digits 10 57 acc (l1 ++ l2) = CString.digits 10 57 (CString.digits 10 57 acc l1) l2.
Proof.
  revert acc; induction l1 as [|c l1 IH]; intros acc H; [done|]. apply Forall_cons in H as [Hc H]. cbn [app CString.digits].
  rewrite (proj2 (Z.leb_le 48 c)), (proj2 (Z.leb_le c 57)) by lia. cbn [andb]. by apply IH.
Qed.

(** Reading digits, most significant first, gives their value in 32 bits. *)
Lemma digits_value buf ds :
  Forall2 (denotes digits_upper 10) buf ds → CString.digits 10 57 0 (rev buf) mod w32 = value 10 ds mod w32.
Proof.
  induction 1 as [|c d buf ds H F IH]; [done|]. apply decimal in H as [-> Hd]. cbn [rev value].
  assert (Hall : Forall (λ c, 48 <= c <= 57) (rev buf)).
  { apply Forall_rev. clear IH. induction F as [|c' d' buf ds H' F IH]; constructor; [|done].
    apply decimal in H' as [-> ?]. lia. }
  rewrite digits_app by done. cbn [CString.digits].
  rewrite (proj2 (Z.leb_le 48 _)), (proj2 (Z.leb_le _ 57)) by lia. cbn [andb]. rewrite i32_mod.
  replace (i32 (CString.digits 10 57 0 (rev buf) * 10) + (48 + d) - 48) with (i32 (CString.digits 10 57 0 (rev buf) * 10) + d) by lia.
  rewrite <-Zplus_mod_idemp_l, i32_mod, <-Zmult_mod_idemp_l, IH, Zmult_mod_idemp_l, Zplus_mod_idemp_l. f_equal. lia.
Qed.

Lemma rev_digits buf ds : Forall2 (denotes digits_upper 10) buf ds → (0 < length buf)%nat →
  ∃ c r, rev buf = c :: r ∧ 48 <= c <= 57.
Proof.
  intros F Hl. destruct (rev buf) as [|c r] eqn:E.
  - apply (f_equal length) in E. rewrite length_rev in E. cbn in E. lia.
  - exists c, r. split; [done|]. assert (Hin : c ∈ buf) by (apply list_elem_of_In, in_rev; rewrite E; left; done).
    apply list_elem_of_lookup in Hin as [i Hi]. destruct (Forall2_lookup_l _ _ _ _ _ F Hi) as (d & _ & H).
    apply decimal in H as [-> ?]. lia.
Qed.

(** What printf writes for %d fits its 16-character buffer and atoi reads
    it back as the same number, for every 32-bit integer, the least one too,
    whose absolute value is not an int. *)
Theorem printint_atoi (n : Z) :
  -2147483648 <= n < 2147483648 →
  ∃ out, printint digits_upper n 10 true = Some out ∧ (length out <= 16)%nat ∧ CString.atoi out = n.
Proof.
  intros Hn. unfold printint. cbn [andb]. set (x := if n <? 0 then u32 (- n) else u32 n).
  assert (Hx : x = Z.abs n). { unfold x. destruct (Z.ltb_spec n 0); rewrite u32_small; unfold w32; lia. }
  destruct (put_digits_spec digits_upper 10 ltac:(lia) 10 16 x) as (buf & ds & -> & F & V & L); [cbn; lia|lia|].
  pose proof (digits_value buf ds F) as HV. destruct (rev_digits buf ds F ltac:(lia)) as (c & r & Er & Hc).
  rewrite V, Hx in HV. destruct (Z.ltb_spec n 0) as [Hneg|Hpos].
  - rewrite decide_True by lia. rewrite rev_app_distr. cbn [rev app]. eexists. split; [done|].
    split; [cbn [length]; rewrite length_rev; lia|]. unfold CString.atoi, CString.ato. cbn -[i32 CString.digits].
    transitivity (i32 n); [|by apply i32_small]. apply i32_cong. rewrite Z.opp_eq_mul_m1, Z.mul_comm, <-Zmult_mod_idemp_r, HV, Zmult_mod_idemp_r.
    f_equal. lia.
  - rewrite Er in *. eexists. split; [done|]. split; [rewrite <-Er, length_rev; lia|].
    unfold CString.atoi, CString.ato. cbn [CString.skip_spaces]. rewrite (proj2 (Z.eqb_neq c 32)) by lia. cbv zeta iota beta.
    rewrite (proj2 (Z.eqb_neq c 45)), (proj2 (Z.eqb_neq c 43)) by lia. cbn [orb].
    transitivity (i32 n); [|by apply i32_small]. apply i32_cong. rewrite Z.mul_1_l, HV. f_equal. lia.
Qed.
Lemma printint_atoi_witness :
  ∃ out, printint digits_upper (-2147483648) 10 true = Some out ∧ CString.atoi out = -2147483648.
Proof.
  destruct (printint_atoi (-2147483648)) as (out & E & _ & H); [lia|]. exists out. exact (conj E H).
Defined.

(** ** printf and cprintf *)

(** No percent sign is followed by [c], [x] or [p]. *)
Fixpoint common (state : bool) (fmt : list Z) : Prop :=
  match fmt with
  | [] => True
  | c :: fmt => if state then (c ≠ 99 ∧ c ≠ 120 ∧ c ≠ 112) ∧ common false fmt else common (c =? 37) fmt
  end.

Lemma decimal_tables n : printint digits_lower n 10 true = printint digits_upper n 10 true.
Proof.
  assert (H : ∀ fuel x, put_digits fuel digits_lower x 10 = put_digits fuel digits_upper x 10).
  { induction fuel as [|fuel IH]; intros x; [done|]. cbn [put_digits]. rewrite IH.
    assert (E : nth (Z.to_nat (x mod 10)) digits_lower 0 = nth (Z.to_nat (x mod 10)) digits_upper 0); [|by rewrite E].
    pose proof (Z.mod_pos_bound x 10 ltac:(lia)) as Hm. set (d := x mod 10) in *. clearbody d.
    assert (Hd : d = 0 ∨ d = 1 ∨ d = 2 ∨ d = 3 ∨ d = 4 ∨ d = 5 ∨ d = 6 ∨ d = 7 ∨ d = 8 ∨ d = 9) by lia.
    destruct Hd as [->|[->|[->|[->|[->|[->|[->|[->|[->| ->]]]]]]]]]; reflexivity. }
  unfold printint. by rewrite H.
Qed.

(** Induction on a format by one or two characters. *)
Lemma format_ind (P : list Z → Prop) :
  P [] → (∀ c, P [c]) → (∀ c c1 fmt, P fmt → P (c1 :: fmt) → P (c :: c1 :: fmt)) → ∀ fmt, P fmt.
Proof.
  intros H0 H1 H2 fmt. assert (H : P fmt ∧ ∀ c, P (c :: fmt)); [|by apply H].
  induction fmt as [|c1 fmt [IH1 IH2]]; [auto|]. split; [auto|]. intros c. auto.
Qed.

Lemma cprintf_plain str c fmt ap : c ≠ 37 → cprintf str (c :: fmt) ap = option_map (cons c) (cprintf str fmt ap).
Proof. intros H. cbn [cprintf]. by rewrite (proj2 (Z.eqb_neq _ _) H). Qed.
Lemma printf_plain str c fmt ap : c ≠ 37 → printf_from str false (c :: fmt) ap = option_map (cons c) (printf_from str false fmt ap).
Proof. intros H. cbn [printf_from negb]. by rewrite (proj2 (Z.eqb_neq _ _) H). Qed.

(** Printf of the user library, a state machine over the characters, and
    cprintf of the kernel, which reads the directive ahead, write the same text
    for every format and arguments as long as no directive is %c (which the
    kernel lacks), %x or %p (whose digits differ in case), also for unknown
    directives, a trailing percent sign and missing arguments. *)
Theorem printf_cprintf (str : Z → list Z) (fmt ap : list Z) :
  common false fmt → printf str fmt ap = cprintf str fmt ap.
Proof.
  unfold printf. revert ap. induction fmt as [|c|c c1 fmt IH1 IH2] using format_ind; intros ap H; [done| |].
  - cbn [printf_from cprintf negb]. by destruct (c =? 37).
  - cbn [common] in H. destruct (Z.eqb_spec c 37) as [->|E].
    + cbn [printf_from cprintf negb Z.eqb]. destruct H as [(Hc & Hx & Hp) H].
      rewrite (proj2 (Z.eqb_neq c1 99)), (proj2 (Z.eqb_neq c1 120)), (proj2 (Z.eqb_neq c1 112)) by done. cbn [orb].
      destruct (c1 =? 100); [destruct ap as [|a ap]; [done|]; rewrite decimal_tables; destruct (printint _ _ _ _); [cbn; by rewrite IH1|done]|].
      destruct (c1 =? 115); [destruct ap as [|a ap]; [done|]; by rewrite IH1|].
      destruct (Z.eqb_spec c1 37) as [->|]; by rewrite IH1.
    + rewrite cprintf_plain, <-IH2 by done. by apply printf_plain.
Qed.
Lemma printf_cprintf_witness :
  common false [104; 105; 32; 37; 100; 32; 37; 115; 37] ∧
  printf (λ _, [97]) [104; 105; 32; 37; 100; 32; 37; 115; 37] [4294967295; 4096] =
  cprintf (λ _, [97]) [104; 105; 32; 37; 100; 32; 37; 115; 37] [4294967295; 4096].
Proof.
  assert (H : common false [104; 105; 32; 37; 100; 32; 37; 115; 37]) by (vm_compute; repeat split; discriminate).
  split; [exact H|]. apply (printf_cprintf (λ _, [97]) _ _ H).
Defined.
End Printf.
