(* ===== verification/Listing.v ===== *)
(** * Listings of the process table (proc.c: procdump, the dumps of the state
    lists and getuproc; procdump.c; console.c runs them on control keys)

    The text goes to [out], one string for each call of cprintf, formatted as
    printint does.  procdump also walks the kernel stacks of sleeping processes:
    [saved_ebp p] is the frame pointer saved in the context of process [p]. *)

From S2P Require Import Prelude Spinlock ProcTable CString Proc ProcInv ProcSpec Machine Boot Example ProcProps Printf.
From Stdlib Require Import Ascii.
Local Open Scope Z_scope.

Module Listing.
Import ProcTable Proc ProcInv ProcSpec.

(** ** Text *)

Definition chars (l : list Z) : string := foldr (λ c s, String (ascii_of_nat (Z.to_nat c)) s) EmptyString l.
(** The arguments of %d, %p and %s. *)
Definition dec (x : Z) : string := from_option chars EmptyString (Printf.printint Printf.digits_lower (i32 x) 10 true).
Definition ptr (x : Z) : string := from_option chars EmptyString (Printf.printint Printf.digits_lower (i32 x) 16 false).
Fixpoint cstr (l : list Z) : string :=
  match l with
  | [] => EmptyString
  | c :: l => if c =? 0 then EmptyString else String (ascii_of_nat (Z.to_nat c)) (cstr l)
  end.
Definition nl : string := String (ascii_of_nat 10) EmptyString.
Definition tab : string := String (ascii_of_nat 9) EmptyString.

Definition states (st : procstate) : string :=
  match st with
  | UNUSED => "unused" | EMBRYO => "embryo" | SLEEPING => "sleep " | RUNNABLE => "runble" | RUNNING => "run   " | ZOMBIE => "zombie"
  end.

Section listing.
Context `{cfg : Config} `{sv : Services}.

(** [while (head->next != 0)]: the body gets [head] and [head->next], and
    [head] advances. *)
Fixpoint while_next (fuel : nat) (body : nat → nat → M kstate unit) (head : nat) : M kstate unit :=
  n ← fld head next;
  match n with
  | None => mret tt
  | Some q =>
      match fuel with
      | O => hang
      | S fuel => body head q;; while_next fuel body q
      end
  end.

(** Ready lists: each level is printed on its line. *)
Definition readydump_level (i : nat) : M kstate unit :=
  h ← gets (λ s, head (Ready i) (pt s));
  (match h with
   | None => cprintf ("No ready processes at priority " +:+ dec (Z.of_nat i) +:+ ".")
   | Some h =>
       x ← fld h pid;
       b ← fld h budget;
       cprintf ("Ready processes at priority " +:+ dec (Z.of_nat i) +:+ ": " +:+ dec x +:+ " (budget " +:+ dec b +:+ ")");;
       while_next NPROC (λ p _,
         x ← fld p pid;
         b ← fld p budget;
         cprintf (" -> " +:+ dec x +:+ " (" +:+ dec b +:+ ")")) h
   end);;
  cprintf nl.
Definition readydump (c : nat) : M kstate unit :=
  getlock c;;
  count_for (MAXPRIO + 1) 0 (λ i, readydump_level i;; mret (None : option unit));;
  freelock c;;
  mret tt.

Fixpoint count_list (fuel : nat) (head : option nat) (counter : Z) : M kstate Z :=
  match head with
  | None => mret counter
  | Some p =>
      match fuel with
      | O => hang
      | S fuel => n ← fld p next; count_list fuel n (counter + 1)
      end
  end.
Definition freedump (c : nat) : M kstate unit :=
  getlock c;;
  h ← gets (λ s, head Free (pt s));
  counter ← count_list NPROC h 0;
  cprintf ("Free list size: " +:+ dec counter +:+ " processes." +:+ nl);;
  freelock c;;
  mret tt.

Definition sleepdump (c : nat) : M kstate unit :=
  getlock c;;
  h ← gets (λ s, head Sleep (pt s));
  (match h with
   | None => cprintf "No sleeping processes."
   | Some h =>
       x ← fld h pid;
       cprintf ("Sleeping processes: " +:+ dec x);;
       while_next NPROC (λ _ q, x ← fld q pid; cprintf (" -> " +:+ dec x)) h
   end);;
  cprintf nl;;
  freelock c;;
  mret tt.

Definition zombiedump (c : nat) : M kstate unit :=
  getlock c;;
  h ← gets (λ s, head Zombie (pt s));
  (match h with
   | None => cprintf "No zombie processes."
   | Some h =>
       x ← fld h pid;
       y ← gets (parent_pid h);
       cprintf ("Zombie processes (PID, PPID): (" +:+ dec x +:+ "," +:+ dec y +:+ ")");;
       while_next NPROC (λ p _,
         x ← fld p pid;
         y ← gets (parent_pid p);
         cprintf (" -> (" +:+ dec x +:+ "," +:+ dec y +:+ ")")) h
   end);;
  cprintf nl;;
  freelock c;;
  mret tt.

(** ** procdump *)

Definition HEADER : string :=
  nl +:+ "PID" +:+ tab +:+ "Name" +:+ tab +:+ "UID" +:+ tab +:+ "GID" +:+ tab +:+ "PPID" +:+ tab +:+ "State" +:+ tab +:+ "Priority" +:+ tab +:+
  "Size" +:+ tab +:+ "Time Elapsed" +:+ tab +:+ "CPU Time Elapsed" +:+ tab +:+ "PCs" +:+ nl.

(** The number of thousandths with its leading zeros. *)
Definition thousandths (rem : Z) : M kstate unit :=
  (if rem <? 100 then cprintf "0" else mret tt);;
  (if rem <? 10 then cprintf "0" else mret tt).

Definition procdumpP3P4 (p : proc) (st : string) : M kstate unit :=
  t ← gets ticks;
  let elapsedticks := i32 (t - start_ticks p) in
  let secs := Z.quot elapsedticks 1000 in
  let rem := Z.rem elapsedticks 1000 in
  let cpu_secs := i32 (cpu_ticks_total p / 1000) in
  let cpu_rem := i32 (cpu_ticks_total p mod 1000) in
  ppid ← gets (λ s, match parent p with Some q => pid (procs (pt s) q) | None => pid p end);
  cprintf (dec (pid p) +:+ tab +:+ cstr (name p) +:+ tab +:+ dec (uid p) +:+ tab +:+ dec (gid p) +:+ tab +:+ dec ppid +:+ tab +:+
    st +:+ tab +:+ dec (priority p) +:+ tab +:+ dec (sz p) +:+ tab +:+ dec secs +:+ ".");;
  thousandths rem;;
  cprintf (dec rem +:+ tab +:+ dec cpu_secs +:+ ".");;
  thousandths cpu_rem;;
  cprintf (dec cpu_rem +:+ nl).

(** The program counters up to the first zero. *)
Fixpoint print_pcs (pcs : list Z) : M kstate unit :=
  match pcs with
  | [] => mret tt
  | x :: pcs => if x =? 0 then mret tt else cprintf (" " +:+ ptr x);; print_pcs pcs
  end.

Context (saved_ebp : nat → Z).

Definition procdump_slot (i : nat) : M kstate unit :=
  p ← fld i (λ p, p);
  if decide (state p = UNUSED) then mret tt else
  procdumpP3P4 p (states (state p));;
  (if decide (state p = SLEEPING) then
     w ← gets (λ s, Spinlock.kword (ls s));
     print_pcs (Spinlock.getcallerpcs w (u32 (saved_ebp i + 8)))
   else mret tt);;
  cprintf nl.
Definition procdump (c : nat) : M kstate unit :=
  acquire c PTABLE;;
  cprintf HEADER;;
  count_for NPROC 0 (λ i, procdump_slot i;; mret (None : option unit));;
  release c PTABLE.

(** ** getuproc *)

Definition STRMAX : Z := 32.
Record uproc := mkuproc {
  u_pid : Z; u_uid : Z; u_gid : Z; u_ppid : Z; u_elapsed_ticks : Z; u_CPU_total_ticks : Z; u_state : list Z; u_size : Z; u_name : list Z; u_priority : Z
}.
Definition codes (s : string) : list Z := (λ a, Z.of_nat (nat_of_ascii a)) <$> String.list_ascii_of_string s.

(** [junk] is what the local variable [current] holds before. *)
Definition getuproc (junk : uproc) (pcount : nat) : M kstate uproc :=
  p ← fld pcount (λ p, p);
  pp ← gets (parent_pid pcount);
  st ← lift_opt (CString.strncpy (u_state junk) (codes (states (state p)) ++ [0]) STRMAX);
  nm ← lift_opt (CString.strncpy (u_name junk) (name p) STRMAX);
  mret (mkuproc (pid p) (uid p) (gid p) pp (u32 (cpu_ticks_total p - cpu_ticks_in p)) (cpu_ticks_total p) st (sz p) nm (u_priority junk)).
End listing.

(** ** What is printed *)

Section printing.
Context `{cfg : Config} `{sv : Services}.
Implicit Types s : kstate.

Definition text (xs : list string) : string := String.concat EmptyString xs.
Lemma append_nil x : x +:+ EmptyString = x.
Proof. induction x as [|a x IH]; [done|]. change (String a (x +:+ EmptyString) = String a x). by rewrite IH. Qed.
Lemma append_assoc x y z : x +:+ (y +:+ z) = (x +:+ y) +:+ z.
Proof. induction x as [|a x IH]; [done|]. change (String a (x +:+ (y +:+ z)) = String a ((x +:+ y) +:+ z)). by rewrite IH. Qed.
Lemma text_app xs ys : text (xs ++ ys) = text xs +:+ text ys.
Proof.
  assert (E : ∀ x xs, text (x :: xs) = x +:+ text xs).
  { intros x [|y l]; [|done]. symmetry. apply append_nil. }
  induction xs as [|x xs IH]; [done|]. cbn [app]. rewrite !E, IH. apply append_assoc.
Qed.

(** Run with the state [s] and any output so far, [m] returns [a], prints [t]
    and changes nothing else. *)
Definition prints {A} (m : M kstate A) (a : A) (t : string) s : Prop :=
  ∃ xs, text xs = t ∧ ∀ o, m (put_out o s) = Ok a (put_out (o ++ xs) s).

Lemma prints_ret {A} (a : A) s : prints (mret a) a EmptyString s.
Proof. exists []. split; [done|]. intros o. by rewrite app_nil_r. Qed.
Lemma prints_bind {A B} (m : M kstate A) (f : A → M kstate B) a b t1 t2 s :
  prints m a t1 s → prints (f a) b t2 s → prints (m ≫= f) b (t1 +:+ t2) s.
Proof.
  intros (xs & E1 & H1) (ys & E2 & H2). exists (xs ++ ys). split; [by rewrite text_app, E1, E2|].
  intros o. unfold mbind, M_mbind, M_bind. rewrite H1, H2. by rewrite app_assoc.
Qed.
Lemma prints_quiet {A B} (m : M kstate A) (f : A → M kstate B) a b t s :
  prints m a EmptyString s → prints (f a) b t s → prints (m ≫= f) b t s.
Proof. intros H1 H2. change t with (EmptyString +:+ t). by eapply prints_bind. Qed.
Lemma prints_fld {A} p (f : proc → A) s : prints (fld p f) (f (procs (pt s) p)) EmptyString s.
Proof. exists []. split; [done|]. intros o. by rewrite app_nil_r. Qed.
Lemma prints_gets {A} (f : kstate → A) s : (∀ o, f (put_out o s) = f s) → prints (gets f) (f s) EmptyString s.
Proof. intros H. exists []. split; [done|]. intros o. unfold gets. by rewrite H, app_nil_r. Qed.
Lemma prints_cprintf x s : prints (cprintf x) tt x s.
Proof. exists [x]. split; [done|]. intros o. done. Qed.

(** A loop over the entries. *)
Definition texts {A} (f : A → string) (l : list A) : string := text (f <$> l).
Lemma texts_cons {A} (f : A → string) x l : texts f (x :: l) = f x +:+ texts f l.
Proof. unfold texts. change (f <$> x :: l) with ([f x] ++ (f <$> l)). by rewrite text_app. Qed.

Lemma prints_while fuel body (f : nat → nat → string) s : (∀ p q, prints (body p q) tt (f p q) s) →
  ∀ l p, chain (nx (pt s)) (Some p) (p :: l) → (length l <= fuel)%nat →
  prints (while_next fuel body p) tt (texts (λ pq, f pq.1 pq.2) (zip (p :: l) l)) s.
Proof.
  intros Hb. induction fuel as [|fuel IH]; intros l p [_ Hc] Hl.
  - destruct l as [|q l]; [|cbn in Hl; lia]. cbn in Hc. cbn [while_next]. eapply prints_quiet; [apply prints_fld|].
    unfold nx in Hc. rewrite Hc. apply prints_ret.
  - cbn [while_next]. eapply prints_quiet; [apply prints_fld|]. unfold nx in Hc.
    destruct l as [|q l]; [cbn in Hc; rewrite Hc; apply prints_ret|]. cbn in Hc. destruct Hc as [Hn Hc]. rewrite Hn.
    cbn [zip zip_with]. rewrite texts_cons. eapply prints_bind; [apply Hb|]. apply IH; [done|cbn in Hl; lia].
Qed.
Lemma texts_fst {A} (f : A → string) p l : texts (λ pq : A * A, f pq.1) (zip (p :: l) l) = texts f (removelast (p :: l)).
Proof. revert p. induction l as [|q l IH]; intros p; [done|]. cbn [zip zip_with]. change (removelast (p :: q :: l)) with (p :: removelast (q :: l)). rewrite !texts_cons. f_equal. apply IH. Qed.
Lemma texts_snd {A} (f : A → string) p l : texts (λ pq : A * A, f pq.2) (zip (p :: l) l) = texts f l.
Proof. revert p. induction l as [|q l IH]; intros p; [done|]. cbn [zip zip_with]. rewrite !texts_cons. f_equal. apply IH. Qed.

(** The body prints the process before advancing, or the next one. *)
Lemma prints_before body (f : nat → string) s p l : (∀ p q, prints (body p q) tt (f p) s) →
  chain (nx (pt s)) (Some p) (p :: l) → (length (p :: l) <= NPROC)%nat → prints (while_next NPROC body p) tt (texts f (removelast (p :: l))) s.
Proof. intros Hb Hc Hl. rewrite <-texts_fst. apply (prints_while _ _ (λ p _, f p)); [done|done|]. cbn [length] in Hl. lia. Qed.
Lemma prints_after body (f : nat → string) s p l : (∀ p q, prints (body p q) tt (f q) s) →
  chain (nx (pt s)) (Some p) (p :: l) → (length (p :: l) <= NPROC)%nat → prints (while_next NPROC body p) tt (texts f l) s.
Proof. intros Hb Hc Hl. rewrite <-(texts_snd f p). apply (prints_while _ _ (λ _ q, f q)); [done|done|]. cbn [length] in Hl. lia. Qed.

Lemma prints_count l : ∀ fuel h n s, chain (nx (pt s)) h l → (length l <= fuel)%nat →
  prints (count_list fuel h n) (n + Z.of_nat (length l)) EmptyString s.
Proof.
  induction l as [|p l IH]; intros fuel h n s Hc Hl; cbn in Hc.
  - subst h. destruct fuel; cbn [count_list length]; replace (n + Z.of_nat 0) with n by lia; apply prints_ret.
  - destruct Hc as [-> Hc]. destruct fuel as [|fuel]; [cbn in Hl; lia|]. cbn [count_list]. eapply prints_quiet; [apply prints_fld|].
    cbn [length]. replace (n + Z.of_nat (S (length l))) with (n + 1 + Z.of_nat (length l)) by lia. apply IH; [done|cbn in Hl; lia].
Qed.
Lemma prints_levels (f : nat → string) (body : nat → M kstate unit) n : ∀ lo s, (∀ i, (lo <= i < lo + n)%nat → prints (body i) tt (f i) s) →
  prints (count_for n lo (λ i, body i;; mret (None : option unit))) None (texts f (seq lo n)) s.
Proof.
  induction n as [|n IH]; intros lo s H; cbn [count_for seq]; [apply prints_ret|]. rewrite texts_cons.
  apply (prints_bind _ _ (None : option unit)); [|apply IH; intros; apply H; lia].
  rewrite <-(append_nil (f lo)).
  eapply prints_bind; [apply H; lia|apply prints_ret].
Qed.

(** With the lock held, [m] prints [t], changes nothing else and releases it. *)
Definition dumps c (m : M kstate unit) (t : string) s : Prop :=
  ∃ xs, text xs = t ∧ ∀ o, ∃ l', m (put_out o s) = Ok tt (put_out (o ++ xs) (put_ls l' s)) ∧ unheld c l' ∧ lframe c (ls s) l'.
Lemma dumps_bind {A} c (m : M kstate A) f a t1 t2 s : prints m a t1 s → dumps c (f a) t2 s → dumps c (m ≫= f) (t1 +:+ t2) s.
Proof.
  intros (xs & E1 & H1) (ys & E2 & H2). exists (xs ++ ys). split; [by rewrite text_app, E1, E2|]. intros o.
  destruct (H2 (o ++ xs)) as (l' & E & H). exists l'. split; [|done]. unfold mbind, M_mbind, M_bind. rewrite H1, E. by rewrite app_assoc.
Qed.
Lemma dumps_quiet {A} c (m : M kstate A) f a t s : prints m a EmptyString s → dumps c (f a) t s → dumps c (m ≫= f) t s.
Proof. intros H1 H2. change t with (EmptyString +:+ t). by eapply dumps_bind. Qed.
Lemma dumps_release c s : held c (ls s) → dumps c (release c PTABLE) EmptyString s.
Proof.
  intros H. exists []. split; [done|]. intros o.
  destruct (wp_total (release c PTABLE) (λ _ s', ∃ l', s' = put_out o (put_ls l' s) ∧ unheld c l' ∧ lframe c (ls s) l') (put_out o s)) as ([] & s' & E & l' & -> & H').
  - apply (wp_rel (mode := Total)); [done|]. intros l' Hu Hf _. by exists l'.
  - exists l'. by rewrite app_nil_r.
Qed.
Lemma dumps_freelock c s : held c (ls s) → dumps c (freelock c;; mret tt) EmptyString s.
Proof.
  intros H. destruct (dumps_release c s H) as (xs & E & Hr). exists xs. split; [done|]. intros o. destruct (Hr o) as (l' & E' & H').
  exists l'. split; [|done]. unfold freelock, mbind, M_mbind, M_bind. by rewrite E'.
Qed.

Lemma dumps_last {A} c (m : M kstate A) a t s : prints m a t s → held c (ls s) → dumps c (m;; freelock c;; mret tt) t s.
Proof. intros Hm Hh. rewrite <-(append_nil t). eapply dumps_bind; [exact Hm|]. by apply dumps_freelock. Qed.

(** The text is printed, nothing else changes and the lock is free again. *)
Definition shown c s (t : string) s' : Prop :=
  ∃ xs l', s' = put_out (out s ++ xs) (put_ls l' s) ∧ text xs = t ∧ unheld c l' ∧ lframe c (ls s) l'.
Lemma locked_dumps c m (P : string → Prop) s : unheld c (ls s) → (∀ l', held c l' → ∃ t, P t ∧ dumps c m t (put_ls l' s)) →
  ∃ t s', P t ∧ (acquire c PTABLE;; m) s = Ok tt s' ∧ shown c s t s'.
Proof.
  intros Hu H.
  destruct (wp_total (acquire c PTABLE) (λ _ s', ∃ l', s' = put_ls l' s ∧ held c l' ∧ lframe c (ls s) l') s) as ([] & s1 & E & l1 & -> & Hh & Hf).
  { apply (wp_acq (mode := Total)); [done|]. intros l' Hh Hf _. by exists l'. }
  destruct (H l1 Hh) as (t & HP & xs & Ht & Hd). destruct (Hd (out s)) as (l' & E' & Hu' & Hf'). exists t. eexists. split; [done|]. split.
  - unfold mbind, M_mbind, M_bind. rewrite E. exact E'.
  - exists xs, l'. split; [done|]. split; [done|]. split; [done|]. eapply lframe_trans; [exact Hf|exact Hf'].
Qed.
Lemma getlock_dumps c m t s : unheld c (ls s) → (∀ l', held c l' → dumps c m t (put_ls l' s)) →
  ∃ s', (getlock c;; m) s = Ok tt s' ∧ shown c s t s'.
Proof.
  intros Hu H. destruct (locked_dumps c m (eq t) s Hu) as (? & s' & <- & E & Hs); [eauto|]. exists s'. split; [|done].
  revert E. unfold getlock, mbind, M_mbind, M_bind. by destruct (acquire c PTABLE s).
Qed.

(** ** The listings *)

Definition ready_text s A (i : nat) : string :=
  match A (Ready i) with
  | [] => "No ready processes at priority " +:+ dec (Z.of_nat i) +:+ "."
  | p :: l => ("Ready processes at priority " +:+ dec (Z.of_nat i) +:+ ": " +:+ dec (pid (procs (pt s) p)) +:+ " (budget " +:+ dec (budget (procs (pt s) p)) +:+ ")") +:+
      texts (λ q, " -> " +:+ dec (pid (procs (pt s) q)) +:+ " (" +:+ dec (budget (procs (pt s) q)) +:+ ")") (removelast (p :: l))
  end.
Definition sleep_text s A : string :=
  match A Sleep with
  | [] => "No sleeping processes."
  | p :: l => ("Sleeping processes: " +:+ dec (pid (procs (pt s) p))) +:+ texts (λ q, " -> " +:+ dec (pid (procs (pt s) q))) l
  end.
Definition family s (q : nat) : string := "(" +:+ dec (pid (procs (pt s) q)) +:+ "," +:+ dec (parent_pid q s) +:+ ")".
Definition zombie_text s A : string :=
  match A Zombie with
  | [] => "No zombie processes."
  | p :: l => ("Zombie processes (PID, PPID): " +:+ family s p) +:+ texts (λ q, " -> " +:+ family s q) (removelast (p :: l))
  end.

Lemma list_room s A L : tinv (pt s) A → lid_ok L → chain (nx (pt s)) (head L (pt s)) (A L) ∧ (length (A L) <= NPROC)%nat.
Proof.
  intros H HL. pose proof (ti_reps _ _ H) as R. split; [by apply R|].
  assert (Hd : NoDup (A L)) by (eapply chain_NoDup; by apply R).
  rewrite <-(length_seq NPROC 0). apply submseteq_length, NoDup_submseteq; [done|]. intros q Hq. apply elem_of_seq.
  pose proof (reps_lt _ _ R L q Hq). lia.
Qed.

Ltac pstep := first [eapply prints_quiet; [first [apply prints_fld|apply prints_gets; done]|]; cbn beta | apply prints_cprintf].

Lemma prints_level s A i : tinv (pt s) A → (i <= MAXPRIO)%nat → prints (readydump_level i) tt (ready_text s A i +:+ nl) s.
Proof.
  intros H Hi. destruct (list_room s A (Ready i) H Hi) as [Hc Hl]. unfold readydump_level, ready_text. pstep.
  eapply prints_bind; [|apply prints_cprintf]. destruct (A (Ready i)) as [|p l].
  - rewrite Hc. apply prints_cprintf.
  - destruct Hc as [Eh Hc]. rewrite Eh. repeat pstep. eapply prints_bind; [apply prints_cprintf|].
    apply prints_before; [|done|done]. intros q r. repeat pstep.
Qed.

(** What the listings of the state lists show.  Each prints its text, changes
    nothing else and leaves the lock free.  freedump gives the number of free
    processes and sleepdump every sleeping process in the order of the list.
    readydump and zombiedump print the first process, then every process but
    the last: the first appears twice and the last one is missing. *)
Theorem dumps_show c s A : unheld c (ls s) → tinv (pt s) A →
  (∃ s', freedump c s = Ok tt s' ∧ shown c s ("Free list size: " +:+ dec (Z.of_nat (length (A Free))) +:+ " processes." +:+ nl) s') ∧
  (∃ s', sleepdump c s = Ok tt s' ∧ shown c s (sleep_text s A +:+ nl) s') ∧
  (∃ s', readydump c s = Ok tt s' ∧ shown c s (texts (λ i, ready_text s A i +:+ nl) (seq 0 (MAXPRIO + 1))) s') ∧
  (∃ s', zombiedump c s = Ok tt s' ∧ shown c s (zombie_text s A +:+ nl) s').
Proof.
  intros Hu H. split; [|split; [|split]]; apply getlock_dumps; try done; intros l' Hh.
  - destruct (list_room s A Free H I) as [Hc Hl]. eapply dumps_quiet; [by apply prints_gets|].
    eapply dumps_quiet; [by apply (prints_count (A Free))|]. apply (dumps_last c _ tt); [apply prints_cprintf|done].
  - destruct (list_room s A Sleep H I) as [Hc Hl]. unfold sleep_text. eapply dumps_quiet; [by apply prints_gets|].
    apply (dumps_bind c _ _ tt); [|apply (dumps_last c _ tt); [apply prints_cprintf|done]].
    cbn [pt put_ls]. destruct (A Sleep) as [|p l]; [rewrite Hc; apply prints_cprintf|]. destruct Hc as [Eh Hc]. rewrite Eh. repeat pstep.
    eapply prints_bind; [apply prints_cprintf|]. apply (prints_after _ (λ q, " -> " +:+ dec (pid (procs (pt s) q)))); [|done|done].
    intros q r. repeat pstep.
  - apply (dumps_last c _ None); [|done]. apply prints_levels. intros i Hi. apply (prints_level (put_ls l' s)); [done|lia].
  - destruct (list_room s A Zombie H I) as [Hc Hl]. unfold zombie_text. eapply dumps_quiet; [by apply prints_gets|].
    apply (dumps_bind c _ _ tt); [|apply (dumps_last c _ tt); [apply prints_cprintf|done]].
    cbn [pt put_ls]. destruct (A Zombie) as [|p l]; [rewrite Hc; apply prints_cprintf|]. destruct Hc as [Eh Hc]. rewrite Eh. repeat pstep.
    eapply prints_bind; [apply prints_cprintf|]. apply (prints_before _ (λ q, " -> " +:+ family s q)); [|done|done].
    intros q r. repeat pstep.
Qed.

(** ** procdump *)

Lemma prints_if {P} (D : Decision P) m s : (∃ t, prints m tt t s) → ∃ t, prints (if decide P then m else mret tt) tt t s.
Proof. intros [t H]. destruct (decide P); [by exists t|]. exists EmptyString. apply prints_ret. Qed.
Lemma prints_then {A B} (m : M kstate A) (f : A → M kstate B) a b s : (∃ t, prints m a t s) → (∃ t, prints (f a) b t s) → ∃ t, prints (m ≫= f) b t s.
Proof. intros [t1 H1] [t2 H2]. exists (t1 +:+ t2). by eapply prints_bind. Qed.
Lemma prints_thousandths r s : ∃ t, prints (thousandths r) tt t s.
Proof.
  unfold thousandths. apply (prints_then _ _ tt); case_match; first [by eexists; apply prints_cprintf|by eexists; apply prints_ret].
Qed.
Lemma prints_pcs l s : ∃ t, prints (print_pcs l) tt t s.
Proof.
  induction l as [|x l [t IH]]; cbn [print_pcs]; [eexists; apply prints_ret|]. case_match; [eexists; apply prints_ret|].
  eexists. eapply prints_bind; [apply prints_cprintf|exact IH].
Qed.
Lemma prints_row p st s : ∃ t, prints (procdumpP3P4 p st) tt t s.
Proof.
  assert (Hc : ∀ x, ∃ t, prints (cprintf x) tt t s) by (intros x; eexists; apply prints_cprintf).
  unfold procdumpP3P4. eapply prints_then; [eexists; by apply prints_gets|]. cbv zeta. eapply prints_then; [eexists; by apply prints_gets|].
  repeat first [apply Hc | apply prints_thousandths | apply (prints_then _ _ tt)].
Qed.
Lemma prints_slot ebp i s : ∃ t, prints (procdump_slot ebp i) tt t s.
Proof.
  unfold procdump_slot. eapply prints_then; [eexists; apply prints_fld|]. cbn beta. destruct (decide _); [eexists; apply prints_ret|].
  apply (prints_then _ _ tt); [apply prints_row|]. apply (prints_then _ _ tt); [|eexists; apply prints_cprintf].
  apply prints_if. eapply prints_then; [eexists; by apply prints_gets|]. apply prints_pcs.
Qed.
(** procdump, which the keyboard interrupt runs, returns in every state in
    which the lock is free: it prints the header and what follows it and
    changes nothing else. *)
Theorem procdump_prints ebp c s : unheld c (ls s) → ∃ t s', procdump ebp c s = Ok tt s' ∧ shown c s (HEADER +:+ t) s'.
Proof.
  intros Hu. assert (Hrows : ∀ n lo s, ∃ t, prints (count_for n lo (λ i, procdump_slot ebp i;; mret (None : option unit))) None t s).
  { induction n as [|n IH]; intros lo s1; cbn [count_for]; [eexists; apply prints_ret|].
    apply (prints_then _ _ (None : option unit)); [|apply IH]. apply (prints_then _ _ tt); [apply prints_slot|eexists; apply prints_ret]. }
  destruct (locked_dumps c (cprintf HEADER;; count_for NPROC 0 (λ i, procdump_slot ebp i;; mret (None : option unit));; release c PTABLE)
    (λ x, ∃ t, x = HEADER +:+ t) s Hu) as (? & s' & [t ->] & E & H); [|by exists t, s'].
  intros l' Hh. destruct (Hrows NPROC 0%nat (put_ls l' s)) as [t Ht]. exists (HEADER +:+ (t +:+ EmptyString)). split; [by eexists|].
  eapply dumps_bind; [apply prints_cprintf|]. eapply dumps_bind; [exact Ht|]. by apply dumps_release.
Qed.
End printing.

Section witness.
#[local] Existing Instance param_h.
#[local] Existing Instance Example.toy.
#[local] Existing Instance Example.toy_ok.

(** Two processes run and none sleeps. *)
Lemma dumps_show_witness : ∃ A s', sleepdump 0 (fst ProcProps.mach3) = Ok tt s' ∧
  shown 0 (fst ProcProps.mach3) (sleep_text (fst ProcProps.mach3) A +:+ nl) s'.
Proof.
  destruct ProcProps.inv_mach3 as [A H]. exists A.
  destruct (dumps_show 0 (fst ProcProps.mach3) A (Machine.inv_unheld _ _ _ _ H) (Machine.i_table _ _ _ _ H)) as (_ & H2 & _). exact H2.
Defined.
End witness.
End Listing.
