(* ===== verification/Sysproc.v ===== *)
(** * System calls on processes and their dispatch (sysproc.c, syscall.c)

    A system call runs on the kernel state and the memory of the calling
    process.  A call may put its process to sleep: it then ends in [Blocked]
    with what is left to do, which the process executes when it has been
    dispatched again.  The calls of sysfile.c act on the state of file Sysfile;
    here they enter through the interface [OtherCalls], as do sys_halt and
    sys_date, which program devices. *)

From S2P Require Import Prelude Spinlock ProcTable CString Bytes Proc ProcInv ProcSpec ProcLife Printf Syscall Listing.
Local Open Scope Z_scope.

Module Sysproc.
Import ProcTable Proc ProcInv ProcSpec Listing.

(** The numbers of syscall.h in order, from 1. *)
Inductive sysno :=
| SYS_fork | SYS_exit | SYS_wait | SYS_pipe | SYS_read | SYS_kill | SYS_exec | SYS_fstat | SYS_chdir | SYS_dup | SYS_getpid | SYS_sbrk
| SYS_sleep | SYS_uptime | SYS_open | SYS_write | SYS_mknod | SYS_unlink | SYS_link | SYS_mkdir | SYS_close | SYS_halt | SYS_date
| SYS_getuid | SYS_getgid | SYS_getppid | SYS_setuid | SYS_setgid | SYS_getprocs | SYS_setpriority | SYS_chown | SYS_chgrp | SYS_chmod.
#[export] Instance sysno_eq_dec : EqDecision sysno.
Proof. solve_decision. Defined.
Definition sysnos : list sysno :=
  [SYS_fork; SYS_exit; SYS_wait; SYS_pipe; SYS_read; SYS_kill; SYS_exec; SYS_fstat; SYS_chdir; SYS_dup; SYS_getpid; SYS_sbrk;
   SYS_sleep; SYS_uptime; SYS_open; SYS_write; SYS_mknod; SYS_unlink; SYS_link; SYS_mkdir; SYS_close; SYS_halt; SYS_date;
   SYS_getuid; SYS_getgid; SYS_getppid; SYS_setuid; SYS_setgid; SYS_getprocs; SYS_setpriority; SYS_chown; SYS_chgrp; SYS_chmod].
(** The table [syscalls]; entry 0 is null. *)
Definition syscalls : list (option sysno) := None :: (Some <$> sysnos).

(** What is left of a call that blocked. *)
Inductive pending := InWait (havekids : bool) | InSleep (n ticks0 : Z) | Gone.
Inductive outcome := Returned (r : Z) | Blocked (k : pending).

Section sysproc.
Context `{cfg : Config} `{sv : Services} `{fo : !FileOps}.

Record sys := mksys { ks : kstate; um : Z → Z }.
Definition put_ks (x : kstate) (s : sys) : sys := mksys x (um s).
Definition put_um (x : Z → Z) (s : sys) : sys := mksys (ks s) x.
Definition on {A} (m : M kstate A) : M sys A := zoom ks put_ks m.

Class OtherCalls := { other_call : nat → sysno → M sys outcome }.

(** [ticks_addr] is the address of the variable ticks, [junk] an uninitialised
    local variable. *)
Context (ticks_addr : Z) (junk : Z).

(** The view of the calling process the argument functions have. *)
Definition usr_of (c : nat) (s : sys) : Syscall.usr :=
  match cur c (ks s) with
  | Some p => Syscall.mkusr (sz (procs (pt (ks s)) p)) (esp (tf (procs (pt (ks s)) p))) (um s)
  | None => Syscall.mkusr 0 0 (um s)
  end.
Definition argint (c : nat) (n : Z) : M sys (option Z) := gets (λ s, Syscall.argint (usr_of c s) n).
(** [argint(n, &x)] with the result ignored. *)
Definition argint_unchecked (c : nat) (n : Z) : M sys Z := a ← argint c n; mret (default junk a).

(** ** The calls *)

Definition sys_fork (c : nat) : M sys Z := on (fork c).
Definition sys_exit (c : nat) : M sys outcome := on (exit c);; mret (Blocked Gone).
Definition wait_result (o : wait_outcome) : outcome :=
  match o with WaitRet r => Returned r | WaitSleep b => Blocked (InWait b) end.
Definition sys_wait (c : nat) : M sys outcome := o ← on (wait c); mret (wait_result o).
Definition sys_kill (c : nat) : M sys Z :=
  a ← argint c 0;
  match a with None => mret (-1) | Some pid => on (kill c pid) end.
Definition sys_getpid (c : nat) : M sys Z := p ← on (myproc c); x ← on (fld p pid); mret (i32 x).
Definition sys_sbrk (c : nat) : M sys Z :=
  a ← argint c 0;
  match a with
  | None => mret (-1)
  | Some n =>
      p ← on (myproc c);
      addr ← on (fld p sz);
      r ← on (growproc c n);
      if r <? 0 then mret (-1) else mret (i32 addr)
  end.

(** The loop of sys_sleep; the comparison is unsigned. *)
Definition sleep_loop (c : nat) (n ticks0 : Z) : M kstate outcome :=
  t ← gets ticks;
  if u32 (t - ticks0) <? u32 n then
    p ← myproc c;
    k ← fld p killed;
    if negb (k =? 0) then mret (Returned (-1)) else
    sleep c (AddrChan ticks_addr) None;;
    mret (Blocked (InSleep n ticks0))
  else mret (Returned 0).
Definition sys_sleep (c : nat) : M sys outcome :=
  a ← argint c 0;
  match a with
  | None => mret (Returned (-1))
  | Some n => ticks0 ← on (gets ticks); on (sleep_loop c n ticks0)
  end.
Definition sys_uptime : M sys Z := t ← on (gets ticks); mret (i32 t).

Definition sys_getuid (c : nat) : M sys Z := p ← on (myproc c); on (fld p uid).
Definition sys_getgid (c : nat) : M sys Z := p ← on (myproc c); on (fld p gid).
Definition sys_getppid (c : nat) : M sys Z :=
  p ← on (myproc c);
  q ← on (fld p parent);
  match q with Some q => on (fld q pid) | None => on (fld p pid) end.
Definition sys_setuid (c : nat) : M sys Z :=
  temp ← argint_unchecked c 0;
  let id := u32 temp in
  if id <? 32768 then p ← on (myproc c); on (upd p (set_uid id));; mret 0 else mret (-1).
Definition sys_setgid (c : nat) : M sys Z :=
  temp ← argint_unchecked c 0;
  let id := u32 temp in
  if id <? 32768 then p ← on (myproc c); on (upd p (set_gid id));; mret 0 else mret (-1).
Definition sys_setpriority (c : nat) : M sys Z :=
  pid ← argint_unchecked c 0;
  priority ← argint_unchecked c 1;
  on (setpriority c pid priority).

(** *** getprocs *)

Definition sizeof_uproc : Z := 96.
Definition le32 (w : Z) : list Z := [w mod 256; (w / 256) mod 256; (w / 65536) mod 256; (w / 16777216) mod 256].
Definition uproc_bytes (u : uproc) : list Z :=
  le32 (u_pid u) ++ le32 (u_uid u) ++ le32 (u_gid u) ++ le32 (u_ppid u) ++ le32 (u_elapsed_ticks u) ++ le32 (u_CPU_total_ticks u) ++
  u_state u ++ le32 (u_size u) ++ u_name u ++ le32 (u_priority u).
Definition poke (a : Z) (l : list Z) : M sys unit := modify (λ s, put_um (Syscall.put_bytes (um s) a l) s).

(** The numbers of the enum procstate. *)
Definition RUNNABLE_no : Z := 3.
Definition SLEEPING_no : Z := 2.
Definition RUNNING_no : Z := 4.
Definition ZOMBIE_no : Z := 5.

Context (ujunk : uproc).

(** The loop, from slot [pcount] with [k] slots left; [utable] is null. *)
Fixpoint getprocs_loop (k pcount : nat) (max ucount counter : Z) : M sys Z :=
  match k with
  | O => mret counter
  | S k =>
      if ucount <? max then
        current ← on (getuproc ujunk pcount);
        let st := nth 0 (u_state current) 0 in
        if (st =? RUNNING_no) || (st =? SLEEPING_no) || (st =? RUNNABLE_no) || (st =? ZOMBIE_no) then
          poke (0 + ucount * sizeof_uproc) (uproc_bytes current);;
          getprocs_loop k (S pcount) max (ucount + 1) (counter + 1)
        else getprocs_loop k (S pcount) max ucount counter
      else mret counter
  end.
(** [argptr(1, (void * ) utable, ...)] stores the pointer at address 0. *)
Definition sys_getprocs (c : nat) : M sys Z :=
  max ← argint_unchecked c 0;
  a ← gets (λ s, Syscall.argptr (usr_of c s) 1 (sizeof_uproc * 50));
  (match a with Some i => poke 0 (le32 i) | None => mret tt end);;
  if max <? 1 then mret (-1) else
  on (getlock c);;
  counter ← getprocs_loop NPROC 0 max 0 0;
  on (freelock c);;
  mret counter.

(** ** Dispatch *)

Context `{fc : !OtherCalls}.

Definition ret (m : M sys Z) : M sys outcome := r ← m; mret (Returned r).
Definition handler (c : nat) (n : sysno) : M sys outcome :=
  match n with
  | SYS_fork => ret (sys_fork c)
  | SYS_exit => sys_exit c
  | SYS_wait => sys_wait c
  | SYS_kill => ret (sys_kill c)
  | SYS_getpid => ret (sys_getpid c)
  | SYS_sbrk => ret (sys_sbrk c)
  | SYS_sleep => sys_sleep c
  | SYS_uptime => ret sys_uptime
  | SYS_getuid => ret (sys_getuid c)
  | SYS_getgid => ret (sys_getgid c)
  | SYS_getppid => ret (sys_getppid c)
  | SYS_setuid => ret (sys_setuid c)
  | SYS_setgid => ret (sys_setgid c)
  | SYS_getprocs => ret (sys_getprocs c)
  | SYS_setpriority => ret (sys_setpriority c)
  | _ => other_call c n
  end.

(** [proc->tf->eax = r] *)
Definition set_result (c : nat) (r : Z) : M kstate unit :=
  p ← myproc c; upd p (λ x, set_tf (set_eax (u32 r) (tf x)) x).
Definition finish_call (c : nat) (o : outcome) : M sys outcome :=
  match o with
  | Returned r => on (set_result c r);; mret (Returned r)
  | Blocked k => mret (Blocked k)
  end.
Definition syscall (c : nat) : M sys outcome :=
  p ← on (myproc c);
  e ← on (fld p (λ x, eax (tf x)));
  let num := i32 e in
  match (if (0 <? num) && (num <? Z.of_nat (length syscalls)) then mjoin (syscalls !! Z.to_nat num) else None) with
  | Some n => o ← handler c n; finish_call c o
  | None =>
      x ← on (fld p pid);
      nm ← on (fld p name);
      on (cprintf (dec x +:+ " " +:+ cstr nm +:+ ": unknown sys call " +:+ dec num +:+ nl));;
      on (set_result c (-1));;
      mret (Returned (-1))
  end.
(** The rest of a call whose process has been dispatched again. *)
Definition continue_call (c : nat) (k : pending) : M sys outcome :=
  match k with
  | InWait b => o ← on (wait_again c b); finish_call c (wait_result o)
  | InSleep n ticks0 => o ← on (sleep_loop c n ticks0); finish_call c o
  | Gone => panic "zombie exit"
  end.
End sysproc.

(** ** Sleeping *)

Section sleeping.
Context `{cfg : Config} `{sv : Services} `{svok : !ProcLife.ServicesOk (mode := Total) sv}.

(** C37: How long sys_sleep sleeps.  When [k] ticks have passed since the call, the
    count of ticks wrapping around at 2^32, a pass of the loop returns 0 exactly
    if [k] is at least the argument, read as an unsigned number; until then it
    returns -1 if the process has been killed and otherwise leaves the process
    asleep on the address of ticks. *)
Theorem sleep_lasts ta c n t0 k (s : kstate) A p :
  0 <= k < w32 → ticks s = u32 (t0 + k) → unheld c (ls s) → cur c s = Some p → tinv (pt s) A → p ∈ A Running →
  if u32 n <=? k then sleep_loop ta c n t0 s = Ok (Returned 0) s
  else if negb (killed (procs (pt s) p) =? 0) then sleep_loop ta c n t0 s = Ok (Returned (-1)) s
  else ∃ s', sleep_loop ta c n t0 s = Ok (Blocked (InSleep n t0)) s' ∧ tinv (pt s') (ProcInv.move Running Sleep p A) ∧
         chan (procs (pt s') p) = AddrChan ta ∧ state (procs (pt s') p) = SLEEPING ∧ unheld c (ls s') ∧ cur c s' = None.
Proof.
  intros Hk Ht Hu Hc H Hp. assert (Ek : u32 (ticks s - t0) = k).
  { rewrite Ht. unfold u32 in *. rewrite Zminus_mod_idemp_l. replace (t0 + k - t0) with k by lia. by apply Z.mod_small. }
  unfold sleep_loop, myproc. cbn -[u32]. unfold mbind, M_mbind, M_bind, gets. rewrite Ek. destruct (Z.leb_spec (u32 n) k) as [Hle|Hle].
  { rewrite (proj2 (Z.ltb_ge _ _)) by lia. done. }
  rewrite (proj2 (Z.ltb_lt _ _)) by lia. rewrite Hc. cbn -[u32 sleep]. unfold fld, gets. destruct (negb _); [done|].
  destruct (wp_total (sleep c (AddrChan ta) None) (λ _ s', tinv (pt s') (ProcInv.move Running Sleep p A) ∧
    chan (procs (pt s') p) = AddrChan ta ∧ state (procs (pt s') p) = SLEEPING ∧ unheld c (ls s') ∧ cur c s' = None) s) as ([] & s' & E & HQ).
  { apply (wp_sleep (mode := Total) c _ _ s A p); try done; [apply ProcLife.ok_switchkvm|]. intros s' l1 H1 H2 _ H4 _ [H6 _] _. split; [done|].
    unfold is_proc in H2. rewrite H2. unfold slept, settle. split; [by repeat case_match|]. split; [by repeat case_match|]. split; [done|exact H6]. }
  exists s'. rewrite E. done.
Qed.
End sleeping.

(** ** getprocs *)

Section getprocs.
Context `{cfg : Config} `{sv : Services} (junk : Z) (ujunk : uproc).

Lemma states_codes st : CString.readable (codes (states st) ++ [0]) 32 ∧ ∃ x l, CString.cstr (codes (states st) ++ [0]) = x :: l ∧ 5 < x.
Proof.
  destruct st; (split; [vm_compute; repeat (first [by left|right])|]); eexists _, _; (split; [vm_compute; reflexivity|lia]).
Qed.

(** No slot passes the test on the first letter of its state. *)
Lemma getuproc_state (s : kstate) q : length (u_state ujunk) = 32%nat → length (u_name ujunk) = 32%nat → CString.readable (name (procs (pt s) q)) 32 →
  ∃ u, getuproc ujunk q s = Ok u s ∧ 5 < nth 0 (u_state u) 0.
Proof.
  intros L1 L2 Hr. destruct (states_codes (state (procs (pt s) q))) as (Hc & x & l & Ex & Hx). unfold getuproc, fld, gets, mbind, M_mbind, M_bind.
  destruct (CString.strncpy_loop_spec (codes (states (state (procs (pt s) q))) ++ [0]) 32 0 (u_state ujunk)) as (st & E1 & Hl1 & H1 & _); [done|lia|].
  destruct (CString.strncpy_loop_spec (name (procs (pt s) q)) 32 0 (u_name ujunk)) as (nm & E2 & _); [done|lia|].
  unfold lift_opt, CString.strncpy. change (Z.to_nat STRMAX) with 32%nat. rewrite E1, E2. eexists. split; [done|]. cbn [u_state].
  specialize (H1 0%nat ltac:(lia)). rewrite drop_0, Ex in H1. cbn in H1. by rewrite (nth_lookup_Some _ _ _ _ H1).
Qed.

Lemma getprocs_none k : ∀ pc max (s : sys), length (u_state ujunk) = 32%nat → length (u_name ujunk) = 32%nat →
  (∀ q, (q < pc + k)%nat → CString.readable (name (procs (pt (ks s)) q)) 32) → getprocs_loop ujunk k pc max 0 0 s = Ok 0 s.
Proof.
  induction k as [|k IH]; intros pc max s L1 L2 Hr; cbn [getprocs_loop]; [done|]. destruct (0 <? max); [|done].
  destruct (getuproc_state (ks s) pc L1 L2) as (u & E & Hu); [apply Hr; lia|].
  unfold mbind, M_mbind, M_bind. unfold on at 1, zoom at 1. rewrite E. replace (put_ks (ks s) s) with s by (by destruct s).
  unfold RUNNING_no, SLEEPING_no, RUNNABLE_no, ZOMBIE_no. rewrite !(proj2 (Z.eqb_neq _ _)) by lia. cbn [orb]. apply IH; try done.
  intros q Hq. apply Hr. lia.
Qed.

(** getprocs reports nothing.  Whatever processes there are, the call returns
    0 and writes no entry: the test compares the first letter of the name of a
    state with the numbers of the states.  If the table argument is acceptable,
    its address is stored over the first four bytes of the process's memory,
    since argptr is given a null pointer. *)
Theorem getprocs_reports_nothing c max (s : sys) :
  length (u_state ujunk) = 32%nat → length (u_name ujunk) = 32%nat → (∀ q, (q < NPROC)%nat → CString.readable (name (procs (pt (ks s)) q)) 32) →
  unheld c (ls (ks s)) → Syscall.argint (usr_of c s) 0 = Some max → 1 <= max →
  ∃ s', sys_getprocs junk ujunk c s = Ok 0 s' ∧ pt (ks s') = pt (ks s) ∧
    um s' = match Syscall.argptr (usr_of c s) 1 4800 with Some i => Syscall.put_bytes (um s) 0 (le32 i) | None => um s end.
Proof.
  intros L1 L2 Hr Hu Ha Hm. unfold sys_getprocs, argint_unchecked, argint, gets. unfold mbind, M_mbind, M_bind. rewrite Ha. cbn -[getprocs_loop getlock freelock u32 Syscall.argptr NPROC].
  set (a := Syscall.argptr (usr_of c s) 1 4800). change (sizeof_uproc * 50) with 4800. fold a.
  set (um' := match a with Some i => _ | None => um s end).
  assert (E : match a with Some i => poke 0 (le32 i) | None => mret tt end s = Ok tt (mksys (ks s) um')) by (destruct a, s; done).
  rewrite E. rewrite (proj2 (Z.ltb_ge _ _)) by lia.
  destruct (wp_total (getlock c) (λ _ s', ∃ l, s' = put_ls l (ks s) ∧ held c l) (ks s)) as (z & s1 & E1 & l1 & -> & Hh).
  { unfold getlock. apply wp_bind, (wp_acq (mode := Total)); [done|]. intros l Hh _ _. wp_steps. by exists l. }
  unfold on at 1, zoom at 1. cbn [ks]. rewrite E1. cbn [put_ks um]. rewrite getprocs_none; [|done|done|exact Hr].
  destruct (wp_total (freelock c) (λ _ s', ∃ l, s' = put_ls l (put_ls l1 (ks s))) (put_ls l1 (ks s))) as (z2 & s2 & E2 & l2 & ->).
  { unfold freelock. apply wp_bind, (wp_rel (mode := Total)); [done|]. intros l _ _ _. wp_steps. by exists l. }
  unfold on, zoom. cbn [ks put_ks]. rewrite E2. eexists. split; [done|]. done.
Qed.
End getprocs.

(** ** Dispatch *)

Section dispatch.
Context `{cfg : Config} `{sv : Services} `{fo : !FileOps} `{fc : !OtherCalls} (ticks_addr junk : Z) (ujunk : uproc).

(** Each number of syscall.h calls its own handler, whose result goes to eax;
    any other number, also a negative one, prints a message and returns -1 in
    eax, and no other process, lock or byte of memory changes. *)
Theorem syscall_dispatches c (s : sys) p : cur c (ks s) = Some p →
  (∀ i n, sysnos !! i = Some n → eax (tf (procs (pt (ks s)) p)) = Z.of_nat i + 1 →
     syscall ticks_addr junk ujunk c s = (handler ticks_addr junk ujunk c n ≫= finish_call c) s) ∧
  ((∀ i, (i < length sysnos)%nat → i32 (eax (tf (procs (pt (ks s)) p))) ≠ Z.of_nat i + 1) →
     ∃ s', syscall ticks_addr junk ujunk c s = Ok (Returned (-1)) s' ∧ eax (tf (procs (pt (ks s')) p)) = 4294967295 ∧
       (∀ q, q ≠ p → procs (pt (ks s')) q = procs (pt (ks s)) q) ∧ ls (ks s') = ls (ks s) ∧ um s' = um s).
Proof.
  intros Hc. assert (Hmy : ∀ s1, cur c (ks s1) = Some p → on (myproc c) s1 = Ok p s1).
  { intros [k1 u1] H. unfold on, zoom, myproc, gets, mbind, M_mbind, M_bind. cbn [ks] in *. rewrite H. done. }
  assert (Hfld : ∀ {B} (f : proc → B) s1, on (fld p f) s1 = Ok (f (procs (pt (ks s1)) p)) s1) by (intros ? ? []; done).
  unfold syscall. split.
  - intros i n Hi He. pose proof (lookup_lt_Some _ _ _ Hi) as Hlt. change (length sysnos) with 33%nat in Hlt.
    unfold mbind at 1, M_mbind at 1, M_bind at 1. rewrite Hmy by done. unfold mbind at 1, M_mbind at 1, M_bind at 1. rewrite Hfld, He.
    rewrite i32_small by lia. rewrite (proj2 (Z.ltb_lt _ _)) by lia. rewrite (proj2 (Z.ltb_lt _ _)) by (change (length syscalls) with 34%nat; lia).
    cbn [andb]. replace (Z.to_nat (Z.of_nat i + 1)) with (S i) by lia. change (syscalls !! S i) with ((Some <$> sysnos) !! i).
    rewrite list_lookup_fmap, Hi. done.
  - intros Hn. set (e := i32 (eax (tf (procs (pt (ks s)) p)))) in *.
    assert (En : (if (0 <? e) && (e <? Z.of_nat (length syscalls)) then mjoin (syscalls !! Z.to_nat e) else None) = None).
    { change (length syscalls) with 34%nat. change (length sysnos) with 33%nat in Hn. destruct (Z.ltb_spec 0 e); [|done].
      destruct (Z.ltb_spec e (Z.of_nat 34)); [|done]. exfalso. apply (Hn (Z.to_nat (e - 1))); lia. }
    unfold mbind at 1, M_mbind at 1, M_bind at 1. rewrite Hmy by done. unfold mbind at 1, M_mbind at 1, M_bind at 1. rewrite Hfld. fold e. cbv zeta. rewrite En.
    unfold mbind at 1, M_mbind at 1, M_bind at 1. rewrite Hfld. unfold mbind at 1, M_mbind at 1, M_bind at 1. rewrite Hfld.
    unfold set_result, myproc, on, zoom, gets, mbind, M_mbind, M_bind, modify, cprintf. cbn -[dec].
    change (cur c (put_out ?o (ks s))) with (cur c (ks s)). rewrite Hc. eexists. split; [done|]. cbn -[dec].
    split; [by rewrite fn_lookup_alter|]. split; [|done]. intros q Hq. by rewrite fn_lookup_alter_ne.
Qed.
End dispatch.
End Sysproc.
