(* ===== verification/Trap.v ===== *)
(** * Traps (trap.c)

    A trap runs on CPU [c] with the frame [t] the processor and alltraps have
    pushed.  It ends by returning to the interrupted code, or with a process
    that has been switched away from: inside a system call, in the yield on a
    clock tick, or for good.  [ideintr], [kbdintr] and [uartintr] are an
    interface; lapiceoi, which acknowledges an interrupt to the controller,
    changes no state of the kernel. *)

From S2P Require Import Prelude Spinlock ProcTable CString Bytes Proc ProcInv ProcSpec ProcLife Machine Boot Example ProcProps.
From S2P Require Import Printf Syscall Listing Sysproc.
Local Open Scope Z_scope.

Module Trap.
Import ProcTable Proc ProcInv ProcSpec Listing Sysproc.

Definition T_SYSCALL : Z := 64.
Definition T_IRQ0 : Z := 32.
Definition IRQ_TIMER : Z := 0.
Definition IRQ_KBD : Z := 1.
Definition IRQ_COM1 : Z := 4.
Definition IRQ_IDE : Z := 14.
Definition IRQ_SPURIOUS : Z := 31.
Definition DPL_USER : Z := 3.
Definition SCHED_INTERVAL : Z := 10.

(** Where a trap ends. *)
Inductive ending := Back | InCall (k : pending) | Yielded.

Section trap.
Context `{cfg : Config} `{sv : Services} `{fo : !FileOps} `{fc : !OtherCalls}.
Class Interrupts := { ideintr : nat → M sys unit; kbdintr : nat → M sys unit; uartintr : nat → M sys unit }.
Context `{irq : !Interrupts} (ticks_addr junk : Z) (ujunk : uproc) (cr2 : Z).

Definition from_user (t : trapframe) : bool := Z.land (cs t) 3 =? DPL_USER.
Definition running_killed (c : nat) : M kstate bool :=
  q ← gets (cur c);
  match q with Some p => k ← fld p killed; mret (negb (k =? 0)) | None => mret false end.

(** System calls. *)
Definition after_call (c : nat) (o : outcome) : M sys ending :=
  match o with
  | Blocked k => mret (InCall k)
  | Returned _ =>
      p ← on (myproc c);
      k ← on (fld p killed);
      if negb (k =? 0) then on (exit c);; mret (InCall Gone) else mret Back
  end.
Definition trap_syscall (c : nat) (t : trapframe) : M sys ending :=
  p ← on (myproc c);
  k ← on (fld p killed);
  if negb (k =? 0) then on (exit c);; mret (InCall Gone) else
  on (upd p (set_tf t));;
  o ← syscall ticks_addr junk ujunk c;
  after_call c o.

(** The switch over the interrupts and exceptions. *)
Definition trap_switch (c : nat) (t : trapframe) : M sys unit :=
  let n := trapno t in
  if n =? T_IRQ0 + IRQ_TIMER then
    (if decide (c = 0%nat) then
       on (modify (λ s, put_ticks (u32 (ticks s + 1)) s));;
       on (wakeup c (AddrChan ticks_addr))
     else mret tt)
  else if n =? T_IRQ0 + IRQ_IDE then ideintr c
  else if n =? T_IRQ0 + IRQ_IDE + 1 then mret tt
  else if n =? T_IRQ0 + IRQ_KBD then kbdintr c
  else if n =? T_IRQ0 + IRQ_COM1 then uartintr c
  else if (n =? T_IRQ0 + 7) || (n =? T_IRQ0 + IRQ_SPURIOUS) then
    on (cprintf ("cpu" +:+ dec (Z.of_nat c) +:+ ": spurious interrupt at " +:+ ptr (cs t) +:+ ":" +:+ ptr (eip t) +:+ nl))
  else
    q ← on (gets (cur c));
    match q with
    | Some p =>
        if Z.land (cs t) 3 =? 0 then
          on (cprintf ("unexpected trap " +:+ dec n +:+ " from cpu " +:+ dec (Z.of_nat c) +:+ " eip " +:+ ptr (eip t) +:+ " (cr2=0x" +:+ ptr cr2 +:+ ")" +:+ nl));;
          panic "trap"
        else
          x ← on (fld p pid);
          nm ← on (fld p name);
          on (cprintf ("pid " +:+ dec x +:+ " " +:+ cstr nm +:+ ": trap " +:+ dec n +:+ " err " +:+ dec (err t) +:+ " on cpu " +:+ dec (Z.of_nat c) +:+
            " eip 0x" +:+ ptr (eip t) +:+ " addr 0x" +:+ ptr cr2 +:+ "--kill proc" +:+ nl));;
          on (upd p (set_killed 1))
    | None =>
        on (cprintf ("unexpected trap " +:+ dec n +:+ " from cpu " +:+ dec (Z.of_nat c) +:+ " eip " +:+ ptr (eip t) +:+ " (cr2=0x" +:+ ptr cr2 +:+ ")" +:+ nl));;
        panic "trap"
    end.

(** [if(proc && proc->killed && (tf->cs&3) == DPL_USER) exit();] *)
Definition exit_if_killed (c : nat) (t : trapframe) (k : M sys ending) : M sys ending :=
  b ← on (running_killed c);
  if b && from_user t then on (exit c);; mret (InCall Gone) else k.

(** Force the process to give up the CPU on a clock tick. *)
Definition must_yield (c : nat) (t : trapframe) : M kstate bool :=
  q ← gets (cur c);
  match q with
  | Some p =>
      st ← fld p state;
      n ← gets ticks;
      mret (bool_decide (st = RUNNING) && (trapno t =? T_IRQ0 + IRQ_TIMER) && (n mod SCHED_INTERVAL =? 0))
  | None => mret false
  end.
Definition trap_end (c : nat) (t : trapframe) : M sys ending := exit_if_killed c t (mret Back).

Definition trap_yield (c : nat) (t : trapframe) : M sys ending :=
  b ← on (must_yield c t);
  if (b : bool) then on (yield c);; mret Yielded else trap_end c t.

Definition trap (c : nat) (t : trapframe) : M sys ending :=
  if trapno t =? T_SYSCALL then trap_syscall c t else
  trap_switch c t;;
  exit_if_killed c t (trap_yield c t).

(** What the process executes of its trap once it has been dispatched again. *)
Definition trap_resume (c : nat) (t : trapframe) (e : ending) : M sys ending :=
  match e with
  | Back => mret Back
  | InCall k => o ← continue_call ticks_addr c k; after_call c o
  | Yielded => trap_end c t
  end.
End trap.

(** ** Properties *)

Section alive.
Context `{cfg : Config} `{sv : Services} `{fo : !FileOps} `{fc : !OtherCalls} `{irq : !Interrupts} (ticks_addr junk : Z) (ujunk : uproc) (cr2 : Z).
Local Abbreviation wpp := (wp (H := Partial)).

(** The process on the CPU, if any, has not been killed. *)
Definition alive (c : nat) (s : sys) : Prop := ∀ p, cur c (ks s) = Some p → killed (procs (pt (ks s)) p) = 0.
Definition back_alive (c : nat) (e : ending) (s : sys) : Prop := e = Back → alive c s.

Lemma skip {A B} (m : M sys A) (f : A → M sys B) Q s : (∀ a s', wpp (f a) Q s') → wpp (m ≫= f) Q s.
Proof using. intros H. apply wp_bind. eapply wp_mono; [apply wp_any|]. intros a s' _. apply H. Qed.
Lemma any_exit c s : wpp (on (exit c);; mret (InCall Gone)) (back_alive c) s.
Proof using. apply skip. intros [] s'. apply wp_ret. discriminate. Qed.
Lemma any_after_call c o s : wpp (after_call c o) (back_alive c) s.
Proof using.
  destruct o as [r|k]; cbn [after_call]; [|apply wp_ret; discriminate].
  apply wp_bind. unfold wp, on, zoom, myproc, gets, mbind, M_mbind, M_bind. destruct (cur c (ks s)) as [p|] eqn:E; [|done]. cbn [deref].
  change (wpp (on (fld p killed) ≫= (λ k, if negb (k =? 0) then on (exit c);; mret (InCall Gone) else mret Back)) (back_alive c) (put_ks (ks s) s)).
  apply wp_bind. unfold wp, on, zoom, fld, gets. cbn [ks put_ks]. destruct (Z.eqb_spec (killed (procs (pt (ks s)) p)) 0) as [Ek|Ek]; cbn [negb].
  - intros _ q Hq. cbn [ks put_ks] in *. rewrite E in Hq. by injection Hq as <-.
  - apply any_exit.
Qed.
Lemma running_killed_eq c s :
  on (running_killed c) s = Ok (match cur c (ks s) with Some p => negb (killed (procs (pt (ks s)) p) =? 0) | None => false end) s.
Proof using. destruct s as [k u]. unfold on, zoom, running_killed, gets, mbind, M_mbind, M_bind. cbn [ks]. by destruct (cur c k). Qed.
Lemma any_exit_if c t k s : from_user t = true → (alive c s → wpp k (back_alive c) s) → wpp (exit_if_killed c t k) (back_alive c) s.
Proof using.
  intros Hu Hk. unfold exit_if_killed. apply wp_bind. unfold wp at 1. rewrite running_killed_eq, Hu, andb_true_r.
  destruct (match cur c (ks s) with Some p => _ | None => false end) eqn:E; [apply any_exit|].
  apply Hk. intros q Hq. rewrite Hq in E. apply negb_false_iff, Z.eqb_eq in E. done.
Qed.
Lemma any_trap_end c t s : from_user t = true → wpp (trap_end c t) (back_alive c) s.
Proof using. intros Hu. apply any_exit_if; [done|]. intros Ha. apply wp_ret. by intros _. Qed.

(** C35: No killed process gets back to its program.  A trap from user mode, and the
    rest of one whose process slept or yielded in it, returns to the program
    only if the process on the CPU is not marked as killed: it exits otherwise. *)
Theorem killed_never_returns c t (s s' : sys) : from_user t = true →
  (trap ticks_addr junk ujunk cr2 c t s = Ok Back s' → alive c s') ∧
  (∀ e, e ≠ Back → trap_resume ticks_addr c t e s = Ok Back s' → alive c s').
Proof.
  intros Hu. split.
  - intros E. refine (wp_partial _ (back_alive c) _ _ _ _ E eq_refl). unfold trap. destruct (_ =? _).
    + unfold trap_syscall. apply skip. intros p s1. apply skip. intros k s2. destruct (negb _); [apply any_exit|].
      apply skip. intros [] s3. apply skip. intros o s4. apply any_after_call.
    + apply skip. intros [] s1. apply any_exit_if; [done|]. intros _. unfold trap_yield. apply skip. intros b s2. destruct b; [|by apply any_trap_end].
      apply skip. intros [] s3. apply wp_ret. discriminate.
  - intros e He E. refine (wp_partial _ (back_alive c) _ _ _ _ E eq_refl). destruct e as [|k|]; [done| |by apply any_trap_end].
    cbn [trap_resume]. apply skip. intros o s1. apply any_after_call.
Qed.
End alive.

Section timer.
Context `{cfg : Config} `{sv : Services} `{svok : !ProcLife.ServicesOk (mode := Total) sv} `{fo : !FileOps} `{fc : !OtherCalls} `{irq : !Interrupts}.
Context (ticks_addr junk : Z) (ujunk : uproc) (cr2 : Z).

(** The state lists after a tick: the sleepers on the clock are ready, and every
    tenth tick the running process joins the end of its ready list. *)
Definition tick_lists (s : kstate) (n : Z) (p : nat) (A : lid → list nat) : lid → list nat :=
  let B := wake_lists (pt s) (AddrChan ticks_addr) A in
  if n mod SCHED_INTERVAL =? 0 then yield_lists n (procs (pt s) p) p B else B.

Lemma wp_on {A} (m : M kstate A) (Q : A → sys → Prop) s : wp (H := Total) m (λ a k, Q a (put_ks k s)) (ks s) → wp (H := Total) (on m) Q s.
Proof using. apply wp_zoom. Qed.

Lemma move_stays q p L1 L2 A L : q ≠ p → q ∈ A L → q ∈ ProcInv.move L1 L2 p A L.
Proof using.
  intros Hq HA. assert (H1 : q ∈ (<[L1 := del p (A L1)]> A) L).
  { destruct (decide (L = L1)) as [->|Hne]; [rewrite fn_lookup_insert; by apply elem_of_del|by rewrite fn_lookup_insert_ne]. }
  unfold ProcInv.move. destruct (decide (L = L2)) as [->|Hne]; [rewrite fn_lookup_insert; by apply elem_of_app; left|by rewrite fn_lookup_insert_ne].
Qed.
Lemma tick_wakes s n p A q : tinv (pt s) A → p ∈ A Running → q ∈ A Sleep → chan (procs (pt s) q) = AddrChan ticks_addr →
  ∃ i, q ∈ tick_lists s n p A (Ready i).
Proof using.
  intros H Hp Hq Hch. pose proof (good_prio _ _ _ (ti_good _ _ H _ _ Hq) ltac:(done)) as Hpr. exists (Z.to_nat (priority (procs (pt s) q))).
  assert (HB : q ∈ wake_lists (pt s) (AddrChan ticks_addr) A (Ready (Z.to_nat (priority (procs (pt s) q))))).
  { cbn. apply elem_of_app. right. apply list_elem_of_filter. split; [|done]. split; [done|lia]. }
  assert (Hne : q ≠ p) by (intros ->; by pose proof (reps_disj _ _ (ti_reps _ _ H) _ _ _ Hq Hp)).
  unfold tick_lists. destruct (_ =? _); [|done]. unfold yield_lists, sched_lists. destruct (_ && _); by repeat apply move_stays.
Qed.

(** The clock interrupt on CPU 0, in user mode with a process that has not been
    killed: the tick count advances, every process that slept on it is ready,
    no other process sleeps or wakes, and the process goes on unless the count
    is a multiple of SCHED_INTERVAL, when it gives up the CPU and waits at the
    end of a ready list. *)
Theorem timer_tick t (s : sys) A p :
  trapno t = 32 → from_user t = true → cur 0 (ks s) = Some p → killed (procs (pt (ks s)) p) = 0 →
  unheld 0 (ls (ks s)) → tinv (pt (ks s)) A → p ∈ A Running →
  let n := u32 (ticks (ks s) + 1) in
  ∃ s', trap ticks_addr junk ujunk cr2 0 t s = Ok (if n mod SCHED_INTERVAL =? 0 then Yielded else Back) s' ∧
    ticks (ks s') = n ∧ tinv (pt (ks s')) (tick_lists (ks s) n p A) ∧
    cur 0 (ks s') = (if n mod SCHED_INTERVAL =? 0 then None else Some p) ∧ unheld 0 (ls (ks s')) ∧ um s' = um s ∧
    ∀ q, q ∈ A Sleep → chan (procs (pt (ks s)) q) = AddrChan ticks_addr → ∃ i, q ∈ tick_lists (ks s) n p A (Ready i).
Proof.
  intros Ht Hu Hc Hk Hl H Hp n.
  destruct (wp_total (trap ticks_addr junk ujunk cr2 0 t) (λ e s', e = (if n mod SCHED_INTERVAL =? 0 then Yielded else Back) ∧
    ticks (ks s') = n ∧ tinv (pt (ks s')) (tick_lists (ks s) n p A) ∧
    cur 0 (ks s') = (if n mod SCHED_INTERVAL =? 0 then None else Some p) ∧ unheld 0 (ls (ks s')) ∧ um s' = um s) s) as (e & s' & E & -> & HQ);
    [|exists s'; destruct HQ as (Q1 & Q2 & Q3 & Q4 & Q5); repeat (split; [done|]); intros; by apply tick_wakes].
  unfold trap. rewrite Ht. cbn [Z.eqb]. change (32 =? T_SYSCALL) with false. cbv iota. apply wp_bind. unfold trap_switch. rewrite Ht.
  change (32 =? T_IRQ0 + IRQ_TIMER) with true. cbv iota. rewrite decide_True by done.
  apply wp_bind, wp_on, wp_modify, wp_on. cbn [ks put_ks].
  apply (wp_wakeup (mode := Total) 0 _ _ A); [exact Hl|exact H|]. intros k1 H1 H2 Hl1 (Hc1 & _) _ (_ & _ & Ht1 & _).
  change (pt (put_ticks _ (ks s))) with (pt (ks s)) in *. change (ticks (put_ticks ?x (ks s))) with x in Ht1. fold n in Ht1.
  assert (Ep : procs (pt k1) p = set_next (next (procs (pt k1) p)) (procs (pt (ks s)) p)).
  { pose proof (H2 p) as E. unfold is_proc, woken_proc in E. rewrite decide_False in E; [done|]. intros [Hs _].
    by pose proof (reps_disj _ _ (ti_reps _ _ H) _ _ _ Hs Hp). }
  assert (Hcur : cur 0 k1 = Some p) by (unfold cur; rewrite Hc1; exact Hc).
  assert (Hrun : state (procs (pt k1) p) = RUNNING) by (by apply (good_state _ Running), (ti_good _ _ H1)).
  unfold exit_if_killed. apply wp_bind. unfold wp at 1. rewrite running_killed_eq. cbn [ks put_ks]. rewrite Hcur, Ep. cbn [killed set_next].
  rewrite Hk. cbn [Z.eqb negb andb]. unfold trap_yield. apply wp_bind, wp_on. unfold must_yield. cbn [ks put_ks]. wp_steps. rewrite Hcur.
  apply wp_bind, wp_fld. wp_steps. rewrite Hrun, Ht, Ht1. change (32 =? T_IRQ0 + IRQ_TIMER) with true. rewrite bool_decide_true by done. cbn [andb].
  unfold tick_lists. destruct (n mod SCHED_INTERVAL =? 0).
  - apply wp_bind, wp_on. cbn [ks put_ks]. apply (wp_yield (mode := Total) 0 k1 (wake_lists (pt (ks s)) (AddrChan ticks_addr) A) p); try done; [apply ProcLife.ok_switchkvm|].
    intros k2 G1 _ _ G4 [G5 _] (_ & _ & G6 & _). apply wp_ret. cbn [ks put_ks um]. rewrite Ht1, Ep in G1. rewrite G6. done.
  - unfold trap_end, exit_if_killed. apply wp_bind. unfold wp at 1. rewrite running_killed_eq. cbn [ks put_ks]. rewrite Hcur, Ep. cbn [killed set_next].
    rewrite Hk. cbn [Z.eqb negb andb]. apply wp_ret. done.
Qed.
End timer.

(** ** Witnesses *)

Section witnesses.
#[local] Existing Instance param_h.
#[local] Existing Instance Example.toy.
#[local] Existing Instance Example.toy_ok.
#[local] Existing Instance Machine.no_fs.

Definition demo_calls : OtherCalls := {| other_call := λ _ _, mret (Returned 0) |}.
Definition demo_irq : Interrupts := {| ideintr := λ _, mret tt; kbdintr := λ _, mret tt; uartintr := λ _, mret tt |}.
#[local] Existing Instance demo_calls.
#[local] Existing Instance demo_irq.
Definition demo_uproc : uproc := mkuproc 0 0 0 0 0 0 (replicate 32 0) 0 (replicate 32 0) 0.
Definition demo_sys : sys := mksys (fst ProcProps.mach3) (λ _, 0).
(** A frame of user mode, code segment 0x23. *)
Definition demo_tf (no eax : Z) : trapframe := mktf 0 0 0 0 0 0 0 eax 0 0 0 0 no 0 0 35 0 4000 0.

Lemma demo_ok : ∃ A, cur 0 (ks demo_sys) = Some 0%nat ∧ killed (procs (pt (ks demo_sys)) 0%nat) = 0 ∧
  unheld 0 (ls (ks demo_sys)) ∧ tinv (pt (ks demo_sys)) A ∧ 0%nat ∈ A Running.
Proof.
  change (ks demo_sys) with (fst ProcProps.mach3). destruct ProcProps.inv_mach3 as [A H]. exists A.
  assert (Hc : cur 0 (fst ProcProps.mach3) = Some 0%nat) by (vm_compute; reflexivity). split; [exact Hc|]. split; [vm_compute; reflexivity|].
  split; [exact (Machine.inv_unheld _ _ _ _ H)|]. split; [exact (Machine.i_table _ _ _ _ H)|exact (Machine.inv_cur _ _ _ _ _ _ H Hc)].
Qed.

Lemma timer_tick_witness : ∃ A s', trap 1234 0 demo_uproc 0 0 (demo_tf 32 0) demo_sys =
    Ok (if u32 (ticks (ks demo_sys) + 1) mod SCHED_INTERVAL =? 0 then Yielded else Back) s' ∧
  ticks (ks s') = u32 (ticks (ks demo_sys) + 1) ∧ tinv (pt (ks s')) (tick_lists 1234 (ks demo_sys) (u32 (ticks (ks demo_sys) + 1)) 0 A).
Proof.
  destruct demo_ok as (A & Hc & Hk & Hl & H & Hp). exists A.
  destruct (timer_tick 1234 0 demo_uproc 0 (demo_tf 32 0) demo_sys A 0 eq_refl eq_refl Hc Hk Hl H Hp) as (s' & E & H1 & H2 & _).
  exists s'. exact (conj E (conj H1 H2)).
Defined.

(** A number that is no system call. *)
Lemma killed_never_returns_witness : ∃ s', trap 1234 0 demo_uproc 0 0 (demo_tf 64 99) demo_sys = Ok Back s' ∧ alive 0 s'.
Proof.
  assert (H : match trap 1234 0 demo_uproc 0 0 (demo_tf 64 99) demo_sys with Ok Back _ => true | _ => false end = true) by (vm_compute; reflexivity).
  destruct (trap 1234 0 demo_uproc 0 0 (demo_tf 64 99) demo_sys) as [[| |] s'| | |] eqn:E; try discriminate H.
  exists s'. split; [reflexivity|]. refine (proj1 (killed_never_returns 1234 0 demo_uproc 0 0 (demo_tf 64 99) demo_sys s' _) E). reflexivity.
Defined.

Lemma sleep_lasts_witness : ∃ s', sleep_loop 1234 1 5 0 (fst ProcProps.mach3) = Ok (Blocked (InSleep 5 0)) s' ∧ state (procs (pt s') 1%nat) = SLEEPING.
Proof.
  destruct ProcProps.inv_mach3 as [A H].
  assert (Ht : ticks (fst ProcProps.mach3) = u32 (0 + 0)) by (vm_compute; reflexivity).
  assert (Hk : killed (procs (pt (fst ProcProps.mach3)) 1%nat) = 0) by (vm_compute; reflexivity).
  assert (Hw : 0 <= 0 < w32) by (clear; split; [discriminate|reflexivity]).
  pose proof (sleep_lasts 1234 1 5 0 0 (fst ProcProps.mach3) A 1 Hw Ht (Machine.inv_unheld _ _ _ _ H) ProcProps.cur_mach3
    (Machine.i_table _ _ _ _ H) (Machine.inv_cur _ _ _ _ _ _ H ProcProps.cur_mach3)) as HS.
  rewrite Hk in HS. change (u32 5 <=? 0) with false in HS. change (negb (0 =? 0)) with false in HS. cbv iota in HS.
  destruct HS as (s' & E & _ & _ & Hs & _). exists s'. exact (conj E Hs).
Defined.

Lemma syscall_dispatches_witness : ∃ s', syscall 1234 0 demo_uproc 0 demo_sys = Ok (Returned (-1)) s' ∧ eax (tf (procs (pt (ks s')) 0%nat)) = 4294967295.
Proof.
  assert (Hc : cur 0 (ks demo_sys) = Some 0%nat) by (vm_compute; reflexivity).
  destruct (proj2 (syscall_dispatches 1234 0 demo_uproc 0 demo_sys 0 Hc)) as (s' & E & H & _).
  - assert (Ee : i32 (eax (tf (procs (pt (ks demo_sys)) 0%nat))) = 0) by (vm_compute; reflexivity). intros i _. rewrite Ee. clear. lia.
  - exists s'. exact (conj E H).
Defined.
End witnesses.
End Trap.
