(* ===== verification/Mkfs.v ===== *)
(** * The image builder (mkfs.c)

    mkfs runs on the host.  The image is a map from sector numbers to blocks; a
    sector outside the file cannot be read.  A failing assert, and the calls of
    exit with a non-zero status, are panics.  [struct dinode] is the record of
    file Fs without its bookkeeping fields; xshort and xint store their argument
    in little-endian order, as [put16] and [put32] do.

    An input file is its name and the pieces in which read returns its bytes. *)

From S2P Require Import Prelude CString Bytes Kern Log Fs.
Local Open Scope Z_scope.

Module Mkfs.
Import Bytes Fs.

Definition FSSIZE : Z := 2000.
Definition LOGSIZE : Z := 30.
Definition NINODES : Z := 200.
Definition UID : Z := 0.
Definition GID : Z := 0.
Definition MODE : Z := 493.

Definition nbitmap : Z := FSSIZE / (BSIZE * 8) + 1.
Definition ninodeblocks : Z := NINODES / IPB + 1.
Definition nlog : Z := LOGSIZE.
Definition nmeta : Z := 2 + nlog + ninodeblocks + nbitmap.
Definition nblocks : Z := FSSIZE - nmeta.
Definition sb : superblock := mksb FSSIZE nblocks NINODES nlog 2 (2 + nlog) (2 + nlog + ninodeblocks).

Definition zeroes : Log.block := replicate (Z.to_nat BSIZE) 0.

Record mst := mkmst { img : Z → Log.block; freeinode : Z; freeblock : Z }.
Definition put_img (x : Z → Log.block) (s : mst) : mst := mkmst x (freeinode s) (freeblock s).
Definition put_freeinode (x : Z) (s : mst) : mst := mkmst (img s) x (freeblock s).
Definition put_freeblock (x : Z) (s : mst) : mst := mkmst (img s) (freeinode s) x.

Definition wsect (sec : Z) (buf : Log.block) : M mst unit := modify (λ s, put_img (<[sec := buf]> (img s)) s).
(** Called only after the image has its full size. *)
Definition rsect (sec : Z) : M mst Log.block :=
  if (0 <=? sec) && (sec <? FSSIZE) then gets (λ s, img s sec) else panic "read".

(** The value of a [struct dinode] does not have the other fields. *)
Definition blank : inode := mkinode 0 0 0 false false 0 0 0 0 0 0 0 0 (replicate 11 0).

Definition winode (inum : Z) (ip : inode) : M mst unit :=
  let bn := IBLOCK inum sb in
  buf ← rsect bn;
  wsect bn (store_dinode buf (dinode_off inum) ip).
Definition rinode (inum : Z) : M mst inode :=
  let bn := IBLOCK inum sb in
  buf ← rsect bn;
  mret (load_dinode buf (dinode_off inum) blank).

Definition ialloc (type : Z) : M mst Z :=
  inum ← gets freeinode;
  modify (put_freeinode (u32 (inum + 1)));;
  winode inum (mkinode 0 0 0 false false type 0 0 1 UID GID MODE 0 (replicate 11 0));;
  mret inum.

(** [freeblock++] *)
Definition next_block : M mst Z :=
  b ← gets freeblock;
  modify (put_freeblock (u32 (b + 1)));;
  mret b.

(** The block for block [fbn] of the file, allocated if need be; the address is
    stored in the inode or in the indirect block. *)
Definition file_block (din : inode) (fbn : Z) : M mst (inode * Z) :=
  if fbn <? Z.of_nat NDIRECT then
    let a := nth (Z.to_nat fbn) (i_addrs din) 0 in
    if a =? 0 then b ← next_block; mret (set_addr (Z.to_nat fbn) b din, b) else mret (din, a)
  else
    din ← (if nth NDIRECT (i_addrs din) 0 =? 0 then b ← next_block; mret (set_addr NDIRECT b din) else mret din);
    let ia := nth NDIRECT (i_addrs din) 0 in
    indirect ← rsect ia;
    let o := Z.to_nat (4 * (fbn - Z.of_nat NDIRECT)) in
    if get32 indirect o =? 0 then
      b ← next_block;
      wsect ia (put32 indirect o b);;
      mret (din, b)
    else mret (din, get32 indirect o).

Fixpoint append_loop (fuel : nat) (din : inode) (off : Z) (p : list Z) : M mst (inode * Z) :=
  match p with
  | [] => mret (din, off)
  | _ =>
      match fuel with
      | O => hang
      | S fuel =>
          let fbn := off / BSIZE in
          if negb (fbn <? MAXFILE) then panic "assert(fbn < MAXFILE)" else
          '(din, x) ← file_block din fbn;
          let n1 := Z.min (Z.of_nat (length p)) ((fbn + 1) * BSIZE - off) in
          buf ← rsect x;
          wsect x (splice buf (Z.to_nat (off - fbn * BSIZE)) (take (Z.to_nat n1) p));;
          append_loop fuel din (u32 (off + n1)) (drop (Z.to_nat n1) p)
      end
  end.
Definition iappend (inum : Z) (p : list Z) : M mst unit :=
  din ← rinode inum;
  '(din, off) ← append_loop (length p) din (i_size din) p;
  winode inum (set_size off din).

(** [for(i = 0; i < used; i++) buf[i/8] = buf[i/8] | (0x1 << (i%8));] *)
Fixpoint mark_used (n : nat) (i : Z) (buf : Log.block) : Log.block :=
  match n with
  | O => buf
  | S n => mark_used n (i + 1) (bit_set buf i)
  end.
Definition balloc (used : Z) : M mst unit :=
  if negb (used <? BSIZE * 8) then panic "assert(used < BSIZE*8)" else
  wsect (sb_bmapstart sb) (mark_used (Z.to_nat used) 0 zeroes).

(** A [struct dirent] with the name cut off or padded to DIRSIZ characters. *)
Definition dirent (inum : Z) (name : list Z) : list Z :=
  [inum mod 256; (inum / 256) mod 256] ++ take DIRSIZ (name ++ replicate DIRSIZ 0).

Definition skip_underscore (name : list Z) : list Z :=
  match name with c :: l => if c =? 95 then l else name | [] => name end.

Fixpoint append_all (inum : Z) (pieces : list (list Z)) : M mst unit :=
  match pieces with
  | [] => mret tt
  | p :: pieces => iappend inum p;; append_all inum pieces
  end.
Fixpoint add_files (rootino : Z) (files : list (list Z * list (list Z))) : M mst unit :=
  match files with
  | [] => mret tt
  | (name, pieces) :: files =>
      if bool_decide (47 ∈ name) then panic "assert(index(argv[i], '/') == 0)" else
      inum ← ialloc T_FILE;
      iappend rootino (dirent inum (skip_underscore name));;
      append_all inum pieces;;
      add_files rootino files
  end.

(** [for(i = 0; i < FSSIZE; i++) wsect(i, zeroes);] *)
Fixpoint zero_all (n : nat) (i : Z) : M mst unit :=
  match n with
  | O => mret tt
  | S n => wsect i zeroes;; zero_all n (i + 1)
  end.

Definition sb_bytes : Log.block :=
  put32 (put32 (put32 (put32 (put32 (put32 (put32 zeroes 0 (sb_size sb)) 4 (sb_nblocks sb)) 8 (sb_ninodes sb)) 12 (sb_nlog sb))
    16 (sb_logstart sb)) 20 (sb_inodestart sb)) 24 (sb_bmapstart sb).

Definition main (files : list (list Z * list (list Z))) : M mst unit :=
  modify (put_freeblock nmeta);;
  zero_all (Z.to_nat FSSIZE) 0;;
  wsect 1 sb_bytes;;
  rootino ← ialloc T_DIR;
  if negb (rootino =? ROOTINO) then panic "assert(rootino == ROOTINO)" else
  iappend rootino (dirent rootino [46]);;
  iappend rootino (dirent rootino [46; 46]);;
  add_files rootino files;;
  din ← rinode rootino;
  let off := u32 ((i_size din / BSIZE + 1) * BSIZE) in
  winode rootino (set_size off din);;
  used ← gets freeblock;
  balloc used.

(** The program starts with [freeinode] 1 and an empty file, whose sectors are
    zero up to the end that a later write gives it. *)
Definition start : mst := mkmst (λ _, zeroes) 1 0.
End Mkfs.
