(* ===== verification/MkfsProps.v ===== *)
(** * The image mkfs builds

    A file of the image is described by its inode, the number of blocks it has
    and its bytes.  Appending keeps the description and leaves other files
    alone; from this follows what the kernel finds in the finished image. *)

From S2P Require Import Prelude CString Bytes Kern Log Fs FsSpec FsDemo FsInode FsData Mkfs.
Local Open Scope Z_scope.

Module MkfsProps.
Import Bytes Fs FsInode FsData Mkfs.

(** ** Files *)

(** The inode [ip] has the blocks 0, ..., [nb - 1], which hold the bytes [bs]
    and then zeros; its blocks lie between the metadata and [fb]. *)
Record file_ok (c : Z → Log.block) (fb : Z) (ip : inode) (nb : Z) (bs : list Z) : Prop := {
  f_fits : fits ip;
  f_nb : 0 <= nb <= MAXFILE;
  f_len : Z.of_nat (length bs) <= nb * BSIZE;
  f_alloc bn : 0 <= bn < nb → nmeta <= blockno c ip bn < fb;
  f_none bn : nb <= bn < MAXFILE → blockno c ip bn = 0;
  f_ind : Z.of_nat NDIRECT < nb → nmeta <= indirect ip < fb;
  f_noind : nb <= Z.of_nat NDIRECT → indirect ip = 0;
  f_apart bn : 0 <= bn < nb → blockno c ip bn ≠ indirect ip;
  f_inj a b : 0 <= a < nb → 0 <= b < nb → blockno c ip a = blockno c ip b → a = b;
  f_content p : 0 <= p < nb * BSIZE → content c ip p = nth (Z.to_nat p) bs 0
}.
Definition owned (c : Z → Log.block) (ip : inode) (nb b : Z) : Prop :=
  Z.of_nat NDIRECT < nb ∧ b = indirect ip ∨ ∃ bn, 0 <= bn < nb ∧ b = blockno c ip bn.

Lemma owned_range c fb ip nb bs b : file_ok c fb ip nb bs → owned c ip nb b → nmeta <= b < fb.
Proof. intros H [[Hi ->]|(bn & Hb & ->)]; [by apply (f_ind _ _ _ _ _ H)|by apply (f_alloc _ _ _ _ _ H)]. Qed.

Lemma nth_replicate_Z k n : nth k (replicate n 0) 0 = 0.
Proof. rewrite nth_lookup. destruct (replicate n 0 !! k) eqn:E; [|done]. by apply lookup_replicate in E as [-> _]. Qed.
Lemma nmeta_val : nmeta = 59.
Proof. reflexivity. Qed.
Lemma page_lt p nb : 0 <= p < nb * BSIZE → 0 <= p / BSIZE < nb ∧ 0 <= p mod BSIZE < BSIZE.
Proof.
  unfold BSIZE. intros Hp. pose proof (Z.div_mod p 512). pose proof (Z.mod_pos_bound p 512). split; [|lia].
  split; [apply Z.div_pos; lia|apply Z.div_lt_upper_bound; lia].
Qed.

(** A file is the same in an image that agrees on its blocks. *)
Lemma blockno_frame c c' fb ip nb bs bn : file_ok c fb ip nb bs → (∀ b, owned c ip nb b → c' b = c b) → c' 0 = c 0 → blockno c' ip bn = blockno c ip bn.
Proof.
  intros H Hc H0. unfold blockno. destruct (bn <? Z.of_nat NDIRECT); [done|]. do 2 f_equal.
  destruct (decide (Z.of_nat NDIRECT < nb)) as [Hn|Hn]; [apply Hc; by left|]. by rewrite (f_noind _ _ _ _ _ H) by lia.
Qed.
Lemma file_frame c c' fb fb' ip nb bs : file_ok c fb ip nb bs → (∀ b, owned c ip nb b → c' b = c b) → c' 0 = c 0 → fb <= fb' →
  file_ok c' fb' ip nb bs.
Proof.
  intros H Hc H0 Hf. assert (E : ∀ bn, blockno c' ip bn = blockno c ip bn) by (intros; by eapply blockno_frame). destruct H as [? ? ? Ha ? Hi ? ? ? Hct].
  split; try done.
  - intros bn Hb. rewrite E. specialize (Ha bn Hb). lia.
  - intros bn Hb. rewrite E. auto.
  - intros Hn. specialize (Hi Hn). lia.
  - intros bn Hb. rewrite E. auto.
  - intros a b Ha' Hb'. rewrite !E. auto.
  - intros p Hp. rewrite <-Hct by done. unfold content. rewrite E. destruct (page_lt p nb Hp) as [Hq _].
    rewrite Hc; [done|]. right. by eexists.
Qed.
Lemma owned_frame c c' fb ip nb bs b : file_ok c fb ip nb bs → (∀ b, owned c ip nb b → c' b = c b) → c' 0 = c 0 → owned c' ip nb b ↔ owned c ip nb b.
Proof. intros H Hc H0. unfold owned. setoid_rewrite (blockno_frame c c' fb ip nb bs); done. Qed.
(** Only the addresses matter. *)
Lemma blockno_addrs c ip ip' bn : i_addrs ip' = i_addrs ip → blockno c ip' bn = blockno c ip bn.
Proof. intros E. unfold blockno, indirect. by rewrite E. Qed.

(** *** Writing into the last block *)

Lemma file_write c fb ip nb bs q : file_ok c fb ip nb bs → (∀ b, length (c b) = 512%nat) →
  let off := Z.of_nat (length bs) in let x := blockno c ip (off / BSIZE) in
  off / BSIZE < nb → off mod BSIZE + Z.of_nat (length q) <= BSIZE →
  file_ok (<[x := splice (c x) (Z.to_nat (off mod BSIZE)) q]> c) fb ip nb (bs ++ q) ∧
  ∀ bn, blockno (<[x := splice (c x) (Z.to_nat (off mod BSIZE)) q]> c) ip bn = blockno c ip bn.
Proof.
  intros H Hl off x Hb Hq. set (c' := <[x := splice (c x) (Z.to_nat (off mod BSIZE)) q]> c).
  assert (Hbp : 0 <= off / BSIZE) by (apply Z.div_pos; unfold off, BSIZE; lia).
  pose proof (f_alloc _ _ _ _ _ H _ (conj Hbp Hb)) as Hx. fold x in Hx. rewrite nmeta_val in Hx.
  assert (Hm : off = BSIZE * (off / BSIZE) + off mod BSIZE ∧ 0 <= off mod BSIZE < BSIZE) by (split; [by apply Z.div_mod|by apply Z.mod_pos_bound]).
  assert (Hxi : x ≠ indirect ip) by (apply (f_apart _ _ _ _ _ H); lia).
  assert (Hind : c' (indirect ip) = c (indirect ip)) by (unfold c'; by rewrite fn_lookup_insert_ne).
  assert (E : ∀ bn, blockno c' ip bn = blockno c ip bn) by (intros; unfold blockno; by rewrite Hind).
  split; [|done]. assert (Hcx : ∀ j, (j < 512)%nat → byte (c' x) j = if decide (Z.to_nat (off mod BSIZE) <= j < Z.to_nat (off mod BSIZE) + length q)%nat
    then nth (j - Z.to_nat (off mod BSIZE)) q 0 else byte (c x) j).
  { intros j Hj. unfold c', byte. rewrite fn_lookup_insert, !nth_lookup, lookup_splice by (rewrite Hl; unfold BSIZE in *; lia). by case_decide. }
  destruct H as [? Hnb ? Ha Hno Hi Hni Hap Hinj Hct].
  assert (Hnb2 : nb * BSIZE = BSIZE * nb) by lia.
  split; try done; try (intros; rewrite ?E; by auto).
  - rewrite length_app, Nat2Z.inj_add. fold off. assert (off / BSIZE + 1 <= nb) by lia. unfold BSIZE in *. lia.
  - intros a b Ha' Hb'. rewrite !E. auto.
  - intros p Hp. destruct (page_lt p nb Hp) as [Hpd Hpm]. unfold content. rewrite E.
    assert (Ep : p = BSIZE * (p / BSIZE) + p mod BSIZE) by (by apply Z.div_mod). specialize (Hct p Hp). unfold content in Hct.
    destruct (decide (p / BSIZE = off / BSIZE)) as [Eq|Hne].
    + rewrite Eq in Hct |- *. fold x in Hct |- *. rewrite Hcx by (unfold BSIZE in *; lia). rewrite Hct. unfold BSIZE in *. case_decide as Hd.
      * rewrite app_nth2 by (unfold off in *; lia). f_equal. unfold off in *. lia.
      * destruct (decide (p < off)); [by rewrite app_nth1 by (unfold off in *; lia)|].
        rewrite nth_overflow by (unfold off in *; lia). rewrite nth_overflow; [done|]. rewrite length_app. unfold off in *. lia.
    + unfold c'. rewrite fn_lookup_insert_ne by (intros Exy; apply Hne; symmetry; apply Hinj; [lia|lia|exact Exy]).
      rewrite Hct. destruct (decide (p < off)); [by rewrite app_nth1 by (unfold off in *; lia)|].
      assert (Hgt : off / BSIZE <= p / BSIZE) by (apply Z.div_le_mono; unfold BSIZE; lia). unfold BSIZE in *.
      rewrite !nth_overflow; [done|rewrite length_app; unfold off in *; lia|unfold off in *; lia].
Qed.

(** *** Getting a block *)

(** One more block [x], empty, perhaps after giving the file its indirect
    block. *)
Lemma file_grow c c' fb fb' ip ip' nb bs x : file_ok c fb ip nb bs → nb < MAXFILE → fits ip' → nmeta <= fb <= x → x < fb' → x ≠ indirect ip' → c' x = zeroes →
  (∀ bn, 0 <= bn < MAXFILE → blockno c' ip' bn = if decide (bn = nb) then x else blockno c ip bn) →
  (∀ b, nmeta <= b < fb → b ≠ indirect ip → c' b = c b) →
  (if decide (nb < Z.of_nat NDIRECT) then indirect ip' = 0
   else nmeta <= indirect ip' < fb' ∧ (if decide (nb = Z.of_nat NDIRECT) then fb <= indirect ip' else indirect ip' = indirect ip)) →
  file_ok c' fb' ip' (nb + 1) bs.
Proof.
  intros H Hnb Hf Hfb Hx Hxi Hz Eb Ec Hi. destruct H as [_ Hn0 Hlen Ha Hno Hi0 Hni Hap Hinj Hct]. rewrite nmeta_val in *.
  assert (Eo : ∀ bn, 0 <= bn < nb → blockno c' ip' bn = blockno c ip bn) by (intros bn Hbn; rewrite Eb by lia; by rewrite decide_False by lia).
  assert (En : blockno c' ip' nb = x) by (rewrite Eb by lia; by rewrite decide_True).
  assert (Hcase : ∀ bn, 0 <= bn < nb + 1 → bn = nb ∨ 0 <= bn < nb) by (intros; lia).
  split; try done.
  - lia.
  - unfold BSIZE in *. lia.
  - intros bn Hbn. rewrite nmeta_val. destruct (Hcase bn Hbn) as [->|Hl]; [rewrite En; lia|]. rewrite Eo by done. specialize (Ha bn Hl). lia.
  - intros bn Hbn. rewrite Eb by lia. rewrite decide_False by lia. apply Hno. lia.
  - intros Hn. rewrite nmeta_val. destruct (decide (nb < Z.of_nat NDIRECT)); [lia|]. by destruct Hi.
  - intros Hn. rewrite decide_True in Hi by lia. done.
  - intros bn Hbn. destruct (Hcase bn Hbn) as [->|Hl]; [by rewrite En|]. rewrite Eo by done. specialize (Ha bn Hl). specialize (Hap bn Hl).
    destruct (decide (nb < Z.of_nat NDIRECT)); [lia|]. destruct Hi as [_ Hi]. destruct (decide (nb = Z.of_nat NDIRECT)); [lia|congruence].
  - intros a b Ha' Hb'. destruct (Hcase a Ha') as [->|Hla], (Hcase b Hb') as [->|Hlb]; rewrite ?En, ?Eo by done; try done.
    + specialize (Ha b Hlb). lia.
    + specialize (Ha a Hla). lia.
    + by apply Hinj.
  - intros p Hp. destruct (page_lt p (nb + 1) Hp) as [Hpd Hpm]. unfold content. destruct (Hcase _ Hpd) as [E|Hl].
    + rewrite E, En, Hz. unfold zeroes, byte. rewrite nth_replicate_Z. symmetry. apply nth_overflow.
      pose proof (Z.div_mod p BSIZE). unfold BSIZE in *. lia.
    + rewrite Eo by done. assert (Hp2 : 0 <= p < nb * BSIZE) by (pose proof (Z.div_mod p BSIZE); unfold BSIZE in *; lia).
      rewrite <-(Hct p Hp2). unfold content. rewrite Ec; [done|by apply Ha|by apply Hap].
Qed.

(** The blocks from [fb] on are free. *)
Record disk_ok (c : Z → Log.block) (fb : Z) : Prop := {
  d_len b : length (c b) = 512%nat;
  d_boot : c 0 = zeroes;
  d_free b : fb <= b → c b = zeroes;
  d_fb : nmeta <= fb <= FSSIZE
}.
(** The number of blocks of [n] bytes, and of [nb] blocks with their indirect
    block. *)
Definition nblk (n : Z) : Z := (n + 511) / 512.
Definition need (nb : Z) : Z := if decide (Z.of_nat NDIRECT < nb) then nb + 1 else nb.
(** Inodes that differ in their addresses only. *)
Definition with_addrs (l : list Z) (ip : inode) : inode :=
  mkinode (i_dev ip) (i_inum ip) (i_ref ip) (i_busy ip) (i_valid ip) (i_type ip) (i_major ip) (i_minor ip) (i_nlink ip)
    (i_uid ip) (i_gid ip) (i_mode ip) (i_size ip) l.

Lemma length_zeroes : length zeroes = 512%nat.
Proof. reflexivity. Qed.
Lemma get32_zeroes o : get32 zeroes o = 0.
Proof. unfold get32, byte, zeroes. by rewrite !nth_replicate_Z. Qed.
Lemma fits_addr ip j a : fits ip → 0 <= a < w32 → fits (set_addr j a ip).
Proof.
  intros (? & ? & ? & ? & ? & ? & ? & ? & Hl & Ha) Hr. unfold fits, set_addr. cbn. rewrite length_insert. repeat (split; [done|]).
  by apply Forall_insert.
Qed.
Lemma nth_insert (l : list Z) i j a : (i < length l)%nat → nth j (<[i := a]> l) 0 = if decide (j = i) then a else nth j l 0.
Proof. intros Hi. rewrite !nth_lookup. case_decide as E; [subst; by rewrite list_lookup_insert_eq|by rewrite list_lookup_insert_ne]. Qed.

Lemma blockno_direct c ip nb a bn : length (i_addrs ip) = S NDIRECT → 0 <= nb < Z.of_nat NDIRECT → 0 <= bn →
  blockno c (set_addr (Z.to_nat nb) a ip) bn = if decide (bn = nb) then a else blockno c ip bn.
Proof.
  intros Hl Hnb Hbn. unfold NDIRECT in *. unfold blockno, indirect, set_addr. cbn [i_addrs]. unfold NDIRECT in *. rewrite !nth_insert by (rewrite Hl; lia). destruct (Z.ltb_spec bn (Z.of_nat 10)).
  - case_decide as E1; case_decide as E2; try done; lia.
  - rewrite (decide_False (P := 10%nat = _)) by lia. by rewrite decide_False by lia.
Qed.
Lemma blockno_indirect c ip ia nb a bn : length (c ia) = 512%nat → indirect ip = ia → 0 <= a < w32 → Z.of_nat NDIRECT <= nb < MAXFILE → 0 <= bn < MAXFILE →
  blockno (<[ia := put32 (c ia) (Z.to_nat (4 * (nb - Z.of_nat NDIRECT))) a]> c) ip bn = if decide (bn = nb) then a else blockno c ip bn.
Proof.
  intros Hl Hi Ha Hnb Hbn. unfold blockno. rewrite Hi, fn_lookup_insert. unfold NDIRECT, MAXFILE in *. destruct (Z.ltb_spec bn (Z.of_nat 10)).
  - by rewrite decide_False by lia.
  - case_decide as E; [subst; apply get32_put32; [rewrite Hl; lia|done]|]. apply get32_put32_ne; [rewrite Hl; lia|lia].
Qed.
Lemma disk_write c fb b d : disk_ok c fb → length d = 512%nat → b ≠ 0 → b < fb → disk_ok (<[b := d]> c) fb.
Proof.
  intros [Hl H0 Hf Hr] Hd Hb Hlt. split; [|by rewrite fn_lookup_insert_ne|intros b' Hb'; rewrite fn_lookup_insert_ne by lia; by apply Hf|done].
  intros b'. destruct (decide (b' = b)) as [->|Hne]; [by rewrite fn_lookup_insert|by rewrite fn_lookup_insert_ne].
Qed.
Lemma disk_more c fb fb' : disk_ok c fb → fb <= fb' <= FSSIZE → disk_ok c fb'.
Proof. intros [Hl H0 Hf Hr] Hle. split; [done|done|intros; apply Hf; lia|lia]. Qed.

(** What getting block [nb] for a file of [nb] blocks gives. *)
Record grown_file c fb ip nb bs c' fb' ip' : Prop := {
  g_file : file_ok c' fb' ip' (nb + 1) bs;
  g_disk : disk_ok c' fb';
  g_meta : ip' = with_addrs (i_addrs ip') ip;
  g_other b : b < fb → ¬ owned c ip nb b → c' b = c b;
  g_new b : owned c' ip' (nb + 1) b → owned c ip nb b ∨ fb <= b < fb'
}.

Lemma grow_direct c fb ip nb bs : disk_ok c fb → file_ok c fb ip nb bs → nb < Z.of_nat NDIRECT → fb + 1 <= FSSIZE →
  grown_file c fb ip nb bs c (fb + 1) (set_addr (Z.to_nat nb) fb ip) ∧ blockno c (set_addr (Z.to_nat nb) fb ip) nb = fb.
Proof.
  intros D H Hnb Hr. pose proof (f_nb _ _ _ _ _ H) as Hn0. pose proof (d_fb _ _ D) as Hfb. rewrite nmeta_val in Hfb.
  assert (Hl : length (i_addrs ip) = S NDIRECT) by apply (f_fits _ _ _ _ _ H).
  assert (E : ∀ bn, 0 <= bn → blockno c (set_addr (Z.to_nat nb) fb ip) bn = if decide (bn = nb) then fb else blockno c ip bn)
    by (intros; apply blockno_direct; [done|lia|done]).
  assert (Ei : indirect (set_addr (Z.to_nat nb) fb ip) = 0).
  { rewrite <-(f_noind _ _ _ _ _ H) by lia. unfold indirect, set_addr. cbn [i_addrs]. rewrite nth_insert by (rewrite Hl; unfold NDIRECT in *; lia).
    by rewrite decide_False by (unfold NDIRECT in *; lia). }
  split; [|rewrite E by lia; by rewrite decide_True]. split.
  - apply (file_grow c c fb (fb + 1) ip _ nb bs fb); try done; try lia.
    + unfold MAXFILE, NDIRECT in *. lia.
    + apply fits_addr; [apply H|unfold FSSIZE, w32 in *; lia].
    + rewrite nmeta_val. lia.
    + by apply D.
    + intros bn Hbn. apply E. lia.
    + by rewrite decide_True by done.
  - apply (disk_more _ fb); [done|lia].
  - done.
  - done.
  - intros b [[Hi _]|(bn & Hb & ->)]; [lia|]. rewrite E by lia. case_decide; [right; lia|left]. right. exists bn. split; [lia|done].
Qed.

Lemma grow_indirect c fb ip nb bs ip' fb1 : disk_ok c fb → file_ok c fb ip nb bs → Z.of_nat NDIRECT <= nb < MAXFILE →
  nb = Z.of_nat NDIRECT ∧ ip' = set_addr NDIRECT fb ip ∧ fb1 = fb + 1 ∨ Z.of_nat NDIRECT < nb ∧ ip' = ip ∧ fb1 = fb → fb1 + 1 <= FSSIZE →
  let ia := indirect ip' in let c' := <[ia := put32 (c ia) (Z.to_nat (4 * (nb - Z.of_nat NDIRECT))) fb1]> c in
  grown_file c fb ip nb bs c' (fb1 + 1) ip' ∧ blockno c' ip' nb = fb1 ∧ blockno c ip' nb = 0 ∧ nmeta <= ia < fb1 + 1 ∧ ia ≠ fb1.
Proof.
  intros D H Hnb Hcase Hr ia c'. pose proof (d_fb _ _ D) as Hfb. rewrite nmeta_val in *.
  assert (Hl : length (i_addrs ip) = S NDIRECT) by apply (f_fits _ _ _ _ _ H).
  assert (Eia : nb = Z.of_nat NDIRECT ∧ ia = fb ∧ fb1 = fb + 1 ∨ Z.of_nat NDIRECT < nb ∧ ia = indirect ip ∧ fb1 = fb).
  { destruct Hcase as [(Hn & -> & Hf)|(Hn & -> & Hf)]; [left|right; done]. split; [done|]. split; [|done]. unfold ia, indirect, set_addr. cbn [i_addrs].
    rewrite nth_insert by (rewrite Hl; lia). by rewrite decide_True. }
  assert (Hia : 59 <= ia < fb1 + 1 ∧ ia ≠ fb1).
  { destruct Eia as [(Hn & -> & ->)|(Hn & -> & ->)]; [lia|]. pose proof (f_ind _ _ _ _ _ H Hn). rewrite nmeta_val in *. lia. }
  assert (Hfits : fits ip') by (destruct Hcase as [(_ & -> & _)|(_ & -> & _)]; [apply fits_addr; [apply H|unfold FSSIZE, w32 in *; lia]|apply H]).
  assert (Eold : ∀ bn, 0 <= bn < MAXFILE → blockno c ip' bn = blockno c ip bn).
  { intros bn Hbn. destruct Hcase as [(Hn & Ei & _)|(_ & -> & _)]; [|done]. unfold blockno. rewrite Ei at 1. unfold set_addr. cbn [i_addrs]. destruct (Z.ltb_spec bn (Z.of_nat NDIRECT)).
    - rewrite nth_insert by (rewrite Hl; lia). by rewrite decide_False by lia.
    - destruct Eia as [(_ & Eia & _)|(? & _)]; [|lia]. fold ia. rewrite Eia, (d_free _ _ D fb), (f_noind _ _ _ _ _ H), (d_boot _ _ D) by lia. done. }
  assert (E : ∀ bn, 0 <= bn < MAXFILE → blockno c' ip' bn = if decide (bn = nb) then fb1 else blockno c ip bn).
  { intros bn Hbn. unfold c'. rewrite blockno_indirect; [|apply D|done|unfold FSSIZE, w32 in *; lia|done|done]. by rewrite Eold. }
  split; [|split; [rewrite E by lia; by rewrite decide_True|split; [rewrite Eold by lia; apply (f_none _ _ _ _ _ H); lia|done]]]. split.
  - apply (file_grow c c' fb (fb1 + 1) ip ip' nb bs fb1); try done; try lia.
    + destruct Eia as [(? & ? & ->)|(? & ? & ->)]; rewrite nmeta_val; lia.
    + unfold c'. rewrite fn_lookup_insert_ne by lia. apply D. destruct Eia as [(? & ? & ->)|(? & ? & ->)]; lia.
    + intros b Hb Hne. unfold c'. rewrite fn_lookup_insert_ne; [done|]. destruct Eia as [(_ & -> & _)|(_ & -> & _)]; [lia|done].
    + rewrite decide_False by lia. fold ia. rewrite nmeta_val. split; [lia|]. destruct Eia as [(? & ? & ?)|(? & ? & ?)]; [rewrite decide_True by done; lia|by rewrite decide_False by lia].
  - apply disk_write; [apply (disk_more _ fb); [done|destruct Eia as [(? & ? & ->)|(? & ? & ->)]; lia]|rewrite length_put32; apply D|lia|lia].
  - by destruct Hcase as [(_ & -> & _)|(_ & -> & _)]; [|destruct ip].
  - intros b Hb Hno. unfold c'. rewrite fn_lookup_insert_ne; [done|]. intros <-. destruct Eia as [(_ & ? & _)|(? & ? & _)]; [lia|]. apply Hno. by left.
  - intros b [[Hi ->]|(bn & Hb & ->)].
    + fold ia. destruct Eia as [(? & -> & ->)|(? & ? & ?)]; [right; lia|left; by left].
    + rewrite E by lia. case_decide as Ed; [right; destruct Eia as [(? & ? & ->)|(? & ? & ->)]; lia|]. left. right. exists bn. split; [lia|done].
Qed.

Section code.
Context `{mode : Mode}.

Lemma wp_rsect b (Q : Log.block → mst → Prop) s : 0 <= b < FSSIZE → Q (img s b) s → wp (rsect b) Q s.
Proof. intros Hb HQ. unfold rsect. rewrite (proj2 (Z.leb_le _ _)), (proj2 (Z.ltb_lt _ _)) by lia. done. Qed.
Lemma wp_next_block (Q : Z → mst → Prop) s : 0 <= freeblock s < FSSIZE → Q (freeblock s) (put_freeblock (freeblock s + 1) s) → wp next_block Q s.
Proof. intros Hb HQ. unfold next_block. wp_steps. rewrite u32_small by (unfold FSSIZE, w32 in *; lia). done. Qed.

Lemma wp_file_block din bs nb fbn s (Q : inode * Z → mst → Prop) :
  disk_ok (img s) (freeblock s) → file_ok (img s) (freeblock s) din nb bs → 0 <= fbn <= nb → fbn < MAXFILE →
  (fbn = nb → freeblock s + need (nb + 1) - need nb <= FSSIZE) →
  (fbn < nb → Q (din, blockno (img s) din fbn) s) →
  (fbn = nb → ∀ din' s', grown_file (img s) (freeblock s) din nb bs (img s') (freeblock s') din' → freeinode s' = freeinode s →
     freeblock s' = freeblock s + need (nb + 1) - need nb → Q (din', blockno (img s') din' nb) s') →
  wp (file_block din fbn) Q s.
Proof.
  intros D H Hle Hmax Hr Hold Hnew. pose proof (d_fb _ _ D) as Hfb. rewrite nmeta_val in Hfb. unfold file_block.
  destruct (Z.ltb_spec fbn (Z.of_nat NDIRECT)) as [Hd|Hd].
  - assert (E : nth (Z.to_nat fbn) (i_addrs din) 0 = blockno (img s) din fbn) by (unfold blockno; by rewrite (proj2 (Z.ltb_lt _ _)) by lia). rewrite E.
    destruct (decide (fbn = nb)) as [->|Hne].
    + rewrite (f_none _ _ _ _ _ H) by lia. specialize (Hr eq_refl). unfold need in Hr. do 2 rewrite decide_False in Hr by lia.
      destruct (grow_direct _ _ _ _ _ D H) as [G Eb]; [done|lia|]. cbn [Z.eqb]. apply wp_bind, wp_next_block; [lia|]. wp_steps.
      assert (HQ : Q (set_addr (Z.to_nat nb) (freeblock s) din, blockno (img s) (set_addr (Z.to_nat nb) (freeblock s) din) nb) (put_freeblock (freeblock s + 1) s)).
      { apply (Hnew eq_refl _ (put_freeblock (freeblock s + 1) s)); [exact G|done|]. cbn [freeblock put_freeblock]. unfold need. do 2 rewrite decide_False by lia. lia. }
      rewrite Eb in HQ. exact HQ.
    + pose proof (f_alloc _ _ _ _ _ H fbn ltac:(lia)) as Ha. rewrite nmeta_val in Ha. rewrite (proj2 (Z.eqb_neq _ _)) by lia. wp_steps. apply Hold. lia.
  - destruct (decide (fbn = nb)) as [->|Hne].
    + specialize (Hr eq_refl). specialize (Hnew eq_refl).
      assert (Hpre : ∀ ip' s1, img s1 = img s → freeinode s1 = freeinode s →
        nb = Z.of_nat NDIRECT ∧ ip' = set_addr NDIRECT (freeblock s) din ∧ freeblock s1 = freeblock s + 1 ∨ Z.of_nat NDIRECT < nb ∧ ip' = din ∧ freeblock s1 = freeblock s →
        wp (let ia := nth NDIRECT (i_addrs ip') 0 in
            indirect ← rsect ia;
            let o := Z.to_nat (4 * (nb - Z.of_nat NDIRECT)) in
            if get32 indirect o =? 0 then b ← next_block; wsect ia (put32 indirect o b);; mret (ip', b) else mret (ip', get32 indirect o)) Q s1).
      { intros ip' s1 Ei Ef Hc. assert (Hroom : freeblock s1 + 1 <= FSSIZE).
        { unfold need in Hr. rewrite decide_True in Hr by lia. destruct Hc as [(? & _ & ->)|(? & _ & ->)]; [rewrite decide_False in Hr by lia|rewrite decide_True in Hr by lia]; lia. }
        destruct (grow_indirect _ _ _ _ _ ip' (freeblock s1) D H (conj Hd Hmax) Hc Hroom) as (G & E1 & E2 & Hia & Hne). rewrite nmeta_val in Hia.
        cbv zeta. change (nth NDIRECT (i_addrs ip') 0) with (indirect ip'). apply wp_bind, wp_rsect; [lia|]. rewrite Ei.
        assert (Ez : get32 (img s (indirect ip')) (Z.to_nat (4 * (nb - Z.of_nat NDIRECT))) = 0) by (rewrite <-E2; unfold blockno; by rewrite (proj2 (Z.ltb_ge _ _)) by lia).
        rewrite Ez. cbn [Z.eqb]. apply wp_bind, wp_next_block; [destruct Hc as [(? & _ & ?)|(? & _ & ?)]; lia|]. wp_steps. unfold wsect. wp_steps.
        cbn [img put_freeblock]. set (s2 := put_img _ _).
        assert (HQ : Q (ip', blockno (img s2) ip' nb) s2); [|assert (Eb : blockno (img s2) ip' nb = freeblock s1) by (etrans; [|exact E1]; unfold s2; cbn [img put_img put_freeblock]; by rewrite Ei); by rewrite Eb in HQ].
        apply Hnew; unfold s2; cbn [img freeblock freeinode put_img put_freeblock]; [rewrite Ei; exact G|done|].
        unfold need. rewrite decide_True by lia. destruct Hc as [(? & _ & ->)|(? & _ & ->)]; [rewrite decide_False by lia|rewrite decide_True by lia]; lia. }
      apply wp_bind. change (nth NDIRECT (i_addrs din) 0) with (indirect din). destruct (decide (nb = Z.of_nat NDIRECT)) as [En|En].
      * rewrite (f_noind _ _ _ _ _ H) by lia. cbn [Z.eqb]. unfold need in Hr. rewrite decide_True in Hr by lia. rewrite decide_False in Hr by lia.
        apply wp_bind, wp_next_block; [lia|]. apply wp_ret, Hpre; [done|done|]. by left.
      * pose proof (f_ind _ _ _ _ _ H ltac:(lia)) as Hi. rewrite nmeta_val in Hi. rewrite (proj2 (Z.eqb_neq _ _)) by lia. apply wp_ret, Hpre; [done|done|]. right. split; [lia|done].
    + pose proof (f_ind _ _ _ _ _ H ltac:(lia)) as Hi. rewrite nmeta_val in Hi. change (nth NDIRECT (i_addrs din) 0) with (indirect din).
      rewrite (proj2 (Z.eqb_neq _ _)) by lia. apply wp_bind, wp_ret, wp_bind. change (nth NDIRECT (i_addrs din) 0) with (indirect din). apply wp_rsect; [lia|].
      assert (E : get32 (img s (indirect din)) (Z.to_nat (4 * (fbn - Z.of_nat NDIRECT))) = blockno (img s) din fbn) by (unfold blockno; by rewrite (proj2 (Z.ltb_ge _ _)) by lia).
      cbv zeta. rewrite E. pose proof (f_alloc _ _ _ _ _ H fbn ltac:(lia)) as Ha. rewrite nmeta_val in Ha. rewrite (proj2 (Z.eqb_neq _ _)) by lia. wp_steps. apply Hold. lia.
Qed.
End code.

(** *** Appending *)

Definition len (bs : list Z) : Z := Z.of_nat (length bs).
Definition size_of (bs : list Z) : Z := nblk (len bs).
Record appended c fb ip bs c' fb' ip' bs' : Prop := {
  a_file : file_ok c' fb' ip' (size_of bs') bs';
  a_disk : disk_ok c' fb';
  a_meta : ip' = with_addrs (i_addrs ip') ip;
  a_other b : b < fb → ¬ owned c ip (size_of bs) b → c' b = c b;
  a_new b : owned c' ip' (size_of bs') b → owned c ip (size_of bs) b ∨ fb <= b < fb';
  a_fb : fb' = fb + need (size_of bs') - need (size_of bs);
  a_le : fb <= fb'
}.
Lemma appended_refl c fb ip bs : disk_ok c fb → file_ok c fb ip (size_of bs) bs → appended c fb ip bs c fb ip bs.
Proof. intros D H. split; try done; try lia; [by destruct ip|by left]. Qed.
Lemma appended_trans c fb ip bs c1 fb1 ip1 bs1 c2 fb2 ip2 bs2 : file_ok c fb ip (size_of bs) bs → appended c fb ip bs c1 fb1 ip1 bs1 →
  appended c1 fb1 ip1 bs1 c2 fb2 ip2 bs2 → appended c fb ip bs c2 fb2 ip2 bs2.
Proof.
  intros H [A1 A2 A3 A4 A5 A6 A7] [B1 B2 B3 B4 B5 B6 B7]. split; try done; try lia.
  - rewrite B3, A3. done.
  - intros b Hb Hn. rewrite B4; [by apply A4|lia|]. intros Ho. destruct (A5 b Ho); [done|lia].
  - intros b Ho. destruct (B5 b Ho) as [Ho1|?]; [|right; lia]. destruct (A5 b Ho1); [by left|right; lia].
Qed.

Lemma nblk_spec n : 0 <= n → (n mod BSIZE = 0 ∧ nblk n = n / BSIZE) ∨ (n mod BSIZE ≠ 0 ∧ nblk n = n / BSIZE + 1).
Proof.
  intros Hn. unfold nblk, BSIZE. pose proof (Z.div_mod n 512). pose proof (Z.mod_pos_bound n 512). pose proof (Z.div_mod (n + 511) 512).
  pose proof (Z.mod_pos_bound (n + 511) 512). destruct (decide (n mod 512 = 0)); [left|right]; lia.
Qed.
Lemma need_mono a b : a <= b → need a <= need b.
Proof. unfold need. intros. repeat case_decide; lia. Qed.
Lemma nblk_mono a b : a <= b → nblk a <= nblk b.
Proof. intros. apply Z.div_le_mono; lia. Qed.

(** One round of the loop. *)
Lemma append_piece c fb ip nb bs q : file_ok c fb ip nb bs → disk_ok c fb → let off := len bs in
  nb = off / BSIZE + 1 → (0 < length q)%nat → off mod BSIZE + len q <= BSIZE →
  let x := blockno c ip (off / BSIZE) in let c' := <[x := splice (c x) (Z.to_nat (off - off / BSIZE * BSIZE)) q]> c in
  file_ok c' fb ip (size_of (bs ++ q)) (bs ++ q) ∧ size_of (bs ++ q) = nb ∧ disk_ok c' fb ∧ (∀ bn, blockno c' ip bn = blockno c ip bn) ∧
  (∀ b, ¬ owned c ip nb b → c' b = c b) ∧ nmeta <= x < fb.
Proof.
  intros H D off Hnb Hq Hfit x. assert (Ho : 0 <= off) by (unfold off, len; lia). pose proof (Z.div_mod off BSIZE ltac:(done)) as Hdm.
  replace (off - off / BSIZE * BSIZE) with (off mod BSIZE) by lia. intros c'.
  assert (Hd : 0 <= off / BSIZE) by (by apply Z.div_pos).
  destruct (file_write c fb ip nb bs q H (d_len _ _ D)) as [Hw Eb]; [unfold off, len in *; lia|exact Hfit|]. fold (len bs) off x c' in Hw, Eb.
  assert (Es : size_of (bs ++ q) = nb).
  { unfold size_of, len. rewrite length_app, Nat2Z.inj_add. fold (len bs) off (len q). unfold nblk, BSIZE in *. 
    pose proof (Z.mod_pos_bound off 512). pose proof (Z.div_mod (off + len q + 511) 512). pose proof (Z.mod_pos_bound (off + len q + 511) 512). unfold len in *. lia. }
  assert (Hx : nmeta <= x < fb) by (apply (f_alloc _ _ _ _ _ H); lia).
  rewrite Es. split; [exact Hw|]. split; [done|]. split; [|split; [exact Eb|split; [|done]]].
  - apply disk_write; [done| |rewrite nmeta_val in Hx; lia|lia]. rewrite length_splice; [apply D|]. rewrite (d_len _ _ D). pose proof (Z.mod_pos_bound off BSIZE ltac:(done)). unfold len, BSIZE in *. lia.
  - intros b Hn. unfold c'. rewrite fn_lookup_insert_ne; [done|]. intros <-. apply Hn. right. exists (off / BSIZE). split; [lia|done].
Qed.

(** Getting a block and writing a piece into it. *)
Lemma round_appended c fb ip bs c1 fb1 ip1 q : let off := len bs in let x := blockno c1 ip1 (off / BSIZE) in
  file_ok c1 fb1 ip1 (off / BSIZE + 1) bs → disk_ok c1 fb1 → ip1 = with_addrs (i_addrs ip1) ip →
  (∀ b, b < fb → ¬ owned c ip (size_of bs) b → c1 b = c b) → (∀ b, owned c1 ip1 (off / BSIZE + 1) b → owned c ip (size_of bs) b ∨ fb <= b < fb1) →
  fb1 = fb + need (off / BSIZE + 1) - need (size_of bs) → fb <= fb1 → (0 < length q)%nat → off mod BSIZE + len q <= BSIZE →
  appended c fb ip bs (<[x := splice (c1 x) (Z.to_nat (off - off / BSIZE * BSIZE)) q]> c1) fb1 ip1 (bs ++ q) ∧ nmeta <= x < fb1.
Proof.
  intros off x H D Hm Ho Hn Hf Hle Hq Hfit. destruct (append_piece c1 fb1 ip1 _ bs q H D eq_refl Hq Hfit) as (W1 & Es & W2 & Eb & Wo & Hx).
  fold off x in W1, W2, Eb, Wo, Hx, Es. split; [|done]. split; try done.
  - intros b Hb Hno. rewrite Wo; [by apply Ho|]. intros Hob. destruct (Hn b Hob); [done|lia].
  - intros b Hob. apply Hn. rewrite Es in Hob. destruct Hob as [?|(bn & Hbn & ->)]; [by left|]. right. exists bn. split; [done|apply Eb].
  - by rewrite Es.
Qed.

Section append.
Context `{mode : Mode}.

Lemma wp_append_loop fuel : ∀ din bs p s (Q : inode * Z → mst → Prop), (length p <= fuel)%nat →
  disk_ok (img s) (freeblock s) → file_ok (img s) (freeblock s) din (size_of bs) bs → len bs + len p <= MAXFILE * BSIZE →
  freeblock s + need (nblk (len bs + len p)) - need (size_of bs) <= FSSIZE →
  (∀ din' s', appended (img s) (freeblock s) din bs (img s') (freeblock s') din' (bs ++ p) → freeinode s' = freeinode s → Q (din', len bs + len p) s') →
  wp (append_loop fuel din (len bs) p) Q s.
Proof.
  induction fuel as [|fuel IH]; intros din bs p s Q Hfu D H Hmax Hroom HQ.
  { destruct p; [|cbn in Hfu; lia]. cbn [append_loop]. apply wp_ret. specialize (HQ din s). rewrite app_nil_r, Z.add_0_r in HQ. apply HQ; [by apply appended_refl|done]. }
  destruct p as [|a p0].
  { cbn [append_loop]. apply wp_ret. specialize (HQ din s). rewrite app_nil_r, Z.add_0_r in HQ. apply HQ; [by apply appended_refl|done]. }
  set (p := a :: p0) in *. assert (Hp : 0 < len p) by (unfold len, p; cbn; lia). cbn [append_loop]. fold p. set (off := len bs) in *.
  assert (Ho : 0 <= off) by (unfold off, len; lia). pose proof (Z.div_mod off BSIZE ltac:(done)) as Hdm. pose proof (Z.mod_pos_bound off BSIZE ltac:(done)) as Hmb.
  assert (Hfbn : 0 <= off / BSIZE < MAXFILE) by (split; [by apply Z.div_pos|apply Z.div_lt_upper_bound; [done|lia]]).
  rewrite (proj2 (Z.ltb_lt _ _)) by lia. cbn [negb].
  assert (Hnb : off / BSIZE + 1 <= nblk (off + len p)).
  { unfold nblk. replace (off / BSIZE + 1) with ((off + 512) / 512) by (unfold BSIZE; rewrite <-(Z.div_add off 1 512) by done; f_equal; lia). apply Z.div_le_mono; lia. }
  set (n1 := Z.min (Z.of_nat (length p)) ((off / BSIZE + 1) * BSIZE - off)).
  assert (Hn1 : 0 < n1 <= len p ∧ off mod BSIZE + n1 <= BSIZE) by (unfold n1, len in *; lia).
  set (q := take (Z.to_nat n1) p). set (r := drop (Z.to_nat n1) p). assert (Hqr : p = q ++ r) by (unfold q, r; by rewrite take_drop).
  assert (Hlq : len q = n1) by (unfold len, q; rewrite length_take; unfold len in *; lia). assert (Hlr : len r = len p - n1) by (unfold len, r; rewrite length_drop; unfold len in *; lia).
  assert (Hcont : ∀ din1 s1, file_ok (img s1) (freeblock s1) din1 (off / BSIZE + 1) bs → disk_ok (img s1) (freeblock s1) → din1 = with_addrs (i_addrs din1) din →
    (∀ b, b < freeblock s → ¬ owned (img s) din (size_of bs) b → img s1 b = img s b) →
    (∀ b, owned (img s1) din1 (off / BSIZE + 1) b → owned (img s) din (size_of bs) b ∨ freeblock s <= b < freeblock s1) →
    freeblock s1 = freeblock s + need (off / BSIZE + 1) - need (size_of bs) → freeblock s <= freeblock s1 → freeinode s1 = freeinode s →
    wp (buf ← rsect (blockno (img s1) din1 (off / BSIZE));
        wsect (blockno (img s1) din1 (off / BSIZE)) (splice buf (Z.to_nat (off - off / BSIZE * BSIZE)) q);; append_loop fuel din1 (u32 (off + n1)) r) Q s1).
  { intros din1 s1 H1 D1 Hm Hoth Hnew Hf Hle Hfi. pose proof (d_fb _ _ D1) as Hfb. rewrite nmeta_val in Hfb.
    destruct (round_appended (img s) (freeblock s) din bs (img s1) (freeblock s1) din1 q) as [A Hx]; try done; [unfold len in Hlq; lia|fold off; lia|].
    fold off in A, Hx. rewrite nmeta_val in Hx. apply wp_bind, wp_rsect; [lia|]. unfold wsect. wp_steps. set (s2 := put_img _ s1).
    rewrite u32_small by (unfold MAXFILE, BSIZE, w32 in *; lia). replace (off + n1) with (len (bs ++ q)) by (unfold off, len; rewrite length_app; unfold len in Hlq; lia).
    assert (Hlen2 : len (bs ++ q) + len r = off + len p) by (unfold off, len in *; rewrite length_app; lia).
    apply IH; [unfold len in *; lia|apply A|apply A| | |].
    - rewrite Hlen2. done.
    - rewrite Hlen2. pose proof (a_fb _ _ _ _ _ _ _ _ A) as Ef. cbn [freeblock put_img s2]. unfold s2. cbn [freeblock put_img]. lia.
    - intros din' s' A' Hfi'. rewrite Hlen2. apply HQ; [|rewrite Hfi'; exact Hfi]. rewrite Hqr, app_assoc. eapply appended_trans; [done|exact A|exact A']. }
  apply wp_bind. destruct (nblk_spec off Ho) as [[Hz Hb]|[Hz Hb]]; fold off in H; fold (size_of bs) in Hb.
  - assert (Hsz : size_of bs = off / BSIZE) by done.
    apply (wp_file_block din bs (size_of bs)); try done; rewrite Hsz in *; try lia.
    + intros _. pose proof (need_mono _ _ Hnb). lia.
    + intros _ din' s' [G1 G2 G3 G4 G5] Hfi Hf. apply Hcont; try done. rewrite Hf. pose proof (need_mono (off / BSIZE) (off / BSIZE + 1)). lia.
  - assert (Hsz : size_of bs = off / BSIZE + 1) by done.
    apply (wp_file_block din bs (size_of bs)); try done; try lia.
    intros _. rewrite Hsz in *. apply Hcont; try done; try lia; [by destruct din|by left].
Qed.
End append.

(** ** The image *)

Definition node (c : Z → Log.block) (n : Z) : inode := load_dinode (c (IBLOCK n sb)) (dinode_off n) blank.
Definition attrs (ip : inode) : Z * Z * Z * Z * Z * Z * Z := (i_type ip, i_major ip, i_minor ip, i_nlink ip, i_uid ip, i_gid ip, i_mode ip).
Definition type_of (n : Z) : Z := if n =? ROOTINO then T_DIR else T_FILE.

(** An image with the inodes 1, ..., [fi - 1], where inode [n] is a file with
    the bytes [F n]. *)
Record image (c : Z → Log.block) (fi fb : Z) (F : Z → list Z) : Prop := {
  im_disk : disk_ok c fb;
  im_fi : 1 <= fi <= NINODES;
  im_file n : 1 <= n < fi → file_ok c fb (node c n) (size_of (F n)) (F n);
  im_size n : 1 <= n < fi → i_size (node c n) = len (F n);
  im_attrs n : 1 <= n < fi → attrs (node c n) = (type_of n, 0, 0, 1, UID, GID, MODE);
  im_apart n m b : 1 <= n < fi → 1 <= m < fi → owned c (node c n) (size_of (F n)) b → owned c (node c m) (size_of (F m)) b → n = m;
  im_sb : c 1 = sb_bytes;
  im_log b : 2 <= b < 2 + nlog → c b = zeroes
}.

Lemma iblock_val n : 0 <= n < 208 → IBLOCK n sb = n / 8 + 32 ∧ 32 <= IBLOCK n sb < 58.
Proof.
  intros Hn. unfold IBLOCK, IPB. change (sb_inodestart sb) with 32. pose proof (Z.div_mod n 8). pose proof (Z.mod_pos_bound n 8).
  rewrite u32_small by (unfold w32; lia). lia.
Qed.
Lemma inum_in n : 0 <= n < 208 → inum_ok sb n.
Proof. intros Hn. split; [lia|]. split; [done|]. change (sb_inodestart sb) with 32. unfold IPB. pose proof (Z.div_mod n 8). pose proof (Z.mod_pos_bound n 8). unfold w32. lia. Qed.

Definition iput (c : Z → Log.block) (n : Z) (ip : inode) : Z → Log.block :=
  <[IBLOCK n sb := store_dinode (c (IBLOCK n sb)) (dinode_off n) ip]> c.
Lemma node_iput c n m ip : (∀ b, length (c b) = 512%nat) → 0 <= n < 208 → 0 <= m < 208 → fits ip →
  node (iput c n ip) m = if decide (m = n) then rebooked blank ip else node c m.
Proof.
  intros Hl Hn Hm Hf. pose proof (dinode_off_in n ltac:(lia)) as Hon. pose proof (dinode_off_in m ltac:(lia)) as Hom. unfold node, iput. case_decide as E.
  - subst m. rewrite fn_lookup_insert. apply load_store_dinode; [done|by rewrite Hl].
  - destruct (decide (IBLOCK m sb = IBLOCK n sb)) as [Eb|Hne]; [|by rewrite fn_lookup_insert_ne]. rewrite Eb, fn_lookup_insert.
    apply load_store_other; [apply Hf|by rewrite Hl|]. by apply (dinode_apart sb); [apply inum_in|apply inum_in| |].
Qed.
Lemma iput_other c n ip b : 0 <= n < 208 → b < 32 ∨ 58 <= b → iput c n ip b = c b.
Proof. intros Hn Hb. unfold iput. apply fn_lookup_insert_ne. destruct (iblock_val n Hn). lia. Qed.
Lemma iput_disk c fb n ip : disk_ok c fb → 0 <= n < 208 → disk_ok (iput c n ip) fb.
Proof.
  intros D Hn. destruct (iblock_val n Hn). pose proof (d_fb _ _ D) as Hfb. rewrite nmeta_val in Hfb. unfold iput. apply disk_write; [done| |lia|lia]. rewrite length_store_dinode. apply D.
Qed.
(** A file depends on its inode through the addresses. *)
Lemma file_addrs c fb ip ip' nb bs : i_addrs ip' = i_addrs ip → fits ip' → file_ok c fb ip nb bs → file_ok c fb ip' nb bs.
Proof.
  intros E Hf [? ? ? Ha Hno Hi Hni Hap Hinj Hct]. assert (Eb : ∀ bn, blockno c ip' bn = blockno c ip bn) by (intros; by apply blockno_addrs).
  assert (Ei : indirect ip' = indirect ip) by (unfold indirect; by rewrite E). split; try done; rewrite ?Ei; try done; intros; rewrite ?Eb; auto.
  - apply Hinj; [done|done|]. by rewrite <-!Eb.
  - rewrite <-Hct by done. unfold content. by rewrite Eb.
Qed.
Lemma owned_addrs c ip ip' nb b : i_addrs ip' = i_addrs ip → owned c ip' nb b → owned c ip nb b.
Proof.
  intros E [[Hn Hb]|(bn & Hb & Hx)]; [left; split; [done|]|right; exists bn; split; [done|]].
  - rewrite Hb. unfold indirect. by rewrite E.
  - rewrite Hx. by apply blockno_addrs.
Qed.
(** Writing an inode does not touch a file. *)
Lemma file_iput c fb ip nb bs n jp : file_ok c fb ip nb bs → 0 <= n < 208 →
  file_ok (iput c n jp) fb ip nb bs ∧ ∀ b, owned (iput c n jp) ip nb b → owned c ip nb b.
Proof.
  intros H Hn. assert (Hc : ∀ b, owned c ip nb b → iput c n jp b = c b).
  { intros b Ho. pose proof (owned_range _ _ _ _ _ _ H Ho) as Hr. rewrite nmeta_val in Hr. apply iput_other; [done|lia]. }
  assert (H0 : iput c n jp 0 = c 0) by (apply iput_other; [done|lia]). split; [by eapply file_frame|]. intros b. by apply (owned_frame c _ fb ip nb bs).
Qed.

Lemma fits_size ip z : fits ip → 0 <= z < w32 → fits (set_size z ip).
Proof. intros (? & ? & ? & ? & ? & ? & ? & ? & ? & ?) Hz. unfold fits, set_size. cbn. repeat (split; [done|]). done. Qed.

Lemma image_append c fi fb F n p c1 fb1 ip1 : image c fi fb F → 1 <= n < fi → len (F n ++ p) <= MAXFILE * BSIZE →
  appended c fb (node c n) (F n) c1 fb1 ip1 (F n ++ p) →
  image (iput c1 n (set_size (len (F n ++ p)) ip1)) fi fb1 (<[n := F n ++ p]> F).
Proof.
  intros [D Hfi Hfile Hsize Hattr Hap Hsb Hlog] Hn Hmax [A1 A2 A3 A4 A5 A6 A7]. unfold NINODES in *.
  pose proof (d_fb _ _ D) as Hfb. rewrite nmeta_val in Hfb.
  assert (Hlow : ∀ b, b < 59 → c1 b = c b).
  { intros b Hb. apply A4; [lia|]. intros Ho. pose proof (owned_range _ _ _ _ _ _ (Hfile n Hn) Ho) as Hr. rewrite nmeta_val in Hr. lia. }
  assert (Hnode1 : ∀ m, 0 <= m < 208 → node c1 m = node c m) by (intros m Hm; unfold node; rewrite Hlow; [done|destruct (iblock_val m Hm); lia]).
  set (ip2 := set_size (len (F n ++ p)) ip1). set (c2 := iput c1 n ip2).
  assert (Hf2 : fits ip2) by (apply fits_size; [apply A1|unfold len, MAXFILE, BSIZE, w32 in *; lia]).
  assert (Hnode : ∀ m, 0 <= m < 208 → node c2 m = if decide (m = n) then ip2 else node c m).
  { intros m Hm. unfold c2. rewrite node_iput by (apply A2 || done || lia). case_decide; [|by apply Hnode1]. unfold ip2. rewrite A3. done. }
  assert (Hother : ∀ m b, 1 <= m < fi → m ≠ n → owned c (node c m) (size_of (F m)) b → c2 b = c b).
  { intros m b Hm Hne Ho. pose proof (owned_range _ _ _ _ _ _ (Hfile m Hm) Ho) as Hr. rewrite nmeta_val in Hr. unfold c2. rewrite iput_other by lia.
    apply A4; [lia|]. intros Ho'. apply Hne. by eapply Hap. }
  assert (H0 : c2 0 = c 0) by (unfold c2; rewrite iput_other by lia; apply Hlow; lia).
  destruct (file_iput c1 fb1 ip1 _ _ n ip2 A1 ltac:(lia)) as [Hfn Hon]. fold c2 in Hfn, Hon.
  assert (Hown : ∀ m b, 1 <= m < fi → owned c2 (node c2 m) (size_of ((<[n := F n ++ p]> F) m)) b →
     if decide (m = n) then owned c (node c n) (size_of (F n)) b ∨ fb <= b < fb1 else owned c (node c m) (size_of (F m)) b ∧ b < fb).
  { intros m b Hm. rewrite Hnode by lia. case_decide as E.
    - subst m. rewrite fn_lookup_insert. intros Ho. apply A5, Hon. by eapply owned_addrs; [|exact Ho].
    - rewrite fn_lookup_insert_ne by done. intros Ho. apply (owned_frame c c2 fb _ _ (F m)) in Ho; [|by apply Hfile|intros; by eapply Hother|done].
      split; [done|]. by apply (owned_range _ _ _ _ _ _ (Hfile m Hm)). }
  split.
  - unfold c2. apply iput_disk; [done|lia].
  - done.
  - intros m Hm. rewrite Hnode by lia. case_decide as E.
    + subst m. rewrite fn_lookup_insert. by apply (file_addrs c2 fb1 ip1).
    + rewrite fn_lookup_insert_ne by done. apply (file_frame c _ fb); [by apply Hfile|intros; by eapply Hother|done|done].
  - intros m Hm. rewrite Hnode by lia. case_decide as E; [subst; by rewrite fn_lookup_insert|]. rewrite fn_lookup_insert_ne by done. by apply Hsize.
  - intros m Hm. rewrite Hnode by lia. case_decide as E; [subst; rewrite <-(Hattr n Hn); unfold ip2; rewrite A3; done|]. by apply Hattr.
  - intros m k b Hm Hk Ho1 Ho2. apply Hown in Ho1; [|done]. apply Hown in Ho2; [|done]. 
    destruct (decide (m = n)) as [->|Hmn], (decide (k = n)) as [->|Hkn]; try done.
    + destruct Ho2 as [Ho2 Hlt]. destruct Ho1 as [Ho1|?]; [by eapply Hap|lia].
    + destruct Ho1 as [Ho1 Hlt]. destruct Ho2 as [Ho2|?]; [by eapply Hap|lia].
    + destruct Ho1, Ho2. by eapply Hap.
  - unfold c2. rewrite iput_other by lia. rewrite Hlow by lia. done.
  - intros b Hb. unfold nlog, LOGSIZE in *. unfold c2. rewrite iput_other by lia. rewrite Hlow by lia. by apply Hlog.
Qed.

Definition new_inode (type : Z) : inode := mkinode 0 0 0 false false type 0 0 1 UID GID MODE 0 (replicate 11 0).
Lemma image_alloc c fi fb F : image c fi fb F → fi < NINODES → image (iput c fi (new_inode (type_of fi))) (fi + 1) fb (<[fi := []]> F).
Proof.
  intros [D Hfi Hfile Hsize Hattr Hap Hsb Hlog] Hlt. unfold NINODES in *. set (ip := new_inode (type_of fi)). set (c2 := iput c fi ip).
  assert (Ht : type_of fi = 1 ∨ type_of fi = 2) by (unfold type_of; destruct (_ =? _); auto).
  assert (Hf : fits ip).
  { unfold ip, new_inode, fits. cbn -[replicate Z.lt Z.le w32]. unfold MODE, UID, GID, w32. repeat (split; [lia|]). split; [done|]. apply Forall_replicate. lia. }
  assert (Hnode : ∀ m, 0 <= m < 208 → node c2 m = if decide (m = fi) then ip else node c m) by (intros m Hm; unfold c2; by rewrite node_iput by (apply D || done || lia)).
  assert (Hold : ∀ m, 1 <= m < fi → file_ok c2 fb (node c2 m) (size_of (F m)) (F m) ∧ ∀ b, owned c2 (node c2 m) (size_of (F m)) b → owned c (node c m) (size_of (F m)) b).
  { intros m Hm. rewrite Hnode by lia. rewrite decide_False by lia. apply file_iput; [by apply Hfile|lia]. }
  assert (Hz : ∀ j, nth j (i_addrs ip) 0 = 0) by (intros; apply nth_replicate_Z).
  assert (Hb0 : ∀ bn, blockno c2 ip bn = 0).
  { intros bn. unfold blockno, indirect. rewrite !Hz. destruct (_ <? _); [done|]. unfold c2. rewrite iput_other by lia. rewrite (d_boot _ _ D). apply get32_zeroes. }
  assert (Hcase : ∀ m, 1 <= m < fi + 1 → m = fi ∨ 1 <= m < fi) by (intros; lia).
  assert (Es : size_of [] = 0) by done.
  assert (Hown : ∀ m b, 1 <= m < fi + 1 → owned c2 (node c2 m) (size_of ((<[fi := []]> F) m)) b → 1 <= m < fi ∧ owned c (node c m) (size_of (F m)) b).
  { intros m b Hm Ho. destruct (Hcase m Hm) as [->|Hl].
    - rewrite fn_lookup_insert, Es in Ho. destruct Ho as [[? _]|(bn & ? & _)]; lia.
    - rewrite fn_lookup_insert_ne in Ho by lia. split; [done|]. by apply Hold. }
  split.
  - unfold c2. apply iput_disk; [done|lia].
  - unfold NINODES. lia.
  - intros m Hm. destruct (Hcase m Hm) as [->|Hl].
    + rewrite fn_lookup_insert, Es, Hnode by lia. rewrite decide_True by done. split; try done; try (intros; lia).
    + rewrite fn_lookup_insert_ne by lia. by apply Hold.
  - intros m Hm. destruct (Hcase m Hm) as [->|Hl]; rewrite Hnode by lia; [rewrite decide_True, fn_lookup_insert by done; done|].
    rewrite decide_False, fn_lookup_insert_ne by lia. by apply Hsize.
  - intros m Hm. destruct (Hcase m Hm) as [->|Hl]; rewrite Hnode by lia; [by rewrite decide_True by done|]. rewrite decide_False by lia. by apply Hattr.
  - intros m k b Hm Hk Ho1 Ho2. apply Hown in Ho1 as [? Ho1]; [|done]. apply Hown in Ho2 as [? Ho2]; [|done]. by eapply Hap.
  - unfold c2. rewrite iput_other by lia. done.
  - intros b Hb. unfold nlog, LOGSIZE in *. unfold c2. rewrite iput_other by lia. by apply Hlog.
Qed.

Definition cost (bs : list Z) : Z := need (size_of bs).
Lemma len_app a b : len (a ++ b) = len a + len b.
Proof. unfold len. rewrite length_app. lia. Qed.
Lemma cost_mono a b : len a <= len b → cost a <= cost b.
Proof. intros. by apply need_mono, nblk_mono. Qed.
Lemma cost_app a b : cost a <= cost (a ++ b).
Proof. apply cost_mono. rewrite len_app. unfold len. lia. Qed.

(** The state is an image. *)
Definition built (s : mst) (F : Z → list Z) : Prop := image (img s) (freeinode s) (freeblock s) F.
Lemma image_ext c fi fb F F' : (∀ n, 1 <= n < fi → F' n = F n) → image c fi fb F → image c fi fb F'.
Proof.
  intros E [D Hfi Hfile Hsize Hattr Hap Hsb Hlog]. split; try done; intros n; intros; rewrite ?E by done; auto.
  rewrite E in * by done. by eapply Hap.
Qed.

Section run.
Context `{mode : Mode}.

Lemma wp_winode n ip s (Q : unit → mst → Prop) : 0 <= n < 208 → Q tt (put_img (iput (img s) n ip) s) → wp (winode n ip) Q s.
Proof. intros Hn HQ. destruct (iblock_val n Hn). unfold winode. apply wp_bind, wp_rsect; [unfold FSSIZE; lia|]. by unfold wsect; wp_steps. Qed.
Lemma wp_rinode n s (Q : inode → mst → Prop) : 0 <= n < 208 → Q (node (img s) n) s → wp (rinode n) Q s.
Proof. intros Hn HQ. destruct (iblock_val n Hn). unfold rinode. apply wp_bind, wp_rsect; [unfold FSSIZE; lia|]. by wp_steps. Qed.

Lemma wp_iappend n p s F (Q : unit → mst → Prop) : built s F → 1 <= n < freeinode s → len (F n ++ p) <= MAXFILE * BSIZE →
  freeblock s + cost (F n ++ p) - cost (F n) <= FSSIZE →
  (∀ s', built s' (<[n := F n ++ p]> F) → freeinode s' = freeinode s → freeblock s' = freeblock s + cost (F n ++ p) - cost (F n) → Q tt s') →
  wp (iappend n p) Q s.
Proof.
  intros H Hn Hmax Hroom HQ. pose proof (im_fi _ _ _ _ H) as Hfi. unfold NINODES in Hfi. unfold iappend. apply wp_bind, wp_rinode; [lia|].
  rewrite (im_size _ _ _ _ H n Hn). apply wp_bind. assert (El : len (F n) + len p = len (F n ++ p)) by (by rewrite len_app).
  apply (wp_append_loop _ _ (F n)); [done|apply H|by apply H|by rewrite El|rewrite El; exact Hroom|]. intros din s1 A Hf. rewrite El.
  apply wp_winode; [lia|]. apply HQ; [|exact Hf|exact (a_fb _ _ _ _ _ _ _ _ A)]. unfold built. cbn [img freeinode freeblock put_img].
  rewrite Hf. by apply (image_append (img s) _ (freeblock s)).
Qed.

Lemma wp_ialloc s F (Q : Z → mst → Prop) : built s F → freeinode s < NINODES →
  (∀ s', built s' (<[freeinode s := []]> F) → freeinode s' = freeinode s + 1 → freeblock s' = freeblock s → Q (freeinode s) s') →
  wp (ialloc (type_of (freeinode s))) Q s.
Proof.
  intros H Hlt HQ. pose proof (im_fi _ _ _ _ H) as Hfi. unfold NINODES in *. unfold ialloc. wp_steps. apply wp_winode; [lia|]. wp_steps.
  cbn [img put_freeinode]. fold (new_inode (type_of (freeinode s))).
  assert (E : u32 (freeinode s + 1) = freeinode s + 1) by (apply u32_small; unfold w32; lia).
  apply HQ; [|exact E|done]. unfold built. cbn [img freeinode freeblock put_img put_freeinode]. rewrite E. apply image_alloc; [done|unfold NINODES; lia].
Qed.

Lemma wp_append_all n pieces : ∀ s F (Q : unit → mst → Prop), built s F → 1 <= n < freeinode s → len (F n ++ concat pieces) <= MAXFILE * BSIZE →
  freeblock s + cost (F n ++ concat pieces) - cost (F n) <= FSSIZE →
  (∀ s', built s' (<[n := F n ++ concat pieces]> F) → freeinode s' = freeinode s → freeblock s' = freeblock s + cost (F n ++ concat pieces) - cost (F n) → Q tt s') →
  wp (append_all n pieces) Q s.
Proof.
  induction pieces as [|p pieces IH]; intros s F Q H Hn Hmax Hroom HQ; cbn [append_all concat] in *.
  - apply wp_ret. rewrite app_nil_r in HQ. apply HQ; [|done|lia]. eapply image_ext; [|exact H]. intros m _. destruct (decide (m = n)) as [->|]; [by rewrite fn_lookup_insert|by rewrite fn_lookup_insert_ne].
  - assert (Hl : len (F n ++ p) <= len (F n ++ p ++ concat pieces)) by (rewrite !len_app; unfold len; lia). pose proof (cost_mono _ _ Hl) as Hc.
    apply wp_bind, (wp_iappend n p s F); [done|done|lia|lia|]. intros s1 H1 Hfi Hfb.
    apply (IH s1 (<[n := F n ++ p]> F)); [done|lia|rewrite fn_lookup_insert, <-app_assoc; done|rewrite fn_lookup_insert, <-app_assoc; lia|].
    rewrite fn_lookup_insert, <-app_assoc. intros s2 H2 Hfi2 Hfb2. apply HQ; [|lia|lia]. eapply image_ext; [|exact H2]. intros m _.
    destruct (decide (m = n)) as [->|]; [by rewrite !fn_lookup_insert|by rewrite !fn_lookup_insert_ne].
Qed.
End run.
End MkfsProps.
