(* ===== verification/MkfsBuild.v ===== *)
(** * Building an image

    The run of mkfs as a whole: what is in the finished image, in the terms in
    which the kernel's file system is specified. *)

From S2P Require Import Prelude CString Bytes Kern Log Fs FsSpec FsDemo FsInode FsData Mkfs MkfsProps.
Local Open Scope Z_scope.

Module MkfsBuild.
Import Bytes Fs FsInode FsData Mkfs MkfsProps.

(** The root directory's entries for files whose inodes start at [fi], and the
    blocks the files need. *)
Fixpoint entries (fi : Z) (fs : list (list Z * list (list Z))) : list Z :=
  match fs with [] => [] | f :: fs => dirent fi (skip_underscore f.1) ++ entries (fi + 1) fs end.
Definition costs (fs : list (list Z * list (list Z))) : Z := foldr (λ f n, cost (concat f.2) + n) 0 fs.

Lemma len_dirent n name : len (dirent n name) = 16.
Proof. unfold len, dirent. rewrite length_app, length_take, length_app, length_replicate. unfold DIRSIZ. cbn [length]. lia. Qed.
Lemma len_entries fs : ∀ fi, len (entries fi fs) = 16 * Z.of_nat (length fs).
Proof. induction fs as [|f fs IH]; intros fi; [done|]. cbn [entries length]. rewrite len_app, len_dirent, IH. lia. Qed.
Lemma cost_pos a : 0 <= cost a.
Proof. unfold cost, size_of, nblk. assert (0 <= (len a + 511) / 512) by (apply Z.div_pos; unfold len; lia). unfold need. case_decide; lia. Qed.
Lemma costs_pos fs : 0 <= costs fs.
Proof. induction fs as [|f fs IH]; [done|]. cbn. fold (costs fs). pose proof (cost_pos (concat f.2)). lia. Qed.
Lemma cost_nil : cost [] = 0.
Proof. reflexivity. Qed.

Section run.
Context `{mode : Mode}.

Definition file_fits (f : list Z * list (list Z)) : Prop := 47 ∉ f.1 ∧ len (concat f.2) <= MAXFILE * BSIZE.

Lemma wp_add_files fs : ∀ s F (Q : unit → mst → Prop), built s F → 2 <= freeinode s → freeinode s + Z.of_nat (length fs) <= NINODES → Forall file_fits fs →
  len (F 1 ++ entries (freeinode s) fs) <= MAXFILE * BSIZE →
  freeblock s + cost (F 1 ++ entries (freeinode s) fs) - cost (F 1) + costs fs <= FSSIZE →
  (∀ s' F', built s' F' → freeinode s' = freeinode s + Z.of_nat (length fs) →
     freeblock s' = freeblock s + cost (F 1 ++ entries (freeinode s) fs) - cost (F 1) + costs fs →
     F' 1 = F 1 ++ entries (freeinode s) fs → (∀ n, 1 < n < freeinode s → F' n = F n) →
     (∀ i f, fs !! i = Some f → F' (freeinode s + Z.of_nat i) = concat f.2) → Q tt s') →
  wp (add_files 1 fs) Q s.
Proof.
  induction fs as [|[name pieces] fs IH]; intros s F Q H Hfi Hn Hok Hmax Hroom HQ; cbn [add_files entries length Datatypes.fst Datatypes.snd] in *.
  { apply wp_ret. rewrite app_nil_r in HQ. apply (HQ s F); try done; [lia|cbn; lia]. }
  apply Forall_cons in Hok as [[Hsl Hlen] Hok]. cbn [Datatypes.fst Datatypes.snd] in *. rewrite bool_decide_false by done.
  change (costs ((name, pieces) :: fs)) with (cost (concat pieces) + costs fs) in *. pose proof (costs_pos fs) as Hcp. pose proof (cost_pos (concat pieces)) as Hcc.
  set (fi := freeinode s) in *. set (e := dirent fi (skip_underscore name)) in *. set (es := entries (fi + 1) fs) in *.
  assert (Hl : len (F 1 ++ e) <= len (F 1 ++ e ++ es)) by (rewrite !len_app; unfold len; lia). pose proof (cost_mono _ _ Hl) as Hce.
  apply wp_bind. assert (Ht : T_FILE = type_of (freeinode s)) by (unfold type_of; rewrite (proj2 (Z.eqb_neq _ _)) by (unfold ROOTINO; fold fi; lia); done).
  rewrite Ht. apply (wp_ialloc s F); [done|fold fi; lia|]. fold fi. intros s1 H1 Hf1 Hb1.
  set (F1 := <[fi := []]> F) in *. assert (E11 : F1 1 = F 1) by (unfold F1; by rewrite fn_lookup_insert_ne by lia).
  apply wp_bind, (wp_iappend 1 e s1 F1); [done|lia|rewrite E11; lia|rewrite E11; lia|]. rewrite E11. intros s2 H2 Hf2 Hb2.
  set (F2 := <[1 := F 1 ++ e]> F1) in *. assert (E2 : F2 fi = []) by (unfold F2, F1; by rewrite fn_lookup_insert_ne, fn_lookup_insert by lia).
  apply wp_bind, (wp_append_all fi pieces s2 F2); [done|lia|by rewrite E2|rewrite E2, app_nil_l, cost_nil; lia|]. rewrite E2, app_nil_l, cost_nil. intros s3 H3 Hf3 Hb3.
  set (F3 := <[fi := concat pieces]> F2) in *.
  assert (E31 : F3 1 = F 1 ++ e) by (unfold F3, F2; by rewrite fn_lookup_insert_ne, fn_lookup_insert by lia).
  assert (Efi : freeinode s3 = fi + 1) by lia.
  apply (IH s3 F3); [done|lia|lia|done| | |]; rewrite Efi, E31, <-!app_assoc; fold es; [done|lia|].
  intros s' F' H' Hf' Hb' F'1 F'o F'n. apply (HQ s' F'); [done|lia|lia|done| |].
  - intros n Hn'. rewrite F'o by lia. unfold F3, F2, F1. by rewrite !fn_lookup_insert_ne by lia.
  - intros [|i] f Hi.
    + injection Hi as <-. rewrite Z.add_0_r, F'o by lia. unfold F3. by rewrite fn_lookup_insert.
    + replace (fi + Z.of_nat (S i)) with (fi + 1 + Z.of_nat i) by lia. by apply F'n.
Qed.

Lemma wp_zero_all n : ∀ i s (Q : unit → mst → Prop), (∀ b, img s b = zeroes) →
  (∀ s', (∀ b, img s' b = zeroes) → freeinode s' = freeinode s → freeblock s' = freeblock s → Q tt s') → wp (zero_all n i) Q s.
Proof.
  induction n as [|n IH]; intros i s Q Hz HQ; cbn [zero_all]; [by apply wp_ret, HQ|]. unfold wsect. wp_steps. apply IH; [|done].
  intros b. cbn. destruct (decide (b = i)) as [->|]; [by rewrite fn_lookup_insert|by rewrite fn_lookup_insert_ne].
Qed.
End run.

Lemma image_start c : (∀ b, b ≠ 1 → c b = zeroes) → c 1 = sb_bytes → image c 1 nmeta (λ _, []).
Proof.
  intros Hz H1. split; try (intros; lia); try done.
  - split; [|by apply Hz| |done].
    + intros b. destruct (decide (b = 1)) as [->|]; [rewrite H1; reflexivity|by rewrite Hz].
    + intros b Hb. rewrite nmeta_val in Hb. apply Hz. lia.
  - intros b Hb. apply Hz. lia.
Qed.

(** The bitmap. *)
Lemma bit_mark n : ∀ i buf j, length buf = 512%nat → 0 <= i → i + Z.of_nat n <= BPB → 0 <= j →
  bit_of (mark_used n i buf) j = ((i <=? j) && (j <? i + Z.of_nat n)) || bit_of buf j.
Proof.
  induction n as [|n IH]; intros i buf j Hl Hi Hb Hj; cbn [mark_used].
  - destruct (Z.leb_spec i j); [|done]. rewrite (proj2 (Z.ltb_ge _ _)) by lia. done.
  - assert (Hl2 : length (bit_set buf i) = 512%nat) by (unfold bit_set; etrans; [apply length_insert|done]).
    rewrite IH by (done || lia). rewrite FsSpec.bit_of_set by (rewrite ?Hl; (done || unfold BPB in *; lia)).
    rewrite orb_assoc. f_equal. case_bool_decide; destruct (Z.leb_spec (i + 1) j), (Z.leb_spec i j), (Z.ltb_spec j (i + 1 + Z.of_nat n)), (Z.ltb_spec j (i + Z.of_nat (S n))); cbn; lia || done.
Qed.
Lemma length_mark n : ∀ i buf, length (mark_used n i buf) = length buf.
Proof. induction n as [|n IH]; intros i buf; cbn [mark_used]; [done|]. rewrite IH. unfold bit_set. apply length_insert. Qed.
Lemma bit_zeroes j : 0 <= j → bit_of zeroes j = false.
Proof. intros. unfold bit_of, byte, zeroes. by rewrite nth_replicate_Z. Qed.

(** ** The finished image *)

(** A file of the image as the kernel sees it. *)
Lemma image_laid_out c fb ip nb bs l : file_ok c fb ip nb bs → disk_ok c fb → 0 <= l <= nb * BSIZE → laid_out c ip l.
Proof.
  intros [Hf Hnb _ Ha _ Hi _ Hap Hinj _] D Hl. rewrite nmeta_val in *.
  assert (Hlt : ∀ bn, 0 <= bn → bn * BSIZE < l → 0 <= bn < nb) by (intros; unfold BSIZE in *; lia). split.
  - unfold MAXFILE, BSIZE in *. lia.
  - apply Hf.
  - intros bn H1 H2. specialize (Ha bn (Hlt bn H1 H2)). lia.
  - intros Hd. specialize (Hi ltac:(unfold BSIZE in *; lia)). lia.
  - intros bn H1 H2. apply D.
  - intros bn H1 H2. apply Hap. by apply Hlt.
  - intros a b A1 A2 B1 B2. by apply Hinj; apply Hlt.
Qed.
Lemma file_contents c fb ip nb bs l : file_ok c fb ip nb bs → 0 <= l <= nb * BSIZE → contents c ip 0 l = take (Z.to_nat l) (bs ++ replicate (Z.to_nat l) 0).
Proof.
  intros H Hl. apply list_eq. intros k. destruct (decide (Z.of_nat k < l)) as [Hk|Hk].
  - rewrite lookup_contents, lookup_take_lt by lia. rewrite (f_content _ _ _ _ _ H) by lia. replace (Z.to_nat (0 + Z.of_nat k)) with k by lia.
    destruct (decide (k < length bs)%nat) as [Hb|Hb].
    + rewrite lookup_app_l by done. rewrite nth_lookup. by destruct (lookup_lt_is_Some_2 bs k Hb) as [v ->].
    + rewrite lookup_app_r, lookup_replicate_2 by lia. by rewrite nth_overflow by lia.
  - rewrite !lookup_ge_None_2; [done|rewrite length_take; lia|rewrite length_contents; lia].
Qed.

(** What the kernel finds: the superblock, an empty log, a bitmap in which
    exactly the blocks below [fb] are in use, the root directory with its
    entries, and every file with its bytes. *)
Record finished (files : list (list Z * list (list Z))) (c : Z → Log.block) (fb : Z) : Prop := {
  r_sb : decode_sb (c 1) = sb;
  r_log b : 2 <= b < 2 + nlog → c b = zeroes;
  r_map b : 0 <= b < BPB → bit_of (c (sb_bmapstart sb)) b = (b <? fb);
  r_root : let ip := node c ROOTINO in let es := dirent 1 [46] ++ dirent 1 [46; 46] ++ entries 2 files in
    attrs ip = (T_DIR, 0, 0, 1, UID, GID, MODE) ∧ i_size ip = (len es / BSIZE + 1) * BSIZE ∧
    laid_out c ip (len es) ∧ contents c ip 0 (len es) = es ∧
    (len es mod BSIZE ≠ 0 → laid_out c ip (i_size ip) ∧ ∀ p, len es <= p < i_size ip → content c ip p = 0);
  r_file i f : files !! i = Some f → let ip := node c (Z.of_nat i + 2) in
    attrs ip = (T_FILE, 0, 0, 1, UID, GID, MODE) ∧ i_size ip = len (concat f.2) ∧
    laid_out c ip (i_size ip) ∧ contents c ip 0 (i_size ip) = concat f.2;
  r_used n bn : 1 <= n < Z.of_nat (length files) + 2 → 0 <= bn → bn * BSIZE < i_size (node c n) → blockno c (node c n) bn ≠ 0 →
    nmeta <= blockno c (node c n) bn < fb ∧
    ∀ m bm, 1 <= m < Z.of_nat (length files) + 2 → 0 <= bm → bm * BSIZE < i_size (node c m) → blockno c (node c m) bm = blockno c (node c n) bn → m = n ∧ bm = bn
}.

Section finish.
Context (files : list (list Z * list (list Z))) (c : Z → Log.block) (fb : Z) (F : Z → list Z).
Context (H : image c (Z.of_nat (length files) + 2) fb F) (Hfb : fb < BPB).
Context (Hroot : F 1 = dirent 1 [46] ++ dirent 1 [46; 46] ++ entries 2 files) (Hfile : ∀ i f, files !! i = Some f → F (Z.of_nat i + 2) = concat f.2).
Context (Hmax : len (F 1) < MAXFILE * BSIZE) (Hlens : Forall file_fits files).

Definition last_size : Z := (len (F 1) / BSIZE + 1) * BSIZE.
Definition c2 : Z → Log.block := iput c 1 (set_size last_size (node c 1)).
Definition c3 : Z → Log.block := <[58 := mark_used (Z.to_nat fb) 0 zeroes]> c2.

Lemma c3_other b : b < 32 ∨ 59 <= b → c3 b = c b.
Proof using. intros Hb. unfold c3, c2. rewrite fn_lookup_insert_ne by lia. apply iput_other; lia. Qed.
Lemma last_size_range : len (F 1) < last_size <= MAXFILE * BSIZE ∧ len (F 1) / BSIZE < MAXFILE.
Proof using Hmax.
  assert (0 <= len (F 1)) by (unfold len; lia). unfold last_size, MAXFILE, BSIZE in *. pose proof (Z.div_mod (len (F 1)) 512).
  pose proof (Z.mod_pos_bound (len (F 1)) 512). lia.
Qed.
Lemma node3 n : 0 <= n < 208 → node c3 n = if decide (n = 1) then set_size last_size (node c 1) else node c n.
Proof using H Hmax.
  intros Hn. destruct (iblock_val n Hn) as [_ Hb]. assert (E : node c3 n = node c2 n) by (unfold node, c3; by rewrite fn_lookup_insert_ne by lia). rewrite E. unfold c2.
  rewrite node_iput; [|apply H|lia|done|].
  - case_decide; [|done]. done.
  - apply fits_size; [apply (im_file _ _ _ _ H 1); lia|]. pose proof last_size_range. unfold len, MAXFILE, BSIZE, w32 in *. lia.
Qed.
Lemma disk3 : disk_ok c3 fb.
Proof using H.
  pose proof (d_fb _ _ (im_disk _ _ _ _ H)) as Hr. rewrite nmeta_val in Hr. unfold c3. apply disk_write; [apply iput_disk; [apply H|lia]| |lia|lia]. by rewrite length_mark.
Qed.
Lemma file3 n : 1 <= n < Z.of_nat (length files) + 2 → file_ok c3 fb (node c3 n) (size_of (F n)) (F n) ∧ (∀ b, owned c3 (node c3 n) (size_of (F n)) b → owned c (node c n) (size_of (F n)) b).
Proof using H Hmax.
  intros Hn. pose proof (im_fi _ _ _ _ H) as Hfi. unfold NINODES in Hfi. pose proof (im_file _ _ _ _ H n Hn) as Hf.
  assert (Ea : i_addrs (node c3 n) = i_addrs (node c n)) by (rewrite node3 by lia; case_decide; [by subst|done]).
  assert (Hfits : fits (node c3 n)).
  { rewrite node3 by lia. case_decide; [|apply Hf]. subst. apply fits_size; [apply Hf|]. pose proof last_size_range. unfold len, MAXFILE, BSIZE, w32 in *. lia. }
  assert (Hc : ∀ b, owned c (node c n) (size_of (F n)) b → c3 b = c b).
  { intros b Ho. pose proof (owned_range _ _ _ _ _ _ Hf Ho) as Hr. rewrite nmeta_val in Hr. apply c3_other. lia. }
  assert (H0 : c3 0 = c 0) by (apply c3_other; lia). split.
  - apply (file_addrs _ _ (node c n)); [done|done|]. by apply (file_frame c _ fb).
  - intros b Ho. apply (owned_frame c c3 fb _ _ (F n)); [done|done|done|]. by eapply owned_addrs.
Qed.
Lemma size_room n : len (F n) <= size_of (F n) * BSIZE.
Proof using. unfold size_of, nblk, BSIZE. pose proof (Z.div_mod (len (F n) + 511) 512). pose proof (Z.mod_pos_bound (len (F n) + 511) 512). lia. Qed.

Lemma finish_root : let ip := node c3 1 in attrs ip = (T_DIR, 0, 0, 1, UID, GID, MODE) ∧ i_size ip = last_size ∧ laid_out c3 ip (len (F 1)) ∧ contents c3 ip 0 (len (F 1)) = F 1 ∧
  (len (F 1) mod BSIZE ≠ 0 → laid_out c3 ip (i_size ip) ∧ ∀ p, len (F 1) <= p < i_size ip → content c3 ip p = 0).
Proof using H Hmax.
  destruct (file3 1 ltac:(lia)) as [Hf _]. pose proof (im_attrs _ _ _ _ H 1 ltac:(lia)) as Ha. pose proof (size_room 1) as Hs. assert (Hl0 : 0 <= len (F 1)) by (unfold len; lia).
  assert (Ei : i_size (node c3 1) = last_size) by (rewrite node3 by lia; by rewrite decide_True). cbv zeta.
  split; [rewrite node3 by lia; rewrite decide_True by done; exact Ha|]. split; [done|]. split; [apply (image_laid_out _ fb _ (size_of (F 1)) (F 1)); [done|apply disk3|lia]|].
  split; [rewrite (file_contents c3 fb (node c3 1) (size_of (F 1)) (F 1)) by (done || lia); unfold len; rewrite Nat2Z.id; by rewrite take_app_length|].
  intros Hm. assert (Es : size_of (F 1) * BSIZE = last_size) by (unfold size_of, last_size; destruct (nblk_spec (len (F 1)) Hl0) as [[? _]|[_ ->]]; [done|lia]).
  rewrite Ei, <-Es. split; [apply (image_laid_out _ fb _ (size_of (F 1)) (F 1)); [done|apply disk3|lia]|].
  intros p Hp. rewrite (f_content _ _ _ _ _ Hf) by lia. apply nth_overflow. unfold len in *. lia.
Qed.

Lemma used3 n bn : 1 <= n < Z.of_nat (length files) + 2 → 0 <= bn → bn * BSIZE < i_size (node c3 n) → blockno c3 (node c3 n) bn ≠ 0 → 0 <= bn < size_of (F n).
Proof using H Hmax.
  intros Hn Hbn Hlt Hnz. destruct (file3 n Hn) as [Hf _]. pose proof (f_nb _ _ _ _ _ Hf) as Hnb. pose proof (size_room n) as Hs. pose proof (im_fi _ _ _ _ H) as Hfi. unfold NINODES in Hfi.
  assert (Hmx : bn < MAXFILE).
  { rewrite node3 in Hlt by lia. destruct (decide (n = 1)) as [->|].
    - cbn [i_size set_size] in Hlt. pose proof last_size_range. unfold MAXFILE, BSIZE in *. lia.
    - rewrite (im_size _ _ _ _ H n Hn) in Hlt. unfold MAXFILE, BSIZE in *. lia. }
  destruct (decide (bn < size_of (F n))); [lia|]. exfalso. apply Hnz. apply (f_none _ _ _ _ _ Hf). lia.
Qed.

Lemma finish_image : finished files c3 fb.
Proof using H Hfb Hroot Hfile Hmax Hlens.
  pose proof (im_fi _ _ _ _ H) as Hfi. unfold NINODES in Hfi. pose proof (d_fb _ _ (im_disk _ _ _ _ H)) as Hr. rewrite nmeta_val in Hr. split.
  - rewrite c3_other by lia. rewrite (im_sb _ _ _ _ H). vm_compute. reflexivity.
  - intros b Hb. unfold nlog, LOGSIZE in *. rewrite c3_other by lia. by apply (im_log _ _ _ _ H).
  - intros b Hb. change (sb_bmapstart sb) with 58. unfold c3. rewrite fn_lookup_insert, bit_mark by (done || unfold BPB in *; lia).
    rewrite bit_zeroes, orb_false_r by lia. rewrite (proj2 (Z.leb_le 0 b)) by lia. cbn [andb]. f_equal. lia.
  - cbv zeta. unfold ROOTINO. rewrite <-Hroot. apply finish_root.
  - intros i f Hi. pose proof (lookup_lt_Some _ _ _ Hi) as Hlt. set (n := Z.of_nat i + 2). assert (Hn : 1 <= n < Z.of_nat (length files) + 2) by lia.
    destruct (file3 n Hn) as [Hf _]. pose proof (size_room n) as Hs. cbv zeta. assert (En : node c3 n = node c n) by (rewrite node3 by lia; by rewrite decide_False by lia).
    assert (Esz : i_size (node c3 n) = len (concat f.2)) by (rewrite En, (im_size _ _ _ _ H n Hn); by unfold n; rewrite (Hfile i f Hi)).
    assert (EF : F n = concat f.2) by (by apply Hfile). assert (Hl0 : 0 <= len (F n)) by (unfold len; lia).
    split; [rewrite En, (im_attrs _ _ _ _ H n Hn); unfold type_of; by rewrite (proj2 (Z.eqb_neq _ _)) by (unfold ROOTINO; lia)|]. split; [done|].
    rewrite Esz, <-EF. split; [apply (image_laid_out _ fb _ (size_of (F n)) (F n)); [done|apply disk3|lia]|].
    rewrite (file_contents c3 fb (node c3 n) (size_of (F n)) (F n)) by (done || lia). unfold len. rewrite Nat2Z.id. by rewrite take_app_length.
  - intros n bn Hn Hbn Hlt Hnz. pose proof (used3 n bn Hn Hbn Hlt Hnz) as Hb. destruct (file3 n Hn) as [Hf Ho].
    split; [by apply (f_alloc _ _ _ _ _ Hf)|]. intros m bm Hm Hbm Hltm E. pose proof (used3 m bm Hm Hbm Hltm ltac:(by rewrite E)) as Hb'.
    destruct (file3 m Hm) as [Hfm Hom].
    assert (m = n) as ->. { eapply (im_apart _ _ _ _ H); [done|done|apply Hom; right; by exists bm|apply Ho; right; exists bn; by split]. }
    split; [done|]. by apply (f_inj _ _ _ _ _ Hf).
Qed.
End finish.

Lemma wp_main files :
  let es := dirent 1 [46] ++ dirent 1 [46; 46] ++ entries 2 files in
  let fb := nmeta + cost es + costs files in
  Z.of_nat (length files) + 2 <= NINODES → Forall file_fits files → len es < MAXFILE * BSIZE → fb <= FSSIZE →
  wp (H := Total) (main files) (λ _ s', finished files (img s') fb) start.
Proof.
  intros es fb Hn Hok Hmax Hroom. pose proof (costs_pos files) as Hcp. assert (Efv : fb = 59 + cost es + costs files) by done. clearbody fb.
  set (d1 := dirent 1 [46]) in *. set (d2 := dirent 1 [46; 46]) in *.
  assert (Hc1 : cost d1 <= cost es) by (apply cost_mono; unfold es; rewrite !len_app; unfold len; lia).
  assert (Hc2 : cost (d1 ++ d2) <= cost es) by (apply cost_mono; unfold es; rewrite !len_app; unfold len; lia).
  assert (Hl1 : len d1 <= len es) by (unfold es; rewrite !len_app; unfold len; lia).
  assert (Hl2 : len (d1 ++ d2) <= len es) by (unfold es; rewrite !len_app; unfold len; lia).
  unfold main. apply wp_bind, wp_modify, wp_bind, wp_zero_all; [intros b; reflexivity|]. intros s1 Hz Hf1 Hb1. cbn [freeinode freeblock put_freeblock start] in Hf1, Hb1. unfold wsect. apply wp_bind, wp_modify.
  set (s2 := put_img _ s1).
  assert (H2 : built s2 (λ _, [])).
  { unfold built, s2. cbn [img freeinode freeblock put_img]. rewrite Hf1, Hb1. apply image_start; [|by rewrite fn_lookup_insert]. intros b Hb. by rewrite fn_lookup_insert_ne. }
  apply wp_bind. change T_DIR with (type_of 1). assert (Ef2 : freeinode s2 = 1) by exact Hf1. rewrite <-Ef2. apply (wp_ialloc s2 (λ _, [])); [done|rewrite Ef2; done|].
  rewrite Ef2. intros s3 H3 Hf3 Hb3. cbn [Z.eqb negb]. change (1 =? ROOTINO) with true. cbn [negb].
  set (F3 := <[1 := []]> (λ _, [] : list Z)) in *. assert (E3 : F3 1 = []) by (unfold F3; by rewrite fn_lookup_insert).
  assert (Eb3 : freeblock s3 = 59) by (rewrite Hb3; exact Hb1).
  apply wp_bind, (wp_iappend 1 d1 s3 F3); [done|lia|rewrite E3, app_nil_l; lia|rewrite E3, app_nil_l, cost_nil; lia|]. rewrite E3, app_nil_l, cost_nil. intros s4 H4 Hf4 Hb4.
  set (F4 := <[1 := d1]> F3) in *. assert (E4 : F4 1 = d1) by (unfold F4; by rewrite fn_lookup_insert).
  apply wp_bind, (wp_iappend 1 d2 s4 F4); [done|lia|rewrite E4; lia|rewrite E4; lia|]. rewrite E4. intros s5 H5 Hf5 Hb5.
  set (F5 := <[1 := d1 ++ d2]> F4) in *. assert (E5 : F5 1 = d1 ++ d2) by (unfold F5; by rewrite fn_lookup_insert).
  assert (Efi : freeinode s5 = 2) by lia. assert (Ees : (d1 ++ d2) ++ entries 2 files = es) by (unfold es; by rewrite <-app_assoc).
  apply wp_bind, (wp_add_files files s5 F5); [done|lia|lia|done|rewrite E5, Efi, Ees; lia|rewrite E5, Efi, Ees; lia|].
  rewrite E5, Efi, Ees. intros s6 F H6 Hf6 Hb6 Hr _ Hfl. assert (Efb : freeblock s6 = fb) by lia.
  assert (H6' : image (img s6) (Z.of_nat (length files) + 2) fb F) by (unfold built in H6; rewrite Hf6, Efb, Z.add_comm in H6; exact H6).
  apply wp_bind, wp_rinode; [done|]. rewrite (im_size _ _ _ _ H6' 1) by lia. cbv zeta.
  assert (El : u32 ((len (F 1) / BSIZE + 1) * BSIZE) = last_size F).
  { apply u32_small. assert (Hmx : len (F 1) < MAXFILE * BSIZE) by (by rewrite Hr). pose proof (last_size_range F Hmx) as Hls.
    assert (Hl0 : 0 <= len (F 1)) by (unfold len; lia). change (MAXFILE * BSIZE) with 70656 in Hls.
    clear -Hls Hl0. unfold w32. lia. }
  rewrite El. apply wp_bind, wp_winode; [done|]. apply wp_bind, wp_gets. cbn [freeblock put_img]. rewrite Efb. unfold balloc.
  rewrite (proj2 (Z.ltb_lt _ _)) by (unfold FSSIZE, BSIZE in *; lia). cbn [negb]. unfold wsect. wp_steps. cbn [img put_img].
  apply (finish_image files (img s6) fb F); [done|unfold FSSIZE, BPB in *; lia|done| |by rewrite Hr|].
  - intros i f Hi. rewrite Z.add_comm. by apply Hfl.
  - done.
Qed.

(** C38: mkfs builds the image it was asked for.  Given files that fit (names
    without a slash, at most 138 blocks each, room for their inodes, for the
    root directory and for all their blocks), mkfs returns, whatever the pieces
    in which it reads the files.  In the image the kernel finds the superblock,
    an empty log, a bitmap that marks exactly the blocks in use, the root
    directory with the entries of all files, and every file with its size and
    its bytes, in allocated blocks that no two files share. *)
Theorem mkfs_builds files :
  let es := dirent 1 [46] ++ dirent 1 [46; 46] ++ entries 2 files in
  let fb := nmeta + cost es + costs files in
  Z.of_nat (length files) + 2 <= NINODES → Forall file_fits files → len es < MAXFILE * BSIZE → fb <= FSSIZE →
  ∃ s', main files start = Ok tt s' ∧ finished files (img s') fb.
Proof.
  intros es fb Hn Hok Hmax Hroom. destruct (wp_total _ _ _ (wp_main files Hn Hok Hmax Hroom)) as ([] & s' & E & HF). exists s'. exact (conj E HF).
Qed.

(** One file, _a, read in two pieces. *)
Definition demo_files : list (list Z * list (list Z)) := [([95; 97], [[104; 105]; [33]])].
Lemma mkfs_builds_witness : ∃ s', main demo_files start = Ok tt s' ∧ finished demo_files (img s') 61.
Proof.
  destruct (mkfs_builds demo_files) as (s' & E & H).
  - vm_compute. discriminate.
  - constructor; [|constructor]. split; [|vm_compute; discriminate]. apply (bool_decide_unpack _). vm_compute. exact I.
  - vm_compute. reflexivity.
  - vm_compute. discriminate.
  - exists s'. split; [exact E|]. exact H.
Defined.
End MkfsBuild.
