(* ===== verification/MkfsRead.v ===== *)
(** * Reading an image in the kernel

    The kernel on a disk that mkfs has made: it reads the superblock, finds a
    file of the root directory by its name (namei, with dirlookup reading the
    directory entry by entry) and reads its bytes. *)

From S2P Require Import Prelude CString Bytes Kern Log Fs FsSpec FsDemo FsInode FsData FsPath Mkfs MkfsProps MkfsBuild.
Local Open Scope Z_scope.

Module MkfsRead.
Import Bytes Fs FsSpec FsInode FsData Mkfs MkfsProps MkfsBuild.

(** ** Parts of files *)

Lemma laid_out_inode c ip ip' l : i_addrs ip' = i_addrs ip → laid_out c ip l → laid_out c ip' l.
Proof.
  intros E [H1 H2 H3 H4 H5 H6 H7]. assert (Eb : ∀ bn, blockno c ip' bn = blockno c ip bn) by (intros; by apply blockno_addrs).
  assert (Ei : indirect ip' = indirect ip) by (unfold indirect; by rewrite E).
  split; rewrite ?E, ?Ei; try done; intros *; rewrite ?Eb, ?Ei; auto.
Qed.
Lemma contents_addrs c ip ip' p n : i_addrs ip' = i_addrs ip → contents c ip' p n = contents c ip p n.
Proof. intros E. unfold contents. apply list_fmap_ext. intros k x _. unfold content. by rewrite (blockno_addrs c ip ip') by done. Qed.
Lemma contents_part c ip l p n : 0 <= p → 0 <= n → p + n <= l → contents c ip p n = take (Z.to_nat n) (drop (Z.to_nat p) (contents c ip 0 l)).
Proof.
  intros Hp Hn Hl. apply list_eq. intros k. destruct (decide (Z.of_nat k < n)).
  - rewrite lookup_contents, lookup_take_lt, lookup_drop, lookup_contents by lia. do 2 f_equal. lia.
  - rewrite !lookup_ge_None_2; [done|rewrite length_take; lia|rewrite length_contents; lia].
Qed.


(** Reading inside the part of a file that is laid out. *)
Lemma wp_readi_within `{mode : Mode} k c ic x i ip len dr off n s (Q : Z * list Z → fst → Prop) :
  ic !! i = Some ip → i_dev ip = ROOTDEV → laid_out c ip len → st [] k c none ic x s → i_type ip ≠ T_DEV → len <= i_size ip →
  0 <= off → 0 <= n → off + n <= len → (∀ s', st [] k c none ic x s' → Q (n, contents c ip off n) s') → wp (readi dr i off n) Q s.
Proof.
  intros Hi Hdev Hlo Hs Ht Hsz Ho Hn Hl HQ. unfold readi. apply wp_bind. eapply wp_ino; [done|done|]. pose proof (lo_len _ _ _ Hlo) as Hlen.
  rewrite (proj2 (Z.eqb_neq _ _)) by done. rewrite (proj2 (Z.ltb_ge _ off)) by lia.
  rewrite u32_small by (unfold MAXFILE, BSIZE, w32 in *; lia). rewrite (proj2 (Z.ltb_ge (off + n) off)) by lia. cbn [orb]. cbv zeta.
  rewrite (proj2 (Z.ltb_ge _ (off + n))) by lia. apply wp_bind. eapply (wp_fread_loop k c ic x i ip len); [done|done|done|done|lia|lia|lia| |].
  - rewrite Z.sub_0_r. pose proof (touched_fuel off n ltac:(lia) ltac:(lia)). assert (0 <= n / BSIZE) by (apply Z.div_pos; [lia|done]). lia.
  - intros s' H'. rewrite app_nil_l, Z.sub_0_r. wp_steps. by apply HQ.
Qed.

(** ** Entries and names *)

(** A name in the fixed size of an entry. *)
Definition pad (e : list Z) : list Z := take DIRSIZ (e ++ replicate DIRSIZ 0).
Definition letters (e : list Z) : Prop := Forall (λ c, 0 < c < 256) e.

Lemma length_pad e : length (pad e) = DIRSIZ.
Proof. unfold pad. rewrite length_take, length_app, length_replicate. lia. Qed.
Lemma cstr_pad e n : letters e → CString.cstr (take n (e ++ replicate DIRSIZ 0)) = take n e.
Proof.
  intros He. revert n. induction e as [|a e IH]; intros n; [rewrite app_nil_l; by destruct n|]. apply Forall_cons in He as [Ha He].
  destruct n as [|n]; [done|]. cbn [app take CString.cstr]. rewrite (proj2 (Z.eqb_neq a 0)) by lia. by rewrite IH.
Qed.
Lemma pad_bytes e : letters e → Forall CString.is_byte (pad e).
Proof.
  intros He. apply Forall_take, Forall_app. split; [|by apply Forall_replicate; unfold CString.is_byte; lia]. eapply Forall_impl; [exact He|]. unfold CString.is_byte. cbn. lia.
Qed.
Lemma namecmp_pad a b : letters a → letters b → ∃ r, namecmp (pad a) (pad b) = Some r ∧ (r = 0 ↔ take DIRSIZ a = take DIRSIZ b).
Proof.
  intros Ha Hb. unfold namecmp. destruct (CString.strncmp_spec DIRSIZ (pad a) (pad b)) as (r & E & Hr);
    [by apply pad_bytes|by apply pad_bytes|apply CString.readable_length; by rewrite length_pad|apply CString.readable_length; by rewrite length_pad|].
  exists r. split; [done|]. rewrite Hr. unfold pad. rewrite !cstr_pad, !take_take, !Nat.min_id by done. done.
Qed.
Lemma dirent_read n e : 0 <= n < 65536 → de_inum (dirent n e) = n ∧ de_name (dirent n e) = pad e.
Proof.
  intros Hn. unfold de_inum, de_name, dirent, get16, byte, slice. cbn [app nth Nat.add drop].
  split; [|fold (pad e); apply take_ge; by rewrite length_pad].
  pose proof (Z.div_mod n 256). rewrite (Z.mod_small (n / 256)); [lia|]. split; [apply Z.div_pos; lia|apply Z.div_lt_upper_bound; lia].
Qed.
Lemma copy_name_pad e : copy_name (replicate DIRSIZ 0) e = pad e.
Proof.
  unfold copy_name, pad, splice. cbn [take app Nat.add]. case_decide as D.
  - assert (length (take DIRSIZ e) = DIRSIZ) as -> by (rewrite length_take; lia). rewrite drop_ge, app_nil_r by (by rewrite length_replicate).
    by rewrite take_app_le by lia.
  - rewrite take_app_ge, drop_replicate by lia. rewrite (take_replicate (DIRSIZ - length e) DIRSIZ), Nat.min_l by lia. rewrite take_0, app_nil_l.
    replace (DIRSIZ - length e)%nat with (S (DIRSIZ - length e - 1)) by lia. by rewrite insert_app_r_alt, Nat.sub_diag by lia.
Qed.
Lemma skipelem_one e name : e ≠ [] → 47 ∉ e → letters e → skipelem (47 :: e ++ [0]) name = Some (Some ([0], copy_name name e)).
Proof.
  intros Hne Hs He. assert (Hp : Forall FsPath.plain e).
  { apply Forall_forall. intros c Hc. split; [by intros ->|]. unfold letters in He. rewrite Forall_forall in He. specialize (He c Hc). cbn in He. lia. }
  unfold skipelem. destruct e as [|a e]; [done|]. pose proof Hp as [[Ha1 Ha2] _]%Forall_cons.
  change (47 :: (a :: e) ++ [0]) with (FsPath.slashes 1 ++ a :: e ++ [0]). rewrite FsPath.skip_slashes_spec by done. cbn [mbind option_bind app]. rewrite (proj2 (Z.eqb_neq a 0)) by done.
  change (a :: e ++ [0]) with ((a :: e) ++ [0]). rewrite FsPath.elem_spec by (done || by intros [_ ?]). done.
Qed.

(** Entry [j] of a directory. *)
Definition dents (files : list (list Z * list (list Z))) : list (Z * list Z) :=
  (1, [46]) :: (1, [46; 46]) :: imap (λ i f, (Z.of_nat i + 2, skip_underscore f.1)) files.
Definition dent (e : Z * list Z) : list Z := dirent e.1 e.2.
Lemma entries_dents files : ∀ fi, entries fi files = concat (dent <$> imap (λ i f, (Z.of_nat i + fi, skip_underscore f.1)) files).
Proof.
  induction files as [|f files IH]; intros fi; [done|]. cbn [entries imap fmap list_fmap concat]. rewrite IH. f_equal.
  do 2 f_equal. apply imap_ext. intros i x _. cbn. f_equal. lia.
Qed.
Lemma root_dents files : dirent 1 [46] ++ dirent 1 [46; 46] ++ entries 2 files = concat (dent <$> dents files).
Proof. unfold dents. cbn [fmap list_fmap concat]. by rewrite <-entries_dents. Qed.
Lemma nth_dent ds : ∀ j e, ds !! j = Some e → take 16 (drop (16 * j) (concat (dent <$> ds))) = dent e.
Proof.
  induction ds as [|d ds IH]; intros j e Hj; [done|]. cbn [fmap list_fmap concat].
  assert (Hl : length (dent d) = 16%nat) by (pose proof (len_dirent d.1 d.2) as H; unfold len in H; unfold dent; lia).
  destruct j as [|j].
  - injection Hj as ->. by rewrite drop_0, take_app_length'.
  - replace (16 * S j)%nat with (16 + 16 * j)%nat by lia. rewrite drop_app_ge by lia. replace (16 + 16 * j - length (dent d))%nat with (16 * j)%nat by lia. by apply IH.
Qed.

(** ** Looking up and reading *)

Section find.
Context `{mode : Mode} (k : nat) (c : Z → Log.block) (dr : Z → option (nat → Z → M fst (Z * list Z))).

Lemma wp_iget_fresh ic x dev inum i s (Q : nat → fst → Prop) : st [] k c none ic x s → iget_scan ic 0 dev inum None = inr (Some i) →
  (∀ s', st [] k c none (alter (fresh_inode dev inum) i ic) x s' → Q i s') → wp (iget dev inum) Q s.
Proof using.
  intros Hs Hi HQ. unfold iget. apply wp_bind. eapply wp_facquire; [done|]. intros s1 H1. apply wp_bind, wp_gets. rewrite (st_icache _ _ _ _ _ _ _ H1), Hi.
  apply wp_bind. eapply wp_fupd; [done|]. intros s2 H2. apply wp_bind. eapply wp_frelease; [done|]. intros s3 H3. by apply wp_ret, HQ.
Qed.

(** The entry with the name [e] is entry [j], which no entry before it has. *)
Lemma wp_dirlookup ic x d dp ds j inum b e i s (Q : option (nat * Z) → fst → Prop) :
  st [] k c none ic x s → ic !! d = Some dp → i_dev dp = ROOTDEV → i_type dp = T_DIR →
  let l := Z.of_nat (length (concat (dent <$> ds))) in
  laid_out c dp l → contents c dp 0 l = concat (dent <$> ds) → l = 16 * Z.of_nat (length ds) → l <= i_size dp <= MAXFILE * BSIZE →
  Forall (λ a, 0 < a.1 < 65536 ∧ letters a.2) ds → ds !! j = Some (inum, b) → take DIRSIZ b = take DIRSIZ e → letters e →
  (∀ j' a, (j' < j)%nat → ds !! j' = Some a → take DIRSIZ a.2 ≠ take DIRSIZ e) → iget_scan ic 0 ROOTDEV inum None = inr (Some i) →
  (∀ s' off, st [] k c none (alter (fresh_inode ROOTDEV inum) i ic) x s' → Q (Some (i, off)) s') → wp (dirlookup dr d (pad e)) Q s.
Proof using.
  intros Hs Hd Hdev Ht l Hlo Hct Hl Hsz Hds Hj Hbe He Hbefore Hsc HQ. pose proof (lookup_lt_Some _ _ _ Hj) as Hjl.
  unfold dirlookup. apply wp_bind. eapply wp_ino; [done|done|]. rewrite Ht, Z.eqb_refl. cbn [negb].
  apply (wp_step_for (λ off s, ∃ t, off = 16 * Z.of_nat t ∧ (t <= j)%nat ∧ st [] k c none ic x s)); [lia|unfold MAXFILE, BSIZE, w32 in *; lia|lia| | | |].
  - pose proof (Z.div_mod (i_size dp) 16). pose proof (Z.mod_pos_bound (i_size dp) 16). assert (0 <= i_size dp / 16) by (apply Z.div_pos; lia). lia.
  - exists O. split; [done|]. split; [lia|done].
  - intros off s1 _ (t & -> & Htj & H1). destruct (lookup_lt_is_Some_2 ds t) as [[m a] Ha]; [lia|].
    assert (Hta : (t < length ds)%nat) by lia.
    apply wp_bind. eapply (wp_readi_within k c ic x d dp l); [done|done|done|done|by rewrite Ht|lia|lia|lia|lia|]. intros s2 H2.
    rewrite (contents_part c dp l) by lia. rewrite Hct. change (Z.to_nat 16) with 16%nat. replace (Z.to_nat (16 * Z.of_nat t)) with (16 * t)%nat by lia.
    rewrite (nth_dent ds t (m, a)) by done. cbn [Z.eqb Pos.eqb negb]. rewrite Forall_forall in Hds.
    destruct (Hds (m, a)) as [Hm Hla]; [by eapply list_elem_of_lookup_2|]. cbn [Datatypes.fst Datatypes.snd] in Hm, Hla. unfold dent. cbn [Datatypes.fst Datatypes.snd].
    destruct (dirent_read m a) as [-> ->]; [lia|]. rewrite (proj2 (Z.eqb_neq m 0)) by lia.
    destruct (namecmp_pad e a He Hla) as (r & -> & Hr). apply wp_bind, wp_ret. destruct (Z.eqb_spec r 0) as [->|Hr0].
    + destruct (decide (t = j)) as [->|Hne]; [|exfalso; eapply (Hbefore t (m, a)); [lia|done|symmetry; by apply Hr]].
      rewrite Hj in Ha. injection Ha as <- <-. apply wp_bind. eapply wp_ino; [done|done|]. rewrite Hdev. apply wp_bind.
      eapply wp_iget_fresh; [done|done|]. intros s3 H3. by apply wp_ret, HQ.
    + apply wp_ret. destruct (decide (t = j)) as [->|Hne].
      { exfalso. apply Hr0, Hr. rewrite Hj in Ha. by injection Ha as <- <-. }
      exists (S t). split; [lia|]. split; [lia|done].
  - intros off s1 Hoff (t & -> & Htj & H1). lia.
Qed.

(** *** The cache, of which two entries are used *)
Definition spare : list inode := replicate 48 FsDemo.no_inode.
Lemma cache_spare : FsDemo.demo_icache = FsDemo.no_inode :: FsDemo.no_inode :: spare.
Proof using. reflexivity. Qed.
Lemma scan_second inum r : inum ≠ 1 → i_inum r = 1 → i_ref r = 1 → iget_scan (r :: FsDemo.no_inode :: spare) 0 ROOTDEV inum None = inr (Some 1%nat).
Proof using.
  intros Hne Hr Hf. cbn [iget_scan]. rewrite Hr, Hf, (proj2 (Z.eqb_neq 1 inum)) by done. rewrite andb_false_r. reflexivity.
Qed.

(** What ilock makes of a fresh entry. *)
Definition opened (inum : Z) : inode := locked_inode c sb (fresh_inode ROOTDEV inum FsDemo.no_inode).
Definition left_ (r : inode) : inode := set_ref (i_ref r - 1) (set_flags false (i_valid r) r).

(** Looking up "/e" in a directory that holds it. *)
Lemma wp_namei ds j inum b e s (Q : option nat → fst → Prop) :
  let dp := opened ROOTINO in let l := Z.of_nat (length (concat (dent <$> ds))) in
  st [] k c none FsDemo.demo_icache sb s → i_type dp = T_DIR → i_nlink dp ≠ 0 →
  laid_out c dp l → contents c dp 0 l = concat (dent <$> ds) → l = 16 * Z.of_nat (length ds) → l <= i_size dp <= MAXFILE * BSIZE →
  Forall (λ a, 0 < a.1 < 65536 ∧ letters a.2) ds → ds !! j = Some (inum, b) → take DIRSIZ b = take DIRSIZ e → letters e → e ≠ [] → 47 ∉ e → inum ≠ 1 →
  (∀ j' a, (j' < j)%nat → ds !! j' = Some a → take DIRSIZ a.2 ≠ take DIRSIZ e) →
  (∀ s', st [] k c none (left_ dp :: fresh_inode ROOTDEV inum FsDemo.no_inode :: spare) sb s' → Q (Some 1%nat) s') →
  wp (namei dr 0 ((47 :: e) ++ [0])) Q s.
Proof using.
  intros dp l Hs Ht Hnl Hlo Hct Hl Hsz Hds Hj Hbe He Hne Hsl Hin Hbefore HQ. rewrite cache_spare in Hs.
  unfold namei, namex. cbn [app Z.eqb Pos.eqb]. apply wp_bind, wp_bind. eapply wp_iget_fresh; [done|reflexivity|]. cbn [alter list_alter]. intros s1 H1.
  cbn [length namex_loop]. rewrite skipelem_one, copy_name_pad by done. apply wp_bind, wp_ret, wp_bind.
  eapply wp_ilock; [exact H1|reflexivity|done|done|done|done|left; change (i_type dp ≠ 0); by rewrite Ht|]. cbn [insert list_insert]. fold dp. intros s2 H2.
  apply wp_bind. eapply (wp_ino _ _ _ _ _ _ 0 dp); [exact H2|reflexivity|]. rewrite Ht, Z.eqb_refl. cbn [negb andb]. apply wp_bind.
  eapply (wp_dirlookup _ _ 0 dp ds j inum b e 1); [exact H2|reflexivity|done|done|done|done|done|done|done|done|done|done|done|by apply scan_second|].
  cbn [alter list_alter]. intros s3 off H3. unfold iunlockput. apply wp_bind, wp_bind. eapply (wp_iunlock k c none _ sb 0 dp); [exact H3|reflexivity|done|done|].
  cbn [insert list_insert]. intros s4 H4. eapply (wp_iput k c none _ sb 0 (set_flags false (i_valid dp) dp)); [exact H4|reflexivity|by right; right|].
  cbn [alter list_alter]. intros s5 H5. destruct (length (e ++ [0])) as [|u] eqn:El; [by rewrite length_app, Nat.add_1_r in El|].
  cbn [namex_loop]. change (skipelem [0] _) with (Some (None : option (list Z * list Z))). apply wp_bind, wp_ret, wp_ret, wp_ret. by apply HQ.
Qed.

Lemma wp_iinit ic x s (Q : unit → fst → Prop) : st [] k c none ic x s → (∀ s', st [] k c none ic (decode_sb (c 1)) s' → Q tt s') → wp (iinit ROOTDEV) Q s.
Proof using.
  intros Hs HQ. unfold iinit. apply wp_bind, wp_zoom, wp_zoom, wp_modify.
  match goal with |- wp _ _ ?s1 => assert (H1 : st [] k c none ic x s1) end.
  { destruct Hs as [H0 ? ? ? ? ? ?]. split; try done. cbn. by rewrite H0. }
  apply wp_bind. eapply wp_readsb; [exact H1|done|]. intros s2 H2. apply wp_modify, HQ. destruct H2. by split.
Qed.
End find.

(** The kernel with an image as its disk: nothing is cached, not even the
    superblock, and the log is empty. *)
Definition booted (c : Z → Log.block) : fst :=
  mkfst (Log.mklst (Kern.mkkern [] []) c c none none None [] 2 nlog 1 false 0 (replicate 30 0)) FsDemo.demo_icache (mksb 0 0 0 0 0 0 0).
Lemma booted_st c : st [] 0 c none FsDemo.demo_icache (mksb 0 0 0 0 0 0 0) (booted c).
Proof. split; try done. exists []. split; [by split|]. split; [done|]. by vm_compute. Qed.
(** It reads [cnt] bytes at [off] of the file at [path]. *)
Definition fetch (dr : Z → option (nat → Z → M fst (Z * list Z))) (path : list Z) (off cnt : Z) : M fst (Z * list Z) :=
  iinit ROOTDEV;;
  r ← namei dr 0 (path ++ [0]);
  match r with Some i => ilock i;; readi dr i off cnt | None => mret (-1, []) end.

Lemma letters_skip l : letters l → letters (skip_underscore l).
Proof. destruct l as [|x l]; [done|]. cbn. destruct (x =? 95); [by intros [_ H]%Forall_cons|done]. Qed.
Lemma short_take (a e : list Z) : (length a < DIRSIZ)%nat → take DIRSIZ a = take DIRSIZ e → e = a.
Proof.
  intros Ha E. rewrite (take_ge a) in E by lia. assert (length (take DIRSIZ e) = length a) as El by by rewrite <-E. rewrite length_take in El.
  by rewrite E, take_ge by lia.
Qed.

Section image.
Context `{mode : Mode} (files : list (list Z * list (list Z))) (c : Z → Log.block) (fb : Z) (HF : finished files c fb).
Context (Hn : Z.of_nat (length files) + 2 <= NINODES) (Hmax : len (dirent 1 [46] ++ dirent 1 [46; 46] ++ entries 2 files) < MAXFILE * BSIZE).
Context (Hlet : Forall (λ f, letters f.1) files).

Lemma dents_ok : Forall (λ a, 0 < a.1 < 65536 ∧ letters a.2) (dents files).
Proof using Hn Hlet.
  unfold NINODES in Hn. unfold dents. constructor; [split; [done|by repeat constructor]|]. constructor; [split; [done|by repeat constructor]|].
  apply Forall_lookup. intros i [m a]. rewrite list_lookup_imap. destruct (files !! i) as [f|] eqn:Ef; [|done]. intros [= <- <-].
  pose proof (lookup_lt_Some _ _ _ Ef). split; [cbn; lia|]. apply letters_skip. rewrite Forall_lookup in Hlet. by apply (Hlet i f).
Qed.
Lemma dents_file i : dents files !! S (S i) = (λ f, (Z.of_nat i + 2, skip_underscore f.1)) <$> files !! i.
Proof using. etransitivity; [|apply (list_lookup_imap (λ i f, (Z.of_nat i + 2, skip_underscore f.1)))]. done. Qed.

Lemma wp_fetch dr n f off cnt s (Q : Z * list Z → fst → Prop) : let e := skip_underscore f.1 in let bs := concat f.2 in
  files !! n = Some f → 47 ∉ e → e ∉ [[]; [46]; [46; 46]] →
  (∀ m g, (m < n)%nat → files !! m = Some g → take DIRSIZ (skip_underscore g.1) ≠ take DIRSIZ e) →
  0 <= off <= len bs → 0 <= cnt → off + cnt < w32 → s = booted c →
  (∀ s', let m := Z.min cnt (len bs - off) in Q (m, take (Z.to_nat m) (drop (Z.to_nat off) bs)) s') → wp (fetch dr (47 :: e) off cnt) Q s.
Proof using HF Hn Hmax Hlet.
  intros e bs Hf Hsl Hne Hfirst Ho Hc Hw -> HQ. unfold fetch. apply wp_bind. eapply wp_iinit; [apply booted_st|]. rewrite (r_sb _ _ _ HF). intros s1 H1.
  destruct (r_root _ _ _ HF) as (Ra & Rs & Rl & Rc & _). rewrite root_dents in Rs, Rl, Rc, Hmax. set (inum := Z.of_nat n + 2) in *.
  assert (Hlen : len (concat (dent <$> dents files)) = 16 * Z.of_nat (length (dents files))).
  { rewrite <-root_dents, !len_app, !len_dirent, len_entries. unfold dents. cbn [length]. rewrite length_imap. lia. }
  apply wp_bind. eapply (wp_namei 0 c dr (dents files) (S (S n)) inum e e).
  - exact H1.
  - change (i_type (node c ROOTINO) = T_DIR). unfold attrs in Ra. congruence.
  - assert (E : i_nlink (node c ROOTINO) = 1) by (unfold attrs in Ra; congruence). change (i_nlink (node c ROOTINO) ≠ 0). by rewrite E.
  - by apply (laid_out_inode c (node c ROOTINO)).
  - by rewrite (contents_addrs c (node c ROOTINO)).
  - exact Hlen.
  - change (i_size (opened c ROOTINO)) with (i_size (node c ROOTINO)). rewrite Rs. fold (len (concat (dent <$> dents files))).
    assert (0 <= len (concat (dent <$> dents files))) by (unfold len; lia). unfold MAXFILE, BSIZE in *.
    pose proof (Z.div_mod (len (concat (dent <$> dents files))) 512). pose proof (Z.mod_pos_bound (len (concat (dent <$> dents files))) 512). lia.
  - apply dents_ok.
  - by rewrite dents_file, Hf.
  - done.
  - apply letters_skip. rewrite Forall_lookup in Hlet. by apply (Hlet n f).
  - set_solver.
  - done.
  - lia.
  - intros [|[|j]] a Hlt Hj E.
    + injection Hj as <-. apply short_take in E; [|cbn; unfold DIRSIZ; lia]. set_solver.
    + injection Hj as <-. apply short_take in E; [|cbn; unfold DIRSIZ; lia]. set_solver.
    + rewrite dents_file in Hj. destruct (files !! j) as [g|] eqn:Eg; [|done]. injection Hj as <-. apply (Hfirst j g); [lia|done|done].
  - intros s2 H2. destruct (r_file _ _ _ HF n f Hf) as (Ha & Hz & Hl & Hct). fold inum bs in Ha, Hz, Hl, Hct.
    assert (Ht : i_type (node c inum) = T_FILE) by (unfold attrs in Ha; congruence).
    apply wp_bind. eapply (wp_ilock 0 c none _ sb 1); [exact H2|reflexivity|done|done|done|done| |].
    { left. change (i_type (node c inum) ≠ 0). by rewrite Ht. }
    cbn [insert list_insert]. fold (opened c inum). intros s3 H3.
    set (ip := opened c inum) in *. assert (Ead : i_addrs ip = i_addrs (node c inum)) by done. assert (Esz : i_size ip = len bs) by exact Hz.
    apply (FsData.wp_readi 0 c (left_ (opened c ROOTINO) :: ip :: spare) sb 1 ip (len bs)); [reflexivity|done|apply (laid_out_inode c (node c inum)); [done|by rewrite <-Hz]|exact H3| |done|done|done|done|].
    { change (i_type ip) with (i_type (node c inum)). by rewrite Ht. }
    intros s' _. cbv zeta. set (m := Z.min cnt (len bs - off)).
    rewrite (contents_addrs _ _ _ _ _ Ead), (contents_part c (node c inum) (len bs)) by lia. replace (contents c (node c inum) 0 (len bs)) with bs by (rewrite <-Hz; by rewrite Hct). apply HQ.
Qed.
End image.

(** ** Theorem *)

(** C39: the kernel finds and reads in an image of mkfs what went into it.
    Given files that fit, with names of bytes, mkfs returns; and the kernel,
    with its image as the disk and nothing cached, reads the superblock, finds
    under "/" and the name of a file (without its leading underscore) the first
    file whose name has the same first 14 characters, and reads its bytes in
    the range asked for, cut off at the end of the file. *)
Theorem kernel_reads_image files dr n f off cnt :
  let es := dirent 1 [46] ++ dirent 1 [46; 46] ++ entries 2 files in let e := skip_underscore f.1 in let bs := concat f.2 in
  Z.of_nat (length files) + 2 <= NINODES → Forall file_fits files → len es < MAXFILE * BSIZE → nmeta + cost es + costs files <= FSSIZE →
  Forall (λ g, letters g.1) files → files !! n = Some f → e ∉ [[]; [46]; [46; 46]] →
  (∀ m g, (m < n)%nat → files !! m = Some g → take DIRSIZ (skip_underscore g.1) ≠ take DIRSIZ e) →
  0 <= off <= len bs → 0 <= cnt → off + cnt < w32 →
  ∃ s s', main files start = Ok tt s ∧
    let m := Z.min cnt (len bs - off) in
    fetch dr (47 :: e) off cnt (booted (img s)) = Ok (m, take (Z.to_nat m) (drop (Z.to_nat off) bs)) s'.
Proof.
  intros es e bs Hn Hok Hmax Hroom Hlet Hf Hne Hfirst Ho Hc Hw. destruct (wp_total _ _ _ (wp_main files Hn Hok Hmax Hroom)) as ([] & s & E & HF). exists s.
  assert (Hsl : 47 ∉ e).
  { rewrite Forall_lookup in Hok. destruct (Hok n f Hf) as [H _]. unfold e, skip_underscore. destruct f.1 as [|x l]; [done|]. destruct (x =? 95); [by apply not_elem_of_cons in H as [_ ?]|done]. }
  destruct (wp_total (fetch dr (47 :: e) off cnt) (λ r _, r = (Z.min cnt (len bs - off), take (Z.to_nat (Z.min cnt (len bs - off))) (drop (Z.to_nat off) bs))) (booted (img s)))
    as (r & s' & E' & ->); [|exists s'; exact (conj E E')].
  apply (wp_fetch files (img s) _ HF Hn Hmax Hlet dr n f off cnt); auto.
Qed.

(** Reading /a, from position 1, from the image of two files. *)
Definition two_files : list (list Z * list (list Z)) := [([98], [[1; 2]]); ([95; 97], [[104; 105]; [33]])].
Lemma kernel_reads_image_witness : ∃ s s', main two_files start = Ok tt s ∧ fetch FsDemo.no_read [47; 97] 1 5 (booted (img s)) = Ok (2, [105; 33]) s'.
Proof.
  apply (kernel_reads_image two_files FsDemo.no_read 1 ([95; 97], [[104; 105]; [33]]) 1 5).
  - vm_compute. discriminate.
  - repeat constructor; try (vm_compute; discriminate); apply (bool_decide_unpack _); vm_compute; exact I.
  - vm_compute. reflexivity.
  - vm_compute. discriminate.
  - repeat constructor.
  - reflexivity.
  - apply (bool_decide_unpack _). vm_compute. exact I.
  - intros [|m] g Hm Hg; [injection Hg as <-; vm_compute; discriminate|lia].
  - vm_compute. split; discriminate.
  - lia.
  - reflexivity.
Defined.
End MkfsRead.
