(* ===== verification/Cga.v ===== *)
(** * The text screen (cgaputc of console.c)

    The screen memory is a list of 16-bit cells, the cursor the number in the
    two registers of the display controller. *)

From S2P Require Import Prelude.
Local Open Scope Z_scope.

Module Cga.

Definition BACKSPACE : Z := 256.

Record cga := mkcga { crt : list Z; cursor : Z }.

(** [crt[pos] = v] *)
Definition put_crt (pos v : Z) : M cga unit :=
  l ← gets crt;
  if decide (0 <= pos < Z.of_nat (length l)) then modify (λ s, mkcga (<[Z.to_nat pos := v]> (crt s)) (cursor s))
  else fault "crt".

(** [memmove(crt, crt+80, ...23*80)] and [memset(crt+pos, 0, ...24*80 - pos)] *)
Definition scroll (pos : Z) : M cga unit :=
  l ← gets crt;
  if decide (24 * 80 <= Z.of_nat (length l)) then
    let l := take 1840 (drop 80 l) ++ drop 1840 l in
    modify (λ s, mkcga (take (Z.to_nat pos) l ++ replicate (1920 - Z.to_nat pos) 0 ++ drop (Z.to_nat pos `max` 1920)%nat l) (cursor s))
  else fault "crt".

(** The cursor position goes to two eight-bit registers. *)
Definition set_cursor (pos : Z) : M cga unit :=
  modify (λ s, mkcga (crt s) (Z.lor (Z.shiftl (u8 (Z.shiftr pos 8)) 8) (u8 pos))).

Definition cgaputc (c : Z) : M cga unit :=
  pos ← gets cursor;
  pos ← (if c =? 10 then mret (pos + (80 - Z.rem pos 80))
         else if c =? BACKSPACE then mret (if 0 <? pos then pos - 1 else pos)
         else put_crt pos (Z.lor (Z.land c 255) 1792);; mret (pos + 1));
  if (pos <? 0) || (25 * 80 <? pos) then panic "pos under/overflow" else
  pos ← (if 24 <=? Z.quot pos 80 then scroll (pos - 80);; mret (pos - 80) else mret pos);
  set_cursor pos;;
  put_crt pos (Z.lor 32 1792).

(** ** The text on the screen *)

(** What is before the cursor. *)
Definition shown (s : cga) : list Z := take (Z.to_nat (cursor s)) (crt s).
Definition blank (v : Z) : Prop := v = 0 ∨ v = 1824.
(** The cursor is in the 24 lines that are used and nothing is after it. *)
Definition screen_ok (s : cga) : Prop :=
  (1920 <= length (crt s))%nat ∧ 0 <= cursor s < 1920 ∧
  ∀ i v, (Z.to_nat (cursor s) <= i < 1920)%nat → crt s !! i = Some v → blank v.

(** The text after a character: a newline fills the line, a backspace takes the
    last cell away. *)
Inductive typed (c : Z) (t : list Z) : list Z → Prop :=
| typed_newline (l : list Z) : c = 10 → Forall blank l → length l = (80 - length t mod 80)%nat → typed c t (t ++ l)
| typed_back : c = BACKSPACE → typed c t (removelast t)
| typed_char : c ≠ 10 → c ≠ BACKSPACE → typed c t (t ++ [Z.lor (Z.land c 255) 1792]).
(** The first line goes when the text reaches the end of the screen. *)
Definition fit (t : list Z) : list Z := if (length t <? 1920)%nat then t else drop 80 t.

Lemma cursor_written pos : 0 <= pos < 65536 → Z.lor (Z.shiftl (u8 (Z.shiftr pos 8)) 8) (u8 pos) = pos.
Proof.
  intros Hp. unfold u8. change 256 with (2 ^ 8). apply Z.bits_inj'. intros n Hn.
  rewrite Z.lor_spec, Z.shiftl_spec by done. destruct (Z.ltb_spec n 8).
  - rewrite (Z.testbit_neg_r _ (n - 8)) by lia. rewrite Z.mod_pow2_bits_low by lia. done.
  - rewrite (Z.mod_pow2_bits_high pos) by lia. rewrite orb_false_r. destruct (Z.ltb_spec (n - 8) 8).
    + rewrite Z.mod_pow2_bits_low, Z.shiftr_spec by lia. f_equal. lia.
    + rewrite Z.mod_pow2_bits_high by lia. symmetry. apply (Z.bits_above_log2); [lia|].
      destruct (decide (pos = 0)) as [->|]; [cbn; lia|]. apply Z.log2_lt_pow2; [lia|].
      eapply Z.lt_le_trans; [apply Hp|]. change 65536 with (2 ^ 16). apply Z.pow_le_mono_r; lia.
Qed.

(** The rest of [cgaputc] when the text is [t] and what follows is blank. *)
Definition finish (pos : Z) : M cga unit :=
  if (pos <? 0) || (25 * 80 <? pos) then panic "pos under/overflow" else
  pos ← (if 24 <=? Z.quot pos 80 then scroll (pos - 80);; mret (pos - 80) else mret pos);
  set_cursor pos;;
  put_crt pos (Z.lor 32 1792).

Section specs.
Context `{mode : Mode}.

Lemma wp_put_crt pos v s (Q : unit → cga → Prop) : 0 <= pos < Z.of_nat (length (crt s)) →
  Q tt (mkcga (<[Z.to_nat pos := v]> (crt s)) (cursor s)) → wp (put_crt pos v) Q s.
Proof. intros H HQ. unfold put_crt. wp_steps. rewrite decide_True by done. by wp_steps. Qed.

(** [l] has the text [t], then blanks but for the cell at the cursor. *)
Definition lays (l t : list Z) : Prop :=
  (1920 <= length l)%nat ∧ (length t <= 1920)%nat ∧ take (length t) l = t ∧ ∀ i v, (length t < i < 1920)%nat → l !! i = Some v → blank v.

(** The blank at the cursor is written again. *)
Lemma lays_cursor l t v : lays l t → blank v → (length t < 1920)%nat → screen_ok (mkcga (<[length t := v]> l) (Z.of_nat (length t))) ∧
  shown (mkcga (<[length t := v]> l) (Z.of_nat (length t))) = t.
Proof.
  intros (Hl & _ & Ht & Hb) Hv Hlt. unfold screen_ok, shown. cbn [crt cursor]. rewrite length_insert, Nat2Z.id. split.
  - split; [done|]. split; [lia|]. intros i x Hi Hx. destruct (decide (i = length t)) as [->|Hne].
    + rewrite list_lookup_insert_eq in Hx by lia. congruence.
    + rewrite list_lookup_insert_ne in Hx by done. apply (Hb i); [lia|done].
  - rewrite take_insert_ge by lia. done.
Qed.

Lemma cursor_blank : blank (Z.lor 32 1792).
Proof. by right. Qed.

Lemma wp_finish t s (Q : unit → cga → Prop) : lays (crt s) t →
  (∀ s', screen_ok s' → shown s' = fit t → Q tt s') → wp (finish (Z.of_nat (length t))) Q s.
Proof.
  intros Ht HQ. destruct (id Ht) as (Hl & Hlt & _ & _). unfold finish.
  rewrite (proj2 (Z.ltb_ge _ _)) by lia. rewrite (proj2 (Z.ltb_ge _ _)) by lia. cbn [orb].
  rewrite Z.quot_div_nonneg by lia. unfold fit in HQ. destruct (Z.leb_spec 24 (Z.of_nat (length t) / 80)) as [Hs|Hs].
  - assert (E : length t = 1920%nat) by (pose proof (Z.mul_div_le (Z.of_nat (length t)) 80); lia).
    rewrite E in *. unfold scroll. wp_steps. rewrite decide_True by lia. wp_steps. unfold set_cursor. wp_steps. cbn [crt].
    change (Z.of_nat 1920 - 80) with 1840. change (Z.to_nat 1840) with 1840%nat.
    set (l := take 1840 (take 1840 (drop 80 (crt s)) ++ drop 1840 (crt s)) ++ _).
    assert (El : l = drop 80 t ++ replicate 80 0 ++ drop 1920 (take 1840 (drop 80 (crt s)) ++ drop 1840 (crt s))).
    { unfold l. f_equal. rewrite take_app_le by (rewrite length_take, length_drop; lia). rewrite take_take.
      rewrite <-(proj1 (proj2 (proj2 Ht))) at 1. rewrite E, take_drop_commute. done. }
    assert (Hd : length (drop 80 t) = 1840%nat) by (rewrite length_drop; lia).
    assert (Hlay : lays l (drop 80 t)).
    { assert (H1 : (1920 <= length l)%nat) by (rewrite El, !length_app, Hd, length_replicate; lia).
      split; [done|]. split; [lia|]. rewrite El. split; [apply take_app_length|].
      intros i v Hi. rewrite lookup_app_r by lia. rewrite lookup_app_l by (rewrite length_replicate; lia).
      intros [-> _]%lookup_replicate. by left. }
    apply wp_put_crt; [cbn [crt]; destruct Hlay; lia|]. cbn [crt cursor]. rewrite cursor_written by lia.
    rewrite Nat.ltb_irrefl in HQ. change 1840 with (Z.of_nat 1840). rewrite Nat2Z.id, <-Hd.
    apply HQ; apply lays_cursor; solve [done|apply cursor_blank|rewrite Hd; lia].
  - assert (Hlt' : (length t < 1920)%nat) by (pose proof (Z.div_mod (Z.of_nat (length t)) 80); pose proof (Z.mod_pos_bound (Z.of_nat (length t)) 80); lia).
    unfold set_cursor. wp_steps. apply wp_put_crt; [cbn [crt]; lia|]. cbn [crt cursor]. rewrite cursor_written by lia.
    rewrite (proj2 (Nat.ltb_lt _ _) Hlt') in HQ. rewrite Nat2Z.id. apply HQ; apply lays_cursor; solve [done|apply cursor_blank].
Qed.

Lemma wp_cgaputc c s (Q : unit → cga → Prop) : screen_ok s →
  (∀ s' t, typed c (shown s) t → screen_ok s' → shown s' = fit t → Q tt s') → wp (cgaputc c) Q s.
Proof.
  intros (Hl & Hc & Hb) HQ. change (cgaputc c) with (pos ← gets cursor;
    pos ← (if c =? 10 then mret (pos + (80 - Z.rem pos 80))
           else if c =? BACKSPACE then mret (if 0 <? pos then pos - 1 else pos)
           else put_crt pos (Z.lor (Z.land c 255) 1792);; mret (pos + 1)); finish pos). wp_steps.
  assert (Hlen : length (shown s) = Z.to_nat (cursor s)) by (unfold shown; rewrite length_take; lia).
  assert (Htake : take (length (shown s)) (crt s) = shown s) by (by rewrite Hlen).
  destruct (Z.eqb_spec c 10) as [->|H10]; [|destruct (Z.eqb_spec c BACKSPACE) as [->|Hbs]].
  - wp_steps. rewrite Z.rem_mod_nonneg by lia. set (n := (80 - length (shown s) mod 80)%nat).
    set (l := take n (drop (Z.to_nat (cursor s)) (crt s))).
    assert (Hn : (length (shown s) + n <= 1920)%nat).
    { unfold n. rewrite Hlen. pose proof (Nat.div_mod_eq (Z.to_nat (cursor s)) 80). pose proof (Nat.mod_upper_bound (Z.to_nat (cursor s)) 80). lia. }
    assert (Hln : length l = n) by (unfold l; rewrite length_take, length_drop; lia).
    assert (Hm : (length (shown s) mod 80 < 80)%nat) by (by apply Nat.mod_upper_bound).
    replace (cursor s + _) with (Z.of_nat (length (shown s ++ l))).
    2: { rewrite length_app, Hln. unfold n. rewrite Hlen in Hm |- *. pose proof (Nat2Z.inj_mod (Z.to_nat (cursor s)) 80) as Em.
         rewrite Z2Nat.id in Em by lia. change (Z.of_nat 80) with 80 in Em. lia. }
    apply wp_finish.
    + split; [done|]. rewrite length_app, Hln. split; [done|]. split.
      * unfold l. rewrite <-Hlen. rewrite <-Htake at 2. rewrite take_take_drop. done.
      * intros i v Hi. apply Hb. lia.
    + intros s' Hs Hsh. eapply HQ; [|done|exact Hsh]. constructor; [done| |done].
      apply Forall_lookup. intros i v Hv. unfold l in Hv. apply lookup_take_Some in Hv as [Hv Hi]. rewrite lookup_drop in Hv.
      apply (Hb (Z.to_nat (cursor s) + i)%nat); [lia|done].
  - wp_steps. replace (if 0 <? cursor s then cursor s - 1 else cursor s) with (Z.of_nat (length (removelast (shown s)))).
    2: { rewrite removelast_firstn_len, length_take, Hlen. destruct (Z.ltb_spec 0 (cursor s)); lia. }
    apply wp_finish; [|intros s' Hs Hsh; eapply HQ; [by constructor|done|done]].
    assert (Hr : length (removelast (shown s)) = pred (length (shown s))) by (rewrite removelast_firstn_len, length_take; lia).
    split; [done|]. rewrite Hr. split; [lia|]. split.
    + rewrite removelast_firstn_len. rewrite <-Htake at 3. rewrite take_take. f_equal. lia.
    + intros i v Hi. apply Hb. lia.
  - wp_steps. apply wp_put_crt; [lia|]. wp_steps. set (v := Z.lor (Z.land c 255) 1792).
    replace (cursor s + 1) with (Z.of_nat (length (shown s ++ [v]))) by (rewrite length_app, Hlen; cbn [length]; lia).
    apply wp_finish; [|intros s' Hs Hsh; eapply HQ; [by constructor|done|done]].
    split; cbn [crt]; [by rewrite length_insert|]. rewrite length_app. cbn [length]. split; [lia|]. split.
    + rewrite Nat.add_1_r. rewrite <-Hlen. rewrite (take_S_r _ _ v) by (apply list_lookup_insert_eq; lia). by rewrite take_insert_ge, Htake by lia.
    + intros i x Hi Hx. rewrite list_lookup_insert_ne in Hx by lia. apply (Hb i); [lia|done].
Qed.
End specs.

(** The screen shows what is printed.  With the cursor in the first 24
    lines and nothing after it, cgaputc returns (its panic is unreachable), the
    cursor stays there and nothing is after it; the text before the cursor is
    the text before, extended by the character's cell, by blanks up to the end
    of the line for a newline, or shortened by one cell for a backspace, and
    without its first line once it has reached the end of line 24. *)
Theorem cgaputc_shows c s : screen_ok s →
  ∃ s' t, cgaputc c s = Ok tt s' ∧ screen_ok s' ∧ typed c (shown s) t ∧ shown s' = fit t.
Proof.
  intros H. destruct (wp_total (cgaputc c) (λ _ s', ∃ t, screen_ok s' ∧ typed c (shown s) t ∧ shown s' = fit t) s) as ([] & s' & E & t & Ht).
  - apply wp_cgaputc; eauto.
  - eauto.
Qed.
Lemma cgaputc_shows_witness : ∃ s' t, cgaputc 10 (mkcga (replicate 2000 0) 1919) = Ok tt s' ∧ screen_ok s' ∧
  typed 10 (shown (mkcga (replicate 2000 0) 1919)) t ∧ shown s' = fit t.
Proof.
  apply cgaputc_shows. split; [cbn; lia|]. split; [cbn; lia|]. intros i v _ [-> _]%lookup_replicate. by left.
Defined.

(** Wherever the boot loader left the cursor on its 25 lines, the first
    character brings it to where the next ones keep it. *)
Theorem cgaputc_starts c s : (2000 <= length (crt s))%nat → 0 <= cursor s < 2000 →
  ∃ s', cgaputc c s = Ok tt s' ∧ length (crt s') = length (crt s) ∧ 0 <= cursor s' <= 1920.
Proof.
  intros Hl Hc. destruct (wp_total (cgaputc c) (λ _ s', length (crt s') = length (crt s) ∧ 0 <= cursor s' <= 1920) s) as ([] & s' & E & H); [|eauto].
  assert (Hfin : ∀ s1 pos, length (crt s1) = length (crt s) → 0 <= pos <= 2000 →
    wp (H := Total) (finish pos) (λ _ s', length (crt s') = length (crt s) ∧ 0 <= cursor s' <= 1920) s1).
  { intros s1 pos H1 Hp. unfold finish. rewrite (proj2 (Z.ltb_ge _ _)), (proj2 (Z.ltb_ge _ _)) by lia. cbn [orb].
    rewrite Z.quot_div_nonneg by lia. pose proof (Z.div_mod pos 80). pose proof (Z.mod_pos_bound pos 80).
    destruct (Z.leb_spec 24 (pos / 80)); wp_steps; unfold scroll, set_cursor; wp_steps; [rewrite decide_True by lia; wp_steps|];
      (apply wp_put_crt; cbn [crt cursor]; [rewrite ?length_app, ?length_take, ?length_app, ?length_replicate, ?length_drop, ?length_app, ?length_take, ?length_drop; lia|]);
      rewrite length_insert, cursor_written by lia; rewrite ?length_app, ?length_take, ?length_app, ?length_replicate, ?length_drop, ?length_app, ?length_take, ?length_drop; lia. }
  change (cgaputc c) with (pos ← gets cursor;
    pos ← (if c =? 10 then mret (pos + (80 - Z.rem pos 80))
           else if c =? BACKSPACE then mret (if 0 <? pos then pos - 1 else pos)
           else put_crt pos (Z.lor (Z.land c 255) 1792);; mret (pos + 1)); finish pos). wp_steps.
  rewrite Z.rem_mod_nonneg by lia. pose proof (Z.div_mod (cursor s) 80). pose proof (Z.mod_pos_bound (cursor s) 80).
  destruct (c =? 10); [|destruct (c =? BACKSPACE)]; wp_steps.
  - apply Hfin; [done|lia].
  - apply Hfin; [done|]. destruct (Z.ltb_spec 0 (cursor s)); lia.
  - apply wp_put_crt; [lia|]. wp_steps. apply Hfin; [cbn [crt]; by rewrite length_insert|lia].
Qed.
End Cga.
