(* ===== verification/Console.v ===== *)
(** * The console (console.c)

    Key strokes arrive in the interrupt handler, which edits the current line in
    a ring of INPUT_BUF characters and commits it; readers take committed
    characters.  A read that has to wait runs in segments, from taking the lock
    to returning ([Done]) or to going to sleep ([Asleep], with the count that is
    left and the characters stored so far).

    The keyboard driver hands over a function; what its calls return before the
    first negative number is the list of keys.  The inode's lock, which a reader
    gives up while it waits, is one bit of the state. *)

From S2P Require Import Prelude Kern Cga.
Local Open Scope Z_scope.

Module Console.

Definition INPUT_BUF : Z := 128.
Record input := mkinput { buf : list Z; ri : Z; wi : Z; ei : Z }.
Record cst := mkcst {
  kn : Kern.kern; inp : input; screen : Cga.cga; uart : list Z; panicked : bool; ilocked : bool
}.
Definition put_kn (k : Kern.kern) (s : cst) : cst := mkcst k (inp s) (screen s) (uart s) (panicked s) (ilocked s).
Definition put_inp (x : input) (s : cst) : cst := mkcst (kn s) x (screen s) (uart s) (panicked s) (ilocked s).
Definition put_screen (x : Cga.cga) (s : cst) : cst := mkcst (kn s) (inp s) x (uart s) (panicked s) (ilocked s).
Definition put_ilocked (b : bool) (s : cst) : cst := mkcst (kn s) (inp s) (screen s) (uart s) (panicked s) b.

Definition acquire : M cst unit := zoom kn put_kn (Kern.acquire Kern.LCons).
Definition release : M cst unit := zoom kn put_kn (Kern.release Kern.LCons).
Definition wakeup : M cst unit := zoom kn put_kn (Kern.wakeup Kern.CInput).

(** The lock bit of the console's inode. *)
Definition iunlock : M cst unit :=
  b ← gets ilocked; if (b : bool) then modify (put_ilocked false) else panic "iunlock".
Definition ilock : M cst unit :=
  b ← gets ilocked; if (b : bool) then hang else modify (put_ilocked true).

(** ** Output *)

(** A character for the serial line. *)
Definition uartputc (c : Z) : M cst unit :=
  modify (λ s, mkcst (kn s) (inp s) (screen s) (uart s ++ [u8 c]) (panicked s) (ilocked s)).

Definition consputc (c : Z) : M cst unit :=
  p ← gets panicked;
  if (p : bool) then hang else
  (if c =? Cga.BACKSPACE then uartputc 8;; uartputc 32;; uartputc 8 else uartputc c);;
  zoom screen put_screen (Cga.cgaputc c).

Fixpoint put_all (l : list Z) : M cst unit :=
  match l with [] => mret tt | c :: l => consputc (Z.land c 255);; put_all l end.
Definition consolewrite (l : list Z) : M cst Z :=
  iunlock;;
  acquire;;
  put_all l;;
  release;;
  ilock;;
  mret (Z.of_nat (length l)).

(** ** Input *)

(** [C(x)] *)
Definition Ctrl (x : Z) : Z := x - 64.

(** [input.buf[i % INPUT_BUF]] *)
Definition at_ring (i : Z) : M cst Z :=
  x ← gets inp;
  match buf x !! Z.to_nat (i mod INPUT_BUF) with Some c => mret c | None => fault "input.buf" end.
Definition set_e (e : Z) : M cst unit := modify (λ s, put_inp (mkinput (buf (inp s)) (ri (inp s)) (wi (inp s)) e) s).
Definition set_w (w : Z) : M cst unit := modify (λ s, put_inp (mkinput (buf (inp s)) (ri (inp s)) w (ei (inp s))) s).
Definition set_r (r : Z) : M cst unit := modify (λ s, put_inp (mkinput (buf (inp s)) r (wi (inp s)) (ei (inp s))) s).
Definition put_ring (c : Z) : M cst unit :=
  modify (λ s, let x := inp s in put_inp (mkinput (<[Z.to_nat (ei x mod INPUT_BUF) := c]> (buf x)) (ri x) (wi x) (u32 (ei x + 1))) s).

(** The loop of control-U. *)
Fixpoint kill_line (fuel : nat) : M cst unit :=
  x ← gets inp;
  if ei x =? wi x then mret tt else
  c ← at_ring (u32 (ei x - 1));
  if c =? 10 then mret tt else
  match fuel with
  | O => hang
  | S fuel => set_e (u32 (ei x - 1));; consputc Cga.BACKSPACE;; kill_line fuel
  end.

(** What the handler does after its loop. *)
Inductive dump := DReady | DFree | DSleep | DZombie.
Record wants := mkwants { doprocdump : bool; listtoprint : option dump }.

Definition on_key (c : Z) (k : wants) : M cst wants :=
  if c =? Ctrl 80 then mret (mkwants true (listtoprint k))
  else if c =? Ctrl 82 then mret (mkwants (doprocdump k) (Some DReady))
  else if c =? Ctrl 70 then mret (mkwants (doprocdump k) (Some DFree))
  else if c =? Ctrl 83 then mret (mkwants (doprocdump k) (Some DSleep))
  else if c =? Ctrl 90 then mret (mkwants (doprocdump k) (Some DZombie))
  else if c =? Ctrl 85 then kill_line (Z.to_nat INPUT_BUF);; mret k
  else if (c =? Ctrl 72) || (c =? 127) then
    x ← gets inp;
    (if ei x =? wi x then mret tt else set_e (u32 (ei x - 1));; consputc Cga.BACKSPACE);; mret k
  else
    x ← gets inp;
    if negb (c =? 0) && (u32 (ei x - ri x) <? INPUT_BUF) then
      let c := if c =? 13 then 10 else c in
      put_ring c;;
      consputc c;;
      x ← gets inp;
      (if (c =? 10) || (c =? Ctrl 68) || (ei x =? u32 (ri x + INPUT_BUF)) then set_w (ei x);; wakeup else mret tt);;
      mret k
    else mret k.
Fixpoint on_keys (keys : list Z) (k : wants) : M cst wants :=
  match keys with [] => mret k | c :: keys => k ← on_key c k; on_keys keys k end.

(** The listings it then prints are those of the result. *)
Definition consoleintr (keys : list Z) : M cst wants :=
  acquire;;
  k ← on_keys keys (mkwants false None);
  release;;
  mret k.

Inductive outcome := Done (ret : Z) (dst : list Z) | Asleep (n : nat) (dst : list Z).

(** The loop of consoleread, entered with the lock: [n] characters of [target]
    are left and [dst] holds those stored. *)
Definition read_end (target : Z) (n : nat) (dst : list Z) : M cst outcome :=
  release;; ilock;; mret (Done (target - Z.of_nat n) dst).
Fixpoint read_loop (killed : bool) (target : Z) (n : nat) (dst : list Z) : M cst outcome :=
  match n with
  | O => read_end target 0 dst
  | S n' =>
      x ← gets inp;
      if ri x =? wi x then
        if killed then release;; ilock;; mret (Done (-1) dst)
        else release;; mret (Asleep n dst)
      else
      c ← at_ring (ri x);
      set_r (u32 (ri x + 1));;
      if c =? Ctrl 68 then
        (if Z.of_nat n <? target then set_r (u32 (u32 (ri x + 1) - 1)) else mret tt);;
        read_end target n dst
      else if c =? 10 then read_end target n' (dst ++ [c])
      else read_loop killed target n' (dst ++ [c])
  end.
(** A count that is not positive gives [target - n = 0]. *)
Definition consoleread (killed : bool) (n : Z) : M cst outcome :=
  iunlock;;
  acquire;;
  read_loop killed (n `max` 0) (Z.to_nat n) [].
(** A reader that was woken takes the lock back and goes on. *)
Definition consoleread_woken (killed : bool) (target : Z) (n : nat) (dst : list Z) : M cst outcome :=
  acquire;;
  read_loop killed target n dst.

(** ** The editor as two lists

    The characters that have been committed and not read, and the line being
    edited. *)

Record lines := mklines { committed : list Z; edit : list Z }.

Definition total (q : lines) : Z := Z.of_nat (length (committed q) + length (edit q)).
Definition commit (q : lines) : lines := mklines (committed q ++ edit q) [].
Definition insert_char (c : Z) (q : lines) : lines := mklines (committed q) (edit q ++ [c]).
(** Whether a character ends the line. *)
Definition ends_line (c : Z) (q : lines) : bool := (c =? 10) || (c =? 4) || (total q =? INPUT_BUF).

Definition stored_char (c : Z) : Z := if c =? 13 then 10 else c.
(** Whether a key is a character to store. *)
Definition is_text (c : Z) : bool := negb (bool_decide (c ∈ [16; 18; 6; 19; 26; 21; 8; 127; 0])).
(** The effect of a key on the lines. *)
Definition press (q : lines) (c : Z) : lines :=
  if c =? 21 then mklines (committed q) []
  else if (c =? 8) || (c =? 127) then mklines (committed q) (removelast (edit q))
  else if is_text c && (total q <? INPUT_BUF) then
    let q' := insert_char (stored_char c) q in
    if ends_line (stored_char c) q' then commit q' else q'
  else q.
(** Whether a key wakes the readers. *)
Definition wakes (q : lines) (c : Z) : bool :=
  is_text c && (total q <? INPUT_BUF) && ends_line (stored_char c) (insert_char (stored_char c) q).
Fixpoint wake_count (q : lines) (keys : list Z) : nat :=
  match keys with [] => 0 | c :: keys => (if wakes q c then 1 else 0) + wake_count (press q c) keys end.

(** What a key prints. *)
Definition echo (q : lines) (c : Z) : list Z :=
  if c =? 21 then replicate (length (edit q)) Cga.BACKSPACE
  else if (c =? 8) || (c =? 127) then (if bool_decide (edit q = []) then [] else [Cga.BACKSPACE])
  else if is_text c && (total q <? INPUT_BUF) then [stored_char c] else [].
Fixpoint echoes (q : lines) (keys : list Z) : list Z :=
  match keys with [] => [] | c :: keys => echo q c ++ echoes (press q c) keys end.

(** The ring holds the two lists one after the other. *)
Record holds (x : input) (q : lines) : Prop := {
  rg_len : length (buf x) = Z.to_nat INPUT_BUF;
  rg_r : 0 <= ri x < w32;
  rg_w : wi x = u32 (ri x + Z.of_nat (length (committed q)));
  rg_e : ei x = u32 (ri x + total q);
  rg_total : total q <= INPUT_BUF;
  rg_data : ∀ k c, (committed q ++ edit q) !! k = Some c → buf x !! Z.to_nat ((ri x + Z.of_nat k) mod INPUT_BUF) = Some c
}.
(** Between two keys no newline is in the edited line, and a full ring is
    committed. *)
Definition ring (x : input) (q : lines) : Prop := holds x q ∧ (total q = INPUT_BUF → edit q = []) ∧ 10 ∉ edit q.

(** ** Arithmetic of the ring *)

Lemma u32_mod_ring z : (u32 z) mod INPUT_BUF = z mod INPUT_BUF.
Proof.
  unfold u32, w32, INPUT_BUF. rewrite (Z.div_mod z 4294967296) at 2 by done.
  replace (4294967296 * (z / 4294967296) + z mod 4294967296)
    with (z mod 4294967296 + (z / 4294967296 * 33554432) * 128) by lia. by rewrite Z_mod_plus_full.
Qed.
Lemma slot_lt z : (Z.to_nat (z mod INPUT_BUF) < Z.to_nat INPUT_BUF)%nat.
Proof. unfold INPUT_BUF. pose proof (Z.mod_pos_bound z 128). lia. Qed.
Lemma slot_inj a i j : 0 <= i < INPUT_BUF → 0 <= j < INPUT_BUF →
  Z.to_nat ((a + i) mod INPUT_BUF) = Z.to_nat ((a + j) mod INPUT_BUF) → i = j.
Proof.
  unfold INPUT_BUF. intros Hi Hj E. pose proof (Z.mod_pos_bound (a + i) 128). pose proof (Z.mod_pos_bound (a + j) 128).
  assert (E' : (a + i) mod 128 = (a + j) mod 128) by lia.
  pose proof (Z.div_mod (a + i) 128). pose proof (Z.div_mod (a + j) 128). lia.
Qed.
Lemma u32_cancel r a b : 0 <= a <= INPUT_BUF → 0 <= b <= INPUT_BUF → u32 (r + a) = u32 (r + b) → a = b.
Proof.
  unfold u32, w32, INPUT_BUF. intros Ha Hb E. pose proof (Z.div_mod (r + a) 4294967296).
  pose proof (Z.div_mod (r + b) 4294967296). lia.
Qed.
Lemma u32_eqb r a b : 0 <= a <= INPUT_BUF → 0 <= b <= INPUT_BUF → (u32 (r + a) =? u32 (r + b)) = (a =? b).
Proof.
  intros Ha Hb. destruct (Z.eqb_spec a b) as [->|Hne]; [apply Z.eqb_refl|]. apply Z.eqb_neq. intros E. apply Hne. by eapply u32_cancel.
Qed.
Lemma u32_add_l a b : u32 (u32 a + b) = u32 (a + b).
Proof. unfold u32. apply Zplus_mod_idemp_l. Qed.
Lemma u32_sub_l a b : u32 (u32 a - b) = u32 (a - b).
Proof. unfold u32. apply Zminus_mod_idemp_l. Qed.

Section ring.
Context (x : input) (q : lines) (Hx : holds x q).

Lemma ring_bounds : 0 <= Z.of_nat (length (committed q)) <= total q ∧ total q <= INPUT_BUF.
Proof. pose proof (rg_total _ _ Hx). unfold total in *. lia. Qed.
Lemma ring_no_edit : (ei x =? wi x) = bool_decide (edit q = []).
Proof.
  pose proof ring_bounds. rewrite (rg_e _ _ Hx), (rg_w _ _ Hx), u32_eqb by lia. unfold total in *.
  case_bool_decide as E; [rewrite E; cbn; apply Z.eqb_eq; lia|]. apply Z.eqb_neq. destruct (edit q); [done|cbn; lia].
Qed.
Lemma ring_no_committed : (ri x =? wi x) = bool_decide (committed q = []).
Proof.
  pose proof ring_bounds. rewrite (rg_w _ _ Hx). rewrite <-(u32_small (ri x)) at 1 by apply Hx.
  rewrite <-(Z.add_0_r (ri x)) at 1. rewrite u32_eqb by (unfold INPUT_BUF in *; lia).
  case_bool_decide as E; [by rewrite E|]. apply Z.eqb_neq. destruct (committed q); [done|cbn; lia].
Qed.
Lemma ring_space : (u32 (ei x - ri x) <? INPUT_BUF) = (total q <? INPUT_BUF).
Proof.
  pose proof ring_bounds. rewrite (rg_e _ _ Hx), u32_sub_l. replace (ri x + total q - ri x) with (total q) by lia.
  rewrite u32_small by (unfold INPUT_BUF, w32 in *; lia). done.
Qed.
Lemma ring_end : (ei x =? u32 (ri x + INPUT_BUF)) = (total q =? INPUT_BUF).
Proof. pose proof ring_bounds. rewrite (rg_e _ _ Hx). apply u32_eqb; unfold INPUT_BUF in *; lia. Qed.

(** Storing a character. *)
Lemma holds_put c : total q < INPUT_BUF →
  holds (mkinput (<[Z.to_nat (ei x mod INPUT_BUF) := c]> (buf x)) (ri x) (wi x) (u32 (ei x + 1))) (insert_char c q).
Proof.
  intros Hlt. pose proof ring_bounds. destruct Hx as [Hl Hr Hw He Ht Hd].
  assert (Et : total (insert_char c q) = total q + 1) by (unfold total, insert_char; cbn; rewrite length_app; cbn; lia).
  constructor; cbn [buf ri wi ei]; [by rewrite length_insert|done|done| |lia|].
  { rewrite Et, He, u32_add_l. f_equal. lia. }
  intros k c' Hk. rewrite He, u32_mod_ring. cbn [insert_char committed edit] in Hk. rewrite app_assoc in Hk.
  apply lookup_app_Some in Hk as [Hk|[Hge Hk]].
  - pose proof (lookup_lt_Some _ _ _ Hk) as Hlk. rewrite length_app in Hlk. rewrite list_lookup_insert_ne; [by apply Hd|].
    intros E. apply slot_inj in E; unfold total in *; lia.
  - rewrite length_app in Hge, Hk. destruct (k - _)%nat as [|?] eqn:Ek; [|done]. injection Hk as <-.
    replace (ri x + Z.of_nat k) with (ri x + total q) by (unfold total; lia). apply list_lookup_insert_eq. rewrite Hl. apply slot_lt.
Qed.
Lemma holds_commit : holds (mkinput (buf x) (ri x) (ei x) (ei x)) (commit q).
Proof.
  destruct Hx as [Hl Hr Hw He Ht Hd]. constructor; cbn [buf ri wi ei]; try done; unfold commit, total in *; cbn [committed edit].
  - by rewrite length_app.
  - rewrite length_app. cbn [length]. by rewrite Nat.add_0_r.
  - rewrite length_app. cbn [length]. lia.
  - by rewrite app_nil_r.
Qed.
(** Taking the last character of the line back. *)
Lemma holds_erase l c : edit q = l ++ [c] →
  buf x !! Z.to_nat (u32 (ei x - 1) mod INPUT_BUF) = Some c ∧
  holds (mkinput (buf x) (ri x) (wi x) (u32 (ei x - 1))) (mklines (committed q) l).
Proof.
  intros E. pose proof ring_bounds. destruct Hx as [Hl Hr Hw He Ht Hd].
  assert (Et : total q = total (mklines (committed q) l) + 1) by (unfold total; cbn; rewrite E, length_app; cbn; lia).
  assert (Ee : u32 (ei x - 1) = u32 (ri x + total (mklines (committed q) l))) by (rewrite He, u32_sub_l; f_equal; lia).
  split.
  - rewrite Ee, u32_mod_ring. unfold total; cbn [committed edit]. apply Hd. rewrite E, app_assoc, lookup_app_r; rewrite length_app; [|lia].
    by rewrite Nat.sub_diag.
  - constructor; cbn [buf ri wi ei committed edit]; try done; [lia|]. intros k c' Hk. apply Hd. rewrite E, app_assoc. by apply lookup_app_l_Some.
Qed.
(** Reading a character. *)
Lemma holds_pop l c : committed q = c :: l →
  buf x !! Z.to_nat (ri x mod INPUT_BUF) = Some c ∧
  holds (mkinput (buf x) (u32 (ri x + 1)) (wi x) (ei x)) (mklines l (edit q)).
Proof.
  intros E. pose proof ring_bounds. destruct Hx as [Hl Hr Hw He Ht Hd]. split.
  - specialize (Hd 0%nat c). rewrite E in Hd. specialize (Hd eq_refl). by rewrite Z.add_0_r in Hd.
  - unfold total in *. rewrite E in *. cbn [length] in *.
    constructor; cbn [buf ri wi ei committed edit]; unfold total; cbn [committed edit]; [done|apply u32_range| | |lia|].
    + rewrite Hw, u32_add_l. f_equal. lia.
    + rewrite He, u32_add_l. f_equal. lia.
    + intros k c' Hk. rewrite <-u32_mod_ring, u32_add_l, u32_mod_ring. replace (ri x + 1 + Z.of_nat k) with (ri x + Z.of_nat (S k)) by lia.
      apply Hd. exact Hk.
Qed.
End ring.

(** ** The handler *)

(** The console can print. *)
Definition sane (s : cst) : Prop := Cga.screen_ok (screen s) ∧ panicked s = false.
(** What goes to the serial line for a character. *)
Definition sent (c : Z) : list Z := if c =? Cga.BACKSPACE then [8; 32; 8] else [u8 c].
Definition sent_all (l : list Z) : list Z := concat (sent <$> l).
(** Only the devices change: the characters [l] are printed. *)
Record printed (l : list Z) (s s' : cst) : Prop := {
  pr_sane : sane s'; pr_kn : kn s' = kn s; pr_inp : inp s' = inp s; pr_ilocked : ilocked s' = ilocked s;
  pr_uart : uart s' = uart s ++ sent_all l
}.

Lemma sent_all_app l1 l2 : sent_all (l1 ++ l2) = sent_all l1 ++ sent_all l2.
Proof. unfold sent_all. by rewrite fmap_app, concat_app. Qed.
Lemma printed_nil s : sane s → printed [] s s.
Proof. intros H. by constructor; rewrite ?app_nil_r. Qed.
Lemma printed_trans l1 l2 s s1 s2 : printed l1 s s1 → printed l2 s1 s2 → printed (l1 ++ l2) s s2.
Proof.
  intros [A1 A2 A3 A4 A5] [B1 B2 B3 B4 B5]. constructor; try congruence. by rewrite B5, A5, sent_all_app, app_assoc.
Qed.

Section specs.
Context `{mode : Mode}.

Lemma wp_consputc c s (Q : unit → cst → Prop) : sane s → (∀ s', printed [c] s s' → Q tt s') → wp (consputc c) Q s.
Proof.
  intros [Hs Hp] HQ. unfold consputc. wp_steps. rewrite Hp.
  assert (Hend : ∀ u, u = uart s ++ sent c → wp (zoom screen put_screen (Cga.cgaputc c)) Q (mkcst (kn s) (inp s) (screen s) u (panicked s) (ilocked s))).
  { intros u ->. apply wp_zoom. cbn [screen]. apply Cga.wp_cgaputc; [done|]. intros s' t _ Hok _. apply HQ. constructor; try done.
    unfold sent_all. cbn. by rewrite app_nil_r. }
  unfold sent in Hend. destruct (c =? Cga.BACKSPACE); unfold uartputc; wp_steps; cbn; apply Hend; [|done].
  by rewrite <-!app_assoc.
Qed.

(** The state of the editor: the lines [q], the console's lock held. *)
Definition editing (q : lines) (s : cst) : Prop := ring (inp s) q ∧ sane s ∧ Kern.lks (kn s) = [Kern.LCons].
(** From [s] to [s']: [l] printed, [n] wake-ups. *)
Definition handled (l : list Z) (n : nat) (s s' : cst) : Prop :=
  uart s' = uart s ++ sent_all l ∧ Kern.woken (kn s') = Kern.woken (kn s) ++ replicate n Kern.CInput ∧ ilocked s' = ilocked s.

Lemma wp_at_ring i c s (Q : Z → cst → Prop) : buf (inp s) !! Z.to_nat (i mod INPUT_BUF) = Some c → Q c s → wp (at_ring i) Q s.
Proof. intros E HQ. unfold at_ring. wp_steps. rewrite E. by wp_steps. Qed.

Lemma wp_kill_line q fuel s (Q : unit → cst → Prop) : editing q s → (length (edit q) <= fuel)%nat →
  (∀ s', editing (mklines (committed q) []) s' → handled (replicate (length (edit q)) Cga.BACKSPACE) 0 s s' → Q tt s') →
  wp (kill_line fuel) Q s.
Proof.
  revert q s Q. induction fuel as [|fuel IH]; intros [C E] s Q (Hr & Hs & Hk) Hf HQ; cbn [edit committed] in *;
    destruct E as [|c E _] using rev_ind;
    try (rewrite length_app in Hf; cbn [length] in Hf; lia).
  1,2: cbn [kill_line]; wp_steps; rewrite (ring_no_edit _ _ (proj1 Hr)), bool_decide_true by done; wp_steps;
    apply HQ; [done|]; unfold handled; by rewrite !app_nil_r.
  cbn [kill_line]. wp_steps. destruct Hr as (Hh & Hfull & Hnl). cbn [edit] in *.
  rewrite (ring_no_edit _ _ Hh), bool_decide_false by (intros H0; by apply app_nil in H0 as []).
  destruct (holds_erase _ _ Hh E c eq_refl) as [Hc Hh']. apply wp_bind, (wp_at_ring _ c); [done|].
  rewrite (proj2 (Z.eqb_neq c 10)) by (intros ->; set_solver). unfold set_e. wp_steps.
  apply wp_bind, wp_consputc; [done|]. intros s1 [P1 P2 P3 P4 P5]. cbn in P2, P3, P4, P5.
  rewrite length_app in Hf, HQ. cbn [length] in Hf, HQ.
  apply (IH (mklines C E)); cbn [edit committed]; [|lia|].
  - split; [|split; [done|by rewrite P2]]. rewrite P3. split; [exact Hh'|]. split; [|set_solver].
    pose proof (rg_total _ _ Hh) as Ht. unfold total in *. cbn [edit committed] in *. rewrite length_app in Ht. cbn [length] in Ht. intros; lia.
  - intros s' He (H1 & H2 & H3). apply HQ; [done|]. split; [|split; congruence].
    rewrite H1, P5, <-app_assoc. f_equal. rewrite Nat.add_1_r. reflexivity.
Qed.

(** One key. *)
Lemma wp_on_key q c k s (Q : wants → cst → Prop) : editing q s →
  (∀ k' s', editing (press q c) s' → handled (echo q c) (if wakes q c then 1 else 0) s s' → Q k' s') → wp (on_key c k) Q s.
Proof.
  intros He HQ. destruct (id He) as ((Hh & Hfull & Hnl) & Hs & Hk).
  assert (Hsame : c ∈ [16; 18; 6; 19; 26] → ∀ k', Q k' s).
  { intros Hc k'. assert (c ≠ 21 ∧ c ≠ 8 ∧ c ≠ 127) as (N1 & N2 & N3) by (repeat split; intros ->; set_solver).
    assert (Hn : is_text c = false) by (unfold is_text; rewrite bool_decide_true by set_solver; done).
    apply HQ; unfold press, echo, wakes; rewrite (proj2 (Z.eqb_neq c 21) N1), (proj2 (Z.eqb_neq c 8) N2), (proj2 (Z.eqb_neq c 127) N3), Hn; [done|].
    unfold handled. cbn. by rewrite !app_nil_r. }
  unfold on_key. change (Ctrl 80) with 16. change (Ctrl 82) with 18. change (Ctrl 70) with 6. change (Ctrl 83) with 19.
  change (Ctrl 90) with 26. change (Ctrl 85) with 21. change (Ctrl 72) with 8. change (Ctrl 68) with 4.
  destruct (Z.eqb_spec c 16) as [->|N1]; [apply wp_ret, Hsame; set_solver|].
  destruct (Z.eqb_spec c 18) as [->|N2]; [apply wp_ret, Hsame; set_solver|].
  destruct (Z.eqb_spec c 6) as [->|N3]; [apply wp_ret, Hsame; set_solver|].
  destruct (Z.eqb_spec c 19) as [->|N4]; [apply wp_ret, Hsame; set_solver|].
  destruct (Z.eqb_spec c 26) as [->|N5]; [apply wp_ret, Hsame; set_solver|]. clear Hsame.
  destruct (Z.eqb_spec c 21) as [->|N6].
  { apply wp_bind, (wp_kill_line q); [done| |].
    - pose proof (rg_total _ _ Hh). unfold total in *. lia.
    - intros s' He' Hd. apply wp_ret, HQ; [exact He'|]. exact Hd. }
  destruct ((c =? 8) || (c =? 127)) eqn:Eb.
  { wp_steps. rewrite (ring_no_edit _ _ Hh).
    assert (Ep : press q c = mklines (committed q) (removelast (edit q))).
    { unfold press. rewrite (proj2 (Z.eqb_neq c 21) N6), Eb. done. }
    assert (Ee : echo q c = if bool_decide (edit q = []) then [] else [Cga.BACKSPACE]).
    { unfold echo. rewrite (proj2 (Z.eqb_neq c 21) N6), Eb. done. }
    assert (Ew : wakes q c = false).
    { apply orb_true_iff in Eb as [->%Z.eqb_eq| ->%Z.eqb_eq]; reflexivity. }
    rewrite Ep, Ee, Ew in HQ. clear Ep Ee Ew. destruct q as [C E]. cbn [edit committed] in *. destruct E as [|a E _] using rev_ind.
    - rewrite bool_decide_true in * by done. wp_steps. apply HQ; [done|]. unfold handled. cbn. by rewrite !app_nil_r.
    - assert (Hne : E ++ [a] ≠ []) by (intros H0; by apply app_nil in H0 as []). rewrite bool_decide_false in * by done.
      unfold set_e. wp_steps. destruct (holds_erase _ _ Hh E a eq_refl) as [_ Hh'].
      apply wp_bind, wp_consputc; [done|]. intros s1 [P1 P2 P3 P4 P5]. wp_steps. rewrite removelast_last in HQ. apply HQ.
      + split; [|split; [done|by rewrite P2]]. rewrite P3. split; [exact Hh'|]. cbn [edit]. split; [|set_solver].
        pose proof (rg_total _ _ Hh) as Ht. unfold total in *. cbn [edit committed] in *. rewrite length_app in Ht. cbn [length] in Ht. intros; lia.
      + split; [exact P5|]. rewrite P2. cbn. by rewrite app_nil_r. }
  wp_steps. rewrite (ring_space _ _ Hh).
  assert (Et : is_text c = negb (c =? 0)).
  { unfold is_text. apply orb_false_iff in Eb as [N7%Z.eqb_neq N8%Z.eqb_neq]. destruct (Z.eqb_spec c 0) as [->|N0]; [done|].
    rewrite bool_decide_false; [done|]. set_solver. }
  rewrite <-Et. assert (Ep : press q c = if is_text c && (total q <? INPUT_BUF) then
    let q' := insert_char (stored_char c) q in if ends_line (stored_char c) q' then commit q' else q' else q).
  { unfold press. rewrite (proj2 (Z.eqb_neq c 21) N6), Eb. done. }
  assert (Ee : echo q c = if is_text c && (total q <? INPUT_BUF) then [stored_char c] else []).
  { unfold echo. rewrite (proj2 (Z.eqb_neq c 21) N6), Eb. done. }
  rewrite Ep, Ee in HQ. unfold wakes in HQ. clear Ep Ee. destruct (is_text c && (total q <? INPUT_BUF)) eqn:Es.
  2: { wp_steps. apply HQ; [done|]. unfold handled. cbn. by rewrite !app_nil_r. }
  apply andb_true_iff in Es as [_ Hlt%Z.ltb_lt]. change (if c =? 13 then 10 else c) with (stored_char c).
  set (d := stored_char c) in *. unfold put_ring. wp_steps. apply wp_bind, wp_consputc; [done|].
  intros s1 [P1 P2 P3 P4 P5]. wp_steps. pose proof (holds_put _ _ Hh d Hlt) as Hh1. cbn [inp put_inp] in P3.
  rewrite <-P3 in Hh1. rewrite (ring_end _ _ Hh1). fold (ends_line d (insert_char d q)). cbn [andb] in HQ.
  destruct (ends_line d (insert_char d q)) eqn:El.
  - unfold set_w, wakeup. wp_steps. apply wp_zoom. unfold Kern.wakeup. wp_steps. cbn. apply HQ.
    + split; [|split; [done|by cbn; rewrite P2]]. split; [exact (holds_commit _ _ Hh1)|]. split; [done|]. cbn. set_solver.
    + split; [done|]. cbn. by rewrite P2.
  - wp_steps. unfold ends_line in El. apply orb_false_iff in El as [El El3%Z.eqb_neq]. apply orb_false_iff in El as [El1%Z.eqb_neq _].
    apply HQ.
    + split; [|split; [done|by rewrite P2]]. split; [exact Hh1|]. split; [done|]. cbn. set_solver.
    + split; [done|]. rewrite P2. cbn. by rewrite app_nil_r.
Qed.

Lemma wp_on_keys keys : ∀ q k s (Q : wants → cst → Prop), editing q s →
  (∀ k' s', editing (foldl press q keys) s' → handled (echoes q keys) (wake_count q keys) s s' → Q k' s') → wp (on_keys keys k) Q s.
Proof.
  induction keys as [|c keys IH]; intros q k s Q He HQ; cbn [on_keys].
  - apply wp_ret, HQ; [done|]. unfold handled. cbn. by rewrite !app_nil_r.
  - apply wp_bind, (wp_on_key q); [done|]. intros k1 s1 He1 (A1 & A2 & A3). apply (IH (press q c)); [done|].
    intros k' s' He' (B1 & B2 & B3). apply HQ; [done|]. cbn [echoes wake_count]. split; [|split; [|congruence]].
    + by rewrite B1, A1, sent_all_app, app_assoc.
    + by rewrite B2, A2, replicate_add, app_assoc.
Qed.

(** ** The reader *)

(** The characters that a read of at most [n] takes from [q], what is left, and
    whether the read is complete: at the count, after a newline, or at a
    control-D, which is left for the next read if anything precedes it. *)
Fixpoint line (n : nat) (some : bool) (q : list Z) : list Z * list Z * bool :=
  match n, q with
  | O, _ => ([], q, true)
  | S _, [] => ([], [], false)
  | S n, c :: q' =>
      if c =? 4 then ([], if some then q else q', true)
      else if c =? 10 then ([c], q', true)
      else let '(l, rest, d) := line n true q' in (c :: l, rest, d)
  end.

(** The end of a segment: the lock is free, the lines are [q]. *)
Definition segment (q : lines) (locked : bool) (s s' : cst) : Prop :=
  ring (inp s') q ∧ Kern.lks (kn s') = [] ∧ Kern.woken (kn s') = Kern.woken (kn s) ∧ ilocked s' = locked ∧
  screen s' = screen s ∧ uart s' = uart s ∧ panicked s' = panicked s.

Lemma wp_creleases s (Q : unit → cst → Prop) : Kern.lks (kn s) = [Kern.LCons] →
  Q tt (put_kn (Kern.mkkern [] (Kern.woken (kn s))) s) → wp release Q s.
Proof. intros. by apply wp_zoom, Kern.wp_krelease. Qed.
Lemma wp_unlock_ilock q s (r : outcome) (Q : outcome → cst → Prop) : ring (inp s) q → Kern.lks (kn s) = [Kern.LCons] → ilocked s = false →
  (∀ s', segment q true s s' → Q r s') → wp (release;; ilock;; mret r) Q s.
Proof.
  intros Hr Hk Hi HQ. apply wp_bind, wp_creleases; [done|]. unfold ilock. wp_steps. cbn. rewrite Hi. wp_steps. by apply HQ.
Qed.

(** Taking one character leaves the ring a ring. *)
Lemma ring_pop x q c l : ring x q → committed q = c :: l →
  buf x !! Z.to_nat (ri x mod INPUT_BUF) = Some c ∧ ring (mkinput (buf x) (u32 (ri x + 1)) (wi x) (ei x)) (mklines l (edit q)).
Proof.
  intros (Hh & Hfull & Hnl) E. destruct (holds_pop _ _ Hh l c E) as [Hc Hh']. split; [done|]. split; [done|]. split; [|done].
  pose proof (rg_total _ _ Hh) as Ht. unfold total in *. cbn [committed edit]. rewrite E in Ht. cbn [length] in Ht. intros; lia.
Qed.

Lemma wp_cread_loop (killed : bool) target n : ∀ q dst s (Q : outcome → cst → Prop),
  ring (inp s) q → Kern.lks (kn s) = [Kern.LCons] → ilocked s = false → (Z.of_nat n <= target) →
  (∀ s', let '(l, rest, d) := line n (Z.of_nat n <? target) (committed q) in
     segment (mklines rest (edit q)) (d || killed) s s' →
     Q (if d then Done (target - Z.of_nat (n - length l)) (dst ++ l)
        else if killed then Done (-1) (dst ++ l) else Asleep (n - length l) (dst ++ l)) s') →
  wp (read_loop killed target n dst) Q s.
Proof.
  induction n as [|n IH]; intros [C E] dst s Q Hr Hk Hi Hn HQ; cbn [committed edit line] in HQ.
  { cbn [read_loop]. unfold read_end. apply (wp_unlock_ilock (mklines C E)); [done..|]. intros s' Hs.
    specialize (HQ s'). rewrite app_nil_r in HQ. by apply HQ. }
  cbn [read_loop]. wp_steps. rewrite (ring_no_committed _ _ (proj1 Hr)). cbn [committed]. destruct C as [|c C].
  { rewrite bool_decide_true by done. cbn [orb length] in HQ. rewrite app_nil_r in HQ. destruct killed.
    - apply (wp_unlock_ilock (mklines [] E)); [done..|]. intros s' Hs. by apply HQ.
    - apply wp_bind, wp_creleases; [done|]. wp_steps. apply HQ. by repeat split; try apply Hr. }
  rewrite bool_decide_false by done. destruct (ring_pop _ _ c C Hr eq_refl) as [Hc Hr']. cbn [edit] in Hr'.
  apply wp_bind, (wp_at_ring _ c); [done|]. unfold set_r at 1. wp_steps. change (Ctrl 68) with 4.
  destruct (Z.eqb_spec c 4) as [->|N4].
  - cbn [length orb] in HQ. rewrite app_nil_r in HQ.
    assert (Hend : ∀ s1 q1, ring (inp s1) q1 → (∀ s', segment q1 true s1 s' → Q (Done (target - Z.of_nat (S n)) dst) s') →
      Kern.lks (kn s1) = [Kern.LCons] → ilocked s1 = false → wp (read_end target (S n) dst) Q s1).
    { intros s1 q1 H1 H2 H3 H4. unfold read_end. by eapply wp_unlock_ilock. }
    destruct (Z.of_nat (S n) <? target).
    + unfold set_r. wp_steps. apply (Hend _ (mklines (4 :: C) E)); [|intros s' Hs; by apply HQ|done|done]. cbn.
      assert (u32 (u32 (ri (inp s) + 1) - 1) = ri (inp s)) as ->.
      { rewrite u32_sub_l, Z.add_simpl_r. apply u32_small, Hr. }
      by destruct s as [? [] ? ? ? ?].
    + wp_steps. apply (Hend _ (mklines C E)); [done|intros s' Hs; by apply HQ|done|done].
  - destruct (c =? 10) eqn:E10.
    + unfold read_end. apply (wp_unlock_ilock (mklines C E)); [done..|]. intros s' Hs. cbn [length] in HQ.
      rewrite Nat.sub_succ, Nat.sub_0_r in HQ. by apply HQ.
    + apply (IH (mklines C E)); [done|done|done|lia|]. intros s'. cbn [committed edit].
      rewrite (proj2 (Z.ltb_lt _ _)) by lia. destruct (line n true C) as [[l rest] d] eqn:El.
      intros Hs. specialize (HQ s'). cbn [length] in HQ. rewrite <-app_assoc. cbn [app]. rewrite Nat.sub_succ in HQ. by apply HQ.
Qed.
End specs.

(** ** Theorems *)

Lemma wp_cacquire `{mode : Mode} s (Q : unit → cst → Prop) : Kern.quiet (kn s) →
  Q tt (put_kn (Kern.mkkern [Kern.LCons] (Kern.woken (kn s))) s) → wp acquire Q s.
Proof. intros. by apply wp_zoom, Kern.wp_kacquire. Qed.

Lemma wp_consoleintr `{mode : Mode} keys q s (Q : wants → cst → Prop) : ring (inp s) q → sane s → Kern.quiet (kn s) →
  (∀ k s', ring (inp s') (foldl press q keys) → sane s' → Kern.quiet (kn s') →
     handled (echoes q keys) (wake_count q keys) s s' → Q k s') → wp (consoleintr keys) Q s.
Proof.
  intros Hr Hs Hk HQ. unfold consoleintr. apply wp_bind, wp_cacquire; [done|]. apply wp_bind, (wp_on_keys _ q); [done|].
  intros k s1 (Hr1 & Hs1 & Hk1) (A1 & A2 & A3). apply wp_bind, wp_creleases; [done|]. wp_steps.
  apply HQ; [exact Hr1|exact Hs1|done|done].
Qed.

(** C30: the interrupt handler edits lines.  Whatever keys arrive, it returns
    with the ring holding the committed characters and the edited line that the
    keys describe: control-U clears the line, backspace removes its last
    character, control keys for listings change nothing, and any other
    character is appended if there is room; a newline (or return), a control-D
    and the character that fills the ring commit the line and wake the readers,
    once each.  Everything stored is echoed and every removal erased on screen
    and serial line.  The indices may wrap around. *)
Theorem consoleintr_edits keys q s : ring (inp s) q → sane s → Kern.quiet (kn s) →
  ∃ k s', consoleintr keys s = Ok k s' ∧ ring (inp s') (foldl press q keys) ∧ sane s' ∧ Kern.quiet (kn s') ∧
    handled (echoes q keys) (wake_count q keys) s s'.
Proof.
  intros Hr Hs Hk. apply (wp_total (consoleintr keys) (λ k s', ring (inp s') (foldl press q keys) ∧ sane s' ∧ Kern.quiet (kn s') ∧
    handled (echoes q keys) (wake_count q keys) s s')).
  by apply (wp_consoleintr keys q).
Qed.

Lemma line_length n some q : (length (line n some q).1.1 <= n)%nat.
Proof.
  revert some q. induction n as [|n IH]; intros some q; [done|]. destruct q as [|c q]; cbn [line fst length]; [lia|].
  destruct (c =? 4); [cbn; lia|]. destruct (c =? 10); [cbn; lia|]. specialize (IH true q). destruct (line n true q) as [[l rest] d]. cbn in *. lia.
Qed.

(** A read returns a line.  On a console whose committed characters are
    [committed q], consoleread returns the characters up to the count, a newline
    or a control-D; a control-D is consumed only by a read that has found
    nothing before it, which returns 0.  If the characters run out before,
    the call goes to sleep with what it has stored, or returns -1 when the
    process is killed.  The line being edited is not touched, and no lock is
    left held. *)
Theorem consoleread_line killed n q s : ring (inp s) q → Kern.quiet (kn s) → ilocked s = true → 0 <= n →
  ∃ s', let '(l, rest, d) := line (Z.to_nat n) false (committed q) in
    consoleread killed n s = Ok (if d then Done (Z.of_nat (length l)) l else if killed then Done (-1) l
                                 else Asleep (Z.to_nat n - length l) l) s' ∧
    segment (mklines rest (edit q)) (d || killed) s s'.
Proof.
  intros Hr Hk Hi Hn. pose proof (line_length (Z.to_nat n) false (committed q)) as Hlen.
  destruct (wp_total (consoleread killed n) (λ r s', let '(l, rest, d) := line (Z.to_nat n) false (committed q) in
    r = (if d then Done (Z.of_nat (length l)) l else if killed then Done (-1) l else Asleep (Z.to_nat n - length l) l) ∧
    segment (mklines rest (edit q)) (d || killed) s s') s) as (r & s' & E & H).
  - unfold consoleread, iunlock. wp_steps. rewrite Hi. wp_steps. apply wp_cacquire; [done|].
    apply (wp_cread_loop _ _ _ q); [done|done|done|lia|]. intros s'. rewrite (proj2 (Z.ltb_ge _ _)) by lia.
    destruct (line (Z.to_nat n) false (committed q)) as [[l rest] d]. cbn [fst] in Hlen. intros Hs. split; [|exact Hs].
    destruct d; [f_equal; lia|by destruct killed].
  - exists s'. destruct (line (Z.to_nat n) false (committed q)) as [[l rest] d]. destruct H as [-> H]. done.
Qed.

(** ** An example: "ab", backspace, "c", return *)

Definition idle : cst :=
  mkcst (Kern.mkkern [] []) (mkinput (replicate 128 0) 4294967290 4294967290 4294967290) (Cga.mkcga (replicate 2000 0) 0) [] false true.
Lemma idle_ring : ring (inp idle) (mklines [] []).
Proof.
  split; [|split; [done|set_solver]]. by constructor.
Qed.
Lemma idle_sane : sane idle.
Proof. split; [|done]. split; [cbn; lia|]. split; [cbn; lia|]. intros i v _ [-> _]%lookup_replicate. by left. Qed.

Lemma consoleintr_edits_witness : ∃ k s', consoleintr [97; 98; 8; 99; 13] idle = Ok k s' ∧ ring (inp s') (mklines [97; 99; 10] []) ∧ sane s' ∧
  Kern.quiet (kn s') ∧ handled [97; 98; 256; 99; 10] 1 idle s'.
Proof. exact (consoleintr_edits [97; 98; 8; 99; 13] (mklines [] []) idle idle_ring idle_sane eq_refl). Defined.

Definition typed_ahead : cst := match consoleintr [97; 98; 8; 99; 13] idle with Ok _ s => s | _ => idle end.
Lemma typed_ring : ring (inp typed_ahead) (mklines [97; 99; 10] []).
Proof.
  pose proof (wp_total (consoleintr [97; 98; 8; 99; 13]) (λ _ s', ring (inp s') (mklines [97; 99; 10] [])) idle) as H.
  destruct H as (k & s' & E & H); [|unfold typed_ahead; by rewrite E].
  by apply (wp_consoleintr _ (mklines [] [])); [apply idle_ring|apply idle_sane|done|].
Qed.
Lemma consoleread_line_witness : ∃ s', consoleread false 100 typed_ahead = Ok (Done 3 [97; 99; 10]) s' ∧
  segment (mklines [] []) true typed_ahead s'.
Proof.
  apply (consoleread_line false 100 (mklines [97; 99; 10] []) typed_ahead typed_ring); [vm_compute; reflexivity|vm_compute; reflexivity|lia].
Defined.
End Console.
