(* ===== verification/Ports.v ===== *)
(** * Input and output ports (x86.h)

    The port instructions of x86.h reach hardware.  The hardware is a parameter:
    a type of device states with what each instruction returns and how it
    changes the device.  What a driver relies on of its device is a further
    class of laws, declared beside the driver, stating what the device's data
    sheet documents; the instances show that the laws can hold. *)

From S2P Require Import Prelude.
Local Open Scope Z_scope.

Module Ports.

(** [insl(port, addr, cnt)] stores [4 * cnt] bytes; [outsl] sends a list of
    bytes, a multiple of four. *)
Class Ports (D : Type) := {
  in_byte : Z → D → Z * D;
  out_byte : Z → Z → D → D;
  in_words : Z → nat → D → list Z * D;
  out_words : Z → list Z → D → D;
  in_byte_range : ∀ port d, 0 <= (in_byte port d).1 < 256
}.

Section ops.
Context {D : Type} `{Ports D}.

(** [uchar inb(ushort port)] *)
Definition inb (port : Z) : M D Z := λ d, let '(v, d') := in_byte port d in Ok v d'.
(** [void outb(ushort port, uchar data)]: the value is cut to a byte. *)
Definition outb (port v : Z) : M D unit := modify (out_byte port (u8 v)).
Definition insl (port : Z) (cnt : nat) : M D (list Z) := λ d, let '(v, d') := in_words port cnt d in Ok v d'.
Definition outsl (port : Z) (l : list Z) : M D unit := modify (out_words port l).

Context `{mode : Mode}.
Lemma wp_inb port d (Q : Z → D → Prop) : Q (in_byte port d).1 (in_byte port d).2 → wp (inb port) Q d.
Proof. unfold wp, inb. by destruct (in_byte port d). Qed.
Lemma wp_outb port v d (Q : unit → D → Prop) : Q tt (out_byte port (u8 v) d) → wp (outb port v) Q d.
Proof. done. Qed.
Lemma wp_insl port cnt d (Q : list Z → D → Prop) : Q (in_words port cnt d).1 (in_words port cnt d).2 → wp (insl port cnt) Q d.
Proof. unfold wp, insl. by destruct (in_words port cnt d). Qed.
Lemma wp_outsl port l d (Q : unit → D → Prop) : Q tt (out_words port l d) → wp (outsl port l) Q d.
Proof. done. Qed.
End ops.

(** No device at all: every port reads 0. *)
Lemma zero_is_byte (port : Z) (d : unit) : 0 <= (0, d).1 < 256.
Proof. cbn. lia. Qed.
#[export] Instance no_device : Ports unit := {
  in_byte _ d := (0, d); out_byte _ _ d := d; in_words _ n d := (replicate (4 * n) 0, d); out_words _ _ d := d; in_byte_range := zero_is_byte
}.

End Ports.
