(* ===== verification/ConsIntr.v ===== *)
(** * The console's interrupt handler with a driver's function for its argument

    [consoleintr(getc)] of console.c calls [getc] until it returns a negative
    number and handles each character before it asks for the next.  File Console
    treats the characters as a list; here the driver and the console run side by
    side, and the result is that of the list of the characters the driver
    returns. *)

From S2P Require Import Prelude Kern Cga Console.
Local Open Scope Z_scope.

Module ConsIntr.

Section intr.
Context {S : Type} (getc : M S Z).

Record ics := mkics { drv : S; cons : Console.cst }.
Definition put_drv (d : S) (s : ics) : ics := mkics d (cons s).
Definition put_cons (c : Console.cst) (s : ics) : ics := mkics (drv s) c.

Fixpoint intr_loop (fuel : nat) (k : Console.wants) : M ics Console.wants :=
  c ← zoom drv put_drv getc;
  if c <? 0 then mret k else
  match fuel with
  | O => hang
  | Datatypes.S fuel => k ← zoom cons put_cons (Console.on_key c k); intr_loop fuel k
  end.
Definition consoleintr (fuel : nat) : M ics Console.wants :=
  zoom cons put_cons Console.acquire;;
  k ← intr_loop fuel (Console.mkwants false None);
  zoom cons put_cons Console.release;;
  mret k.

(** [R keys s]: from [s] the driver returns [keys], then a negative number. *)
Inductive returns : list Z → S → S → Prop :=
| ret_end s c s' : getc s = Ok c s' → c < 0 → returns [] s s'
| ret_key s c s1 keys s' : getc s = Ok c s1 → 0 <= c → returns keys s1 s' → returns (c :: keys) s s'.

Lemma intr_loop_spec keys s s' : returns keys s s' → ∀ fuel k k' c c', (length keys <= fuel)%nat → Console.on_keys keys k c = Ok k' c' →
  intr_loop fuel k (mkics s c) = Ok k' (mkics s' c').
Proof.
  induction 1 as [s x s' Hg Hx|s x s1 keys s' Hg Hx Hr IH]; intros fuel k k' c c' Hf Hk.
  - injection Hk as <- <-. destruct fuel; unfold intr_loop, mbind, M_mbind, M_bind, zoom; cbn [drv]; rewrite Hg, (proj2 (Z.ltb_lt _ _) Hx); done.
  - cbn [length] in Hf. destruct fuel as [|fuel]; [lia|]. cbn [Console.on_keys] in Hk. unfold mbind, M_mbind, M_bind in Hk.
    destruct (Console.on_key x k c) as [k1 c1| | |] eqn:Ek; try done.
    cbn [intr_loop]. unfold mbind, M_mbind, M_bind, zoom. cbn [drv]. rewrite Hg, (proj2 (Z.ltb_ge _ _) Hx). cbn [cons put_drv put_cons].
    rewrite Ek. apply IH; [lia|done].
Qed.

(** The handler with a driver is the handler on the driver's characters. *)
Lemma consoleintr_spec keys s s' fuel k c c' : returns keys s s' → (length keys <= fuel)%nat → Console.consoleintr keys c = Ok k c' →
  consoleintr fuel (mkics s c) = Ok k (mkics s' c').
Proof.
  intros Hr Hf Hc. unfold Console.consoleintr, consoleintr, mbind, M_mbind, M_bind, mret, M_mret, M_ret in *. unfold zoom at 1. cbn [cons].
  destruct (Console.acquire c) as [[] c1| | |]; try done. destruct (Console.on_keys keys _ c1) as [k2 c2| | |] eqn:E2; try done.
  destruct (Console.release c2) as [[] c3| | |] eqn:E3; try done. injection Hc as <- <-. change (put_cons c1 (mkics s c)) with (mkics s c1).
  rewrite (intr_loop_spec _ _ _ Hr fuel _ _ _ _ Hf E2). unfold zoom. cbn [cons]. by rewrite E3.
Qed.
End intr.
Arguments ics : clear implicits.
Arguments mkics {S} _ _.

End ConsIntr.
