(* ===== verification/Kbd.v ===== *)
(** * The keyboard (kbd.c, kbd.h) and its way to the console

    [kbdgetc] turns the scan codes of the keyboard controller into characters,
    keeping the modifier keys in seven bits; [kbdintr] hands it to the console's
    interrupt handler, which calls it until it has no more.

    The controller is a parameter with two documented ports: bit 0 of the status
    says whether a scan code waits, and reading the data port takes the oldest
    one.  The code waiting list includes what arrives while the handler runs. *)

From Stdlib Require Import Ascii String.
From stdpp Require Import strings.
From S2P Require Import Prelude Kern Cga Console ConsIntr Ports.
Import Ports ConsIntr.
Local Open Scope Z_scope.

Module Kbd.

Definition KBSTATP : Z := 0x64.
Definition KBS_DIB : Z := 0x01.
Definition KBDATAP : Z := 0x60.

Definition NO : Z := 0.
Definition SHIFT : Z := Z.shiftl 1 0.
Definition CTL : Z := Z.shiftl 1 1.
Definition ALT : Z := Z.shiftl 1 2.
Definition CAPSLOCK : Z := Z.shiftl 1 3.
Definition NUMLOCK : Z := Z.shiftl 1 4.
Definition SCROLLLOCK : Z := Z.shiftl 1 5.
Definition E0ESC : Z := Z.shiftl 1 6.

(** ** The tables *)

Definition code (a : ascii) : Z := Z.of_N (N_of_ascii a).
Definition chars (t : string) : list Z := code <$> list_ascii_of_string t.
Arguments code a%_char_scope.
Arguments chars t%_string_scope.

(** A C initialiser of a 256-byte table: leading values, then designated ones. *)
Definition table (lead : list Z) (designated : list (nat * Z)) : list Z :=
  foldl (λ t iv, <[iv.1 := iv.2]> t) (lead ++ replicate (256 - length lead) 0) designated.
(** [C(x)] *)
Definition C (x : Z) : Z := x - code "@".

Definition shiftcode : list Z :=
  table [] [(0x1D, CTL); (0x2A, SHIFT); (0x36, SHIFT); (0x38, ALT); (0x9D, CTL); (0xB8, ALT)]%nat.
Definition togglecode : list Z :=
  table [] [(0x3A, CAPSLOCK); (0x45, NUMLOCK); (0x46, SCROLLLOCK)]%nat.

(** The keys that send an escape first: the arrows and the like. *)
Definition grey : list (nat * Z) :=
  [(0xC8%nat, 0xE2); (0xD0%nat, 0xE3); (0xC9%nat, 0xE6); (0xD1%nat, 0xE7); (0xCB%nat, 0xE4); (0xCD%nat, 0xE5);
   (0x97%nat, 0xE0); (0xCF%nat, 0xE1); (0xD2%nat, 0xE8); (0xD3%nat, 0xE9)].

Definition normalmap : list Z := table
  ([NO; 0x1B] ++ chars "123456" ++
   chars "7890-=" ++ [8; 9] ++
   chars "qwertyui" ++
   chars "op[]" ++ [10; NO] ++ chars "as" ++
   chars "dfghjkl;" ++
   chars "'`" ++ [NO] ++ chars "\zxcv" ++
   chars "bnm,./" ++ [NO] ++ chars "*" ++
   [NO] ++ chars " " ++ [NO; NO; NO; NO; NO; NO] ++
   [NO; NO; NO; NO; NO; NO; NO] ++ chars "7" ++
   chars "89-456+1" ++
   chars "230." ++ [NO; NO; NO; NO])
  ([(0x9C%nat, 10); (0xB5%nat, code "/")] ++ grey).

Definition shiftmap : list Z := table
  ([NO; 27] ++ chars "!@#$%^" ++
   chars "&*()_+" ++ [8; 9] ++
   chars "QWERTYUI" ++
   chars "OP{}" ++ [10; NO] ++ chars "AS" ++
   chars "DFGHJKL:" ++
   [34] ++ chars "~" ++ [NO] ++ chars "|ZXCV" ++
   chars "BNM<>?" ++ [NO] ++ chars "*" ++
   [NO] ++ chars " " ++ [NO; NO; NO; NO; NO; NO] ++
   [NO; NO; NO; NO; NO; NO; NO] ++ chars "7" ++
   chars "89-456+1" ++
   chars "230." ++ [NO; NO; NO; NO])
  ([(0x9C%nat, 10); (0xB5%nat, code "/")] ++ grey).

Definition ctlmap : list Z := table
  [NO; NO; NO; NO; NO; NO; NO; NO;
   NO; NO; NO; NO; NO; NO; NO; NO;
   C (code "Q"); C (code "W"); C (code "E"); C (code "R"); C (code "T"); C (code "Y"); C (code "U"); C (code "I");
   C (code "O"); C (code "P"); NO; NO; 13; NO; C (code "A"); C (code "S");
   C (code "D"); C (code "F"); C (code "G"); C (code "H"); C (code "J"); C (code "K"); C (code "L"); NO;
   NO; NO; NO; C (code "\"); C (code "Z"); C (code "X"); C (code "C"); C (code "V");
   C (code "B"); C (code "N"); C (code "M"); NO; NO; u8 (C (code "/")); NO; NO]
  ([(0x9C%nat, 13); (0xB5%nat, u8 (C (code "/")))] ++ grey).

Definition charcode : list (list Z) := [normalmap; shiftmap; ctlmap; ctlmap].

(** ** The driver *)

(** An access to one of the tables. *)
Definition at_table {S} (t : list Z) (i : Z) : M S Z :=
  match t !! Z.to_nat i with Some v => mret v | None => fault "table" end.

(** What [kbdgetc] does with a scan code; the state is its static [shift]. *)
Definition scan (data : Z) : M Z Z :=
  shift ← gets id;
  if data =? 0xE0 then modify (λ sh, Z.lor sh E0ESC);; mret 0
  else if negb (Z.land data 0x80 =? 0) then
    let data := if negb (Z.land shift E0ESC =? 0) then data else Z.land data 0x7F in
    t ← at_table shiftcode data;
    modify (λ sh, Z.land sh (u32 (Z.lnot (Z.lor t E0ESC))));;
    mret 0
  else
    data ← (if negb (Z.land shift E0ESC =? 0) then
              modify (λ sh, Z.land sh (u32 (Z.lnot E0ESC)));; mret (Z.lor data 0x80)
            else mret data);
    t ← at_table shiftcode data;
    modify (λ sh, Z.lor sh t);;
    t ← at_table togglecode data;
    modify (λ sh, Z.lxor sh t);;
    shift ← gets id;
    map ← deref (charcode !! Z.to_nat (Z.land shift (Z.lor CTL SHIFT)));
    c ← at_table map data;
    mret (if negb (Z.land shift CAPSLOCK =? 0) then
            if (code "a" <=? c) && (c <=? code "z") then c + (code "A" - code "a")
            else if (code "A" <=? c) && (c <=? code "Z") then c + (code "a" - code "A")
            else c
          else c).

(** What the driver relies on of the controller. *)
Class Keyboard (D : Type) `{Ports D} := {
  codes : D → list Z;
  status_bit : ∀ d, (Z.land (in_byte KBSTATP d).1 KBS_DIB =? 0) = bool_decide (codes d = []);
  status_keeps : ∀ d, codes (in_byte KBSTATP d).2 = codes d;
  data_takes : ∀ d c l, codes d = c :: l → in_byte KBDATAP d = (c, (in_byte KBDATAP d).2) ∧ codes (in_byte KBDATAP d).2 = l
}.

Section driver.
Context {D : Type} `{Keyboard D}.

Record kst := mkkst { dev : D; shift : Z }.
Definition put_dev (d : D) (s : kst) : kst := mkkst d (shift s).
Definition put_shift (sh : Z) (s : kst) : kst := mkkst (dev s) sh.

Definition kbdgetc : M kst Z :=
  st ← zoom dev put_dev (inb KBSTATP);
  if Z.land st KBS_DIB =? 0 then mret (-1) else
  data ← zoom dev put_dev (inb KBDATAP);
  zoom shift put_shift (scan data).

(** The fuel is the number of codes that wait. *)
Definition kbdintr : M (ics kst) Console.wants :=
  n ← gets (λ s, length (codes (dev (drv s))));
  ConsIntr.consoleintr kbdgetc n.
End driver.
Arguments kst : clear implicits.

(** ** What the keyboard means

    A key is named by its scan code, with 0x80 added for the keys whose codes
    follow an escape.  0x60 and 0xE0 name no key: the code would be the escape
    itself. *)

Inductive event := Press (k : Z) | Release (k : Z).
Definition key_of (e : event) : Z := match e with Press k | Release k => k end.
Definition is_key (k : Z) : bool := (0 <=? k) && (k <? 256) && negb (k =? 0x60) && negb (k =? 0xE0).
(** What the keyboard sends. *)
Definition sends (e : event) : list Z :=
  match e with
  | Press k => if k <? 0x80 then [k] else [0xE0; k - 0x80]
  | Release k => if k <? 0x80 then [k + 0x80] else [0xE0; k]
  end.

Record mods := mkmods { m_shift : bool; m_ctl : bool; m_alt : bool; m_caps : bool; m_num : bool; m_scroll : bool }.
Definition all_mods : list mods :=
  a ← [true; false]; b ← [true; false]; c ← [true; false]; d ← [true; false]; e ← [true; false]; f ← [true; false];
  [mkmods a b c d e f].
Definition mask (m : mods) : Z :=
  Z.b2z (m_shift m) + 2 * Z.b2z (m_ctl m) + 4 * Z.b2z (m_alt m) + 8 * Z.b2z (m_caps m) + 16 * Z.b2z (m_num m) + 32 * Z.b2z (m_scroll m).

Definition is_shift (k : Z) : bool := (k =? 0x2A) || (k =? 0x36).
Definition is_ctl (k : Z) : bool := (k =? 0x1D) || (k =? 0x9D).
Definition is_alt (k : Z) : bool := (k =? 0x38) || (k =? 0xB8).

(** A modifier follows its last key stroke; a lock changes with every press. *)
Definition holds (own : Z → bool) (e : event) (b : bool) : bool :=
  if own (key_of e) then match e with Press _ => true | Release _ => false end else b.
Definition flips (k : Z) (e : event) (b : bool) : bool :=
  match e with Press k' => if k' =? k then negb b else b | Release _ => b end.
Definition after (m : mods) (e : event) : mods :=
  mkmods (holds is_shift e (m_shift m)) (holds is_ctl e (m_ctl m)) (holds is_alt e (m_alt m))
    (flips 0x3A e (m_caps m)) (flips 0x45 e (m_num m)) (flips 0x46 e (m_scroll m)).

Definition flip_case (c : Z) : Z :=
  if (code "a" <=? c) && (c <=? code "z") then c - 32 else if (code "A" <=? c) && (c <=? code "Z") then c + 32 else c.
(** The character of a key with the modifiers down. *)
Definition char_of (m : mods) (k : Z) : Z :=
  let t := if m_ctl m then ctlmap else if m_shift m then shiftmap else normalmap in
  let c := nth (Z.to_nat k) t 0 in if m_caps m then flip_case c else c.
(** What the calls of [kbdgetc] return for an event: a 0 for each code that is
    not a character's. *)
Definition outs (m : mods) (e : event) : list Z :=
  match e with
  | Press k => (if k <? 0x80 then [] else [0]) ++ [char_of (after m e) k]
  | Release k => if k <? 0x80 then [0] else [0; 0]
  end.
Fixpoint outs_all (m : mods) (es : list event) : list Z :=
  match es with [] => [] | e :: es => outs m e ++ outs_all (after m e) es end.

(** The calls for a list of codes. *)
Fixpoint scans (l : list Z) : M Z (list Z) :=
  match l with [] => mret [] | c :: l => v ← scan c; vs ← scans l; mret (v :: vs) end.

(** ** One event, by enumeration of all keys and modifiers *)

Definition all_keys : list Z := filter (λ k, is_key k = true) (Z.of_nat <$> seq 0 256).
Definition agrees (m : mods) (e : event) : bool :=
  match scans (sends e) (mask m) with
  | Ok vs sh => bool_decide (vs = outs m e) && (sh =? mask (after m e)) && forallb (λ v, (0 <=? v) && (v <? 256)) vs
  | _ => false
  end.
Definition agrees_on (m : mods) (k : Z) : bool := agrees m (Press k) && agrees m (Release k).
Lemma all_agree_true : forallb (λ m, forallb (agrees_on m) all_keys) all_mods = true.
Proof. vm_compute. reflexivity. Qed.

Lemma elem_all_keys k : is_key k = true → k ∈ all_keys.
Proof.
  intros Hk. apply list_elem_of_filter. split; [done|]. apply list_elem_of_fmap. exists (Z.to_nat k).
  unfold is_key in Hk. rewrite !andb_true_iff, Z.leb_le, Z.ltb_lt in Hk. rewrite elem_of_seq. lia.
Qed.
Lemma elem_all_mods m : m ∈ all_mods.
Proof. destruct m as [[] [] [] [] [] []]; vm_compute; repeat first [left | right]. Qed.

Lemma event_agrees m e : is_key (key_of e) = true → agrees m e = true.
Proof.
  intros Hk. assert (H : agrees_on m (key_of e) = true).
  { pose proof (proj1 (forallb_forall _ _) all_agree_true m (proj1 (list_elem_of_In _ _) (elem_all_mods m))) as H.
    exact (proj1 (forallb_forall _ _) H (key_of e) (proj1 (list_elem_of_In _ _) (elem_all_keys _ Hk))). }
  unfold agrees_on in H. apply andb_true_iff in H as [H1 H2]. destruct e; [exact H1|exact H2].
Qed.
Lemma scans_event m e : is_key (key_of e) = true →
  scans (sends e) (mask m) = Ok (outs m e) (mask (after m e)) ∧ Forall (λ v, 0 <= v < 256) (outs m e).
Proof.
  intros Hk%(event_agrees m). unfold agrees in Hk. destruct (scans _ _) as [vs sh| | |]; try done.
  rewrite !andb_true_iff, bool_decide_eq_true, Z.eqb_eq, forallb_forall in Hk. destruct Hk as [[-> ->] H]. split; [done|].
  apply Forall_forall. intros v Hv%list_elem_of_In%H. rewrite andb_true_iff, Z.leb_le, Z.ltb_lt in Hv. done.
Qed.

Lemma scans_app l1 l2 sh vs sh1 : scans l1 sh = Ok vs sh1 →
  scans (l1 ++ l2) sh = match scans l2 sh1 with Ok ws sh2 => Ok (vs ++ ws) sh2 | Panic m s => Panic m s | Fault w s => Fault w s | Hang s => Hang s end.
Proof.
  revert sh vs sh1. induction l1 as [|c l1 IH]; intros sh vs sh1; cbn [scans app].
  - intros [= <- <-]. by destruct (scans l2 sh).
  - unfold mbind, M_mbind, M_bind. destruct (scan c sh) as [v sh'| | |]; try done.
    destruct (scans l1 sh') as [vs' sh2| | |] eqn:E; try done. intros [= <- <-]. rewrite (IH _ _ _ E). by destruct (scans l2 sh2).
Qed.
Lemma scans_events es : ∀ m, Forall (λ e, is_key (key_of e) = true) es →
  scans (concat (sends <$> es)) (mask m) = Ok (outs_all m es) (mask (foldl after m es)) ∧ Forall (λ v, 0 <= v < 256) (outs_all m es).
Proof.
  induction es as [|e es IH]; intros m Hes; cbn [fmap list_fmap concat outs_all foldl]; [by split; [|constructor]|].
  apply Forall_cons in Hes as [He Hes]. destruct (scans_event m e He) as [E1 R1]. destruct (IH (after m e) Hes) as [E2 R2].
  split; [|by apply Forall_app]. by rewrite (scans_app _ _ _ _ _ E1), E2.
Qed.

(** ** The interrupt *)

Section intr.
Context {D : Type} `{Keyboard D}.
Implicit Types s : kst D.

Lemma kbdgetc_none s : codes (dev s) = [] → ∃ d, kbdgetc s = Ok (-1) (mkkst d (shift s)) ∧ codes d = [].
Proof.
  intros E. unfold kbdgetc, mbind, M_mbind, M_bind, zoom, inb. destruct (in_byte KBSTATP (dev s)) as [st d] eqn:E1.
  pose proof (status_bit (dev s)) as Hb. pose proof (status_keeps (dev s)) as Hk. rewrite E1 in Hb, Hk. cbn in Hb, Hk.
  rewrite Hb, bool_decide_true by done. exists d. split; [done|congruence].
Qed.
(** A call takes one code and does what [scan] does with it. *)
Lemma kbdgetc_some s c l v sh : codes (dev s) = c :: l → scan c (shift s) = Ok v sh →
  ∃ d, kbdgetc s = Ok v (mkkst d sh) ∧ codes d = l.
Proof.
  intros E Hs. unfold kbdgetc, mbind, M_mbind, M_bind, zoom, inb. destruct (in_byte KBSTATP (dev s)) as [st d] eqn:E1.
  pose proof (status_bit (dev s)) as Hb. pose proof (status_keeps (dev s)) as Hk. rewrite E1 in Hb, Hk. cbn in Hb, Hk.
  rewrite Hb, bool_decide_false by (by rewrite E). cbn [dev put_dev]. destruct (data_takes d c l) as [-> Hl]; [congruence|].
  cbn. rewrite Hs. by eexists.
Qed.

(** The calls of [kbdgetc] for the codes that wait. *)
Lemma kbdgetc_returns l : ∀ s vs sh', codes (dev s) = l → scans l (shift s) = Ok vs sh' → Forall (λ v, 0 <= v < 256) vs →
  ∃ d, returns kbdgetc vs s (mkkst d sh') ∧ codes d = [].
Proof.
  induction l as [|c l IH]; intros s vs sh' Hl Hsc Hr.
  - injection Hsc as <- <-. destruct (kbdgetc_none s Hl) as (d & E & Hd). exists d. split; [by eapply ret_end|done].
  - cbn [scans] in Hsc. unfold mbind, M_mbind, M_bind in Hsc.
    destruct (scan c (shift s)) as [v sh1| | |] eqn:Es; try done. destruct (scans l sh1) as [vs' sh2| | |] eqn:Ess; try done.
    injection Hsc as <- <-. apply Forall_cons in Hr as [Hv Hr]. destruct (kbdgetc_some s c l v sh1 Hl Es) as (d & E & Hd).
    destruct (IH (mkkst d sh1) vs' sh2 Hd Ess Hr) as (d' & Hret & Hd'). exists d'. split; [|done]. eapply ret_key; [exact E|lia|done].
Qed.
Lemma scans_length l : ∀ sh vs sh', scans l sh = Ok vs sh' → length vs = length l.
Proof.
  induction l as [|c l IH]; intros sh vs sh'; cbn [scans]; [by intros [= <- _]|]. unfold mbind, M_mbind, M_bind.
  destruct (scan c sh) as [v sh1| | |]; try done. destruct (scans l sh1) as [vs' sh2| | |] eqn:E; try done. intros [= <- _]. cbn. f_equal. by eapply IH.
Qed.

(** The interrupt is the console's handler on the characters of the codes. *)
Lemma kbdintr_spec (s : ics (kst D)) vs sh' k c' : scans (codes (dev (drv s))) (shift (drv s)) = Ok vs sh' → Forall (λ v, 0 <= v < 256) vs →
  Console.consoleintr vs (cons s) = Ok k c' → ∃ d, kbdintr s = Ok k (mkics (mkkst d sh') c') ∧ codes d = [].
Proof.
  intros Hs Hr Hc. destruct (kbdgetc_returns _ (drv s) vs sh' eq_refl Hs Hr) as (d & Hret & Hd). exists d. split; [|done].
  destruct s as [s c]. cbn [drv cons] in *. unfold kbdintr, gets, mbind, M_mbind, M_bind. cbn [drv].
  apply consoleintr_spec with (keys := vs); [done|by rewrite (scans_length _ _ _ _ Hs)|done].
Qed.
End intr.

(** ** Typing text *)

(** A keyboard with the US layout, as printed on its keys: the position of each
    key (its code in scan code set 1), and the character of the key alone and
    with shift. *)
Definition row (k : Z) (alone shifted : list Z) : list (Z * (Z * Z)) :=
  imap (λ i c, (k + Z.of_nat i, c)) (zip alone shifted).
Definition keycap (k c : Z) : list (Z * (Z * Z)) := row k [c] [c].
Definition us_layout : list (Z * (Z * Z)) :=
  row 0x02 (chars "1234567890-=") (chars "!@#$%^&*()_+") ++
  row 0x10 (chars "qwertyuiop[]") (chars "QWERTYUIOP{}") ++
  row 0x1E (chars "asdfghjkl;'`") (chars "ASDFGHJKL:" ++ [34] ++ chars "~") ++
  row 0x2B (chars "\zxcvbnm,./") (chars "|ZXCVBNM<>?") ++
  keycap 0x01 27 ++ keycap 0x0E 8 ++ keycap 0x0F 9 ++ keycap 0x1C 10 ++ keycap 0x39 32 ++
  keycap 0x37 (code "*") ++ row 0x47 (chars "789-456+1230.") (chars "789-456+1230.") ++
  keycap 0x9C 10 ++ keycap 0xB5 (code "/").

(** A key is hit alone or while the left or the right shift or control key is
    held down. *)
Inductive chord := Alone | WithShift (right : bool) | WithControl (right : bool).
Record stroke := Hit { chord_of : chord; hit : Z }.
(** The character a stroke stands for: control with a letter or the backslash is
    the letter's place in the alphabet, counted from 1. *)
Definition meaning (t : stroke) : option Z :=
  match list_find (λ e, e.1 = hit t) us_layout with
  | None => None
  | Some (_, (_, (alone, shifted))) =>
      match chord_of t with
      | Alone => Some alone
      | WithShift _ => Some shifted
      | WithControl _ =>
          if (code "a" <=? alone) && (alone <=? code "z") then Some (alone - code "a" + 1)
          else if alone =? code "\" then Some 28 else None
      end
  end.
(** What the fingers do. *)
Definition types (t : stroke) : list event :=
  let tap := [Press (hit t); Release (hit t)] in
  match chord_of t with
  | Alone => tap
  | WithShift r => let k := if (r : bool) then 0x36 else 0x2A in [Press k] ++ tap ++ [Release k]
  | WithControl r => let k := if (r : bool) then 0x9D else 0x1D in [Press k] ++ tap ++ [Release k]
  end.
Definition typing (ts : list stroke) : list event := concat (types <$> ts).
(** The strokes spell the text. *)
Definition spells (ts : list stroke) (text : list Z) : Prop := mapM meaning ts = Some text.
(** No modifier is down. *)
Definition rests (m : mods) : bool := negb (m_shift m || m_ctl m || m_alt m).
(** With caps lock, letters change case. *)
Definition shown (m : mods) (c : Z) : Z := if m_caps m then flip_case c else c.
Definition nonzero (l : list Z) : list Z := filter (λ v, v ≠ 0) l.

#[export] Instance mods_eq_dec : EqDecision mods.
Proof. solve_decision. Defined.

Definition all_chords : list chord := [Alone; WithShift false; WithShift true; WithControl false; WithControl true].
Definition all_strokes : list stroke := ch ← all_chords; (λ e, Hit ch e.1) <$> us_layout.

Definition types_right (m : mods) (t : stroke) : bool :=
  match meaning t with
  | Some c =>
      negb (rests m) ||
      forallb (λ e, is_key (key_of e)) (types t) && bool_decide (foldl after m (types t) = m) &&
      bool_decide (nonzero (outs_all m (types t)) = [shown m c])
  | None => true
  end.
Lemma all_types_right : forallb (λ m, forallb (types_right m) all_strokes) all_mods = true.
Proof. vm_compute. reflexivity. Qed.

Lemma elem_all_strokes t c : meaning t = Some c → t ∈ all_strokes.
Proof.
  destruct t as [ch k]. unfold meaning. cbn [hit chord_of].
  destruct (list_find _ us_layout) as [[i e]|] eqn:E; [|done]. intros _.
  apply list_find_Some in E as (Hi & <- & _). apply list_elem_of_lookup_2 in Hi.
  unfold all_strokes. apply list_elem_of_bind. exists ch. split; [apply list_elem_of_fmap; by exists e|].
  destruct ch as [|[]|[]]; unfold all_chords; rewrite !elem_of_cons; tauto.
Qed.

(** Every printable character, and newline, tab, backspace and escape, can be
    typed. *)
Lemma every_char_typed : forallb (λ c, existsb (λ t, bool_decide (meaning t = Some c)) all_strokes)
  (([8; 9; 10; 27] ++ (Z.of_nat <$> seq 1 26)) ++ (Z.of_nat <$> seq 32 95)) = true.
Proof. vm_compute. reflexivity. Qed.

Lemma types_spec m t c : meaning t = Some c → rests m = true →
  Forall (λ e, is_key (key_of e) = true) (types t) ∧ foldl after m (types t) = m ∧ nonzero (outs_all m (types t)) = [shown m c].
Proof.
  intros Hc Hm. assert (H : types_right m t = true).
  { pose proof (proj1 (forallb_forall _ _) all_types_right m (proj1 (list_elem_of_In _ _) (elem_all_mods m))) as H.
    apply (proj1 (forallb_forall _ _) H), list_elem_of_In. by eapply elem_all_strokes. }
  unfold types_right in H. rewrite Hc, Hm in H. cbn [negb orb] in H.
  rewrite !andb_true_iff, !bool_decide_eq_true, forallb_forall in H. destruct H as [[H1 H2] H3].
  split; [|done]. apply Forall_forall. intros e He%list_elem_of_In. by apply H1.
Qed.

Lemma outs_all_app m es1 es2 : outs_all m (es1 ++ es2) = outs_all m es1 ++ outs_all (foldl after m es1) es2.
Proof. revert m. induction es1 as [|e es1 IH]; intros m; cbn [outs_all app foldl]; [done|]. by rewrite IH, app_assoc. Qed.

Lemma typing_spec ts : ∀ text m, spells ts text → rests m = true →
  Forall (λ e, is_key (key_of e) = true) (typing ts) ∧ foldl after m (typing ts) = m ∧
  nonzero (outs_all m (typing ts)) = shown m <$> text.
Proof.
  unfold typing, nonzero, spells. induction ts as [|t ts IH]; intros text m Ht Hm.
  - injection Ht as <-. by repeat split; constructor.
  - apply mapM_Some in Ht. inversion Ht as [|? c ? text' Hc Hts]; subst. apply mapM_Some in Hts.
    cbn [fmap list_fmap concat].
    destruct (types_spec m t c Hc Hm) as (A1 & A2 & A3). destruct (IH text' m Hts Hm) as (B1 & B2 & B3).
    split; [by apply Forall_app|]. split; [by rewrite foldl_app, A2|]. rewrite outs_all_app, filter_app, A2.
    unfold nonzero in A3. rewrite A3, B3. done.
Qed.

(** The console ignores a 0. *)
Lemma press_nonzero keys : ∀ q, foldl Console.press q (nonzero keys) = foldl Console.press q keys ∧
  Console.echoes q (nonzero keys) = Console.echoes q keys ∧ Console.wake_count q (nonzero keys) = Console.wake_count q keys.
Proof.
  unfold nonzero. induction keys as [|c keys IH]; intros q; [done|]. destruct (decide (c = 0)) as [->|Hc].
  - rewrite filter_cons_False by (by intros ?). apply (IH q).
  - rewrite filter_cons_True by done. cbn [foldl Console.echoes Console.wake_count].
    destruct (IH (Console.press q c)) as (-> & -> & ->). done.
Qed.

(** ** Any codes at all *)

Definition in_range (sh data : Z) : bool :=
  match scan data sh with Ok v sh' => (0 <=? v) && (v <? 256) && (0 <=? sh') && (sh' <? 128) | _ => false end.
Lemma all_in_range : forallb (λ sh, forallb (in_range sh) (Z.of_nat <$> seq 0 256)) (Z.of_nat <$> seq 0 128) = true.
Proof. vm_compute. reflexivity. Qed.
Lemma elem_below (n : nat) z : 0 <= z < Z.of_nat n → In z (Z.of_nat <$> seq 0 n).
Proof. intros Hz. apply list_elem_of_In, list_elem_of_fmap. exists (Z.to_nat z). rewrite elem_of_seq. lia. Qed.
Lemma scan_range sh data : 0 <= sh < 128 → 0 <= data < 256 → ∃ v sh', scan data sh = Ok v sh' ∧ 0 <= v < 256 ∧ 0 <= sh' < 128.
Proof.
  intros Hs Hd. pose proof (proj1 (forallb_forall _ _) all_in_range sh (elem_below 128 sh Hs)) as H.
  pose proof (proj1 (forallb_forall _ _) H data (elem_below 256 data Hd)) as H'. unfold in_range in H'.
  destruct (scan data sh) as [v sh'| | |]; try done. exists v, sh'. rewrite !andb_true_iff, !Z.leb_le, !Z.ltb_lt in H'. by destruct H' as [[[? ?] ?] ?].
Qed.
Lemma scans_range l : ∀ sh, 0 <= sh < 128 → Forall (λ c, 0 <= c < 256) l →
  ∃ vs sh', scans l sh = Ok vs sh' ∧ length vs = length l ∧ Forall (λ v, 0 <= v < 256) vs ∧ 0 <= sh' < 128.
Proof.
  induction l as [|c l IH]; intros sh Hs Hl; [by exists [], sh|]. apply Forall_cons in Hl as [Hc Hl].
  destruct (scan_range sh c Hs Hc) as (v & sh1 & E1 & R1 & R2). destruct (IH sh1 R2 Hl) as (vs & sh2 & E2 & N & R3 & R4).
  exists (v :: vs), sh2. cbn [scans length]. unfold mbind, M_mbind, M_bind. rewrite E1, E2, N. split; [done|]. split; [done|]. split; [by constructor|done].
Qed.

(** ** Theorems *)

(** C32: the driver is well typed on any input.  From any state of its seven
    modifier bits and for any codes at all, well formed or not, the keyboard
    interrupt reads every code, never indexes past a table, keeps its state in
    seven bits, and hands the console one byte per code: the console ends as
    [consoleintr] leaves it on those bytes. *)
Theorem kbdintr_typed {D} `{Keyboard D} (s : ics (kst D)) q : 0 <= shift (drv s) < 128 → Forall (λ c, 0 <= c < 256) (codes (dev (drv s))) →
  Console.ring (Console.inp (cons s)) q → Console.sane (cons s) → Kern.quiet (Console.kn (cons s)) →
  ∃ keys k s', kbdintr s = Ok k s' ∧ codes (dev (drv s')) = [] ∧ 0 <= shift (drv s') < 128 ∧
    length keys = length (codes (dev (drv s))) ∧ Forall (λ c, 0 <= c < 256) keys ∧
    Console.consoleintr keys (cons s) = Ok k (cons s').
Proof.
  intros Hsh Hl Hr Hs Hk. destruct (scans_range _ _ Hsh Hl) as (vs & sh' & E & N & Rv & Rs).
  destruct (wp_total (Console.consoleintr vs) (λ _ _, True) (cons s)) as (k & c' & Ek & _); [by apply (Console.wp_consoleintr _ q)|].
  destruct (kbdintr_spec s vs sh' k c' E Rv Ek) as (d & E' & Hd). by exists vs, k, (mkics (mkkst d sh') c').
Qed.

(** The driver follows the keys.  Whatever keys are pressed and released, in
    whatever order, [kbdgetc] returns a byte for every code the keyboard sends
    and never reads past a table: after the codes its seven bits of state say,
    for shift, control and alt, whether the last stroke of one of that
    modifier's keys was a press, and for each lock whether it was pressed an odd
    number of times; the escape bit is clear.  Each press gives the character of
    the table the modifiers select, with letters in the other case under caps
    lock, and every other code gives 0. *)
Theorem kbd_follows_keys es m : Forall (λ e, is_key (key_of e) = true) es →
  scans (concat (sends <$> es)) (mask m) = Ok (outs_all m es) (mask (foldl after m es)) ∧
  Forall (λ v, 0 <= v < 256) (outs_all m es).
Proof. apply scans_events. Qed.

(** C31: typed text reaches the console.  When the codes waiting are those of
    key strokes on a US keyboard that spell a text, starting with no shift,
    control or alt key down (letters and signs with either shift key, control
    characters with either control key, the keypad), the keyboard interrupt
    returns with no code left and the modifiers as they were, and the console
    has received exactly the text, with its letters in the other case if caps
    lock is on: its lines, what it echoes and whom it wakes are as if the
    characters had been handed to it. *)
Theorem typed_text_arrives {D} `{Keyboard D} (s : ics (kst D)) ts text m q :
  spells ts text → rests m = true →
  codes (dev (drv s)) = concat (sends <$> typing ts) → shift (drv s) = mask m →
  Console.ring (Console.inp (cons s)) q → Console.sane (cons s) → Kern.quiet (Console.kn (cons s)) →
  ∃ k s', kbdintr s = Ok k s' ∧ codes (dev (drv s')) = [] ∧ shift (drv s') = mask m ∧
    Console.ring (Console.inp (cons s')) (foldl Console.press q (shown m <$> text)) ∧
    Console.sane (cons s') ∧ Kern.quiet (Console.kn (cons s')) ∧
    Console.handled (Console.echoes q (shown m <$> text)) (Console.wake_count q (shown m <$> text)) (cons s) (cons s').
Proof.
  intros Ht Hm Hc Hsh Hr Hs Hk. destruct (typing_spec ts text m Ht Hm) as (T1 & T2 & T3).
  destruct (scans_events (typing ts) m T1) as [E1 E2]. rewrite T2 in E1. rewrite <-T3.
  destruct (press_nonzero (outs_all m (typing ts)) q) as (-> & -> & ->).
  destruct (wp_total (Console.consoleintr (outs_all m (typing ts))) (λ k c', 
    Console.ring (Console.inp c') (foldl Console.press q (outs_all m (typing ts))) ∧ Console.sane c' ∧ Kern.quiet (Console.kn c') ∧
    Console.handled (Console.echoes q (outs_all m (typing ts))) (Console.wake_count q (outs_all m (typing ts))) (cons s) c') (cons s))
    as (k & c' & Ek & R).
  { by apply (Console.wp_consoleintr _ q). }
  destruct (kbdintr_spec s (outs_all m (typing ts)) (mask m) k c') as (d & E & Hd); [by rewrite Hc, Hsh|done|done|].
  exists k, (mkics (mkkst d (mask m)) c'). done.
Qed.

(** ** A controller: the codes that wait *)

Definition byte_code (b : Byte.byte) : Z := Z.of_N (Byte.to_N b).
Lemma byte_code_range b : 0 <= byte_code b < 256.
Proof. unfold byte_code. pose proof (Byte.to_N_bounded b). lia. Qed.

Definition queue_in (port : Z) (d : list Byte.byte) : Z * list Byte.byte :=
  if port =? KBDATAP then match d with [] => (0, []) | c :: l => (byte_code c, l) end
  else if port =? KBSTATP then (match d with [] => 0 | _ => 1 end, d) else (0, d).
Lemma queue_in_range port d : 0 <= (queue_in port d).1 < 256.
Proof.
  unfold queue_in. destruct (port =? KBDATAP).
  - destruct d; cbn [fst]; [lia|]. apply byte_code_range.
  - destruct (port =? KBSTATP); cbn; [|lia]. destruct d; lia.
Qed.
#[export] Instance queue_ports : Ports (list Byte.byte) := {
  in_byte := queue_in; out_byte _ _ d := d; in_words _ _ d := ([], d); out_words _ _ d := d; in_byte_range := queue_in_range
}.
#[export] Instance queue_keyboard : Keyboard (list Byte.byte).
Proof.
  refine {| codes := fmap byte_code |}.
  - intros d. by destruct d.
  - done.
  - intros d c l E. destruct d as [|b d]; [done|]. injection E as <- <-. done.
Defined.

(** H with the right shift key, i, control-A and return, on an idle console. *)
Definition hi_codes : list Byte.byte :=
  [Byte.x36; Byte.x23; Byte.xa3; Byte.xb6; Byte.x17; Byte.x97; Byte.x1d; Byte.x1e; Byte.x9e; Byte.x9d; Byte.x1c; Byte.x9c].
Definition hi_strokes : list stroke := [Hit (WithShift true) 0x23; Hit Alone 0x17; Hit (WithControl false) 0x1E; Hit Alone 0x1C].
Definition at_rest : mods := mkmods false false false false true false.
Definition hi_state : ics (kst (list Byte.byte)) := mkics (mkkst hi_codes (mask at_rest)) Console.idle.

Lemma kbd_follows_keys_witness :
  scans [0x1D; 0x2E; 0xAE; 0x9D; 0xE0; 0x48; 0xE0; 0xC8] (mask at_rest) = Ok [0; 3; 0; 0; 0; 0xE2; 0; 0] (mask at_rest) ∧
  Forall (λ v, 0 <= v < 256) [0; 3; 0; 0; 0; 0xE2; 0; 0].
Proof.
  exact (kbd_follows_keys [Press 0x1D; Press 0x2E; Release 0x2E; Release 0x1D; Press 0xC8; Release 0xC8] at_rest
    ltac:(repeat constructor)).
Defined.
Lemma kbdintr_typed_witness : ∃ keys k s', kbdintr hi_state = Ok k s' ∧ codes (dev (drv s')) = [] ∧ 0 <= shift (drv s') < 128 ∧
  length keys = 12%nat ∧ Forall (λ c, 0 <= c < 256) keys ∧ Console.consoleintr keys Console.idle = Ok k (cons s').
Proof.
  exact (kbdintr_typed hi_state (Console.mklines [] []) (conj (Zle_0_nat 16) eq_refl)
    (proj2 (Forall_forall _ _) (λ c Hc, match proj1 (list_elem_of_fmap _ _ _) Hc with ex_intro _ b (conj E _) => eq_ind_r _ (byte_code_range b) E end))
    Console.idle_ring Console.idle_sane eq_refl).
Defined.
Lemma hi_types : codes (dev (drv hi_state)) = concat (sends <$> typing hi_strokes).
Proof. vm_compute. reflexivity. Qed.
Lemma typed_text_arrives_witness : ∃ k s', kbdintr hi_state = Ok k s' ∧ codes (dev (drv s')) = [] ∧ shift (drv s') = mask at_rest ∧
  Console.ring (Console.inp (cons s')) (Console.mklines [72; 105; 1; 10] []) ∧
  Console.sane (cons s') ∧ Kern.quiet (Console.kn (cons s')) ∧
  Console.handled [72; 105; 1; 10] 1 Console.idle (cons s').
Proof.
  exact (typed_text_arrives hi_state hi_strokes [72; 105; 1; 10] at_rest (Console.mklines [] [])
    eq_refl eq_refl hi_types eq_refl Console.idle_ring Console.idle_sane eq_refl).
Defined.

End Kbd.
