(* ===== verification/Irq.v ===== *)
(** * The interrupt controllers (picirq.c, ioapic.c)

    The two 8259A controllers and the I/O APIC are parameters with the behaviour
    their data sheets document: which writes initialise a controller and which
    set its mask, and the index and data registers of the I/O APIC. *)

From S2P Require Import Prelude Ports.
Import Ports.
Local Open Scope Z_scope.

Definition T_IRQ0 : Z := 32.
Definition IRQ_COM1 : Z := 4.

(** Decide the comparisons of port numbers. *)
Ltac which_port := repeat match goal with |- context [Z.eqb ?a ?b] =>
  let r := eval vm_compute in (Z.eqb a b) in first [constr_eq r true | constr_eq r false]; change (Z.eqb a b) with r end; cbv iota.

Module Pic.

Definition IO_PIC1 : Z := 0x20.
Definition IO_PIC2 : Z := 0xA0.
Definition IRQ_SLAVE : Z := 2.

(** One 8259A: the mask, the vector of its first line, and how many
    initialisation words it still expects. *)
Record pic := mkpic { imr : Z; vector : Z; icws : nat }.
(** A write to the command port: ICW1 has bit 4 set. *)
Definition pic_command (v : Z) (p : pic) : pic := if Z.testbit v 4 then mkpic 0 (vector p) 3 else p.
Definition pic_data (v : Z) (p : pic) : pic :=
  match icws p with
  | 3%nat => mkpic (imr p) v 2
  | S n => mkpic (imr p) (vector p) n
  | O => mkpic v (vector p) O
  end.
Class Pics (D : Type) `{Ports D} := {
  pic1 : D → pic;
  pic2 : D → pic;
  pic1_out port v d : pic1 (out_byte port v d) =
    if port =? IO_PIC1 then pic_command v (pic1 d) else if port =? IO_PIC1 + 1 then pic_data v (pic1 d) else pic1 d;
  pic2_out port v d : pic2 (out_byte port v d) =
    if port =? IO_PIC2 then pic_command v (pic2 d) else if port =? IO_PIC2 + 1 then pic_data v (pic2 d) else pic2 d
}.

Section pic.
Context {D : Type} `{Pics D}.
Record pst := mkpst { dev : D; irqmask : Z }.
Definition put_dev (d : D) (s : pst) : pst := mkpst d (irqmask s).
Definition port {A} (m : M D A) : M pst A := zoom dev put_dev m.

(** The initial value of [irqmask]. *)
Definition irqmask0 : Z := Z.land 0xFFFF (u16 (Z.lnot (Z.shiftl 1 IRQ_SLAVE))).

Definition picsetmask (mask : Z) : M pst unit :=
  modify (λ s, mkpst (dev s) mask);;
  port (outb (IO_PIC1 + 1) mask);;
  port (outb (IO_PIC2 + 1) (Z.shiftr mask 8)).
Definition picenable (irq : Z) : M pst unit :=
  m ← gets irqmask;
  picsetmask (u16 (Z.land m (Z.lnot (Z.shiftl 1 irq)))).
Definition picinit : M pst unit :=
  port (outb (IO_PIC1 + 1) 0xFF);;
  port (outb (IO_PIC2 + 1) 0xFF);;
  port (outb IO_PIC1 0x11);;
  port (outb (IO_PIC1 + 1) T_IRQ0);;
  port (outb (IO_PIC1 + 1) (Z.shiftl 1 IRQ_SLAVE));;
  port (outb (IO_PIC1 + 1) 0x3);;
  port (outb IO_PIC2 0x11);;
  port (outb (IO_PIC2 + 1) (T_IRQ0 + 8));;
  port (outb (IO_PIC2 + 1) IRQ_SLAVE);;
  port (outb (IO_PIC2 + 1) 0x3);;
  port (outb IO_PIC1 0x68);;
  port (outb IO_PIC1 0x0a);;
  port (outb IO_PIC2 0x68);;
  port (outb IO_PIC2 0x0a);;
  m ← gets irqmask;
  if negb (m =? 0xFFFF) then picsetmask m else mret tt.

(** The controllers are set up for vectors 32 to 47, and their masks are the two
    halves of [irqmask], which enables the lines of [l]. *)
Record routed (l : list Z) (s : pst) : Prop := {
  rt_vec1 : vector (pic1 (dev s)) = T_IRQ0; rt_vec2 : vector (pic2 (dev s)) = T_IRQ0 + 8;
  rt_idle1 : icws (pic1 (dev s)) = O; rt_idle2 : icws (pic2 (dev s)) = O;
  rt_mask1 : imr (pic1 (dev s)) = u8 (irqmask s); rt_mask2 : imr (pic2 (dev s)) = u8 (Z.shiftr (irqmask s) 8);
  rt_range : 0 <= irqmask s < 65536;
  rt_lines k : 0 <= k < 16 → Z.testbit (irqmask s) k = negb (bool_decide (k ∈ l))
}.

Context `{mode : Mode}.
Lemma wp_port_outb pt v s (Q : unit → pst → Prop) : Q tt (mkpst (out_byte pt (u8 v) (dev s)) (irqmask s)) → wp (port (outb pt v)) Q s.
Proof. intros HQ. by apply wp_zoom, wp_outb. Qed.

Lemma wp_picsetmask l mask s (Q : unit → pst → Prop) : vector (pic1 (dev s)) = T_IRQ0 → vector (pic2 (dev s)) = T_IRQ0 + 8 →
  icws (pic1 (dev s)) = O → icws (pic2 (dev s)) = O → 0 <= mask < 65536 →
  (∀ k, 0 <= k < 16 → Z.testbit mask k = negb (bool_decide (k ∈ l))) → (∀ s', routed l s' → Q tt s') → wp (picsetmask mask) Q s.
Proof.
  intros V1 V2 I1 I2 Hm Hl HQ. unfold picsetmask. apply wp_bind, wp_modify, wp_bind, wp_port_outb, wp_port_outb. apply HQ.
  constructor; cbn [dev irqmask]; rewrite ?pic1_out, ?pic2_out; which_port; unfold pic_data; rewrite ?I1, ?I2; done.
Qed.

Lemma testbit_u16 z k : 0 <= k < 16 → Z.testbit (u16 z) k = Z.testbit z k.
Proof. intros Hk. unfold u16. change 65536 with (2 ^ 16). by rewrite Z.mod_pow2_bits_low by lia. Qed.

Lemma wp_picenable l irq s (Q : unit → pst → Prop) : routed l s → 0 <= irq < 16 → (∀ s', routed (irq :: l) s' → Q tt s') → wp (picenable irq) Q s.
Proof.
  intros [R1 R2 R3 R4 R5 R6 R7 R8] Hi HQ. unfold picenable. apply wp_bind, wp_gets. apply (wp_picsetmask (irq :: l)); try done.
  { unfold u16. apply Z.mod_pos_bound. lia. }
  intros k Hk. rewrite testbit_u16, Z.land_spec, Z.lnot_spec, Z.shiftl_spec, R8 by lia.
  destruct (decide (k = irq)) as [->|Hne].
  - rewrite Z.sub_diag. cbn. rewrite andb_false_r. rewrite bool_decide_true by left. done.
  - assert (Z.testbit 1 (k - irq) = false) as ->.
    { destruct (Z.ltb_spec (k - irq) 0); [by apply Z.testbit_neg_r|]. change 1 with (2 ^ 0). apply Z.pow2_bits_false. lia. }
    cbn [negb]. rewrite andb_true_r. f_equal. apply bool_decide_ext. rewrite elem_of_cons. naive_solver.
Qed.

Lemma wp_picinit s (Q : unit → pst → Prop) : irqmask s = irqmask0 → (∀ s', routed [IRQ_SLAVE] s' → Q tt s') → wp picinit Q s.
Proof.
  intros Hm HQ. unfold picinit. do 14 (apply wp_bind, wp_port_outb). apply wp_bind, wp_gets. cbn [dev irqmask]. rewrite Hm.
  change (negb (irqmask0 =? 65535)) with true. cbv iota.
  assert (Hbits : ∀ k, 0 <= k < 16 → Z.testbit irqmask0 k = negb (bool_decide (k ∈ [IRQ_SLAVE]))).
  { intros k Hk. assert (Hin : In k (Z.of_nat <$> seq 0 16)) by (apply list_elem_of_In, list_elem_of_fmap; exists (Z.to_nat k); rewrite elem_of_seq; lia).
    cbn in Hin. intuition (subst; reflexivity). }
  apply (wp_picsetmask [IRQ_SLAVE]); try done; cbn [dev]; repeat (first [rewrite pic1_out | rewrite pic2_out]; which_port); reflexivity.
Qed.
End pic.
Arguments pst : clear implicits.

(** The lines enabled one after the other. *)
Fixpoint enable_all {D} `{Pics D} (l : list Z) : M (pst D) unit :=
  match l with [] => mret tt | irq :: l => picenable irq;; enable_all l end.

(** Interrupts are routed as enabled.  Whatever state the controllers are in
    (even in the middle of an initialisation), picinit leaves them delivering
    vectors 32 to 47, and after any enabling of lines exactly those lines and
    the slave's are unmasked, in [irqmask] and in the two mask registers. *)
Theorem pic_routes {D} `{Pics D} (s : pst D) l : irqmask s = irqmask0 → Forall (λ irq, 0 <= irq < 16) l →
  ∃ s', (picinit;; enable_all l) s = Ok tt s' ∧ ∃ l', routed l' s' ∧ ∀ k, k ∈ l' ↔ k = IRQ_SLAVE ∨ k ∈ l.
Proof.
  intros Hm Hl. destruct (wp_total (picinit;; enable_all l) (λ _ s', ∃ l', routed l' s' ∧ ∀ k, k ∈ l' ↔ k = IRQ_SLAVE ∨ k ∈ l) s) as ([] & s' & E & Hs'); [|by exists s'].
  apply wp_bind, wp_picinit; [done|]. intros s1 Hr.
  assert (Hgen : ∀ l0 s1, routed l0 s1 → wp (H:=Total) (enable_all l) (λ _ s', ∃ l', routed l' s' ∧ ∀ k, k ∈ l' ↔ k ∈ l0 ∨ k ∈ l) s1).
  { clear -Hl. induction l as [|irq l IH]; intros l0 s1 Hr; cbn [enable_all].
    - apply wp_ret. exists l0. split; [done|]. intros k. rewrite elem_of_nil. tauto.
    - apply Forall_cons in Hl as [Hi Hl]. apply wp_bind, (wp_picenable l0); [done|done|]. intros s2 Hr2.
      eapply wp_mono; [by apply (IH Hl (irq :: l0))|]. intros _ s3 (l' & H1 & H2). exists l'. split; [done|]. intros k. rewrite H2, !elem_of_cons. tauto. }
  eapply wp_mono; [by apply (Hgen [IRQ_SLAVE])|]. intros _ s2 (l' & H1 & H2). exists l'. split; [done|]. intros k. rewrite H2, list_elem_of_singleton. done.
Qed.

(** Two controllers. *)
Definition two_pics : Type := pic * pic.
Definition pics_out (port v : Z) (d : two_pics) : two_pics :=
  (if port =? IO_PIC1 then pic_command v d.1 else if port =? IO_PIC1 + 1 then pic_data v d.1 else d.1,
   if port =? IO_PIC2 then pic_command v d.2 else if port =? IO_PIC2 + 1 then pic_data v d.2 else d.2).
Lemma pics_in_range (port : Z) (d : two_pics) : 0 <= (0, d).1 < 256.
Proof. cbn. lia. Qed.
#[export] Instance pics_ports : Ports two_pics := {
  in_byte _ d := (0, d); out_byte := pics_out; in_words _ _ d := ([], d); out_words _ _ d := d; in_byte_range := pics_in_range
}.
#[export] Instance two_pics_pics : Pics two_pics.
Proof. by refine {| pic1 := fst; pic2 := snd |}. Defined.
Lemma pic_routes_witness : ∃ s', (picinit;; enable_all [4; 14]) (mkpst (mkpic 7 0 3, mkpic 0 9 1) irqmask0) = Ok tt s' ∧
  ∃ l', routed l' s' ∧ ∀ k, k ∈ l' ↔ k = IRQ_SLAVE ∨ k ∈ [4; 14].
Proof.
  apply (pic_routes (mkpst (mkpic 7 0 3, mkpic 0 9 1) irqmask0) [4; 14]); [reflexivity|]. repeat constructor; lia.
Defined.

End Pic.

(** ** The I/O APIC *)

Module Ioapic.

Definition REG_ID : Z := 0x00.
Definition REG_VER : Z := 0x01.
Definition REG_TABLE : Z := 0x10.
Definition INT_DISABLED : Z := 0x00010000.

(** The memory-mapped window: the word at offset 0 selects a register, the word
    at offset 0x10 is that register. *)
Class Window (I : Type) := {
  set_reg : Z → I → I;
  set_data : Z → I → I;
  get_data : I → Z;
  selected : I → Z;
  contents : I → Z → Z;
  set_reg_spec r i : selected (set_reg r i) = r ∧ contents (set_reg r i) = contents i;
  set_data_spec v i : contents (set_data v i) = <[selected i := v]> (contents i) ∧ selected (set_data v i) = selected i;
  get_data_spec i : get_data i = contents i (selected i)
}.

Section ioapic.
Context {I : Type} `{Window I}.
(** What the code reads of mp.c's variables, and whether it has complained. *)
Record ast := mkast { apic : I; ismp : bool; ioapicid : Z; complained : bool }.
Definition put_apic (i : I) (s : ast) : ast := mkast i (ismp s) (ioapicid s) (complained s).

Definition ioapicread (reg : Z) : M ast Z :=
  modify (λ s, put_apic (set_reg reg (apic s)) s);;
  gets (λ s, get_data (apic s)).
Definition ioapicwrite (reg data : Z) : M ast unit :=
  modify (λ s, put_apic (set_reg reg (apic s)) s);;
  modify (λ s, put_apic (set_data data (apic s)) s).

(** [n] lines from [i] on. *)
Fixpoint disable_lines (n : nat) (i : Z) : M ast unit :=
  match n with
  | O => mret tt
  | S n =>
      ioapicwrite (REG_TABLE + 2 * i) (Z.lor INT_DISABLED (T_IRQ0 + i));;
      ioapicwrite (REG_TABLE + 2 * i + 1) 0;;
      disable_lines n (i + 1)
  end.
Definition ioapicinit : M ast unit :=
  mp ← gets ismp;
  if negb mp then mret tt else
  v ← ioapicread REG_VER;
  let maxintr := Z.land (Z.shiftr v 16) 0xFF in
  v ← ioapicread REG_ID;
  let id := Z.shiftr v 24 in
  want ← gets ioapicid;
  (if negb (id =? want) then modify (λ s, mkast (apic s) (ismp s) (ioapicid s) true) else mret tt);;
  disable_lines (Z.to_nat (maxintr + 1)) 0.
Definition ioapicenable (irq cpunum : Z) : M ast unit :=
  mp ← gets ismp;
  if negb mp then mret tt else
  ioapicwrite (REG_TABLE + 2 * irq) (T_IRQ0 + irq);;
  ioapicwrite (REG_TABLE + 2 * irq + 1) (u32 (Z.shiftl cpunum 24)).

(** The redirection entry of line [k]: off, or delivered to a CPU. *)
Definition entry (s : ast) (k : Z) : Z * Z := (contents (apic s) (REG_TABLE + 2 * k), contents (apic s) (REG_TABLE + 2 * k + 1)).
Definition off (k : Z) : Z * Z := (Z.lor INT_DISABLED (T_IRQ0 + k), 0).
Definition to_cpu (k c : Z) : Z * Z := (T_IRQ0 + k, u32 (Z.shiftl c 24)).

Context `{mode : Mode}.
Lemma wp_ioapicwrite r v s (Q : unit → ast → Prop) :
  (∀ s', contents (apic s') = <[r := v]> (contents (apic s)) → ismp s' = ismp s → Q tt s') → wp (ioapicwrite r v) Q s.
Proof.
  intros HQ. unfold ioapicwrite. apply wp_bind, wp_modify, wp_modify. apply HQ; [|done]. cbn.
  destruct (set_reg_spec r (apic s)) as [E1 E2]. destruct (set_data_spec v (set_reg r (apic s))) as [E3 _]. by rewrite E3, E1, E2.
Qed.
(** Writing both words of an entry. *)
Lemma wp_set_entry k a b s (Q : unit → ast → Prop) :
  (∀ s', (∀ j, entry s' j = if j =? k then (a, b) else entry s j) → ismp s' = ismp s → Q tt s') →
  wp (ioapicwrite (REG_TABLE + 2 * k) a;; ioapicwrite (REG_TABLE + 2 * k + 1) b) Q s.
Proof.
  intros HQ. apply wp_bind, wp_ioapicwrite. intros s1 E1 M1. apply wp_ioapicwrite. intros s2 E2 M2. apply HQ; [|congruence].
  intros j. unfold entry. rewrite E2, E1. destruct (Z.eqb_spec j k) as [->|Hne].
  - rewrite fn_lookup_insert_ne, !fn_lookup_insert by lia. done.
  - rewrite !fn_lookup_insert_ne by lia. done.
Qed.
Lemma wp_disable_lines n : ∀ i s (Q : unit → ast → Prop),
  (∀ s', (∀ j, entry s' j = if (i <=? j) && (j <? i + Z.of_nat n) then off j else entry s j) → ismp s' = ismp s → Q tt s') → wp (disable_lines n i) Q s.
Proof.
  induction n as [|n IH]; intros i s Q HQ; cbn [disable_lines].
  - apply wp_ret, HQ; [|done]. intros j. destruct (Z.leb_spec i j), (Z.ltb_spec j (i + Z.of_nat 0)); try done; lia.
  - apply wp_bind, wp_ioapicwrite. intros s1 E1 M1. apply wp_bind, wp_ioapicwrite. intros s2 E2 M2. apply IH. intros s3 E3 M3. apply HQ; [|congruence].
    intros j. rewrite E3. replace (i + 1 + Z.of_nat n) with (i + Z.of_nat (S n)) by lia.
    destruct (Z.leb_spec i j), (Z.leb_spec (i + 1) j); cbn [andb]; try done; try lia.
    + destruct (j <? i + Z.of_nat (S n)); [done|]. unfold entry. rewrite E2, E1, !fn_lookup_insert_ne by lia. done.
    + assert (j = i) as -> by lia. rewrite (proj2 (Z.ltb_lt _ _)) by lia. unfold entry, off. rewrite E2, E1, fn_lookup_insert_ne, !fn_lookup_insert by lia. done.
    + unfold entry. rewrite E2, E1, !fn_lookup_insert_ne by lia. done.
Qed.
End ioapic.
Arguments ast : clear implicits.

(** The I/O APIC is set up.  On a multiprocessor, ioapicinit disables every
    line the controller says it has and touches no other, and ioapicenable then
    delivers exactly the line it is given, at vector 32 plus its number, to the
    CPU it is given; without one, neither does anything. *)
Theorem ioapic_routes {I} `{Window I} (s : ast I) irq cpu :
  let lines := Z.land (Z.shiftr (contents (apic s) REG_VER) 16) 0xFF + 1 in
  0 <= irq < lines →
  ∃ s', (ioapicinit;; ioapicenable irq cpu) s = Ok tt s' ∧ ismp s' = ismp s ∧
    if ismp s then ∀ k, entry s' k = if k =? irq then to_cpu irq cpu else if (0 <=? k) && (k <? lines) then off k else entry s k
    else s' = s.
Proof.
  intros lines Hirq. destruct (wp_total (ioapicinit;; ioapicenable irq cpu) (λ _ s', ismp s' = ismp s ∧
    if ismp s then ∀ k, entry s' k = if k =? irq then to_cpu irq cpu else if (0 <=? k) && (k <? lines) then off k else entry s k
    else s' = s) s) as ([] & s' & E & Hs'); [|by exists s'].
  unfold ioapicinit, ioapicenable. destruct (ismp s) eqn:Em.
  2: { apply wp_bind, wp_bind, wp_gets. rewrite Em. cbn [negb]. apply wp_ret, wp_bind, wp_gets. rewrite Em. cbn [negb]. by apply wp_ret. }
  apply wp_bind, wp_bind, wp_gets. rewrite Em. cbn [negb]. unfold ioapicread.
  apply wp_bind, wp_bind, wp_modify, wp_gets. cbn [apic put_apic]. rewrite get_data_spec.
  destruct (set_reg_spec REG_VER (apic s)) as [-> ->]. fold lines. apply wp_bind, wp_bind, wp_modify, wp_gets. cbn [apic put_apic].
  apply wp_bind, wp_gets, wp_bind. cbn [ioapicid put_apic].
  assert (Hrest : ∀ s1, contents (apic s1) = contents (apic s) → ismp s1 = true →
    wp (H:=Total) (disable_lines (Z.to_nat lines) 0) (λ _ s2, wp (H:=Total) (mp ← gets ismp; if negb mp then mret tt else
      ioapicwrite (REG_TABLE + 2 * irq) (T_IRQ0 + irq);; ioapicwrite (REG_TABLE + 2 * irq + 1) (u32 (Z.shiftl cpu 24)))
      (λ _ s', ismp s' = true ∧ ∀ k, entry s' k = if k =? irq then to_cpu irq cpu else if (0 <=? k) && (k <? lines) then off k else entry s k) s2) s1).
  { intros s1 Hc Hm1. apply wp_disable_lines. intros s2 E2 M2. apply wp_bind, wp_gets. rewrite M2, Hm1. cbn [negb]. apply wp_set_entry. intros s3 E3 M3.
    split; [congruence|]. intros k. rewrite E3, E2, Z2Nat.id, Z.add_0_l by lia. unfold entry. by rewrite Hc. }
  assert (Hk : ∀ a b, contents (set_reg a (set_reg b (apic s))) = contents (apic s)).
  { intros a b. by rewrite (proj2 (set_reg_spec _ _)), (proj2 (set_reg_spec _ _)). }
  destruct (negb _); [apply wp_modify|apply wp_ret]; (refine (Hrest _ _ _); [exact (Hk _ _)|exact Em]).
Qed.

(** A controller. *)
Record chip := mkchip { c_sel : Z; c_regs : Z → Z }.
#[export] Instance chip_window : Window chip.
Proof.
  refine {| set_reg r c := mkchip r (c_regs c); set_data v c := mkchip (c_sel c) (<[c_sel c := v]> (c_regs c));
            get_data c := c_regs c (c_sel c); selected := c_sel; contents := c_regs |}; done.
Defined.
Definition demo : ast chip := mkast (mkchip 0 (λ r, if r =? REG_VER then 0x170011 else 0)) true 0 false.
Lemma ioapic_routes_witness : ∃ s', (ioapicinit;; ioapicenable 14 1) demo = Ok tt s' ∧ ismp s' = true ∧
  ∀ k, entry s' k = if k =? 14 then (46, 0x1000000) else if (0 <=? k) && (k <? 24) then off k else entry demo k.
Proof. exact (ioapic_routes demo 14 1 ltac:(vm_compute; split; [discriminate|reflexivity])). Defined.

End Ioapic.
