(* ===== verification/Uart.v ===== *)
(** * The serial port (uart.c)

    The 8250 is a parameter with its documented registers: while the divisor
    latch is open (bit 7 of the line control register) the first two ports are
    the divisor, otherwise they are the data and the interrupt-enable register.
    A character may be sent when the line status shows the transmitter empty,
    which it does after at most 128 looks. *)

From S2P Require Import Prelude Kern Cga Console ConsIntr Ports Irq.
Import Ports.
Local Open Scope Z_scope.

Module Uart.

Definition COM1 : Z := 0x3f8.

(** What the registers hold, what was sent and what waits to be read. *)
Record uview := mkuview { lcr : Z; dll : Z; dlm : Z; ier : Z; sent : list Z; recv : list Z }.
Definition latch (u : uview) : bool := Z.testbit (lcr u) 7.
Definition uart_out (port v : Z) (u : uview) : uview :=
  if port =? COM1 + 0 then
    if latch u then mkuview (lcr u) v (dlm u) (ier u) (sent u) (recv u)
    else mkuview (lcr u) (dll u) (dlm u) (ier u) (sent u ++ [v]) (recv u)
  else if port =? COM1 + 1 then
    if latch u then mkuview (lcr u) (dll u) v (ier u) (sent u) (recv u)
    else mkuview (lcr u) (dll u) (dlm u) v (sent u) (recv u)
  else if port =? COM1 + 3 then mkuview v (dll u) (dlm u) (ier u) (sent u) (recv u)
  else u.
Definition took (u : uview) : uview := mkuview (lcr u) (dll u) (dlm u) (ier u) (sent u) (tail (recv u)).

Class Serial (D : Type) `{Ports D} := {
  view : D → uview;
  txwait : D → nat;
  tx_bound d : (txwait d <= 128)%nat;
  write_reg port v d : (port = COM1 → latch (view d) = false → txwait d = O) → view (out_byte port v d) = uart_out port v (view d);
  read_status d : view (in_byte (COM1 + 5) d).2 = view d ∧ txwait (in_byte (COM1 + 5) d).2 = pred (txwait d) ∧
    (in_byte (COM1 + 5) d).1 ≠ 0xFF ∧
    (Z.land (in_byte (COM1 + 5) d).1 0x20 =? 0) = negb (bool_decide (txwait d = O)) ∧
    (Z.land (in_byte (COM1 + 5) d).1 0x01 =? 0) = bool_decide (recv (view d) = []);
  read_ident d : view (in_byte (COM1 + 2) d).2 = view d;
  read_data d : latch (view d) = false → view (in_byte (COM1 + 0) d).2 = took (view d) ∧
    ∀ c l, recv (view d) = c :: l → (in_byte (COM1 + 0) d).1 = c
}.

Section uart.
Context {D I : Type} `{HP : Ports D} `{HS : !Serial D} `{HI : !Pic.Pics D} `{HW : Ioapic.Window I}.

(** The port, with the interrupt controllers the driver programs. *)
Record ust := mkust { irq : Pic.pst D; apic : Ioapic.ast I; uart : bool }.
Definition put_irq (p : Pic.pst D) (s : ust) : ust := mkust p (apic s) (uart s).
Definition put_apic (a : Ioapic.ast I) (s : ust) : ust := mkust (irq s) a (uart s).
Definition port {A} (m : M D A) : M ust A := zoom irq put_irq (Pic.port m).

(** The polling loop of [uartputc]; [microdelay] does nothing. *)
Fixpoint wait_tx (n : nat) : M ust unit :=
  match n with
  | O => mret tt
  | S n => st ← port (inb (COM1 + 5)); if negb (Z.land st 0x20 =? 0) then mret tt else wait_tx n
  end.
Definition uartputc (c : Z) : M ust unit :=
  u ← gets uart;
  if negb u then mret tt else
  wait_tx 128;;
  port (outb (COM1 + 0) c).
Fixpoint uartputs (l : list Z) : M ust unit :=
  match l with [] => mret tt | c :: l => uartputc c;; uartputs l end.

(** "xv6..." and a newline. *)
Definition banner : list Z := [120; 118; 54; 46; 46; 46; 10].
Definition uartinit : M ust unit :=
  port (outb (COM1 + 2) 0);;
  port (outb (COM1 + 3) 0x80);;
  port (outb (COM1 + 0) (115200 / 9600));;
  port (outb (COM1 + 1) 0);;
  port (outb (COM1 + 3) 0x03);;
  port (outb (COM1 + 4) 0);;
  port (outb (COM1 + 1) 0x01);;
  st ← port (inb (COM1 + 5));
  if st =? 0xFF then mret tt else
  modify (λ s, mkust (irq s) (apic s) true);;
  port (inb (COM1 + 2));;
  port (inb (COM1 + 0));;
  zoom irq put_irq (Pic.picenable IRQ_COM1);;
  zoom apic put_apic (Ioapic.ioapicenable IRQ_COM1 0);;
  uartputs banner.

Definition uartgetc : M ust Z :=
  u ← gets uart;
  if negb u then mret (-1) else
  st ← port (inb (COM1 + 5));
  if Z.land st 0x01 =? 0 then mret (-1) else
  port (inb (COM1 + 0)).

(** The fuel is the number of characters that wait. *)
Definition uartintr : M (ConsIntr.ics ust) Console.wants :=
  n ← gets (λ s, length (recv (view (Pic.dev (irq (ConsIntr.drv s))))));
  ConsIntr.consoleintr uartgetc n.

(** ** What the driver does to the port *)

Definition dev (s : ust) : D := Pic.dev (irq s).
Definition vw (s : ust) : uview := view (dev s).

Context `{mode : Mode}.
Lemma wp_uout pt v s (Q : unit → ust → Prop) : (pt = COM1 → latch (vw s) = false → txwait (dev s) = O) →
  (∀ s', vw s' = uart_out pt (u8 v) (vw s) → uart s' = uart s → Q tt s') → wp (port (outb pt v)) Q s.
Proof. intros Hw HQ. apply wp_zoom, wp_zoom, wp_outb. apply HQ; [|done]. by apply write_reg. Qed.
Lemma wp_status s (Q : Z → ust → Prop) : (∀ v s', vw s' = vw s → uart s' = uart s → txwait (dev s') = pred (txwait (dev s)) → v ≠ 0xFF →
    (Z.land v 0x20 =? 0) = negb (bool_decide (txwait (dev s) = O)) → (Z.land v 0x01 =? 0) = bool_decide (recv (vw s) = []) → Q v s') →
  wp (port (inb (COM1 + 5))) Q s.
Proof. intros HQ. apply wp_zoom, wp_zoom, wp_inb. destruct (read_status (dev s)) as (R1 & R2 & R3 & R4 & R5). by apply HQ. Qed.

(** The loop ends with the transmitter empty. *)
Lemma wp_wait_tx n : ∀ s (Q : unit → ust → Prop), (txwait (dev s) <= n)%nat →
  (∀ s', vw s' = vw s → uart s' = uart s → txwait (dev s') = O → Q tt s') → wp (wait_tx n) Q s.
Proof.
  induction n as [|n IH]; intros s Q Hn HQ; cbn [wait_tx]; [by apply wp_ret, HQ; [..|lia]|].
  apply wp_bind, wp_status. intros v s1 V1 U1 T1 _ B1 _. rewrite B1, negb_involutive. case_bool_decide as E.
  - apply wp_ret, HQ; [done|done|]. by rewrite T1, E.
  - apply IH; [lia|]. intros s' V2 U2 T2. apply HQ; congruence.
Qed.
Definition add_sent (l : list Z) (u : uview) : uview := mkuview (lcr u) (dll u) (dlm u) (ier u) (sent u ++ l) (recv u).
Lemma wp_uartputc c s (Q : unit → ust → Prop) : latch (vw s) = false →
  (∀ s', vw s' = (if uart s then add_sent [u8 c] (vw s) else vw s) → uart s' = uart s → Q tt s') → wp (uartputc c) Q s.
Proof.
  intros Hl HQ. unfold uartputc. apply wp_bind, wp_gets. destruct (uart s) eqn:Eu; cbn [negb]; [|by apply wp_ret, HQ].
  apply wp_bind, wp_wait_tx; [apply tx_bound|]. intros s1 V1 U1 T1. apply wp_uout; [done|]. intros s2 V2 U2. apply HQ; [|congruence].
  rewrite V2, V1. unfold uart_out. which_port. by rewrite Hl.
Qed.
Lemma wp_uartputs l : ∀ s (Q : unit → ust → Prop), latch (vw s) = false → uart s = true →
  (∀ s', vw s' = add_sent (u8 <$> l) (vw s) → uart s' = true → Q tt s') → wp (uartputs l) Q s.
Proof.
  induction l as [|c l IH]; intros s Q Hl Hu HQ; cbn [uartputs].
  - apply wp_ret, HQ; [|done]. unfold add_sent. cbn. rewrite app_nil_r. by destruct (vw s).
  - apply wp_bind, wp_uartputc; [done|]. rewrite Hu. intros s1 V1 U1. apply IH; [by rewrite V1|congruence|]. intros s2 V2 U2.
    apply HQ; [|done]. rewrite V2, V1. unfold add_sent. cbn. by rewrite <-app_assoc.
Qed.
(** The interrupt controllers are other devices. *)
Lemma wp_picenable_other k s (Q : unit → ust → Prop) : (∀ s', vw s' = vw s → uart s' = uart s → Q tt s') → wp (zoom irq put_irq (Pic.picenable k)) Q s.
Proof.
  intros HQ. apply wp_zoom. unfold Pic.picenable, Pic.picsetmask. apply wp_bind, wp_gets, wp_bind, wp_modify, wp_bind, Pic.wp_port_outb, Pic.wp_port_outb.
  apply HQ; [|done]. unfold vw, dev. cbn [Pic.dev irq put_irq]. rewrite !write_reg by done. unfold uart_out. by which_port.
Qed.
Lemma wp_ioapicenable_other k c s (Q : unit → ust → Prop) : (∀ s', vw s' = vw s → uart s' = uart s → Q tt s') → wp (zoom apic put_apic (Ioapic.ioapicenable k c)) Q s.
Proof.
  intros HQ. apply wp_zoom. unfold Ioapic.ioapicenable. apply wp_bind, wp_gets. destruct (negb _); [by apply wp_ret, HQ|].
  apply wp_bind, Ioapic.wp_ioapicwrite. intros a1 _ _. apply Ioapic.wp_ioapicwrite. intros a2 _ _. by apply HQ.
Qed.
End uart.
Arguments ust : clear implicits.

(** ** Theorems *)

(** The serial port is set up.  Whatever state the port is in, uartinit sets
    9600 baud (divisor 12), eight data bits and receive interrupts, writes
    nothing to the line while the divisor is open, and then sends the banner and
    nothing else, waiting for the transmitter each time; the driver knows that
    the port is there, and at most one stale character is dropped from the
    input. *)
Theorem uartinit_sets_up {D I} `{HP : Ports D} `{HS : !Serial D} `{HI : !Pic.Pics D} `{HW : Ioapic.Window I} (s : ust D I) :
  ∃ s', uartinit s = Ok tt s' ∧ uart s' = true ∧ latch (vw s') = false ∧ lcr (vw s') = 3 ∧ dll (vw s') = 12 ∧ dlm (vw s') = 0 ∧
    ier (vw s') = 1 ∧ sent (vw s') = sent (vw s) ++ banner ∧ recv (vw s') = tail (recv (vw s)).
Proof.
  destruct (wp_total uartinit (λ _ s', uart s' = true ∧ latch (vw s') = false ∧ lcr (vw s') = 3 ∧ dll (vw s') = 12 ∧ dlm (vw s') = 0 ∧
    ier (vw s') = 1 ∧ sent (vw s') = sent (vw s) ++ banner ∧ recv (vw s') = tail (recv (vw s))) s) as ([] & s' & E & Hs'); [|by exists s'].
  unfold uartinit. apply wp_bind, wp_uout; [done|]. intros s1 V1 _. apply wp_bind, wp_uout; [done|]. intros s2 V2 _.
  apply wp_bind, wp_uout; [by rewrite V2|]. intros s3 V3 _. apply wp_bind, wp_uout; [done|]. intros s4 V4 _. apply wp_bind, wp_uout; [done|].
  intros s5 V5 _. apply wp_bind, wp_uout; [done|]. intros s6 V6 _. apply wp_bind, wp_uout; [done|]. intros s7 V7 _.
  assert (V : vw s7 = mkuview 3 12 0 1 (sent (vw s)) (recv (vw s))).
  { rewrite V7, V6, V5, V4, V3, V2, V1. reflexivity. }
  clear V1 V2 V3 V4 V5 V6 V7. apply wp_bind, wp_status. intros st s8 V8 _ _ Hff _ _. rewrite (proj2 (Z.eqb_neq _ _) Hff).
  apply wp_bind, wp_modify. apply wp_bind, wp_zoom, wp_zoom, wp_inb. apply wp_bind, wp_zoom, wp_zoom, wp_inb. set (s9 := put_irq _ _).
  assert (V9 : vw s9 = took (vw s7)).
  { pose proof (read_ident (dev s8)) as Hd. change (view (dev s8)) with (vw s8) in Hd.
    change (vw s9) with (view (in_byte (COM1 + 0) (in_byte (COM1 + 2) (dev s8)).2).2).
    destruct (read_data (in_byte (COM1 + 2) (dev s8)).2) as [R _]; [by rewrite Hd, V8, V|]. by rewrite R, Hd, V8. }
  assert (U9 : uart s9 = true) by done. clearbody s9.
  apply wp_bind, wp_picenable_other. intros s10 V10 U10. apply wp_bind, wp_ioapicenable_other. intros s11 V11 U11.
  assert (Vb : vw s11 = mkuview 3 12 0 1 (sent (vw s)) (tail (recv (vw s)))) by (by rewrite V11, V10, V9, V).
  apply wp_uartputs; [by rewrite Vb|congruence|]. intros s12 V12 U12. by rewrite V12, Vb.
Qed.

Section transfer.
Context {D I : Type} `{HP : Ports D} `{HS : !Serial D} `{HI : !Pic.Pics D} `{HW : Ioapic.Window I}.
Implicit Types s : ust D I.

Lemma uartgetc_spec s : latch (vw s) = false → ∃ s', uartgetc s = Ok (if uart s then match recv (vw s) with [] => -1 | c :: _ => c end else -1) s' ∧
  vw s' = (if uart s then took (vw s) else vw s) ∧ uart s' = uart s.
Proof.
  intros Hl. destruct (wp_total uartgetc (λ r s', r = (if uart s then match recv (vw s) with [] => -1 | c :: _ => c end else -1) ∧
    vw s' = (if uart s then took (vw s) else vw s) ∧ uart s' = uart s) s) as (r & s' & E & -> & Hs'); [|by exists s'].
  unfold uartgetc. apply wp_bind, wp_gets. destruct (uart s) eqn:Eu; cbn [negb]; [|by apply wp_ret].
  apply wp_bind, wp_status. intros v s1 V1 U1 _ _ _ B1. rewrite B1. case_bool_decide as E.
  + apply wp_ret. rewrite V1, E. split; [done|]. split; [|congruence]. unfold took. rewrite E. by destruct (vw s); cbn in *; subst.
  + apply wp_zoom, wp_zoom, wp_inb. destruct (read_data (dev s1)) as [R1 R2]; [change (latch (vw s1) = false); by rewrite V1|].
    destruct (recv (vw s)) as [|c' l] eqn:Er; [done|]. split; [apply (R2 c' l); change (recv (vw s1) = c' :: l); by rewrite V1|]. split; [|by rewrite <-Eu, <-U1].
    change (view (in_byte (COM1 + 0) (dev s1)).2 = took (vw s)). rewrite R1. change (view (dev s1)) with (vw s1). by rewrite V1.
Qed.
Lemma uartgetc_returns l : ∀ s, uart s = true → latch (vw s) = false → recv (vw s) = l → Forall (λ c, 0 <= c < 256) l →
  ∃ s', ConsIntr.returns uartgetc l s s' ∧ vw s' = mkuview (lcr (vw s)) (dll (vw s)) (dlm (vw s)) (ier (vw s)) (sent (vw s)) [] ∧ uart s' = true.
Proof.
  induction l as [|c l IH]; intros s Hu Hl Hr Hb; destruct (uartgetc_spec s Hl) as (s1 & E & V1 & U1); rewrite Hu, Hr in E; rewrite Hu in *.
  - exists s1. split; [by eapply ConsIntr.ret_end|]. split; [|done]. rewrite V1. unfold took. by rewrite Hr.
  - apply Forall_cons in Hb as [Hc Hb]. destruct (IH s1) as (s2 & R2 & V2 & U2); [done|by rewrite V1|by rewrite V1; cbn; rewrite Hr|done|].
    exists s2. split; [eapply ConsIntr.ret_key; [exact E|lia|done]|]. split; [|done]. by rewrite V2, V1.
Qed.
End transfer.

(** Characters go out and come in.  On a port that is set up, uartputc sends
    its character (cut to a byte) and nothing else, and uartgetc returns the
    oldest character that was received, or -1 when there is none; without a
    port, uartputc does nothing and uartgetc returns -1. *)
Theorem uart_transfers {D I} `{HP : Ports D} `{HS : !Serial D} `{HI : !Pic.Pics D} `{HW : Ioapic.Window I} (s : ust D I) c : latch (vw s) = false →
  (∃ s', uartputc c s = Ok tt s' ∧ vw s' = if uart s then add_sent [u8 c] (vw s) else vw s) ∧
  (∃ s', uartgetc s = Ok (if uart s then match recv (vw s) with [] => -1 | c :: _ => c end else -1) s' ∧
     vw s' = if uart s then took (vw s) else vw s).
Proof.
  intros Hl. split.
  - destruct (wp_total (uartputc c) (λ _ s', vw s' = if uart s then add_sent [u8 c] (vw s) else vw s) s) as ([] & s' & E & Hs'); [|by exists s'].
    by apply wp_uartputc.
  - destruct (uartgetc_spec s Hl) as (s' & E & V & _). by exists s'.
Qed.

(** What the serial line receives is typed.  The interrupt hands the console
    every character that was received, in order, and leaves none; the console
    ends as its handler leaves it on those characters. *)
Theorem uartintr_delivers {D I} `{HP : Ports D} `{HS : !Serial D} `{HI : !Pic.Pics D} `{HW : Ioapic.Window I} (s : ust D I) c q :
  uart s = true → latch (vw s) = false → Forall (λ c, 0 <= c < 256) (recv (vw s)) →
  Console.ring (Console.inp c) q → Console.sane c → Kern.quiet (Console.kn c) →
  ∃ k s' c', uartintr (ConsIntr.mkics s c) = Ok k (ConsIntr.mkics s' c') ∧ recv (vw s') = [] ∧ sent (vw s') = sent (vw s) ∧
    Console.consoleintr (recv (vw s)) c = Ok k c'.
Proof.
  intros Hu Hl Hb Hr Hs Hk. destruct (uartgetc_returns (recv (vw s)) s Hu Hl eq_refl Hb) as (s' & R & V & _).
  destruct (wp_total (Console.consoleintr (recv (vw s))) (λ _ _, True) c) as (k & c' & Ek & _); [by apply (Console.wp_consoleintr _ q)|].
  exists k, s', c'. rewrite V. split; [|done]. by apply (ConsIntr.consoleintr_spec _ (recv (vw s))).
Qed.

(** ** A board with a serial port and two interrupt controllers *)

Record board := mkboard { b_pics : Pic.two_pics; b_uart : uview; b_wait : nat }.
Definition b_txwait (d : board) : nat := b_wait d `min` 128.
Definition b_status (d : board) : Z :=
  (if bool_decide (b_txwait d = O) then 0x20 else 0) + (match recv (b_uart d) with [] => 0 | _ => 1 end).
Definition board_in (port : Z) (d : board) : Z * board :=
  if port =? COM1 + 5 then (b_status d, mkboard (b_pics d) (b_uart d) (pred (b_txwait d)))
  else if port =? COM1 + 0 then
    if latch (b_uart d) then (0, d)
    else (match recv (b_uart d) with [] => 0 | c :: _ => u8 c end, mkboard (b_pics d) (took (b_uart d)) (b_wait d))
  else (0, d).
(** Received characters are bytes. *)
Definition clean (u : uview) : uview := mkuview (lcr u) (dll u) (dlm u) (ier u) (sent u) (u8 <$> recv u).
Definition board_out (port v : Z) (d : board) : board :=
  mkboard (Pic.pics_out port v (b_pics d)) (uart_out port v (b_uart d)) (if port =? COM1 then 3 else b_wait d).
Lemma board_in_range port d : 0 <= (board_in port d).1 < 256.
Proof.
  unfold board_in, b_status. destruct (port =? COM1 + 5); cbn [fst]; [repeat case_match; lia|].
  destruct (port =? COM1 + 0); [|cbn [fst]; lia]. destruct (latch (b_uart d)); cbn [fst]; [lia|]. destruct (recv (b_uart d)); [lia|]. apply Z.mod_pos_bound. lia.
Qed.
#[export] Instance board_ports : Ports board := {
  in_byte := board_in; out_byte := board_out; in_words _ _ d := ([], d); out_words _ _ d := d; in_byte_range := board_in_range
}.
#[export] Instance board_pics : Pic.Pics board.
Proof. by refine {| Pic.pic1 d := (b_pics d).1; Pic.pic2 d := (b_pics d).2 |}. Defined.
#[export] Instance board_serial : Serial board.
Proof.
  assert (Hclean : ∀ pt v u, clean (uart_out pt v u) = uart_out pt v (clean u)).
  { intros pt v u. unfold uart_out, latch. cbn [lcr clean]. by destruct (pt =? COM1 + 0), (pt =? COM1 + 1), (pt =? COM1 + 3), (Z.testbit (lcr u) 7). }
  refine {| view d := clean (b_uart d); txwait := b_txwait |}; cbn [in_byte out_byte board_ports].
  - intros d. unfold b_txwait. lia.
  - intros pt v d _. apply Hclean.
  - intros d. unfold board_in. which_port. cbn [fst snd b_uart]. unfold b_status. split; [done|]. split; [unfold b_txwait; cbn; lia|].
    split; [by repeat case_match|]. case_bool_decide; cbn [clean recv]; by destruct (recv (b_uart d)).
  - done.
  - intros d Hl. unfold board_in. which_port. assert (latch (b_uart d) = false) as -> by exact Hl. cbn [fst snd b_uart]. split.
    + unfold clean, took. cbn. by destruct (recv (b_uart d)).
    + intros c l E. cbn [clean recv] in E. by destruct (recv (b_uart d)); [done|injection E as <- _].
Defined.

#[local] Existing Instance Ioapic.chip_window.
Definition demo : ust board Ioapic.chip :=
  mkust (Pic.mkpst (mkboard (Pic.mkpic 251 32 0, Pic.mkpic 255 40 0) (mkuview 0 0 0 0 [] [65; 66; 67]) 200) 0xFFFB) Ioapic.demo false.
Lemma uartinit_sets_up_witness : ∃ s', uartinit demo = Ok tt s' ∧ uart s' = true ∧ latch (vw s') = false ∧ lcr (vw s') = 3 ∧ dll (vw s') = 12 ∧ dlm (vw s') = 0 ∧
  ier (vw s') = 1 ∧ sent (vw s') = banner ∧ recv (vw s') = [66; 67].
Proof. exact (uartinit_sets_up demo). Defined.
Definition demo_on : ust board Ioapic.chip := mkust (irq demo) (apic demo) true.
Lemma uart_transfers_witness : (∃ s', uartputc 346 demo_on = Ok tt s' ∧ vw s' = add_sent [90] (vw demo_on)) ∧
  (∃ s', uartgetc demo_on = Ok 65 s' ∧ vw s' = took (vw demo_on)).
Proof. exact (uart_transfers demo_on 346 eq_refl). Defined.
Lemma uartintr_delivers_witness : ∃ k s' c', uartintr (ConsIntr.mkics demo_on Console.idle) = Ok k (ConsIntr.mkics s' c') ∧ recv (vw s') = [] ∧
  sent (vw s') = [] ∧ Console.consoleintr [65; 66; 67] Console.idle = Ok k c'.
Proof.
  exact (uartintr_delivers demo_on Console.idle (Console.mklines [] []) eq_refl eq_refl
    ltac:(vm_compute; repeat (constructor; [split; [discriminate|reflexivity]|]); constructor)
    Console.idle_ring Console.idle_sane eq_refl).
Defined.

End Uart.
