(* ===== verification/Lapic.v ===== *)
(** * The local APIC and the timer (lapic.c, timer.c)

    The registers of the local APIC of the running CPU are a parameter: most of
    them keep what is written, a write to the low word of the interrupt command
    register sends a command to the CPU that the high word names, and its
    delivery status reads as busy for a while.  How a CPU answers the commands
    that start it is [receive]: INIT stops it, and the first STARTUP after that
    makes it run at the page whose number the command holds.

    The clock of lapic.c is in file Date. *)

From S2P Require Import Prelude Ports Irq.
Import Ports.
Local Open Scope Z_scope.

Module Lapic.

Definition ID : Z := 0x0020 / 4.
Definition VER : Z := 0x0030 / 4.
Definition TPR : Z := 0x0080 / 4.
Definition EOI : Z := 0x00B0 / 4.
Definition SVR : Z := 0x00F0 / 4.
Definition ENABLE : Z := 0x00000100.
Definition ESR : Z := 0x0280 / 4.
Definition ICRLO : Z := 0x0300 / 4.
Definition INIT : Z := 0x00000500.
Definition STARTUP : Z := 0x00000600.
Definition DELIVS : Z := 0x00001000.
Definition ASSERT : Z := 0x00004000.
Definition LEVEL : Z := 0x00008000.
Definition BCAST : Z := 0x00080000.
Definition ICRHI : Z := 0x0310 / 4.
Definition TIMER : Z := 0x0320 / 4.
Definition X1 : Z := 0x0000000B.
Definition PERIODIC : Z := 0x00020000.
Definition PCINT : Z := 0x0340 / 4.
Definition LINT0 : Z := 0x0350 / 4.
Definition LINT1 : Z := 0x0360 / 4.
Definition ERROR : Z := 0x0370 / 4.
Definition MASKED : Z := 0x00010000.
Definition TICR : Z := 0x0380 / 4.
Definition TDCR : Z := 0x03E0 / 4.
Definition IRQ_TIMER : Z := 0.
Definition IRQ_ERROR : Z := 19.
Definition IRQ_SPURIOUS : Z := 31.
Definition TPS : Z := 1000.
Definition CMOS_PORT : Z := 0x70.
Definition KERNBASE : Z := 0x80000000.

(** Registers whose value is what was written last. *)
Definition keeps (r : Z) : bool := bool_decide (r ∈ [TPR; SVR; ICRHI; TIMER; PCINT; LINT0; LINT1; ERROR; TICR; TDCR]).
Class LocalApic (L : Type) := {
  rd : Z → L → Z * L;
  wr : Z → Z → L → L;
  reg : L → Z → Z;
  (** The id of the CPU and the number of the last entry of its vector table. *)
  my_id : L → Z;
  max_lvt : L → Z;
  (** The commands sent, high and low word, the polls until the last one is
      delivered, and the interrupts acknowledged. *)
  sent : L → list (Z * Z);
  busy : L → nat;
  acks : L → nat;
  rd_id l : 0 <= my_id l < 256 ∧ (rd ID l).1 / 2 ^ 24 = my_id l ∧ (rd ID l).2 = l;
  rd_ver l : Z.land (Z.shiftr (rd VER l).1 16) 0xFF = max_lvt l ∧ (rd VER l).2 = l;
  rd_icrlo l : (Z.land (rd ICRLO l).1 DELIVS = 0 ↔ busy l = O) ∧ busy (rd ICRLO l).2 = pred (busy l) ∧
    reg (rd ICRLO l).2 = reg l ∧ my_id (rd ICRLO l).2 = my_id l ∧ max_lvt (rd ICRLO l).2 = max_lvt l ∧
    sent (rd ICRLO l).2 = sent l ∧ acks (rd ICRLO l).2 = acks l;
  wr_reg i v l r : reg (wr i v l) r = if (r =? i) && keeps i then v else reg l r;
  wr_id i v l : my_id (wr i v l) = my_id l ∧ max_lvt (wr i v l) = max_lvt l;
  wr_sent i v l : sent (wr i v l) = if i =? ICRLO then sent l ++ [(reg l ICRHI, v)] else sent l;
  wr_busy i v l : i ≠ ICRLO → busy (wr i v l) = busy l;
  wr_acks i v l : acks (wr i v l) = if i =? EOI then S (acks l) else acks l
}.

Section lapic.
Context {D L : Type} `{Pic.Pics D} `{LocalApic L}.

(** [lapic] is null without a local APIC.  [mem] is memory by kernel address;
    [called] counts the calls of [cpunum] with interrupts enabled. *)
Record ast := mkast { irq : Pic.pst D; lapic : option L; mem : Z → Z; called : Z; complaints : nat }.
Definition put_irq (p : Pic.pst D) (s : ast) : ast := mkast p (lapic s) (mem s) (called s) (complaints s).
Definition put_lapic (l : option L) (s : ast) : ast := mkast (irq s) l (mem s) (called s) (complaints s).
Definition put_mem (m : Z → Z) (s : ast) : ast := mkast (irq s) (lapic s) m (called s) (complaints s).
Definition port {A} (m : M D A) : M ast A := zoom irq put_irq (Pic.port m).

(** [lapic[index]], read and written. *)
Definition load (index : Z) : M ast Z :=
  p ← gets lapic;
  l ← deref p;
  modify (put_lapic (Some (rd index l).2));;
  mret (rd index l).1.
Definition store (index value : Z) : M ast unit :=
  p ← gets lapic;
  l ← deref p;
  modify (put_lapic (Some (wr index (u32 value) l))).
Definition lapicw (index value : Z) : M ast unit :=
  store index value;;
  load ID;;
  mret tt.

(** [while(lapic[ICRLO] & DELIVS)] *)
Fixpoint wait_delivered (fuel : nat) : M ast unit :=
  v ← load ICRLO;
  if Z.land v DELIVS =? 0 then mret tt else
  match fuel with O => hang | S fuel => wait_delivered fuel end.

Definition lapicinit : M ast unit :=
  p ← gets lapic;
  match p with
  | None => mret tt
  | Some _ =>
      lapicw SVR (Z.lor ENABLE (T_IRQ0 + IRQ_SPURIOUS));;
      lapicw TDCR X1;;
      lapicw TIMER (Z.lor PERIODIC (T_IRQ0 + IRQ_TIMER));;
      lapicw TICR (1000000000 / TPS);;
      lapicw LINT0 MASKED;;
      lapicw LINT1 MASKED;;
      v ← load VER;
      when (4 <=? Z.land (Z.shiftr v 16) 0xFF) (lapicw PCINT MASKED);;
      lapicw ERROR (T_IRQ0 + IRQ_ERROR);;
      lapicw ESR 0;;
      lapicw ESR 0;;
      lapicw EOI 0;;
      lapicw ICRHI 0;;
      lapicw ICRLO (Z.lor (Z.lor BCAST INIT) LEVEL);;
      p ← gets lapic;
      wait_delivered (match p with Some l => busy l | None => O end);;
      lapicw TPR 0
  end.

(** [cpunum], with the interrupt flag of the CPU. *)
Definition cpunum (fl_if : bool) : M ast Z :=
  when fl_if
    (n ← gets called;
     modify (λ s, mkast (irq s) (lapic s) (mem s) (i32 (n + 1)) (if n =? 0 then S (complaints s) else complaints s)));;
  p ← gets lapic;
  match p with
  | Some _ => v ← load ID; mret (Z.shiftr v 24)
  | None => mret 0
  end.

Definition lapiceoi : M ast unit :=
  p ← gets lapic;
  match p with Some _ => lapicw EOI 0 | None => mret tt end.

Definition microdelay (us : Z) : M ast unit := mret tt.

Definition put16 (a v : Z) (m : Z → Z) : Z → Z := λ x, if x =? a then u8 v else if x =? a + 1 then u8 (Z.shiftr v 8) else m x.
(** Warm reset vector. *)
Definition wrv : Z := Z.lor (Z.shiftl 0x40 4) 0x67 + KERNBASE.

Fixpoint send_startup (n : nat) (apicid addr : Z) : M ast unit :=
  match n with
  | O => mret tt
  | S n =>
      lapicw ICRHI (Z.shiftl apicid 24);;
      lapicw ICRLO (Z.lor STARTUP (Z.shiftr addr 12));;
      microdelay 200;;
      send_startup n apicid addr
  end.
Definition lapicstartap (apicid addr : Z) : M ast unit :=
  port (outb CMOS_PORT 0xF);;
  port (outb (CMOS_PORT + 1) 0x0A);;
  modify (λ s, put_mem (put16 wrv 0 (mem s)) s);;
  modify (λ s, put_mem (put16 (wrv + 2) (Z.shiftr addr 4) (mem s)) s);;
  lapicw ICRHI (Z.shiftl apicid 24);;
  lapicw ICRLO (Z.lor (Z.lor INIT LEVEL) ASSERT);;
  microdelay 200;;
  lapicw ICRLO (Z.lor INIT LEVEL);;
  microdelay 100;;
  send_startup 2 apicid addr.

(** *** timer.c *)
Definition IO_TIMER1 : Z := 0x040.
Definition TIMER_FREQ : Z := 1193182.
Definition TIMER_DIV (x : Z) : Z := (TIMER_FREQ + x / 2) / x.
Definition TIMER_MODE : Z := IO_TIMER1 + 3.
Definition TIMER_SEL0 : Z := 0x00.
Definition TIMER_RATEGEN : Z := 0x04.
Definition TIMER_16BIT : Z := 0x30.
Definition timerinit : M ast unit :=
  port (outb TIMER_MODE (Z.lor (Z.lor TIMER_SEL0 TIMER_RATEGEN) TIMER_16BIT));;
  port (outb IO_TIMER1 (TIMER_DIV TPS mod 256));;
  port (outb IO_TIMER1 (TIMER_DIV TPS / 256));;
  zoom irq put_irq (Pic.picenable IRQ_TIMER).
End lapic.
Arguments ast : clear implicits.

(** ** Setting up *)

(** Decide which register is which. *)
Ltac which_reg := repeat match goal with
  | |- context [?a =? ?b] => let r := eval vm_compute in (a =? b) in first [constr_eq r true | constr_eq r false]; change (a =? b) with r
  | |- context [keeps ?a] => let r := eval vm_compute in (keeps a) in first [constr_eq r true | constr_eq r false]; change (keeps a) with r
  end; cbn [andb]; cbv iota.

Section setup.
Context {D L : Type} `{HP : Ports D} `{HD : !Pic.Pics D} `{HL : LocalApic L} `{mode : Mode}.
Implicit Types (s : ast D L) (l : L).

Lemma wp_load i l s (Q : Z → ast D L → Prop) : lapic s = Some l → Q (rd i l).1 (put_lapic (Some (rd i l).2) s) → wp (load i) Q s.
Proof. intros E HQ. unfold load. apply wp_bind, wp_gets. rewrite E. by apply wp_bind, wp_deref, wp_bind, wp_modify, wp_ret. Qed.
Lemma wp_lapicw i v l s (Q : unit → ast D L → Prop) : lapic s = Some l → Q tt (put_lapic (Some (wr i (u32 v) l)) s) → wp (lapicw i v) Q s.
Proof.
  intros E HQ. unfold lapicw, store. apply wp_bind, wp_bind, wp_gets. rewrite E. apply wp_bind, wp_deref, wp_modify, wp_bind.
  eapply wp_load; [done|]. apply wp_ret. by rewrite (proj2 (proj2 (rd_id _))).
Qed.
Lemma wp_when_lapicw (b : bool) i v l s (Q : unit → ast D L → Prop) : lapic s = Some l →
  Q tt (put_lapic (Some (if b then wr i (u32 v) l else l)) s) → wp (when b (lapicw i v)) Q s.
Proof. intros E HQ. apply wp_when. destruct b; [by eapply wp_lapicw|]. destruct s. cbn in E. by rewrite E. Qed.

Lemma wp_wait_delivered n : ∀ l s (Q : unit → ast D L → Prop), lapic s = Some l → (busy l <= n)%nat →
  (∀ l', reg l' = reg l → my_id l' = my_id l → max_lvt l' = max_lvt l → sent l' = sent l → acks l' = acks l → busy l' = O → Q tt (put_lapic (Some l') s)) →
  wp (wait_delivered n) Q s.
Proof.
  induction n as [|n IH]; intros l s Q E Hn HQ; cbn [wait_delivered]; apply wp_bind; (eapply wp_load; [done|]);
    destruct (rd_icrlo l) as (Hz & Hb & H1 & H2 & H3 & H4 & H5); destruct (Z.eqb_spec (Z.land (rd ICRLO l).1 DELIVS) 0) as [Hd|Hd].
  - apply wp_ret, HQ; try done. rewrite Hb. apply Hz in Hd. by rewrite Hd.
  - destruct Hd. apply Hz. lia.
  - apply wp_ret, HQ; try done. rewrite Hb. apply Hz in Hd. by rewrite Hd.
  - eapply IH; [done|rewrite Hb; lia|]. intros l'. rewrite H1, H2, H3, H4, H5. apply HQ.
Qed.

(** The registers that [lapicinit] sets. *)
Definition setup : list (Z * Z) :=
  [(SVR, Z.lor ENABLE 63); (TDCR, X1); (TIMER, Z.lor PERIODIC 32); (TICR, 1000000); (LINT0, MASKED); (LINT1, MASKED); (ERROR, 51); (ICRHI, 0); (TPR, 0)].
Record ready l l' : Prop := {
  rd_set r v : (r, v) ∈ setup → reg l' r = v;
  rd_pcint : reg l' PCINT = if 4 <=? max_lvt l then MASKED else reg l PCINT;
  rd_sync : sent l' = sent l ++ [(0, Z.lor (Z.lor BCAST INIT) LEVEL)];
  rd_done : busy l' = O;
  rd_acked : acks l' = S (acks l);
  rd_same : my_id l' = my_id l
}.
Lemma wp_lapicinit l s (Q : unit → ast D L → Prop) : lapic s = Some l → (∀ l', ready l l' → Q tt (put_lapic (Some l') s)) → wp lapicinit Q s.
Proof.
  intros E HQ. unfold lapicinit. apply wp_bind, wp_gets. rewrite E. do 6 (apply wp_bind; eapply wp_lapicw; [done|]).
  apply wp_bind. eapply wp_load; [done|]. rewrite (proj1 (rd_ver _)), (proj2 (rd_ver _)).
  apply wp_bind. eapply wp_when_lapicw; [done|]. set (b := 4 <=? _). do 6 (apply wp_bind; eapply wp_lapicw; [done|]).
  apply wp_bind, wp_gets. cbn [lapic put_lapic]. apply wp_bind. eapply wp_wait_delivered; [done|done|].
  intros l1 H1 H2 H3 H4 H5 H6. eapply wp_lapicw; [done|].
  assert (Hb : b = (4 <=? max_lvt l)) by (unfold b; by rewrite !(λ i v l, proj2 (wr_id i v l))). clearbody b.
  change (put_lapic (Some (wr TPR (u32 0) l1)) _) with (put_lapic (Some (wr TPR (u32 0) l1)) s). apply HQ. constructor.
  - intros r v Hr. repeat (apply elem_of_cons in Hr as [[= -> ->]|Hr]); [..|by apply elem_of_nil in Hr].
    all: rewrite wr_reg, H1; clear -b; destruct b; repeat (rewrite wr_reg; which_reg); reflexivity.
  - rewrite wr_reg, H1, <-Hb. destruct b; repeat (rewrite wr_reg; which_reg); reflexivity.
  - rewrite wr_sent, H4. destruct b; repeat (first [rewrite wr_sent | rewrite wr_reg]; which_reg); reflexivity.
  - by rewrite wr_busy, H6.
  - rewrite wr_acks, H5. destruct b; repeat (rewrite wr_acks; which_reg); reflexivity.
  - rewrite !(λ i v l, proj1 (wr_id i v l)), H2, !(λ i v l, proj1 (wr_id i v l)). destruct b; by rewrite !(λ i v l, proj1 (wr_id i v l)).
Qed.
End setup.

(** ** Starting another CPU *)

Inductive cpu := Waiting | Running (addr : Z) | Other.
(** What a command does to the CPU with id [id]: the destination is the high
    word's unless a shorthand (bits 18 and 19) says all. *)
Definition reaches (id : Z) (m : Z * Z) : bool := negb (Z.land (Z.shiftr m.2 18) 3 =? 0) || (Z.shiftr m.1 24 =? id).
Definition receive (id : Z) (c : cpu) (m : Z * Z) : cpu :=
  if reaches id m then
    let delivery := Z.land (Z.shiftr m.2 8) 7 in
    if delivery =? 5 then (if Z.testbit m.2 14 then Waiting else c)
    else if delivery =? 6 then match c with Waiting => Running (Z.shiftl (Z.land m.2 0xFF) 12) | _ => c end
    else c
  else c.
Definition startup_cmds (apicid addr : Z) : list (Z * Z) :=
  let hi := Z.shiftl apicid 24 in let go := Z.lor STARTUP (Z.shiftr addr 12) in
  [(hi, Z.lor (Z.lor INIT LEVEL) ASSERT); (hi, Z.lor INIT LEVEL); (hi, go); (hi, go)].

Definition page_right (page : Z) : bool :=
  let go := Z.lor STARTUP page in
  (Z.land (Z.shiftr go 18) 3 =? 0) && (Z.land (Z.shiftr go 8) 7 =? 6) && (Z.land go 0xFF =? page) && (u32 go =? go).
Lemma pages_right : forallb page_right (Z.of_nat <$> seq 0 256) = true.
Proof. vm_compute. reflexivity. Qed.
Lemma page_spec page : 0 <= page < 256 → page_right page = true.
Proof.
  intros Hp. eapply forallb_forall; [apply pages_right|]. apply list_elem_of_In, list_elem_of_fmap. exists (Z.to_nat page). rewrite elem_of_seq. lia.
Qed.
Lemma shiftl_id a : 0 <= a < 256 → Z.shiftr (Z.shiftl a 24) 24 = a ∧ u32 (Z.shiftl a 24) = Z.shiftl a 24.
Proof.
  intros Ha. split; [by rewrite Z.shiftr_shiftl_l, Z.shiftl_0_r by lia|]. unfold u32. rewrite Z.shiftl_mul_pow2 by lia. apply Z.mod_small. unfold w32. lia.
Qed.

(** The commands start the CPU at [addr], whatever it was doing, and no other. *)
Lemma startup_starts apicid addr : 0 <= apicid < 256 → 0 <= addr < 2 ^ 20 → addr mod 4096 = 0 →
  (∀ c, foldl (receive apicid) c (startup_cmds apicid addr) = Running addr) ∧
  (∀ id c, id ≠ apicid → foldl (receive id) c (startup_cmds apicid addr) = c).
Proof.
  intros Ha Hd Hm. assert (Hp : 0 <= Z.shiftr addr 12 < 256) by (rewrite Z.shiftr_div_pow2 by lia; split; [apply Z.div_pos|apply Z.div_lt_upper_bound]; lia).
  pose proof (page_spec _ Hp) as H. unfold page_right in H. apply andb_true_iff in H as [[[H1 H2]%andb_true_iff H3]%andb_true_iff _].
  apply Z.eqb_eq in H2. apply Z.eqb_eq in H3. destruct (shiftl_id apicid Ha) as [Hs _]. unfold startup_cmds, receive, reaches. split.
  - intros c. cbn [foldl fst snd]. rewrite Hs, Z.eqb_refl, H2, H3, !orb_true_r. cbn.
    f_equal. rewrite Z.shiftl_mul_pow2, Z.shiftr_div_pow2 by lia. pose proof (Z.div_mod addr 4096). change (2 ^ 12) with 4096. lia.
  - intros id c Hne. cbn [foldl fst snd]. rewrite H1, Hs. rewrite (proj2 (Z.eqb_neq apicid id)) by lia. done.
Qed.

(** *** The interval timer *)

(** Counter 0 of the 8253: its mode, the low byte of a count that is being
    loaded, and the count it divides its frequency by. *)
Record pit := mkpit { p_mode : Z; p_low : option Z; p_count : option Z }.
Definition pit_out (port v : Z) (p : pit) : pit :=
  if port =? TIMER_MODE then
    (if (Z.shiftr v 6 =? 0) && (Z.land (Z.shiftr v 4) 3 =? 3) then mkpit (Z.land (Z.shiftr v 1) 7) None None else p)
  else if port =? IO_TIMER1 then
    match p_low p with None => mkpit (p_mode p) (Some v) (p_count p) | Some lo => mkpit (p_mode p) None (Some (lo + 256 * v)) end
  else p.
Lemma pit_out_other port v p : port ≠ TIMER_MODE → port ≠ IO_TIMER1 → pit_out port v p = p.
Proof. intros H1 H2. unfold pit_out. by rewrite !(proj2 (Z.eqb_neq _ _)) by done. Qed.
Class Pit (D : Type) `{Ports D} := { pit_of : D → pit; pit_of_out port v d : pit_of (out_byte port v d) = pit_out port v (pit_of d) }.

Lemma routed_other {D} `{Pic.Pics D} l (s : Pic.pst D) port v : port ∉ [Pic.IO_PIC1; Pic.IO_PIC1 + 1; Pic.IO_PIC2; Pic.IO_PIC2 + 1] →
  Pic.routed l s → Pic.routed l (Pic.mkpst (out_byte port v (Pic.dev s)) (Pic.irqmask s)).
Proof.
  intros Hp [? ? ? ? ? ? ? ?]. rewrite !not_elem_of_cons in Hp. destruct Hp as (H1 & H2 & H3 & H4 & _).
  constructor; cbn [Pic.dev Pic.irqmask]; rewrite ?Pic.pic1_out, ?Pic.pic2_out, ?(proj2 (Z.eqb_neq _ _)) by done; done.
Qed.

Definition ld16 (m : Z → Z) (a : Z) : Z := m a + 256 * m (a + 1).
Lemma reset_vector m addr : 0 <= addr < 2 ^ 20 → addr mod 4096 = 0 →
  let m' := put16 (wrv + 2) (Z.shiftr addr 4) (put16 wrv 0 m) in
  16 * ld16 m' (wrv + 2) + ld16 m' wrv = addr ∧ ∀ a, a < wrv ∨ wrv + 4 <= a → m' a = m a.
Proof.
  intros Hd Hm m'. split.
  - unfold ld16, m', put16. which_port. rewrite !Z.shiftr_div_pow2 by lia. unfold u8. change (2 ^ 4) with 16. change (2 ^ 8) with 256.
    change (2 ^ 20) with 1048576 in Hd.
    pose proof (Z.div_mod (addr / 16) 256). pose proof (Z.div_mod addr 16). pose proof (Z.div_mod addr 4096).
    assert (0 <= addr / 16 / 256 < 256) by (split; [apply Z.div_pos; [apply Z.div_pos|]|apply Z.div_lt_upper_bound; [|apply Z.div_lt_upper_bound]]; lia).
    rewrite (Z.mod_small (addr / 16 / 256)) by done. rewrite (Z.div_0_l 256), Z.mod_0_l by lia. 
    assert (addr mod 16 = 0) by (apply Z.mod_divide; [lia|]; exists (256 * (addr / 4096)); lia). lia.
  - intros a Ha. unfold m', put16. by rewrite !(proj2 (Z.eqb_neq _ _)) by lia.
Qed.

(** ** Theorems *)

(** A CPU's local APIC is ready after lapicinit.  The timer counts down from
    a millionth of the bus clock's 10^9, again and again, and interrupts at
    vector 32; the local lines, and the performance counter where there is one,
    are masked; errors and spurious interrupts have their vectors; pending
    interrupts are acknowledged, the synchronisation command is delivered, and
    every priority is accepted.  Without a local APIC nothing happens. *)
Theorem lapicinit_sets_up {D L} `{HP : Ports D} `{HD : !Pic.Pics D} `{HL : LocalApic L} (s : ast D L) :
  match lapic s with
  | Some l => ∃ l', lapicinit s = Ok tt (put_lapic (Some l') s) ∧ ready l l'
  | None => lapicinit s = Ok tt s
  end.
Proof.
  destruct (lapic s) as [l|] eqn:E; [|unfold lapicinit, mbind, M_mbind, M_bind, gets; by rewrite E].
  destruct (wp_total (lapicinit (D:=D)) (λ _ s', ∃ l', s' = put_lapic (Some l') s ∧ ready l l') s) as ([] & s' & E' & l' & -> & Hr); [|by exists l'].
  eapply (wp_lapicinit (mode:=Total)); [done|]. eauto.
Qed.

(** Lapicstartap starts the CPU it names.  For a page below one megabyte, the
    commands sent make the CPU [apicid] run at that page whatever it was doing
    before (the second STARTUP does not disturb it), reach no other CPU, and the
    warm reset vector points at the page too. *)
Theorem lapicstartap_starts {D L} `{HP : Ports D} `{HD : !Pic.Pics D} `{HL : LocalApic L} (s : ast D L) l apicid addr :
  lapic s = Some l → 0 <= apicid < 256 → 0 <= addr < 2 ^ 20 → addr mod 4096 = 0 →
  ∃ s' l' cmds, lapicstartap apicid addr s = Ok tt s' ∧ lapic s' = Some l' ∧ sent l' = sent l ++ cmds ∧
    (∀ c, foldl (receive apicid) c cmds = Running addr) ∧ (∀ id c, id ≠ apicid → foldl (receive id) c cmds = c) ∧
    16 * ld16 (mem s') (wrv + 2) + ld16 (mem s') wrv = addr ∧ ∀ a, a < wrv ∨ wrv + 4 <= a → mem s' a = mem s a.
Proof.
  intros E Ha Hd Hm. destruct (startup_starts apicid addr Ha Hd Hm) as [Hc Ho].
  destruct (wp_total (lapicstartap apicid addr) (λ _ s', ∃ l', lapic s' = Some l' ∧ sent l' = sent l ++ startup_cmds apicid addr ∧
    16 * ld16 (mem s') (wrv + 2) + ld16 (mem s') wrv = addr ∧ ∀ a, a < wrv ∨ wrv + 4 <= a → mem s' a = mem s a) s)
    as ([] & s' & E' & l' & H1 & H2 & H3 & H4); [|by exists s', l', (startup_cmds apicid addr)].
  unfold lapicstartap. do 2 (apply wp_bind, wp_zoom, Pic.wp_port_outb). do 2 (apply wp_bind, wp_modify).
  do 2 (apply wp_bind; eapply wp_lapicw; [done|]). apply wp_bind, wp_ret. apply wp_bind. eapply wp_lapicw; [done|]. apply wp_bind, wp_ret.
  cbn [send_startup]. do 2 (do 2 (apply wp_bind; eapply wp_lapicw; [done|]); apply wp_bind, wp_ret). apply wp_ret.
  eexists. split; [done|]. cbn [mem put_mem put_lapic put_irq]. split; [|by apply reset_vector].
  assert (Hp : 0 <= Z.shiftr addr 12 < 256) by (rewrite Z.shiftr_div_pow2 by lia; split; [apply Z.div_pos|apply Z.div_lt_upper_bound]; lia).
  pose proof (page_spec _ Hp) as Hpg. unfold page_right in Hpg. apply andb_true_iff in Hpg as [_ Hu%Z.eqb_eq].
  rewrite (proj2 (shiftl_id apicid Ha)), Hu. repeat (first [rewrite wr_sent | rewrite wr_reg]; which_reg). cbn [lapic]. by rewrite <-!app_assoc.
Qed.

(** The interval timer ticks at the rate of types.h.  timerinit makes counter
    0 a rate generator whose count, its two bytes loaded in order, divides the
    timer's frequency into TPS ticks a second up to rounding, and enables its
    interrupt besides those that were. *)
Theorem timerinit_ticks {D L} `{HP : Ports D} `{HD : !Pic.Pics D} `{HT : !Pit D} (s : ast D L) lines : Pic.routed lines (irq s) →
  ∃ s' n, timerinit s = Ok tt s' ∧ pit_of (Pic.dev (irq s')) = mkpit 2 None (Some n) ∧ 0 < n < 65536 ∧
    Z.abs (n * TPS - TIMER_FREQ) <= TPS / 2 ∧ Pic.routed (IRQ_TIMER :: lines) (irq s').
Proof.
  intros Hr. destruct (wp_total timerinit (λ _ s', pit_of (Pic.dev (irq s')) = mkpit 2 None (Some 1193) ∧ Pic.routed (IRQ_TIMER :: lines) (irq s')) s)
    as ([] & s' & E & H1 & H2); [|exists s', 1193; split; [done|]; split; [done|]; split; [lia|]; split; [by vm_compute|done]].
  unfold timerinit. do 3 (apply wp_bind, wp_zoom, Pic.wp_port_outb). apply wp_zoom. cbn [irq put_irq]. set (p := Pic.mkpst _ _).
  assert (Hp : Pic.routed lines p) by (unfold p; repeat (apply routed_other; [vm_compute; set_solver|]); done).
  assert (Ht : pit_of (Pic.dev p) = mkpit 2 None (Some 1193)).
  { unfold p. cbn [Pic.dev]. rewrite !pit_of_out. generalize (pit_of (Pic.dev (irq s))). clear. intros q. vm_compute. reflexivity. }
  apply wp_both; [|by eapply (Pic.wp_picenable (mode:=Total)); [exact Hp|unfold IRQ_TIMER; lia|]].
  unfold Pic.picenable, Pic.picsetmask. apply wp_bind, wp_gets, wp_bind, wp_modify, wp_bind, Pic.wp_port_outb, Pic.wp_port_outb.
  cbn [Pic.dev irq put_irq]. by rewrite !pit_of_out, Ht, !pit_out_other.
Qed.

(** ** A machine *)

Definition board : Type := Pic.two_pics * pit.
Definition board_out (port v : Z) (d : board) : board := (Pic.pics_out port v d.1, pit_out port v d.2).
Lemma board_range (port : Z) (d : board) : 0 <= (0, d).1 < 256.
Proof. cbn. lia. Qed.
#[export] Instance board_ports : Ports board := {
  in_byte _ d := (0, d); out_byte := board_out; in_words _ _ d := ([], d); out_words _ _ d := d; in_byte_range := board_range
}.
#[export] Instance board_pics : Pic.Pics board.
Proof. by refine {| Pic.pic1 d := d.1.1; Pic.pic2 d := d.1.2 |}. Defined.
#[export] Instance board_pit : Pit board.
Proof. by refine {| pit_of := snd |}. Defined.

(** A local APIC with id 2 and six vectors, that delivers a command in 3 polls. *)
Record chip := mkchip { c_reg : Z → Z; c_sent : list (Z * Z); c_busy : nat; c_acks : nat }.
Definition chip_rd (i : Z) (l : chip) : Z * chip :=
  if i =? ICRLO then (if decide (c_busy l = O) then 0 else DELIVS, mkchip (c_reg l) (c_sent l) (pred (c_busy l)) (c_acks l))
  else (if i =? ID then Z.shiftl 2 24 else if i =? VER then 0x50014 else c_reg l i, l).
Definition chip_wr (i v : Z) (l : chip) : chip :=
  mkchip (λ r, if (r =? i) && keeps i then v else c_reg l r) (if i =? ICRLO then c_sent l ++ [(c_reg l ICRHI, v)] else c_sent l)
    (if i =? ICRLO then 3%nat else c_busy l) (if i =? EOI then S (c_acks l) else c_acks l).
#[export] Instance chip_apic : LocalApic chip.
Proof.
  refine {| rd := chip_rd; wr := chip_wr; reg := c_reg; my_id _ := 2; max_lvt _ := 5; sent := c_sent; busy := c_busy; acks := c_acks |}; try done.
  - intros l. unfold chip_rd. which_port. split; [|done]. cbn [fst]. by destruct (decide _).
  - intros i v l Hi. unfold chip_wr. cbn [c_busy]. by rewrite (proj2 (Z.eqb_neq _ _)).
Defined.

Definition demo : ast board chip :=
  mkast (Pic.mkpst ((Pic.mkpic 251 32 0, Pic.mkpic 255 40 0), mkpit 0 None None) Pic.irqmask0) (Some (mkchip (λ _, 7) [] 0 0)) (λ _, 0) 0 0.

Lemma lapicstartap_starts_witness : ∃ s' l' cmds, lapicstartap 3 0x7000 demo = Ok tt s' ∧ lapic s' = Some l' ∧ sent l' = cmds ∧
  (∀ c, foldl (receive 3) c cmds = Running 0x7000) ∧ (∀ id c, id ≠ 3 → foldl (receive id) c cmds = c) ∧
  16 * ld16 (mem s') (wrv + 2) + ld16 (mem s') wrv = 0x7000 ∧ ∀ a, a < wrv ∨ wrv + 4 <= a → mem s' a = mem demo a.
Proof.
  pose proof (lapicstartap_starts demo (mkchip (λ _, 7) [] 0 0) 3 0x7000 eq_refl ltac:(lia) ltac:(lia) eq_refl) as H.
  cbn [sent] in H. exact H.
Defined.

Lemma timerinit_ticks_witness : ∃ s' n, timerinit demo = Ok tt s' ∧ pit_of (Pic.dev (irq s')) = mkpit 2 None (Some n) ∧ 0 < n < 65536 ∧
  Z.abs (n * TPS - TIMER_FREQ) <= TPS / 2 ∧ Pic.routed [IRQ_TIMER; Pic.IRQ_SLAVE] (irq s').
Proof.
  apply (timerinit_ticks demo [Pic.IRQ_SLAVE]). constructor; try reflexivity; [cbn; unfold Pic.irqmask0; vm_compute; split; congruence|].
  intros k Hk. assert (Hin : In k (Z.of_nat <$> seq 0 16)) by (apply list_elem_of_In, list_elem_of_fmap; exists (Z.to_nat k); rewrite elem_of_seq; lia).
  cbn in Hin. intuition (subst; reflexivity).
Defined.

End Lapic.
