(* ===== verification/Mp.v ===== *)
(** * Finding the processors (mp.c, mp.h)

    mpinit looks for the BIOS's floating pointer structure in three places,
    follows it to the configuration table, checks signatures and checksums, and
    walks the table's entries to count the processors.  Memory below is by
    physical address and does not change meanwhile; the interrupt mode register
    is reached through the ports. *)

From S2P Require Import Prelude Ports.
Import Ports.
Local Open Scope Z_scope.

Module Mp.

Definition NCPU : nat := 8.
Definition MPPROC : Z := 0x00.
Definition MPBUS : Z := 0x01.
Definition MPIOAPIC : Z := 0x02.
Definition MPIOINTR : Z := 0x03.
Definition MPLINTR : Z := 0x04.
Definition MPBOOT : Z := 0x02.
(** sizeof of the structures *)
Definition SZ_MP : Z := 16.
Definition SZ_MPCONF : Z := 44.
Definition SZ_MPPROC : Z := 20.
Definition SZ_MPIOAPIC : Z := 8.

(** What mpinit prints. *)
Inductive msg := Mismatch (ncpu apicid : Z) | UnknownType (t : Z).

Section mp.
Context (mem : Z → Z).

(** [n] bytes from [a] on. *)
Definition bytes_at (a : Z) (n : nat) : list Z := (λ k, mem (a + Z.of_nat k)) <$> seq 0 n.
Definition ld16 (a : Z) : Z := mem a + 256 * mem (a + 1).
Definition ld32 (a : Z) : Z := ld16 a + 65536 * ld16 (a + 2).

(** The sum of [len] bytes, as a uchar. *)
Definition sum (a : Z) (len : Z) : Z := u8 (foldl (λ s x, i32 (s + x)) 0 (bytes_at a (Z.to_nat len))).

Definition mp_signature : list Z := [95; 77; 80; 95].
Definition conf_signature : list Z := [80; 67; 77; 80].

(** [k] structures are left to look at. *)
Fixpoint mpsearch_from (k : nat) (p : Z) : option Z :=
  match k with
  | O => None
  | S k => if bool_decide (bytes_at p 4 = mp_signature) && (sum p SZ_MP =? 0) then Some p else mpsearch_from k (p + SZ_MP)
  end.
Definition mpsearch1 (a len : Z) : option Z := mpsearch_from (Z.to_nat ((len + SZ_MP - 1) / SZ_MP)) a.

Definition mpsearch : option Z :=
  let p := Z.shiftl (Z.lor (Z.shiftl (mem (0x400 + 0x0F)) 8) (mem (0x400 + 0x0E))) 4 in
  let rest := mpsearch1 0xF0000 0x10000 in
  if negb (p =? 0) then match mpsearch1 p 1024 with Some mp => Some mp | None => rest end
  else
    let p := Z.lor (Z.shiftl (mem (0x400 + 0x14)) 8) (mem (0x400 + 0x13)) * 1024 in
    match mpsearch1 (u32 (p - 1024)) 1024 with Some mp => Some mp | None => rest end.

Definition mp_physaddr (mp : Z) : Z := ld32 (mp + 4).
Definition mp_imcrp (mp : Z) : Z := mem (mp + 12).
Definition conf_length (conf : Z) : Z := ld16 (conf + 4).
Definition conf_version (conf : Z) : Z := mem (conf + 6).
Definition conf_lapicaddr (conf : Z) : Z := ld32 (conf + 36).

(** The floating pointer and the table. *)
Definition mpconfig : option (Z * Z) :=
  match mpsearch with
  | None => None
  | Some mp =>
      if mp_physaddr mp =? 0 then None else
      let conf := mp_physaddr mp in
      if negb (bool_decide (bytes_at conf 4 = conf_signature)) then None else
      if negb (conf_version conf =? 1) && negb (conf_version conf =? 4) then None else
      if negb (sum conf (conf_length conf) =? 0) then None else
      Some (mp, conf)
  end.

Context {D : Type} `{Ports D}.

Record mpst := mkmpst {
  dev : D; ismp : bool; ncpu : Z; ids : list Z; bcpu : Z; lapic : Z; ioapicid : Z; printed : list msg
}.
Definition put_dev (d : D) (s : mpst) : mpst := mkmpst d (ismp s) (ncpu s) (ids s) (bcpu s) (lapic s) (ioapicid s) (printed s).
Definition put_ismp (b : bool) (s : mpst) : mpst := mkmpst (dev s) b (ncpu s) (ids s) (bcpu s) (lapic s) (ioapicid s) (printed s).
Definition put_ncpu (n : Z) (s : mpst) : mpst := mkmpst (dev s) (ismp s) n (ids s) (bcpu s) (lapic s) (ioapicid s) (printed s).
Definition put_ids (l : list Z) (s : mpst) : mpst := mkmpst (dev s) (ismp s) (ncpu s) l (bcpu s) (lapic s) (ioapicid s) (printed s).
Definition put_bcpu (b : Z) (s : mpst) : mpst := mkmpst (dev s) (ismp s) (ncpu s) (ids s) b (lapic s) (ioapicid s) (printed s).
Definition put_lapic (a : Z) (s : mpst) : mpst := mkmpst (dev s) (ismp s) (ncpu s) (ids s) (bcpu s) a (ioapicid s) (printed s).
Definition put_ioapicid (a : Z) (s : mpst) : mpst := mkmpst (dev s) (ismp s) (ncpu s) (ids s) (bcpu s) (lapic s) a (printed s).
(** [bcpu] is an index of [cpus]. *)
Definition mpbcpu : M mpst Z := gets bcpu.
Definition cprintf (x : msg) : M mpst unit :=
  modify (λ s, mkmpst (dev s) (ismp s) (ncpu s) (ids s) (bcpu s) (lapic s) (ioapicid s) (printed s ++ [x])).

(** [cpus[ncpu].id = ncpu]: the array has NCPU elements. *)
Definition set_id : M mpst unit :=
  n ← gets ncpu;
  l ← gets ids;
  if bool_decide (Z.to_nat n < length l)%nat then modify (put_ids (<[Z.to_nat n := u8 n]> l)) else fault "cpus[ncpu]".

(** The case of a processor entry. *)
Definition on_proc (p : Z) : M mpst unit :=
  n ← gets ncpu;
  let apicid := mem (p + 1) in
  (if negb (n =? apicid) then cprintf (Mismatch n apicid);; modify (put_ismp false) else mret tt);;
  (if negb (Z.land (mem (p + 3)) MPBOOT =? 0) then modify (put_bcpu n) else mret tt);;
  set_id;;
  modify (λ s, put_ncpu (i32 (ncpu s + 1)) s).

(** The loop over the entries. *)
Fixpoint entries_loop (fuel : nat) (p e : Z) : M mpst unit :=
  if p <? e then
    match fuel with
    | O => hang
    | S fuel =>
        let t := mem p in
        if t =? MPPROC then on_proc p;; entries_loop fuel (p + SZ_MPPROC) e
        else if t =? MPIOAPIC then modify (put_ioapicid (mem (p + 1)));; entries_loop fuel (p + SZ_MPIOAPIC) e
        else if (t =? MPBUS) || (t =? MPIOINTR) || (t =? MPLINTR) then entries_loop fuel (p + 8) e
        else cprintf (UnknownType t);; modify (put_ismp false);; entries_loop fuel p e
    end
  else mret tt.

(** The fuel is the number of entries a table of 16-bit length can have; the
    shortest take 8 bytes. *)
Definition mpinit : M mpst unit :=
  modify (put_bcpu 0);;
  match mpconfig with
  | None => mret tt
  | Some (mp, conf) =>
      modify (put_ismp true);;
      modify (put_lapic (conf_lapicaddr conf));;
      entries_loop (Z.to_nat 8192) (conf + SZ_MPCONF) (conf + conf_length conf);;
      ok ← gets ismp;
      if negb ok then
        modify (put_ncpu 1);;
        modify (put_lapic 0);;
        modify (put_ioapicid 0)
      else if negb (mp_imcrp mp =? 0) then
        zoom dev put_dev (outb 0x22 0x70);;
        v ← zoom dev put_dev (inb 0x23);
        zoom dev put_dev (outb 0x23 (Z.lor v 1))
      else mret tt
  end.
End mp.
Arguments mpst : clear implicits.

(** ** What a configuration table says

    The entries, with the bytes mpinit does not look at. *)

Inductive entry :=
| Proc (apicid version flags : Z) (rest : list Z)
| Ioapic (apicno : Z) (rest : list Z)
| Other (t : Z) (rest : list Z).
Definition encode (x : entry) : list Z :=
  match x with
  | Proc apicid version flags rest => [MPPROC; apicid; version; flags] ++ rest
  | Ioapic apicno rest => [MPIOAPIC; apicno] ++ rest
  | Other t rest => t :: rest
  end.
Definition entry_ok (x : entry) : Prop :=
  match x with
  | Proc _ _ _ rest => length rest = 16%nat
  | Ioapic _ rest => length rest = 6%nat
  | Other t rest => length rest = 7%nat ∧ (t = MPBUS ∨ t = MPIOINTR ∨ t = MPLINTR)
  end.

(** The processors' APIC ids, and whether they are numbered from [n] on. *)
Definition apicids (es : list entry) : list Z := omap (λ x, match x with Proc a _ _ _ => Some a | _ => None end) es.
Definition numbered (n : Z) (l : list Z) : bool := bool_decide (l = (λ k, n + Z.of_nat k) <$> seq 0 (length l)).
(** The index of the boot processor: the last one with the flag. *)
Fixpoint boot_of (n b : Z) (es : list entry) : Z :=
  match es with
  | [] => b
  | Proc _ _ flags _ :: es => boot_of (n + 1) (if negb (Z.land flags MPBOOT =? 0) then n else b) es
  | _ :: es => boot_of n b es
  end.
Fixpoint ioapic_of (a : Z) (es : list entry) : Z :=
  match es with [] => a | Ioapic n _ :: es => ioapic_of n es | _ :: es => ioapic_of a es end.

Section loop.
Context (mem : Z → Z) {D : Type} `{Ports D}.
Implicit Types s : mpst D.

Lemma bytes_at_length a n : length (bytes_at mem a n) = n.
Proof. unfold bytes_at. by rewrite length_fmap, length_seq. Qed.
Lemma bytes_at_app a l1 l2 : bytes_at mem a (length (l1 ++ l2)) = l1 ++ l2 →
  bytes_at mem a (length l1) = l1 ∧ bytes_at mem (a + Z.of_nat (length l1)) (length l2) = l2.
Proof.
  rewrite length_app. unfold bytes_at. rewrite seq_app, fmap_app. intros E.
  apply app_inj_1 in E as [E1 E2]; [|by rewrite length_fmap, length_seq]. split; [done|].
  etransitivity; [|exact E2]. rewrite Nat.add_0_l, <-(Nat.add_0_r (length l1)) at 1. rewrite <-(fmap_add_seq (length l1) 0), <-list_fmap_compose.
  apply list_fmap_ext. intros i k _. cbn. f_equal. lia.
Qed.
Lemma bytes_at_byte a l k v : bytes_at mem a (length l) = l → l !! k = Some v → mem (a + Z.of_nat k) = v.
Proof.
  intros E Hk. rewrite <-E in Hk. unfold bytes_at in Hk. apply list_lookup_fmap_Some in Hk as (k' & -> & Hk').
  by apply lookup_seq in Hk' as [-> _].
Qed.

(** What is known after some of the entries. *)
Record walked (s s' : mpst D) (es : list entry) : Prop := {
  wk_dev : dev s' = dev s; wk_lapic : lapic s' = lapic s;
  wk_ismp : ismp s' = ismp s && numbered (ncpu s) (apicids es);
  wk_ncpu : ncpu s' = ncpu s + Z.of_nat (length (apicids es));
  wk_bcpu : bcpu s' = boot_of (ncpu s) (bcpu s) es;
  wk_ioapic : ioapicid s' = ioapic_of (ioapicid s) es;
  wk_len : length (ids s') = length (ids s);
  wk_ids k : (k < length (ids s))%nat → ids s' !! k = if bool_decide (ncpu s <= Z.of_nat k < ncpu s') then Some (Z.of_nat k) else ids s !! k
}.

Lemma numbered_cons n a l : numbered n (a :: l) = (n =? a) && numbered (n + 1) l.
Proof.
  unfold numbered. apply eq_true_iff_eq. rewrite andb_true_iff, Z.eqb_eq, !bool_decide_eq_true. cbn [length seq fmap list_fmap].
  rewrite Z.add_0_r, <-fmap_S_seq, <-list_fmap_compose.
  assert (E : (λ k, n + 1 + Z.of_nat k) <$> seq 0 (length l) = ((λ k, n + Z.of_nat k) ∘ S) <$> seq 0 (length l)).
  { apply list_fmap_ext. intros i k _. cbn. lia. }
  rewrite E. split; [intros [= -> ->]; by rewrite ?length_fmap, ?length_seq|intros [-> ->]; by rewrite ?length_fmap, ?length_seq].
Qed.

Context `{mode : Mode}.

Lemma wp_on_proc p a v fl rest s (Q : unit → mpst D → Prop) : bytes_at mem p (length (encode (Proc a v fl rest))) = encode (Proc a v fl rest) →
  0 <= ncpu s < Z.of_nat (length (ids s)) → (length (ids s) <= NCPU)%nat →
  (∀ s', walked s s' [Proc a v fl rest] → Q tt s') → wp (on_proc mem p) Q s.
Proof.
  intros Hp Hn Hl HQ. pose proof (bytes_at_byte p _ 1 a Hp eq_refl) as E1. pose proof (bytes_at_byte p _ 3 fl Hp eq_refl) as E3.
  change (Z.of_nat 1) with 1 in E1. change (Z.of_nat 3) with 3 in E3. unfold NCPU in *.
  assert (Hid : ∀ s1 (P : unit → mpst D → Prop), ncpu s1 = ncpu s → ids s1 = ids s → P tt (put_ids (<[Z.to_nat (ncpu s) := ncpu s]> (ids s)) s1) → wp set_id P s1).
  { intros s1 P H1 H2 HP. unfold set_id. wp_steps. rewrite H1, H2, bool_decide_true by lia. wp_steps.
    unfold u8. rewrite Z.mod_small by lia. done. }
  assert (Hids : ∀ k, (k < length (ids s))%nat → <[Z.to_nat (ncpu s) := ncpu s]> (ids s) !! k =
    if bool_decide (ncpu s <= Z.of_nat k < ncpu s + 1) then Some (Z.of_nat k) else ids s !! k).
  { intros k Hk. case_bool_decide as Hb.
    - replace (Z.to_nat (ncpu s)) with k by lia. rewrite list_lookup_insert_eq by done. f_equal. lia.
    - apply list_lookup_insert_ne. lia. }
  assert (En : numbered (ncpu s) [a] = (ncpu s =? a)) by (rewrite numbered_cons, andb_true_r; done).
  assert (Hrest : ∀ s1, dev s1 = dev s → lapic s1 = lapic s → ismp s1 = ismp s && (ncpu s =? a) → ncpu s1 = ncpu s → bcpu s1 = bcpu s → ioapicid s1 = ioapicid s → ids s1 = ids s →
    wp ((if negb (Z.land fl MPBOOT =? 0) then modify (put_bcpu (ncpu s)) else mret tt);; set_id;; modify (λ s, put_ncpu (i32 (ncpu s + 1)) s)) Q s1).
  { intros s1 A1 A2 A3 A4 A5 A6 A7. apply wp_bind.
    destruct (negb (Z.land fl MPBOOT =? 0)) eqn:Eb; wp_steps; apply Hid; cbn; try done; wp_steps; cbn; rewrite A4, i32_small by lia;
      apply HQ; constructor; cbn; rewrite ?Eb, ?En, ?length_insert; try done. }
  unfold on_proc. apply wp_bind, wp_gets. cbv zeta. rewrite E1, E3.
  destruct (Z.eqb_spec (ncpu s) a) as [Ea|Ea]; cbn [negb]; apply wp_bind; [apply wp_ret|apply wp_bind, wp_modify, wp_modify]; apply Hrest; cbn; try done.
  - by rewrite andb_true_r.
  - by rewrite andb_false_r.
Qed.

Lemma walked_refl s : walked s s [].
Proof.
  constructor; try done; [by rewrite andb_true_r|cbn; lia|]. intros k Hk. rewrite bool_decide_false by lia. done.
Qed.
Lemma walked_trans s s1 s2 x es : walked s s1 [x] → walked s1 s2 es → 0 <= ncpu s → walked s s2 (x :: es).
Proof.
  intros [A1 A2 A3 A4 A5 A6 A7 A8] [B1 B2 B3 B4 B5 B6 B7 B8] Hn.
  assert (Ec : apicids (x :: es) = apicids [x] ++ apicids es) by (unfold apicids; cbn; by destruct x).
  constructor; try congruence.
  - rewrite B3, A3, A4, <-andb_assoc, Ec. f_equal. destruct x; cbn [apicids omap list_omap app length]; [|by rewrite Z.add_0_r..].
    by rewrite !numbered_cons, andb_true_r.
  - rewrite B4, A4, Ec, length_app. lia.
  - rewrite B5, A5, A4. destruct x; cbn; [done|by rewrite Z.add_0_r..].
  - rewrite B6, A6. by destruct x.
  - intros k Hk. rewrite B8 by lia. rewrite A8 by done. repeat case_bool_decide; try done; lia.
Qed.
Lemma walked_other s s' x : apicids [x] = [] → dev s' = dev s → lapic s' = lapic s → ismp s' = ismp s → ncpu s' = ncpu s → bcpu s' = bcpu s →
  ioapicid s' = ioapic_of (ioapicid s) [x] → ids s' = ids s → walked s s' [x].
Proof.
  intros Hx A1 A2 A3 A4 A5 A6 A7. assert (Hnp : ∀ n b, boot_of n b [x] = b) by (by destruct x).
  constructor; rewrite ?Hx, ?Hnp, ?A7; try done; [by rewrite A3, andb_true_r|by rewrite A4, Z.add_0_r|].
  intros k Hk. rewrite A4, bool_decide_false by lia. done.
Qed.

Lemma wp_entries_loop es : ∀ fuel p s (Q : unit → mpst D → Prop), (length es <= fuel)%nat → Forall entry_ok es →
  bytes_at mem p (length (concat (encode <$> es))) = concat (encode <$> es) →
  0 <= ncpu s → ncpu s + Z.of_nat (length (apicids es)) <= Z.of_nat (length (ids s)) → (length (ids s) <= NCPU)%nat →
  (∀ s', walked s s' es → Q tt s') →
  wp (entries_loop mem fuel p (p + Z.of_nat (length (concat (encode <$> es))))) Q s.
Proof.
  induction es as [|x es IH]; intros fuel p s Q Hf Hok Hb Hn Hn' Hl HQ.
  - cbn [fmap list_fmap concat length]. assert (E : (p <? p + Z.of_nat 0) = false) by (apply Z.ltb_ge; lia).
    destruct fuel; cbn [entries_loop]; rewrite E; by apply wp_ret, HQ, walked_refl.
  - cbn [length fmap list_fmap concat] in *. destruct fuel as [|fuel]; [lia|]. apply Forall_cons in Hok as [Hx Hok].
    destruct (bytes_at_app _ _ _ Hb) as [Hb1 Hb2]. rewrite length_app, Nat2Z.inj_add, Z.add_assoc.
    assert (Hlen : 0 < Z.of_nat (length (encode x))) by (destruct x; cbn; lia).
    pose proof (λ v, bytes_at_byte p _ 0 v Hb1) as E0. rewrite Z.add_0_r in E0.
    cbn [entries_loop]. rewrite (proj2 (Z.ltb_lt _ _)) by lia.
    assert (Hnext : ∀ s1, walked s s1 [x] → wp (entries_loop mem fuel (p + Z.of_nat (length (encode x))) (p + Z.of_nat (length (encode x)) + Z.of_nat (length (concat (encode <$> es))))) Q s1).
    { intros s1 Hw. assert (Hc : length (apicids (x :: es)) = (length (apicids [x]) + length (apicids es))%nat) by (by destruct x).
      apply IH; [lia|done|done| | | |]; try (rewrite (wk_ncpu _ _ _ Hw)); rewrite ?(wk_len _ _ _ Hw); try lia.
      intros s' Hw'. apply HQ. by eapply walked_trans. }
    destruct x as [a v fl rest|no rest|t rest]; cbn [entry_ok] in Hx.
    + rewrite (E0 MPPROC eq_refl). cbn [Z.eqb MPPROC]. apply wp_bind, (wp_on_proc p a v fl rest); [done| |done|].
      { cbn [apicids omap list_omap length] in Hn'. lia. }
      assert (Hsz : Z.of_nat (length (encode (Proc a v fl rest))) = SZ_MPPROC) by (cbn [encode]; by rewrite length_app, Hx).
      rewrite Hsz in *. exact Hnext.
    + rewrite (E0 MPIOAPIC eq_refl). cbn [Z.eqb MPPROC MPIOAPIC]. wp_steps.
      pose proof (bytes_at_byte p _ 1 no Hb1 eq_refl) as E1. change (Z.of_nat 1) with 1 in E1. rewrite E1.
      assert (Hw : walked s (put_ioapicid no s) [Ioapic no rest]) by (by apply walked_other).
      assert (Hsz : Z.of_nat (length (encode (Ioapic no rest))) = SZ_MPIOAPIC) by (cbn [encode]; by rewrite length_app, Hx).
      rewrite Hsz in *. by apply Hnext.
    + rewrite (E0 t eq_refl). destruct Hx as [Hx Ht]. assert (Hw : walked s s [Other t rest]) by (by apply walked_other).
      assert (Hsz : Z.of_nat (length (encode (Other t rest))) = 8) by (cbn [encode length]; by rewrite Hx).
      rewrite Hsz in *. specialize (Hnext _ Hw).
      destruct Ht as [-> |[-> | ->]]; exact Hnext.
Qed.

Lemma entries_bytes es : Forall entry_ok es → (8 * length es <= length (concat (encode <$> es)))%nat.
Proof.
  induction 1 as [|x es Hx _ IH]; [done|]. cbn [fmap list_fmap concat]. rewrite length_app. cbn [length].
  assert (8 <= length (encode x))%nat; [|lia]. destruct x; cbn in *; lia.
Qed.
End loop.

(** ** Theorems *)

(** The processors are found.  When a configuration table is found whose
    entries are [es], at most NCPU of them processors, mpinit returns.  If the
    processors' APIC ids are 0, 1, 2, ... in the order of the table, it ends
    with as many CPUs, each numbered by its position, the boot CPU the one whose
    entry says so, and the addresses of the local APIC and the id of the I/O
    APIC from the table; otherwise it falls back to a single CPU without
    APICs. *)
Theorem mpinit_finds {D} `{Ports D} mem (s : mpst D) mp conf es : (∀ a, 0 <= mem a < 256) → mpconfig mem = Some (mp, conf) → Forall entry_ok es →
  bytes_at mem (conf + SZ_MPCONF) (length (concat (encode <$> es))) = concat (encode <$> es) →
  conf_length mem conf = SZ_MPCONF + Z.of_nat (length (concat (encode <$> es))) → (length (apicids es) <= NCPU)%nat →
  ncpu s = 0 → length (ids s) = NCPU →
  ∃ s', mpinit mem s = Ok tt s' ∧
    if numbered 0 (apicids es) then
      ismp s' = true ∧ ncpu s' = Z.of_nat (length (apicids es)) ∧ (∀ k, (k < length (apicids es))%nat → ids s' !! k = Some (Z.of_nat k)) ∧
      bcpu s' = boot_of 0 0 es ∧ lapic s' = conf_lapicaddr mem conf ∧ ioapicid s' = ioapic_of (ioapicid s) es
    else ismp s' = false ∧ ncpu s' = 1 ∧ lapic s' = 0 ∧ ioapicid s' = 0.
Proof.
  intros Hm Hc Hok Hb Hl Hn H0 Hi.
  destruct (wp_total (mpinit mem) (λ _ s', if numbered 0 (apicids es) then
      ismp s' = true ∧ ncpu s' = Z.of_nat (length (apicids es)) ∧ (∀ k, (k < length (apicids es))%nat → ids s' !! k = Some (Z.of_nat k)) ∧
      bcpu s' = boot_of 0 0 es ∧ lapic s' = conf_lapicaddr mem conf ∧ ioapicid s' = ioapic_of (ioapicid s) es
    else ismp s' = false ∧ ncpu s' = 1 ∧ lapic s' = 0 ∧ ioapicid s' = 0) s) as ([] & s' & E & Hs'); [|by exists s'].
  pose proof (entries_bytes es Hok) as Hlen. assert (Hsz : conf_length mem conf < 65536).
  { unfold conf_length, ld16. pose proof (Hm (conf + 4)). pose proof (Hm (conf + 4 + 1)). lia. }
  unfold mpinit. wp_steps. rewrite Hc. wp_steps. rewrite Hl, Z.add_assoc. unfold NCPU in *.
  apply wp_entries_loop; [unfold SZ_MPCONF in *; lia|done|done|cbn; lia|cbn; lia|unfold NCPU; cbn; lia|].
  intros s1 [W1 W2 W3 W4 W5 W6 W7 W8]. cbn in W2, W3, W4, W5, W6, W7, W8. rewrite H0 in *. wp_steps. rewrite W3.
  destruct (numbered 0 (apicids es)); cbn [negb]; [|by wp_steps].
  assert (Hfin : ismp s1 = true ∧ ncpu s1 = Z.of_nat (length (apicids es)) ∧ (∀ k, (k < length (apicids es))%nat → ids s1 !! k = Some (Z.of_nat k)) ∧
      bcpu s1 = boot_of 0 0 es ∧ lapic s1 = conf_lapicaddr mem conf ∧ ioapicid s1 = ioapic_of (ioapicid s) es).
  { repeat split; try done; try lia. intros k Hk. rewrite W8 by lia. rewrite bool_decide_true by lia. done. }
  destruct (negb (mp_imcrp mem mp =? 0)); [|by apply wp_ret]. apply wp_bind, wp_zoom, wp_outb. apply wp_bind, wp_zoom, wp_inb. apply wp_zoom, wp_outb. exact Hfin.
Qed.

(** An entry of a type mpinit does not know makes it spin.  The loop's
    default case prints a message and goes on without moving past the entry, so
    that however long it runs it never gets to the fall-back below. *)
Theorem unknown_entry_spins {D} `{Ports D} mem fuel p e (s : mpst D) : p < e → (mem p < 0 ∨ 4 < mem p) →
  ∃ s', entries_loop mem fuel p e s = Hang s'.
Proof.
  intros Hp Ht. revert s. induction fuel as [|fuel IH]; intros s; cbn [entries_loop]; rewrite (proj2 (Z.ltb_lt _ _) Hp); [by exists s|].
  unfold MPPROC, MPIOAPIC, MPBUS, MPIOINTR, MPLINTR. rewrite !(proj2 (Z.eqb_neq _ _)) by lia. cbn [orb]. apply IH.
Qed.

(** More processors than NCPU overrun the table of CPUs: there is no check. *)
Theorem ninth_cpu_overruns {D} `{Ports D} mem p (s : mpst D) : length (ids s) = NCPU → ncpu s = Z.of_nat NCPU →
  ∃ s', on_proc mem p s = Fault "cpus[ncpu]" s'.
Proof.
  intros Hl Hn. assert (Hset : ∀ s1 : mpst D, ids s1 = ids s → ncpu s1 = ncpu s → set_id s1 = Fault "cpus[ncpu]" s1).
  { intros s1 H1 H2. unfold set_id, gets, mbind, M_mbind, M_bind. rewrite H1, H2, Hn, bool_decide_false by lia. done. }
  unfold on_proc. unfold gets, modify, cprintf, mbind, M_mbind, M_bind, mret, M_mret, M_ret. cbv zeta.
  destruct (negb (ncpu s =? mem (p + 1))), (negb (Z.land (mem (p + 3)) MPBOOT =? 0)); cbv [modify]; rewrite Hset by done; by eexists.
Qed.

(** ** An example: two processors and an I/O APIC *)

Definition demo_entries : list entry :=
  [Proc 0 20 3 (replicate 16 0); Proc 1 20 1 (replicate 16 0); Ioapic 2 (replicate 6 0); Other MPBUS (replicate 7 0)].
Definition demo_mp : list Z := mp_signature ++ [0; 0x90; 0; 0; 1; 4; 144; 0; 0x80; 0; 0; 0].
Definition demo_conf : list Z :=
  conf_signature ++ [100; 0; 4; 88] ++ replicate 28 0 ++ [0; 0; 0xE0; 0xFE; 0; 0; 0; 0] ++ concat (encode <$> demo_entries).
Definition demo_mem (a : Z) : Z :=
  if (0xF0000 <=? a) && (a <? 0xF0010) then nth (Z.to_nat (a - 0xF0000)) demo_mp 0
  else if (0x9000 <=? a) && (a <? 0x9064) then nth (Z.to_nat (a - 0x9000)) demo_conf 0 else 0.
Definition demo : mpst unit := mkmpst tt false 0 (replicate 8 0) 0 0 0 [].

Lemma demo_mem_bytes a : 0 <= demo_mem a < 256.
Proof.
  assert (Hnth : ∀ l k, forallb (λ b, (0 <=? b) && (b <? 256)) l = true → 0 <= nth k l 0 < 256).
  { intros l k Hl. rewrite forallb_forall in Hl. destruct (nth_in_or_default k l 0) as [Hin| ->]; [|lia].
    specialize (Hl _ Hin). lia. }
  unfold demo_mem. destruct (_ && _); [by apply Hnth|]. destruct (_ && _); [by apply Hnth|lia].
Qed.
Lemma mpinit_finds_witness : ∃ s', mpinit demo_mem demo = Ok tt s' ∧ ismp s' = true ∧ ncpu s' = 2 ∧
  (∀ k, (k < 2)%nat → ids s' !! k = Some (Z.of_nat k)) ∧ bcpu s' = 0 ∧ lapic s' = 0xFEE00000 ∧ ioapicid s' = 2.
Proof.
  exact (mpinit_finds demo_mem demo 0xF0000 0x9000 demo_entries demo_mem_bytes ltac:(vm_compute; reflexivity)
    ltac:(repeat constructor) ltac:(vm_compute; reflexivity) ltac:(vm_compute; reflexivity) ltac:(vm_compute; lia) eq_refl eq_refl).
Defined.
Lemma unknown_entry_spins_witness : ∃ s', entries_loop (λ _, 9) 1000 0x9000 0x9010 demo = Hang s'.
Proof. apply (unknown_entry_spins (λ _, 9)); [reflexivity|right; reflexivity]. Defined.
Lemma ninth_cpu_overruns_witness : ∃ s', on_proc demo_mem 0x902C (put_ncpu 8 demo) = Fault "cpus[ncpu]" s'.
Proof. apply (ninth_cpu_overruns demo_mem 0x902C (put_ncpu 8 demo)); reflexivity. Defined.

End Mp.
