(* ===== verification/Ata.v ===== *)
(** * The ATA disk controller, as the disk drivers use it

    A disk controller is a device on the I/O ports.  The laws are what the ATA
    standard documents of the commands the drivers give (READ SECTORS and WRITE
    SECTORS in LBA mode, programmed I/O, one sector each): which register each
    port sets, that a command acts on the drive and the sector the registers
    name, that the status shows BUSY for a bounded number of polls and READY
    then, that the error bits tell whether a sector could be read, that a
    command may only be given when the drive is not busy, and that data may only
    be sent or fetched then: a write command is followed by its sector once the
    drive is no longer busy.

    The standard lets a drive be busy after a write command.  ide.c sends the
    sector at once, which is right only for a drive that asks for it at once, as
    the emulated disk does on which the Makefile runs the kernel; this is the
    class [PromptWrite], which the theorems on ide.c name.

    [disk] below is a controller that satisfies the laws. *)

From S2P Require Import Prelude Ports.
Import Ports.
Local Open Scope Z_scope.

Module Ata.

Definition SECTOR_SIZE : Z := 512.

(** The task-file registers of ports 0x1f2 to 0x1f6. *)
Record regs := mkregs { nsect : Z; lba0 : Z; lba1 : Z; lba2 : Z; head : Z }.
Definition set_reg (port v : Z) (r : regs) : regs :=
  if port =? 0x1f2 then mkregs v (lba0 r) (lba1 r) (lba2 r) (head r)
  else if port =? 0x1f3 then mkregs (nsect r) v (lba1 r) (lba2 r) (head r)
  else if port =? 0x1f4 then mkregs (nsect r) (lba0 r) v (lba2 r) (head r)
  else if port =? 0x1f5 then mkregs (nsect r) (lba0 r) (lba1 r) v (head r)
  else if port =? 0x1f6 then mkregs (nsect r) (lba0 r) (lba1 r) (lba2 r) v
  else r.
Definition drive_of (r : regs) : Z := Z.b2z (Z.testbit (head r) 4).
Definition sector_of (r : regs) : Z :=
  lba0 r + Z.shiftl (lba1 r) 8 + Z.shiftl (lba2 r) 16 + Z.shiftl (Z.land (head r) 0x0f) 24.
(** LBA mode, one sector. *)
Definition addressed (r : regs) : bool := Z.testbit (head r) 6 && (nsect r =? 1).

(** What the controller is doing with a sector of a drive. *)
Inductive phase := Idle | Reading (drv sec : Z) | Writing (drv sec : Z).

Definition sectors : Type := Z → Z → list Z.
Definition store (drv sec : Z) (l : list Z) (f : sectors) : sectors :=
  λ d s, if (d =? drv) && (s =? sec) then l else f d s.

Class Ata (D : Type) `{Ports D} := {
  regs_of : D → regs;
  phase_of : D → phase;
  disk_of : D → sectors;
  (** How many polls will still find the drive busy. *)
  busy : D → nat;
  (** The sectors that can be read. *)
  readable : Z → Z → bool;
  status_busy d n : busy d = S n → Z.land (in_byte 0x1f7 d).1 0xC0 ≠ 0x40 ∧ busy (in_byte 0x1f7 d).2 = n;
  status_ready d : busy d = O → Z.land (in_byte 0x1f7 d).1 0xC0 = 0x40 ∧ busy (in_byte 0x1f7 d).2 = O;
  status_error d drv sec : busy d = O → phase_of d = Reading drv sec →
    (Z.land (in_byte 0x1f7 d).1 0x21 =? 0) = readable drv sec;
  status_keeps d : regs_of (in_byte 0x1f7 d).2 = regs_of d ∧ phase_of (in_byte 0x1f7 d).2 = phase_of d ∧
    disk_of (in_byte 0x1f7 d).2 = disk_of d;
  register_set port v d : 0x1f2 <= port <= 0x1f6 → 0 <= v < 256 → 
    regs_of (out_byte port v d) = set_reg port v (regs_of d) ∧ phase_of (out_byte port v d) = phase_of d ∧
    disk_of (out_byte port v d) = disk_of d ∧ busy (out_byte port v d) = busy d;
  control_set d : regs_of (out_byte 0x3f6 0 d) = regs_of d ∧ phase_of (out_byte 0x3f6 0 d) = phase_of d ∧
    disk_of (out_byte 0x3f6 0 d) = disk_of d ∧ busy (out_byte 0x3f6 0 d) = busy d;
  other_ports port v d : ¬ (0x1f0 <= port <= 0x1f7) → port ≠ 0x3f6 →
    regs_of (out_byte port v d) = regs_of d ∧ phase_of (out_byte port v d) = phase_of d ∧
    disk_of (out_byte port v d) = disk_of d ∧ busy (out_byte port v d) = busy d;
  command_read d : busy d = O → addressed (regs_of d) = true →
    phase_of (out_byte 0x1f7 0x20 d) = Reading (drive_of (regs_of d)) (sector_of (regs_of d)) ∧
    disk_of (out_byte 0x1f7 0x20 d) = disk_of d;
  command_write d : busy d = O → addressed (regs_of d) = true →
    phase_of (out_byte 0x1f7 0x30 d) = Writing (drive_of (regs_of d)) (sector_of (regs_of d)) ∧
    disk_of (out_byte 0x1f7 0x30 d) = disk_of d;
  data_write d drv sec l : busy d = O → phase_of d = Writing drv sec → length l = Z.to_nat SECTOR_SIZE →
    phase_of (out_words 0x1f0 l d) = Idle ∧ disk_of (out_words 0x1f0 l d) = store drv sec l (disk_of d);
  data_read d drv sec : phase_of d = Reading drv sec → busy d = O → readable drv sec = true →
    (in_words 0x1f0 128 d).1 = disk_of d drv sec ∧
    phase_of (in_words 0x1f0 128 d).2 = Idle ∧ disk_of (in_words 0x1f0 128 d).2 = disk_of d
}.

(** The drive takes the sector of a write right after the command. *)
Class PromptWrite (D : Type) `{Ata D} : Prop :=
  write_prompt d : busy d = O → addressed (regs_of d) = true → busy (out_byte 0x1f7 0x30 d) = O.

(** ** Addresses *)

(** The device register of drive [drv] with the top bits of the sector. *)
Definition head_of (drv sec : Z) : Z := Z.lor (Z.lor 0xe0 (Z.shiftl drv 4)) (Z.land (Z.shiftr sec 24) 0x0f).
Definition head_right (drv top : Z) : bool :=
  let h := Z.lor (Z.lor 0xe0 (Z.shiftl drv 4)) top in
  (0 <=? h) && (h <? 256) && Z.testbit h 6 && (Z.b2z (Z.testbit h 4) =? drv) && (Z.land h 0x0f =? top).
Lemma heads_right : forallb (λ drv, forallb (head_right drv) (Z.of_nat <$> seq 0 16)) [0; 1] = true.
Proof. reflexivity. Qed.
Lemma head_of_spec drv sec : drv = 0 ∨ drv = 1 → let h := head_of drv sec in
  0 <= h < 256 ∧ Z.testbit h 6 = true ∧ Z.b2z (Z.testbit h 4) = drv ∧ Z.land h 0x0f = Z.land (Z.shiftr sec 24) 0x0f.
Proof.
  intros Hd h. assert (Ht : 0 <= Z.land (Z.shiftr sec 24) 0x0f < 16).
  { change 0x0f with (Z.ones 4). rewrite Z.land_ones by lia. by apply Z.mod_pos_bound. }
  assert (head_right drv (Z.land (Z.shiftr sec 24) 0x0f) = true) as Hr.
  { assert (Hin : In drv [0; 1]) by (cbn; intuition). pose proof (proj1 (forallb_forall _ _) heads_right drv Hin) as H.
    apply (proj1 (forallb_forall _ _) H). apply list_elem_of_In, list_elem_of_fmap.
    exists (Z.to_nat (Z.land (Z.shiftr sec 24) 0x0f)). rewrite elem_of_seq. lia. }
  unfold head_right in Hr. rewrite !andb_true_iff, !Z.eqb_eq, Z.leb_le, Z.ltb_lt in Hr. destruct Hr as [[[[? ?] ?] ?] ?]. done.
Qed.

(** The four pieces of a sector number make it up again. *)
Lemma lba_pieces sec : 0 <= sec < 2 ^ 28 →
  Z.land sec 0xff + Z.shiftl (Z.land (Z.shiftr sec 8) 0xff) 8 + Z.shiftl (Z.land (Z.shiftr sec 16) 0xff) 16 +
  Z.shiftl (Z.land (Z.shiftr sec 24) 0x0f) 24 = sec.
Proof.
  intros Hs. change 0xff with (Z.ones 8). change 0x0f with (Z.ones 4). rewrite !Z.land_ones, !Z.shiftl_mul_pow2, !Z.shiftr_div_pow2 by lia.
  change (2 ^ 28) with 268435456 in Hs. change (2 ^ 8) with 256. change (2 ^ 16) with 65536. change (2 ^ 24) with 16777216. change (2 ^ 4) with 16.
  Z.to_euclidean_division_equations. lia.
Qed.
Lemma land_byte z : 0 <= Z.land z 0xff < 256.
Proof. change 0xff with (Z.ones 8). rewrite Z.land_ones by lia. by apply Z.mod_pos_bound. Qed.
Lemma u8_small z : 0 <= z < 256 → u8 z = z.
Proof. apply Z.mod_small. Qed.

(** ** Waiting *)

Section driver.
Context {D : Type} `{Ata D}.

(** Poll the status until it says ready: the loop that [idewait] of ide.c and
    [waitdisk] of bootmain.c share.  The last status read. *)
Fixpoint poll (fuel : nat) : M D Z :=
  r ← inb 0x1f7;
  if negb (Z.land r 0xC0 =? 0x40) then match fuel with O => hang | S fuel => poll fuel end
  else mret r.

(** Nothing a driver can see has changed, and the drive is ready. *)
Record settled (d d' : D) : Prop := {
  st_busy : busy d' = O; st_regs : regs_of d' = regs_of d; st_phase : phase_of d' = phase_of d; st_disk : disk_of d' = disk_of d
}.

Context `{mode : Mode}.
(** The loop ends, within the number of polls the drive stays busy. *)
Lemma wp_poll fuel d (Q : Z → D → Prop) : (busy d <= fuel)%nat →
  (∀ r d', settled d d' → (∀ drv sec, phase_of d = Reading drv sec → (Z.land r 0x21 =? 0) = readable drv sec) → Q r d') →
  wp (poll fuel) Q d.
Proof.
  revert d. induction fuel as [|fuel IH]; intros d Hf HQ; cbn [poll]; apply wp_bind, wp_inb;
    destruct (status_keeps d) as (K1 & K2 & K3); destruct (busy d) as [|n] eqn:Eb; try lia.
  1,2: destruct (status_ready d Eb) as [-> Hr]; apply wp_ret, HQ; [by constructor|]; intros drv sec Hp; by apply status_error.
  destruct (status_busy d n Eb) as [->%Z.eqb_neq Hn]. apply IH; [lia|]. intros r d' [S1 S2 S3 S4] Hr.
  apply HQ; [by constructor; [|congruence..]|]. intros drv sec Hp. apply Hr. congruence.
Qed.

(** The registers name a sector. *)
Definition select (drv sec : Z) (d : D) : Prop :=
  busy d = O ∧ addressed (regs_of d) = true ∧ drive_of (regs_of d) = drv ∧ sector_of (regs_of d) = sec.

(** The six writes that address a sector, by any driver. *)
Lemma registers_select (d : D) n a b c h : busy d = O → n = 1 → 0 <= a < 256 → 0 <= b < 256 → 0 <= c < 256 → 0 <= h < 256 → Z.testbit h 6 = true →
  let d' := out_byte 0x1f6 h (out_byte 0x1f5 c (out_byte 0x1f4 b (out_byte 0x1f3 a (out_byte 0x1f2 n d)))) in
  select (Z.b2z (Z.testbit h 4)) (a + Z.shiftl b 8 + Z.shiftl c 16 + Z.shiftl (Z.land h 0x0f) 24) d' ∧
  phase_of d' = phase_of d ∧ disk_of d' = disk_of d.
Proof.
  intros Hb Hn Ha Hb' Hc Hh Hl. cbv zeta. set (d1 := out_byte 0x1f2 n d). set (d2 := out_byte 0x1f3 a d1). set (d3 := out_byte 0x1f4 b d2).
  set (d4 := out_byte 0x1f5 c d3). set (d5 := out_byte 0x1f6 h d4).
  destruct (register_set 0x1f2 n d) as (R1 & P1 & D1 & B1); [lia..|]. destruct (register_set 0x1f3 a d1) as (R2 & P2 & D2 & B2); [lia..|].
  destruct (register_set 0x1f4 b d2) as (R3 & P3 & D3 & B3); [lia..|]. destruct (register_set 0x1f5 c d3) as (R4 & P4 & D4 & B4); [lia..|].
  destruct (register_set 0x1f6 h d4) as (R5 & P5 & D5 & B5); [lia..|].
  assert (E : regs_of d5 = mkregs n a b c h).
  { unfold d5. rewrite R5. unfold d4. rewrite R4. unfold d3. rewrite R3. unfold d2. rewrite R2. unfold d1. rewrite R1. by destruct (regs_of d). }
  assert (phase_of d5 = phase_of d ∧ disk_of d5 = disk_of d ∧ busy d5 = O) as (? & ? & ?) by (unfold d5, d4, d3, d2, d1 in *; by repeat split; congruence).
  split; [|done]. split; [done|]. unfold addressed. rewrite E. cbn [head nsect]. by rewrite Hl, Hn.
Qed.

(** Addressing sector [sec] of drive [drv] piece by piece. *)
Lemma address_select (d : D) drv sec : busy d = O → drv = 0 ∨ drv = 1 → 0 <= sec < 2 ^ 28 →
  let d' := out_byte 0x1f6 (u8 (head_of drv sec)) (out_byte 0x1f5 (u8 (Z.land (Z.shiftr sec 16) 0xff))
    (out_byte 0x1f4 (u8 (Z.land (Z.shiftr sec 8) 0xff)) (out_byte 0x1f3 (u8 (Z.land sec 0xff)) (out_byte 0x1f2 (u8 1) d)))) in
  select drv sec d' ∧ phase_of d' = phase_of d ∧ disk_of d' = disk_of d.
Proof.
  intros Hb Hd Hs. destruct (head_of_spec drv sec Hd) as (H1 & H2 & H3 & H4). rewrite !u8_small by first [apply land_byte | done].
  destruct (registers_select d 1 (Z.land sec 0xff) (Z.land (Z.shiftr sec 8) 0xff) (Z.land (Z.shiftr sec 16) 0xff) (head_of drv sec))
    as (A & B & C); [done|done|by apply land_byte..|done|done|]. rewrite H3, H4, lba_pieces in A by done. done.
Qed.
End driver.

(** ** A controller *)

(** After a read command the drive is busy for three polls, after a write command
    for [n]; data sent to a busy drive are lost.  The sectors below 1999 can be
    read. *)
Record disk := mkdisk { dregs : regs; dphase : phase; dsect : sectors; dbusy : nat }.
Definition disk_readable (drv sec : Z) : bool := sec <? 1999.
Definition disk_status (d : disk) : Z :=
  match dbusy d with
  | S _ => 0x80
  | O => match dphase d with Reading drv sec => if disk_readable drv sec then 0x40 else 0x41 | _ => 0x40 end
  end.
Definition disk_in (port : Z) (d : disk) : Z * disk :=
  if port =? 0x1f7 then (disk_status d, mkdisk (dregs d) (dphase d) (dsect d) (pred (dbusy d))) else (0, d).
Definition disk_out (n : nat) (port v : Z) (d : disk) : disk :=
  if port =? 0x1f7 then
    if v =? 0x20 then mkdisk (dregs d) (Reading (drive_of (dregs d)) (sector_of (dregs d))) (dsect d) 3
    else mkdisk (dregs d) (Writing (drive_of (dregs d)) (sector_of (dregs d))) (dsect d) n
  else mkdisk (set_reg port v (dregs d)) (dphase d) (dsect d) (dbusy d).
Definition disk_in_words (port : Z) (n : nat) (d : disk) : list Z * disk :=
  (match dphase d with Reading drv sec => dsect d drv sec | _ => [] end, mkdisk (dregs d) Idle (dsect d) (dbusy d)).
Definition disk_out_words (port : Z) (l : list Z) (d : disk) : disk :=
  match dbusy d, dphase d with
  | O, Writing drv sec => mkdisk (dregs d) Idle (store drv sec l (dsect d)) 3
  | _, _ => d
  end.
Lemma disk_in_range port d : 0 <= (disk_in port d).1 < 256.
Proof.
  unfold disk_in, disk_status. destruct (port =? 0x1f7); cbn; [|lia]. destruct (dbusy d); [|lia].
  destruct (dphase d) as [|drv sec|drv sec]; try lia. destruct (disk_readable drv sec); lia.
Qed.
Definition ports_of (n : nat) : Ports disk := {|
  in_byte := disk_in; out_byte := disk_out n; in_words := disk_in_words; out_words := disk_out_words; in_byte_range := disk_in_range
|}.
Definition ata_of (n : nat) : @Ata disk (ports_of n).
Proof.
  refine (@Build_Ata disk (ports_of n) dregs dphase dsect dbusy disk_readable _ _ _ _ _ _ _ _ _ _ _);
    cbn [in_byte out_byte in_words out_words ports_of]; unfold disk_in, disk_out, disk_in_words, disk_out_words, disk_status; cbn.
  - intros d k E. by rewrite E.
  - intros d E. rewrite E. split; [|done]. destruct (dphase d) as [|drv sec|drv sec]; try done. by destruct (disk_readable drv sec).
  - intros d drv sec E E'. rewrite E, E'. by destruct (disk_readable drv sec).
  - done.
  - intros port v d Hp Hv. rewrite (proj2 (Z.eqb_neq port 0x1f7)) by lia. done.
  - done.
  - intros port v d Hp Hq. rewrite (proj2 (Z.eqb_neq port 0x1f7)) by lia. unfold set_reg.
    rewrite !(proj2 (Z.eqb_neq port _)) by lia. done.
  - done.
  - done.
  - intros d drv sec l E E' Hl. by rewrite E, E'.
  - intros d drv sec E Hb Hr. by rewrite E.
Defined.

(** The prompt drive, and one that is busy for three polls after a write command. *)
#[export] Instance disk_ports : Ports disk := ports_of 0.
#[export] Instance disk_ata : Ata disk := ata_of 0.
#[export] Instance disk_prompt : PromptWrite disk.
Proof. intros d _ _. done. Qed.
Definition slow_ports : Ports disk := ports_of 3.
Definition slow_ata : @Ata disk slow_ports := ata_of 3.

End Ata.
