(* ===== verification/Ide.v ===== *)
(** * The disk driver (ide.c)

    A queue of buffers through their [qnext] pointers; the first one is the
    request the controller works on.  [iderw] appends a buffer, starts the
    controller if it is idle and waits; the interrupt handler finishes the first
    request, wakes its process and starts the next.  [iderw] runs in segments,
    from taking the lock to returning ([Done]) or to going to sleep ([Asleep]).

    The controller is the interface [Ata], with [PromptWrite]: the driver sends the
    sector of a write without waiting until the drive asks for it.  The driver is refined to a server
    that does the requests one by one in the order of submission, and one request
    on an idle driver is shown to do what [iderw] of memide.c does at once. *)

From stdpp Require Import relations.
From S2P Require Import Prelude Kern Bio Ports Ata Irq.
Import Ports Ata.
Local Open Scope Z_scope.

Module Ide.

Definition IDE_BSY : Z := 0x80.
Definition IDE_DRDY : Z := 0x40.
Definition IDE_DF : Z := 0x20.
Definition IDE_ERR : Z := 0x01.
Definition IDE_CMD_READ : Z := 0x20.
Definition IDE_CMD_WRITE : Z := 0x30.
Definition BSIZE : Z := 512.
Definition FSSIZE : Z := 2000.

Inductive outcome := Done | Asleep.

Section driver.
Context {D : Type} `{Ata D}.

(** The buffers are those of file Bio; [qnext] is their field of that name. *)
Record ist := mkist {
  kn : Kern.kern; dev : D; bufs : nat → Bio.buf; qnext : nat → option nat; idequeue : option nat; havedisk1 : bool
}.
Definition put_kn (k : Kern.kern) (s : ist) : ist := mkist k (dev s) (bufs s) (qnext s) (idequeue s) (havedisk1 s).
Definition put_dev (d : D) (s : ist) : ist := mkist (kn s) d (bufs s) (qnext s) (idequeue s) (havedisk1 s).
Definition put_bufs (f : nat → Bio.buf) (s : ist) : ist := mkist (kn s) (dev s) f (qnext s) (idequeue s) (havedisk1 s).
Definition put_qnext (f : nat → option nat) (s : ist) : ist := mkist (kn s) (dev s) (bufs s) f (idequeue s) (havedisk1 s).
Definition put_queue (q : option nat) (s : ist) : ist := mkist (kn s) (dev s) (bufs s) (qnext s) q (havedisk1 s).
Definition put_disk1 (b : bool) (s : ist) : ist := mkist (kn s) (dev s) (bufs s) (qnext s) (idequeue s) b.

Definition acquire : M ist unit := zoom kn put_kn (Kern.acquire Kern.LIde).
Definition release : M ist unit := zoom kn put_kn (Kern.release Kern.LIde).
Definition wakeup (i : nat) : M ist unit := zoom kn put_kn (Kern.wakeup (Kern.CBuf i)).
Definition port {A} (m : M D A) : M ist A := zoom dev put_dev m.
Definition bu (i : nat) : M ist Bio.buf := gets (λ s, bufs s i).
Definition upd (i : nat) (f : Bio.buf → Bio.buf) : M ist unit := modify (λ s, put_bufs (alter f i (bufs s)) s).

(** The loop is that of [Ata.poll], which masks with IDE_BSY|IDE_DRDY; the fuel
    is the number of polls the drive stays busy. *)
Definition idewait (checkerr : bool) : M ist Z :=
  n ← gets (λ s, busy (dev s));
  r ← port (poll n);
  if checkerr && negb (Z.land r (Z.lor IDE_DF IDE_ERR) =? 0) then mret (-1) else mret 0.

(** Up to [n] looks at the status of the selected drive: is any not 0? *)
Fixpoint probe (n : nat) : M ist unit :=
  match n with
  | O => mret tt
  | S n => r ← port (inb 0x1f7); if negb (r =? 0) then modify (put_disk1 true) else probe n
  end.
Definition idestart (p : option nat) : M ist unit :=
  match p with
  | None => panic "idestart"
  | Some i =>
      b ← bu i;
      if FSSIZE <=? Bio.b_blockno b then panic "incorrect blockno" else
      let sector_per_block := BSIZE / SECTOR_SIZE in
      let sector := i32 (Bio.b_blockno b * sector_per_block) in
      if 7 <? sector_per_block then panic "idestart" else
      idewait false;;
      port (outb 0x3f6 0);;
      port (outb 0x1f2 sector_per_block);;
      port (outb 0x1f3 (Z.land sector 0xff));;
      port (outb 0x1f4 (Z.land (Z.shiftr sector 8) 0xff));;
      port (outb 0x1f5 (Z.land (Z.shiftr sector 16) 0xff));;
      port (outb 0x1f6 (Z.lor (Z.lor 0xe0 (Z.shiftl (Z.land (Bio.b_dev b) 1) 4)) (Z.land (Z.shiftr sector 24) 0x0f)));;
      if Bio.b_dirty b then
        port (outb 0x1f7 IDE_CMD_WRITE);;
        port (outsl 0x1f0 (Bio.b_data b))
      else port (outb 0x1f7 IDE_CMD_READ)
  end.

Definition ideintr : M ist unit :=
  acquire;;
  q ← gets idequeue;
  match q with
  | None => release
  | Some i =>
      n ← gets (λ s, qnext s i);
      modify (put_queue n);;
      b ← bu i;
      (if negb (Bio.b_dirty b) then
         r ← idewait true;
         if 0 <=? r then
           x ← port (insl 0x1f0 (Z.to_nat (BSIZE / 4)));
           upd i (Bio.set_bdata x)
         else mret tt
       else mret tt);;
      upd i (λ b, Bio.set_bflags (Bio.b_busy b) true (Bio.b_dirty b) b);;
      upd i (λ b, Bio.set_bflags (Bio.b_busy b) (Bio.b_valid b) false b);;
      wakeup i;;
      q ← gets idequeue;
      (match q with Some _ => idestart q | None => mret tt end);;
      release
  end.

(** Where [pp] points: to the variable [idequeue] or to a buffer's [qnext]. *)
Inductive ptr := PQueue | PNext (i : nat).
Definition load (p : ptr) : M ist (option nat) :=
  match p with PQueue => gets idequeue | PNext i => gets (λ s, qnext s i) end.
Definition assign (p : ptr) (v : option nat) : M ist unit :=
  match p with PQueue => modify (put_queue v) | PNext i => modify (λ s, put_qnext (<[i := v]> (qnext s)) s) end.
Fixpoint find_end (fuel : nat) (pp : ptr) : M ist ptr :=
  v ← load pp;
  match v with
  | None => mret pp
  | Some i => match fuel with O => hang | S fuel => find_end fuel (PNext i) end
  end.

(** The loop at the end, entered with the lock. *)
Definition await (i : nat) : M ist outcome :=
  b ← bu i;
  if negb (Bio.b_valid b && negb (Bio.b_dirty b)) then release;; mret Asleep
  else release;; mret Done.

Definition iderw (i : nat) : M ist outcome :=
  b ← bu i;
  if negb (Bio.b_busy b) then panic "iderw: buf not busy" else
  if Bio.b_valid b && negb (Bio.b_dirty b) then panic "iderw: nothing to do" else
  d1 ← gets havedisk1;
  if negb (Bio.b_dev b =? 0) && negb d1 then panic "iderw: ide disk 1 not present" else
  acquire;;
  assign (PNext i) None;;
  pp ← find_end Bio.NBUF PQueue;
  assign pp (Some i);;
  q ← gets idequeue;
  (if decide (q = Some i) then idestart (Some i) else mret tt);;
  await i.
(** A process that was woken takes the lock back and looks again. *)
Definition iderw_woken (i : nat) : M ist outcome :=
  acquire;;
  await i.

(** Start-up: the driver with the interrupt controllers it programs. *)
Context {I : Type} `{Ioapic.Window I}.
Record boot := mkboot { ide : ist; irqmask : Z; apic : Ioapic.ast I }.
Definition onide {A} (m : M ist A) : M boot A := zoom ide (λ x s, mkboot x (irqmask s) (apic s)) m.
Definition onpic {A} (m : M (Pic.pst D) A) : M boot A :=
  zoom (λ s, Pic.mkpst (dev (ide s)) (irqmask s)) (λ p s, mkboot (put_dev (Pic.dev p) (ide s)) (Pic.irqmask p) (apic s)) m.
Definition onapic {A} (m : M (Ioapic.ast I) A) : M boot A := zoom apic (λ a s, mkboot (ide s) (irqmask s) a) m.

Definition IRQ_IDE : Z := 14.
Definition ideinit (ncpu : Z) : M boot unit :=
  onide (zoom kn put_kn (Kern.initlock Kern.LIde));;
  onpic (Pic.picenable IRQ_IDE);;
  onapic (Ioapic.ioapicenable IRQ_IDE (ncpu - 1));;
  onide (idewait false);;
  onide (port (outb 0x1f6 (Z.lor 0xe0 (Z.shiftl 1 4))));;
  onide (probe 1000);;
  onide (port (outb 0x1f6 (Z.lor 0xe0 (Z.shiftl 0 4)))).
End driver.
Arguments ist : clear implicits.
Arguments boot : clear implicits.

(** ** The server

    What the driver promises: the requests are done one by one, in the order in
    which they were submitted, and the process of each is woken when its request
    is done. *)

Record server := mkserver { a_disk : sectors; a_bufs : nat → Bio.buf; a_queue : list nat; a_woken : list Kern.chan }.

Definition drive (b : Bio.buf) : Z := Z.land (Bio.b_dev b) 1.
Definition written (b : Bio.buf) (f : sectors) : sectors := store (drive b) (Bio.b_blockno b) (Bio.b_data b) f.
Definition synced (b : Bio.buf) : Bio.buf := Bio.set_bflags (Bio.b_busy b) true false b.
(** A buffer as its owner hands it over. *)
Definition wants_io (disk1 : bool) (b : Bio.buf) : bool :=
  Bio.b_busy b && negb (Bio.b_valid b && negb (Bio.b_dirty b)) &&
  (0 <=? Bio.b_blockno b) && (Bio.b_blockno b <? FSSIZE) && ((Bio.b_dev b =? 0) || disk1) &&
  bool_decide (length (Bio.b_data b) = Z.to_nat BSIZE).

Definition submit (i : nat) (a : server) : server := mkserver (a_disk a) (a_bufs a) (a_queue a ++ [i]) (a_woken a).
(** Do the first request. *)
Definition finish (readable : Z → Z → bool) (a : server) : server :=
  match a_queue a with
  | [] => a
  | i :: q =>
      let b := a_bufs a i in
      let woken := a_woken a ++ [Kern.CBuf i] in
      if Bio.b_dirty b then mkserver (written b (a_disk a)) (<[i := synced b]> (a_bufs a)) q woken
      else
        let x := if readable (drive b) (Bio.b_blockno b) then a_disk a (drive b) (Bio.b_blockno b) else Bio.b_data b in
        mkserver (a_disk a) (<[i := synced (Bio.set_bdata x b)]> (a_bufs a)) q woken
  end.
Definition own (i : nat) (b : Bio.buf) (a : server) : server := mkserver (a_disk a) (<[i := b]> (a_bufs a)) (a_queue a) (a_woken a).
Definition answer (b : Bio.buf) : outcome := if Bio.b_valid b && negb (Bio.b_dirty b) then Done else Asleep.

(** ** The driver's steps *)

Section steps.
Context {D : Type} `{Ata D} `{!PromptWrite D}.
Implicit Types s : ist D.

(** The controller works on request [b], or has taken its data. *)
Definition working (b : Bio.buf) (d : D) : Prop :=
  phase_of d = if Bio.b_dirty b then Idle else Reading (drive b) (Bio.b_blockno b).

(** The disk of the controller is ahead of the server's by the write it is
    working on. *)
Record refines (s : ist D) (a : server) : Prop := {
  rf_chain : chain (qnext s) (idequeue s) (a_queue a);
  rf_small i : i ∈ a_queue a → (i < Bio.NBUF)%nat;
  rf_wants i : i ∈ a_queue a → wants_io (havedisk1 s) (bufs s i) = true;
  rf_bufs i : bufs s i = a_bufs a i;
  rf_disk : disk_of (dev s) = match a_queue a with
    | i :: _ => if Bio.b_dirty (bufs s i) then written (bufs s i) (a_disk a) else a_disk a
    | [] => a_disk a
    end;
  rf_working i q : a_queue a = i :: q → working (bufs s i) (dev s);
  rf_quiet : Kern.quiet (kn s);
  rf_woken : Kern.woken (kn s) = a_woken a
}.

Context `{mode : Mode}.

Lemma wp_iacquire s (Q : unit → ist D → Prop) : Kern.quiet (kn s) →
  Q tt (put_kn (Kern.mkkern [Kern.LIde] (Kern.woken (kn s))) s) → wp acquire Q s.
Proof. intros. by apply wp_zoom, Kern.wp_kacquire. Qed.
Lemma wp_irelease s (Q : unit → ist D → Prop) : Kern.lks (kn s) = [Kern.LIde] →
  Q tt (put_kn (Kern.mkkern [] (Kern.woken (kn s))) s) → wp release Q s.
Proof. intros. by apply wp_zoom, Kern.wp_krelease. Qed.

Lemma wp_idewait (checkerr : bool) s (Q : Z → ist D → Prop) :
  (∀ r d', settled (dev s) d' → (∀ drv sec, phase_of (dev s) = Reading drv sec → checkerr = true → (0 <=? r) = readable drv sec) →
     Q r (put_dev d' s)) →
  wp (idewait checkerr) Q s.
Proof.
  intros HQ. unfold idewait. wp_steps. apply wp_zoom, wp_poll; [done|]. intros r d' Hs Hr. change (Z.lor IDE_DF IDE_ERR) with 0x21.
  destruct checkerr; cbn [andb]; [|apply wp_ret, HQ; [done|by intros]].
  destruct (Z.land r 33 =? 0) eqn:E; cbn [negb]; apply wp_ret, HQ; try done; intros drv sec Hp _; rewrite <-(Hr drv sec Hp); done.
Qed.

Lemma wants_io_spec disk1 b : wants_io disk1 b = true → Bio.b_busy b = true ∧ (Bio.b_valid b && negb (Bio.b_dirty b)) = false ∧
  0 <= Bio.b_blockno b < FSSIZE ∧ (negb (Bio.b_dev b =? 0) && negb disk1) = false ∧ length (Bio.b_data b) = Z.to_nat BSIZE.
Proof.
  unfold wants_io. rewrite !andb_true_iff, negb_true_iff, Z.leb_le, Z.ltb_lt, bool_decide_eq_true.
  intros [[[[[H1 H2] H3] H4] H5] H6]. repeat split; try done. by destruct (Bio.b_dev b =? 0), disk1.
Qed.
Lemma drive_01 b : drive b = 0 ∨ drive b = 1.
Proof. 
  unfold drive. change (Z.land (Bio.b_dev b) 1) with (Z.land (Bio.b_dev b) (Z.ones 1)). rewrite Z.land_ones by lia. change (2 ^ 1) with 2.
  pose proof (Z.mod_pos_bound (Bio.b_dev b) 2). lia.
Qed.

(** Starting a request gives the controller the right command for the right
    sector of the right drive; a write is on the disk. *)
Lemma wp_idestart i s (Q : unit → ist D → Prop) : wants_io (havedisk1 s) (bufs s i) = true →
  (∀ d', working (bufs s i) d' → disk_of d' = (if Bio.b_dirty (bufs s i) then written (bufs s i) (disk_of (dev s)) else disk_of (dev s)) →
     Q tt (put_dev d' s)) →
  wp (idestart (Some i)) Q s.
Proof.
  intros (_ & _ & Hno & _ & Hlen)%wants_io_spec HQ. unfold idestart, bu. wp_steps. set (b := bufs s i) in *.
  rewrite (proj2 (Z.leb_gt _ _)) by lia. change (BSIZE / SECTOR_SIZE) with 1. cbn [Z.ltb]. change (7 <? 1) with false. cbv iota.
  rewrite Z.mul_1_r, i32_small by (unfold FSSIZE in *; lia). apply wp_bind, wp_idewait. intros r d0 [S1 S2 S3 S4] _.
  unfold port, outb. repeat (apply wp_bind, wp_zoom, wp_modify). cbn [dev put_dev].
  change (u8 0) with 0. destruct (control_set d0) as (C1 & C2 & C3 & C4). rewrite S1 in C4.
  change (Z.lor (Z.lor 224 (Z.shiftl (Z.land (Bio.b_dev b) 1) 4)) (Z.land (Z.shiftr (Bio.b_blockno b) 24) 15)) with (head_of (drive b) (Bio.b_blockno b)).
  destruct (address_select (out_byte 0x3f6 0 d0) (drive b) (Bio.b_blockno b) C4 (drive_01 b)) as ((A1 & A2 & A3 & A4) & A5 & A6).
  { unfold FSSIZE in *. lia. }
  set (d1 := out_byte 0x1f6 _ _) in *. change (u8 IDE_CMD_WRITE) with 0x30. change (u8 IDE_CMD_READ) with 0x20.
  unfold working in HQ. destruct (Bio.b_dirty b).
  - apply wp_bind, wp_zoom, wp_modify. cbn [dev put_dev]. apply wp_zoom, wp_outsl. cbn [dev put_dev].
    destruct (command_write d1 A1 A2) as [W1 W2]. rewrite A3, A4 in W1. destruct (data_write _ _ _ (Bio.b_data b) (write_prompt d1 A1 A2) W1 Hlen) as [X1 X2].
    apply HQ; [done|]. rewrite X2, W2, A6, C3, S4. done.
  - apply wp_zoom, wp_modify. cbn [dev put_dev]. destruct (command_read d1 A1 A2) as [W1 W2]. rewrite A3, A4 in W1.
    apply HQ; [done|]. rewrite W2, A6, C3, S4. done.
Qed.

(** The end of the queue. *)
Definition end_of (pp : ptr) (q : list nat) : ptr := match last q with Some j => PNext j | None => pp end.
Definition loaded (pp : ptr) (s : ist D) : option nat := match pp with PQueue => idequeue s | PNext i => qnext s i end.
Lemma wp_find_end q : ∀ fuel pp s (Q : ptr → ist D → Prop), (length q <= fuel)%nat → chain (qnext s) (loaded pp s) q →
  Q (end_of pp q) s → wp (find_end fuel pp) Q s.
Proof.
  assert (Hload : ∀ pp s (Q : option nat → ist D → Prop), Q (loaded pp s) s → wp (load pp) Q s).
  { intros pp s Q HQ. by destruct pp; apply wp_gets. }
  induction q as [|i q IH]; intros fuel pp s Q Hf Hc HQ.
  - cbn [chain] in Hc. destruct fuel; cbn [find_end]; apply wp_bind, Hload; rewrite Hc; by apply wp_ret.
  - destruct Hc as [Hi Hc]. destruct fuel as [|fuel]; cbn [length] in Hf; [lia|]. cbn [find_end]. apply wp_bind, Hload. rewrite Hi.
    apply IH; [lia|done|]. unfold end_of in *. rewrite last_cons in HQ. by destruct (last q).
Qed.

Lemma chain_append (nx : nat → option nat) h q i : chain nx h q → i ∉ q → nx i = None →
  chain (match last q with Some j => <[j := Some i]> nx | None => nx end) (match last q with Some _ => h | None => Some i end) (q ++ [i]).
Proof.
  intros Hc Hi Hn. destruct q as [|j q _] using rev_ind; [by split|].
  pose proof (chain_NoDup _ _ _ Hc) as Hnd. apply NoDup_app in Hnd as (_ & Hnd & _).
  rewrite last_snoc, <-app_assoc. apply chain_app in Hc as (m & Hs & -> & _). apply chain_app. exists (Some j). split.
  - eapply seg_ext; [|done]. intros a Ha. apply fn_lookup_insert_ne. intros <-. apply (Hnd j Ha). set_solver.
  - cbn [app chain]. rewrite fn_lookup_insert. split; [done|]. split; [done|]. rewrite fn_lookup_insert_ne by set_solver. done.
Qed.

Lemma length_queue s a : refines s a → (length (a_queue a) <= Bio.NBUF)%nat.
Proof.
  intros Hr. pose proof (chain_NoDup _ _ _ (rf_chain _ _ Hr)) as Hnd. rewrite <-(length_seq Bio.NBUF 0).
  apply submseteq_length, NoDup_submseteq; [done|]. intros i Hi. apply elem_of_seq. pose proof (rf_small _ _ Hr i Hi). lia.
Qed.

Lemma wp_await i s (Q : outcome → ist D → Prop) : Kern.lks (kn s) = [Kern.LIde] →
  Q (answer (bufs s i)) (put_kn (Kern.mkkern [] (Kern.woken (kn s))) s) → wp (await i) Q s.
Proof.
  intros Hk HQ. unfold await, bu. wp_steps. unfold answer in HQ.
  destruct (_ && _); cbn [negb]; apply wp_bind, wp_irelease; try done; by apply wp_ret.
Qed.

(** Submitting a request. *)
Lemma wp_iderw i s a (Q : outcome → ist D → Prop) : refines s a → i ∉ a_queue a → (i < Bio.NBUF)%nat →
  wants_io (havedisk1 s) (bufs s i) = true →
  (∀ s', refines s' (submit i a) → havedisk1 s' = havedisk1 s → Q Asleep s') → wp (iderw i) Q s.
Proof.
  intros Hr Hi Hlt Hw HQ. destruct (wants_io_spec _ _ Hw) as (W1 & W2 & W3 & W4 & W5). pose proof (length_queue _ _ Hr) as Hlen.
  destruct Hr as [R1 R2 R3 R4 R5 R6 R7 R8]. unfold iderw, bu. wp_steps. rewrite W1, W2. cbn [negb]. wp_steps. rewrite W4.
  apply wp_bind, wp_iacquire; [done|]. cbn [assign]. wp_steps. apply (wp_find_end (a_queue a)); [lia| |].
  { cbn. eapply chain_ext; [|exact R1]. intros j Hj. apply fn_lookup_insert_ne. set_solver. }
  assert (Hc : chain (<[i := None]> (qnext s)) (idequeue s) (a_queue a)).
  { eapply chain_ext; [|exact R1]. intros j Hj. apply fn_lookup_insert_ne. set_solver. }
  apply chain_append with (i := i) in Hc; [|done|by rewrite fn_lookup_insert].
  set (s1 := put_qnext _ _). set (s2 := put_kn (Kern.mkkern [Kern.LIde] (a_woken a)) (mkist (kn s) (dev s) (bufs s)
    (match last (a_queue a) with Some j => <[j := Some i]> (<[i := None]> (qnext s)) | None => <[i := None]> (qnext s) end)
    (match last (a_queue a) with Some _ => idequeue s | None => Some i end) (havedisk1 s))).
  assert (Hassign : ∀ P : unit → ist D → Prop, P tt s2 → wp (assign (end_of PQueue (a_queue a)) (Some i)) P s1).
  { intros P HP. unfold end_of, s2 in *. rewrite <-R8 in HP. by destruct (last (a_queue a)); apply wp_modify. }
  apply wp_bind, Hassign. wp_steps. change (idequeue s2) with (match last (a_queue a) with Some _ => idequeue s | None => Some i end).
  assert (Ha : answer (bufs s i) = Asleep) by (unfold answer; by rewrite W2).
  assert (Hsmall : ∀ j, j ∈ a_queue a ++ [i] → (j < Bio.NBUF)%nat) by (intros j [Hj|Hj]%elem_of_app; [by apply R2|set_solver]).
  assert (Hall : ∀ j, j ∈ a_queue a ++ [i] → wants_io (havedisk1 s) (bufs s j) = true).
  { intros j [Hj|Hj%list_elem_of_singleton]%elem_of_app; [by apply R3|by subst]. }
  destruct (a_queue a) as [|j q] eqn:Eq.
  - cbn [last] in *. rewrite decide_True by done. apply wp_bind, wp_idestart; [done|]. intros d' Hwk Hd. apply wp_await; [done|].
    cbn [bufs put_dev s2 put_kn]. rewrite Ha. apply HQ; [|done]. constructor; cbn; try done.
    + by rewrite Eq.
    + by rewrite Eq.
    + by rewrite Eq.
    + rewrite Eq. cbn. rewrite Hd. cbn. by rewrite R5.
    + intros j q. rewrite Eq. cbn. by intros [= <- <-].
  - assert (Hl : is_Some (last (j :: q))) by (by apply last_is_Some). destruct Hl as [k Hk]. rewrite Hk in *.
    destruct R1 as [Hq R1]. rewrite decide_False by (rewrite Hq; intros [= ->]; set_solver). wp_steps. apply wp_await; [done|].
    cbn [bufs put_dev s2 put_kn]. rewrite Ha. apply HQ; [|done]. constructor; cbn; rewrite ?Eq; cbn; try done.
    + unfold s2. cbn. by rewrite Hk.
    + intros k' q' [= <- <-]. by apply (R6 j q).
Qed.

(** A woken process looks at its buffer. *)
Lemma wp_iderw_woken i s a (Q : outcome → ist D → Prop) : refines s a →
  (∀ s', refines s' a → havedisk1 s' = havedisk1 s → Q (answer (a_bufs a i)) s') → wp (iderw_woken i) Q s.
Proof.
  intros [R1 R2 R3 R4 R5 R6 R7 R8] HQ. apply wp_bind, wp_iacquire; [done|]. apply wp_await; [done|]. cbn. rewrite R4.
  by apply HQ; [constructor|].
Qed.

(** The second half of the handler: the first buffer [i] is done, [b] is what it
    holds, and the rest of the queue is [q]. *)
Lemma wp_intr_rest i b q (a a' : server) s (Q : unit → ist D → Prop) : refines s a → a_queue a = i :: q → 
  a' = mkserver (disk_of (dev s)) (<[i := synced b]> (a_bufs a)) q (a_woken a ++ [Kern.CBuf i]) →
  (∀ s', refines s' a' → havedisk1 s' = havedisk1 s → Q tt s') →
  ∀ d f, disk_of d = disk_of (dev s) → f i = b → (∀ j, j ≠ i → f j = bufs s j) →
  wp (upd i (λ b, Bio.set_bflags (Bio.b_busy b) true (Bio.b_dirty b) b);;
      upd i (λ b, Bio.set_bflags (Bio.b_busy b) (Bio.b_valid b) false b);;
      wakeup i;;
      p ← gets idequeue;
      (match p with Some _ => idestart p | None => mret tt end);;
      release) Q (mkist (Kern.mkkern [Kern.LIde] (Kern.woken (kn s))) d f (qnext s) (qnext s i) (havedisk1 s)).
Proof.
  intros [R1 R2 R3 R4 R5 R6 R7 R8] Eq -> HQ d f Hd Hfi Hf. rewrite Eq in *. destruct R1 as [Hh R1].
  pose proof (chain_NoDup _ _ _ (conj Hh R1 : chain (qnext s) (idequeue s) (i :: q))) as [Hiq Hnd]%NoDup_cons.
  set (f' := alter (λ b, Bio.set_bflags (Bio.b_busy b) (Bio.b_valid b) false b) i (alter (λ b, Bio.set_bflags (Bio.b_busy b) true (Bio.b_dirty b) b) i f)).
  assert (Hf' : ∀ j, f' j = <[i := synced b]> (a_bufs a) j).
  { intros j. unfold f'. destruct (decide (i = j)) as [<-|Hne].
    - rewrite fn_lookup_insert, !fn_lookup_alter, Hfi. done.
    - rewrite fn_lookup_insert_ne, !fn_lookup_alter_ne, Hf by done. apply R4. }
  assert (Hin : ∀ j, j ∈ q → f' j = bufs s j).
  { intros j Hj. rewrite Hf', fn_lookup_insert_ne; [done|]. intros <-. done. }
  unfold upd, wakeup. wp_steps. apply wp_zoom. unfold Kern.wakeup. wp_steps. cbn [idequeue put_kn put_bufs].
  fold f'. destruct q as [|j q]; [cbn [chain] in R1|destruct R1 as [Hj R1]]; [rewrite R1|rewrite Hj].
  - wp_steps. apply wp_irelease; [done|]. apply HQ; [|done]. constructor; cbn; try done; [| |by rewrite R8]; intros k Hk; by apply not_elem_of_nil in Hk.
  - apply wp_bind, wp_idestart; [cbn; fold f'; rewrite Hin by left; apply R3; right; left|]. cbn. fold f'. intros d' Hw Hd'. apply wp_irelease; [done|].
    apply HQ; [|done]. constructor; cbn; fold f'; try done.
    + intros k Hk. apply R2. by right.
    + intros k Hk. rewrite Hin by done. apply R3. by right.
    + rewrite Hd', Hd. done.
    + intros k q' [= <- <-]. done.
    + by rewrite R8.
Qed.

(** The handler finishes the first request. *)
Lemma wp_ideintr s a (Q : unit → ist D → Prop) : refines s a →
  (∀ s', refines s' (finish readable a) → havedisk1 s' = havedisk1 s → Q tt s') → wp ideintr Q s.
Proof.
  intros Hr HQ. unfold ideintr. apply wp_bind, wp_iacquire; [apply Hr|]. wp_steps. cbn [idequeue put_kn].
  rewrite (chain_head _ _ _ (rf_chain _ _ Hr)). destruct (a_queue a) as [|i q] eqn:Eq; cbn [hd_error].
  { apply wp_irelease; [done|]. apply HQ; [|done]. unfold finish. rewrite Eq. destruct Hr. by constructor. }
  unfold bu. wp_steps. cbn [bufs put_queue put_kn]. pose proof (rf_disk _ _ Hr) as Hd. pose proof (rf_working _ _ Hr i q Eq) as Hw.
  rewrite Eq in Hd. pose proof (rf_bufs _ _ Hr i) as Eb. unfold finish in HQ. rewrite Eq, <-Eb in HQ. unfold working in Hw.
  destruct (Bio.b_dirty (bufs s i)); cbn [negb]; apply wp_bind.
  { apply wp_ret. refine (wp_intr_rest i (bufs s i) q a _ s Q Hr Eq _ HQ (dev s) (bufs s) eq_refl eq_refl (λ _ _, eq_refl)). by rewrite Hd. }
  apply wp_bind, wp_idewait. cbn [dev put_queue put_kn]. intros r d' [S1 S2 S3 S4] Hread. rewrite (Hread _ _ Hw eq_refl). clear Hread.
  destruct (readable (drive (bufs s i)) (Bio.b_blockno (bufs s i))) eqn:Er.
  - apply wp_bind, wp_zoom, wp_insl. cbn [dev put_dev]. change (Z.to_nat (BSIZE / 4)) with 128%nat.
    destruct (data_read d' (drive (bufs s i)) (Bio.b_blockno (bufs s i))) as (X1 & X2 & X3); [congruence|done|done|].
    apply wp_modify. refine (wp_intr_rest i _ q a _ s Q Hr Eq _ HQ _ (alter _ i (bufs s)) _ _ _).
    + by rewrite Hd.
    + exact (eq_trans X3 S4).
    + rewrite fn_lookup_alter, X1, S4, Hd. done.
    + intros j Hj. by rewrite fn_lookup_alter_ne.
  - apply wp_ret. refine (wp_intr_rest i (bufs s i) q a _ s Q Hr Eq _ HQ d' (bufs s) S4 eq_refl (λ _ _, eq_refl)). 
    rewrite Hd. by destruct (bufs s i).
Qed.

(** ** Start-up *)

Lemma wp_probe n : ∀ s (Q : unit → ist D → Prop), (∀ d b, disk_of d = disk_of (dev s) → Q tt (put_disk1 b (put_dev d s))) → wp (probe n) Q s.
Proof.
  induction n as [|n IH]; intros s Q HQ; cbn [probe].
  - apply wp_ret. destruct s as [k d f x q b]. by apply (HQ d b).
  - apply wp_bind, wp_zoom, wp_inb. destruct (status_keeps (dev s)) as (_ & _ & K). destruct (negb _).
    + apply wp_modify. by apply HQ.
    + apply IH. intros d b Hd. apply (HQ d b). by rewrite Hd.
Qed.

(** The driver starts idle, on the disk as it is. *)
Lemma wp_ideinit {I} `{Ioapic.Window I} (ncpu : Z) (s : boot D I) (Q : unit → boot D I → Prop) : Kern.quiet (kn (ide s)) → idequeue (ide s) = None →
  (∀ s' : boot D I, refines (ide s') (mkserver (disk_of (dev (ide s))) (bufs (ide s)) [] (Kern.woken (kn (ide s)))) → Q tt s') → wp (ideinit ncpu) Q s.
Proof.
  intros Hk Hq HQ. unfold ideinit, onide, onpic, onapic. apply wp_bind, wp_zoom, wp_zoom, wp_modify.
  apply wp_bind, wp_zoom. unfold Pic.picenable, Pic.picsetmask. apply wp_bind, wp_gets, wp_bind, wp_modify, wp_bind, Pic.wp_port_outb, Pic.wp_port_outb.
  cbn [Pic.dev Pic.irqmask ide irqmask apic put_dev put_kn kn dev bufs qnext idequeue havedisk1].
  set (d1 := out_byte _ _ _). assert (Hd1 : disk_of d1 = disk_of (dev (ide s))).
  { assert (Hpic : ∀ pt v d, pt = 0x21 ∨ pt = 0xA1 → disk_of (out_byte pt v d) = disk_of d) by (intros pt v d Hpt; apply other_ports; lia).
    unfold d1. by rewrite !Hpic by (vm_compute; auto). }
  clearbody d1. apply wp_bind, wp_zoom. unfold Ioapic.ioapicenable. apply wp_bind, wp_gets.
  assert (Hrest : ∀ i1 a1 m1, dev i1 = d1 → bufs i1 = bufs (ide s) → idequeue i1 = None →
    kn i1 = Kern.mkkern [] (Kern.woken (kn (ide s))) →
    wp (zoom ide (λ x (s : boot D I), mkboot x (irqmask s) (apic s)) (idewait false);;
      zoom ide (λ x (s : boot D I), mkboot x (irqmask s) (apic s)) (port (outb 502 (Z.lor 224 (Z.shiftl 1 4))));;
      zoom ide (λ x (s : boot D I), mkboot x (irqmask s) (apic s)) (probe 1000);;
      zoom ide (λ x (s : boot D I), mkboot x (irqmask s) (apic s)) (port (outb 502 (Z.lor 224 (Z.shiftl 0 4))))) Q (mkboot i1 m1 a1)).
  { intros i1 a1 m1 E1 E2 E3 E4. apply wp_bind, wp_zoom, wp_idewait. intros r d2 [_ _ _ S4] _.
    apply wp_bind, wp_zoom, wp_zoom, wp_outb. apply wp_bind, wp_zoom, wp_probe. intros d3 b3 Hd3. apply wp_zoom, wp_zoom, wp_outb.
    assert (Hsel : ∀ v d, disk_of (out_byte 0x1f6 (u8 v) d) = disk_of d) by (intros v d; apply register_set; [lia|by apply Z.mod_pos_bound]).
    cbn [dev put_dev ide] in Hd3. rewrite Hsel in Hd3.
    apply HQ. constructor; cbn; try done; try (intros i Hi; by apply not_elem_of_nil in Hi).
    - intros i. by rewrite E2.
    - rewrite Hsel, Hd3, S4. cbn. by rewrite E1, Hd1.
    - by rewrite E4.
    - by rewrite E4. }
  unfold Kern.quiet in Hk. destruct (negb _).
  - apply wp_ret. apply Hrest; cbn; [done..|by rewrite Hk].
  - apply wp_bind, Ioapic.wp_ioapicwrite. intros a1 _ _. apply Ioapic.wp_ioapicwrite. intros a2 _ _. apply Hrest; cbn; [done..|by rewrite Hk].
Qed.
End steps.

(** ** Runs *)

Inductive event := Submit (i : nat) | Intr | Wake (i : nat) | Own (i : nat) (b : Bio.buf).

Section runs.
Context {D : Type} `{Ata D}.

(** Another process may change a buffer it owns, which is not queued. *)
Definition step (e : event) : M (ist D) (option outcome) :=
  match e with
  | Submit i => o ← iderw i; mret (Some o)
  | Intr => ideintr;; mret None
  | Wake i => o ← iderw_woken i; mret (Some o)
  | Own i b => modify (λ s, put_bufs (<[i := b]> (bufs s)) s);; mret None
  end.
Fixpoint run (es : list event) : M (ist D) (list (option outcome)) :=
  match es with [] => mret [] | e :: es => o ← step e; os ← run es; mret (o :: os) end.

(** The same on the server; [None] where a process breaks the rules: it submits
    a buffer that is queued or not fit, or changes a queued one. *)
Definition a_step (disk1 : bool) (e : event) (a : server) : option (option outcome * server) :=
  match e with
  | Submit i => if bool_decide (i ∈ a_queue a) || negb (bool_decide (i < Bio.NBUF)%nat) || negb (wants_io disk1 (a_bufs a i)) then None
                else Some (Some Asleep, submit i a)
  | Intr => Some (None, finish readable a)
  | Wake i => Some (Some (answer (a_bufs a i)), a)
  | Own i b => if bool_decide (i ∈ a_queue a) then None else Some (None, own i b a)
  end.
Fixpoint a_run (disk1 : bool) (es : list event) (a : server) : option (list (option outcome) * server) :=
  match es with
  | [] => Some ([], a)
  | e :: es =>
      match a_step disk1 e a with
      | None => None
      | Some (o, a) => match a_run disk1 es a with None => None | Some (os, a) => Some (o :: os, a) end
      end
  end.

Context `{!PromptWrite D}.
Lemma step_refines `{mode : Mode} e s a o a' (Q : option outcome → ist D → Prop) : refines s a → a_step (havedisk1 s) e a = Some (o, a') →
  (∀ s', refines s' a' → havedisk1 s' = havedisk1 s → Q o s') → wp (step e) Q s.
Proof.
  intros Hr Hs HQ. destruct e as [i| |i|i b]; cbn [step a_step] in *.
  - destruct (bool_decide (i ∈ a_queue a)) eqn:E1; [done|]. destruct (bool_decide (i < Bio.NBUF)%nat) eqn:E2; [|done].
    destruct (wants_io (havedisk1 s) (a_bufs a i)) eqn:E3; [|done]. injection Hs as <- <-.
    apply bool_decide_eq_false in E1. apply bool_decide_eq_true in E2. rewrite <-(rf_bufs _ _ Hr) in E3.
    apply wp_bind, (wp_iderw i s a); [done..|]. intros s' H1 H2. by apply wp_ret, HQ.
  - injection Hs as <- <-. apply wp_bind, (wp_ideintr s a); [done|]. intros s' H1 H2. by apply wp_ret, HQ.
  - injection Hs as <- <-. apply wp_bind, (wp_iderw_woken i s a); [done|]. intros s' H1 H2. by apply wp_ret, HQ.
  - destruct (bool_decide (i ∈ a_queue a)) eqn:E1; [done|]. injection Hs as <- <-. apply bool_decide_eq_false in E1. wp_steps.
    apply HQ; [|done]. assert (Hin : ∀ j, j ∈ a_queue a → <[i := b]> (bufs s) j = bufs s j).
    { intros j Hj. apply fn_lookup_insert_ne. by intros ->. }
    destruct Hr as [R1 R2 R3 R4 R5 R6 R7 R8]. constructor; cbn; try done.
    + intros j Hj. rewrite Hin by done. by apply R3.
    + intros j. destruct (decide (i = j)) as [<-|Hne]; [by rewrite !fn_lookup_insert|]. by rewrite !fn_lookup_insert_ne.
    + destruct (a_queue a) as [|j q]; [done|]. rewrite Hin by left. done.
    + intros j q Ej. rewrite Hin by (rewrite Ej; left). by apply (R6 j q).
Qed.

Lemma run_refines es : ∀ s a os a', refines s a → a_run (havedisk1 s) es a = Some (os, a') →
  ∃ s', run es s = Ok os s' ∧ refines s' a' ∧ havedisk1 s' = havedisk1 s.
Proof.
  induction es as [|e es IH]; intros s a os a' Hr Ha; cbn [a_run run] in *.
  - injection Ha as <- <-. by exists s.
  - destruct (a_step (havedisk1 s) e a) as [[o a1]|] eqn:E; [|done].
    destruct (a_run (havedisk1 s) es a1) as [[os' a2]|] eqn:E2; [|done]. injection Ha as <- <-.
    destruct (wp_total (step e) (λ o' s', o' = o ∧ refines s' a1 ∧ havedisk1 s' = havedisk1 s) s) as (o' & s1 & E1 & -> & H1 & H2).
    { by apply (step_refines e s a o a1). }
    destruct (IH s1 a1 os' a2) as (s2 & E3 & H3 & H4); [done|by rewrite H2|]. exists s2. unfold mbind, M_mbind, M_bind. rewrite E1, E3.
    split; [done|]. split; [done|congruence].
Qed.
End runs.

(** ** Theorems *)

(** C19: the driver is a first-in, first-out disk server.  However requests,
    disk interrupts (spurious ones too), wake-ups and changes of buffers that are
    not queued interleave, the driver's calls return, never panic or spin for
    ever, and give the answers of the server that does the requests one by one
    in the order of submission: a write puts the buffer's data in its block of
    its drive, a read fetches the block's current contents, the buffer is
    marked valid and clean and its process woken once, and a woken call returns
    when its own request is done and sleeps on otherwise.  Between the calls the
    lock is free, the chain of [qnext] pointers is the queue, and the controller
    works on the first request.  All this on a drive that takes the data of a
    write right after the command ([PromptWrite]): on others see
    [slow_write_lost]. *)
Theorem ide_serves_in_order {D} `{Ata D} `{!PromptWrite D} (s : ist D) es a os a' : refines s a → a_run (havedisk1 s) es a = Some (os, a') →
  ∃ s', run es s = Ok os s' ∧ refines s' a'.
Proof. intros Hr Ha. destruct (run_refines es s a os a' Hr Ha) as (s' & E & H1 & _). by exists s'. Qed.

(** C20: the disk driver and the memory disk agree.  On an idle driver, a request
    for a readable block of disk 1 (submit, interrupt, wake up) returns with the
    buffers and the disk exactly as [iderw] of memide.c, which does it in one
    call, leaves them, and the driver is idle again.  The drive takes the data of
    a write right after the command ([PromptWrite]). *)
Theorem iderw_is_memide {D} `{Ata D} `{!PromptWrite D} (s : ist D) a i (t : Bio.bst) : refines s a → a_queue a = [] → (i < Bio.NBUF)%nat →
  wants_io (havedisk1 s) (bufs s i) = true → Bio.b_dev (bufs s i) = 1 → readable 1 (Bio.b_blockno (bufs s i)) = true →
  (∀ j, Bio.bufs t j = bufs s j) → (∀ no, Bio.memdisk t no = disk_of (dev s) 1 no) → Bio.disksize t = FSSIZE →
  ∃ s' t', run [Submit i; Intr; Wake i] s = Ok [Some Asleep; None; Some Done] s' ∧ Bio.iderw i t = Ok tt t' ∧
    (∀ j, bufs s' j = Bio.bufs t' j) ∧ (∀ no, disk_of (dev s') 1 no = Bio.memdisk t' no) ∧
    idequeue s' = None ∧ Kern.quiet (kn s').
Proof.
  intros Hr Eq Hi Hw Hdev Hread Hb Hm Hz. pose proof (wants_io_spec _ _ Hw) as (W1 & W2 & W3 & W4 & W5).
  assert (Hdr : drive (bufs s i) = 1) by (unfold drive; by rewrite Hdev).
  pose proof (rf_disk _ _ Hr) as Hd. rewrite Eq in Hd. pose proof (rf_bufs _ _ Hr) as Hbs.
  set (a2 := finish readable (submit i a)).
  assert (Ha2 : a2 = (if Bio.b_dirty (bufs s i) then mkserver (written (bufs s i) (a_disk a)) (<[i := synced (bufs s i)]> (a_bufs a)) [] (a_woken a ++ [Kern.CBuf i])
    else mkserver (a_disk a) (<[i := synced (Bio.set_bdata (a_disk a 1 (Bio.b_blockno (bufs s i))) (bufs s i))]> (a_bufs a)) [] (a_woken a ++ [Kern.CBuf i]))).
  { unfold a2, finish, submit. cbn [a_queue]. rewrite Eq. cbn [app a_bufs a_disk a_woken]. rewrite <-Hbs, Hdr, Hread. done. }
  destruct (run_refines [Submit i; Intr; Wake i] s a [Some Asleep; None; Some Done] a2) as (s' & E & R & _); [done| |].
  { cbn [a_run a_step]. rewrite <-Hbs, Hw, Eq, bool_decide_false by apply not_elem_of_nil. rewrite bool_decide_true by done. cbn [negb orb].
    fold a2. do 4 f_equal. rewrite Ha2. destruct (Bio.b_dirty _); cbn [a_bufs]; by rewrite fn_lookup_insert. }
  assert (Hbt : Bio.bufs t i = bufs s i) by apply Hb.
  exists s'. unfold Bio.iderw, Bio.bu, Bio.upd, gets, modify, mbind, M_mbind, M_bind, mret, M_mret, M_ret. rewrite Hbt, W1, W2, Hdev.
  cbn [negb Z.eqb Pos.eqb]. rewrite Hz, (proj2 (Z.leb_gt _ _)) by lia.
  destruct R as [R1 R2 R3 R4 R5 R6 R7 R8]. rewrite Ha2 in *. destruct (Bio.b_dirty (bufs s i)) eqn:Edirty; cbn [a_queue a_bufs a_disk chain] in *; eexists; (split; [done|split; [reflexivity|]]); cbn [Bio.bufs Bio.memdisk].
  - split; [|split; [|done]].
    + intros j. rewrite R4. destruct (decide (i = j)) as [<-|Hne].
      * rewrite fn_lookup_insert, !fn_lookup_alter, Hb. unfold synced. done.
      * rewrite fn_lookup_insert_ne, !fn_lookup_alter_ne, Hb, Hbs by done. done.
    + intros no. rewrite R5. unfold written, store. rewrite Hdr. cbn [Z.eqb andb]. destruct (Z.eqb_spec no (Bio.b_blockno (bufs s i))) as [->|Hne].
      * by rewrite fn_lookup_insert.
      * rewrite fn_lookup_insert_ne, Hm, Hd by done. done.
  - split; [|split; [|done]].
    + intros j. rewrite R4. destruct (decide (i = j)) as [<-|Hne].
      * rewrite fn_lookup_insert, !fn_lookup_alter, Hb, Hm, Hd. unfold synced. cbn. by rewrite Edirty.
      * rewrite fn_lookup_insert_ne, !fn_lookup_alter_ne, Hb, Hbs by done. done.
    + intros no. rewrite R5, Hm, Hd. done.
Qed.

(** A read error goes unnoticed.  When the controller reports that a block
    cannot be read, the handler leaves the buffer's data as they were and still
    marks the buffer valid, and the call returns as after a good read. *)
Theorem read_error_unnoticed {D} `{Ata D} `{!PromptWrite D} (s : ist D) a i : refines s a → a_queue a = [] → (i < Bio.NBUF)%nat →
  wants_io (havedisk1 s) (bufs s i) = true → Bio.b_dirty (bufs s i) = false →
  readable (drive (bufs s i)) (Bio.b_blockno (bufs s i)) = false →
  ∃ s', run [Submit i; Intr; Wake i] s = Ok [Some Asleep; None; Some Done] s' ∧ bufs s' i = synced (bufs s i).
Proof.
  intros Hr Eq Hi Hw Hc Hread. pose proof (rf_bufs _ _ Hr) as Hbs. set (a2 := finish readable (submit i a)).
  assert (Ha2 : a2 = mkserver (a_disk a) (<[i := synced (bufs s i)]> (a_bufs a)) [] (a_woken a ++ [Kern.CBuf i])).
  { unfold a2, finish, submit. cbn [a_queue]. rewrite Eq. cbn [app a_bufs a_disk a_woken]. rewrite <-Hbs, Hread, Hc. by destruct (bufs s i). }
  destruct (run_refines [Submit i; Intr; Wake i] s a [Some Asleep; None; Some Done] a2) as (s' & E & R & _); [done| |].
  { cbn [a_run a_step]. rewrite <-Hbs, Hw, Eq, bool_decide_false by apply not_elem_of_nil. rewrite bool_decide_true by done. cbn [negb orb].
    fold a2. do 4 f_equal. rewrite Ha2. cbn [a_bufs]. by rewrite fn_lookup_insert. }
  exists s'. split; [done|]. rewrite (rf_bufs _ _ R), Ha2. cbn [a_bufs]. by rewrite fn_lookup_insert.
Qed.

(** ** An example: a write and a read of block 7, a read of a bad block *)

Definition demo_buf (dirty : bool) (no x : Z) : Bio.buf := Bio.mkbuf true false dirty 1 no 0 0 (replicate 512 x).
Definition demo_bufs : nat → Bio.buf := λ i, match i with O => demo_buf true 7 5 | S O => demo_buf false 7 0 | _ => demo_buf false 1999 9 end.
Definition demo : ist disk :=
  mkist (Kern.mkkern [] []) (mkdisk (mkregs 0 0 0 0 0) Idle (λ _ _, replicate 512 1) 2) demo_bufs (λ _, None) None true.
Definition demo_server : server := mkserver (λ _ _, replicate 512 1) demo_bufs [] [].
Lemma demo_refines : refines demo demo_server.
Proof. constructor; try done; intros i Hi; by apply not_elem_of_nil in Hi. Qed.

Definition demo_events : list event := [Submit 0; Submit 1; Intr; Wake 1; Wake 0; Intr; Wake 1; Intr].
Definition demo_end : server := match a_run (H0:=disk_ata) true demo_events demo_server with Some (_, a) => a | None => demo_server end.
Lemma ide_serves_in_order_witness : (∃ s', run demo_events demo =
    Ok [Some Asleep; Some Asleep; None; Some Asleep; Some Done; None; Some Done; None] s' ∧ refines s' demo_end) ∧
  Bio.b_data (a_bufs demo_end 1) = replicate 512 5 ∧ a_woken demo_end = [Kern.CBuf 0; Kern.CBuf 1].
Proof.
  split; [|split; vm_compute; reflexivity].
  exact (ide_serves_in_order demo demo_events demo_server _ demo_end demo_refines ltac:(vm_compute; reflexivity)).
Defined.

(** The driver does not wait between the command and the data of a write.  On a
    drive that obeys the standard but is busy for a while after the command, the
    write is lost: the call returns, the buffer counts as written, and the disk
    holds what it held before. *)
Definition slow_end := @run disk slow_ports slow_ata [Submit 0; Intr; Wake 0] demo.
Theorem slow_write_lost : ∃ s', slow_end = Ok [Some Asleep; None; Some Done] s' ∧
  bufs s' 0%nat = synced (demo_buf true 7 5) ∧ dsect (dev s') 1 7 = replicate 512 1.
Proof. eexists. split; [vm_compute; reflexivity|]. split; vm_compute; reflexivity. Qed.

Definition demo_memdisk : Bio.bst := Bio.mkbst (Kern.mkkern [] []) demo_bufs (λ _, replicate 512 1) 2000.
Lemma iderw_is_memide_witness : ∃ s' t', run [Submit 0; Intr; Wake 0] demo = Ok [Some Asleep; None; Some Done] s' ∧
  Bio.iderw 0 demo_memdisk = Ok tt t' ∧ (∀ j, bufs s' j = Bio.bufs t' j) ∧ (∀ no, disk_of (dev s') 1 no = Bio.memdisk t' no) ∧
  idequeue s' = None ∧ Kern.quiet (kn s').
Proof.
  exact (iderw_is_memide demo demo_server 0 demo_memdisk demo_refines eq_refl ltac:(vm_compute; lia) ltac:(vm_compute; reflexivity)
    eq_refl eq_refl (λ _, eq_refl) (λ _, eq_refl) eq_refl).
Defined.
Lemma read_error_unnoticed_witness : ∃ s', run [Submit 2; Intr; Wake 2] demo = Ok [Some Asleep; None; Some Done] s' ∧
  bufs s' 2%nat = synced (demo_buf false 1999 9).
Proof.
  exact (read_error_unnoticed demo demo_server 2 demo_refines eq_refl ltac:(vm_compute; lia) ltac:(vm_compute; reflexivity) eq_refl eq_refl).
Defined.

End Ide.
