(* ===== verification/Bootmain.v ===== *)
(** * The boot loader (bootmain.c)

    It reads the kernel's ELF image off the boot disk, from sector 1 on, sector
    by sector through the controller (interface [Ata]), puts the segments at
    their physical addresses and calls the entry point.  Memory is a function
    from 32-bit addresses to bytes. *)

From S2P Require Import Prelude Ports Ata.
Import Ports Ata.
Local Open Scope Z_scope.

Module Bootmain.

Definition SECTSIZE : Z := 512.
Definition ELF_MAGIC : Z := 0x464C457F.
(** Scratch space for the header. *)
Definition ELF : Z := 0x10000.

(** Storing bytes from address [a] on; addresses wrap around. *)
Definition put_bytes (a : Z) (l : list Z) (m : Z → Z) : Z → Z :=
  λ x, match l !! Z.to_nat (u32 (x - a)) with Some v => v | None => m x end.
(** [stosb(addr, data, cnt)] *)
Definition stosb (a v n : Z) (m : Z → Z) : Z → Z := λ x, if u32 (x - a) <? n then v else m x.
(** Little-endian fields. *)
Definition ld16 (m : Z → Z) (a : Z) : Z := m a + 256 * m (u32 (a + 1)).
Definition ld32 (m : Z → Z) (a : Z) : Z := ld16 m a + 65536 * ld16 m (u32 (a + 2)).

Section loader.
Context {D : Type} `{Ata D}.

Record lst := mklst { dev : D; mem : Z → Z }.
Definition put_dev (d : D) (s : lst) : lst := mklst d (mem s).
Definition put_mem (m : Z → Z) (s : lst) : lst := mklst (dev s) m.
Definition port {A} (m : M D A) : M lst A := zoom dev put_dev m.

Definition waitdisk : M lst unit :=
  n ← gets (λ s, busy (dev s));
  port (poll n);;
  mret tt.

Definition readsect (dst offset : Z) : M lst unit :=
  waitdisk;;
  port (outb 0x1F2 1);;
  port (outb 0x1F3 offset);;
  port (outb 0x1F4 (Z.shiftr offset 8));;
  port (outb 0x1F5 (Z.shiftr offset 16));;
  port (outb 0x1F6 (Z.lor (Z.shiftr offset 24) 0xE0));;
  port (outb 0x1F7 0x20);;
  waitdisk;;
  l ← port (insl 0x1F0 (Z.to_nat (SECTSIZE / 4)));
  modify (λ s, put_mem (put_bytes dst l (mem s)) s).

Fixpoint readsects (fuel : nat) (pa epa offset : Z) : M lst unit :=
  if pa <? epa then
    match fuel with
    | O => hang
    | S fuel => readsect pa offset;; readsects fuel (u32 (pa + SECTSIZE)) epa (u32 (offset + 1))
    end
  else mret tt.
Definition readseg (pa count offset : Z) : M lst unit :=
  let epa := u32 (pa + count) in
  let pa := u32 (pa - offset mod SECTSIZE) in
  let offset := offset / SECTSIZE + 1 in
  readsects (S (S (Z.to_nat (count / SECTSIZE)))) pa epa offset.

(** The body of the loop over the program headers, for the one at [ph]. *)
Definition load_segment (ph : Z) : M lst unit :=
  m ← gets mem;
  let pa := ld32 m (u32 (ph + 12)) in
  let filesz := ld32 m (u32 (ph + 16)) in
  readseg pa filesz (ld32 m (u32 (ph + 4)));;
  m ← gets mem;
  let filesz := ld32 m (u32 (ph + 16)) in
  let memsz := ld32 m (u32 (ph + 20)) in
  if filesz <? memsz then modify (λ s, put_mem (stosb (u32 (pa + filesz)) 0 (u32 (memsz - filesz)) (mem s)) s) else mret tt.
Fixpoint load_segments (fuel : nat) (ph eph : Z) : M lst unit :=
  if ph <? eph then
    match fuel with
    | O => hang
    | S fuel => load_segment ph;; load_segments fuel (u32 (ph + 32)) eph
    end
  else mret tt.

(** [Some e]: the kernel is entered at [e]; [None]: the loader returns to
    bootasm.S. *)
Definition bootmain : M lst (option Z) :=
  readseg ELF 4096 0;;
  m ← gets mem;
  if negb (ld32 m ELF =? ELF_MAGIC) then mret None else
  let ph := u32 (ELF + ld32 m (u32 (ELF + 28))) in
  let phnum := ld16 m (u32 (ELF + 44)) in
  load_segments (Z.to_nat phnum) ph (u32 (ph + phnum * 32));;
  m ← gets mem;
  mret (Some (ld32 m (u32 (ELF + 24)))).
End loader.
Arguments lst : clear implicits.

(** ** Reading *)

(** The byte at offset [o] of the image that starts in sector 1. *)
Definition image (f : sectors) (o : Z) : Z := nth (Z.to_nat (o mod SECTSIZE)) (f 0 (1 + o / SECTSIZE)) 0.

Section reading.
Context {D : Type} `{Ata D} `{mode : Mode}.
Implicit Types s : lst D.
(** The image occupies the sectors 1 to [n], which are good. *)
Context (f : sectors) (n : Z) (Hn : 0 <= n < 2 ^ 28 - 1).
Context (Hgood : ∀ sec, 1 <= sec <= n → readable 0 sec = true ∧ length (f 0 sec) = Z.to_nat SECTSIZE).

Lemma u8_land z : u8 z = u8 (Z.land z 0xff).
Proof. unfold u8. change 0xff with (Z.ones 8). rewrite Z.land_ones by lia. change (2 ^ 8) with 256. by rewrite Z.mod_mod. Qed.
Lemma head_boot sec : 0 <= sec < 2 ^ 28 → Z.lor (Z.shiftr sec 24) 0xE0 = head_of 0 sec.
Proof.
  intros Hs. unfold head_of. change (Z.shiftl 0 4) with 0. rewrite Z.lor_0_r, Z.lor_comm. f_equal.
  change 15 with (Z.ones 4). rewrite Z.land_ones, Z.mod_small; [done| |lia]. rewrite Z.shiftr_div_pow2 by lia.
  change (2 ^ 24) with 16777216. change (2 ^ 4) with 16. change (2 ^ 28) with 268435456 in Hs. Z.to_euclidean_division_equations. lia.
Qed.

(** The loader reads the sector it asks for. *)
Lemma wp_readsect dst sec s (Q : unit → lst D → Prop) : disk_of (dev s) = f → 1 <= sec <= n →
  (∀ d', disk_of d' = f → Q tt (mklst d' (put_bytes dst (f 0 sec) (mem s)))) → wp (readsect dst sec) Q s.
Proof.
  intros Hf Hs HQ. unfold readsect, waitdisk. wp_steps. apply wp_zoom, wp_poll; [done|]. intros r d0 [S1 S2 S3 S4] _.
  wp_steps. unfold port, outb. repeat (apply wp_bind, wp_zoom, wp_modify). cbn [dev put_dev].
  rewrite (u8_land sec), (u8_land (Z.shiftr sec 8)), (u8_land (Z.shiftr sec 16)), (head_boot sec) by lia.
  destruct (address_select d0 0 sec S1 (or_introl eq_refl)) as ((A1 & A2 & A3 & A4) & A5 & A6); [lia|].
  set (d1 := out_byte 0x1F6 _ _) in *. change (u8 32) with 32. destruct (command_read d1 A1 A2) as [W1 W2]. rewrite A3, A4 in W1.
  wp_steps. apply wp_zoom, wp_poll; [done|]. cbn [dev put_dev]. intros r' d2 [T1 T2 T3 T4] _. wp_steps.
  apply wp_zoom, wp_insl. cbn [dev put_dev]. change (Z.to_nat (SECTSIZE / 4)) with 128%nat.
  destruct (data_read d2 0 sec) as (X1 & X2 & X3); [congruence|done|by apply Hgood|].
  apply wp_modify. unfold put_mem, put_dev. cbn [dev mem]. rewrite X1, T4, W2, A6, S4, Hf. apply HQ. congruence.
Qed.

Lemma put_bytes_spec a l m x : 0 <= a → a + Z.of_nat (length l) <= w32 → 0 <= x < w32 →
  put_bytes a l m x = if (a <=? x) && (x <? a + Z.of_nat (length l)) then nth (Z.to_nat (x - a)) l 0 else m x.
Proof.
  intros Ha Hl Hx. unfold put_bytes. destruct (Z.leb_spec a x) as [Hle|Hlt]; cbn [andb].
  - rewrite u32_small by lia. destruct (Z.ltb_spec x (a + Z.of_nat (length l))) as [H1|H1].
    + destruct (lookup_lt_is_Some_2 l (Z.to_nat (x - a))) as [v Hv]; [lia|]. rewrite Hv. by rewrite (nth_lookup_Some _ _ _ _ Hv).
    + by rewrite lookup_ge_None_2 by lia.
  - rewrite lookup_ge_None_2; [done|]. unfold u32. replace (x - a) with (x - a + w32 + -1 * w32) by lia.
    rewrite Z_mod_plus_full, Z.mod_small by lia. lia.
Qed.

(** [c] sectors from [sec] on, at consecutive addresses. *)
Lemma wp_readsects c : ∀ fuel pa epa sec s (Q : unit → lst D → Prop), (c <= fuel)%nat → disk_of (dev s) = f →
  0 <= pa → pa + SECTSIZE * Z.of_nat c < w32 → epa <= pa + SECTSIZE * Z.of_nat c → pa + SECTSIZE * (Z.of_nat c - 1) < epa →
  1 <= sec → sec + Z.of_nat c - 1 <= n →
  (∀ d' m', disk_of d' = f → (∀ x, 0 <= x < w32 → m' x =
     if (pa <=? x) && (x <? pa + SECTSIZE * Z.of_nat c) then nth (Z.to_nat ((x - pa) mod SECTSIZE)) (f 0 (sec + (x - pa) / SECTSIZE)) 0 else mem s x) →
     Q tt (mklst d' m')) →
  wp (readsects fuel pa epa sec) Q s.
Proof.
  unfold SECTSIZE. induction c as [|c IH]; intros fuel pa epa sec s Q Hf Hd Hp0 Hw He1 He2 Hs1 Hs2 HQ.
  - assert (E : (pa <? epa) = false) by (apply Z.ltb_ge; lia). destruct fuel; cbn [readsects]; rewrite E; apply wp_ret; destruct s as [d m]; 
      apply HQ; try done; intros x Hx.
    1,2: destruct (Z.leb_spec pa x), (Z.ltb_spec x (pa + 512 * Z.of_nat 0)); try lia; done.
  - destruct fuel as [|fuel]; [lia|]. cbn [readsects]. rewrite (proj2 (Z.ltb_lt pa epa)) by lia. apply wp_bind, wp_readsect; [done|lia|].
    intros d' Hd'. unfold SECTSIZE. rewrite !u32_small by (unfold w32 in *; change (2 ^ 28) with 268435456 in Hn; lia).
    apply IH; [lia|done|lia|lia|lia|lia|lia|lia|]. intros d2 m2 Hd2 Hm2. apply HQ; [done|]. intros x Hx. rewrite Hm2 by done. cbn [mem].
    destruct (Hgood sec) as [_ Hlen]; [lia|]. unfold SECTSIZE in Hlen. rewrite put_bytes_spec by (rewrite ?Hlen; lia). rewrite Hlen.
    change (Z.of_nat (Z.to_nat 512)) with 512. replace (pa + 512 * Z.of_nat (S c)) with (pa + 512 + 512 * Z.of_nat c) by lia.
    destruct (Z.leb_spec (pa + 512) x) as [H1|H1]; cbn [andb].
    + rewrite (proj2 (Z.leb_le pa x)) by lia. rewrite (proj2 (Z.ltb_ge x (pa + 512))) by lia. cbn [andb].
      replace (x - pa) with (x - (pa + 512) + 1 * 512) by lia. rewrite Z_mod_plus_full, Z_div_plus by lia.
      replace (sec + ((x - (pa + 512)) / 512 + 1)) with (sec + 1 + (x - (pa + 512)) / 512) by lia. done.
    + destruct (Z.leb_spec pa x) as [H2|H2]; cbn [andb]; [|done]. rewrite (proj2 (Z.ltb_lt x (pa + 512))) by lia.
      rewrite (proj2 (Z.ltb_lt x _)) by lia. rewrite Z.mod_small, Z.div_small, Z.add_0_r by lia. done.
Qed.

(** A segment of the file at its address; nothing below its first sector
    changes. *)
Lemma wp_readseg pa count off s (Q : unit → lst D → Prop) : disk_of (dev s) = f → 0 <= count → 0 <= off → off mod SECTSIZE <= pa →
  pa + count + SECTSIZE < w32 → off + count <= SECTSIZE * n →
  (∀ d' m', disk_of d' = f → (∀ x, pa <= x < pa + count → m' x = image f (off + (x - pa))) →
     (∀ x, 0 <= x < pa - off mod SECTSIZE → m' x = mem s x) → Q tt (mklst d' m')) →
  wp (readseg pa count off) Q s.
Proof.
  unfold SECTSIZE. intros Hd Hc Ho Hpa Hw Hn' HQ. unfold readseg, SECTSIZE. pose proof (Z.mod_pos_bound off 512 ltac:(lia)) as Hr.
  rewrite !u32_small by lia. set (r := off mod 512) in *.
  assert (Eo : off = 512 * (off / 512) + r) by (apply Z.div_mod; lia). 
  set (c := (count + r + 511) / 512).
  assert (Hcc : 0 <= c ∧ count + r <= 512 * c ∧ 512 * (c - 1) < count + r) by (unfold c; Z.to_euclidean_division_equations; lia).
  assert (Hfuel : c <= count / 512 + 2) by (unfold c; Z.to_euclidean_division_equations; lia).
  apply (wp_readsects (Z.to_nat c)); unfold SECTSIZE; rewrite ?Z2Nat.id by lia; [lia|done|lia|lia|lia|lia|Z.to_euclidean_division_equations; lia|lia|].
  intros d' m' Hd' Hm'. apply HQ; [done| |].
  - intros x Hx. rewrite Hm' by lia. rewrite (proj2 (Z.leb_le _ x)), (proj2 (Z.ltb_lt x _)) by lia. cbn [andb].
    unfold image, SECTSIZE. replace (off + (x - pa)) with (x - (pa - r) + off / 512 * 512) by lia.
    rewrite Z_mod_plus_full, Z_div_plus by lia. do 2 f_equal. lia.
  - intros x Hx. rewrite Hm' by lia. rewrite (proj2 (Z.leb_gt _ x)) by lia. done.
Qed.

(** ** Segments *)

Record seg := mkseg { g_off : Z; g_pa : Z; g_filesz : Z; g_memsz : Z }.
(** The program header at address [ph]. *)
Definition seg_at (m : Z → Z) (ph : Z) : seg :=
  mkseg (ld32 m (u32 (ph + 4))) (ld32 m (u32 (ph + 12))) (ld32 m (u32 (ph + 16))) (ld32 m (u32 (ph + 20))).
Definition ends (g : seg) : Z := g_pa g + g_filesz g `max` g_memsz g.
(** A segment that lies in the image, and above address [lo] with the start of
    its first sector. *)
Definition fits (lo : Z) (g : seg) : Prop :=
  0 <= g_off g ∧ 0 <= g_filesz g ∧ 0 <= g_memsz g ∧ lo <= g_pa g - g_off g mod SECTSIZE ∧ ends g + SECTSIZE < w32 ∧
  g_off g + g_filesz g <= SECTSIZE * n.
(** Segments in increasing order. *)
Fixpoint ordered (lo : Z) (gs : list seg) : Prop :=
  match gs with [] => True | g :: gs => fits lo g ∧ ordered (ends g) gs end.
(** The bytes of the file, then zeros. *)
Definition loaded (m : Z → Z) (g : seg) : Prop :=
  (∀ x, 0 <= x < g_filesz g → m (g_pa g + x) = image f (g_off g + x)) ∧
  (∀ x, g_filesz g <= x < g_memsz g → m (g_pa g + x) = 0).

Lemma stosb_fills a v k m x : 0 <= a → 0 <= k → a + k < w32 → 0 <= x < w32 →
  stosb a v k m x = if (a <=? x) && (x <? a + k) then v else m x.
Proof.
  intros Ha Hk Hw Hx. unfold stosb. destruct (Z.leb_spec a x) as [Hle|Hlt]; cbn [andb].
  - rewrite u32_small by lia. by destruct (Z.ltb_spec (x - a) k), (Z.ltb_spec x (a + k)); try lia.
  - unfold u32. replace (x - a) with (x - a + w32 + -1 * w32) by lia. rewrite Z_mod_plus_full, Z.mod_small by lia.
    by rewrite (proj2 (Z.ltb_ge _ _)) by lia.
Qed.
Lemma ld32_ext m m' a : 0 <= a → a + 4 <= w32 → (∀ x, a <= x < a + 4 → m' x = m x) → ld32 m' a = ld32 m a.
Proof. intros Ha Hw Hx. unfold ld32, ld16. rewrite !(u32_small (a + _)), !(u32_small (a + 2 + _)) by lia. by rewrite !Hx by lia. Qed.
Lemma seg_at_ext m m' ph : 0 <= ph → ph + 32 <= w32 → (∀ x, ph <= x < ph + 32 → m' x = m x) → seg_at m' ph = seg_at m ph.
Proof.
  intros Hp Hw Hx. unfold seg_at. rewrite !(u32_small (ph + _)) by lia. by f_equal; apply ld32_ext; try lia; intros x Hx'; apply Hx; lia.
Qed.

(** One program header. *)
Lemma wp_load_segment lo ph g s (Q : unit → lst D → Prop) : disk_of (dev s) = f → 0 <= ph → ph + 32 <= lo → seg_at (mem s) ph = g → fits lo g →
  (∀ d' m', disk_of d' = f → loaded m' g → (∀ x, 0 <= x < lo → m' x = mem s x) → Q tt (mklst d' m')) →
  wp (load_segment ph) Q s.
Proof.
  intros Hd Hp Hlo Hg (F1 & F2 & F3 & F4 & F5 & F6) HQ. unfold ends in F5. pose proof (Z.mod_pos_bound (g_off g) SECTSIZE ltac:(done)).
  unfold load_segment. cbv zeta. wp_steps. destruct g as [off pa fz mz]. cbn [g_off g_pa g_filesz g_memsz] in *. pose proof Hg as [= -> -> -> E4].
  apply wp_readseg; [done|done|done|lia|lia|done|]. intros d1 m1 Hd1 Hin Hout. wp_steps. cbn [mem].
  assert (Hs : seg_at m1 ph = mkseg off pa fz mz) by (rewrite <-Hg; apply seg_at_ext; [lia|unfold SECTSIZE in *; lia|]; intros x Hx; apply Hout; lia).
  injection Hs as _ _ -> ->. unfold SECTSIZE in *. destruct (Z.ltb_spec fz mz) as [Hlt|Hge].
  - apply wp_modify. unfold put_mem. cbn [dev mem]. rewrite !u32_small by lia. apply HQ; [done| |].
    + split; cbn [g_pa g_filesz g_memsz g_off]; intros x Hx; rewrite stosb_fills by lia.
      * rewrite (proj2 (Z.leb_gt _ _)) by lia. cbn [andb]. rewrite Hin by lia. f_equal. lia.
      * rewrite (proj2 (Z.leb_le _ _)), (proj2 (Z.ltb_lt _ _)) by lia. done.
    + intros x Hx. rewrite stosb_fills by lia. rewrite (proj2 (Z.leb_gt _ _)) by lia. cbn [andb]. apply Hout. lia.
  - apply wp_ret, HQ; [done| |intros x Hx; apply Hout; lia]. split; cbn [g_pa g_filesz g_memsz g_off]; intros x Hx; [|lia].
    rewrite Hin by lia. f_equal. lia.
Qed.

Lemma wp_load_segments gs : ∀ lo fuel ph s (Q : unit → lst D → Prop), disk_of (dev s) = f → 0 <= ph → ph + 32 * Z.of_nat (length gs) <= lo → lo < w32 →
  (length gs <= fuel)%nat → (∀ k g, gs !! k = Some g → seg_at (mem s) (ph + 32 * Z.of_nat k) = g) → ordered lo gs →
  (∀ d' m', disk_of d' = f → Forall (loaded m') gs → (∀ x, 0 <= x < lo → m' x = mem s x) → Q tt (mklst d' m')) →
  wp (load_segments fuel ph (ph + 32 * Z.of_nat (length gs))) Q s.
Proof.
  induction gs as [|g gs IH]; intros lo fuel ph s Q Hd Hp Hlo Hlw Hf Hg Ho HQ.
  - assert (E : (ph <? ph + 32 * Z.of_nat 0) = false) by (apply Z.ltb_ge; lia). cbn [length].
    destruct fuel; cbn [load_segments]; rewrite E; apply wp_ret; destruct s as [d m]; by apply HQ.
  - destruct fuel as [|fuel]; cbn [length] in *; [lia|]. cbn [load_segments]. rewrite (proj2 (Z.ltb_lt _ _)) by lia. destruct Ho as [Hfit Ho].
    pose proof (Hg 0%nat g eq_refl) as Hg0. rewrite Z.add_0_r in Hg0.
    assert (Hlo' : lo <= ends g).
    { destruct Hfit as (_ & F2 & F3 & F4 & _). pose proof (Z.mod_pos_bound (g_off g) SECTSIZE ltac:(done)). unfold ends. lia. }
    assert (Hend : ends g < w32) by (destruct Hfit as (_ & _ & _ & _ & F5 & _); unfold SECTSIZE in *; lia).
    apply wp_bind, (wp_load_segment lo ph g); [done|done|lia|done|done|].
    intros d1 m1 Hd1 Hl1 Hk1. rewrite u32_small by lia. replace (ph + 32 * Z.of_nat (S (length gs))) with (ph + 32 + 32 * Z.of_nat (length gs)) by lia.
    apply (IH (ends g)); [done|lia|lia|done|lia| |done|].
    + intros k g' Hk. pose proof (lookup_lt_Some _ _ _ Hk). rewrite <-(Hg (S k) g' Hk). replace (ph + 32 + 32 * Z.of_nat k) with (ph + 32 * Z.of_nat (S k)) by lia.
      apply seg_at_ext; cbn [mem]; [lia|lia|]. intros x Hx. apply Hk1. lia.
    + intros d2 m2 Hd2 Hl2 Hk2. cbn [mem] in Hk2. apply HQ; [done| |].
      * constructor; [|done]. destruct Hfit as (_ & F2 & F3 & F4 & _). destruct Hl1 as [L1 L2].
        pose proof (Z.mod_pos_bound (g_off g) SECTSIZE ltac:(done)). unfold ends in *. split; intros x Hx; rewrite Hk2 by lia; auto.
      * intros x Hx. rewrite Hk2 by lia. by apply Hk1.
Qed.
End reading.

(** ** The loader *)

Definition phoff (f : sectors) : Z := ld32 (image f) 28.
Definition phnum (f : sectors) : Z := ld16 (image f) 44.
Definition headers (f : sectors) : list seg := (λ k, seg_at (image f) (phoff f + 32 * Z.of_nat k)) <$> seq 0 (Z.to_nat (phnum f)).

(** A field of the header in the scratch space. *)
Lemma ld32_page m f o : (∀ x, ELF <= x < ELF + 4096 → m x = image f (x - ELF)) → 0 <= o → o + 4 <= 4096 → ld32 m (ELF + o) = ld32 (image f) o.
Proof.
  intros Hm H1 H2. unfold ld32, ld16, ELF in *. rewrite !u32_small by (unfold w32; lia). rewrite !Hm by lia. repeat f_equal; lia.
Qed.
Lemma seg_page m f o : (∀ x, ELF <= x < ELF + 4096 → m x = image f (x - ELF)) → 0 <= o → o + 32 <= 4096 → seg_at m (ELF + o) = seg_at (image f) o.
Proof.
  intros Hm H1 H2. unfold seg_at. rewrite !(u32_small (ELF + o + _)), !(u32_small (o + _)) by (unfold ELF, w32; lia). rewrite <-!Z.add_assoc.
  by f_equal; apply ld32_page; try lia.
Qed.

(** C40: the boot loader loads the kernel.  Whatever memory holds, if the sectors
    from 1 on hold an ELF image whose program headers lie in its first page and
    whose segments, in increasing order and above the scratch page, lie in the
    image, the loader calls the image's entry point with every segment in place:
    the bytes of the file at the segment's physical address, then zeros up to
    its size in memory (although reading whole sectors writes beyond a segment
    on both sides).  If the image does not start with the ELF magic number, the
    loader returns.  The disk is not changed. *)
Theorem boot_loads_kernel {D} `{Ata D} (s : lst D) f n : disk_of (dev s) = f → 8 <= n < 2 ^ 28 - 1 →
  (∀ sec, 1 <= sec <= n → readable 0 sec = true ∧ length (f 0 sec) = Z.to_nat SECTSIZE) →
  0 <= phoff f → 0 <= phnum f → phoff f + 32 * phnum f <= 4096 → ordered n (ELF + 4096) (headers f) →
  ∃ s', bootmain s = Ok (if ld32 (image f) 0 =? ELF_MAGIC then Some (ld32 (image f) 24) else None) s' ∧ disk_of (dev s') = f ∧
    (ld32 (image f) 0 = ELF_MAGIC → Forall (loaded f (mem s')) (headers f)).
Proof.
  intros Hd Hn Hgood Hpo Hpn Hpage Hord.
  destruct (wp_total bootmain (λ r s', r = (if ld32 (image f) 0 =? ELF_MAGIC then Some (ld32 (image f) 24) else None) ∧ disk_of (dev s') = f ∧
    (ld32 (image f) 0 = ELF_MAGIC → Forall (loaded f (mem s')) (headers f))) s) as (r & s' & E & -> & H1 & H2); [|by exists s'].
  unfold bootmain. apply wp_bind, (wp_readseg f n); [lia|done|done|done|done|vm_compute; discriminate|vm_compute; reflexivity|unfold SECTSIZE; lia|].
  intros d1 m1 Hd1 Hin _. wp_steps. cbn [mem]. assert (Hp : ∀ x, ELF <= x < ELF + 4096 → m1 x = image f (x - ELF)) by (intros x Hx; apply Hin; lia).
  pose proof (ld32_page m1 f 0 Hp) as E0. rewrite Z.add_0_r in E0. rewrite E0 by lia. clear E0.
  destruct (Z.eqb_spec (ld32 (image f) 0) ELF_MAGIC) as [Em|Em]; cbn [negb]; [|by apply wp_ret].
  rewrite (u32_small (ELF + 28)), (u32_small (ELF + 44)) by (unfold ELF, w32; lia). rewrite (ld32_page m1 f 28 Hp) by lia. fold (phoff f).
  assert (E44 : ld16 m1 (ELF + 44) = phnum f).
  { unfold phnum, ld16. rewrite !u32_small by (unfold ELF, w32; lia). rewrite !Hp by (unfold ELF; lia). repeat f_equal; lia. }
  rewrite E44, !u32_small by (unfold ELF, w32; lia). 
  assert (El : length (headers f) = Z.to_nat (phnum f)) by (unfold headers; by rewrite length_fmap, length_seq).
  replace (ELF + phoff f + phnum f * 32) with (ELF + phoff f + 32 * Z.of_nat (length (headers f))) by lia.
  apply wp_bind, (wp_load_segments f n) with (lo := ELF + 4096); [lia|done|done|unfold ELF; lia|lia|done|lia| |done|].
  - intros k g Hk. cbn [mem]. unfold headers in Hk. apply list_lookup_fmap_Some in Hk as (k' & -> & Hk'). apply lookup_seq in Hk' as [-> Hk'].
    cbn [Nat.add]. rewrite <-Z.add_assoc. apply seg_page; [done|lia|lia].
  - intros d2 m2 Hd2 Hl Hk. wp_steps. cbn [mem dev] in *. split; [|done]. f_equal. change (u32 (ELF + 24)) with (ELF + 24).
    rewrite <-(ld32_page m1 f 24 Hp) by lia. apply ld32_ext; [unfold ELF; lia|unfold ELF, w32; lia|]. intros x Hx. apply Hk. unfold ELF in *. lia.
Qed.

(** ** An example: one segment of 10 bytes, 20 in memory *)

Definition demo_byte (o : Z) : Z :=
  match o with
  | 0 => 0x7F | 1 => 0x45 | 2 => 0x4C | 3 => 0x46
  | 26 => 0x10 | 28 => 52 | 44 => 1
  | 57 => 0x10 | 66 => 0x10 | 68 => 10 | 72 => 20
  | _ => if 4096 <=? o then u8 (o - 4095) else 0
  end.
Definition demo_sectors : sectors := λ _ sec, (λ k, demo_byte (512 * (sec - 1) + Z.of_nat k)) <$> seq 0 512.
Definition demo_disk : disk := mkdisk (mkregs 0 0 0 0 0) Idle demo_sectors 1.
Lemma boot_loads_kernel_witness : ∃ s', bootmain (mklst demo_disk (λ _, 0xCC)) = Ok (Some 0x100000) s' ∧ disk_of (dev s') = demo_sectors ∧
  (ld32 (image demo_sectors) 0 = ELF_MAGIC → Forall (loaded demo_sectors (mem s')) [mkseg 4096 0x100000 10 20]).
Proof.
  assert (Hb : ld32 (image demo_sectors) 0 = ELF_MAGIC) by (vm_compute; reflexivity).
  assert (He : ld32 (image demo_sectors) 24 = 0x100000) by (vm_compute; reflexivity).
  assert (Hh : headers demo_sectors = [mkseg 4096 0x100000 10 20]) by (vm_compute; reflexivity).
  pose proof (boot_loads_kernel (mklst demo_disk (λ _, 0xCC)) demo_sectors 9) as HT. rewrite Hb, He, Hh in HT. rewrite Hb. apply HT; clear HT.
  - reflexivity.
  - vm_compute. split; [discriminate|reflexivity].
  - intros sec Hs. split; [apply Z.ltb_lt; lia|]. unfold demo_sectors. rewrite length_fmap, length_seq. reflexivity.
  - vm_compute. discriminate.
  - vm_compute. discriminate.
  - vm_compute. discriminate.
  - vm_compute. repeat split; discriminate.
Defined.

End Bootmain.
