(* ===== verification/Date.v ===== *)
(** * The date: the real-time clock (lapic.c) and the date command (date.c)

    [cmostime] reads the six registers of the clock chip twice until it gets the
    same values outside of an update, and converts them from BCD if the chip
    says so.  The chip is a parameter with its documented index and data ports.
    [sys_date] passes the time to a process; [dayofweek] is the formula of date.c. *)

From S2P Require Import Prelude Ports Printf Syscall.
Import Ports.
Local Open Scope Z_scope.

Record rtcdate := mkdate { second : Z; minute : Z; hour : Z; day : Z; month : Z; year : Z }.
#[export] Instance rtcdate_eq_dec : EqDecision rtcdate.
Proof. solve_decision. Defined.

Module Rtc.

Definition CMOS_PORT : Z := 0x70.
Definition CMOS_RETURN : Z := 0x71.
Definition CMOS_STATA : Z := 0x0a.
Definition CMOS_STATB : Z := 0x0b.
Definition CMOS_UIP : Z := Z.shiftl 1 7.
Definition SECS : Z := 0x00.
Definition MINS : Z := 0x02.
Definition HOURS : Z := 0x04.
Definition DAY : Z := 0x07.
Definition MONTH : Z := 0x08.
Definition YEAR : Z := 0x09.

(** A number below 100 in BCD. *)
Definition to_bcd (x : Z) : Z := 16 * (x / 10) + x mod 10.

(** What the code relies on of the chip.  The time does not change while it is
    read; [uip] counts the looks at status A that will still find an update in
    progress, during which the other registers hold anything. *)
Class Clock (D : Type) `{Ports D} := {
  now : D → rtcdate;
  bcd : D → bool;
  sel : D → Z;
  uip : D → nat;
  select r d : 0 <= r < 256 → sel (out_byte CMOS_PORT r d) = r ∧ now (out_byte CMOS_PORT r d) = now d ∧
    bcd (out_byte CMOS_PORT r d) = bcd d ∧ uip (out_byte CMOS_PORT r d) = uip d;
  read_keeps d : now (in_byte CMOS_RETURN d).2 = now d ∧ bcd (in_byte CMOS_RETURN d).2 = bcd d ∧
    uip (in_byte CMOS_RETURN d).2 = if sel d =? CMOS_STATA then pred (uip d) else uip d;
  read_status_a d : sel d = CMOS_STATA → (Z.land (in_byte CMOS_RETURN d).1 CMOS_UIP =? 0) = bool_decide (uip d = O);
  read_status_b d : sel d = CMOS_STATB → (Z.land (in_byte CMOS_RETURN d).1 4 =? 0) = bcd d;
  read_field d r f : uip d = O → sel d = r → 0 <= f (now d) < 100 →
    (r, f) ∈ [(SECS, second); (MINS, minute); (HOURS, hour); (DAY, day); (MONTH, month); (YEAR, year)] →
    (in_byte CMOS_RETURN d).1 = if bcd d then to_bcd (f (now d)) else f (now d)
}.

Section rtc.
Context {D : Type} `{Clock D}.

(** [microdelay] does nothing. *)
Definition cmos_read (reg : Z) : M D Z :=
  outb CMOS_PORT reg;;
  inb CMOS_RETURN.
Definition fill_rtcdate : M D rtcdate :=
  s ← cmos_read SECS;
  mi ← cmos_read MINS;
  h ← cmos_read HOURS;
  d ← cmos_read DAY;
  mo ← cmos_read MONTH;
  y ← cmos_read YEAR;
  mret (mkdate s mi h d mo y).
Fixpoint read_twice (fuel : nat) : M D rtcdate :=
  t1 ← fill_rtcdate;
  a ← cmos_read CMOS_STATA;
  if negb (Z.land a CMOS_UIP =? 0) then match fuel with O => hang | S fuel => read_twice fuel end
  else
    t2 ← fill_rtcdate;
    if decide (t1 = t2) then mret t1 else match fuel with O => hang | S fuel => read_twice fuel end.
Definition CONV (x : Z) : Z := u32 (u32 (Z.shiftr x 4 * 10) + Z.land x 0xf).
(** The fuel is the number of looks that find an update in progress. *)
Definition cmostime : M D rtcdate :=
  sb ← cmos_read CMOS_STATB;
  let bcd := Z.land sb (Z.shiftl 1 2) =? 0 in
  n ← gets uip;
  t1 ← read_twice n;
  let t1 := if bcd then mkdate (CONV (second t1)) (CONV (minute t1)) (CONV (hour t1)) (CONV (day t1)) (CONV (month t1)) (CONV (year t1)) else t1 in
  mret (mkdate (second t1) (minute t1) (hour t1) (day t1) (month t1) (u32 (year t1 + 2000))).

(** ** The reading is right *)

Lemma conv_bcd x : 0 <= x < 100 → CONV (to_bcd x) = x.
Proof.
  intros Hx. unfold CONV, to_bcd. rewrite Z.shiftr_div_pow2 by lia. change 0xf with (Z.ones 4). rewrite Z.land_ones by lia. change (2 ^ 4) with 16.
  pose proof (Z.mod_pos_bound x 10 ltac:(lia)). pose proof (Z.div_mod x 10 ltac:(lia)) as E.
  rewrite <-(Z.div_unique_pos (16 * (x / 10) + x mod 10) 16 (x / 10) (x mod 10)), <-(Z.mod_unique_pos (16 * (x / 10) + x mod 10) 16 (x / 10) (x mod 10)) by lia.
  rewrite (u32_small (x / 10 * 10)) by (unfold w32; lia). rewrite u32_small by (unfold w32; lia). lia.
Qed.

(** Only the update counter of the chip may move. *)
Definition same (d d' : D) : Prop := now d' = now d ∧ bcd d' = bcd d.
(** The chip shows two-digit numbers. *)
Definition two_digit (t : rtcdate) : Prop :=
  0 <= second t < 100 ∧ 0 <= minute t < 100 ∧ 0 <= hour t < 100 ∧ 0 <= day t < 100 ∧ 0 <= month t < 100 ∧ 0 <= year t < 100.
Definition raw (d : D) (x : Z) : Z := if bcd d then to_bcd x else x.
Definition raw_date (d : D) : rtcdate :=
  let t := now d in mkdate (raw d (second t)) (raw d (minute t)) (raw d (hour t)) (raw d (day t)) (raw d (month t)) (raw d (year t)).

Context `{mode : Mode}.

Lemma wp_cmos_read r d (Q : Z → D → Prop) : 0 <= r < 256 →
  (∀ v d', same d d' → uip d' = (if r =? CMOS_STATA then pred (uip d) else uip d) →
     (r = CMOS_STATA → (Z.land v CMOS_UIP =? 0) = bool_decide (uip d = O)) → (r = CMOS_STATB → (Z.land v 4 =? 0) = bcd d) →
     (∀ f, uip d = O → 0 <= f (now d) < 100 → (r, f) ∈ [(SECS, second); (MINS, minute); (HOURS, hour); (DAY, day); (MONTH, month); (YEAR, year)] → v = raw d (f (now d))) →
     Q v d') →
  wp (cmos_read r) Q d.
Proof.
  intros Hr HQ. unfold cmos_read. apply wp_bind, wp_outb, wp_inb. unfold u8. rewrite Z.mod_small by done.
  destruct (select r d Hr) as (S1 & S2 & S3 & S4). set (d1 := out_byte CMOS_PORT r d) in *. destruct (read_keeps d1) as (K1 & K2 & K3).
  apply HQ.
  - by split; congruence.
  - rewrite K3, S1, S4. done.
  - intros E. rewrite <-S4. apply read_status_a. congruence.
  - intros E. rewrite <-S3. apply read_status_b. congruence.
  - intros f Hu Hx Hf. unfold raw. rewrite <-S2, <-S3. eapply read_field; [congruence|exact S1|by rewrite S2|done].
Qed.

Lemma wp_fill d (Q : rtcdate → D → Prop) : (∀ t d', same d d' → uip d' = uip d → (uip d = O → two_digit (now d) → t = raw_date d) → Q t d') → wp fill_rtcdate Q d.
Proof.
  intros HQ. unfold fill_rtcdate.
  apply wp_bind, wp_cmos_read; [unfold SECS; lia|]. intros v1 d1 [A1 A2] U1 _ _ F1.
  apply wp_bind, wp_cmos_read; [unfold MINS; lia|]. intros v2 d2 [B1 B2] U2 _ _ F2.
  apply wp_bind, wp_cmos_read; [unfold HOURS; lia|]. intros v3 d3 [C1 C2] U3 _ _ F3.
  apply wp_bind, wp_cmos_read; [unfold DAY; lia|]. intros v4 d4 [D1 D2] U4 _ _ F4.
  apply wp_bind, wp_cmos_read; [unfold MONTH; lia|]. intros v5 d5 [E1 E2] U5 _ _ F5.
  apply wp_bind, wp_cmos_read; [unfold YEAR; lia|]. intros v6 d6 [G1 G2] U6 _ _ F6. apply wp_ret.
  cbn in U1, U2, U3, U4, U5, U6. apply HQ; [split; congruence|congruence|]. intros Hu (T1 & T2 & T3 & T4 & T5 & T6). unfold raw_date.
  rewrite (F1 second), (F2 minute), (F3 hour), (F4 day), (F5 month), (F6 year) by (first [congruence|set_solver|by rewrite ?E1, ?D1, ?C1, ?B1, ?A1]).
  unfold raw. by rewrite E1, E2, D1, D2, C1, C2, B1, B2, A1, A2.
Qed.

Lemma wp_read_twice n : ∀ d (Q : rtcdate → D → Prop), uip d = n → two_digit (now d) → (∀ d', same d d' → Q (raw_date d) d') → wp (read_twice n) Q d.
Proof.
  induction n as [|n IH]; intros d Q Hn Ht HQ; cbn [read_twice]; apply wp_bind, wp_fill; intros t1 d1 [A1 A2] U1 T1;
    apply wp_bind, wp_cmos_read; try (unfold CMOS_STATA; lia); intros v d2 [B1 B2] U2 Hs _ _; rewrite (Hs eq_refl), U1, Hn; cbn in U2.
  - rewrite bool_decide_true by done. cbn [negb]. apply wp_bind, wp_fill. intros t2 d3 [C1 C2] U3 T2.
    assert (Hr : raw_date d2 = raw_date d) by (unfold raw_date, raw; rewrite B1, B2, A1, A2; done).
    rewrite T1 by done. rewrite T2, Hr by (first [by rewrite U2, U1, Hn | by rewrite B1, A1]). rewrite decide_True by done. apply wp_ret, HQ. split; congruence.
  - rewrite bool_decide_false by done. cbn [negb]. apply IH; [rewrite U2, U1, Hn; done|by rewrite B1, A1|]. intros d3 [C1 C2].
    assert (Hr : raw_date d2 = raw_date d) by (unfold raw_date, raw; rewrite B1, B2, A1, A2; done). rewrite Hr. apply HQ. split; congruence.
Qed.
End rtc.

(** The clock is read correctly.  From a chip that shows two-digit numbers,
    in BCD or in binary, cmostime returns as soon as no update is in progress,
    with the time of the chip in binary and the year of this century. *)
Theorem cmostime_reads {D} `{Clock D} (d : D) : two_digit (now d) →
  ∃ d', cmostime d = Ok (mkdate (second (now d)) (minute (now d)) (hour (now d)) (day (now d)) (month (now d)) (year (now d) + 2000)) d' ∧
    now d' = now d ∧ bcd d' = bcd d.
Proof.
  intros Ht. pose proof Ht as (H1 & H2 & H3 & H4 & H5 & H6).
  destruct (wp_total cmostime (λ r d', r = mkdate (second (now d)) (minute (now d)) (hour (now d)) (day (now d)) (month (now d)) (year (now d) + 2000) ∧
    now d' = now d ∧ bcd d' = bcd d) d) as (r & d' & E & -> & Hd); [|by exists d'].
  unfold cmostime. apply wp_bind, wp_cmos_read; [unfold CMOS_STATB; lia|]. intros sb d1 [A1 A2] U1 _ Hb _. cbn in U1.
  change (Z.shiftl 1 2) with 4. rewrite (Hb eq_refl). wp_steps. apply wp_read_twice; [done|by rewrite A1|]. intros d2 [B1 B2]. apply wp_ret.
  split; [|split; congruence]. unfold raw_date, raw. rewrite A1, A2.
  destruct (bcd d); cbn [second minute hour day month year]; rewrite ?conv_bcd by done; by rewrite u32_small by (unfold w32; lia).
Qed.

(** ** A chip *)

Record chip := mkchip { c_time : rtcdate; c_bcd : bool; c_sel : Z; c_uip : nat }.
Definition chip_value (c : chip) : Z :=
  let e x := if c_bcd c then to_bcd x else x in
  let t := c_time c in
  if c_sel c =? CMOS_STATA then (if bool_decide (c_uip c = O) then 0x26 else 0xA6)
  else if c_sel c =? CMOS_STATB then (if c_bcd c then 2 else 6)
  else match c_uip c with
       | S _ => 0xFF
       | O => if c_sel c =? SECS then e (second t) else if c_sel c =? MINS then e (minute t) else if c_sel c =? HOURS then e (hour t)
              else if c_sel c =? DAY then e (day t) else if c_sel c =? MONTH then e (month t) else e (year t)
       end.
Definition chip_in (port : Z) (c : chip) : Z * chip :=
  if port =? CMOS_RETURN then
    (u8 (chip_value c), mkchip (c_time c) (c_bcd c) (c_sel c) (if c_sel c =? CMOS_STATA then pred (c_uip c) else c_uip c))
  else (0, c).
Definition chip_out (port v : Z) (c : chip) : chip := if port =? CMOS_PORT then mkchip (c_time c) (c_bcd c) v (c_uip c) else c.
Lemma chip_in_range port c : 0 <= (chip_in port c).1 < 256.
Proof. unfold chip_in. destruct (port =? CMOS_RETURN); cbn [fst]; [apply Z.mod_pos_bound|]; lia. Qed.
#[export] Instance chip_ports : Ports chip := {
  in_byte := chip_in; out_byte := chip_out; in_words _ _ d := ([], d); out_words _ _ d := d; in_byte_range := chip_in_range
}.
Lemma u8_bcd x : 0 <= x < 100 → u8 (to_bcd x) = to_bcd x ∧ u8 x = x.
Proof.
  intros Hx. unfold u8, to_bcd. pose proof (Z.mod_pos_bound x 10 ltac:(lia)). pose proof (Z.div_mod x 10 ltac:(lia)).
  split; apply Z.mod_small; lia.
Qed.
#[export] Instance chip_clock : Clock chip.
Proof.
  refine {| now := c_time; bcd := c_bcd; sel := c_sel; uip := c_uip |}; cbn [in_byte out_byte chip_ports].
  - done.
  - done.
  - intros c E. unfold chip_in. cbn [fst]. change (CMOS_RETURN =? CMOS_RETURN) with true. unfold chip_value. rewrite E. cbn. by destruct (c_uip c).
  - intros c E. unfold chip_in. change (CMOS_RETURN =? CMOS_RETURN) with true. unfold chip_value. rewrite E. cbn. by destruct (c_bcd c).
  - intros c r f Hu Hs Hx Hin. unfold chip_in. change (CMOS_RETURN =? CMOS_RETURN) with true. cbn [fst]. unfold chip_value. rewrite Hu, Hs.
    destruct (u8_bcd _ Hx) as [E1 E2].
    repeat (apply elem_of_cons in Hin as [[= -> ->]|Hin]; [cbn; by destruct (c_bcd c)|]). by apply not_elem_of_nil in Hin.
Defined.

Definition demo_time : rtcdate := mkdate 59 7 23 31 12 24.
Lemma cmostime_reads_witness : ∃ d', cmostime (mkchip demo_time true 0 2) = Ok (mkdate 59 7 23 31 12 2024) d' ∧ now d' = demo_time ∧ bcd d' = true.
Proof. exact (cmostime_reads (mkchip demo_time true 0 2) ltac:(vm_compute; repeat split; discriminate)). Defined.
End Rtc.

Module Date.

Definition months : list string := ["NULL"; "Jan"; "Feb"; "Mar"; "Apr"; "May"; "Jun"; "Jul"; "Aug"; "Sep"; "Oct"; "Nov"; "Dec"]%string.
Definition days : list string := ["Sun"; "Mon"; "Tue"; "Wed"; "Thu"; "Fri"; "Sat"]%string.

(** C's division truncates. *)
Definition dayofweek (y m d : Z) : Z :=
  let '(d, y) := if m <? 3 then (d + y, y - 1) else (d + (y - 2), y) in
  Z.rem (Z.quot (23 * m) 9 + d + 4 + Z.quot y 4 - Z.quot y 100 + Z.quot y 400) 7.

(** ** The calendar *)

Definition leap (y : Z) : bool := (y mod 4 =? 0) && (negb (y mod 100 =? 0) || (y mod 400 =? 0)).
Definition month_length (y m : Z) : Z :=
  if m =? 2 then (if leap y then 29 else 28) else if (m =? 4) || (m =? 6) || (m =? 9) || (m =? 11) then 30 else 31.
Definition date : Type := Z * Z * Z.
Definition valid (t : date) : Prop := let '(y, m, d) := t in 1 <= y ∧ 1 <= m <= 12 ∧ 1 <= d <= month_length y m.
Definition next (t : date) : date :=
  let '(y, m, d) := t in
  if d <? month_length y m then (y, m, d + 1) else if m <? 12 then (y, m + 1, 1) else (y + 1, 1, 1).
Definition weekday (t : date) : Z := let '(y, m, d) := t in dayofweek y m d.

Lemma next_valid t : valid t → valid (next t).
Proof.
  destruct t as [[y m] d]. unfold valid, next. intros (Hy & Hm & Hd).
  assert (Hl : ∀ y m, 28 <= month_length y m) by (intros; unfold month_length; repeat case_match; lia).
  destruct (Z.ltb_spec d (month_length y m)); [lia|]. destruct (Z.ltb_spec m 12); [specialize (Hl y (m + 1))|specialize (Hl (y + 1) 1)]; lia.
Qed.

(** The weekday in floor arithmetic, which [lia] understands. *)
Lemma dayofweek_eq y m d : 1 <= y → 1 <= m <= 12 → 1 <= d →
  dayofweek y m d = (23 * m / 9 + d + 4 + (if m <? 3 then y + ((y - 1) / 4 - (y - 1) / 100 + (y - 1) / 400) else y - 2 + (y / 4 - y / 100 + y / 400))) mod 7.
Proof.
  intros Hy Hm Hd. unfold dayofweek. destruct (Z.ltb_spec m 3);
    rewrite !Z.quot_div_nonneg by lia; rewrite Z.rem_mod_nonneg by (try lia; Z.to_euclidean_division_equations; lia); f_equal; lia.
Qed.

(** The leap days before the end of a year. *)
Lemma leap_days y : y / 4 - y / 100 + y / 400 = (y - 1) / 4 - (y - 1) / 100 + (y - 1) / 400 + Z.b2z (leap y).
Proof.
  assert (Hk : ∀ k, 0 < k → y / k = (y - 1) / k + Z.b2z (y mod k =? 0)).
  { intros k Hk. pose proof (Z.div_mod y k ltac:(lia)) as E. pose proof (Z.mod_pos_bound y k Hk) as Hr. destruct (Z.eqb_spec (y mod k) 0) as [E0|E0]; cbn [Z.b2z].
    - rewrite <-(Z.div_unique_pos (y - 1) k (y / k - 1) (k - 1)); lia.
    - rewrite <-(Z.div_unique_pos (y - 1) k (y / k) (y mod k - 1)); lia. }
  rewrite (Hk 4), (Hk 100), (Hk 400) by lia. unfold leap.
  assert (y mod 400 = 0 → y mod 100 = 0) by (Z.to_euclidean_division_equations; lia).
  assert (y mod 100 = 0 → y mod 4 = 0) by (Z.to_euclidean_division_equations; lia).
  destruct (Z.eqb_spec (y mod 4) 0), (Z.eqb_spec (y mod 100) 0), (Z.eqb_spec (y mod 400) 0); cbn; lia.
Qed.

Lemma mod7_next a b k : b = a + 1 + 7 * k → b mod 7 = (a mod 7 + 1) mod 7.
Proof. intros ->. rewrite Zplus_mod_idemp_l. replace (a + 1 + 7 * k) with (a + 1 + k * 7) by lia. apply Z_mod_plus_full. Qed.

Lemma weekday_next t : valid t → weekday (next t) = (weekday t + 1) mod 7.
Proof.
  destruct t as [[y m] d]. intros (Hy & Hm & Hd). unfold next, weekday.
  destruct (Z.ltb_spec d (month_length y m)) as [Hlt|Hge].
  { rewrite !dayofweek_eq by lia. apply (mod7_next _ _ 0). lia. }
  assert (d = month_length y m) as -> by lia. pose proof (leap_days y) as Hleap.
  assert (m = 1 ∨ m = 2 ∨ m = 3 ∨ m = 4 ∨ m = 5 ∨ m = 6 ∨ m = 7 ∨ m = 8 ∨ m = 9 ∨ m = 10 ∨ m = 11 ∨ m = 12) as Hm' by lia.
  repeat destruct Hm' as [->|Hm']; [..|subst m]; unfold month_length; cbn [Z.ltb Z.compare Pos.compare Pos.compare_cont Z.eqb Pos.eqb orb];
    rewrite !dayofweek_eq by (repeat case_match; lia); 
    repeat match goal with |- context [Z.add (Zpos ?a) 1] => let r := eval vm_compute in (Z.add (Zpos a) 1) in change (Z.add (Zpos a) 1) with r end;
    cbn [Z.ltb Z.compare Pos.compare Pos.compare_cont]; try replace (y + 1 - 1) with y by lia.
  2: { apply (mod7_next _ _ (-4)). change (23 * 2 / 9) with 5. change (23 * 3 / 9) with 7. destruct (leap y); cbn in Hleap; lia. }
  1: generalize ((y - 1) / 4 - (y - 1) / 100 + (y - 1) / 400) as f; intros f.
  2-11: generalize (y / 4 - y / 100 + y / 400) as f; intros f.
  1-10: apply (mod7_next _ _ (-4)); Z.to_euclidean_division_equations; lia.
  apply (mod7_next _ _ (-8)); Z.to_euclidean_division_equations; lia.
Qed.

(** [n] days later. *)
Fixpoint later (n : nat) (t : date) : date := match n with O => t | S n => next (later n t) end.

(** The date command names the right day of the week.  [dayofweek] is 6
    (Saturday) for 1 January 2000, and for every later date of the Gregorian
    calendar it is that day's number counted on from there, one more for each
    day modulo 7, over ends of months, leap years and centuries. *)
Theorem dayofweek_counts n : let '(y, m, d) := later n (2000, 1, 1) in
  valid (y, m, d) ∧ dayofweek y m d = (6 + Z.of_nat n) mod 7.
Proof.
  assert (H : valid (later n (2000, 1, 1)) ∧ weekday (later n (2000, 1, 1)) = (6 + Z.of_nat n) mod 7).
  { induction n as [|n [IH1 IH2]]; [vm_compute; repeat split; discriminate|]. cbn [later]. split; [by apply next_valid|].
    rewrite weekday_next, IH2, Zplus_mod_idemp_l by done. f_equal. lia. }
  by destruct (later n (2000, 1, 1)) as [[y m] d].
Qed.

(** ** What the command prints *)

Definition chars (t : string) : list Z := (λ a, Z.of_N (Ascii.N_of_ascii a)) <$> String.list_ascii_of_string t.
Definition dec (x : Z) : list Z := default [] (Printf.printint Printf.digits_upper x 10 true).
Definition two (x : Z) : list Z := (if x <? 10 then [48] else []) ++ dec x.
(** The line for a date that was read, or an access outside of the arrays. *)
Definition date_line (r : rtcdate) : option (list Z) :=
  match days !! Z.to_nat (dayofweek (year r) (month r) (day r)), months !! Z.to_nat (month r) with
  | Some dn, Some mn =>
      Some (chars dn ++ [32] ++ chars mn ++ [32] ++ dec (day r) ++ [32] ++ two (hour r) ++ [58] ++ two (minute r) ++ [58] ++
            two (second r) ++ chars " UTC " ++ dec (year r) ++ [10])
  | _, _ => None
  end.
(** Both array accesses are inside for every date. *)
Lemma date_line_some r : valid (year r, month r, day r) → is_Some (date_line r).
Proof.
  intros (Hy & Hm & Hd). unfold date_line. pose proof (dayofweek_eq (year r) (month r) (day r) Hy Hm ltac:(lia)) as E.
  pose proof (Z.mod_pos_bound (23 * month r / 9 + day r + 4 + (if month r <? 3 then year r + ((year r - 1) / 4 - (year r - 1) / 100 + (year r - 1) / 400)
    else year r - 2 + (year r / 4 - year r / 100 + year r / 400))) 7 ltac:(lia)) as Hb. rewrite <-E in Hb.
  destruct (lookup_lt_is_Some_2 days (Z.to_nat (dayofweek (year r) (month r) (day r)))) as [dn ->]; [cbn; lia|].
  destruct (lookup_lt_is_Some_2 months (Z.to_nat (month r))) as [mn ->]; [cbn; lia|]. done.
Qed.
Example date_example : date_line (mkdate 5 7 13 29 2 2024) = Some (chars "Thu Feb 29 13:07:05 UTC 2024" ++ [10]).
Proof. vm_compute. reflexivity. Qed.

End Date.

(** ** The system call (sys_date of sysproc.c) *)

Module SysDate.
Import Syscall Rtc.

Definition SZ_RTCDATE : Z := 24.
Definition put32 (m : Z → Z) (a v : Z) : Z → Z := λ x, if (a <=? x) && (x <? a + 4) then v / 256 ^ (x - a) mod 256 else m x.
Definition store_date (m : Z → Z) (p : Z) (t : rtcdate) : Z → Z :=
  put32 (put32 (put32 (put32 (put32 (put32 m p (second t)) (p + 4) (minute t)) (p + 8) (hour t)) (p + 12) (day t)) (p + 16) (month t)) (p + 20) (year t).
Definition load_date (m : Z → Z) (p : Z) : rtcdate :=
  mkdate (word m p) (word m (p + 4)) (word m (p + 8)) (word m (p + 12)) (word m (p + 16)) (word m (p + 20)).

Section sys_date.
Context {D : Type} `{Clock D}.
(** The clock, the calling process and the dates printed on the console. *)
Record dst := mkdst { dev : D; user : usr; printed : list rtcdate }.
Definition sys_date : M dst Z :=
  u ← gets user;
  match argptr u 0 SZ_RTCDATE with
  | None => mret (-1)
  | Some p =>
      t ← zoom dev (λ d s, mkdst d (user s) (printed s)) cmostime;
      modify (λ s, mkdst (dev s) (mkusr (u_sz u) (u_esp u) (store_date (umem u) p t)) (printed s));;
      modify (λ s, mkdst (dev s) (user s) (printed s ++ [load_date (umem (user s)) p]));;
      mret 0
  end.
End sys_date.
Arguments dst : clear implicits.

Lemma word_put32 m a v : 0 <= v < w32 → word (put32 m a v) a = v.
Proof.
  intros Hv. unfold word, put32. rewrite !(proj2 (Z.leb_le _ _)), !(proj2 (Z.ltb_lt _ _)) by lia. cbn [andb].
  replace (a - a) with 0 by lia. replace (a + 1 - a) with 1 by lia. replace (a + 2 - a) with 2 by lia. replace (a + 3 - a) with 3 by lia.
  change (256 ^ 0) with 1. change (256 ^ 1) with 256. change (256 ^ 2) with 65536. change (256 ^ 3) with 16777216. unfold w32 in Hv.
  Z.to_euclidean_division_equations; lia.
Qed.
Lemma put32_other m a v x : x < a ∨ a + 4 <= x → put32 m a v x = m x.
Proof. intros Hx. unfold put32. destruct (Z.leb_spec a x), (Z.ltb_spec x (a + 4)); done || lia. Qed.
Lemma word_other m a v b : b + 4 <= a ∨ a + 4 <= b → word (put32 m a v) b = word m b.
Proof. intros Hb. unfold word. by rewrite !put32_other by lia. Qed.

Definition small (t : rtcdate) : Prop :=
  0 <= second t < w32 ∧ 0 <= minute t < w32 ∧ 0 <= hour t < w32 ∧ 0 <= day t < w32 ∧ 0 <= month t < w32 ∧ 0 <= year t < w32.
Lemma load_stored_date m p t : small t → load_date (store_date m p t) p = t.
Proof.
  intros (H1 & H2 & H3 & H4 & H5 & H6). unfold load_date, store_date.
  repeat first [rewrite word_put32 by done | rewrite word_other by lia]. by destruct t.
Qed.

(** The date of the year 2000 that a chip with two digits shows. *)
Definition this_century (t : rtcdate) : rtcdate := mkdate (second t) (minute t) (hour t) (day t) (month t) (year t + 2000).

(** The date call delivers the time.  It returns -1 and does nothing if the
    structure it is given does not lie in the process's memory, and 0 otherwise:
    the caller then finds the time of the clock there, and nothing else in its
    memory has changed. *)
Theorem sys_date_delivers {D} `{Clock D} (s : dst D) : user_ok (user s) → two_digit (now (dev s)) →
  match argptr (user s) 0 SZ_RTCDATE with
  | None => sys_date s = Ok (-1) s
  | Some p => ∃ s', sys_date s = Ok 0 s' ∧ now (dev s') = now (dev s) ∧
      load_date (umem (user s')) p = this_century (now (dev s)) ∧ ∀ x, x < p ∨ p + SZ_RTCDATE <= x → umem (user s') x = umem (user s) x
  end.
Proof.
  intros Hu Ht. unfold sys_date, mbind, M_mbind, M_bind, gets. destruct (argptr (user s) 0 SZ_RTCDATE) as [p|]; [|done].
  destruct (cmostime_reads (dev s) Ht) as (d' & E & Hd & _). unfold zoom. rewrite E. eexists. split; [done|]. cbn [dev user umem]. split; [done|]. split.
  - apply load_stored_date. destruct Ht as (H1 & H2 & H3 & H4 & H5 & H6). unfold small, w32. cbn [this_century second minute hour day month year]. lia.
  - intros x Hx. unfold store_date, SZ_RTCDATE in *. by rewrite !put32_other by lia.
Qed.

(** A process of one page whose stack holds the pointer 64. *)
Definition caller : usr := mkusr 4096 1000 (λ x, if x =? 1004 then 64 else 0).
Lemma sys_date_delivers_witness : ∃ s', sys_date (mkdst (mkchip demo_time true 0 2) caller []) = Ok 0 s' ∧ now (dev s') = demo_time ∧
  load_date (umem (user s')) 64 = mkdate 59 7 23 31 12 2024 ∧ ∀ x, x < 64 ∨ 64 + SZ_RTCDATE <= x → umem (user s') x = umem caller x.
Proof.
  assert (E : argptr caller 0 SZ_RTCDATE = Some 64) by (vm_compute; reflexivity).
  pose proof (sys_date_delivers (mkdst (mkchip demo_time true 0 2) caller [])) as H. cbn [user dev] in H. rewrite E in H.
  apply H; [vm_compute; split; discriminate|]. vm_compute. repeat split; congruence.
Defined.

End SysDate.
