(* ===== verification/Grep.v ===== *)
(** * grep (grep.c)

    The regular-expression matcher on strings, lists of characters without the
    terminating NUL, and the loop that reads a file through a buffer of 1024
    bytes and prints the lines that match.

    The matcher is compared with the meaning of a pattern: a list of items, each
    consuming part of the text. *)

From S2P Require Import Prelude CString.
Local Open Scope Z_scope.

Module Grep.

(** ** The matcher *)

(** matchstar: [matchhere] is the matcher for the rest of the pattern. *)
Fixpoint matchstar (matchhere : list Z → bool) (c : Z) (text : list Z) : bool :=
  if matchhere text then true else
  match text with
  | [] => false
  | x :: text => if (x =? c) || (c =? 46) then matchstar matchhere c text else false
  end.

Fixpoint matchhere (re : list Z) (text : list Z) {struct re} : bool :=
  match re with
  | [] => true
  | c :: re1 =>
      let next :=
        match text with
        | x :: text => if (c =? 46) || (c =? x) then matchhere re1 text else false
        | [] => false
        end in
      match re1 with
      | c1 :: re2 => if c1 =? 42 then matchstar (matchhere re2) c text else next
      | [] => if c =? 36 then match text with [] => true | _ => false end else next
      end
  end.

(** The do-while loop of match also tries the empty suffix. *)
Fixpoint match_from (re : list Z) (text : list Z) : bool :=
  if matchhere re text then true else
  match text with [] => false | _ :: text => match_from re text end.
Definition rmatch (re text : list Z) : bool :=
  match re with
  | c :: re1 => if c =? 94 then matchhere re1 text else match_from re text
  | [] => match_from re text
  end.

(** ** What a pattern means *)

Inductive atom := Any | Lit (c : Z).
Inductive item := One (a : atom) | Star (a : atom) | End.

Definition atom_of (c : Z) : atom := if c =? 46 then Any else Lit c.
Fixpoint items (re : list Z) : list item :=
  match re with
  | [] => []
  | c :: re1 =>
      match re1 with
      | c1 :: re2 => if c1 =? 42 then Star (atom_of c) :: items re2 else One (atom_of c) :: items re1
      | [] => if c =? 36 then [End] else [One (atom_of c)]
      end
  end.

Definition fits_atom (a : atom) (x : Z) : Prop := match a with Any => True | Lit c => x = c end.

(** The items match the beginning of the text. *)
Fixpoint begins (l : list item) (text : list Z) : Prop :=
  match l with
  | [] => True
  | One a :: l => ∃ x t, text = x :: t ∧ fits_atom a x ∧ begins l t
  | Star a :: l => ∃ u v, text = u ++ v ∧ Forall (fits_atom a) u ∧ begins l v
  | End :: _ => text = []
  end.

(** A pattern matches a text: anchored at its beginning, or anywhere. *)
Definition matches (re text : list Z) : Prop :=
  match re with
  | c :: re1 => if decide (c = 94) then begins (items re1) text
                else ∃ u v, text = u ++ v ∧ begins (items re) v
  | [] => ∃ u v, text = u ++ v ∧ begins (items re) v
  end.

(** ** Equivalence *)

Lemma is_atom c x : fits_atom (atom_of c) x ↔ (x =? c) || (c =? 46) = true.
Proof.
  unfold atom_of. destruct (Z.eqb_spec c 46), (Z.eqb_spec x c); cbn; split; intros; try done.
Qed.

Lemma matchstar_spec (mh : list Z → bool) (P : list Z → Prop) c :
  (∀ t, mh t = true ↔ P t) →
  ∀ text, matchstar mh c text = true ↔ ∃ u v, text = u ++ v ∧ Forall (fits_atom (atom_of c)) u ∧ P v.
Proof.
  intros Hmh. induction text as [|x t IH]; cbn [matchstar]; destruct (mh _) eqn:E.
  - split; [|done]. intros _. exists [], []. split; [done|]. split; [done|]. by apply Hmh.
  - split; [done|]. intros ([|] & v & Ht & _ & Hv); [|done]. cbn in Ht. subst v. apply Hmh in Hv. congruence.
  - split; [|done]. intros _. exists [], (x :: t). split; [done|]. split; [done|]. by apply Hmh.
  - assert (Hn : ¬ P (x :: t)) by (intros H%Hmh; congruence).
    transitivity (fits_atom (atom_of c) x ∧ matchstar mh c t = true).
    { rewrite is_atom. destruct (_ || _); naive_solver. }
    rewrite IH. split.
    + intros (Hx & u & v & -> & Hu & Hv). exists (x :: u), v. split; [done|]. split; [by constructor|done].
    + intros (u & v & Ht & Hu & Hv). destruct u as [|y u]; cbn in Ht; [by subst v|].
      injection Ht as <- ->. apply Forall_cons in Hu as [Hx Hu]. split; [done|]. by exists u, v.
Qed.

(** Induction on a pattern by one or two characters. *)
Lemma pattern_ind (P : list Z → Prop) :
  P [] → (∀ c, P [c]) → (∀ c c1 re, P re → P (c1 :: re) → P (c :: c1 :: re)) → ∀ re, P re.
Proof.
  intros H0 H1 H2 re. assert (H : P re ∧ ∀ c, P (c :: re)); [|by apply H].
  induction re as [|c1 re [IH1 IH2]]; [auto|]. split; [auto|]. intros c. auto.
Qed.

Lemma matchhere_next c re text (P : list Z → Prop) :
  (∀ t, matchhere re t = true ↔ P t) →
  (match text with x :: t => if (c =? 46) || (c =? x) then matchhere re t else false | [] => false end = true ↔
   ∃ x t, text = x :: t ∧ fits_atom (atom_of c) x ∧ P t).
Proof.
  intros IH. destruct text as [|x t]; [split; [done|]; by intros (? & ? & ? & _)|].
  replace ((c =? 46) || (c =? x)) with ((x =? c) || (c =? 46)) by (rewrite orb_comm, (Z.eqb_sym x c); done).
  transitivity (fits_atom (atom_of c) x ∧ P t).
  - rewrite is_atom, <-IH. destruct (_ || _); naive_solver.
  - naive_solver.
Qed.

Lemma matchhere_spec re : ∀ text, matchhere re text = true ↔ begins (items re) text.
Proof.
  induction re as [|c|c c1 re IH1 IH2] using pattern_ind; intros text.
  - done.
  - cbn [matchhere items]. destruct (c =? 36).
    + by destruct text.
    + cbn [begins]. by apply (matchhere_next c [] text (λ _, True)).
  - cbn [items]. change (matchhere (c :: c1 :: re) text) with
      (if c1 =? 42 then matchstar (matchhere re) c text
       else match text with x :: t => if (c =? 46) || (c =? x) then matchhere (c1 :: re) t else false | [] => false end).
    destruct (c1 =? 42); cbn [begins]; [by apply matchstar_spec|by apply matchhere_next].
Qed.

Lemma match_from_spec re text : match_from re text = true ↔ ∃ u v, text = u ++ v ∧ begins (items re) v.
Proof.
  induction text as [|x t IH]; cbn [match_from]; destruct (matchhere re _) eqn:E.
  - split; [|done]. intros _. exists [], []. split; [done|]. by apply matchhere_spec.
  - split; [done|]. intros ([|] & v & Ht & Hv); [|done]. cbn in Ht. subst v. apply matchhere_spec in Hv. congruence.
  - split; [|done]. intros _. exists [], (x :: t). split; [done|]. by apply matchhere_spec.
  - rewrite IH. split.
    + intros (u & v & -> & Hv). by exists (x :: u), v.
    + intros ([|y u] & v & Ht & Hv); cbn in Ht; [subst v; apply matchhere_spec in Hv; congruence|].
      injection Ht as <- ->. by exists u, v.
Qed.

(** C25: the matcher of Kernighan and Pike, with its mutual recursion and its
    loops, accepts a text exactly when the pattern, read as a sequence of
    characters, wild cards, repetitions and anchors, matches it: at the
    beginning after a caret, anywhere otherwise. *)
Theorem rmatch_equiv (re text : list Z) : rmatch re text = true ↔ matches re text.
Proof.
  unfold rmatch, matches. destruct re as [|c re1]; [apply match_from_spec|].
  destruct (Z.eqb_spec c 94); [rewrite decide_True by done; apply matchhere_spec|].
  rewrite decide_False by done. apply match_from_spec.
Qed.

(** ** The loop over the file *)

Definition BUFSIZE : nat := 1024.

(** The inner loop: the complete lines of the buffer from [p] on, which is
    followed by a NUL.  It returns what it writes and where [p] ends. *)
Fixpoint scan (fuel : nat) (pattern p : list Z) : list Z * list Z :=
  match fuel with
  | O => ([], p)
  | S fuel =>
      match CString.strchr (p ++ [0]) 10 with
      | Some (Some k) =>
          let line := take k p in
          let '(o, r) := scan fuel pattern (drop (S k) p) in
          ((if rmatch pattern line then line ++ [10] else []) ++ o, r)
      | _ => ([], p)
      end
  end.

(** The outer loop: [pend] is the start of the buffer, [src] what is left of the
    file and [sizes] how many bytes the next reads return at most; a read
    returns no more than there is room for, and 0 at the end of the file. *)
Fixpoint grep_loop (fuel : nat) (pattern : list Z) (sizes : list nat) (src pend : list Z) : option (list Z) :=
  let room := (BUFSIZE - length pend - 1)%nat in
  let n := match sizes with k :: _ => Nat.min (Nat.max 1 k) room | [] => room end in
  match take n src with
  | [] => Some []
  | chunk =>
      match fuel with
      | O => None
      | S fuel =>
          let data := pend ++ chunk in
          let '(o, p) := scan (length data) pattern data in
          let pend := if decide (length p = length data) then [] else p in
          match grep_loop fuel pattern (tail sizes) (drop n src) pend with
          | Some r => Some (o ++ r)
          | None => None
          end
      end
  end.
(** Each read takes at least one byte of the file. *)
Definition grep (pattern : list Z) (sizes : list nat) (src : list Z) : option (list Z) :=
  grep_loop (S (length src)) pattern sizes src [].

(** ** Lines *)

(** The lines that end in a newline, and what follows the last newline. *)
Fixpoint complete (t : list Z) : list (list Z) :=
  match t with
  | [] => []
  | x :: t => if decide (x = 10) then [] :: complete t
              else match complete t with [] => [] | l :: ls => (x :: l) :: ls end
  end.
Fixpoint rest_of (t : list Z) : list Z :=
  match t with
  | [] => []
  | x :: t' => if decide (10 ∈ x :: t') then rest_of t' else x :: t'
  end.

Lemma no_newline (t : list Z) : 10 ∉ t → complete t = [] ∧ rest_of t = t.
Proof.
  induction t as [|x t IH]; intros H; [done|]. pose proof H as [Hx Ht]%not_elem_of_cons.
  cbn [complete rest_of]. rewrite !decide_False by done. destruct (IH Ht) as [-> _]. done.
Qed.
Lemma first_newline (a b : list Z) : 10 ∉ a → complete (a ++ 10 :: b) = a :: complete b ∧ rest_of (a ++ 10 :: b) = rest_of b.
Proof.
  induction a as [|x a IH]; intros H.
  - cbn [app complete rest_of]. rewrite !decide_True by (done || apply list_elem_of_here). done.
  - apply not_elem_of_cons in H as [Hx Ha]. destruct (IH Ha) as [E1 E2]. cbn [app complete rest_of].
    rewrite decide_False, E1, E2 by done. rewrite decide_True; [done|].
    apply list_elem_of_further, elem_of_app. right. apply list_elem_of_here.
Qed.
Lemma newline_cases (t : list Z) : (10 ∉ t) ∨ ∃ a b, t = a ++ 10 :: b ∧ 10 ∉ a.
Proof.
  induction t as [|x t IH]; [left; apply not_elem_of_nil|].
  destruct (decide (x = 10)) as [->|Hx]; [right; exists [], t; split; [done|apply not_elem_of_nil]|].
  destruct IH as [H|(a & b & -> & H)].
  - left. by apply not_elem_of_cons.
  - right. exists (x :: a), b. split; [done|]. by apply not_elem_of_cons.
Qed.
(** Induction on the lines of a text. *)
Lemma lines_ind (P : list Z → Prop) :
  (∀ t, 10 ∉ t → P t) → (∀ a b, 10 ∉ a → P b → P (a ++ 10 :: b)) → ∀ t, P t.
Proof.
  intros H1 H2 t.
  remember (length t) as n eqn:E. revert t E. induction (lt_wf n) as [n _ IH]. intros t ->.
  destruct (newline_cases t) as [H|(a & b & -> & H)]; [by apply H1|]. apply H2; [done|].
  eapply IH; [|done]. rewrite length_app. cbn. lia.
Qed.

Lemma complete_app a b : complete (a ++ b) = complete a ++ complete (rest_of a ++ b) ∧ rest_of (a ++ b) = rest_of (rest_of a ++ b).
Proof.
  induction a as [a H|a1 a2 H [IH1 IH2]] using lines_ind.
  - destruct (no_newline a H) as [-> ->]. done.
  - destruct (first_newline a1 a2 H) as [-> ->]. rewrite <-app_assoc. cbn [app].
    destruct (first_newline a1 (a2 ++ b) H) as [-> ->]. rewrite IH1, IH2. done.
Qed.
Lemma rest_clean t : 10 ∉ rest_of t.
Proof.
  induction t as [t H|a b H IH] using lines_ind.
  - by destruct (no_newline t H) as [_ ->].
  - by destruct (first_newline a b H) as [_ ->].
Qed.
Lemma rest_suffix t : ∃ u, t = u ++ rest_of t.
Proof.
  induction t as [t H|a b H [u IH]] using lines_ind.
  - destruct (no_newline t H) as [_ ->]. by exists [].
  - destruct (first_newline a b H) as [_ ->]. exists (a ++ 10 :: u). rewrite <-app_assoc. cbn. by rewrite <-IH.
Qed.

(** What grep should print of some lines. *)
Definition outs (pattern : list Z) (ls : list (list Z)) : list Z :=
  concat (map (λ l, l ++ [10]) (filter (λ l, rmatch pattern l = true) ls)).

Lemma outs_cons pattern l ls :
  outs pattern (l :: ls) = (if rmatch pattern l then l ++ [10] else []) ++ outs pattern ls.
Proof.
  unfold outs. rewrite filter_cons. destruct (rmatch pattern l); [rewrite decide_True by done|rewrite decide_False by done]; done.
Qed.
Lemma outs_app pattern l1 l2 : outs pattern (l1 ++ l2) = outs pattern l1 ++ outs pattern l2.
Proof. unfold outs. by rewrite filter_app, map_app, concat_app. Qed.

Lemma strchr_from_newline (a : list Z) : ∀ n b, 10 ∉ a → 0 ∉ a →
  CString.strchr_from n (a ++ 10 :: b) 10 = Some (Some (n + length a)%nat) ∧
  CString.strchr_from n (a ++ [0]) 10 = Some None.
Proof.
  induction a as [|x a IH]; intros n b H1 H2; cbn [app CString.strchr_from length].
  - cbn. by rewrite Nat.add_0_r.
  - apply not_elem_of_cons in H1 as [H1 H1'], H2 as [H2 H2'].
    rewrite (proj2 (Z.eqb_neq x 0)), (proj2 (Z.eqb_neq x 10)) by congruence.
    destruct (IH (S n) b H1' H2') as [-> ->]. split; [|done]. do 2 f_equal. lia.
Qed.

Lemma scan_spec pattern p : ∀ fuel, 0 ∉ p → (length p <= fuel)%nat → scan fuel pattern p = (outs pattern (complete p), rest_of p).
Proof.
  induction p as [p H|a b H IH] using lines_ind; intros fuel H0 Hf.
  - destruct (no_newline p H) as [-> ->]. destruct fuel; [done|]. cbn [scan]. unfold CString.strchr.
    by rewrite (proj2 (strchr_from_newline p 0 [] H H0)).
  - rewrite length_app in Hf. cbn [length] in Hf. destruct fuel as [|fuel]; [lia|].
    apply not_elem_of_app in H0 as [Ha [_ Hb]%not_elem_of_cons]. cbn [scan]. unfold CString.strchr. rewrite <-app_assoc. cbn [app].
    rewrite (proj1 (strchr_from_newline a 0 (b ++ [0]) H Ha)). cbn [Nat.add].
    rewrite take_app_length. replace (drop (S (length a)) (a ++ 10 :: b)) with b.
    + rewrite IH by (done || lia). destruct (first_newline a b H) as [-> ->]. by rewrite outs_cons.
    + replace (S (length a)) with (length (a ++ [10])) by (rewrite length_app; cbn; lia).
      change (a ++ 10 :: b) with (a ++ [10] ++ b). by rewrite app_assoc, drop_app_length.
Qed.

(** Every line fits the buffer with its newline and the NUL. *)
Definition lines_fit (t : list Z) : Prop := Forall (λ l, (length l <= 1022)%nat) (complete t) ∧ (length (rest_of t) <= 1022)%nat.

Lemma long_prefix (d t : list Z) : lines_fit (d ++ t) → 10 ∉ d → (length d = 1023)%nat → False.
Proof.
  intros [H1 H2] Hd Hl. destruct (newline_cases (d ++ t)) as [H|(a & b & E & Ha)].
  - destruct (no_newline _ H) as [_ E]. rewrite E, length_app in H2. lia.
  - destruct (first_newline a b Ha) as [Ec _]. rewrite E, Ec in H1. apply Forall_cons in H1 as [H1 _].
    assert (Hin : (d ++ t) !! length a = Some 10) by (rewrite E, lookup_app_r, Nat.sub_diag by lia; done).
    rewrite lookup_app_l in Hin by lia. apply Hd. by apply list_elem_of_lookup_2 in Hin.
Qed.

Lemma grep_loop_spec pattern : ∀ fuel src pend,
  0 ∉ pend ++ src → 10 ∉ pend → (length pend <= 1022)%nat → lines_fit (pend ++ src) → (length src < fuel)%nat →
  grep_loop fuel pattern [] src pend = Some (outs pattern (complete (pend ++ src))).
Proof.
  induction fuel as [|fuel IH]; intros src pend H0 Hp Hl Hfit Hf; [lia|].
  destruct (decide (src = [])) as [->|Hsrc].
  { cbn [grep_loop]. rewrite take_nil, app_nil_r. by destruct (no_newline pend Hp) as [-> _]. }
  set (n := (BUFSIZE - length pend - 1)%nat). assert (Hn : (1 <= n)%nat ∧ (length pend + n = 1023)%nat) by (unfold n, BUFSIZE; lia).
  assert (Hpos : (1 <= length src)%nat) by (destruct src; [done|cbn; lia]).
  assert (Elen : length (take n src) = Nat.min n (length src)) by apply length_take.
  replace (grep_loop (S fuel) pattern [] src pend) with
    (let '(o, p) := scan (length (pend ++ take n src)) pattern (pend ++ take n src) in
     match grep_loop fuel pattern [] (drop n src) (if decide (length p = length (pend ++ take n src)) then [] else p) with
     | Some r => Some (o ++ r) | None => None end).
  2: { cbn [grep_loop]. fold n. destruct (take n src) eqn:E; [cbn in Elen; lia|]. done. }
  set (data := pend ++ take n src) in *.
  assert (ET : pend ++ src = data ++ drop n src) by (unfold data; by rewrite <-app_assoc, take_drop).
  rewrite ET in *. apply not_elem_of_app in H0 as [H0d H0s]. rewrite scan_spec by done.
  assert (Hdl : length data = (length pend + Nat.min n (length src))%nat) by (unfold data; rewrite length_app; lia).
  assert (Hds : length (drop n src) = (length src - n)%nat) by apply length_drop.
  destruct (complete_app data (drop n src)) as [Ec Er]. destruct (rest_suffix data) as [u Eu].
  assert (Hlu : length data = (length u + length (rest_of data))%nat) by (rewrite Eu at 1; apply length_app).
  case_decide as Hno.
  - assert (u = []) as -> by (destruct u; [done|cbn in Hlu; lia]). cbn in Eu.
    assert (Hnd : 10 ∉ data) by (rewrite Eu; apply rest_clean).
    assert (drop n src = []) as E.
    { destruct (decide (length src <= n)%nat); [apply length_zero_iff_nil; lia|].
      exfalso. apply (long_prefix data (drop n src)); [done|done|lia]. }
    rewrite E, app_nil_r in *. destruct (no_newline data Hnd) as [-> _]. destruct fuel; cbn; by rewrite ?take_nil.
  - rewrite IH.
    + by rewrite Ec, outs_app.
    + apply not_elem_of_app. split; [|done]. intros H. apply H0d. rewrite Eu. apply elem_of_app. by right.
    + apply rest_clean.
    + lia.
    + destruct Hfit as [F1 F2]. rewrite Ec in F1. apply Forall_app in F1 as [_ F1]. split; [done|]. by rewrite <-Er.
    + lia.
Qed.

(** On a file without NUL bytes whose lines fit the buffer, grep
    terminates and writes exactly the lines that match, in order and each with
    its newline, however the lines lie across the reads. *)
Theorem grep_filters (pattern src : list Z) :
  0 ∉ src → lines_fit src → grep pattern [] src = Some (outs pattern (complete src)).
Proof. intros H0 Hf. apply (grep_loop_spec pattern _ src []); [done|apply not_elem_of_nil|cbn; lia|done|lia]. Qed.

(** The pattern o.$ and the lines one, two, foo. *)
Lemma grep_filters_witness :
  grep [111; 46; 36] [] [111;110;101;10;116;119;111;10;102;111;111;10] = Some [102;111;111;10].
Proof.
  rewrite (grep_filters [111; 46; 36] [111;110;101;10;116;119;111;10;102;111;111;10]).
  - vm_compute. reflexivity.
  - apply (bool_decide_unpack _). vm_compute. exact I.
  - vm_compute. split; [repeat constructor|repeat constructor].
Defined.

(** A read that ends inside a line, as from a pipe, makes grep drop the start of
    the line: the line abc is not found when its bytes arrive in two reads. *)
Theorem grep_drops_partial_lines :
  grep [97; 98; 99] [2%nat] [97; 98; 99; 10] = Some [] ∧ rmatch [97; 98; 99] [97; 98; 99] = true.
Proof. vm_compute. done. Qed.
End Grep.
