(* ===== verification/Sh.v ===== *)
(** * The shell's parser (sh.c)

    The command line is a list of characters [b] followed by a NUL at position
    [es = length b].  The parser's cursor [*ps] is the rest of the line; a
    pointer into the line is a position.  The shell's [panic] prints a message
    and exits: outcome [Panic].

    [parseexec] creates the exec command first, wraps it in redirections as they
    come and fills in its arguments through the pointer it kept; here the
    redirections are collected in that order and wrapped around it at the end. *)

From S2P Require Import Prelude CString.
Local Open Scope Z_scope.

Module Sh.

Definition MAXARGS : nat := 10.
Definition O_RDONLY : Z := 0.
Definition O_WRONLY : Z := 1.
Definition O_CREATE : Z := 512.

(** A counted string of the line: [q] and [eq]. *)
Definition span : Type := nat * nat.

(** Commands over a type of strings: counted ones in the parser. *)
Record redir (A : Type) := mkredir { r_file : A; r_mode : Z; r_fd : Z }.
Arguments mkredir {A} _ _ _.
Arguments r_file {A} _.
Arguments r_mode {A} _.
Arguments r_fd {A} _.
Inductive cmd (A : Type) :=
| Exec (argv : list A)
| Redir (c : cmd A) (r : redir A)
| Pipe (left right : cmd A)
| List (left right : cmd A)
| Back (c : cmd A).
Arguments Exec {A} _.
Arguments Redir {A} _ _.
Arguments Pipe {A} _ _.
Arguments List {A} _ _.
Arguments Back {A} _.

Definition whitespace : list Z := [32; 9; 13; 10; 11].
Definition symbols : list Z := [60; 124; 62; 38; 59; 40; 41].
Definition is_in (l : list Z) (c : Z) : bool := bool_decide (c ∈ l).
Definition is_space : Z → bool := is_in whitespace.
Definition is_plain (c : Z) : bool := negb (is_space c) && negb (is_in symbols c).

(** [while(s < es && strchr(whitespace, *s)) s++;] *)
Fixpoint skip (s : list Z) : list Z :=
  match s with c :: s' => if is_space c then skip s' else s | [] => [] end.
(** The end of a word. *)
Fixpoint skip_word (s : list Z) : list Z :=
  match s with c :: s' => if is_plain c then skip_word s' else s | [] => [] end.

(** What gettoken returns: 0, the symbol, ['+'] for two greater signs, ['a']. *)
Inductive token := TEnd | TSym (c : Z) | TPlus | TWord.
#[export] Instance token_eq_dec : EqDecision token.
Proof. solve_decision. Defined.

Section parser.
(** The length of the line. *)
Context (es : nat).
Definition pos (s : list Z) : nat := (es - length s)%nat.

Definition gettoken : M (list Z) (token * span) := λ s,
  let s := skip s in
  let q := pos s in
  let '(ret, s) :=
    match s with
    | [] => (TEnd, s)
    | c :: s1 =>
        if is_in [124; 40; 41; 59; 38; 60] c then (TSym c, s1)
        else if c =? 62 then
          match s1 with
          | c1 :: s2 => if c1 =? 62 then (TPlus, s2) else (TSym c, s1)
          | [] => (TSym c, s1)
          end
        else (TWord, skip_word s)
    end in
  Ok (ret, (q, pos s)) (skip s).

Definition peek (toks : list Z) : M (list Z) bool := λ s,
  let s := skip s in
  Ok (match s with c :: _ => is_in toks c | [] => false end) s.

Definition redir_of (tok : token) (f : span) : list (redir span) :=
  match tok with
  | TSym c => if c =? 60 then [mkredir f O_RDONLY 0]
              else if c =? 62 then [mkredir f (Z.lor O_WRONLY O_CREATE) 1] else []
  | TPlus => [mkredir f (Z.lor O_WRONLY O_CREATE) 1]
  | _ => []
  end.

(** The redirections that come next, after the ones in [rs]. *)
Fixpoint parseredirs (fuel : nat) (rs : list (redir span)) : M (list Z) (list (redir span)) :=
  p ← peek [60; 62];
  if (p : bool) then
    match fuel with
    | O => hang
    | S fuel =>
        '(tok, _) ← gettoken;
        '(t, f) ← gettoken;
        if decide (t ≠ TWord) then panic "missing file for redirection"
        else parseredirs fuel (rs ++ redir_of tok f)
    end
  else mret rs.

Definition wrap (c : cmd span) (rs : list (redir span)) : cmd span := foldl Redir c rs.

(** The loop of parseexec over the arguments [argv]. *)
Fixpoint parseargs (fuel : nat) (argv : list span) (rs : list (redir span)) : M (list Z) (list span * list (redir span)) :=
  p ← peek [124; 41; 38; 59];
  if (p : bool) then mret (argv, rs) else
  match fuel with
  | O => hang
  | S fuel' =>
      '(tok, f) ← gettoken;
      if decide (tok = TEnd) then mret (argv, rs) else
      if decide (tok ≠ TWord) then panic "syntax" else
      let argv := argv ++ [f] in
      if decide (MAXARGS <= length argv)%nat then panic "too many args" else
      rs ← parseredirs fuel' rs;
      parseargs fuel' argv rs
  end.

(** [while(peek(ps, es, ''&'')) ...] *)
Fixpoint parseback (fuel : nat) (c : cmd span) : M (list Z) (cmd span) :=
  p ← peek [38];
  if (p : bool) then
    match fuel with O => hang | S fuel => gettoken;; parseback fuel (Back c) end
  else mret c.

Fixpoint parseline (fuel : nat) : M (list Z) (cmd span) :=
  match fuel with
  | O => hang
  | S fuel =>
      c ← parsepipe fuel;
      c ← parseback fuel c;
      p ← peek [59];
      if (p : bool) then gettoken;; r ← parseline fuel; mret (List c r) else mret c
  end
with parsepipe (fuel : nat) : M (list Z) (cmd span) :=
  match fuel with
  | O => hang
  | S fuel =>
      c ← parseexec fuel;
      p ← peek [124];
      if (p : bool) then gettoken;; r ← parsepipe fuel; mret (Pipe c r) else mret c
  end
with parseexec (fuel : nat) : M (list Z) (cmd span) :=
  match fuel with
  | O => hang
  | S fuel =>
      p ← peek [40];
      if (p : bool) then parseblock fuel else
      rs ← parseredirs fuel [];
      '(argv, rs) ← parseargs fuel [] rs;
      mret (wrap (Exec argv) rs)
  end
with parseblock (fuel : nat) : M (list Z) (cmd span) :=
  match fuel with
  | O => hang
  | S fuel =>
      p ← peek [40];
      if negb (p : bool) then panic "parseblock" else
      gettoken;;
      c ← parseline fuel;
      p ← peek [41];
      if negb (p : bool) then panic "syntax - missing )" else
      gettoken;;
      rs ← parseredirs fuel [];
      mret (wrap c rs)
  end.

Definition parse_all (fuel : nat) : M (list Z) (cmd span) :=
  c ← parseline fuel;
  peek [];;
  s ← gets id;
  if decide (s ≠ []) then panic "syntax" else mret c.
End parser.

(** [*eq = 0] for every counted string. *)
Definition terminate (f : span) (buf : list Z) : list Z := <[f.2 := 0]> buf.
Fixpoint nulterminate (c : cmd span) (buf : list Z) : list Z :=
  match c with
  | Exec argv => foldl (λ buf f, terminate f buf) buf argv
  | Redir c r => terminate (r_file r) (nulterminate c buf)
  | Pipe l r | List l r => nulterminate r (nulterminate l buf)
  | Back c => nulterminate c buf
  end.

(** Four nonterminals are entered per character at most. *)
Definition fuel_for (b : list Z) : nat := (4 * length b + 4)%nat.
(** The parsed command and the line with its strings terminated. *)
Definition parsecmd (b : list Z) : res (list Z) (cmd span * list Z) :=
  match parse_all (length b) (fuel_for b) b with
  | Ok c s => Ok (c, nulterminate c (b ++ [0])) s
  | Panic m s => Panic m s
  | Fault m s => Fault m s
  | Hang s => Hang s
  end.

(** ls > f | (wc; echo a) & *)
Example parse_example :
  match parsecmd [108;115;32;62;32;102;32;124;32;40;119;99;59;32;101;99;104;111;32;97;41;32;38] with
  | Ok (c, _) _ => c = Back (Pipe (Redir (Exec [(0, 2)]) (mkredir (5, 6) 513 1)) (List (Exec [(10, 12)]) (Exec [(14, 18); (19, 20)])))%nat
  | _ => False
  end.
Proof. vm_compute. reflexivity. Qed.
End Sh.
