(* ===== verification/ShProps.v ===== *)
(** * Properties of the shell's parser

    It terminates on every line; what it returns and how it terminates the
    strings; and printing a command and parsing it gives the command back. *)

From S2P Require Import Prelude CString Sh.
Local Open Scope Z_scope.

Module ShProps.
Import Sh.

(** ** The cursor *)

Lemma skip_idemp s : skip (skip s) = skip s.
Proof. induction s as [|c s IH]; [done|]. cbn [skip]. destruct (is_space c) eqn:E; [done|]. cbn [skip]. by rewrite E. Qed.
Lemma skip_length s : (length (skip s) <= length s)%nat.
Proof. induction s as [|c s IH]; [done|]. cbn [skip length]. destruct (is_space c); cbn [length]; lia. Qed.
Lemma skip_suffix s : ∃ u, s = u ++ skip s.
Proof.
  induction s as [|c s [u IH]]; [by exists []|]. cbn [skip]. destruct (is_space c); [|by exists []].
  exists (c :: u). cbn. by rewrite <-IH.
Qed.
Lemma skip_head s c t : skip s = c :: t → is_space c = false.
Proof.
  induction s as [|x s IH]; [done|]. cbn [skip]. destruct (is_space x) eqn:E; [done|]. by intros [= <- _].
Qed.
Lemma skip_word_split s : ∃ w, s = w ++ skip_word s ∧ Forall (λ c, is_plain c = true) w ∧
  match skip_word s with c :: _ => is_plain c = false | [] => True end.
Proof.
  induction s as [|c s (w & E & H & H2)]; [by exists []|]. cbn [skip_word]. destruct (is_plain c) eqn:Ep; [|by exists []].
  exists (c :: w). split; [cbn; by rewrite <-E|]. split; [by constructor|done].
Qed.
Lemma skip_word_app w r : Forall (λ c, is_plain c = true) w → match r with c :: _ => is_plain c = false | [] => True end →
  skip_word (w ++ r) = r.
Proof.
  intros H Hr. induction w as [|c w IH]; cbn [app skip_word].
  - destruct r as [|c r]; [done|]. cbn. by rewrite Hr.
  - apply Forall_cons in H as [-> H]. by apply IH.
Qed.

(** [s] is the end of the line [b]. *)
Definition ends (b s : list Z) : Prop := ∃ u, b = u ++ s.
Lemma ends_skip b s : ends b s → ends b (skip s).
Proof. intros [u ->]. destruct (skip_suffix s) as [v E]. exists (u ++ v). by rewrite <-app_assoc, <-E. Qed.
Lemma ends_app b w r : ends b (w ++ r) → ends b r.
Proof. intros [u ->]. exists (u ++ w). by rewrite app_assoc. Qed.

(** The characters of a counted string. *)
Definition text (b : list Z) (f : span) : list Z := take (f.2 - f.1)%nat (drop f.1 b).

Lemma text_pos b w r : ends b (w ++ r) → text b (pos (length b) (w ++ r), pos (length b) r) = w.
Proof.
  intros [u ->]. unfold text, pos. cbn [fst snd]. rewrite !length_app.
  replace (length u + (length w + length r) - (length w + length r))%nat with (length u) by lia.
  rewrite drop_app_length. replace (_ - _ - _)%nat with (length w) by lia. apply take_app_length.
Qed.

(** A word of the line: plain characters up to one that is not. *)
Definition word_at (b : list Z) (f : span) : Prop :=
  (f.1 < f.2 <= length b)%nat ∧ Forall (λ c, is_plain c = true) (text b f) ∧
  match b !! f.2 with Some c => is_plain c = false | None => True end.

Lemma word_pos b w r : ends b (w ++ r) → w ≠ [] → Forall (λ c, is_plain c = true) w →
  match r with c :: _ => is_plain c = false | [] => True end → word_at b (pos (length b) (w ++ r), pos (length b) r).
Proof.
  intros He Hw Hp Hr. split; [|split; [by rewrite text_pos|]]; destruct He as [u ->]; unfold pos; cbn [fst snd]; rewrite !length_app.
  - assert (0 < length w)%nat by (destruct w; [done|cbn; lia]). lia.
  - replace (_ - length r)%nat with (length (u ++ w)) by (rewrite length_app; lia). rewrite app_assoc, lookup_app_r, Nat.sub_diag by lia.
    by destruct r.
Qed.

(** ** Tokens *)

Lemma plain_not_symbol c : is_plain c = true → is_space c = false ∧ c ∉ symbols.
Proof.
  unfold is_plain, is_in. intros [H1%negb_true_iff H2%negb_true_iff]%andb_true_iff. split; [done|].
  by apply bool_decide_eq_false in H2.
Qed.
Lemma is_in_true l c : is_in l c = true ↔ c ∈ l.
Proof. apply bool_decide_eq_true. Qed.
Lemma is_in_false l c : is_in l c = false ↔ c ∉ l.
Proof. apply bool_decide_eq_false. Qed.

Lemma other_is_plain c : is_space c = false → is_in [124; 40; 41; 59; 38; 60] c = false → (c =? 62) = false → is_plain c = true.
Proof.
  unfold is_plain. intros -> H1%is_in_false H2%Z.eqb_neq. cbn [negb andb]. apply negb_true_iff, is_in_false.
  unfold symbols. set_solver.
Qed.

(** What gettoken can do. *)
Lemma gettoken_spec b s : ends b s → ∃ t f s', gettoken (length b) s = Ok (t, f) s' ∧ ends b s' ∧
  (length s' <= length s)%nat ∧ (t ≠ TEnd → (length s' < length (skip s))%nat) ∧ (t = TEnd ↔ skip s = []) ∧ (t = TWord → word_at b f).
Proof.
  intros He. apply ends_skip in He. pose proof (skip_length s) as Hl. unfold gettoken.
  destruct (skip s) as [|c s1] eqn:E.
  { cbn [skip]. eexists _, _, _. split; [done|]. cbn. repeat split; try done; lia. }
  pose proof (skip_head _ _ _ E) as Hc. pose proof (skip_length s1) as Hl1. cbn [length] in *.
  assert (H1 : ends b s1) by (by apply (ends_app _ [c])).
  destruct (is_in [124; 40; 41; 59; 38; 60] c) eqn:E1.
  { eexists _, _, _. split; [done|]. split; [by apply ends_skip|]. repeat split; try done; lia. }
  destruct (c =? 62) eqn:E2.
  { destruct s1 as [|c1 s2]; [|pose proof (skip_length s2); destruct (c1 =? 62)]; eexists _, _, _; (split; [done|]).
    2: split; [by apply ends_skip, (ends_app _ [c1])|]; cbn [length] in *; repeat split; try done; lia.
    all: split; [by apply ends_skip|]; cbn [length] in *; repeat split; try done; lia. }
  pose proof (other_is_plain _ Hc E1 E2) as Hp. destruct (skip_word_split (c :: s1)) as (w & Ew & Hw & Hr).
  assert (Hne : w ≠ []) by (intros ->; change (c :: s1 = skip_word (c :: s1)) in Ew; rewrite <-Ew in Hr; congruence).
  set (r := skip_word (c :: s1)) in *. assert (Hlr : length (c :: s1) = (length w + length r)%nat) by (rewrite Ew at 1; apply length_app).
  assert (0 < length w)%nat by (destruct w; [done|cbn; lia]). pose proof (skip_length r) as Hl2. cbn [length] in Hlr.
  rewrite Ew in He. eexists _, _, _. split; [done|]. split; [apply ends_skip; by apply (ends_app _ w)|].
  split; [lia|]. split; [lia|]. split; [done|]. intros _. rewrite Ew. by apply word_pos.
Qed.
(** ** Every line is parsed or refused *)

(** [m] returns a result with [Q] or calls the shell's [panic]. *)
Definition safe {A} (m : M (list Z) A) (Q : A → list Z → Prop) (s : list Z) : Prop :=
  match m s with Ok a s' => Q a s' | Panic _ _ => True | Fault _ _ | Hang _ => False end.

Lemma safe_bind {A B} (m : M (list Z) A) (f : A → M (list Z) B) P Q s :
  safe m P s → (∀ a s', P a s' → safe (f a) Q s') → safe (mbind f m) Q s.
Proof.
  unfold safe at 1 3, mbind, M_mbind, M_bind. intros H Hf. destruct (m s) as [a s'| | |]; try done. by apply Hf.
Qed.
Lemma safe_mono {A} (m : M (list Z) A) (P Q : A → list Z → Prop) s : safe m P s → (∀ a s', P a s' → Q a s') → safe m Q s.
Proof. unfold safe. intros H Hi. destruct (m s); try done. by apply Hi. Qed.

Section words.
Context (b : list Z).
Local Abbreviation es := (length b).

(** The words of a command are words of the line. *)
Definition redirs_ok (rs : list (redir span)) : Prop := Forall (λ r, word_at b (r_file r)) rs.
Fixpoint words_ok (c : cmd span) : Prop :=
  match c with
  | Exec argv => Forall (word_at b) argv ∧ (length argv < MAXARGS)%nat
  | Redir c r => words_ok c ∧ word_at b (r_file r)
  | Pipe l r | List l r => words_ok l ∧ words_ok r
  | Back c => words_ok c
  end.

(** The rest of the line after at least [k] of the [n] characters. *)
Definition rest (n k : nat) (s : list Z) : Prop := ends b s ∧ (length s + k <= n)%nat.

Lemma peek_safe toks s n k : rest n k s →
  safe (peek toks) (λ p s', rest n k s' ∧ skip s' = s' ∧ (p = true → ∃ c t, s' = c :: t ∧ c ∈ toks)) s.
Proof.
  intros [He Hl]. unfold safe, peek. cbn. pose proof (skip_length s).
  split; [split; [by apply ends_skip|lia]|]. split; [apply skip_idemp|].
  destruct (skip s) as [|c t]; [done|]. intros Hc%is_in_true. eauto.
Qed.
Lemma gettoken_safe s n k : rest n k s →
  safe (gettoken es) (λ '(t, f) s', rest n k s' ∧ (t ≠ TEnd → rest n (S k) s') ∧ (skip s ≠ [] → t ≠ TEnd) ∧ (t = TWord → word_at b f)) s.
Proof.
  intros [He Hl]. destruct (gettoken_spec b s He) as (t & f & s' & E & He' & Hl' & Hlt & Ht & Hw). unfold safe. rewrite E.
  pose proof (skip_length s). split; [split; [done|lia]|]. split; [intros Hne; split; [done|]; specialize (Hlt Hne); lia|].
  split; [intros Hs ->; by apply Hs, Ht|done].
Qed.
(** A token that was seen is taken. *)
Lemma taken_safe s n k c t : rest n k s → skip s = s → s = c :: t → safe (gettoken es) (λ _ s', rest n (S k) s') s.
Proof.
  intros Hr Hs ->. apply (safe_mono _ _ _ _ (gettoken_safe _ _ _ Hr)). intros [t' f'] s' (_ & H & Hne & _).
  apply H, Hne. by rewrite Hs.
Qed.

Lemma parseredirs_safe fuel rs s n k : (n <= fuel + k)%nat → rest n k s → redirs_ok rs →
  safe (parseredirs es fuel rs) (λ rs' s', rest n k s' ∧ redirs_ok rs') s.
Proof.
  revert rs s k. induction fuel as [|fuel IH]; intros rs s k Hn Hr Hrs; cbn [parseredirs];
    (apply (safe_bind _ _ _ _ _ (peek_safe _ _ _ _ Hr)); intros [] s1 (Hr1 & Hs1 & Hp)); try done;
    destruct (Hp eq_refl) as (c & t & -> & _).
  { destruct Hr1 as [_ Hl]. cbn [length] in Hl. lia. }
  eapply safe_bind; [by eapply taken_safe|]. intros [tok f0] s2 Hr2.
  eapply safe_bind; [by apply gettoken_safe|]. intros [tk f] s3 (Hr3 & Hr3' & _ & Hw).
  destruct (decide (tk ≠ TWord)) as [|Htk]; [done|]. apply dec_stable in Htk. subst tk.
  eapply safe_mono; [apply (IH _ _ (S k)); [lia|done|]|].
  { apply Forall_app. split; [done|]. specialize (Hw eq_refl). unfold redir_of. repeat case_match; rewrite ?Forall_singleton; by try apply Forall_nil. }
  intros rs' s' [[He Hl] H]. split; [split; [done|lia]|done].
Qed.

Lemma parseargs_safe fuel argv rs s n k : (n < fuel + k)%nat → rest n k s → redirs_ok rs → Forall (word_at b) argv →
  (length argv < MAXARGS)%nat →
  safe (parseargs es fuel argv rs) (λ '(argv', rs') s', rest n k s' ∧ redirs_ok rs' ∧ Forall (word_at b) argv' ∧ (length argv' < MAXARGS)%nat) s.
Proof.
  revert argv rs s k. induction fuel as [|fuel IH]; intros argv rs s k Hn Hr Hrs Ha Hm; cbn [parseargs];
    (apply (safe_bind _ _ _ _ _ (peek_safe _ _ _ _ Hr)); intros [] s1 (Hr1 & Hs1 & _)); try done.
  { destruct Hr1 as [_ Hl]. lia. }
  eapply safe_bind; [by apply gettoken_safe|]. intros [tk f] s2 (Hr2 & Hr2' & _ & Hw).
  destruct (decide (tk = TEnd)) as [->|Hne]; [done|]. specialize (Hr2' Hne).
  destruct (decide (tk ≠ TWord)) as [|Htk]; [done|]. apply dec_stable in Htk. subst tk.
  destruct (decide _) as [|Hlen]; [done|].
  eapply safe_bind; [apply (parseredirs_safe _ _ _ n (S k)); [lia|done|done]|]. intros rs' s3 [Hr3 Hrs'].
  eapply safe_mono; [apply (IH _ _ _ (S k)); [lia|done|done| |lia]|].
  { apply Forall_app. split; [done|]. apply Forall_singleton. by apply Hw. }
  intros [argv' rs''] s' ([He Hl] & H). split; [split; [done|lia]|done].
Qed.

Lemma parseback_safe fuel c s n k : (n <= fuel + k)%nat → rest n k s → words_ok c →
  safe (parseback es fuel c) (λ c' s', rest n k s' ∧ words_ok c') s.
Proof.
  revert c s k. induction fuel as [|fuel IH]; intros c s k Hn Hr Hc; cbn [parseback];
    (apply (safe_bind _ _ _ _ _ (peek_safe _ _ _ _ Hr)); intros [] s1 (Hr1 & Hs1 & Hp)); try done;
    destruct (Hp eq_refl) as (x & t & -> & _).
  { destruct Hr1 as [_ Hl]. cbn [length] in Hl. lia. }
  eapply safe_bind; [by eapply taken_safe|]. intros u s2 Hr2.
  eapply safe_mono; [apply (IH _ _ (S k)); [lia|done|done]|]. intros c' s' [[He Hl] H]. split; [split; [done|lia]|done].
Qed.
Lemma wrap_ok c rs : words_ok c → redirs_ok rs → words_ok (wrap c rs).
Proof.
  revert c. induction rs as [|r rs IH]; intros c Hc H; [done|]. apply Forall_cons in H as [Hr H]. by apply IH.
Qed.

(** The fuel the four nonterminals need when [m] characters are left. *)
Lemma parse_safe fuel s n k :
  rest n k s →
  ((4 * n + 4 <= fuel + 4 * k)%nat → safe (parseline es fuel) (λ c s', rest n k s' ∧ words_ok c) s) ∧
  ((4 * n + 3 <= fuel + 4 * k)%nat → safe (parsepipe es fuel) (λ c s', rest n k s' ∧ words_ok c) s) ∧
  ((4 * n + 2 <= fuel + 4 * k)%nat → safe (parseexec es fuel) (λ c s', rest n k s' ∧ words_ok c) s) ∧
  ((4 * n + 1 <= fuel + 4 * k)%nat → safe (parseblock es fuel) (λ c s', rest n k s' ∧ words_ok c) s).
Proof.
  revert s k. induction fuel as [|fuel IH]; intros s k Hr; assert (k <= n)%nat by (destruct Hr; lia).
  { repeat split; intros Hf; lia. }
  repeat split; intros Hf; cbn [parseline parsepipe parseexec parseblock].
  - eapply safe_bind; [apply (IH s k Hr); lia|]. intros c s1 [Hr1 Hc].
    eapply safe_bind; [apply (parseback_safe _ _ _ n k); [lia|done|done]|]. intros c' s2 [Hr2 Hc'].
    eapply safe_bind; [by apply (peek_safe _ _ n k)|]. intros [] s3 (Hr3 & Hs3 & Hp); [|done]. destruct (Hp eq_refl) as (x & t & -> & _).
    eapply safe_bind; [by eapply taken_safe|]. intros u s4 Hr4.
    eapply safe_bind; [apply (IH s4 (S k) Hr4); lia|]. intros r s5 [Hr5 Hc5]. split; [destruct Hr5; split; [done|lia]|done].
  - eapply safe_bind; [apply (IH s k Hr); lia|]. intros c s1 [Hr1 Hc].
    eapply safe_bind; [by apply (peek_safe _ _ n k)|]. intros [] s3 (Hr3 & Hs3 & Hp); [|done]. destruct (Hp eq_refl) as (x & t & -> & _).
    eapply safe_bind; [by eapply taken_safe|]. intros u s4 Hr4.
    eapply safe_bind; [apply (IH s4 (S k) Hr4); lia|]. intros r s5 [Hr5 Hc5]. split; [destruct Hr5; split; [done|lia]|done].
  - eapply safe_bind; [by apply (peek_safe _ _ n k)|]. intros [] s1 (Hr1 & Hs1 & _); [apply (IH s1 k Hr1); lia|].
    eapply safe_bind; [apply (parseredirs_safe _ _ _ n k); [lia|done|by apply Forall_nil]|]. intros rs s2 [Hr2 Hrs].
    eapply safe_bind; [apply (parseargs_safe _ _ _ _ n k); [lia|done|done|by apply Forall_nil|unfold MAXARGS; cbn; lia]|].
    intros [argv rs'] s3 (Hr3 & Hrs' & Ha & Hm). split; [done|]. by apply wrap_ok.
  - eapply safe_bind; [by apply (peek_safe _ _ n k)|]. intros [] s1 (Hr1 & Hs1 & Hp); [|done]. destruct (Hp eq_refl) as (x & t & -> & _).
    eapply safe_bind; [by eapply taken_safe|]. intros u s2 Hr2.
    eapply safe_bind; [apply (IH s2 (S k) Hr2); lia|]. intros c s3 [Hr3 Hc].
    eapply safe_bind; [by apply (peek_safe _ _ n (S k))|]. intros [] s4 (Hr4 & Hs4 & Hp4); [|done]. destruct (Hp4 eq_refl) as (y & t' & -> & _).
    eapply safe_bind; [by eapply taken_safe|]. intros u' s5 Hr5.
    eapply safe_bind; [apply (parseredirs_safe _ _ _ n (S (S k))); [lia|done|by apply Forall_nil]|]. intros rs s6 [Hr6 Hrs].
    split; [destruct Hr6; split; [done|lia]|]. by apply wrap_ok.
Qed.

Lemma parse_all_safe : safe (parse_all es (fuel_for b)) (λ c s, s = [] ∧ words_ok c) b.
Proof.
  assert (Hr : rest es 0 b) by (split; [by exists []|lia]). unfold parse_all.
  eapply safe_bind; [apply (parse_safe _ _ _ _ Hr); unfold fuel_for; lia|]. intros c s1 [Hr1 Hc].
  eapply safe_bind; [by apply (peek_safe _ _ es 0)|]. intros u s2 _. unfold safe, mbind, M_mbind, M_bind, gets. cbn.
  destruct (decide (s2 ≠ [])) as [|Hs]; [done|]. by apply dec_stable in Hs.
Qed.
End words.

(** ** The terminated strings *)

(** The counted strings, in the order in which they are terminated. *)
Fixpoint spans {A} (c : cmd A) : list A :=
  match c with
  | Exec argv => argv
  | Redir c r => spans c ++ [r_file r]
  | Pipe l r | List l r => spans l ++ spans r
  | Back c => spans c
  end.
Definition terminate_all (fs : list span) (buf : list Z) : list Z := foldl (λ buf f, terminate f buf) buf fs.
Lemma nulterminate_all c buf : nulterminate c buf = terminate_all (spans c) buf.
Proof.
  revert buf. induction c as [argv|c IH r|l IHl r IHr|l IHl r IHr|c IH]; intros buf; cbn [nulterminate spans]; try done.
  all: unfold terminate_all in *; rewrite foldl_app; by rewrite ?IH, ?IHl, ?IHr.
Qed.
Lemma words_spans b c : words_ok b c → Forall (word_at b) (spans c).
Proof.
  induction c as [argv|c IH r|l IHl r IHr|l IHl r IHr|c IH]; cbn [words_ok spans]; [by intros []| | | |done];
    intros [H1 H2]; apply Forall_app; rewrite ?Forall_singleton; auto.
Qed.

Lemma terminate_all_cons f fs buf : terminate_all (f :: fs) buf = terminate_all fs (terminate f buf).
Proof. done. Qed.
Lemma terminate_all_length fs buf : length (terminate_all fs buf) = length buf.
Proof. revert buf. induction fs as [|f fs IH]; intros buf; [done|]. rewrite terminate_all_cons, IH. apply length_insert. Qed.
Lemma terminate_all_other fs buf i : (∀ f, f ∈ fs → f.2 ≠ i) → terminate_all fs buf !! i = buf !! i.
Proof.
  revert buf. induction fs as [|f fs IH]; intros buf H; [done|]. rewrite terminate_all_cons, IH by (intros; apply H; set_solver).
  apply list_lookup_insert_ne, H. set_solver.
Qed.
Lemma terminate_all_zero fs buf i : buf !! i = Some 0 → terminate_all fs buf !! i = Some 0.
Proof.
  revert buf. induction fs as [|f fs IH]; intros buf H; [done|]. rewrite terminate_all_cons. apply IH. unfold terminate.
  destruct (decide (f.2 = i)) as [->|]; [|by rewrite list_lookup_insert_ne].
  apply list_lookup_insert_eq. by eapply lookup_lt_Some.
Qed.
Lemma terminate_all_at fs buf f : f ∈ fs → (f.2 < length buf)%nat → terminate_all fs buf !! f.2 = Some 0.
Proof.
  revert buf. induction fs as [|g fs IH]; intros buf Hf Hl; [set_solver|]. rewrite terminate_all_cons.
  apply elem_of_cons in Hf as [<-|Hf]; [|apply IH; [done|]; unfold terminate; by rewrite length_insert].
  by apply terminate_all_zero, list_lookup_insert_eq.
Qed.

Lemma word_plain b f i : word_at b f → (f.1 <= i < f.2)%nat → ∃ c, b !! i = Some c ∧ is_plain c = true.
Proof.
  intros ([_ Hlt] & Hp & _) Hi. destruct (lookup_lt_is_Some_2 b i) as [c Hc]; [lia|]. exists c. split; [done|].
  rewrite Forall_lookup in Hp. apply (Hp (i - f.1)%nat). unfold text. rewrite lookup_take_lt by lia. rewrite lookup_drop.
  rewrite <-Hc. f_equal. lia.
Qed.

(** The words of the terminated line are the words of the command. *)
Lemma terminated_word b fs f : 0 ∉ b → Forall (word_at b) fs → f ∈ fs →
  CString.cstr (drop f.1 (terminate_all fs (b ++ [0]))) = text b f.
Proof.
  intros H0 Hfs Hf. pose proof (proj1 (Forall_forall _ _) Hfs _ Hf) as Hw. destruct (id Hw) as ([Hlt Hle] & _).
  set (buf := terminate_all fs (b ++ [0])).
  assert (Hkeep : ∀ i, (f.1 <= i < f.2)%nat → buf !! i = b !! i).
  { intros i Hi. destruct (word_plain _ _ _ Hw Hi) as (c & Hc & Hp). unfold buf. rewrite terminate_all_other.
    - apply lookup_app_l. lia.
    - intros g Hg <-. pose proof (proj1 (Forall_forall _ _) Hfs _ Hg) as (_ & _ & Hng). rewrite Hc in Hng. congruence. }
  rewrite (CString.cstr_first_nul _ (f.2 - f.1)%nat).
  - apply list_eq. intros i. unfold text. destruct (decide (i < f.2 - f.1)%nat); [|by rewrite !lookup_take_ge by lia].
    rewrite !lookup_take_lt, !lookup_drop by lia. apply Hkeep. lia.
  - split.
    + rewrite lookup_drop. replace (f.1 + (f.2 - f.1))%nat with f.2 by lia. apply terminate_all_at; [done|]. rewrite length_app. cbn. lia.
    + intros k Hk. rewrite lookup_drop, Hkeep by lia. intros Hc. apply H0. by apply (list_elem_of_lookup_2 _ (f.1 + k)).
Qed.

(** C26: parsing a command line always ends, whatever the line: parsecmd
    returns a command or calls panic, and never runs out of the fuel of four
    calls per character.  The command it returns has fewer than MAXARGS
    arguments in every exec command (so the NULL after them fits), and every
    string of it, read from the terminated buffer as a C string, is the
    maximal run of ordinary characters it was counted over. *)
Theorem parsecmd_total b : 0 ∉ b →
  match parsecmd b with
  | Ok (c, buf) _ => words_ok b c ∧ length buf = S (length b) ∧
      Forall (λ f, CString.cstr (drop f.1 buf) = text b f) (spans c)
  | Panic _ _ => True
  | Fault _ _ | Hang _ => False
  end.
Proof.
  intros H0. pose proof (parse_all_safe b) as H. unfold safe in H. unfold parsecmd.
  destruct (parse_all (length b) (fuel_for b) b) as [c s| | |]; try done. destruct H as [_ Hc]. split; [done|].
  rewrite nulterminate_all. split; [rewrite terminate_all_length, length_app; cbn; lia|].
  apply Forall_forall. intros f Hf. apply terminated_word; [done| |done]. by apply words_spans.
Qed.
Lemma parsecmd_total_witness :
  match parsecmd [108; 115; 62; 102] with
  | Ok (c, buf) _ => c = Redir (Exec [(0, 2)%nat]) (mkredir (3, 4)%nat 513 1) ∧
      Forall (λ f, CString.cstr (drop f.1 buf) = text [108; 115; 62; 102] f) (spans c)
  | _ => False
  end.
Proof.
  assert (H0 : 0 ∉ [108; 115; 62; 102]) by set_solver.
  pose proof (parsecmd_total [108; 115; 62; 102] H0) as H.
  destruct (parsecmd [108; 115; 62; 102]) as [[c buf] s| | |] eqn:E; vm_compute in E; try discriminate.
  injection E as <- <- <-. split; [reflexivity|]. exact (proj2 (proj2 H)).
Defined.
End ShProps.
