(* ===== verification/ShRound.v ===== *)
(** * Printing and parsing command lines

    A printer for shell commands over their strings, with parentheses only
    where the grammar needs them, and the round trip through the parser. *)

From S2P Require Import Prelude CString Sh ShProps.
Local Open Scope Z_scope.

Module ShRound.
Import Sh ShProps.

(** ** The printer *)

Definition redir_map {A B} (f : A → B) (r : redir A) : redir B := mkredir (f (r_file r)) (r_mode r) (r_fd r).
Fixpoint cmd_map {A B} (f : A → B) (c : cmd A) : cmd B :=
  match c with
  | Exec argv => Exec (f <$> argv)
  | Redir c r => Redir (cmd_map f c) (redir_map f r)
  | Pipe l r => Pipe (cmd_map f l) (cmd_map f r)
  | List l r => List (cmd_map f l) (cmd_map f r)
  | Back c => Back (cmd_map f c)
  end.

(** A word and the space after it. *)
Definition show_word (w : list Z) : list Z := w ++ [32].
Definition show_words (ws : list (list Z)) : list Z := concat (show_word <$> ws).
Definition show_redir (r : redir (list Z)) : list Z := (if r_fd r =? 0 then 60 else 62) :: show_word (r_file r).
Definition show_redirs (rs : list (redir (list Z))) : list Z := concat (show_redir <$> rs).

(** The nonterminal that a command belongs to: 0 for parseline, 1 for its
    background part, 2 for parsepipe and 3 for parseexec. *)
Definition level {A} (c : cmd A) : nat := match c with List _ _ => 0 | Back _ => 1 | Pipe _ _ => 2 | _ => 3 end.
Fixpoint show (lv : nat) (c : cmd (list Z)) : list Z :=
  let body := match c with
              | Exec argv => show_words argv
              | Redir c r => show 3 c ++ show_redir r
              | Pipe l r => show 3 l ++ 124 :: show 2 r
              | List l r => show 1 l ++ 59 :: show 0 r
              | Back c => show 1 c ++ [38]
              end in
  if (lv <=? level c)%nat then body else 40 :: body ++ [41].

(** Strings that are words, argument lists that fit, and the two kinds of
    redirection. *)
Definition word_ok (w : list Z) : Prop := w ≠ [] ∧ Forall (λ c, is_plain c = true ∧ c ≠ 0) w.
Definition redir_ok (r : redir (list Z)) : Prop :=
  word_ok (r_file r) ∧ ((r_mode r, r_fd r) = (O_RDONLY, 0) ∨ (r_mode r, r_fd r) = (Z.lor O_WRONLY O_CREATE, 1)).
Fixpoint printable (c : cmd (list Z)) : Prop :=
  match c with
  | Exec argv => Forall word_ok argv ∧ (length argv < MAXARGS)%nat
  | Redir c r => printable c ∧ redir_ok r
  | Pipe l r | List l r => printable l ∧ printable r
  | Back c => printable c
  end.

(** ** Single tokens *)

Lemma word_plains w : word_ok w → Forall (λ c, is_plain c = true) w.
Proof. intros [_ H]. by eapply Forall_impl; [apply H|]; intros c []. Qed.
(** A word starts with an ordinary character. *)
Lemma word_cons w : word_ok w → ∃ c w', w = c :: w' ∧ is_plain c = true.
Proof. destruct w as [|c w]; [by intros []|]. intros [_ [[Hc _] _]%Forall_cons]. eauto. Qed.

Lemma skip_plain c s : is_plain c = true → skip (c :: s) = c :: s.
Proof. intros [H _]%plain_not_symbol. cbn [skip]. by rewrite H. Qed.
Lemma plain_not_in c l : is_plain c = true → l ⊆ symbols → is_in l c = false.
Proof. intros [_ H]%plain_not_symbol Hl. apply is_in_false. set_solver. Qed.
Lemma skip_sym c s : c ∈ symbols → skip (c :: s) = c :: s.
Proof.
  intros H. cbn [skip]. assert (is_space c = false) as ->; [|done].
  apply (proj1 (Forall_forall (λ c, is_space c = false) symbols)); [|done]. by repeat constructor.
Qed.

(** The next character is an end of the line or one of [l]. *)
Definition next_in (l t : list Z) : Prop := match skip t with [] => True | c :: _ => c ∈ l end.

Section tokens.
Context (b : list Z).
Local Abbreviation es := (length b).

Lemma peek_at toks s x : skip s = skip x → peek toks s = Ok (match skip x with c :: _ => is_in toks c | [] => false end) (skip x).
Proof. intros E. unfold peek. by rewrite E. Qed.
Lemma peek_sym toks s c x : skip s = skip (c :: x) → c ∈ symbols → peek toks s = Ok (is_in toks c) (c :: x).
Proof. intros E Hc. rewrite (peek_at _ _ _ E). by rewrite skip_sym. Qed.
Lemma peek_word toks s w x : word_ok w → skip s = skip (w ++ x) → toks ⊆ symbols → peek toks s = Ok false (w ++ x).
Proof.
  intros (c & w' & -> & Hp)%word_cons E Ht. rewrite (peek_at _ _ _ E). cbn [app]. rewrite skip_plain by done.
  by rewrite plain_not_in.
Qed.
(** Peeking for something that cannot come. *)
Lemma peek_no toks l s t : next_in l t → skip s = skip t → toks ## l → peek toks s = Ok false (skip t).
Proof.
  intros Hn E Hd. rewrite (peek_at _ _ _ E). f_equal. unfold next_in in Hn. destruct (skip t) as [|c u]; [done|].
  apply is_in_false. set_solver.
Qed.

Lemma gettoken_sym s c x : skip s = skip (c :: x) → c ∈ [124; 40; 41; 59; 38; 60] → ∃ f, gettoken es s = Ok (TSym c, f) (skip x).
Proof.
  intros E Hc. unfold gettoken. rewrite E, skip_sym by (unfold symbols; set_solver).
  rewrite (proj2 (is_in_true _ _) Hc). by eexists.
Qed.
Lemma gettoken_word s w x : word_ok w → skip s = skip (w ++ 32 :: x) → ends b (w ++ 32 :: x) →
  ∃ f, gettoken es s = Ok (TWord, f) (skip x) ∧ text b f = w.
Proof.
  intros Hw E He. destruct (word_cons w Hw) as (c & w' & Ec & Hp). unfold gettoken. rewrite E.
  assert (skip (w ++ 32 :: x) = c :: w' ++ 32 :: x) as -> by (rewrite Ec; by apply skip_plain). rewrite (plain_not_in _ _ Hp) by (unfold symbols; set_solver).
  assert ((c =? 62) = false) as -> by (apply Z.eqb_neq; intros ->; by vm_compute in Hp).
  change (c :: w' ++ 32 :: x) with ((c :: w') ++ 32 :: x). rewrite <-Ec.
  rewrite skip_word_app by (done || by apply word_plains). eexists. split; [done|]. by apply text_pos.
Qed.

(** ** Redirections and arguments *)

Lemma show_redir_app r x : show_redir r ++ x = (if r_fd r =? 0 then 60 else 62) :: r_file r ++ 32 :: x.
Proof. unfold show_redir, show_word. cbn. by rewrite <-app_assoc. Qed.
Lemma redir_parsed r s x : redir_ok r → skip s = skip (show_redir r ++ x) → ends b (show_redir r ++ x) →
  ∃ tok f0 s', gettoken es s = Ok (tok, f0) s' ∧ ∃ f, gettoken es s' = Ok (TWord, f) (skip x) ∧ redir_map (text b) <$> redir_of tok f = [r].
Proof.
  rewrite show_redir_app. intros [Hw Hm] E He. assert (Hf : ∃ tok f0, gettoken es s = Ok (tok, f0) (skip (r_file r ++ 32 :: x)) ∧
    ∀ f, text b f = r_file r → redir_map (text b) <$> redir_of tok f = [r]).
  { destruct r as [w mode fd]. cbn [r_file r_mode r_fd] in *. destruct Hm as [[= -> ->]|[= -> ->]]; cbn [Z.eqb] in *.
    - destruct (gettoken_sym _ 60 _ E) as [f0 Ef]; [set_solver|]. eexists _, f0. split; [done|]. intros f <-. done.
    - destruct (word_cons w Hw) as (c & w' & -> & Hp). cbn [app] in *. unfold gettoken. rewrite E, skip_sym by (unfold symbols; set_solver).
      change (is_in [124; 40; 41; 59; 38; 60] 62) with false. change (62 =? 62) with true.
      assert ((c =? 62) = false) as -> by (apply Z.eqb_neq; intros ->; by vm_compute in Hp).
      eexists _, _. split; [done|]. intros f <-. done. }
  destruct Hf as (tok & f0 & E1 & Hr). eexists _, _, _. split; [done|].
  destruct (gettoken_word (skip (r_file r ++ 32 :: x)) (r_file r) x Hw) as (f & E2 & Ht); [by rewrite skip_idemp| |eauto].
  by apply (ends_app _ [_]) in He.
Qed.

Lemma show_redirs_cons r rs x : show_redirs (r :: rs) ++ x = show_redir r ++ (show_redirs rs ++ x).
Proof. unfold show_redirs. cbn. by rewrite <-app_assoc. Qed.

Lemma parseredirs_shown rs : ∀ fuel acc s t, Forall redir_ok rs → next_in [124; 41; 38; 59] t ∨ (∃ w x, word_ok w ∧ t = w ++ x) →
  (length (show_redirs rs ++ t) <= fuel)%nat → skip s = skip (show_redirs rs ++ t) → ends b (show_redirs rs ++ t) →
  ∃ rs', parseredirs es fuel acc s = Ok (acc ++ rs') (skip t) ∧ redir_map (text b) <$> rs' = rs.
Proof.
  induction rs as [|r rs IH]; intros fuel acc s t Hok Ht Hf E He.
  { exists []. rewrite app_nil_r. assert (Hp : peek [60; 62] s = Ok false (skip t)).
    { destruct Ht as [Ht|(w & x & Hw & ->)]; [apply (peek_no _ _ _ _ Ht E); set_solver|].
      rewrite (peek_word _ _ _ _ Hw E) by (unfold symbols; set_solver). f_equal.
      destruct (word_cons w Hw) as (c & w' & -> & Hc). cbn [app]. by rewrite skip_plain. }
    split; [|done]. destruct fuel; cbn [parseredirs]; unfold mbind, M_mbind, M_bind; by rewrite Hp. }
  apply Forall_cons in Hok as [Hr Hrs]. rewrite show_redirs_cons in *.
  assert (Hp : peek [60; 62] s = Ok true (skip (show_redir r ++ (show_redirs rs ++ t)))).
  { rewrite (peek_at _ _ _ E), show_redir_app. by destruct (r_fd r =? 0). }
  destruct fuel as [|fuel]; [rewrite show_redir_app in Hf; cbn [length] in Hf; lia|].
  destruct (redir_parsed r (skip (show_redir r ++ (show_redirs rs ++ t))) (show_redirs rs ++ t) Hr) as (tok & f0 & s1 & E1 & f & E2 & Hm); [by rewrite skip_idemp|done|].
  destruct (IH fuel (acc ++ redir_of tok f) (skip (show_redirs rs ++ t)) t) as (rs' & E3 & Hm'); [done|done| |by rewrite skip_idemp|by apply ends_app in He|].
  { rewrite show_redir_app in Hf. cbn [length] in Hf. rewrite length_app in Hf. cbn [length] in Hf. lia. }
  exists (redir_of tok f ++ rs'). split; [|by rewrite fmap_app, Hm, Hm'].
  cbn [parseredirs]. unfold mbind, M_mbind, M_bind. rewrite Hp, E1, E2, decide_False by (intros Hn; by apply Hn).
  by rewrite E3, app_assoc.
Qed.
(** The end of the arguments. *)
Lemma parseargs_end fuel argv rs s t : next_in [124; 41; 38; 59] t → (0 < fuel)%nat → skip s = skip t →
  parseargs es fuel argv rs s = Ok (argv, rs) (skip t).
Proof.
  intros Ht Hf E. destruct fuel as [|fuel]; [lia|]. cbn [parseargs]. unfold mbind, M_mbind, M_bind. rewrite (peek_at _ _ _ E).
  unfold next_in in Ht. destruct (skip t) as [|c u]; [|by rewrite (proj2 (is_in_true _ _) Ht)].
  done.
Qed.

Lemma show_words_cons w ws x : show_words (w :: ws) ++ x = w ++ 32 :: (show_words ws ++ x).
Proof. unfold show_words, show_word. cbn. by rewrite <-!app_assoc. Qed.

Lemma args_shown ws : ∀ fuel argv acc s t rs, Forall word_ok ws → (length argv + length ws < MAXARGS)%nat → Forall redir_ok rs →
  next_in [124; 41; 38; 59] t → (length (show_words ws ++ show_redirs rs ++ t) < fuel)%nat →
  skip s = skip (show_words ws ++ show_redirs rs ++ t) → ends b (show_words ws ++ show_redirs rs ++ t) →
  ∃ argv' rs', (rs1 ← parseredirs es fuel acc; parseargs es fuel argv rs1) s = Ok (argv ++ argv', acc ++ rs') (skip t) ∧
    text b <$> argv' = ws ∧ redir_map (text b) <$> rs' = rs.
Proof.
  induction ws as [|w ws IH]; intros fuel argv acc s t rs Hws Hlen Hrs Ht Hf E He.
  { destruct (parseredirs_shown rs fuel acc s t) as (rs' & E1 & Hm); [done|by left|cbn [show_words fmap list_fmap concat app] in Hf; lia|done|done|].
    exists [], rs'. rewrite app_nil_r. split; [|done]. unfold mbind, M_mbind, M_bind. rewrite E1.
    apply parseargs_end; [done|lia|apply skip_idemp]. }
  apply Forall_cons in Hws as [Hw Hws]. rewrite show_words_cons in *. set (x := show_words ws ++ show_redirs rs ++ t) in *.
  assert (Hlx : (length x + 1 < fuel)%nat) by (rewrite length_app in Hf; cbn [length] in Hf; lia).
  destruct fuel as [|fuel]; [lia|]. cbn [length] in Hlen.
  destruct (parseredirs_shown [] (S fuel) acc s (w ++ 32 :: x)) as (rs0 & E1 & Hm); [by constructor|right; eauto|cbn [show_redirs fmap list_fmap concat app]; lia|done|done|].
  apply fmap_nil_inv in Hm. subst rs0. rewrite app_nil_r in E1.
  destruct (gettoken_word (w ++ 32 :: x) w x Hw) as (f & E2 & Hft); [done|done|].
  destruct (IH fuel (argv ++ [f]) acc (skip x) t rs) as (argv' & rs' & E3 & Ha & Hr); [done|rewrite length_app; cbn [length]; lia|done|done|fold x; lia|by rewrite skip_idemp| |].
  { change (32 :: x) with ([32] ++ x) in He. rewrite app_assoc in He. by apply ends_app in He. }
  exists (f :: argv'), rs'. split; [|by rewrite fmap_cons, Hft, Ha].
  unfold mbind, M_mbind, M_bind in E3 |- *. rewrite E1. cbn [parseargs]. unfold mbind, M_mbind, M_bind.
  rewrite (peek_word _ _ _ _ Hw) by (by rewrite ?skip_idemp || unfold symbols; set_solver). rewrite E2.
  rewrite decide_False, decide_False by (done || intros Hn; by apply Hn).
  rewrite decide_False by (rewrite length_app; cbn [length]; lia). rewrite E3. by rewrite <-app_assoc.
Qed.

Lemma wrap_map c rs : cmd_map (text b) (wrap c rs) = foldl Redir (cmd_map (text b) c) (redir_map (text b) <$> rs).
Proof. revert c. induction rs as [|r rs IH]; intros c; [done|]. apply IH. Qed.

Lemma parseexec_args argv rs fuel s t : Forall word_ok argv → (length argv < MAXARGS)%nat → Forall redir_ok rs →
  next_in [124; 41; 38; 59] t → (length (show_words argv ++ show_redirs rs ++ t) + 2 <= fuel)%nat →
  skip s = skip (show_words argv ++ show_redirs rs ++ t) → ends b (show_words argv ++ show_redirs rs ++ t) →
  ∃ c', parseexec es fuel s = Ok c' (skip t) ∧ cmd_map (text b) c' = foldl Redir (Exec argv) rs.
Proof.
  intros Hws Hlen Hrs Ht Hf E He. destruct fuel as [|fuel]; [lia|].
  destruct (args_shown argv fuel [] [] (skip s) t rs) as (argv' & rs' & E1 & Ha & Hr); [done|done|done|done|lia|by rewrite skip_idemp|done|].
  exists (wrap (Exec argv') rs'). split.
  - cbn [parseexec]. unfold mbind, M_mbind, M_bind in E1 |- *.
    assert (peek [40] s = Ok false (skip s)) as ->; [|by destruct (parseredirs es fuel [] (skip s)); [rewrite E1| | |]].
    rewrite (peek_at _ _ _ E), <-E. f_equal. destruct argv as [|w argv].
    + destruct rs as [|r rs].
      * cbn in E. unfold next_in in Ht. rewrite E. destruct (skip t); [done|]. apply is_in_false. set_solver.
      * cbn [show_words fmap list_fmap concat app] in E. rewrite show_redirs_cons, show_redir_app in E.
        rewrite E, skip_sym by (destruct (_ =? _); unfold symbols; set_solver). by destruct (_ =? _).
    + apply Forall_cons in Hws as [Hw _]. rewrite show_words_cons in E. destruct (word_cons w Hw) as (c & w' & -> & Hc).
      cbn [app] in E. rewrite E, skip_plain by done. apply plain_not_in; [done|]. unfold symbols; set_solver.
  - by rewrite wrap_map, Hr, <-Ha.
Qed.
(** ** The four levels *)

Definition exec_shown (c : cmd (list Z)) : Prop := ∀ rs fuel s t, Forall redir_ok rs → next_in [124; 41; 38; 59] t →
  (4 * length (show 3 c ++ show_redirs rs ++ t) + 2 <= fuel)%nat → skip s = skip (show 3 c ++ show_redirs rs ++ t) →
  ends b (show 3 c ++ show_redirs rs ++ t) →
  ∃ c', parseexec es fuel s = Ok c' (skip t) ∧ cmd_map (text b) c' = foldl Redir c rs.
Definition pipe_shown (c : cmd (list Z)) : Prop := ∀ fuel s t, next_in [41; 38; 59] t →
  (4 * length (show 2 c ++ t) + 3 <= fuel)%nat → skip s = skip (show 2 c ++ t) → ends b (show 2 c ++ t) →
  ∃ c', parsepipe es fuel s = Ok c' (skip t) ∧ cmd_map (text b) c' = c.
(** The loop over the ampersands goes on after [c]. *)
Definition back_shown (c : cmd (list Z)) : Prop := ∀ fuel s t, next_in [41; 38; 59] t →
  (4 * length (show 1 c ++ t) + 3 <= fuel)%nat → skip s = skip (show 1 c ++ t) → ends b (show 1 c ++ t) →
  ∃ c' fuel', (c ← parsepipe es fuel; parseback es fuel c) s = parseback es fuel' c' (skip t) ∧
    (4 * length t + 3 <= fuel')%nat ∧ cmd_map (text b) c' = c.
Definition line_shown (c : cmd (list Z)) : Prop := ∀ fuel s t, next_in [41] t →
  (4 * length (show 0 c ++ t) + 4 <= fuel)%nat → skip s = skip (show 0 c ++ t) → ends b (show 0 c ++ t) →
  ∃ c', parseline es fuel s = Ok c' (skip t) ∧ cmd_map (text b) c' = c.

Lemma next_in_mono l l' t : l ⊆ l' → next_in l t → next_in l' t.
Proof. unfold next_in. destruct (skip t); [done|]. set_solver. Qed.
Lemma next_in_sym l c t : c ∈ symbols → c ∈ l → next_in l (c :: t).
Proof. intros Hs Hl. unfold next_in. by rewrite skip_sym. Qed.

Lemma exec_pipe c : level c ≠ 2%nat → exec_shown c → pipe_shown c.
Proof.
  intros Hl He fuel s t Ht Hf E Hb. assert (show 2 c = show 3 c) as Hs by (by destruct c). rewrite Hs in *.
  destruct fuel as [|fuel]; [lia|].
  destruct (He [] fuel s t) as (c' & E1 & Hm); [by constructor|by eapply next_in_mono; [|done]; set_solver|cbn [show_redirs fmap list_fmap concat app]; lia|done|done|].
  exists c'. split; [|done]. cbn [parsepipe]. unfold mbind, M_mbind, M_bind. rewrite E1.
  rewrite (peek_no _ _ _ _ Ht) by (apply skip_idemp || set_solver). done.
Qed.
Lemma pipe_back c : level c ≠ 1%nat → pipe_shown c → back_shown c.
Proof.
  intros Hl Hp fuel s t Ht Hf E Hb. assert (show 1 c = show 2 c) as Hs by (by destruct c). rewrite Hs in *.
  destruct (Hp fuel s t) as (c' & E1 & Hm); [done|done|done|done|]. exists c', fuel. rewrite length_app in Hf.
  split; [|split; [lia|done]]. unfold mbind, M_mbind, M_bind. by rewrite E1.
Qed.
Lemma parseback_stop l fuel c s t : next_in l t → [38] ## l → skip s = skip t → parseback es fuel c s = Ok c (skip t).
Proof.
  intros Ht Hd E. destruct fuel; cbn [parseback]; unfold mbind, M_mbind, M_bind; by rewrite (peek_no _ _ _ _ Ht).
Qed.
(** What follows the loop over the ampersands. *)
Lemma back_done c fuel s t : back_shown c → next_in [41; 59] t → (4 * length (show 1 c ++ t) + 3 <= fuel)%nat →
  skip s = skip (show 1 c ++ t) → ends b (show 1 c ++ t) →
  ∃ c', (c ← parsepipe es fuel; parseback es fuel c) s = Ok c' (skip t) ∧ cmd_map (text b) c' = c.
Proof.
  intros Hc Ht Hf E Hb. destruct (Hc fuel s t) as (c' & fuel' & E1 & _ & Hm); [by eapply next_in_mono; [|done]; set_solver|done|done|done|].
  exists c'. split; [|done]. rewrite E1. apply (parseback_stop _ _ _ _ _ Ht); [set_solver|apply skip_idemp].
Qed.
Lemma back_line c : level c ≠ 0%nat → back_shown c → line_shown c.
Proof.
  intros Hl Hc fuel s t Ht Hf E Hb. assert (show 0 c = show 1 c) as Hs by (by destruct c). rewrite Hs in *.
  destruct fuel as [|fuel]; [lia|].
  destruct (back_done c fuel s t Hc) as (c' & E1 & Hm); [by eapply next_in_mono; [|done]; set_solver|lia|done|done|].
  exists c'. split; [|done]. cbn [parseline]. unfold mbind, M_mbind, M_bind in E1 |- *. destruct (parsepipe es fuel s); try done. rewrite E1.
  rewrite (peek_no _ _ _ _ Ht) by (apply skip_idemp || set_solver). done.
Qed.
(** A command in parentheses. *)
Lemma show_block c : (level c < 3)%nat → show 3 c = 40 :: show 0 c ++ [41].
Proof. by destruct c; cbn [level]; try lia. Qed.
Lemma line_exec c : (level c < 3)%nat → line_shown c → exec_shown c.
Proof.
  intros Hl Hc rs fuel s t Hrs Ht Hf E Hb. rewrite (show_block c Hl) in *. cbn [app] in *. rewrite <-app_assoc in *. cbn [app] in *.
  set (x := show_redirs rs ++ t) in *. cbn [length] in Hf. rewrite length_app in Hf. cbn [length] in Hf.
  destruct fuel as [|[|fuel]]; [lia..|].
  assert (Hp : ∀ s, skip s = skip (40 :: show 0 c ++ 41 :: x) → peek [40] s = Ok true (40 :: show 0 c ++ 41 :: x)).
  { intros s' Es. rewrite (peek_sym _ _ _ _ Es) by (unfold symbols; set_solver). done. }
  destruct (gettoken_sym (40 :: show 0 c ++ 41 :: x) 40 (show 0 c ++ 41 :: x)) as [f0 E0]; [done|set_solver|].
  apply (ends_app _ [40]) in Hb.
  destruct (Hc fuel (skip (show 0 c ++ 41 :: x)) (41 :: x)) as (c' & E1 & Hm);
    [by apply next_in_sym; unfold symbols; set_solver|rewrite length_app; cbn [length]; lia|by rewrite skip_idemp|done|].
  destruct (gettoken_sym (41 :: x) 41 x) as [f1 E2]; [done|set_solver|].
  apply ends_app, (ends_app _ [41]) in Hb.
  destruct (parseredirs_shown rs fuel [] (skip x) t) as (rs' & E3 & Hr); [done|by left|fold x; lia|by rewrite skip_idemp|done|].
  exists (wrap c' rs'). split; [|by rewrite wrap_map, Hm, Hr].
  cbn [parseexec parseblock]. unfold mbind, M_mbind, M_bind. rewrite (Hp s E), (Hp _ eq_refl). cbn [negb]. rewrite E0, E1.
  rewrite skip_sym by (unfold symbols; set_solver). rewrite (peek_sym _ _ 41 x) by (done || unfold symbols; set_solver).
  change (is_in [41] 41) with true. cbn [negb]. by rewrite E2, E3.
Qed.

Lemma exec_redir c r : redir_ok r → exec_shown c → exec_shown (Redir c r).
Proof.
  intros Hr Hc rs fuel s t Hrs Ht. change (show 3 (Redir c r)) with (show 3 c ++ show_redir r). rewrite <-app_assoc.
  rewrite <-show_redirs_cons. intros Hf E Hb. apply (Hc (r :: rs)); try done. by constructor.
Qed.
Lemma pipe_pipe l r : exec_shown l → pipe_shown r → pipe_shown (Pipe l r).
Proof.
  intros Hl Hr fuel s t Ht. change (show 2 (Pipe l r)) with (show 3 l ++ 124 :: show 2 r). rewrite <-app_assoc. cbn [app].
  intros Hf E Hb. destruct fuel as [|fuel]; [lia|].
  destruct (Hl [] fuel s (124 :: show 2 r ++ t)) as (l' & E1 & Hm1); [by constructor|by apply next_in_sym; unfold symbols; set_solver|cbn [show_redirs fmap list_fmap concat app]; lia|done|done|].
  destruct (gettoken_sym (124 :: show 2 r ++ t) 124 (show 2 r ++ t)) as [f0 E2]; [done|set_solver|].
  rewrite length_app in Hf. cbn [length] in Hf. apply ends_app, (ends_app _ [124]) in Hb.
  destruct (Hr fuel (skip (show 2 r ++ t)) t) as (r' & E3 & Hm2); [done|lia|by rewrite skip_idemp|done|].
  exists (Pipe l' r'). split; [|cbn; by rewrite Hm1, Hm2]. cbn [parsepipe]. unfold mbind, M_mbind, M_bind.
  rewrite E1, skip_sym by (unfold symbols; set_solver). rewrite (peek_sym _ _ 124 (show 2 r ++ t)) by (done || unfold symbols; set_solver).
  change (is_in [124] 124) with true. cbn beta iota. by rewrite E2, E3.
Qed.
Lemma back_back c : back_shown c → back_shown (Back c).
Proof.
  intros Hc fuel s t Ht. change (show 1 (Back c)) with (show 1 c ++ [38]). rewrite <-app_assoc. cbn [app]. intros Hf E Hb.
  destruct (Hc fuel s (38 :: t)) as (c' & fuel' & E1 & Hf' & Hm); [by apply next_in_sym; unfold symbols; set_solver|done|done|done|].
  cbn [length] in Hf'. destruct fuel' as [|fuel']; [lia|]. exists (Back c'), fuel'. split; [|split; [lia|cbn; by rewrite Hm]].
  rewrite E1. cbn [parseback]. unfold mbind, M_mbind, M_bind. rewrite skip_sym by (unfold symbols; set_solver).
  rewrite (peek_sym _ _ 38 t) by (done || unfold symbols; set_solver). change (is_in [38] 38) with true. cbn beta iota.
  destruct (gettoken_sym (38 :: t) 38 t) as [f0 E2]; [done|set_solver|]. by rewrite E2.
Qed.
Lemma line_list l r : back_shown l → line_shown r → line_shown (List l r).
Proof.
  intros Hl Hr fuel s t Ht. change (show 0 (List l r)) with (show 1 l ++ 59 :: show 0 r). rewrite <-app_assoc. cbn [app].
  intros Hf E Hb. destruct fuel as [|fuel]; [lia|].
  destruct (back_done l fuel s (59 :: show 0 r ++ t) Hl) as (l' & E1 & Hm1); [by apply next_in_sym; unfold symbols; set_solver|lia|done|done|].
  destruct (gettoken_sym (59 :: show 0 r ++ t) 59 (show 0 r ++ t)) as [f0 E2]; [done|set_solver|].
  rewrite length_app in Hf. cbn [length] in Hf. apply ends_app, (ends_app _ [59]) in Hb.
  destruct (Hr fuel (skip (show 0 r ++ t)) t) as (r' & E3 & Hm2); [done|lia|by rewrite skip_idemp|done|].
  exists (List l' r'). split; [|cbn; by rewrite Hm1, Hm2]. cbn [parseline]. unfold mbind, M_mbind, M_bind in E1 |- *.
  destruct (parsepipe es fuel s); try done. rewrite E1, skip_sym by (unfold symbols; set_solver).
  rewrite (peek_sym _ _ 59 (show 0 r ++ t)) by (done || unfold symbols; set_solver).
  change (is_in [59] 59) with true. cbn beta iota. by rewrite E2, E3.
Qed.

Lemma exec_all c : level c = 3%nat → exec_shown c → exec_shown c ∧ pipe_shown c ∧ back_shown c ∧ line_shown c.
Proof.
  intros Hl H. assert (pipe_shown c) by (apply exec_pipe; [lia|done]). assert (back_shown c) by (apply pipe_back; [lia|done]).
  by repeat split; try apply back_line; try lia.
Qed.
Lemma cmd_shown c : printable c → exec_shown c ∧ pipe_shown c ∧ back_shown c ∧ line_shown c.
Proof.
  induction c as [argv|c IH r|l IHl r IHr|l IHl r IHr|c IH]; cbn [printable].
  - intros [Hw Hl]. apply exec_all; [done|].
    intros rs fuel s t Hrs Ht Hf E Hb. apply parseexec_args; try done. change (show_words argv) with (show 3 (Exec argv)). lia.
  - intros [Hc Hr]. apply exec_all; [done|]. apply exec_redir; [done|]. by apply IH.
  - intros [(Hl & _)%IHl (_ & Hr & _)%IHr]. assert (pipe_shown (Pipe l r)) by (by apply pipe_pipe).
    assert (back_shown (Pipe l r)) by (by apply pipe_back). assert (line_shown (Pipe l r)) by (by apply back_line).
    split; [|done]. apply line_exec; [cbn; lia|done].
  - intros [(_ & _ & Hl & _)%IHl (_ & _ & _ & Hr)%IHr]. assert (line_shown (List l r)) by (by apply line_list).
    assert (exec_shown (List l r)) by (apply line_exec; [cbn; lia|done]). assert (pipe_shown (List l r)) by (by apply exec_pipe).
    split; [done|]. split; [done|]. split; [by apply pipe_back|done].
  - intros (_ & _ & Hc & _)%IH. assert (back_shown (Back c)) by (by apply back_back).
    assert (line_shown (Back c)) by (by apply back_line). assert (exec_shown (Back c)) by (apply line_exec; [cbn; lia|done]).
    split; [done|]. split; [by apply exec_pipe|done].
Qed.
End tokens.

(** ** The round trip *)

(** A printed command holds no character but those of its words, symbols and
    blanks. *)
Definition foreign (x : Z) : Prop := (is_plain x = false ∨ x = 0) ∧ x ≠ 32 ∧ x ∉ symbols.
Lemma word_avoids x w : foreign x → word_ok w → x ∉ show_word w.
Proof.
  intros (Hp & Hb & _) [_ Hw]. unfold show_word. rewrite elem_of_app, list_elem_of_singleton. intros [H|H]; [|done].
  rewrite Forall_forall in Hw. destruct (Hw x H), Hp; congruence.
Qed.
Lemma words_avoid x ws : foreign x → Forall word_ok ws → x ∉ show_words ws.
Proof.
  intros Hx. induction ws as [|w ws IH]; [set_solver|]. intros [Hw Hws]%Forall_cons. unfold show_words. cbn [fmap list_fmap concat].
  rewrite elem_of_app. intros [H|H]; [by eapply word_avoids|by apply IH].
Qed.
Lemma redir_avoids x r : foreign x → redir_ok r → x ∉ show_redir r.
Proof.
  intros Hx [Hw _]. unfold show_redir. rewrite elem_of_cons. intros [->|H]; [|by eapply word_avoids].
  destruct Hx as (_ & _ & Hx). apply Hx. unfold symbols. destruct (_ =? _); set_solver.
Qed.
Lemma show_avoids x lv c : foreign x → printable c → x ∉ show lv c.
Proof.
  intros Hx. assert (Hs : ∀ y, y ∈ symbols → x ≠ y) by (intros y Hy ->; by apply Hx).
  assert (Hp : ∀ t (p : bool), x ∉ t → x ∉ (if p then t else 40 :: t ++ [41])).
  { intros t [] Ht; [done|]. rewrite elem_of_cons, elem_of_app, list_elem_of_singleton.
    intros [H|[H|H]]; [eapply Hs, H; unfold symbols; set_solver|done|eapply Hs, H; unfold symbols; set_solver]. }
  revert lv. induction c as [argv|c IH r|l IHl r IHr|l IHl r IHr|c IH]; cbn [printable]; intros lv H; cbn [show]; apply Hp;
    rewrite ?elem_of_app, ?elem_of_cons, ?list_elem_of_singleton.
  - by apply words_avoid, H.
  - destruct H as [Hc Hr]. intros [H|H]; [by eapply IH|by eapply redir_avoids].
  - destruct H as [Hl Hr]. intros [H|[H|H]]; [by eapply IHl|eapply Hs, H; unfold symbols; set_solver|by eapply IHr].
  - destruct H as [Hl Hr]. intros [H|[H|H]]; [by eapply IHl|eapply Hs, H; unfold symbols; set_solver|by eapply IHr].
  - intros [Hy|[Hy|Hy%elem_of_nil]]; [by eapply IH|eapply Hs, Hy; unfold symbols; set_solver|done].
Qed.
Lemma zero_foreign : foreign 0.
Proof. split; [by right|]. split; [done|]. unfold symbols. set_solver. Qed.

Lemma cmd_map_ext {A B} (f g : A → B) c : Forall (λ x, f x = g x) (spans c) → cmd_map f c = cmd_map g c.
Proof.
  induction c as [argv|c IH r|l IHl r IHr|l IHl r IHr|c IH]; cbn [spans cmd_map]; rewrite ?Forall_app, ?Forall_singleton.
  - intros H. f_equal. by apply Forall_fmap_ext.
  - intros [H Hr]. unfold redir_map. by rewrite IH, Hr.
  - intros [H1 H2]. by rewrite IHl, IHr.
  - intros [H1 H2]. by rewrite IHl, IHr.
  - intros H. by rewrite IH.
Qed.

(** Parsing a printed command and the blanks [t] that may follow it. *)
Lemma parse_shown c t : printable c → skip t = [] → 0 ∉ t →
  ∃ c' buf, parsecmd (show 0 c ++ t) = Ok (c', buf) [] ∧ cmd_map (λ f, CString.cstr (drop f.1 buf)) c' = c.
Proof.
  intros Hc Ht Ht0. set (b := show 0 c ++ t).
  assert (H0 : 0 ∉ b) by (unfold b; rewrite elem_of_app; intros [H|H]; [by eapply show_avoids; [apply zero_foreign|..]|done]).
  destruct (cmd_shown b c Hc) as (_ & _ & _ & Hl). destruct (Hl (fuel_for b) b t) as (c' & E & Hm).
  { unfold next_in. by rewrite Ht. } { done. } { done. } { by exists []. }
  pose proof (parse_all_safe b) as Hs. rewrite Ht in E.
  assert (E2 : parse_all (length b) (fuel_for b) b = Ok c' []) by (unfold parse_all, mbind, M_mbind, M_bind; by rewrite E).
  unfold safe in Hs. rewrite E2 in Hs. unfold parsecmd. rewrite E2. eexists _, _. split; [done|]. rewrite <-Hm at 1.
  apply cmd_map_ext, Forall_forall. intros f Hf. rewrite nulterminate_all.
  apply terminated_word; [done| |done]. apply words_spans, Hs.
Qed.

(** C28: printing a command and parsing the line gives the command back.  For
    every command whose strings are words, whose argument lists fit and whose
    redirections are the shell's two kinds, parsecmd accepts the printed line
    up to its end and the command it returns, its strings read from the
    terminated buffer as C strings, is the one that was printed: pipes and
    lists group as they were, parentheses bound what they enclose, redirections
    keep their order and each ampersand its command. *)
Theorem parse_show c : printable c →
  ∃ c' buf, parsecmd (show 0 c) = Ok (c', buf) [] ∧ cmd_map (λ f, CString.cstr (drop f.1 buf)) c' = c.
Proof. intros Hc. rewrite <-(app_nil_r (show 0 c)). apply parse_shown; [done|done|]. set_solver. Qed.

(** (ls <f & ; wc) >g | cat *)
Definition sample : cmd (list Z) :=
  Pipe (Redir (List (Back (Redir (Exec [[108; 115]]) (mkredir [102] 0 0))) (Exec [[119; 99]])) (mkredir [103] 513 1)) (Exec [[99; 97; 116]]).
Lemma parse_show_witness : printable sample ∧ ∃ c' buf, parsecmd (show 0 sample) = Ok (c', buf) [] ∧ cmd_map (λ f, CString.cstr (drop f.1 buf)) c' = sample.
Proof.
  assert (printable sample).
  { unfold sample; repeat first [split|constructor]; try done; cbn; unfold MAXARGS; try lia; by (left + right). }
  split; [done|]. by apply (parse_show sample).
Defined.
End ShRound.
