(* ===== verification/ShRun.v ===== *)
(** * Running commands (runcmd of sh.c)

    [runcmd] is a program that makes system calls: a tree of calls, each with
    what the program does next with the result.  A call of [fork] that succeeds
    goes on twice, in the child with 0 and in the parent with the child's id;
    the calls of [runcmd] in a child do not return, because [runcmd] ends in
    [exit] or in a successful [exec].

    The tree is run on a table of open files, as the calls of sysfile.c change it
    (the lowest free descriptor first), and on the working directory.  Whether a
    call of fork, pipe, open or exec succeeds is up to the system: it may depend
    on the call's arguments, on the working directory, and on the point of the
    session at which it is made, and so on all that has happened before.  The
    result is the behaviour of a process: the programs it and its children
    become, each with the table and the directory it starts with, the messages,
    and where a process waits for a child.  The theorem says which behaviour a
    command has. *)

From stdpp Require Import relations.
From S2P Require Import Prelude CString Sh.
Import Sh.
Local Open Scope Z_scope.

Module ShRun.

Definition word : Type := list Z.
Inductive msg := PanicMsg (s : string) | ExecFailed (file : word) | OpenFailed (file : word) | Leftovers (rest : word).

Inductive prog :=
| exit
| exec (argv : list word) (k : prog)
| close (fd : Z) (k : prog)
| open (file : word) (mode : Z) (k : Z → prog)
| pipe (k : option (Z * Z) → prog)
| dup (fd : Z) (k : prog)
| fork (k : Z → prog)
| wait (k : prog)
| printf (m : msg) (k : prog)
| return_.

(** [panic] of sh.c *)
Definition panic (s : string) : prog := printf (PanicMsg s) exit.
Definition fork1 (k : Z → prog) : prog := fork (λ pid, if pid =? -1 then panic "fork" else k pid).

Fixpoint runcmd (c : cmd word) : prog :=
  match c with
  | Exec argv =>
      match argv with
      | [] => exit
      | a0 :: _ => exec argv (printf (ExecFailed a0) exit)
      end
  | Redir c r =>
      close (r_fd r) (open (r_file r) (r_mode r) (λ fd,
        if fd <? 0 then printf (OpenFailed (r_file r)) exit else runcmd c))
  | List lc rc =>
      fork1 (λ pid, if pid =? 0 then runcmd lc else wait (runcmd rc))
  | Pipe lc rc =>
      pipe (λ p, match p with
        | None => panic "pipe"
        | Some (p0, p1) =>
            fork1 (λ pid,
              if pid =? 0 then close 1 (dup p1 (close p0 (close p1 (runcmd lc)))) else
              fork1 (λ pid,
                if pid =? 0 then close 0 (dup p0 (close p0 (close p1 (runcmd rc)))) else
                close p0 (close p1 (wait (wait exit)))))
        end)
  | Back c => fork1 (λ pid, if pid =? 0 then runcmd c else exit)
  end.

(** ** Running the calls *)

(** A call of a session: the calls before it of the same process (1), and the
    forks (0) that made the process. *)
Abbreviation point := (list nat).
(** A working directory: the changes of directory since the start. *)
Abbreviation dir := (list word).
(** What a descriptor is open on; a pipe is named by the call that made it. *)
Inductive obj := OInit (n : nat) | OFile (d : dir) (file : word) (mode : Z) | OPipe (id : point) (write : bool).
Abbreviation table := (list (option obj)).
Definition NOFILE : nat := 16.

(** The rest of the system: what a call at a point gives. *)
Record system := mksystem {
  forks : point → option positive;
  pipes : point → bool;
  opens : point → dir → word → Z → bool;
  execs : point → dir → list word → bool;
  chdirs : point → dir → word → bool
}.

(** The behaviour of a process: it ends, goes on with what follows, becomes a
    program, writes a message, has a child, or waits until a child has ended. *)
Inductive beh :=
| Ends
| Returns
| Runs (argv : list word) (ft : table) (d : dir)
| Says (m : msg) (b : beh)
| Forks (child : beh) (b : beh)
| Waits (b : beh).

#[export] Instance none_dec {A} (x : option A) : Decision (x = None).
Proof. destruct x; [by right|by left]. Defined.

(** [fdalloc]: the lowest free descriptor. *)
Definition fdalloc (o : obj) (ft : table) : option (nat * table) :=
  match list_find (λ x, x = None) ft with Some (n, _) => Some (n, <[n := Some o]> ft) | None => None end.

Section interp.
Context (sys : system) (d : dir).

Fixpoint interp (p : prog) (ft : table) (at_ : point) : beh :=
  match p with
  | exit => Ends
  | return_ => Returns
  | exec argv k => if execs sys at_ d argv then Runs argv ft d else interp k ft (1%nat :: at_)
  | close fd k => interp k (<[Z.to_nat fd := None]> ft) at_
  | open file mode k =>
      if opens sys at_ d file mode then
        match fdalloc (OFile d file mode) ft with
        | Some (n, ft) => interp (k (Z.of_nat n)) ft (1%nat :: at_)
        | None => interp (k (-1)) ft (1%nat :: at_)
        end
      else interp (k (-1)) ft (1%nat :: at_)
  | pipe k =>
      if pipes sys at_ then
        match fdalloc (OPipe at_ false) ft with
        | Some (n0, ft0) =>
            match fdalloc (OPipe at_ true) ft0 with
            | Some (n1, ft1) => interp (k (Some (Z.of_nat n0, Z.of_nat n1))) ft1 (1%nat :: at_)
            | None => interp (k None) ft (1%nat :: at_)
            end
        | None => interp (k None) ft (1%nat :: at_)
        end
      else interp (k None) ft (1%nat :: at_)
  | dup fd k =>
      match ft !! Z.to_nat fd with
      | Some (Some o) => match fdalloc o ft with Some (_, ft) => interp k ft at_ | None => interp k ft at_ end
      | _ => interp k ft at_
      end
  | fork k =>
      match forks sys at_ with
      | Some pid => Forks (interp (k 0) ft (0%nat :: at_)) (interp (k (Zpos pid)) ft (1%nat :: at_))
      | None => interp (k (-1)) ft (1%nat :: at_)
      end
  | wait k => Waits (interp k ft at_)
  | printf m k => Says m (interp k ft at_)
  end.

(** ** What a command line means *)

(** [l], and [r] when it has ended; [l] and [r] at the same time, to the end of
    both; [l] on its own. *)
Definition after (l r : beh) : beh := Forks l (Waits r).
Definition both (l r : beh) : beh := Forks l (Forks r (Waits (Waits Ends))).
Definition aside (l : beh) : beh := Forks l Ends.
Definition complains (m : msg) : beh := Says m Ends.

Fixpoint wired (c : cmd word) (ft : table) (at_ : point) : beh :=
  match c with
  | Exec argv =>
      match argv with
      | [] => Ends
      | a0 :: _ => if execs sys at_ d argv then Runs argv ft d else complains (ExecFailed a0)
      end
  | Redir c r =>
      if opens sys at_ d (r_file r) (r_mode r)
      then wired c (<[Z.to_nat (r_fd r) := Some (OFile d (r_file r) (r_mode r))]> ft) (1%nat :: at_)
      else complains (OpenFailed (r_file r))
  | Pipe lc rc =>
      let l := wired lc (<[1%nat := Some (OPipe at_ true)]> ft) (0%nat :: 1%nat :: at_) in
      let r := wired rc (<[0%nat := Some (OPipe at_ false)]> ft) (0%nat :: 1%nat :: 1%nat :: at_) in
      if negb (pipes sys at_) then complains (PanicMsg "pipe") else
      match forks sys (1%nat :: at_), forks sys (1%nat :: 1%nat :: at_) with
      | None, _ => complains (PanicMsg "fork")
      | Some _, None => Forks l (complains (PanicMsg "fork"))
      | Some _, Some _ => both l r
      end
  | List lc rc =>
      match forks sys at_ with
      | Some _ => after (wired lc ft (0%nat :: at_)) (wired rc ft (1%nat :: at_))
      | None => complains (PanicMsg "fork")
      end
  | Back c =>
      match forks sys at_ with
      | Some _ => aside (wired c ft (0%nat :: at_))
      | None => complains (PanicMsg "fork")
      end
  end.

(** Standard input and output are open, and two descriptors are free. *)
Record roomy (ft : table) : Prop := {
  ro_0 : ∃ o, ft !! 0%nat = Some (Some o);
  ro_1 : ∃ o, ft !! 1%nat = Some (Some o);
  ro_free : ∃ a b, (a < b)%nat ∧ ft !! a = Some None ∧ ft !! b = Some None ∧
    ∀ k, (k < b)%nat → k ≠ a → ∃ o, ft !! k = Some (Some o)
}.
(** Redirections are of standard input or output, as the parser makes them. *)
Fixpoint redirs_ok (c : cmd word) : Prop :=
  match c with
  | Exec _ => True
  | Redir c r => (r_fd r = 0 ∨ r_fd r = 1) ∧ redirs_ok c
  | Pipe l r | List l r => redirs_ok l ∧ redirs_ok r
  | Back c => redirs_ok c
  end.

Lemma fdalloc_at ft n o : ft !! n = Some None → (∀ k, (k < n)%nat → ∃ o', ft !! k = Some (Some o')) →
  fdalloc o ft = Some (n, <[n := Some o]> ft).
Proof.
  intros Hn Hb. unfold fdalloc. assert (list_find (λ x, x = None) ft = Some (n, None)) as ->; [|done].
  apply list_find_Some. split; [done|]. split; [done|]. intros j y Hj Hlt. destruct (Hb j Hlt) as [o' Ho]. by rewrite Ho in Hj; injection Hj as <-.
Qed.

(** Putting an open file in the place of another keeps the room. *)
Lemma roomy_insert ft n o : roomy ft → n = 0%nat ∨ n = 1%nat → roomy (<[n := Some o]> ft).
Proof.
  intros [[o0 H0] [o1 H1] (a & b & Hab & Ha & Hb & Hbelow)] Hn.
  assert (Hsome : ∀ k, (∃ o', ft !! k = Some (Some o')) → ∃ o', <[n := Some o]> ft !! k = Some (Some o')).
  { intros k [o' Hk]. destruct (decide (k = n)) as [->|Hne]; [|rewrite list_lookup_insert_ne by done; eauto].
    rewrite list_lookup_insert_eq by (by eapply lookup_lt_Some). eauto. }
  assert (n ≠ a ∧ n ≠ b) as [Hna Hnb] by (split; intros ->; destruct Hn as [-> | ->]; congruence).
  constructor; eauto. exists a, b. rewrite !list_lookup_insert_ne by done. split; [done|]. split; [done|]. split; [done|]. eauto.
Qed.

(** Closing standard input or output and opening something takes its place. *)
Lemma fdalloc_reuse (ft : table) n o : (∃ o, ft !! 0%nat = Some (Some o)) → (∃ o, ft !! 1%nat = Some (Some o)) → n = 0%nat ∨ n = 1%nat →
  fdalloc o (<[n := None]> ft) = Some (n, <[n := Some o]> ft).
Proof.
  intros [o0 H0] [o1 H1] Hn. rewrite <-(list_insert_insert_eq ft n (Some o) None). apply fdalloc_at.
  - apply list_lookup_insert_eq. destruct Hn as [-> | ->]; by eapply lookup_lt_Some.
  - intros k Hk. rewrite list_lookup_insert_ne by lia. destruct Hn as [-> | ->]; [lia|]. assert (k = 0%nat) as -> by lia. eauto.
Qed.

(** Closing both ends of a pipe restores the rest of the table. *)
Lemma close_ends (ft : table) (n a b : nat) x y z : ft !! a = Some None → ft !! b = Some None → n ≠ a → n ≠ b →
  <[b := None]> (<[a := None]> (<[n := z]> (<[b := y]> (<[a := x]> ft)))) = <[n := z]> ft.
Proof.
  intros Ha Hb Hna Hnb. pose proof (lookup_lt_Some _ _ _ Ha). pose proof (lookup_lt_Some _ _ _ Hb).
  apply list_eq. intros k. rewrite !list_lookup_insert, !length_insert. repeat case_decide; naive_solver lia.
Qed.

(** A child of a pipeline: [n] is its end of the pipe, [p] the descriptor of it. *)
Lemma interp_child k (ft : table) at_ id a b n p o : roomy ft → ft !! a = Some None → ft !! b = Some None → a ≠ b → n = 0%nat ∨ n = 1%nat →
  (p = a ∧ o = OPipe id false) ∨ (p = b ∧ o = OPipe id true) →
  interp (close (Z.of_nat n) (dup (Z.of_nat p) (close (Z.of_nat a) (close (Z.of_nat b) k))))
    (<[b := Some (OPipe id true)]> (<[a := Some (OPipe id false)]> ft)) at_ = interp k (<[n := Some o]> ft) at_.
Proof.
  intros [[o0 H0] [o1 H1] _] Ha Hb Hab Hn Hp. pose proof (lookup_lt_Some _ _ _ Ha). pose proof (lookup_lt_Some _ _ _ Hb).
  assert (n ≠ a ∧ n ≠ b) as [Hna Hnb] by (split; intros ->; destruct Hn as [-> | ->]; congruence).
  assert (0%nat ≠ a ∧ 1%nat ≠ a ∧ 0%nat ≠ b ∧ 1%nat ≠ b) as (? & ? & ? & ?) by (repeat split; intros <-; congruence).
  cbn [interp]. rewrite !Nat2Z.id. set (ft2 := <[b := _]> _).
  assert (Hop : ft2 !! p = Some (Some o)).
  { unfold ft2. destruct Hp as [[-> ->]|[-> ->]].
    - rewrite list_lookup_insert_ne by done. by apply list_lookup_insert_eq.
    - apply list_lookup_insert_eq. by rewrite length_insert. }
  rewrite list_lookup_insert_ne, Hop by (destruct Hp as [[-> _]|[-> _]]; done).
  rewrite fdalloc_reuse; [|unfold ft2; rewrite !list_lookup_insert_ne by done; eauto..|done].
  unfold ft2. by rewrite close_ends.
Qed.

Lemma runcmd_wired c : ∀ ft at_, roomy ft → redirs_ok c → interp (runcmd c) ft at_ = wired c ft at_.
Proof.
  induction c as [argv|c IH r|lc IHl rc IHr|lc IHl rc IHr|c IH]; intros ft at_ Hft Hc; cbn [runcmd wired redirs_ok] in *.
  - by destruct argv.
  - destruct Hc as [Hfd Hc]. assert (Hn : Z.to_nat (r_fd r) = 0%nat ∨ Z.to_nat (r_fd r) = 1%nat) by (destruct Hfd as [-> | ->]; auto).
    cbn [interp]. destruct (opens sys at_ d (r_file r) (r_mode r)); [|done]. rewrite fdalloc_reuse; [|apply Hft|apply Hft|done].
    rewrite (proj2 (Z.ltb_ge _ 0)) by lia. apply IH; [|done]. by apply roomy_insert.
  - destruct Hc as [Hl Hr]. destruct (ro_free _ Hft) as (a & b & Hab & Ha & Hb & Hbelow). cbn [interp]. destruct (pipes sys at_); cbn [negb]; [|done].
    rewrite (fdalloc_at ft a); [|done|intros k Hk; apply Hbelow; lia].
    rewrite (fdalloc_at _ b); [|by rewrite list_lookup_insert_ne by lia|].
    2: { intros k Hk. destruct (decide (k = a)) as [->|Hne]; [rewrite list_lookup_insert_eq by (by eapply lookup_lt_Some); eauto|].
         rewrite list_lookup_insert_ne by done. by apply Hbelow. }
    assert (E1 : ∀ p, interp (close 1 (dup (Z.of_nat b) (close (Z.of_nat a) (close (Z.of_nat b) (runcmd lc)))))
      (<[b := Some (OPipe at_ true)]> (<[a := Some (OPipe at_ false)]> ft)) p = wired lc (<[1%nat := Some (OPipe at_ true)]> ft) p).
    { intros p. etransitivity; [refine (interp_child (runcmd lc) ft _ at_ a b 1 b (OPipe at_ true) _ _ _ _ _ _); auto; lia|]. apply IHl; [|done]. apply roomy_insert; auto. }
    assert (E2 : ∀ p, interp (close 0 (dup (Z.of_nat a) (close (Z.of_nat a) (close (Z.of_nat b) (runcmd rc)))))
      (<[b := Some (OPipe at_ true)]> (<[a := Some (OPipe at_ false)]> ft)) p = wired rc (<[0%nat := Some (OPipe at_ false)]> ft) p).
    { intros p. etransitivity; [refine (interp_child (runcmd rc) ft _ at_ a b 0 a (OPipe at_ false) _ _ _ _ _ _); auto; lia|]. apply IHr; [|done]. apply roomy_insert; auto. }
    unfold fork1. cbn [interp]. destruct (forks sys (1%nat :: at_)); [|done]. cbn [Z.eqb]. rewrite <-(E1 (0%nat :: 1%nat :: at_)), <-(E2 (0%nat :: 1%nat :: 1%nat :: at_)). 
    cbn [interp]. by destruct (forks sys (1%nat :: 1%nat :: at_)).
  - destruct Hc as [Hl Hr]. unfold fork1. cbn [interp]. destruct (forks sys at_); [|done]. cbn [Z.eqb interp]. by rewrite IHl, IHr.
  - unfold fork1. cbn [interp]. destruct (forks sys at_); [|done]. cbn [Z.eqb interp]. by rewrite IH.
Qed.
End interp.

(** ** Theorem *)

(** Commands are wired as they are written.  Run with standard input and
    output open and two descriptors free, a command executes exactly its
    programs, each in the directory and with the descriptors of the shell but
    for what is written: a redirected program has the file as its standard input
    or output, the left side of a pipe writes into the pipe that its right side
    reads from, and neither keeps another end of any pipe open, so that a reader
    sees the end of the data.  The right side of a semicolon follows the end of
    the left, a pipeline ends when both sides have, and nobody waits for a
    command in the background.  A file that cannot be opened, a program that
    cannot be executed, or a process or pipe that the system cannot make is
    reported, and ends only the process it happened to. *)
Theorem runcmd_wires sys d c ft at_ : roomy ft → redirs_ok c → interp sys d (runcmd c) ft at_ = wired sys d c ft at_.
Proof. apply runcmd_wired. Qed.

(** ls > f | (wc; cat) *)
Definition demo_table : table := [Some (OInit 0); Some (OInit 1); Some (OInit 2)] ++ replicate 13 None.
Definition demo_cmd : cmd word := Pipe (Redir (Exec [[108; 115]]) (mkredir [102] 513 1)) (List (Exec [[119; 99]]) (Exec [[99; 97; 116]])).
(** Only programs with two letters exist. *)
Definition short_names (argv : list word) : bool := match argv with [[_; _]] => true | _ => false end.
Definition demo_system : system := mksystem (λ _, Some 7%positive) (λ _, true) (λ _ _ _ _, true) (λ _ _, short_names) (λ _ _ _, false).
Lemma runcmd_wires_witness : interp demo_system [] (runcmd demo_cmd) demo_table [] =
  both (Runs [[108; 115]] (<[1%nat := Some (OFile [] [102] 513)]> demo_table) [])
    (after (Runs [[119; 99]] (<[0%nat := Some (OPipe [] false)]> demo_table) []) (complains (ExecFailed [99; 97; 116]))).
Proof.
  apply (runcmd_wires demo_system [] demo_cmd demo_table []).
  - constructor; [by eexists|by eexists|]. exists 3%nat, 4%nat. split; [lia|]. split; [done|]. split; [done|].
    intros k Hk Hne. destruct k as [|[|[|[|k]]]]; [by eexists..|done|lia].
  - cbn. auto.
Defined.

(** ** Waiting *)

(** A process with its children; the children of a child that has been waited
    for are left to init. *)
Inductive process := Process (b : beh) (kids : list process).
Inductive step : process → process → Prop :=
| step_run argv ft d ks : step (Process (Runs argv ft d) ks) (Process Ends ks)
| step_say m b ks : step (Process (Says m b) ks) (Process b ks)
| step_fork c b ks : step (Process (Forks c b) ks) (Process b (ks ++ [Process c []]))
| step_wait b ks1 ks2 gs : step (Process (Waits b) (ks1 ++ Process Ends gs :: ks2)) (Process b (ks1 ++ ks2))
| step_none b : step (Process (Waits b) []) (Process b [])
| step_child b ks1 ks2 k k' : step k k' → step (Process b (ks1 ++ k :: ks2)) (Process b (ks1 ++ k' :: ks2)).

(** Whatever the children do meanwhile, the right side of [after l r] starts
    only when the process of the left side has ended. *)
Theorem after_waits l r T : rtc step (Process (after l r) []) T →
  T = Process (after l r) [] ∨
  (∃ k, T = Process (Waits r) [k] ∧ rtc step (Process l []) k) ∨
  (∃ gs, rtc step (Process l []) (Process Ends gs) ∧ rtc step (Process r []) T).
Proof.
  revert T. refine (rtc_ind_r _ _ _ _); [by left|]. intros T T' _ Hs [->|[(k & -> & Hk)|(gs & H1 & H2)]].
  - right; left. inversion Hs; subst; [by eexists|]. by destruct ks1.
  - right. inversion Hs as [| | |? ks1 ks2 gs|? Ek|? ks1 ks2 k1 k' Hk']; subst.
    + right. destruct ks1 as [|? [|]]; [|done..]. cbn in *. simplify_eq. exists gs. split; [done|]. apply rtc_refl.
    + left. destruct ks1 as [|? [|]]; [|done..]. cbn in *. simplify_eq. exists k'. split; [done|]. by eapply rtc_r.
  - right; right. exists gs. split; [done|]. by eapply rtc_r.
Qed.

End ShRun.
