(* ===== verification/Utils.v ===== *)
(** * User programs: wc, cat, chmod, the name and mode columns of ls, and gets

    The programs read files through [read], whose successive results are a list:
    a block of bytes, or an error; the list's end is the end of the file.  What
    they print is part of the result. *)

From S2P Require Import Prelude CString.
Local Open Scope Z_scope.

Module Utils.

(** What successive calls of [read] return: [None] is a negative result. *)
Definition reads : Type := list (option (list Z)).

(** ** wc.c *)

Record counts := mkcounts { n_l : Z; n_w : Z; n_c : Z; inword : bool }.

(** The string of white space, with its NUL: space, return, tab, newline and
    vertical tab. *)
Definition blanks : list Z := [32; 13; 9; 10; 11; 0].
(** The body of the inner loop. *)
Definition wc_char (k : counts) (b : Z) : counts :=
  let k := mkcounts (n_l k) (n_w k) (i32 (n_c k + 1)) (inword k) in
  let k := if b =? 10 then mkcounts (i32 (n_l k + 1)) (n_w k) (n_c k) (inword k) else k in
  match CString.strchr blanks b with
  | Some (Some _) => mkcounts (n_l k) (n_w k) (n_c k) false
  | _ => if negb (inword k) then mkcounts (n_l k) (i32 (n_w k + 1)) (n_c k) true else k
  end.
(** The outer loop: [inr] the counts that are printed, [inl] a read error. *)
Fixpoint wc_loop (k : counts) (rs : reads) : unit + counts :=
  match rs with
  | [] => inr k
  | Some [] :: _ => inr k
  | Some l :: rs => wc_loop (foldl wc_char k l) rs
  | None :: _ => inl tt
  end.
Definition wc (rs : reads) : unit + Z * Z * Z :=
  match wc_loop (mkcounts 0 0 0 false) rs with inr k => inr (n_l k, n_w k, n_c k) | inl _ => inl tt end.

(** ** cat.c *)

(** What is written to standard output, and whether the end was reached. *)
Fixpoint cat (rs : reads) : list Z * bool :=
  match rs with
  | [] => ([], true)
  | Some [] :: _ => ([], true)
  | Some l :: rs => let '(out, ok) := cat rs in (l ++ out, ok)
  | None :: _ => ([], false)
  end.

(** ** gets of ulib.c *)

(** The loop, from index [i]: the buffer, and the input that is left.  A [read]
    of one character returns it, or nothing at the end of the input. *)
Fixpoint gets_loop (n : nat) (i : nat) (max : Z) (buf : list Z) (inp : list Z) : list Z * nat * list Z :=
  match n with
  | O => (buf, i, inp)
  | S n =>
      if Z.of_nat i + 1 <? max then
        match inp with
        | [] => (buf, i, inp)
        | c :: inp =>
            let buf := <[i := c]> buf in
            if (c =? 10) || (c =? 13) then (buf, S i, inp) else gets_loop n (S i) max buf inp
        end
      else (buf, i, inp)
  end.
Definition gets (buf : list Z) (max : Z) (inp : list Z) : list Z * list Z :=
  let '(buf, i, inp) := gets_loop (Z.to_nat max) 0 max buf inp in (<[i := 0]> buf, inp).

(** ** fmtname of ls.c *)

Definition DIRSIZ : nat := 14.
(** The characters after the last slash: the loop from the end of the path. *)
Fixpoint after_slash (n : nat) (path : list Z) : list Z :=
  match n with
  | O => path
  | S m => if nth m path 0 =? 47 then drop n path else after_slash m path
  end.
(** The path without its NUL; the result is the string it points to. *)
Definition fmtname (path : list Z) : list Z :=
  let p := after_slash (length path) path in
  if (DIRSIZ <=? length p)%nat then p
  else p ++ replicate (DIRSIZ - length p) 32.

(** ** print_mode.c *)

Definition T_DIR : Z := 1.
Definition T_FILE : Z := 2.
Definition T_DEV : Z := 3.
Definition flag (mode : Z) (bit : Z) : bool := Z.testbit mode bit.
Definition dash (b : bool) (c : Z) : Z := if b then c else 45.
Definition print_mode (type mode : Z) : list Z :=
  [(if type =? T_DIR then 100 else if type =? T_FILE then 45 else if type =? T_DEV then 99 else 63);
   dash (flag mode 8) 114; dash (flag mode 7) 119;
   (if flag mode 6 && flag mode 9 then 83 else dash (flag mode 6) 120);
   dash (flag mode 5) 114; dash (flag mode 4) 119; dash (flag mode 3) 120;
   dash (flag mode 2) 114; dash (flag mode 1) 119; dash (flag mode 0) 120].

(** ** chmod.c *)

(** [None]: the mode is refused; otherwise the mode passed to the system call. *)
Definition chmod_main (arg : list Z) : option Z :=
  let mode := CString.atoo arg in
  if (1777 <? mode) || (mode <? 0) then None else Some mode.

(** ** Reference definitions *)

Definition is_blank (b : Z) : bool := bool_decide (b ∈ [32; 13; 9; 10; 11]).
(** The words of a text: maximal runs of characters that are not blank. *)
Fixpoint words (t : list Z) : list (list Z) :=
  match t with
  | [] => []
  | b :: t =>
      if is_blank b then words t
      else match t with
           | [] => [[b]]
           | b' :: _ => if is_blank b' then [b] :: words t
                        else match words t with w :: ws => (b :: w) :: ws | [] => [[b]] end
           end
  end.
Definition lines (t : list Z) : nat := length (filter (λ b, b = 10) t).

(** ** wc counts *)

(** The number of words that start in a text; [inw]: a word is going on. *)
Fixpoint starts (inw : bool) (t : list Z) : nat :=
  match t with [] => 0 | b :: t => (if is_blank b then 0 else if inw then 0 else 1) + starts (negb (is_blank b)) t end.

Lemma starts_words t : (length (words t) = starts false t ∧ ∀ b t', t = b :: t' → is_blank b = false → starts true t = pred (starts false t))%nat.
Proof.
  induction t as [|b t [IH1 IH2]]; [done|]. split.
  - cbn [words starts]. destruct (is_blank b) eqn:Eb; cbn [negb]; [exact IH1|]. destruct t as [|b' t']; [done|].
    destruct (is_blank b') eqn:Eb'.
    + cbn [length]. rewrite IH1. cbn [starts]. by rewrite Eb'.
    + rewrite (IH2 b' t' eq_refl Eb'). assert (Hpos : (0 < starts false (b' :: t'))%nat) by (cbn [starts]; rewrite Eb'; lia).
      rewrite <-IH1 in *. destruct (words (b' :: t')) as [|w ws]; cbn [length] in *; lia.
  - intros b0 t0 [= <- <-] Hb. cbn [starts]. rewrite Hb. cbn [negb]. lia.
Qed.

Lemma strchr_blanks b : match CString.strchr blanks b with Some (Some _) => true | _ => false end = is_blank b.
Proof.
  unfold is_blank, blanks, CString.strchr. cbn [CString.strchr_from].
  change (32 =? 0) with false. change (13 =? 0) with false. change (9 =? 0) with false. change (10 =? 0) with false. change (11 =? 0) with false. cbv iota.
  repeat match goal with |- context [?x =? b] => destruct (Z.eqb_spec x b) as [<-|?]; [reflexivity|] end.
  symmetry. apply bool_decide_eq_false. set_solver.
Qed.

Lemma i32_step z : i32 (i32 z + 1) = i32 (z + 1).
Proof. unfold i32. replace ((z + 2147483648) mod w32 - 2147483648 + 1 + 2147483648) with ((z + 2147483648) mod w32 + 1) by lia. by rewrite Zplus_mod_idemp_l; f_equal; f_equal; lia. Qed.

(** The counters after a text, in 32 bits. *)
Definition counted (l w c : Z) (inw : bool) (t : list Z) : counts :=
  mkcounts (i32 (l + Z.of_nat (lines t))) (i32 (w + Z.of_nat (starts inw t))) (i32 (c + Z.of_nat (length t)))
    (match last t with Some b => negb (is_blank b) | None => inw end).
Lemma wc_chars t : ∀ l w c inw, foldl wc_char (mkcounts (i32 l) (i32 w) (i32 c) inw) t = counted l w c inw t.
Proof.
  induction t as [|b t IH]; intros l w c inw; cbn [foldl]; [by unfold counted; cbn; rewrite !Z.add_0_r|].
  assert (E : wc_char (mkcounts (i32 l) (i32 w) (i32 c) inw) b =
    mkcounts (i32 (l + (if b =? 10 then 1 else 0))) (i32 (w + (if is_blank b then 0 else if inw then 0 else 1))) (i32 (c + 1)) (negb (is_blank b))).
  { unfold wc_char. cbn [n_l n_w n_c inword]. pose proof (strchr_blanks b) as Hb.
    destruct (CString.strchr blanks b) as [[k|]|]; rewrite <-Hb; cbn [negb]; destruct (b =? 10), inw; cbn [negb n_l n_w n_c inword];
      rewrite ?i32_step, ?Z.add_0_r; reflexivity. }
  rewrite E, IH. unfold counted, lines. rewrite last_cons. cbn [starts length]. destruct (Z.eqb_spec b 10) as [->|Hne].
  - rewrite filter_cons_True by done. change (is_blank 10) with true. cbn [length negb]. f_equal; [f_equal; lia|f_equal; lia|f_equal; lia|by destruct (last t)].
  - rewrite filter_cons_False by done. f_equal; [f_equal; lia|destruct (is_blank b), inw; cbn [negb]; f_equal; lia|f_equal; lia|by destruct (last t)].
Qed.

(** ** Theorems *)

(** Wc counts lines, words and characters.  However the file's bytes arrive
    in blocks, wc prints the number of newlines, of words (maximal runs of
    characters that are not white space, also across blocks) and of characters
    of what cat prints, as 32-bit integers; and it reports an error exactly when
    a read fails. *)
Theorem wc_counts rs : wc rs = let '(t, ok) := cat rs in
  if (ok : bool) then inr (i32 (Z.of_nat (lines t)), i32 (Z.of_nat (length (words t))), i32 (Z.of_nat (length t))) else inl tt.
Proof.
  unfold wc. change (mkcounts 0 0 0 false) with (mkcounts (i32 0) (i32 0) (i32 0) false).
  assert (H : ∀ t0 inw, wc_loop (foldl wc_char (mkcounts (i32 0) (i32 0) (i32 0) inw) t0) rs =
    let '(t, ok) := cat rs in if (ok : bool) then inr (foldl wc_char (mkcounts (i32 0) (i32 0) (i32 0) inw) (t0 ++ t)) else inl tt).
  { induction rs as [|[l|] rs IH]; intros t0 inw; cbn [wc_loop cat]; [by rewrite app_nil_r| |done].
    destruct l as [|b l]; [by rewrite app_nil_r|]. rewrite <-foldl_app, IH. destruct (cat rs) as [t ok]. by rewrite <-app_assoc. }
  specialize (H [] false). cbn [foldl app] in H. rewrite H. destruct (cat rs) as [t ok]. destruct ok; [|done].
  rewrite wc_chars. unfold counted. cbn [n_l n_w n_c]. by rewrite !Z.add_0_l, (proj1 (starts_words t)).
Qed.

(** The line that is read: up to a newline or return, at most [n] characters. *)
Fixpoint line_of (n : nat) (inp : list Z) : list Z * list Z :=
  match n, inp with
  | O, _ | _, [] => ([], inp)
  | S n, c :: inp => if (c =? 10) || (c =? 13) then ([c], inp) else let '(l, rest) := line_of n inp in (c :: l, rest)
  end.
Lemma line_of_length n inp : (length (line_of n inp).1 <= n)%nat.
Proof.
  revert inp. induction n as [|n IH]; intros [|c inp]; cbn; try lia. destruct (_ || _); cbn; [lia|].
  specialize (IH inp). destruct (line_of n inp). cbn in *. lia.
Qed.
Lemma gets_loop_spec n : ∀ i max buf inp, Z.of_nat (i + n) = max → (i + n <= length buf)%nat →
  gets_loop n i max buf inp = let '(l, rest) := line_of (pred n) inp in (take i buf ++ l ++ drop (i + length l) buf, (i + length l)%nat, rest).
Proof.
  induction n as [|n IH]; intros i max buf inp Hm Hl; cbn [gets_loop pred line_of].
  - cbn. by rewrite Nat.add_0_r, take_drop.
  - destruct (Z.ltb_spec (Z.of_nat i + 1) max) as [Hlt|Hge].
    + destruct n as [|n]; [lia|]. cbn [line_of]. destruct inp as [|c inp]; [cbn; by rewrite Nat.add_0_r, take_drop|].
      assert (Et : take (S i) (<[i := c]> buf) = take i buf ++ [c]).
      { rewrite (take_S_r _ _ c) by (apply list_lookup_insert_eq; lia). by rewrite take_insert_ge by lia. }
      assert (Ed : ∀ k, (i < k)%nat → drop k (<[i := c]> buf) = drop k buf) by (intros k Hk; by rewrite drop_insert_lt by lia).
      destruct ((c =? 10) || (c =? 13)).
      * cbn [length app]. rewrite Nat.add_1_r. f_equal. f_equal. rewrite <-(take_drop (S i) (<[i := c]> buf)), Et, Ed by lia. by rewrite <-app_assoc.
      * rewrite IH by (rewrite ?length_insert; lia). cbn [pred]. destruct (line_of n inp) as [l rest].
        rewrite Et, Ed by lia. cbn [length app]. rewrite <-app_assoc. cbn [app]. replace (S i + length l)%nat with (i + S (length l))%nat by lia. done.
    + assert (n = 0)%nat as -> by lia. cbn. by rewrite Nat.add_0_r, take_drop.
Qed.

(** Gets reads one line.  On a buffer of at least [max] bytes it stores the
    line, of at most [max - 1] characters and with its newline, and a NUL behind
    it, changes nothing after that (so nothing past [max]), and takes exactly
    the line off the input. *)
Theorem gets_line buf max inp : 0 < max → max <= Z.of_nat (length buf) →
  let '(l, rest) := line_of (pred (Z.to_nat max)) inp in
  gets buf max inp = (l ++ [0] ++ drop (S (length l)) buf, rest) ∧ inp = l ++ rest ∧ Z.of_nat (length l) < max.
Proof.
  intros Hm Hl. unfold gets. rewrite gets_loop_spec by lia. pose proof (line_of_length (pred (Z.to_nat max)) inp) as Hlen.
  assert (Hin : ∀ n i, i = (line_of n i).1 ++ (line_of n i).2).
  { induction n as [|n IH]; intros [|c i]; cbn; try done. destruct (_ || _); [done|]. rewrite (IH i) at 1. by destruct (line_of n i). }
  specialize (Hin (pred (Z.to_nat max)) inp). destruct (line_of _ inp) as [l rest]. cbn [fst snd] in *. split; [|split; [done|lia]].
  f_equal. rewrite take_0, !Nat.add_0_l. cbn [app]. rewrite (insert_app_r_alt l) by lia. rewrite Nat.sub_diag. f_equal.
  destruct (lookup_lt_is_Some_2 buf (length l)) as [x Hx]; [lia|]. by rewrite (drop_S _ x _ Hx).
Qed.

Lemma gets_line_witness : gets (replicate 8 7) 8 [108; 115; 10; 120] = ([108; 115; 10; 0; 7; 7; 7; 7], [120]) ∧
  [108; 115; 10; 120] = [108; 115; 10] ++ [120] ∧ 3 < 8.
Proof. exact (gets_line (replicate 8 7) 8 [108; 115; 10; 120] eq_refl ltac:(vm_compute; discriminate)). Defined.

Lemma after_slash_spec n path : (n <= length path)%nat → Forall (λ c, c ≠ 47) (drop n path) →
  ∃ dir, path = dir ++ after_slash n path ∧ 47 ∉ after_slash n path ∧ (dir = [] ∨ last dir = Some 47).
Proof.
  induction n as [|n IH]; intros Hn Hd; cbn [after_slash].
  - exists []. split; [done|]. split; [|by left]. rewrite drop_0 in Hd. intros Hin. rewrite Forall_forall in Hd. by apply (Hd 47).
  - destruct (lookup_lt_is_Some_2 path n) as [c Hc]; [lia|]. rewrite (nth_lookup_Some _ _ 0 _ Hc). destruct (Z.eqb_spec c 47) as [->|Hne].
    + exists (take (S n) path). split; [by rewrite take_drop|]. split.
      * intros Hin. rewrite Forall_forall in Hd. by apply (Hd 47).
      * right. by rewrite (take_S_r _ _ _ Hc), last_snoc.
    + apply IH; [lia|]. rewrite (drop_S _ _ _ Hc). by constructor.
Qed.

(** Fmtname gives the last component of a path, padded with blanks to a
    column of DIRSIZ characters when it is shorter and whole when it is not. *)
Theorem fmtname_column path : ∃ dir base, path = dir ++ base ∧ 47 ∉ base ∧ (dir = [] ∨ last dir = Some 47) ∧
  fmtname path = base ++ replicate (DIRSIZ - length base) 32 ∧ length (fmtname path) = (DIRSIZ `max` length base)%nat.
Proof.
  destruct (after_slash_spec (length path) path) as (dir & E & Hb & Hdir); [done|by rewrite drop_all|].
  exists dir, (after_slash (length path) path). split; [done|]. split; [done|]. split; [done|]. unfold fmtname.
  destruct (Nat.leb_spec DIRSIZ (length (after_slash (length path) path))) as [H|H].
  - replace (DIRSIZ - _)%nat with 0%nat by lia. cbn [replicate]. rewrite app_nil_r. split; [done|]. lia.
  - split; [done|]. rewrite length_app, length_replicate. lia.
Qed.

(** The type and mode that a listing shows. *)
Definition shown_bit (c : Z) : bool := negb (c =? 45).
Definition read_mode (l : list Z) : option (Z * Z) :=
  match l with
  | [t; ur; uw; ux; gr; gw; gx; or; ow; ox] =>
      Some ((if t =? 100 then T_DIR else if t =? 45 then T_FILE else T_DEV),
            512 * Z.b2z (ux =? 83) + 256 * Z.b2z (shown_bit ur) + 128 * Z.b2z (shown_bit uw) + 64 * Z.b2z (shown_bit ux) +
            32 * Z.b2z (shown_bit gr) + 16 * Z.b2z (shown_bit gw) + 8 * Z.b2z (shown_bit gx) +
            4 * Z.b2z (shown_bit or) + 2 * Z.b2z (shown_bit ow) + Z.b2z (shown_bit ox))
  | _ => None
  end.
Definition mode_shown (type : Z) (mode : Z) : bool :=
  bool_decide (read_mode (print_mode type mode) = Some (type, if flag mode 6 then mode else Z.ldiff mode 512)).
Lemma modes_shown : forallb (λ type, forallb (mode_shown type) (Z.of_nat <$> seq 0 1024)) [T_DIR; T_FILE; T_DEV] = true.
Proof. vm_compute. reflexivity. Qed.

(** The mode column can be read back: from what print_mode prints one gets
    the file's type and its mode, except that the set-uid bit of a file its
    owner may not execute is not shown. *)
Theorem print_mode_readable type mode : type = T_DIR ∨ type = T_FILE ∨ type = T_DEV → 0 <= mode < 1024 →
  read_mode (print_mode type mode) = Some (type, if flag mode 6 then mode else Z.ldiff mode 512).
Proof.
  intros Ht Hm. assert (Hin : In type [T_DIR; T_FILE; T_DEV]) by (cbn; intuition).
  pose proof (proj1 (forallb_forall _ _) modes_shown type Hin) as H.
  assert (Hin' : In mode (Z.of_nat <$> seq 0 1024)).
  { apply list_elem_of_In, list_elem_of_fmap. exists (Z.to_nat mode). rewrite elem_of_seq. lia. }
  pose proof (proj1 (forallb_forall _ _) H mode Hin') as H'. unfold mode_shown in H'. by apply bool_decide_eq_true in H'.
Qed.
Lemma print_mode_readable_witness : read_mode (print_mode T_FILE 1005) = Some (T_FILE, 1005).
Proof. apply (print_mode_readable T_FILE 1005); [right; left; reflexivity|vm_compute; split; [discriminate|reflexivity]]. Defined.

(** chmod compares with 1777 in decimal: modes beyond 01777 that the kernel
    refuses get past it. *)
Example chmod_decimal : chmod_main [51; 51; 54; 49; 0] = Some 1777 ∧ chmod_main [51; 51; 54; 50; 0] = None.
Proof. by vm_compute. Qed.

End Utils.
