(* ===== verification/ShMain.v ===== *)
(** * The shell's main loop (getcmd and main of sh.c)

    The shell opens the console until three descriptors are open, and then
    reads lines into its buffer of 100 bytes.  A line that starts with [cd] and
    a blank is a change of directory, which the shell makes itself; every other
    line is parsed and run by a child, on its copy of the buffer, while the
    shell waits.  When the system cannot make the child the shell ends.  The
    state holds the input that is still to be read, the buffer, the working
    directory, the point of the session and what the shell has done.

    The theorem composes the reader, the parser and [runcmd]: a session of
    printed commands runs those commands. *)

From S2P Require Import Prelude CString Sh ShProps ShRound ShRun Utils.
Import Sh ShProps ShRound ShRun.
Local Open Scope Z_scope.

Module ShMain.

Definition O_RDWR : Z := 2.
Definition console : word := [99; 111; 110; 115; 111; 108; 101].
Definition NBUF : Z := 100.

Inductive act := Prompt | Chdir (to : word) | CannotCd (to : word) | Launch (b : beh).

Record sst := mksst { inp : list Z; buf : list Z; cwd : dir; at_ : point; done_ : list act }.
Definition put_buf (b : list Z) (s : sst) : sst := mksst (inp s) b (cwd s) (at_ s) (done_ s).
Definition put_inp (i : list Z) (s : sst) : sst := mksst i (buf s) (cwd s) (at_ s) (done_ s).
Definition put_cwd (d : dir) (s : sst) : sst := mksst (inp s) (buf s) d (at_ s) (done_ s).
Definition does (a : act) : M sst unit := modify (λ s, mksst (inp s) (buf s) (cwd s) (at_ s) (done_ s ++ [a])).
(** The point after a call. *)
Definition called : M sst unit := modify (λ s, mksst (inp s) (buf s) (cwd s) (1%nat :: at_ s) (done_ s)).
(** Whether the process goes on after [b]. *)
Fixpoint goes_on (b : beh) : bool :=
  match b with Returns => true | Ends | Runs _ _ _ => false | Says _ b | Forks _ b | Waits b => goes_on b end.

(** The result is whether [getcmd] returns 0. *)
Definition getcmd (nbuf : Z) : M sst bool :=
  does Prompt;;
  modify (λ s, put_buf (replicate (Z.to_nat nbuf) 0 ++ drop (Z.to_nat nbuf) (buf s)) s);;
  modify (λ s, let '(b, i) := Utils.gets (buf s) nbuf (inp s) in put_inp i (put_buf b s));;
  b ← Prelude.gets buf;
  mret (negb (nth 0 b 0 =? 0)).

(** What [parsecmd] reports before it panics on the rest of a line. *)
Definition leftovers (b : list Z) : option (list Z) :=
  match parseline (length b) (fuel_for b) b with Ok _ s => Some (skip s) | _ => None end.
(** [runcmd(parsecmd(buf))], on the string in the buffer. *)
Definition child (b : list Z) : prog :=
  let line := CString.cstr b in
  match parsecmd line with
  | Ok (c, b') _ => runcmd (cmd_map (λ f, CString.cstr (drop f.1 b')) c)
  | Panic m _ => match leftovers line with Some s => printf (Leftovers s) (ShRun.panic m) | None => ShRun.panic m end
  | _ => exit
  end.

Section main.
Context (sys : system).

(** [while((fd = open("console", O_RDWR)) >= 0)] *)
Fixpoint open_console (fuel : nat) (ft : table) : M sst table :=
  match fuel with
  | O => hang
  | S fuel =>
      a ← Prelude.gets at_;
      d ← Prelude.gets cwd;
      called;;
      if opens sys a d console O_RDWR then
        match fdalloc (OFile d console O_RDWR) ft with
        | Some (fd, ft) => if (3 <=? fd)%nat then mret (<[fd := None]> ft) else open_console fuel ft
        | None => mret ft
        end
      else mret ft
  end.

(** The change of directory, with the last character of the line chopped. *)
Definition cd : M sst unit :=
  b ← Prelude.gets buf;
  n ← deref (CString.strlen b);
  let b := <[Z.to_nat (n - 1) := 0]> b in
  modify (put_buf b);;
  let to := CString.cstr (drop 3 b) in
  a ← Prelude.gets at_;
  d ← Prelude.gets cwd;
  called;;
  if chdirs sys a d to then modify (put_cwd (d ++ [to]));; does (Chdir to) else does (CannotCd to).

(** Whether the shell goes on. *)
Definition run_line (ft : table) : M sst bool :=
  b ← Prelude.gets buf;
  a ← Prelude.gets at_;
  d ← Prelude.gets cwd;
  let l := interp sys d (fork1 (λ pid, if pid =? 0 then child b else wait return_)) ft a in
  does (Launch l);;
  called;;
  mret (goes_on l).

Definition is_cd (b : list Z) : bool := (nth 0 b 0 =? 99) && (nth 1 b 0 =? 100) && (nth 2 b 0 =? 32).

Fixpoint main_loop (fuel : nat) (ft : table) : M sst unit :=
  match fuel with
  | O => hang
  | S fuel =>
      ok ← getcmd NBUF;
      if (ok : bool) then
        b ← Prelude.gets buf;
        go ← (if is_cd b then cd;; mret true else run_line ft);
        if (go : bool) then main_loop fuel ft else mret tt
      else mret tt
  end.

(** Every round but the last takes a character from the input. *)
Definition main (ft : table) : M sst unit :=
  ft ← open_console (S NOFILE) ft;
  i ← Prelude.gets inp;
  main_loop (S (length i)) ft.
End main.

(** ** Sessions *)

Inductive line := LCmd (c : cmd word) | LCd (dir : word).
Definition text (l : line) : list Z := match l with LCmd c => show 0 c | LCd d => [99; 100; 32] ++ d end.
(** A line that fits the buffer with its newline. *)
Definition line_ok (l : line) : Prop :=
  (length (text l) < 99)%nat ∧
  match l with
  | LCmd c => printable c ∧ is_cd (text l) = false
  | LCd d => Forall (λ x, x ≠ 0 ∧ x ≠ 10 ∧ x ≠ 13) d
  end.
Definition typed (ls : list line) : list Z := concat ((λ l, text l ++ [10]) <$> ls).

(** Descriptors that are open from the first on. *)
Definition table_of (os : list obj) : table := (Some <$> os) ++ replicate (NOFILE - length os) None.
Definition fill_std (d : dir) (os : list obj) : list obj := os ++ replicate (3 - length os) (OFile d console O_RDWR).

Section sessions.
Context (sys : system).

(** What the lines mean to the shell whose descriptors are [ft], in directory
    [d] and from point [a] on: what it does and the lines that are left when it
    ends. *)
Fixpoint session (ft : table) (d : dir) (a : point) (ls : list line) : list act * list line :=
  match ls with
  | [] => ([Prompt], [])
  | LCmd c :: ls =>
      match forks sys a with
      | Some _ =>
          let '(acts, unread) := session ft d (1%nat :: a) ls in
          (Prompt :: Launch (after (wired sys d c ft (0%nat :: a)) Returns) :: acts, unread)
      | None => ([Prompt; Launch (complains (PanicMsg "fork"))], ls)
      end
  | LCd to :: ls =>
      let ok := chdirs sys a d to in
      let '(acts, unread) := session ft (if ok then d ++ [to] else d) (1%nat :: a) ls in
      (Prompt :: (if ok then Chdir to else CannotCd to) :: acts, unread)
  end.

(** *** The descriptors *)
Lemma table_of_insert os o : (length os < NOFILE)%nat → fdalloc o (table_of os) = Some (length os, table_of (os ++ [o])).
Proof.
  intros Hl. assert (Hr : (NOFILE - length os = S (NOFILE - S (length os)))%nat) by lia.
  rewrite (fdalloc_at _ (length os)).
  - f_equal. f_equal. unfold table_of. rewrite Hr, length_app, Nat.add_1_r. cbn [replicate].
    rewrite (insert_app_r_alt (Some <$> os)) by (by rewrite length_fmap). rewrite length_fmap, Nat.sub_diag. cbn.
    by rewrite fmap_app, <-app_assoc.
  - unfold table_of. rewrite Hr. rewrite lookup_app_r by (by rewrite length_fmap). by rewrite length_fmap, Nat.sub_diag.
  - intros k Hk. unfold table_of. rewrite lookup_app_l by (by rewrite length_fmap). rewrite list_lookup_fmap.
    destruct (lookup_lt_is_Some_2 os k Hk) as [x ->]. by exists x.
Qed.
Lemma table_of_close os o : (length os < NOFILE)%nat → <[length os := None]> (table_of (os ++ [o])) = table_of os.
Proof.
  intros Hl. assert (Hr : (NOFILE - length os = S (NOFILE - S (length os)))%nat) by lia.
  unfold table_of. rewrite Hr, length_app, Nat.add_1_r, fmap_app, <-app_assoc. cbn [replicate].
  rewrite (insert_app_r_alt (Some <$> os)) by (by rewrite length_fmap). by rewrite length_fmap, Nat.sub_diag.
Qed.
Lemma wp_open_console `{mode : Mode} n : ∀ os s (Q : table → sst → Prop), (length os < NOFILE)%nat → (3 - length os < n)%nat →
  (∀ k, (k <= 3 - length os)%nat → opens sys (replicate k 1%nat ++ at_ s) (cwd s) console O_RDWR = true) →
  Q (table_of (fill_std (cwd s) os)) (mksst (inp s) (buf s) (cwd s) (replicate (S (3 - length os)) 1%nat ++ at_ s) (done_ s)) →
  wp (open_console sys n (table_of os)) Q s.
Proof using.
  induction n as [|n IH]; intros os s Q Hl Hn Ho HQ; [lia|]. cbn [open_console].
  apply wp_bind, wp_gets, wp_bind, wp_gets, wp_bind, wp_modify. pose proof (Ho 0%nat ltac:(lia)) as Ho0. cbn [replicate app] in Ho0. rewrite Ho0, table_of_insert by done.
  destruct (Nat.leb_spec 3 (length os)).
  - apply wp_ret. rewrite table_of_close by done. unfold fill_std in HQ. replace (3 - length os)%nat with O in HQ by lia. by rewrite app_nil_r in HQ.
  - apply IH; [rewrite length_app; unfold NOFILE in *; cbn; lia|rewrite length_app; cbn; lia| |].
    { intros k Hk. rewrite length_app in Hk. cbn in Hk. specialize (Ho (S k) ltac:(lia)). rewrite replicate_S_end, <-app_assoc in Ho. exact Ho. }
    unfold fill_std in *. cbn [inp buf cwd at_ done_].
    rewrite length_app. cbn [length]. replace (3 - length os)%nat with (S (3 - (length os + 1))) in HQ by lia. 
    rewrite <-app_assoc. rewrite (replicate_S_end (S _)), <-app_assoc in HQ. exact HQ.
Qed.
Lemma fill_std_length d os : length (fill_std d os) = (length os `max` 3)%nat.
Proof. unfold fill_std. rewrite length_app, length_replicate. lia. Qed.
Lemma table_of_roomy os : (2 <= length os)%nat → (length os <= 14)%nat → roomy (table_of os).
Proof.
  intros H1 H2. assert (Hin : ∀ k, (k < length os)%nat → ∃ o, table_of os !! k = Some (Some o)).
  { intros k Hk. unfold table_of. rewrite lookup_app_l by (by rewrite length_fmap). rewrite list_lookup_fmap.
    destruct (lookup_lt_is_Some_2 os k Hk) as [x ->]. by exists x. }
  assert (Hout : ∀ k, (length os <= k < 16)%nat → table_of os !! k = Some None).
  { intros k Hk. unfold table_of. rewrite lookup_app_r by (rewrite length_fmap; lia). rewrite length_fmap.
    apply lookup_replicate_2. unfold NOFILE. lia. }
  constructor; [apply Hin; lia..|]. exists (length os), (S (length os)). split; [lia|]. split; [apply Hout; lia|]. split; [apply Hout; lia|].
  intros k Hk Hne. apply Hin. lia.
Qed.

(** *** One line *)
Lemma cstr_app_nul l x : 0 ∉ l → CString.cstr (l ++ 0 :: x) = l.
Proof.
  induction l as [|c l IH]; [done|]. intros H. cbn [app CString.cstr]. rewrite (proj2 (Z.eqb_neq c 0)) by set_solver. f_equal. apply IH. set_solver.
Qed.
Lemma is_cd_nul l x : is_cd (l ++ 0 :: x) = is_cd l.
Proof. destruct l as [|a [|b [|c l]]]; unfold is_cd; cbn; by rewrite ?andb_false_r. Qed.
Lemma is_cd_newline l : is_cd (l ++ [10]) = is_cd l.
Proof. destruct l as [|a [|b [|c l]]]; unfold is_cd; cbn; by rewrite ?andb_false_r. Qed.

Lemma text_chars l : line_ok l → Forall (λ x, x ≠ 0 ∧ x ≠ 10 ∧ x ≠ 13) (text l).
Proof.
  intros [_ Hl]. destruct l as [c|d]; [|by repeat (constructor; [lia|])]. destruct Hl as [Hc _].
  assert (Hf : ∀ x, foreign x → x ∉ show 0 c) by (intros; by apply show_avoids).
  apply Forall_forall. intros x Hx. repeat split; intros ->; eapply Hf; try exact Hx; try apply zero_foreign.
  all: split; [by left|]; split; [done|]; unfold symbols; set_solver.
Qed.
Lemma line_of_text t rest n : Forall (λ x, x ≠ 0 ∧ x ≠ 10 ∧ x ≠ 13) t → (length t < n)%nat →
  Utils.line_of n (t ++ 10 :: rest) = (t ++ [10], rest).
Proof.
  revert n. induction t as [|x t IH]; intros n Ht Hn; cbn in Hn; (destruct n as [|n]; [lia|]); [done|].
  apply Forall_cons in Ht as [(_ & Hx & Hx') Ht]. cbn [app Utils.line_of].
  rewrite (proj2 (Z.eqb_neq x 10)), (proj2 (Z.eqb_neq x 13)) by done. cbn [orb]. by rewrite IH by (done || lia).
Qed.

(** The buffer after a line [t] has been read. *)
Definition holding (t : list Z) : list Z := t ++ 0 :: drop (S (length t)) (replicate 100 0).
Lemma wp_getcmd `{mode : Mode} s (Q : bool → sst → Prop) : length (buf s) = 100%nat →
  (let '(t, rest) := Utils.line_of 99 (inp s) in
   Q (negb (nth 0 (holding t) 0 =? 0)) (mksst rest (holding t) (cwd s) (at_ s) (done_ s ++ [Prompt]))) → wp (getcmd NBUF) Q s.
Proof.
  intros Hb HQ. unfold getcmd. apply wp_bind, wp_modify, wp_bind, wp_modify, wp_bind, wp_modify, wp_bind, wp_gets, wp_ret. cbn [buf inp put_buf].
  change (Z.to_nat NBUF) with 100%nat. rewrite (drop_ge (buf s)), app_nil_r by lia.
  pose proof (Utils.gets_line (replicate 100 0) NBUF (inp s)) as Hg. change (pred (Z.to_nat NBUF)) with 99%nat in Hg.
  destruct (Utils.line_of 99 (inp s)) as [t rest]. destruct Hg as (Hg & _ & _); [done|by vm_compute|].
  rewrite Hg. cbn [buf put_inp put_buf inp cwd at_ done_]. exact HQ.
Qed.

Lemma child_shown c : printable c → (length (show 0 c) < 99)%nat → child (holding (show 0 c ++ [10])) = runcmd c.
Proof.
  intros Hc Hl. unfold child, holding. rewrite cstr_app_nul.
  - destruct (parse_shown c [10] Hc) as (c' & b' & -> & E); [done|set_solver|]. by rewrite E.
  - rewrite elem_of_app. intros [H|H]; [by eapply show_avoids; [apply zero_foreign|..]|set_solver].
Qed.
Lemma printable_redirs c : printable c → redirs_ok c.
Proof. induction c as [argv|c IH r|l IHl r IHr|l IHl r IHr|c IH]; cbn; unfold redir_ok; naive_solver. Qed.

Lemma wp_cd `{mode : Mode} (d : word) s (Q : unit → sst → Prop) : Forall (λ x, x ≠ 0 ∧ x ≠ 10 ∧ x ≠ 13) d → (length d < 96)%nat →
  buf s = holding (([99; 100; 32] ++ d) ++ [10]) →
  (∀ b, length b = 100%nat → Q tt (let ok := chdirs sys (at_ s) (cwd s) d in
     mksst (inp s) b (if ok then cwd s ++ [d] else cwd s) (1%nat :: at_ s) (done_ s ++ [if ok then Chdir d else CannotCd d]))) → wp (cd sys) Q s.
Proof.
  intros Hd Hl Hb HQ. set (t := [99; 100; 32] ++ d) in *. set (x := drop (S (length (t ++ [10]))) (replicate 100 0)).
  assert (Eb : buf s = t ++ 10 :: 0 :: x) by (rewrite Hb; unfold holding; fold x; by rewrite <-app_assoc).
  assert (Ht : 0 ∉ t ++ [10]).
  { rewrite Forall_forall in Hd. unfold t. rewrite !elem_of_app. intros [[H|H]|H]; [set_solver|by destruct (Hd 0 H)|set_solver]. }
  assert (Hn : CString.strlen (buf s) = Some (Z.of_nat (length (t ++ [10])))).
  { apply CString.strlen_spec. rewrite Eb. change (t ++ 10 :: 0 :: x) with (t ++ [10] ++ 0 :: x). rewrite app_assoc. split.
    - rewrite lookup_app_r by lia. by rewrite Nat.sub_diag.
    - intros k Hk. rewrite lookup_app_l by done. intros Hz. by apply Ht, list_elem_of_lookup_2 with k. }
  unfold cd. apply wp_bind, wp_gets, wp_bind. rewrite Hn. apply wp_deref, wp_bind, wp_modify.
  rewrite length_app, Nat.add_1_r, Nat2Z.inj_succ, Z.sub_1_r, Z.pred_succ, Nat2Z.id, Eb.
  rewrite (insert_app_r_alt t) by lia. rewrite Nat.sub_diag. cbn [insert list_insert].
  assert (CString.cstr (drop 3 (t ++ 0 :: 0 :: x)) = d) as ->.
  { change (t ++ 0 :: 0 :: x) with ([99; 100; 32] ++ d ++ 0 :: 0 :: x). rewrite (drop_app_length' [99; 100; 32]) by done.
    apply cstr_app_nul. unfold t in Ht. set_solver. }
  assert (length (t ++ 0 :: 0 :: x) = 100%nat).
  { unfold x, t. rewrite !length_app. cbn [length]. rewrite length_drop, length_replicate. lia. }
  apply wp_bind, wp_gets, wp_bind, wp_gets, wp_bind, wp_modify. cbn [at_ cwd put_buf]. specialize (HQ _ H). cbv zeta in HQ.
  destruct (chdirs sys (at_ s) (cwd s) d); [by apply wp_bind, wp_modify, wp_modify|by apply wp_modify].
Qed.

(** *** A session *)
Lemma holding_length t : (length t < 100)%nat → length (holding t) = 100%nat.
Proof. intros. unfold holding. rewrite length_app. cbn [length]. rewrite length_drop, length_replicate. lia. Qed.
Lemma wp_main_loop `{mode : Mode} ft ls : roomy ft → ∀ fuel s (Q : unit → sst → Prop), Forall line_ok ls → (length ls < fuel)%nat →
  length (buf s) = 100%nat → inp s = typed ls →
  (∀ s' acts unread, session ft (cwd s) (at_ s) ls = (acts, unread) → inp s' = typed unread → done_ s' = done_ s ++ acts → Q tt s') →
  wp (main_loop sys fuel ft) Q s.
Proof.
  intros Hft. induction ls as [|l ls IH]; intros fuel s Q Hls Hf Hb Hi HQ; (destruct fuel as [|fuel]; [lia|]); cbn [main_loop].
  - apply wp_bind, wp_getcmd; [done|]. rewrite Hi. cbn [Utils.line_of typed fmap list_fmap concat]. apply wp_ret. by eapply HQ.
  - apply Forall_cons in Hls as [Hl Hls]. pose proof (text_chars l Hl) as Ht. pose proof Hl as [Hlen Hl']. cbn [length] in Hf.
    apply wp_bind, wp_getcmd; [done|]. rewrite Hi. change (typed (l :: ls)) with ((text l ++ [10]) ++ typed ls).
    rewrite <-app_assoc. cbn [app]. rewrite line_of_text by done.
    assert (negb (nth 0 (holding (text l ++ [10])) 0 =? 0) = true) as ->.
    { unfold holding. destruct (text l) as [|x t]; [done|]. apply Forall_cons in Ht as [(Hx & _) _]. cbn [app nth]. by rewrite (proj2 (Z.eqb_neq x 0)). }
    assert (Hh : length (holding (text l ++ [10])) = 100%nat) by (apply holding_length; rewrite length_app; cbn; lia).
    apply wp_bind, wp_gets. cbn [buf]. unfold holding at 1. rewrite is_cd_nul, is_cd_newline. destruct l as [c|d]; cbn [text session] in *.
    + destruct Hl' as [Hc ->]. apply wp_bind. unfold run_line. apply wp_bind, wp_gets, wp_bind, wp_gets, wp_bind, wp_gets. cbv zeta.
      apply wp_bind, wp_modify, wp_bind, wp_modify, wp_ret. cbn [buf at_ inp done_ cwd]. unfold fork1. cbn [interp].
      destruct (forks sys (at_ s)) as [pid|].
      * cbn [Z.eqb goes_on interp]. apply IH; [done|lia|done|done|]. cbn [at_ cwd done_]. intros s' acts unread Es H1 H2. 
        rewrite Es in HQ. eapply HQ; [done|done|]. rewrite H2, <-!app_assoc. cbn [app]. do 3 f_equal. unfold after. do 2 f_equal. rewrite child_shown by done.
        apply runcmd_wired; [done|]. by apply printable_redirs.
      * cbn [Z.eqb goes_on interp ShRun.panic]. apply wp_ret. eapply HQ; [done|done|]. cbn [done_]. by rewrite <-app_assoc.
    + change (is_cd ([99; 100; 32] ++ d)) with true. apply wp_bind, wp_bind. rewrite length_app in Hlen. cbn [length] in Hlen.
      eapply wp_cd; [exact Hl'|lia|done|]. intros b Hb'. apply wp_ret. cbn [inp at_ done_ cwd]. apply IH; [done|lia|done|done|]. cbn [at_ cwd done_].
      intros s' acts unread Es H1 H2. cbv zeta in HQ. destruct (chdirs sys (at_ s) (cwd s) d); rewrite Es in HQ; (eapply HQ; [done|done|]; by rewrite H2, <-!app_assoc).
Qed.
Lemma typed_long ls : (length ls <= length (typed ls))%nat.
Proof. induction ls as [|l ls IH]; [done|]. change (typed (l :: ls)) with ((text l ++ [10]) ++ typed ls). rewrite !length_app. cbn. lia. Qed.
End sessions.

(** ** Theorem *)

(** C27: the shell runs what is typed.  Started with its first descriptors open
    (at most 14 of them) and able to open the console then, the shell reads a
    session of lines and ends, whatever all later calls give.  It prompts
    before every line and makes the changes of directory itself, or reports
    them; for every other line it makes a child and waits for it to end, and the
    child executes the programs of the command that was typed, wired as written,
    in the directory the lines before have led to, with the console on the
    standard descriptors that were not open.  It ends at the end of the input,
    or, with a message, at the first line it cannot make a child for, the lines
    after it unread.  The lines are printed commands and directories of less
    than 99 characters. *)
Theorem shell_session sys os ls b d a : (∀ k, (k <= 3 - length os)%nat → opens sys (replicate k 1%nat ++ a) d console O_RDWR = true) → (length os <= 14)%nat →
  Forall line_ok ls → length b = 100%nat →
  ∃ s' acts unread, main sys (table_of os) (mksst (typed ls) b d a []) = Ok tt s' ∧
    session sys (table_of (fill_std d os)) d (replicate (S (3 - length os)) 1%nat ++ a) ls = (acts, unread) ∧
    done_ s' = acts ∧ inp s' = typed unread.
Proof.
  intros Ho Hos Hls Hb. pose proof (typed_long ls).
  destruct (wp_total (main sys (table_of os)) (λ _ s', ∃ acts unread,
    session sys (table_of (fill_std d os)) d (replicate (S (3 - length os)) 1%nat ++ a) ls = (acts, unread) ∧ done_ s' = acts ∧ inp s' = typed unread)
    (mksst (typed ls) b d a [])) as ([] & s' & E & acts & unread & H1 & H2 & H3).
  - unfold main. apply wp_bind, wp_open_console; [unfold NOFILE; lia|unfold NOFILE; lia|done|]. apply wp_bind, wp_gets. cbn [inp buf cwd at_ done_].
    apply (wp_main_loop (mode:=Total) sys _ ls); [|done|lia|done|done|by eauto].
    apply table_of_roomy; rewrite fill_std_length; lia.
  - by exists s', acts, unread.
Qed.

(** Four lines: cd x, ls | wc, ls, and ls again, with a system that
    cannot make the child of the third; the shell starts with one open
    descriptor. *)
Definition demo_lines : list line :=
  [LCd [120]; LCmd (Pipe (Exec [[108; 115]]) (Exec [[119; 99]])); LCmd (Exec [[108; 115]]); LCmd (Exec [[108; 115]])].
Definition small_system : system :=
  mksystem (λ p, if (4 <? length p)%nat && bool_decide (0%nat ∉ p) then None else Some 7%positive) (λ _, true) (λ _ _ _ _, true) (λ _ _ _, true) (λ _ _ _, true).
Lemma shell_session_witness : ∃ s', main small_system (table_of [OInit 0]) (mksst (typed demo_lines) (replicate 100 0) [] [] []) = Ok tt s' ∧
  inp s' = typed [LCmd (Exec [[108; 115]])] ∧
  done_ s' = [Prompt; Chdir [120]; Prompt;
    Launch (after (both
      (Runs [[108; 115]] (table_of [OInit 0; OPipe [0; 1; 1; 1; 1]%nat true; OFile [] console O_RDWR]) [[120]])
      (Runs [[119; 99]] (table_of [OPipe [0; 1; 1; 1; 1]%nat false; OFile [] console O_RDWR; OFile [] console O_RDWR]) [[120]])) Returns);
    Prompt; Launch (complains (PanicMsg "fork"))].
Proof.
  destruct (shell_session small_system [OInit 0] demo_lines (replicate 100 0) [] []) as (s' & acts & unread & E & Es & H1 & H2).
  - reflexivity.
  - cbn. lia.
  - repeat constructor; cbn; unfold MAXARGS; try lia; done.
  - reflexivity.
  - exists s'. split; [exact E|]. rewrite H1, H2. vm_compute in Es. injection Es as <- <-. split; reflexivity.
Defined.

(** The last line of the input without a newline: the directory loses its last
    character. *)
Example cd_chops : ∃ s', main small_system (table_of []) (mksst [99; 100; 32; 97; 98] (replicate 100 0) [] [] []) = Ok tt s' ∧
  done_ s' = [Prompt; Chdir [97]; Prompt].
Proof. eexists. split; vm_compute; reflexivity. Qed.

End ShMain.
