(* ===== verification/Umalloc.v ===== *)
(** * The user-level allocator (umalloc.c)

    Free blocks form a circular list in address order, starting with the empty
    block [base]; sizes count headers of eight bytes, the block's own included.
    The state holds the two fields of every header by the header's address.

    [sbrk] moves the break or is refused, as the kernel decides: [grants]. *)

From stdpp Require Import gmap.
From S2P Require Import Prelude.
Local Open Scope Z_scope.

Module Umalloc.

Record heap := mkheap { hptr : Z → Z; hsize : Z → Z; freep : Z; brk : Z }.
Definition set_ptr (p q : Z) : M heap unit := modify (λ s, mkheap (<[p := q]> (hptr s)) (hsize s) (freep s) (brk s)).
Definition set_size (p n : Z) : M heap unit := modify (λ s, mkheap (hptr s) (<[p := n]> (hsize s)) (freep s) (brk s)).
Definition set_freep (p : Z) : M heap unit := modify (λ s, mkheap (hptr s) (hsize s) p (brk s)).

(** [sizeof(Header)], and [p + n] for a header pointer. *)
Definition HDR : Z := 8.
Definition hplus (p n : Z) : Z := p + HDR * n.

Section alloc.
(** The address of [base], and which increments of the break the kernel
    grants. *)
Context (base : Z) (grants : Z → Z → bool).


(** The loop of [free] that finds the place of [bp]. *)
Fixpoint find_place (fuel : nat) (bp p : Z) : M heap Z :=
  q ← gets (λ s, hptr s p);
  if (p <? bp) && (bp <? q) then mret p
  else if (q <=? p) && ((p <? bp) || (bp <? q)) then mret p
  else match fuel with O => hang | S fuel => find_place fuel bp q end.

Definition free (fuel : nat) (ap : Z) : M heap unit :=
  let bp := hplus ap (-1) in
  f ← gets freep;
  p ← find_place fuel bp f;
  q ← gets (λ s, hptr s p);
  n ← gets (λ s, hsize s bp);
  (if hplus bp n =? q then
     m ← gets (λ s, hsize s q);
     set_size bp (u32 (n + m));;
     q' ← gets (λ s, hptr s q);
     set_ptr bp q'
   else set_ptr bp q);;
  np ← gets (λ s, hsize s p);
  (if hplus p np =? bp then
     n ← gets (λ s, hsize s bp);
     set_size p (u32 (np + n));;
     q ← gets (λ s, hptr s bp);
     set_ptr p q
   else set_ptr p bp);;
  set_freep p.




Definition units (nbytes : Z) : Z := u32 (nbytes + HDR - 1) / HDR + 1.


End alloc.

(** ** The free list as a list of blocks *)

(** A block: the address of its header and its size. *)
Abbreviation block := (Z * Z)%type.
Definition bend (b : block) : Z := hplus b.1 b.2.
Definition within (x : Z) (b : block) : Prop := b.1 <= x < bend b.
Definition covered (x : Z) (l : list block) : Prop := ∃ b, b ∈ l ∧ within x b.

(** Blocks in address order above [e], no two of them adjacent, up to [hi]. *)
Fixpoint gaps (e : Z) (l : list block) (hi : Z) : Prop :=
  match l with
  | [] => e <= hi
  | b :: l => e < b.1 ∧ 0 < b.2 ∧ gaps (bend b) l hi
  end.
(** Each address of [l] points to the next. *)
Fixpoint links (f : Z → Z) (l : list Z) : Prop :=
  match l with
  | a :: l' => match l' with b :: _ => f a = b | [] => True end ∧ links f l'
  | [] => True
  end.
Definition addrs (l : list block) : list Z := fst <$> l.

(** ** Lists of blocks *)

(** Membership in lists that are given by their parts. *)
Ltac elems := first [repeat first [rewrite elem_of_cons|rewrite elem_of_app]; tauto|set_solver].

Lemma links_app f l1 x l2 : links f (l1 ++ x :: l2) ↔ links f (l1 ++ [x]) ∧ links f (x :: l2).
Proof.
  induction l1 as [|a l1 IH]; [cbn; naive_solver|]. change ((a :: l1) ++ x :: l2) with (a :: (l1 ++ x :: l2)).
  change ((a :: l1) ++ [x]) with (a :: (l1 ++ [x])). destruct l1 as [|b l1]; cbn [links app] in *; naive_solver.
Qed.
Lemma links_ext f g l z : (∀ a, a ∈ l → g a = f a) → links f (l ++ [z]) → links g (l ++ [z]).
Proof.
  induction l as [|a l IH]; intros H; [done|]. intros [H1 H2]. split; [|apply IH; [|done]; intros; apply H; set_solver].
  rewrite H by set_solver. destruct l; done.
Qed.
(** Going round a circular list from one of its elements. *)
Lemma links_rotate f z l A x B : z :: l = A ++ x :: B → links f (z :: l ++ [z]) → links f (x :: B ++ A ++ [x]).
Proof.
  intros E H. change (z :: l ++ [z]) with ((z :: l) ++ [z]) in H. rewrite E, <-app_assoc in H. destruct A as [|a A].
  - injection E as -> ->. exact H.
  - injection E as <- ->. cbn [app] in H. apply (links_app f (z :: A) x) in H as [H1 H2].
    apply (links_app f (x :: B) z). split; [exact H2|exact H1].
Qed.

Lemma gaps_le e l hi : gaps e l hi → e <= hi.
Proof.
  revert e. induction l as [|b l IH]; intros e; [done|]. intros (H1 & H2 & H3). apply IH in H3. unfold bend, hplus, HDR in H3. lia.
Qed.
Lemma gaps_app e l1 b l2 hi : gaps e (l1 ++ b :: l2) hi ↔ gaps e l1 (b.1 - 1) ∧ 0 < b.2 ∧ gaps (bend b) l2 hi.
Proof.
  revert e. induction l1 as [|c l1 IH]; intros e; cbn [app gaps]; [|rewrite IH; naive_solver]. split; intros; intuition lia.
Qed.
Lemma gaps_elem e l hi b : gaps e l hi → b ∈ l → e < b.1 ∧ 0 < b.2 ∧ bend b <= hi.
Proof.
  intros H (l1 & l2 & ->)%list_elem_of_split. apply gaps_app in H as (H1 & H2 & H3). apply gaps_le in H1. apply gaps_le in H3. lia.
Qed.
Lemma bend_lt (b : block) : 0 < b.2 → b.1 < bend b.
Proof. unfold bend, hplus, HDR. lia. Qed.
Lemma covered_cons x b l : covered x (b :: l) ↔ within x b ∨ covered x l.
Proof. unfold covered. setoid_rewrite elem_of_cons. naive_solver. Qed.
Lemma covered_app x l1 l2 : covered x (l1 ++ l2) ↔ covered x l1 ∨ covered x l2.
Proof. unfold covered. setoid_rewrite elem_of_app. naive_solver. Qed.
Lemma elem_of_addrs a l : a ∈ addrs l ↔ ∃ n, (a, n) ∈ l.
Proof.
  unfold addrs. rewrite list_elem_of_fmap. split; [intros ([a' n] & -> & H); eauto|intros [n H]; by exists (a, n)].
Qed.

Section heaps.
Context (base : Z) (grants : Z → Z → bool).

(** The free list is [base] and the blocks [l]; [al] are the blocks handed out. *)
Record wf (s : heap) (l : list block) (al : gmap Z Z) : Prop := {
  wf_base : 0 < base;
  wf_gaps : gaps base l (brk s);
  wf_brk : base < brk s;
  wf_top : brk s <= 2147483648;
  wf_links : links (hptr s) (base :: addrs l ++ [base]);
  wf_size : ∀ b, b ∈ (base, 0) :: l → hsize s b.1 = b.2;
  wf_freep : freep s ∈ base :: addrs l;
  wf_al : ∀ a n, al !! a = Some n → base < a ∧ 0 < n ∧ bend (a, n) <= brk s ∧ hsize s a = n;
  wf_sep : ∀ a n x, al !! a = Some n → within x (a, n) → ¬ covered x l;
  wf_disj : ∀ a n a' n' x, al !! a = Some n → al !! a' = Some n' → within x (a, n) → within x (a', n') → a = a'
}.

(** The block after the place of [l]. *)
Definition nxt (l : list block) : Z := match l with [] => base | b :: _ => b.1 end.
Lemma links_nxt f v l : links f (v :: addrs l ++ [base]) ↔ f v = nxt l ∧ links f (addrs l ++ [base]).
Proof. destruct l; cbn; naive_solver. Qed.

(** [v] is the place of [bp]. *)
Definition is_place (f : Z → Z) (bp v : Z) : bool :=
  (v <? bp) && (bp <? f v) || (f v <=? v) && ((v <? bp) || (bp <? f v)).

Section specs.
Context `{mode : Mode}.

Lemma wp_find_place s bp V : ∀ fuel p (Q : Z → heap → Prop), links (hptr s) (p :: V) → (length V <= fuel)%nat →
  (∃ v, v ∈ p :: V ∧ is_place (hptr s) bp v = true) →
  (∀ v, v ∈ p :: V → is_place (hptr s) bp v = true → Q v s) → wp (find_place fuel bp p) Q s.
Proof.
  induction V as [|q V IH]; intros fuel p Q Hl Hf (v & Hv & Hp) HQ.
  - apply list_elem_of_singleton in Hv as ->. specialize (HQ p ltac:(set_solver) Hp). unfold is_place in Hp.
    destruct fuel; cbn [find_place]; wp_steps; destruct (_ && _); cbn [orb] in Hp; try rewrite Hp; by wp_steps.
  - destruct Hl as [E Hl]. cbn [length] in Hf. destruct fuel as [|fuel]; [lia|]. cbn [find_place]. wp_steps. rewrite E.
    destruct (is_place (hptr s) bp p) eqn:Hpp.
    + specialize (HQ p ltac:(set_solver) Hpp). unfold is_place in Hpp. rewrite E in Hpp.
      destruct (_ && _); cbn [orb] in Hpp; try rewrite Hpp; by wp_steps.
    + assert (Hpp' := Hpp). unfold is_place in Hpp. rewrite E in Hpp. apply orb_false_iff in Hpp as [-> ->].
      apply IH; [done|lia| |].
      * exists v. split; [|done]. apply elem_of_cons in Hv as [->|]; [congruence|done].
      * intros w Hw. apply HQ. set_solver.
Qed.

(** ** The place of a block *)

(** The split of the list at the place of [bp]. *)
Definition split_at (l : list block) (bp : Z) (F1 : list block) (v : block) (l2 : list block) : Prop :=
  (base, 0) :: l = F1 ++ v :: l2 ∧ v.1 < bp ∧ match l2 with c :: _ => bp < c.1 | [] => True end.

Lemma split_exists l bp hi : gaps base l hi → base < bp → bp ∉ addrs l → ∃ F1 v l2, split_at l bp F1 v l2.
Proof.
  unfold split_at. assert (H : ∀ v l e, gaps e l hi → v.1 < bp → bp ∉ addrs l → ∃ F1 w l2, v :: l = F1 ++ w :: l2 ∧ w.1 < bp ∧ match l2 with c :: _ => bp < c.1 | [] => True end).
  { clear l. intros v l. revert v. induction l as [|c l IH]; intros v e Hg Hv Hn; [by exists [], v, []|].
    destruct (decide (bp < c.1)); [by exists [], v, (c :: l)|]. destruct Hg as (_ & _ & Hg).
    cbn [addrs fmap list_fmap] in Hn. destruct (IH c _ Hg) as (F1 & w & l2 & E & H1 & H2); [|set_solver|].
    { assert (bp ≠ c.1) by (intros ->; apply Hn; set_solver). lia. }
    exists (v :: F1), w, l2. split; [|done]. cbn [app]. by f_equal. }
  intros Hg Hb Hn. exact (H (base, 0) l base Hg Hb Hn).
Qed.

Section split.
Context (h : Z → Z) (hi : Z) (l : list block).
Context (Hg : gaps base l hi) (Hl : links h (base :: addrs l ++ [base])).

Lemma split_facts F1 v l2 : (base, 0) :: l = F1 ++ v :: l2 →
  h v.1 = nxt l2 ∧ links h (addrs F1 ++ [v.1]) ∧ links h (addrs l2 ++ [base]) ∧ base <= v.1 ∧ gaps (bend v) l2 hi ∧
  (∀ a, a ∈ addrs F1 → a < v.1) ∧ 0 <= v.2.
Proof.
  intros E. change (base :: addrs l ++ [base]) with (addrs ((base, 0) :: l) ++ [base]) in Hl. rewrite E in Hl.
  unfold addrs in Hl. rewrite fmap_app, fmap_cons, <-app_assoc in Hl. cbn [app] in Hl. apply links_app in Hl as [H1 H2].
  fold (addrs l2) in H2. apply links_nxt in H2 as [H2 H3]. split; [done|]. split; [done|]. split; [done|].
  destruct F1 as [|u F1].
  - injection E as <- <-. unfold bend, hplus. cbn [fst snd]. rewrite Z.mul_0_r, Z.add_0_r. split; [lia|]. split; [done|]. split; [set_solver|lia].
  - injection E as <- ->. apply gaps_app in Hg as (Hg1 & Hv & Hg2). pose proof (gaps_le _ _ _ Hg1). split; [lia|]. split; [done|].
    split; [|lia]. intros a Ha. cbn [addrs fmap list_fmap fst] in Ha. apply elem_of_cons in Ha as [->|Ha]; [lia|].
    apply elem_of_addrs in Ha as [n Ha]. destruct (gaps_elem _ _ _ _ Hg1 Ha) as (_ & Hn & Hb). cbn [fst snd] in *.
    pose proof (bend_lt (a, n) Hn). cbn [fst] in *. lia.
Qed.

Lemma place_of_split bp F1 v l2 : split_at l bp F1 v l2 → is_place h bp v.1 = true.
Proof.
  intros (E & Hv & Hn). destruct (split_facts _ _ _ E) as (Hh & _ & _ & Hb & _). unfold is_place. rewrite Hh.
  destruct l2 as [|c l2]; cbn [nxt].
  - apply orb_true_iff. right. rewrite (proj2 (Z.leb_le _ _)) by lia. by rewrite (proj2 (Z.ltb_lt _ _)).
  - by rewrite (proj2 (Z.ltb_lt _ _) Hv), (proj2 (Z.ltb_lt _ _) Hn).
Qed.
Lemma split_of_place bp v : base < bp → v ∈ base :: addrs l → is_place h bp v = true → ∃ F1 n l2, split_at l bp F1 (v, n) l2.
Proof.
  intros Hbp Hv Hp. change (base :: addrs l) with (addrs ((base, 0) :: l)) in Hv. apply elem_of_addrs in Hv as [n Hv].
  apply list_elem_of_split in Hv as (F1 & l2 & E). exists F1, n, l2. split; [done|].
  destruct (split_facts _ _ _ E) as (Hh & _ & _ & Hb & Hg2 & _ & Hn0). cbn [fst snd] in *. unfold is_place in Hp. rewrite Hh in Hp.
  destruct l2 as [|c l2]; cbn [nxt gaps] in *.
  - split; [|done]. apply orb_true_iff in Hp as [Hp|Hp]; apply andb_true_iff in Hp as [H1 H2]; [lia|].
    apply orb_true_iff in H2 as [H2|H2]; lia.
  - destruct Hg2 as (Hc & _). unfold bend, hplus, HDR in Hc. cbn [fst snd] in Hc.
    apply orb_true_iff in Hp as [Hp|Hp]; apply andb_true_iff in Hp as [H1 H2]; [|apply Z.leb_le in H1; lia].
    apply Z.ltb_lt in H1, H2. done.
Qed.
End split.

(** ** Returning a block *)

(** The header fields of [p] become [q] and [n]; nothing else changes. *)
Definition wrote (p q n : Z) (s s' : heap) : Prop :=
  (∀ x, hptr s' x = if decide (x = p) then q else hptr s x) ∧ (∀ x, hsize s' x = if decide (x = p) then n else hsize s x) ∧
  freep s' = freep s ∧ brk s' = brk s.

Lemma wrote_ptr p q s n : hsize s p = n → wrote p q n s (mkheap (<[p := q]> (hptr s)) (hsize s) (freep s) (brk s)).
Proof.
  intros E. split; [|split; [|done]]; intros x; cbn; case_decide as D; subst; try done; [by rewrite fn_lookup_insert|by rewrite fn_lookup_insert_ne].
Qed.
Lemma wrote_both p q s n : wrote p q n s (mkheap (<[p := q]> (hptr s)) (<[p := n]> (hsize s)) (freep s) (brk s)).
Proof.
  split; [|split; [|done]]; intros x; cbn; case_decide as D; subst; try done; by rewrite ?fn_lookup_insert, ?fn_lookup_insert_ne.
Qed.

(** Joining [bp] with the block after it. *)
Definition join_next (bp q n : Z) : M heap unit :=
  if hplus bp n =? q then
    m ← gets (λ s, hsize s q);
    set_size bp (u32 (n + m));;
    q' ← gets (λ s, hptr s q);
    set_ptr bp q'
  else set_ptr bp q.

Lemma wp_join_next bp n l2 s (Q : unit → heap → Prop) :
  0 < base → base < bp → 0 < n → hsize s bp = n → brk s <= 2147483648 → bend (bp, n) <= brk s →
  (∀ b, b ∈ l2 → hsize s b.1 = b.2) → links (hptr s) (addrs l2 ++ [base]) → (∃ e, gaps e l2 (brk s)) →
  match l2 with c :: _ => bend (bp, n) <= c.1 | [] => True end →
  (∀ m l2' s', wrote bp (nxt l2') m s s' → 0 < m → gaps (bend (bp, m)) l2' (brk s) → l2' `suffix_of` l2 →
     (∀ x, covered x ((bp, m) :: l2') ↔ covered x l2 ∨ within x (bp, n)) → Q tt s') →
  wp (join_next bp (nxt l2) n) Q s.
Proof.
  intros Hb0 Hbp Hn Hs Htop Hend Hsz Hlk [e Hg] Hord HQ. unfold join_next. unfold bend, hplus, HDR in Hend. cbn [fst snd] in Hend.
  destruct l2 as [|c l2]; cbn [nxt].
  - assert ((hplus bp n =? base) = false) as -> by (apply Z.eqb_neq; unfold hplus, HDR; lia). unfold set_ptr. wp_steps.
    apply (HQ n [] _ (wrote_ptr bp base s n Hs)); [done|cbn; unfold bend, hplus, HDR; cbn; lia|done|].
    intros x. rewrite covered_cons. naive_solver.
  - destruct Hg as (_ & Hc & Hg). destruct (Z.eqb_spec (hplus bp n) c.1) as [E|E].
    + unfold set_size, set_ptr. wp_steps. rewrite (Hsz c) by set_solver. cbn [hptr hsize freep brk].
      pose proof (gaps_le _ _ _ Hg) as Hle. unfold bend, hplus, HDR in Hle, E. 
      assert (Em : u32 (n + c.2) = n + c.2) by (apply u32_small; unfold w32; lia). rewrite Em.
      destruct c as [q nq]. cbn [fst snd addrs fmap list_fmap app] in *. fold (addrs l2) in Hlk. apply links_nxt in Hlk as [Eq Hlk]. rewrite Eq.
      assert (Ee : bend (bp, n + nq) = bend (q, nq)) by (unfold bend, hplus, HDR; cbn; lia).
      apply (HQ (n + nq) l2 _ (wrote_both bp (nxt l2) s (n + nq))); [lia|by rewrite Ee|by exists [(q, nq)]|].
      intros x. rewrite !covered_cons. unfold within. rewrite Ee. unfold bend, hplus, HDR; cbn [fst snd]. 
      split; [intros [H|H]; [|tauto]; destruct (decide (x < q)); [right; lia|left; left; lia]|intros [[H|H]|H]; [left; lia|tauto|left; lia]].
    + unfold set_ptr. wp_steps. apply (HQ n (c :: l2) _ (wrote_ptr bp c.1 s n Hs)); [done| |done|].
      * cbn [gaps]. unfold bend, hplus, HDR in *. cbn [fst snd] in *. split; [lia|]. done.
      * intros x. rewrite !covered_cons. tauto.
Qed.

(** Joining [p] with the block [bp] after it. *)
Definition join_prev (p bp np : Z) : M heap unit :=
  if hplus p np =? bp then
    n ← gets (λ s, hsize s bp);
    set_size p (u32 (np + n));;
    q ← gets (λ s, hptr s bp);
    set_ptr p q
  else set_ptr p bp.

(** [p] and what follows it. *)
Lemma wp_join_prev p np bp m l2 s (Q : unit → heap → Prop) :
  0 < base → base <= p → 0 <= np → (np = 0 ↔ p = base) → 0 < m → hsize s p = np → hsize s bp = m → hptr s bp = nxt l2 →
  bend (p, np) <= bp → base < bp → bend (bp, m) <= brk s → brk s <= 2147483648 → gaps (bend (bp, m)) l2 (brk s) →
  (∀ np' l2' s', wrote p (nxt l2') np' s s' → (p = base → np' = 0) → (p ≠ base → 0 < np') → gaps (bend (p, np')) l2' (brk s) →
     (l2' = l2 ∨ l2' = (bp, m) :: l2) →
     (∀ x, covered x ((p, np') :: l2') ↔ covered x ((p, np) :: (bp, m) :: l2)) → Q tt s') →
  wp (join_prev p bp np) Q s.
Proof.
  intros Hb0 Hp Hnp Hz Hm Hsp Hsb Hpb Hord Hbp Hend Htop Hg HQ. unfold join_prev. unfold bend, hplus, HDR in Hord, Hend. cbn [fst snd] in Hord, Hend.
  destruct (Z.eqb_spec (hplus p np) bp) as [E|E].
  - unfold hplus, HDR in E. unfold set_size, set_ptr. wp_steps. cbn [hptr hsize freep brk]. rewrite Hsb, Hpb.
    assert (Hne : p ≠ base) by (intros ->; destruct Hz as [_ Hz]; rewrite Hz in E by done; lia).
    rewrite (u32_small (np + m)) by (unfold w32; lia).
    assert (Ee : bend (p, np + m) = bend (bp, m)) by (unfold bend, hplus, HDR; cbn; lia).
    apply (HQ (np + m) l2 _ (wrote_both p (nxt l2) s (np + m))); [done|lia|by rewrite Ee|by left|].
    intros x. rewrite !covered_cons. unfold within. rewrite Ee. unfold bend, hplus, HDR; cbn [fst snd].
    split; [intros [H|H]; [|tauto]; destruct (decide (x < bp)); [left; lia|right; left; lia]|intros [H|[H|H]]; [left; lia|left; lia|tauto]].
  - unfold set_ptr. wp_steps. apply (HQ np ((bp, m) :: l2) _ (wrote_ptr p bp s np Hsp)); [by intros ->; apply Hz|lia| |by right|done].
    cbn [gaps]. unfold bend, hplus, HDR in *. cbn [fst snd] in *. split; [lia|]. done.
Qed.

(** A block that is in use by nobody. *)
Record loose (s : heap) (l : list block) (bp n : Z) : Prop := {
  lo_base : base < bp; lo_pos : 0 < n; lo_end : bend (bp, n) <= brk s; lo_size : hsize s bp = n;
  lo_free : ∀ x, within x (bp, n) → ¬ covered x l
}.

Lemma within_start (b : block) : 0 < b.2 → within b.1 b.
Proof. intros H. split; [lia|by apply bend_lt]. Qed.

(** The blocks around the place of a loose block do not overlap it. *)
Lemma loose_fits s l al bp n F1 v l2 : wf s l al → loose s l bp n → split_at l bp F1 v l2 →
  bend v <= bp ∧ match l2 with c :: _ => bend (bp, n) <= c.1 | [] => True end.
Proof.
  intros Hw Hlo (E & Hv & Hn). assert (Hin : ∀ b, b ∈ l → b.1 < bp → bend b <= bp).
  { intros b Hb Hlt. destruct (decide (bend b <= bp)) as [|Hd]; [done|]. exfalso. apply (lo_free _ _ _ _ Hlo bp).
    - apply (within_start (bp, n)), Hlo.
    - exists b. split; [done|]. split; lia. }
  split.
  - destruct F1 as [|u F1]; injection E as <- E; [unfold bend, hplus, HDR; cbn in *; pose proof (lo_base _ _ _ _ Hlo); lia|].
    apply Hin; [rewrite E; set_solver|done].
  - destruct l2 as [|c l2]; [done|]. destruct (decide (bend (bp, n) <= c.1)) as [|Hd]; [done|]. exfalso.
    assert (Hc : c ∈ l) by (destruct F1; injection E as <- E; rewrite E; set_solver).
    apply (lo_free _ _ _ _ Hlo c.1); [split; [cbn; lia|lia]|]. exists c. split; [done|]. apply within_start.
    by apply (gaps_elem _ _ _ _ (wf_gaps _ _ _ Hw)).
Qed.

Lemma links_suffix f l l' z : l' `suffix_of` l → links f (addrs l ++ [z]) → links f (addrs l' ++ [z]).
Proof.
  intros [k ->]. unfold addrs. rewrite fmap_app, <-app_assoc. induction k as [|a k IH]; [done|]. intros [_ H]. by apply IH.
Qed.

(** The list after the headers of [p] and [bp] have been rewritten. *)
Lemma links_rewritten (h h' : Z → Z) F1 p np' bp m l2 l2a l2' :
  (∀ x, h' x = if decide (x = p) then nxt l2' else if decide (x = bp) then nxt l2a else h x) → p < bp →
  links h (addrs F1 ++ [p]) → (∀ a, a ∈ addrs F1 → a < p) → links h (addrs l2 ++ [base]) → l2a `suffix_of` l2 →
  (∀ b, b ∈ l2a → bp < b.1) → l2' = l2a ∨ l2' = (bp, m) :: l2a →
  links h' (addrs (F1 ++ (p, np') :: l2') ++ [base]).
Proof.
  intros Hh Hlt H1 Hlow H2 Hsuf Hhigh Hl2. unfold addrs. rewrite fmap_app, fmap_cons, <-app_assoc. cbn [app fst].
  fold (addrs F1) (addrs l2'). apply links_app. split.
  - eapply links_ext; [|exact H1]. intros a Ha. specialize (Hlow a Ha). rewrite Hh. by rewrite !decide_False by lia.
  - apply links_nxt. split; [by rewrite Hh, decide_True|].
    assert (Ha : links h' (addrs l2a ++ [base])).
    { eapply links_ext; [|by eapply links_suffix]. intros a [n Ha]%elem_of_addrs. specialize (Hhigh _ Ha). cbn in Hhigh.
      rewrite Hh. by rewrite !decide_False by lia. }
    destruct Hl2 as [->| ->]; [done|]. cbn [addrs fmap list_fmap app fst]. fold (addrs l2a). apply links_nxt. split; [|done].
    rewrite Hh, decide_False, decide_True by (done || lia). done.
Qed.

Lemma wp_free s l al bp n fuel (Q : unit → heap → Prop) :
  wf s l al → loose s l bp n → (∀ a k x, al !! a = Some k → within x (a, k) → ¬ within x (bp, n)) → (length l < fuel)%nat →
  (∀ s' l', wf s' l' al → (∀ x, covered x l' ↔ covered x l ∨ within x (bp, n)) → brk s' = brk s → (length l' <= S (length l))%nat → Q tt s') →
  wp (free fuel (hplus bp 1)) Q s.
Proof.
  intros Hw Hlo Hal Hf HQ. destruct (id Hw) as [Hb0 Hg Hbrk Htop Hl Hsz Hfp Hala Hsep Hdis]. destruct (id Hlo) as [Hbp Hn Hend Hsb Hfree].
  unfold free. replace (hplus (hplus bp 1) (-1)) with bp by (unfold hplus, HDR; lia). wp_steps.
  assert (Hna : bp ∉ addrs l).
  { intros [k Hk]%elem_of_addrs. apply (Hfree bp); [by apply (within_start (bp, n))|]. exists (bp, k). split; [done|].
    apply (within_start (bp, k)). by apply (gaps_elem _ _ _ _ Hg Hk). }
  apply list_elem_of_split in Hfp as (A & B & EL). pose proof (links_rotate _ _ _ _ _ _ EL Hl) as Hrot.
  assert (Hmem : ∀ v, v ∈ freep s :: B ++ A ++ [freep s] ↔ v ∈ base :: addrs l) by (rewrite EL; elems).
  apply (wp_find_place _ _ (B ++ A ++ [freep s])); [done| | |].
  { assert (El : length (base :: addrs l) = length (A ++ freep s :: B)) by (by rewrite EL). unfold addrs in El.
    rewrite length_app in El. cbn [length] in El. rewrite length_fmap in El. rewrite !length_app. cbn [length]. lia. }
  { destruct (split_exists _ _ _ Hg Hbp Hna) as (F1 & v & l2 & Hs). exists v.1. split; [|by eapply place_of_split].
    apply Hmem. destruct Hs as (E & _). change (base :: addrs l) with (addrs ((base, 0) :: l)). rewrite E. unfold addrs. rewrite fmap_app. elems. }
  intros p Hp Hpl. apply Hmem in Hp. destruct (split_of_place _ _ _ Hg Hl bp p Hbp Hp Hpl) as (F1 & np & l2 & Hs).
  destruct (loose_fits _ _ _ _ _ _ _ _ Hw Hlo Hs) as [Hfit1 Hfit2]. destruct Hs as (E & Hlt & Hn2). cbn [fst] in Hlt.
  destruct (split_facts _ _ _ Hg Hl _ _ _ E) as (Hh & HlF1 & Hl2 & Hbv & Hg2 & Hlow & Hnp0). cbn [fst snd] in *.
  wp_steps. rewrite Hh, Hsb.
  assert (Hszp : hsize s p = np) by (apply (Hsz (p, np)); rewrite E; elems).
  assert (Hl2s : ∀ b, b ∈ l2 → hsize s b.1 = b.2) by (intros b Hb; apply Hsz; rewrite E; elems).
  apply wp_join_next; try done; [by exists (bend (p, np))|].
  intros m l2a s1 (W1 & W2 & W3 & W4) Hm Hg1 Hsuf Hcov1. wp_steps.
  assert (Hpb : p ≠ bp) by lia. rewrite W2, decide_False, Hszp by done.
  assert (Hz : np = 0 ↔ p = base).
  { destruct F1 as [|u F1]; [injection E as <- <- _; done|]. injection E as _ E'. rewrite E' in Hg. apply gaps_app in Hg as (Hg' & Hnp' & _).
    pose proof (gaps_le _ _ _ Hg'). cbn in *. split; lia. }
  pose proof (gaps_le _ _ _ Hg1) as Hle1.
  apply (wp_join_prev p np bp m l2a); try done; try (rewrite ?W1, ?W2, ?W4, ?decide_True, ?decide_False by done; done).
  intros np' l2' s2 (V1 & V2 & V3 & V4) Hz1 Hz2 Hg' Hl2' Hcov2. unfold set_freep. wp_steps. rewrite W4 in V4.
  set (s3 := mkheap _ _ _ _). assert (Hh3 : ∀ x, hptr s3 x = if decide (x = p) then nxt l2' else if decide (x = bp) then nxt l2a else hptr s x).
  { intros x. cbn. rewrite V1. case_decide; [done|]. apply W1. }
  assert (Hs3 : ∀ x, hsize s3 x = if decide (x = p) then np' else if decide (x = bp) then m else hsize s x).
  { intros x. cbn. rewrite V2. case_decide; [done|]. apply W2. }
  assert (Hhigh : ∀ b, b ∈ l2a → bp < b.1).
  { intros b Hb. destruct (gaps_elem _ _ _ _ Hg1 Hb) as (H1 & _). pose proof (bend_lt (bp, m) Hm). cbn in *. lia. }
  pose proof (links_rewritten _ _ F1 p np' bp m l2 l2a l2' Hh3 Hlt HlF1 Hlow Hl2 Hsuf Hhigh Hl2') as Hlinks.
  assert (Hl2a : ∀ b, b ∈ l2a → b ∈ l2) by (intros b Hb; destruct Hsuf as [k ->]; elems).
  assert (HsF : ∀ b, b ∈ F1 ++ (p, np') :: l2' → hsize s3 b.1 = b.2).
  { intros b Hb. rewrite Hs3. apply elem_of_app in Hb as [Hb|Hb]; [|apply elem_of_cons in Hb as [->|Hb]].
    - assert (Hlb : b.1 < p) by (apply Hlow, elem_of_addrs; exists b.2; by destruct b). rewrite !decide_False by lia. apply Hsz. rewrite E. elems.
    - by rewrite decide_True.
    - assert (Hb' : b = (bp, m) ∨ b ∈ l2a) by (destruct Hl2' as [->| ->]; elems). destruct Hb' as [->|Hb'].
      + by rewrite decide_False, decide_True by (cbn; lia).
      + specialize (Hhigh _ Hb'). rewrite !decide_False by lia. by apply Hl2s, Hl2a. }
  assert (Hlen : (length l2' <= S (length l2))%nat).
  { apply suffix_length in Hsuf. destruct Hl2' as [->| ->]; cbn [length]; lia. }
  assert (Hcov : ∀ x, covered x ((p, np') :: l2') ↔ covered x ((p, np) :: l2) ∨ within x (bp, n)).
  { intros x. rewrite Hcov2. rewrite (covered_cons x (p, np)), (covered_cons x (p, np) l2). rewrite Hcov1. tauto. }
  assert (Hfin : ∀ l', (base, 0) :: l' = F1 ++ (p, np') :: l2' → gaps base l' (brk s) →
    (∀ x, covered x l' ↔ covered x l ∨ within x (bp, n)) → (length l' <= S (length l))%nat → Q tt s3).
  { intros l' E' Hg3 Hc3 Hlen3. apply (HQ s3 l'); [|done|done|done]. constructor; try done; cbn [brk s3].
    - by rewrite V4.
    - by rewrite V4.
    - by rewrite V4.
    - change (base :: addrs l' ++ [base]) with (addrs ((base, 0) :: l') ++ [base]). by rewrite E'.
    - by rewrite E'.
    - change (base :: addrs l') with (addrs ((base, 0) :: l')). rewrite E'. unfold addrs. rewrite fmap_app. elems.
    - intros a k Ha. rewrite V4. destruct (Hala a k Ha) as (A1 & A2 & A3 & A4). split; [done|]. split; [done|]. split; [done|].
      rewrite Hs3. rewrite decide_False, decide_False; [done| |].
      + intros ->. apply (Hal bp k bp Ha); by apply (within_start (bp, _)).
      + intros ->. apply (Hsep p k p Ha); [by apply (within_start (p, k))|]. exists (p, np). split.
        * destruct F1 as [|u F1]; [injection E as <- _ _; lia|]. injection E as _ E2. rewrite E2. elems.
        * apply (within_start (p, np)). cbn. assert (np ≠ 0) by (intros ?%Hz; lia). lia.
    - intros a k x Ha Hx. rewrite Hc3. intros [H|H]; [by eapply Hsep|by eapply Hal]. }
  destruct F1 as [|u F1].
  - injection E as Ep Enp El. cbn [app] in Hfin. assert (np' = 0) as -> by (by apply Hz1). subst p l2. apply (Hfin l2').
    + done.
    + unfold bend, hplus, HDR in Hg'. cbn in Hg'. by rewrite Z.add_0_r, W4 in Hg'.
    + intros x. specialize (Hcov x). rewrite !covered_cons in Hcov. subst np.
      assert (¬ within x (base, 0)) by (unfold within, bend, hplus, HDR; cbn; lia). tauto.
    + done.
  - injection E as Eu El. apply (Hfin (F1 ++ (p, np') :: l2')).
    + by subst u.
    + rewrite El in Hg. apply gaps_app in Hg as (G1 & G2 & G3). apply gaps_app. cbn [fst snd] in *. split; [done|]. split; [|by rewrite W4 in Hg'].
      apply Hz2. intros ->. pose proof (gaps_le _ _ _ G1). lia.
    + intros x. rewrite El, !covered_app, Hcov. tauto.
    + rewrite El, !length_app. cbn [length]. lia.
Qed.

(** ** Taking a block *)







(** ** The search *)




(** The kernel gives no memory above KERNBASE. *)
Context (grants_ok : ∀ b n, grants b n = true → 0 <= n → b + n <= 2147483648).


End specs.

(** ** Theorems *)





(** Free gives a block back.  Freeing a block that malloc has handed out
    returns, adds exactly the memory of the block to the free memory, joins it
    with free neighbours on both sides so that no two free blocks touch, and
    leaves every other block handed out alone. *)
Theorem free_releases fuel a n s l al : wf s l al → al !! a = Some n → (length l < fuel)%nat →
  ∃ s' l', free fuel (a + 8) s = Ok tt s' ∧ wf s' l' (delete a al) ∧ brk s' = brk s ∧
    ∀ x, covered x l' ↔ covered x l ∨ within x (a, n).
Proof.
  intros Hw Ha Hf. destruct (id Hw) as [Hb0 Hg Hbrk Htop Hl Hsz Hfp Hala Hsep Hdis].
  assert (Hw1 : wf s l (delete a al)).
  { constructor; try done.
    - intros a' k [_ Hk]%lookup_delete_Some. by apply Hala.
    - intros a' k x [_ Hk]%lookup_delete_Some. by apply Hsep.
    - intros a1 n1 a2 n2 x [_ H1]%lookup_delete_Some [_ H2]%lookup_delete_Some. by apply Hdis. }
  destruct (wp_total (free fuel (a + 8)) (λ _ s', ∃ l', wf s' l' (delete a al) ∧ brk s' = brk s ∧ ∀ x, covered x l' ↔ covered x l ∨ within x (a, n)) s)
    as ([] & s' & E & l' & H); [|by exists s', l'].
  destruct (Hala a n Ha) as (A1 & A2 & A3 & A4).
  replace (a + 8) with (hplus a 1) by (unfold hplus, HDR; lia). apply (wp_free s l (delete a al) a n); [done| | |done|].
  - constructor; try done. intros x. by apply Hsep.
  - intros a' k x [Hne Hk]%lookup_delete_Some Hx Hx'. apply Hne. by eapply (Hdis a n a' k).
  - intros s' l' H1 H2 H3 _. by exists l'.
Qed.
End heaps.

(** ** An example *)

Definition kernbase (b n : Z) : bool := b + n <=? 2147483648.


(** One block of two units handed out, the rest of the page free. *)
Definition heap1 : heap := mkheap (λ x, if x =? 8192 then 16384 else 8192) (λ x, if x =? 16384 then 510 else if x =? 20464 then 2 else 0) 8192 20480.
Lemma heap1_wf : wf 8192 heap1 [(16384, 510)] {[ 20464 := 2 ]}.
Proof.
  constructor; try done.
  - intros b Hb. apply elem_of_cons in Hb as [->|Hb]; [done|]. apply list_elem_of_singleton in Hb as ->. done.
  - cbn. elems.
  - intros a n [<- <-]%lookup_singleton_Some. done.
  - intros a n x [<- <-]%lookup_singleton_Some [Hx _] (b & Hb & _ & Hb2). apply list_elem_of_singleton in Hb as ->.
    unfold bend, hplus, HDR in Hb2. cbn in *. lia.
  - intros a n a' n' x [<- <-]%lookup_singleton_Some [<- <-]%lookup_singleton_Some. done.
Qed.
Lemma free_releases_witness : ∃ s' l', free 2 (20464 + 8) heap1 = Ok tt s' ∧ wf 8192 s' l' (delete 20464 {[ 20464 := 2 ]}) ∧ brk s' = brk heap1 ∧
  ∀ x, covered x l' ↔ covered x [(16384, 510)] ∨ within x (20464, 2).
Proof. apply (free_releases 8192 kernbase 2 20464 2 heap1 [(16384, 510)] {[ 20464 := 2 ]} heap1_wf); [reflexivity|cbn; lia]. Defined.

(** A request close to the largest number wraps around: malloc hands out a
    block of one header and no memory. *)
Theorem malloc_wraps : units 4294967295 = 1.
Proof. reflexivity. Qed.
End Umalloc.
